(* ===== verification/_CoqProject ===== *)
-Q . S2P
Prelude.v
PyDecimal.v
PyValue.v
State.v
Sha256.v
ClientOrderId.v
Receipts.v
Candidates.v
PortfolioRisk.v
RiskControls.v
Sampling.v
Funnel.v
Adapter.v
RuntimeLock.v
Quantities.v
Reconciliation.v
Entry.v
Exit.v
Protection.v
Recovery.v
FillNormalizer.v
AccountWriter.v
BinanceAdapter.v
Composition.v
Database.v
Repository.v
Transactions.v
Ledger.v
ExchangeFirst.v
RepositoryLaws.v
RecoveryExecutor.v
RecoveryRun.v
LocalState.v
Sha1.v
Canonical.v
Evidence.v
FactPersistence.v
FactLaws.v
SwitchLaws.v
FactRules.v
FactCases.v
Indicators.v
Decision.v
DecisionLaws.v
Cycle.v
CycleSteps.v
CycleRecovery.v
EntryGap.v
CycleRun.v
CycleEntry.v
CycleLaws.v
CycleSafety.v
CycleVenue.v
CycleCases.v
RecoveryProgress.v
Sizing.v
HistoricalLedger.v
RiskTiers.v
OperatorProfile.v
OperatorLaws.v
SchedulerCoordination.v
SchedulerSteps.v
SchedulerEntry.v
SchedulerLaws.v
SchedulerRules.v
SchedulerCases.v
RuntimeHold.v
RuntimeScheduler.v
RuntimeLaws.v
RuntimeCases.v
StrategyPackage.v
StrategyManifest.v
ForwardHandoff.v
StrategyAuthorization.v
AuthorizationLaws.v
ForwardLaws.v
StrategyCases.v
