(* ===== verification/Prelude.v ===== *)
(** * The automated trading engine V2

    A verification library of the execution core of the repository:
    [services/automated_trading], the engine that trades a Binance Testnet
    account from closed decision bars.  Definitions are translations of the
    Python source and keep its names and its order of guards; the map of the
    manifest names the lines of each.  A name of a file below is a file of this
    library, a path is one under [src/services/automated_trading/].

    ** The program, and the files that model it

    One cycle ([application/cycle_service.py]) converges the local facts on what
    the exchange reports, reconciles the two, recovers what differs, protects and
    exits what is open, evaluates the last closed bar, and enters at most one
    position.  Its parts are layered; a layer uses only the ones above it:

    - values.  [Prelude] (results, exceptions, the state monad [SM], generic
      lemmas), [PyDecimal] (28-digit decimals, half-even, against a specification
      over [Q]), [PyValue] (JSON-shaped payloads), [Sha256], [Sha1], [Canonical];
    - domain ([domain/]).  [State] (lifecycles and their tables), [ClientOrderId],
      [Receipts], [Candidates], [PortfolioRisk], [RiskControls], [Sampling],
      [Funnel] ([observability/decision_funnel.py]);
    - services over the interface [Adapter.ExchangeAdapter].  [Quantities],
      [Reconciliation], [Entry], [Exit], [Protection], [Recovery]
      ([application/*_service.py]); their theorems hold of every adapter;
    - the exchange ([infrastructure/]).  [AccountWriter] (the lease of the
      account), [FillNormalizer], [RuntimeLock], [BinanceAdapter], which
      implements [ExchangeAdapter] over an arbitrary client [VenueClient] and
      runs every mutation under the lease; [Composition] puts the services on it;
    - the database.  [Database] (tables, constraints, sessions over a [Host] that
      draws ids and times), [Repository] (every operation of
      [infrastructure/repository.py]), [Evidence], [LocalState];
      [FactPersistence] (the sessions a cycle writes around its exchange calls),
      [HistoricalLedger] ([application/historical_ledger.py]);
      [RecoveryExecutor] (both worlds: adapter and database);
    - decisions.  [Indicators], [Decision] ([application/decision_service.py]);
    - the cycle.  [Cycle] (request, result, sizing, policies), [CycleSteps],
      [CycleRecovery], [EntryGap], [CycleRun], [CycleEntry]: every function of
      [application/cycle_service.py], ending in [run_automated_trading_cycle],
      over the interfaces [CycleSteps.CycleAdapter] and [CycleSteps.CycleHost];
    - the scheduler ([services/execution/] of the repository).  [RiskTiers]
      (symbols, asset tiers and volatility, [risk_tiers.py]),
      [OperatorProfile] (the limits a symbol is requested with, and the authority
      of an entry), [SchedulerCoordination] (leases, fencing tokens, claims of
      slots), [SchedulerSteps] and [SchedulerEntry]
      ([v2_scheduler_entry.py]: one pass over the symbols, ending in
      [execute_v2_automated_trading_cycles]), over the class
      [SchedulerSteps.PassHost]; [RuntimeHold] (the switch on new entries) and
      [RuntimeScheduler] (the process around the passes: [scheduler.py]), over the
      class [RuntimeScheduler.SchedulerHost].

    - the strategies that may open.  [StrategyPackage] (the hashes of sources, rules
      and configuration), [StrategyManifest] (the active manifest, the registered
      candidates, the readers of [services/execution/bootstrap.py]),
      [ForwardHandoff] ([services/validation/forward_validation.py]) and
      [StrategyAuthorization] (the two resolvers of
      [application/production_strategy.py]), over the classes [StrategySources],
      [ManifestFile] and [HandoffModel] that stand for the files and for the
      model library.

    State is passed explicitly: [SM S A] is [S -> res A * S], and an exception
    keeps the state it was raised in, as in Python.  [stry] is [try/except],
    whose handler names the exceptions it catches; [with_session] discards what
    was not committed.

    ** What the theorems show

    - Abstract specification.  [Ledger] defines the lifecycles as a ledger with
      its own steps; every operation of [Repository], every sequence of sessions
      of [FactPersistence] ([FactLaws]), every recovery ([RecoveryRun]), every
      cycle ([CycleSafety]) and every scheduler pass ([SchedulerLaws]) refines it,
      whatever fails.  The event table replays
      to the tables; [ExchangeFirst]: positions come from fills, evidence grows.
    - Authority.  [CycleVenue]: a cycle opens exposure at the venue at most once,
      under the lease, with an ACTIVE engine, an authority, enabled entries and a
      durable intent; everything else it sends only reduces.
      [SchedulerLaws] carries this to a pass: at most one opening per symbol,
      only in the execution universe and under a strategy, a forward run or the
      process's canary switch.  [AccountWriter]: one current writer, superseded
      ones are fenced.  [SchedulerCoordination]: a fencing token is never granted
      to two owners however schedulers interleave, a slot is claimed once.
      [OperatorLaws]: resolved limits only tighten.  [RuntimeHold]: an operator's
      pause is kept however scheduler processes interleave; [RuntimeLaws]: under a
      recovery hold no cycle opens exposure, a hold is cleared only by a recovered
      pass, an authorization is published only of a consistent one.
    - Authorization.  [AuthorizationLaws]: production is authorized exactly for an
      approved manifest bound to the snapshot, the rules and the code at hand;
      [ForwardLaws]: forward only by a sealed handoff of this configuration on the
      testnet, and a handoff that validation builds is accepted;
      [StrategyPackage]: the code hash identifies the sources up to line endings.
    - Functional behaviour: gates as equivalences ([Entry], [Exit],
      [Reconciliation], [DecisionLaws]), what each execution reports and why
      ([Entry], [Exit], [Protection], [Recovery], [FactRules], [LocalState],
      [RepositoryLaws], [Evidence], [HistoricalLedger]), what a pass reports and
      which bars it remembers ([SchedulerRules]).
    - Arithmetic: [Quantities] (flooring through a rounded quotient is exact),
      [Sizing] (every ceiling, and the risk budget, up to named rounding).
    - Progress: [RecoveryProgress] (an unknown intent is settled by the first
      answer), termination and accounting of recoveries ([RecoveryRun]), bounded
      ladders ([Protection]), bounded restarts of the critical task
      ([RuntimeLaws]).
    - Particular runs: [FactCases], [CycleCases], [SchedulerCases], [RuntimeCases],
      [StrategyCases] and the last sections of other files evaluate the
      definitions; where the code and its words differ a theorem says so, and the
      manifest lists it as a finding.

    ** Conventions and bounds

    No definition has fuel: loops are over lists, over the attempts that remain,
    or structural.  Decimals are finite; NaN and infinity are refused where text
    is parsed; trailing zeros are not tracked, so the text of a decimal in a
    payload is a text of the same value, and a hash over it is one over such a
    text.  A float is the decimal of its [repr], and a product of floats is an
    operation of the class [RiskTiers.Floats].  A time is an integer of microseconds.  Strings are bytes of UTF-8;
    case conversion is that of ASCII.  The order that a float conversion sends is
    represented by the decimal it converts.  Free text (details, messages,
    reasons of people, metrics) is not modelled; an exception carries a tag that
    names its [raise].  An enumeration column is typed.  SQLite as the local
    runtime configures it: unique keys, partial indices and CHECK constraints,
    no foreign keys, CURRENT_TIMESTAMP in seconds, rows in order of insertion;
    two sessions do not interleave inside a BEGIN IMMEDIATE.  The coordinator's
    read and its write are two steps between which other schedulers run
    ([SchedulerCoordination.run_step]), and so are those of the switch on entries
    ([RuntimeHold.scheduler_call]); inside one pass they follow each other.  The
    runs of a supervised task are a list, each an arbitrary function of the state.
    Intervals are whole microseconds.

    Parameters, about which nothing is assumed: the venue client and its
    answers, the registry file as other processes change it, the clock, fresh
    ids, the JSON parser, the environment, the meta label predictor, the
    advisory AI review, the market data and the strategies a pass reads, the
    operator's store, the builders of forward and research evidence, and the
    diagnostics of the funnel payload ([payload_details]).  [RecoveryProgress]
    alone asks that fresh ids are new.

    ** Not modelled

    [_build_local_state_legacy], which nothing calls; the funnel payload's
    diagnostics; of [v2_scheduler_entry.py] the refresh of funding rows, the health
    fields of the account writer and the research observations (market data and
    reports, which no decision of a pass reads back); of [risk_tiers.py] the
    offline rebuilding of asset tiers from daily bars; the evaluation of an
    authorized strategy (pandas pipelines), its adjudication and the AI review (a
    language model); [domain/events.py] (data without
    behaviour); the audit reports; of [scheduler.py] the start-up contract, the
    periodic loops and tasks of asyncio with the coordinated claim around a run,
    and the state file.  Outside the engine: the legacy execution services the
    engine replaces, the strategy library, the research and data services,
    validation and review, the HTTP API, migrations, scripts and the frontend. *)
From stdpp Require Export base list strings gmap sets.
From Stdlib Require Export ZArith Lia.

(** ** Python exceptions and fallible results *)

(** The exception classes the modelled code raises or catches.  The payload of
    a [ValueError], [RuntimeError] or fence error is a short tag that names the
    [raise] statement, not the formatted message. *)
Inductive PyExc :=
  | ValueError (why : string)
  | RuntimeError (why : string)
  | TypeError (why : string)
  | KeyError (why : string)
  | ZeroDivisionError
  | IntegrityError (why : string)
  | FillNormalizationError (why : string)
  | BinanceAdapterUnavailable
  | AccountWriterFenceError (code : string)
  | ExchangeTimeout
  | ExitTimeout
  | ReduceOnlyAlreadyFlat
  | ProtectionTimeout
  | ProtectionSubmissionError
  | OtherException (why : string).

#[export] Instance PyExc_eq_dec : EqDecision PyExc.
Proof. solve_decision. Defined.

(** The result of a call that may raise. *)
Inductive res (A : Type) :=
  | Ok (a : A)
  | Raise (e : PyExc).
Arguments Ok {A} a.
Arguments Raise {A} e.

#[export] Instance res_ret : MRet res := fun A a => Ok a.
#[export] Instance res_bind : MBind res := fun A B f m =>
  match m with Ok a => f a | Raise e => Raise e end.

(** [assert_or b e]: [if not b: raise e]. *)
Definition assert_or (b : bool) (e : PyExc) : res unit :=
  if b then Ok tt else Raise e.

Definition is_ok {A} (r : res A) : bool :=
  match r with Ok _ => true | Raise _ => false end.

(** State passing with exceptions: an exception keeps the effects already
    performed, as in Python. *)
Definition SM (S A : Type) : Type := S -> res A * S.

Definition sret {S A} (a : A) : SM S A := fun s => (Ok a, s).
Definition sraise {S A} (e : PyExc) : SM S A := fun s => (Raise e, s).
Definition sbind {S A B} (m : SM S A) (f : A -> SM S B) : SM S B := fun s =>
  match m s with
  | (Ok a, s') => f a s'
  | (Raise e, s') => (Raise e, s')
  end.
(** [try: m except e: h e]; [h e = None] means the handler does not match. *)
Definition stry {S A} (m : SM S A) (h : PyExc -> option (SM S A)) : SM S A := fun s =>
  match m s with
  | (Raise e, s') => match h e with Some k => k s' | None => (Raise e, s') end
  | r => r
  end.
(** [try: x = m except e: return h e] followed by [k x] outside the [try]. *)
Definition stry_else {S A B} (m : SM S A) (h : PyExc -> option (SM S B)) (k : A -> SM S B) : SM S B :=
  fun s => match m s with
           | (Ok a, s') => k a s'
           | (Raise e, s') => match h e with Some r => r s' | None => (Raise e, s') end
           end.
Definition slift {S A} (r : res A) : SM S A := fun s => (r, s).
Definition sget {S} : SM S S := fun s => (Ok s, s).
Definition sput {S} (s' : S) : SM S unit := fun _ => (Ok tt, s').
Definition smodify {S} (f : S -> S) : SM S unit := fun s => (Ok tt, f s).
Definition sassert {S} (b : bool) (e : PyExc) : SM S unit :=
  if b then sret tt else sraise e.

Declare Scope py_scope.
Delimit Scope py_scope with py.
Notation "'let!' x ':=' m 'in' k" := (sbind m (fun x => k))
  (at level 200, x binder, m at level 100, k at level 200, right associativity) : py_scope.
Notation "m ';;;' k" := (sbind m (fun _ => k))
  (at level 199, k at level 200, right associativity) : py_scope.

(** ** Monad lemmas *)

Lemma res_bind_ok {A B} (m : res A) (f : A -> res B) b :
  m ≫= f = Ok b <-> exists a, m = Ok a /\ f a = Ok b.
Proof. destruct m; simpl; [|unfold mbind]; naive_solver. Qed.

Lemma assert_or_ok b e : assert_or b e = Ok tt <-> b = true.
Proof. destruct b; simpl; naive_solver. Qed.

Lemma assert_bind_ok {A} b e (k : res A) x :
  (assert_or b e ≫= fun _ => k) = Ok x <-> b = true /\ k = Ok x.
Proof. destruct b; unfold mbind; simpl; naive_solver. Qed.

(** ** Tactics shared by the development *)

(** Split the boolean conditions of the goal and hypotheses one by one. *)
Ltac case_bool :=
  match goal with
  | |- context [if ?b then _ else _] => destruct b eqn:?
  | H : context [if ?b then _ else _] |- _ => destruct b eqn:?
  end.

Ltac split_bools := repeat match goal with
  | H : (_ && _)%bool = true |- _ => apply andb_true_iff in H as [? ?]
  | H : (_ || _)%bool = false |- _ => apply orb_false_iff in H as [? ?]
  | H : negb _ = true |- _ => apply negb_true_iff in H
  | H : negb _ = false |- _ => apply negb_false_iff in H
  end.

(** Peel the assertions of a constructor that returned [Ok]. *)
Ltac inv_asserts := repeat match goal with
  | H : (assert_or _ _ ≫= _) = Ok _ |- _ => apply assert_bind_ok in H as [? H]
  | H : assert_or _ _ = Ok _ |- _ => apply assert_or_ok in H
  | H : Ok _ = Ok _ |- _ => injection H as H
  end.

(** Case analysis on membership in an explicit list. *)
Ltac elem_cases H :=
  repeat (apply elem_of_cons in H as [H|H]; [simplify_eq; try congruence|]);
  try (apply elem_of_nil in H; destruct H).

(** Evaluate a closed fallible call and name its result. *)
Ltac exists_ok :=
  match goal with
  | |- exists r, ?t = Ok r /\ _ =>
      let v := eval vm_compute in t in
      match v with Ok ?x => exists x; split; [vm_compute; reflexivity|] end
  end.

(** ** Inversion of a completed run *)

Lemma sret_inv {S A} (a : A) (s : S) r s' : sret a s = (r, s') -> r = Ok a /\ s' = s.
Proof. unfold sret. by intros [= <- <-]. Qed.

Lemma sraise_inv {S A} e (s : S) (r : res A) s' : sraise e s = (r, s') -> r = Raise e /\ s' = s.
Proof. unfold sraise. by intros [= <- <-]. Qed.

Lemma slift_inv {S A} (x : res A) (s : S) r s' : slift x s = (r, s') -> r = x /\ s' = s.
Proof. unfold slift. by intros [= <- <-]. Qed.

Lemma sget_inv {S} (s : S) r s' : sget s = (r, s') -> r = Ok s /\ s' = s.
Proof. unfold sget. by intros [= <- <-]. Qed.

Lemma smodify_inv {S} (f : S -> S) (s : S) r s' : smodify f s = (r, s') -> r = Ok tt /\ s' = f s.
Proof. unfold smodify. by intros [= <- <-]. Qed.

Lemma sassert_inv {S} b e (s : S) r s' :
  sassert b e s = (r, s') -> s' = s /\ (b = true /\ r = Ok tt \/ b = false /\ r = Raise e).
Proof. unfold sassert. destruct b; [intros [-> ->]%sret_inv|intros [-> ->]%sraise_inv]; auto. Qed.

Lemma sbind_inv {S A B} (m : SM S A) (f : A -> SM S B) (s : S) r s' :
  sbind m f s = (r, s') ->
  (exists a s1, m s = (Ok a, s1) /\ f a s1 = (r, s')) \/ (exists e, m s = (Raise e, s') /\ r = Raise e).
Proof.
  unfold sbind. destruct (m s) as [[a|e] s1] eqn:E; intros H; [left; eauto|right]. injection H as <- <-. eauto.
Qed.

Lemma stry_inv {S A} (m : SM S A) h (s : S) r s' :
  stry m h s = (r, s') ->
  (exists a, m s = (Ok a, s') /\ r = Ok a) \/
  (exists e s1, m s = (Raise e, s1) /\
     match h e with Some k => k s1 = (r, s') | None => r = Raise e /\ s' = s1 end).
Proof.
  unfold stry. destruct (m s) as [[a|e] s1] eqn:E; intros H; [left; injection H as <- <-; eauto|right].
  exists e, s1. split; [done|]. destruct (h e); [done|]. by injection H as <- <-.
Qed.

Lemma stry_else_inv {S A B} (m : SM S A) h (k : A -> SM S B) (s : S) r s' :
  stry_else m h k s = (r, s') ->
  (exists a s1, m s = (Ok a, s1) /\ k a s1 = (r, s')) \/
  (exists e s1, m s = (Raise e, s1) /\
     match h e with Some q => q s1 = (r, s') | None => r = Raise e /\ s' = s1 end).
Proof.
  unfold stry_else. destruct (m s) as [[a|e] s1] eqn:E; intros H; [left; eauto|right].
  exists e, s1. split; [done|]. destruct (h e); [done|]. by injection H as <- <-.
Qed.

(** Decompose one layer of a hypothesis [m s = (r, s')]; a call of an operation
    that is not a combinator is left alone. *)
Ltac inv_run1 :=
  match goal with
  | H : sret _ _ = (_, _) |- _ => apply sret_inv in H as [? ?]; simplify_eq
  | H : sraise _ _ = (_, _) |- _ => apply sraise_inv in H as [? ?]; simplify_eq
  | H : slift _ _ = (_, _) |- _ => apply slift_inv in H as [? ?]; simplify_eq
  | H : sget _ = (_, _) |- _ => apply sget_inv in H as [? ?]; simplify_eq
  | H : smodify _ _ = (_, _) |- _ => apply smodify_inv in H as [? ?]; simplify_eq
  | H : sassert _ _ _ = (_, _) |- _ => apply sassert_inv in H as [? [[? ?]|[? ?]]]; simplify_eq
  | H : sbind _ _ _ = (_, _) |- _ => apply sbind_inv in H as [(? & ? & ? & H)|(? & H & ?)]; simplify_eq
  | H : stry _ _ _ = (_, _) |- _ => apply stry_inv in H as [(? & H & ?)|(? & ? & ? & H)]; simplify_eq
  | H : stry_else _ _ _ _ = (_, _) |- _ =>
      apply stry_else_inv in H as [(? & ? & ? & H)|(? & ? & ? & H)]; simplify_eq
  | H : (if ?b then _ else _) _ = (_, _) |- _ => destruct b eqn:?; simplify_eq
  | H : (match ?x with _ => _ end) _ = (_, _) |- _ => destruct x eqn:?; simplify_eq
  end.
Ltac inv_run := repeat inv_run1.

(** ** Generic list and option lemmas *)

Definition is_nonempty {A} (l : list A) : bool :=
  match l with [] => false | _ => true end.

Lemma is_nonempty_true {A} (l : list A) : is_nonempty l = true <-> l <> [].
Proof. destruct l; simpl; naive_solver. Qed.

Lemma is_nonempty_false {A} (l : list A) : is_nonempty l = false <-> l = [].
Proof. destruct l; simpl; naive_solver. Qed.

(** Truthiness of a Python string and of an optional string. *)
Definition str_truthy (s : string) : bool :=
  match s with EmptyString => false | _ => true end.
Definition ostr_truthy (o : option string) : bool :=
  match o with Some s => str_truthy s | None => false end.

Lemma str_truthy_true s : str_truthy s = true <-> s <> ""%string.
Proof. destruct s; simpl; naive_solver. Qed.

(** [x or y] on optional strings, with a string default. *)
Definition ostr_or (o : option string) (d : string) : string :=
  match o with Some s => if str_truthy s then s else d | None => d end.

(** [dict.fromkeys(l)]: the first occurrences, in order. *)
Fixpoint fromkeys_from (seen l : list string) : list string :=
  match l with
  | [] => []
  | x :: l' => if decide (x ∈ seen) then fromkeys_from seen l'
               else x :: fromkeys_from (x :: seen) l'
  end.
Definition fromkeys (l : list string) : list string := fromkeys_from [] l.

Lemma elem_of_fromkeys_from x seen l :
  x ∈ fromkeys_from seen l <-> x ∈ l /\ x ∉ seen.
Proof.
  revert seen; induction l as [|y l IH]; intros seen; simpl; [set_solver|].
  case_decide as Hy; [rewrite IH; set_solver|].
  rewrite elem_of_cons, IH. destruct (decide (x = y)); set_solver.
Qed.

Lemma elem_of_fromkeys x l : x ∈ fromkeys l <-> x ∈ l.
Proof. unfold fromkeys. rewrite elem_of_fromkeys_from. set_solver. Qed.

Lemma NoDup_fromkeys_from seen l : NoDup (fromkeys_from seen l).
Proof.
  revert seen; induction l as [|y l IH]; intros seen; simpl; [constructor|].
  case_decide; [done|]. constructor; [|done].
  rewrite elem_of_fromkeys_from. set_solver.
Qed.

Lemma NoDup_fromkeys l : NoDup (fromkeys l).
Proof. apply NoDup_fromkeys_from. Qed.

Create HintDb pylib discriminated.
#[export] Hint Resolve NoDup_fromkeys : pylib.
#[export] Hint Rewrite @is_nonempty_true @is_nonempty_false elem_of_fromkeys : pylib.

(** [str.lower] on ASCII letters; other bytes are unchanged. *)
Definition ascii_lower (a : Ascii.ascii) : Ascii.ascii :=
  let n := Ascii.N_of_ascii a in
  if ((65 <=? n) && (n <=? 90))%N%bool then Ascii.ascii_of_N (n + 32) else a.
Fixpoint str_lower (s : string) : string :=
  match s with
  | EmptyString => EmptyString
  | String a s' => String (ascii_lower a) (str_lower s')
  end.

(** [str.upper] on ASCII letters. *)
Definition ascii_upper (a : Ascii.ascii) : Ascii.ascii :=
  let n := Ascii.N_of_ascii a in
  if ((97 <=? n) && (n <=? 122))%N%bool then Ascii.ascii_of_N (n - 32) else a.
Fixpoint str_upper (s : string) : string :=
  match s with
  | EmptyString => EmptyString
  | String a s' => String (ascii_upper a) (str_upper s')
  end.

(** [[x for x in l if f(x)]] and its length. *)
Definition bfilter {A} (f : A -> bool) (l : list A) : list A := List.filter f l.
Definition zcount {A} (f : A -> bool) (l : list A) : Z := Z.of_nat (length (bfilter f l)).

Lemma bfilter_sublist {A} (f : A -> bool) l l' : sublist l l' -> sublist (bfilter f l) (bfilter f l').
Proof.
  induction 1 as [|x ? ? ? IH|x ? ? ? IH]; simpl; [done| |]; destruct (f x); try done; by constructor.
Qed.

Lemma zcount_cons {A} (f : A -> bool) x l : zcount f (x :: l) = ((if f x then 1 else 0) + zcount f l)%Z.
Proof. unfold zcount, bfilter. simpl. destruct (f x); simpl; lia. Qed.

Lemma zcount_nil {A} (f : A -> bool) (l : list A) : (forall x, x ∈ l -> f x = false) -> zcount f l = 0%Z.
Proof.
  induction l as [|x l IH]; intros H; [done|]. rewrite zcount_cons, IH, (H x); set_solver.
Qed.

Lemma zcount_app {A} (f : A -> bool) l l' : zcount f (l ++ l') = (zcount f l + zcount f l')%Z.
Proof. unfold zcount, bfilter. rewrite List.filter_app, length_app. lia. Qed.
Lemma zcount_le {X} (f g : X -> bool) l : (forall x, f x = true -> g x = true) -> (zcount f l <= zcount g l)%Z.
Proof.
  intros Hfg. induction l as [|x l IH]; [done|]. rewrite !zcount_cons. specialize (Hfg x). destruct (f x), (g x); naive_solver lia.
Qed.
Lemma zcount_nonneg {A} (f : A -> bool) (l : list A) : (0 <= zcount f l)%Z.
Proof. unfold zcount. lia. Qed.

Lemma elem_of_bfilter {A} (f : A -> bool) (l : list A) x : x ∈ bfilter f l <-> x ∈ l /\ f x = true.
Proof. unfold bfilter. rewrite !list_elem_of_In. apply filter_In. Qed.

(** Every character satisfies a test. *)
Fixpoint all_chars (p : Ascii.ascii -> bool) (s : string) : bool :=
  match s with EmptyString => true | String c s' => p c && all_chars p s' end.

Lemma all_chars_app p a b : all_chars p (a +:+ b) = all_chars p a && all_chars p b.
Proof. induction a as [|c a IH]; simpl; [done|]. rewrite IH. apply andb_assoc. Qed.

Lemma all_chars_impl (p q : Ascii.ascii -> bool) s :
  (forall c, p c = true -> q c = true) -> all_chars p s = true -> all_chars q s = true.
Proof.
  intros H. induction s as [|c s IH]; simpl; [done|]. rewrite !andb_true_iff. intros [? ?]. auto.
Qed.

(** ** Compositional reasoning about programs with exceptions *)

(** [m] keeps an invariant of the state, however it ends. *)
Definition preserves {S A} (P : S -> Prop) (m : SM S A) : Prop :=
  forall s r s', P s -> m s = (r, s') -> P s'.

(** [m] raises only exceptions of [E]. *)
Definition raises {S A} (E : PyExc -> Prop) (m : SM S A) : Prop :=
  forall s e s', m s = (Raise e, s') -> E e.

Section compositional.
Context {S A B : Type} (P : S -> Prop) (E : PyExc -> Prop).

Lemma preserves_ret (a : A) : preserves P (sret a).
Proof. by intros s r s' Hs [-> ->]%sret_inv. Qed.
Lemma preserves_raise e : preserves P (@sraise S A e).
Proof. by intros s r s' Hs [-> ->]%sraise_inv. Qed.
Lemma preserves_lift (x : res A) : preserves P (slift x).
Proof. by intros s r s' Hs [-> ->]%slift_inv. Qed.
Lemma preserves_assert b e : preserves P (sassert b e).
Proof. intros s r s' Hs [-> _]%sassert_inv. done. Qed.
Lemma preserves_bind (m : SM S A) (f : A -> SM S B) :
  preserves P m -> (forall a, preserves P (f a)) -> preserves P (sbind m f).
Proof.
  intros Hm Hf s r s' Hs [(a & s1 & H1 & H2)|(e & H1 & ->)]%sbind_inv; [|by eapply Hm].
  eapply Hf; [|exact H2]. by eapply Hm.
Qed.
Lemma preserves_try (m : SM S A) h :
  preserves P m -> (forall e k, h e = Some k -> preserves P k) -> preserves P (stry m h).
Proof.
  intros Hm Hh s r s' Hs [(a & H1 & ->)|(e & s1 & H1 & H2)]%stry_inv; [by eapply Hm|].
  assert (P s1) by (by eapply Hm). destruct (h e) as [k|] eqn:Ek; [by eapply Hh|by destruct H2 as [-> ->]].
Qed.

Lemma preserves_try_else {C} (m : SM S C) h (k : C -> SM S A) :
  preserves P m -> (forall e q, h e = Some q -> preserves P q) -> (forall c, preserves P (k c)) ->
  preserves P (stry_else m h k).
Proof.
  intros Hm Hh Hk s r s' Hs [(c & s1 & H1 & H2)|(e & s1 & H1 & H2)]%stry_else_inv; assert (P s1) by (by eapply Hm).
  - by eapply Hk.
  - destruct (h e) as [q|] eqn:Eq; [by eapply Hh|by destruct H2 as [-> ->]].
Qed.

Lemma raises_ret (a : A) : raises E (@sret S A a).
Proof. by intros s e s' [? _]%sret_inv. Qed.
Lemma raises_raise e : E e -> raises E (@sraise S A e).
Proof. intros He s e' s' [H ->]%sraise_inv. by simplify_eq. Qed.
Lemma raises_bind (m : SM S A) (f : A -> SM S B) :
  raises E m -> (forall a, raises E (f a)) -> raises E (sbind m f).
Proof.
  intros Hm Hf s e s' [(a & s1 & H1 & H2)|(e' & H1 & H2)]%sbind_inv; [by eapply Hf|]. simplify_eq. by eapply Hm.
Qed.
(** Only the exceptions a handler lets through or raises itself escape a [try]. *)
Lemma raises_try (m : SM S A) h :
  (forall e k, h e = Some k -> raises E k) -> (forall e, h e = None -> E e) -> raises E (stry m h).
Proof.
  intros Hh Hn s e s' [(a & H1 & H2)|(e1 & s1 & H1 & H2)]%stry_inv; [done|].
  destruct (h e1) as [k|] eqn:Ek; [by eapply Hh|]. destruct H2 as [H2 ->]. simplify_eq. by apply Hn.
Qed.
End compositional.

Create HintDb programs discriminated.
#[export] Hint Resolve preserves_ret preserves_raise preserves_lift preserves_assert preserves_bind preserves_try
  raises_ret raises_raise raises_bind : programs.
