(* ===== verification/PyDecimal.v ===== *)
(** * PyDecimal: Python's [decimal.Decimal] on finite values

    A finite decimal is a coefficient and an exponent; every arithmetic
    operator returns the exact result rounded to the 28 significant digits of
    the default context, ties to even.  Values are compared exactly.  The
    correctly-rounded specification [rounds] is stated over [Q]; the
    executable operators are proved to implement it, and the components use
    the lemmas derived from it (monotonicity, exactness on representable
    results, sign, relative error).  Two decimals with the same value are
    interchangeable for the modelled code, so trailing zeros are not tracked;
    exponent overflow (Emax = 999999) is out of scope. *)
From S2P Require Import Prelude.
From Stdlib Require Export QArith Qpower Qabs Lqa.

Local Open Scope Z_scope.

Record Dec := mkDec { coef : Z; dexp : Z }.

#[export] Instance Dec_eq_dec : EqDecision Dec.
Proof. solve_decision. Defined.

Definition PREC : Z := 28.

(** ** Powers of ten over [Q] *)

Definition p10 (k : Z) : Q := Qpower (10 # 1) k.

Definition dval (d : Dec) : Q := (inject_Z (coef d) * p10 (dexp d))%Q.

Lemma ten_nonzero : ~ ((10 # 1) == 0)%Q.
Proof. discriminate. Qed.

Lemma p10_pos k : (0 < p10 k)%Q.
Proof. apply Qpower_0_lt. reflexivity. Qed.

Lemma p10_add a b : (p10 (a + b) == p10 a * p10 b)%Q.
Proof. apply Qpower_plus, ten_nonzero. Qed.

Lemma p10_inject n : 0 <= n -> (p10 n == inject_Z (10 ^ n))%Q.
Proof. intros Hn. unfold p10. now rewrite <- (Zpower_Qpower 10 n Hn). Qed.

Lemma p10_split a b : (p10 a == p10 (a - b) * p10 b)%Q.
Proof. rewrite <- p10_add. now replace (a - b + b) with a by lia. Qed.

Lemma p10_le a b : a <= b -> (p10 a <= p10 b)%Q.
Proof.
  intros H. rewrite (p10_split b a), (p10_inject (b - a)) by lia.
  pose proof (p10_pos a).
  assert (1 <= inject_Z (10 ^ (b - a)))%Q.
  { change 1%Q with (inject_Z 1). rewrite <- Zle_Qle.
    pose proof (Z.pow_pos_nonneg 10 (b - a)). lia. }
  nra.
Qed.

Lemma p10_opp k : (p10 (- k) * p10 k == 1)%Q.
Proof. rewrite <- p10_add. replace (- k + k) with 0 by lia. reflexivity. Qed.

Lemma pow10_pos n : 0 <= n -> 0 < 10 ^ n.
Proof. intros. apply Z.pow_pos_nonneg; lia. Qed.

(** ** Decimal digits of an integer *)

Fixpoint ndigits_fuel (fuel : nat) (n : Z) : Z :=
  match fuel with
  | O => 0
  | S f => if n =? 0 then 0 else 1 + ndigits_fuel f (n / 10)
  end.

Lemma ndigits_fuel_spec f n :
  0 < n -> n < 2 ^ Z.of_nat f ->
  1 <= ndigits_fuel f n /\ 10 ^ (ndigits_fuel f n - 1) <= n < 10 ^ ndigits_fuel f n.
Proof.
  revert n; induction f as [|f IH]; intros n Hn Hlt; [simpl in Hlt; lia|].
  cbn [ndigits_fuel]. destruct (Z.eqb_spec n 0); [lia|].
  rewrite Nat2Z.inj_succ, Z.pow_succ_r in Hlt by lia.
  pose proof (Z.div_mod n 10 ltac:(lia)) as Hdm.
  pose proof (Z.mod_pos_bound n 10 ltac:(lia)) as Hm.
  destruct (Z.eq_dec (n / 10) 0) as [Hz|Hz].
  - rewrite Hz. replace (ndigits_fuel f 0) with 0 by now destruct f. simpl. lia.
  - assert (0 <= n / 10) by (apply Z.div_pos; lia).
    destruct (IH (n / 10)) as (H1 & H2 & H3); [lia|lia|].
    set (d := ndigits_fuel f (n / 10)) in *.
    replace (1 + d - 1) with (Z.succ (d - 1)) by lia.
    replace (1 + d) with (Z.succ d) by lia.
    rewrite !Z.pow_succ_r by lia. lia.
Qed.

(** [len(str(n))] for [n > 0], and [0] for [0]: the binary logarithm gives the
    answer up to one, except for numbers beyond every decimal of the program. *)
Definition ndigits (n : Z) : Z :=
  let d := Z.log2 n * 30103 / 100000 + 1 in
  if (10 ^ (d - 1) <=? n) && (n <? 10 ^ (d + 1)) then (if n <? 10 ^ d then d else d + 1)
  else ndigits_fuel (Z.to_nat (Z.log2 n + 1)) n.

Lemma ndigits_spec n :
  0 < n -> 1 <= ndigits n /\ 10 ^ (ndigits n - 1) <= n < 10 ^ ndigits n.
Proof.
  intros Hn. pose proof (Z.log2_nonneg n) as Hl. unfold ndigits.
  assert (0 <= Z.log2 n * 30103 / 100000) as Hd by (apply Z.div_pos; lia).
  set (d := Z.log2 n * 30103 / 100000 + 1) in *.
  destruct ((_ <=? n) && _) eqn:E.
  - apply andb_true_iff in E as [E1%Z.leb_le E2%Z.ltb_lt].
    destruct (Z.ltb_spec n (10 ^ d)); [lia|]. replace (d + 1 - 1) with d by lia. lia.
  - apply ndigits_fuel_spec; [done|]. rewrite Z2Nat.id, Z.add_1_r by lia. apply Z.log2_spec, Hn.
Qed.

(** ** Rounding a ratio half to even *)

(** [num / den] rounded to the nearest integer, ties to even ([den > 0]). *)
Definition he_div (num den : Z) : Z :=
  let q := num / den in
  let r := num mod den in
  if 2 * r <? den then q
  else if den <? 2 * r then q + 1
  else if Z.even q then q else q + 1.

(** The nearest integer to [x], ties to even. *)
Definition half_even (x : Q) (n : Z) : Prop :=
  (Qabs (inject_Z n - x) <= 1 # 2)%Q /\
  ((Qabs (inject_Z n - x) == 1 # 2)%Q -> Z.even n = true).

Lemma Qabs_le_iff x b : (Qabs x <= b <-> - b <= x /\ x <= b)%Q.
Proof. apply Qabs_Qle_condition. Qed.

Lemma Qabs_eq_cases x b : (0 <= b)%Q -> (Qabs x == b <-> x == b \/ x == - b)%Q.
Proof.
  intros Hb. split.
  - intros H. revert H. apply Qabs_case; intros ? H; [left|right]; lra.
  - intros [H|H]; rewrite H; [now apply Qabs_pos|].
    rewrite Qabs_opp. now apply Qabs_pos.
Qed.

Lemma half_even_mono x y m n :
  (x <= y)%Q -> half_even x m -> half_even y n -> m <= n.
Proof.
  intros Hxy [Hm Em] [Hn En].
  destruct (Z.le_gt_cases m n) as [|Hlt]; [done|exfalso].
  apply Qabs_le_iff in Hm as [Hm1 Hm2], Hn as [Hn1 Hn2].
  assert (inject_Z n + 1 <= inject_Z m)%Q as Hmn.
  { change 1%Q with (inject_Z 1). rewrite <- inject_Z_plus, <- Zle_Qle. lia. }
  assert (inject_Z m == inject_Z n + 1)%Q as Heq by lra.
  assert (Z.even m = true) as Hem.
  { apply Em, Qabs_eq_cases; [lra|]. left; lra. }
  assert (Z.even n = true) as Hen.
  { apply En, Qabs_eq_cases; [lra|]. right; lra. }
  assert (m = n + 1) as ->.
  { change 1%Q with (inject_Z 1) in Heq. rewrite <- inject_Z_plus in Heq.
    unfold Qeq in Heq. cbn in Heq. lia. }
  rewrite Z.add_1_r, Z.even_succ, <- Z.negb_even, Hen in Hem. discriminate.
Qed.

Lemma half_even_int n : half_even (inject_Z n) n.
Proof.
  assert (inject_Z n - inject_Z n == 0)%Q as H0 by ring.
  split; rewrite H0; [now vm_compute|]. intros H. now vm_compute in H.
Qed.

Lemma half_even_comp x y n : (x == y)%Q -> half_even x n -> half_even y n.
Proof. unfold half_even. intros ->. done. Qed.

Lemma he_div_spec num den :
  0 < den -> half_even (inject_Z num / inject_Z den) (he_div num den).
Proof.
  intros Hd. unfold he_div, half_even.
  pose proof (Z.div_mod num den ltac:(lia)) as Hdm.
  pose proof (Z.mod_pos_bound num den Hd) as Hr.
  set (q := num / den) in *. set (r := num mod den) in *.
  assert (0 < inject_Z den)%Q as HdQ by (change 0%Q with (inject_Z 0); now rewrite <- Zlt_Qlt).
  assert (inject_Z num / inject_Z den == inject_Z q + inject_Z r / inject_Z den)%Q as ->.
  { rewrite Hdm, inject_Z_plus, inject_Z_mult. field. lra. }
  set (f := (inject_Z r / inject_Z den)%Q).
  assert (f * inject_Z den == inject_Z r)%Q as Hf by (unfold f; field; lra).
  assert (0 <= inject_Z r)%Q by (change 0%Q with (inject_Z 0); rewrite <- Zle_Qle; lia).
  assert (forall a, Qabs (inject_Z (q + a) - (inject_Z q + f)) == Qabs (inject_Z a - f))%Q as Hab.
  { intros a. apply Qabs_wd. rewrite inject_Z_plus. ring. }
  assert (Qabs (inject_Z q - (inject_Z q + f)) == f)%Q as Ha0.
  { rewrite <- (Z.add_0_r q) at 1. rewrite (Hab 0).
    rewrite (Qabs_wd _ (- f)) by (cbn; ring). rewrite Qabs_opp. apply Qabs_pos. nra. }
  assert (Qabs (inject_Z (q + 1) - (inject_Z q + f)) == 1 - f)%Q as Ha1.
  { rewrite (Hab 1). apply Qabs_pos. change (inject_Z 1) with 1%Q.
    assert (inject_Z r <= inject_Z den)%Q by (rewrite <- Zle_Qle; lia). nra. }
  assert (forall z, inject_Z (2 * z) == 2 * inject_Z z)%Q as H2z.
  { intros z. rewrite inject_Z_mult. reflexivity. }
  destruct (Z.ltb_spec (2 * r) den) as [Hlt|Hge].
  { rewrite Ha0. rewrite Zlt_Qlt, H2z in Hlt.
    assert (f < 1 # 2)%Q by nra. split; [lra|]. intros; lra. }
  destruct (Z.ltb_spec den (2 * r)) as [Hlt|Hle].
  { rewrite Ha1. rewrite Zlt_Qlt, H2z in Hlt.
    assert ((1 # 2) < f)%Q by nra. split; [lra|]. intros; lra. }
  assert (2 * r = den) as Heq by lia.
  assert (f == 1 # 2)%Q as Hf2.
  { apply (f_equal inject_Z) in Heq. pose proof (H2z r) as H2. rewrite Heq in H2. nra. }
  destruct (Z.even q) eqn:Eq.
  - rewrite Ha0, Hf2. split; [lra|done].
  - rewrite Ha1, Hf2. split; [lra|]. intros _.
    rewrite Z.add_1_r, Z.even_succ, <- Z.negb_even, Eq. done.
Qed.

(** ** Correct rounding to [PREC] significant digits *)

(** [v] is the positive [X] rounded to 28 significant digits, ties to even. *)
Definition pos_rounds (X v : Q) : Prop :=
  exists K n, (v == inject_Z n * p10 K)%Q
    /\ (p10 27 * p10 K <= X)%Q /\ (X < p10 28 * p10 K)%Q
    /\ half_even (X * p10 (- K)) n.

(** The specification of every context operation. *)
Definition rounds (X v : Q) : Prop :=
  (X == 0 /\ v == 0)%Q \/ ((0 < X)%Q /\ pos_rounds X v) \/ ((X < 0)%Q /\ pos_rounds (- X) (- v)).

(** Values a 28-digit decimal can represent exactly. *)
Definition fits (v : Q) : Prop :=
  exists c e, (v == inject_Z c * p10 e)%Q /\ Z.abs c <= 10 ^ PREC.

(** Unit roundoff: half a unit in the 28th digit. *)
Definition uround : Q := 5 # (10 ^ 28).

#[export] Instance pos_rounds_proper : Proper (Qeq ==> Qeq ==> iff) pos_rounds.
Proof.
  assert (forall X X' v v', (X == X')%Q -> (v == v')%Q -> pos_rounds X v -> pos_rounds X' v') as Himp.
  { intros X X' v v' HX Hv (K & n & H1 & H2 & H3 & H4). exists K, n.
    split; [now rewrite <- Hv|]. split; [now rewrite <- HX|]. split; [now rewrite <- HX|].
    eapply half_even_comp; [|exact H4]. now rewrite HX. }
  intros X X' HX v v' Hv. split; eapply Himp; eauto; now symmetry.
Qed.

#[export] Instance rounds_proper : Proper (Qeq ==> Qeq ==> iff) rounds.
Proof. intros X X' HX v v' Hv. unfold rounds. now rewrite HX, Hv. Qed.

#[export] Instance fits_proper : Proper (Qeq ==> iff) fits.
Proof. intros v v' Hv. unfold fits. now setoid_rewrite Hv. Qed.

Lemma Qle_mult_r_pos a b c : (0 < c -> (a <= b <-> a * c <= b * c))%Q.
Proof. intros. split; intros; nra. Qed.

Lemma scale_bounds X K :
  (p10 27 * p10 K <= X)%Q -> (X < p10 28 * p10 K)%Q ->
  (p10 27 <= X * p10 (- K) /\ X * p10 (- K) < p10 28)%Q.
Proof.
  intros H1 H2. pose proof (p10_pos (- K)).
  assert (forall a, a * p10 K * p10 (- K) == a)%Q as Hc.
  { intros a. transitivity (a * (p10 (- K) * p10 K))%Q; [ring|]. rewrite p10_opp. ring. }
  split.
  - rewrite <- (Hc (p10 27)). now apply Qmult_le_r.
  - rewrite <- (Hc (p10 28)). now apply Qmult_lt_r.
Qed.

Lemma p10_half_even k : 0 <= k -> half_even (p10 k) (10 ^ k).
Proof.
  intros Hk. eapply half_even_comp; [symmetry; now apply p10_inject|]. apply half_even_int.
Qed.

Lemma pos_rounds_coef_bounds X K n :
  (p10 27 * p10 K <= X)%Q -> (X < p10 28 * p10 K)%Q -> half_even (X * p10 (- K)) n ->
  10 ^ 27 <= n <= 10 ^ 28.
Proof.
  intros H1 H2 Hn. destruct (scale_bounds X K H1 H2) as [H3 H4]. split.
  - eapply half_even_mono; [exact H3| |exact Hn]. now apply p10_half_even.
  - eapply half_even_mono; [|exact Hn|now apply p10_half_even]. lra.
Qed.

Lemma pos_rounds_pos X v : pos_rounds X v -> (0 < v)%Q.
Proof.
  intros (K & n & Hv & H1 & H2 & Hn). rewrite Hv.
  destruct (pos_rounds_coef_bounds _ _ _ H1 H2 Hn) as [Hl _].
  pose proof (p10_pos K).
  assert (1 <= inject_Z n)%Q by (change 1%Q with (inject_Z 1); rewrite <- Zle_Qle; lia). nra.
Qed.

Lemma inject_pow27 : (inject_Z (10 ^ 27) == p10 27)%Q.
Proof. symmetry. now apply p10_inject. Qed.
Lemma inject_pow28 : (inject_Z (10 ^ 28) == p10 28)%Q.
Proof. symmetry. now apply p10_inject. Qed.

Lemma pos_rounds_mono X Y v w :
  (X <= Y)%Q -> pos_rounds X v -> pos_rounds Y w -> (v <= w)%Q.
Proof.
  intros HXY (K & n & Hv & H1 & H2 & Hn) (L & m & Hw & H3 & H4 & Hm).
  rewrite Hv, Hw.
  destruct (pos_rounds_coef_bounds _ _ _ H1 H2 Hn) as [_ Hn2].
  destruct (pos_rounds_coef_bounds _ _ _ H3 H4 Hm) as [Hm1 _].
  destruct (Z.lt_trichotomy K L) as [Hlt|[->|Hgt]].
  - rewrite Zle_Qle in Hn2, Hm1. rewrite inject_pow28 in Hn2. rewrite inject_pow27 in Hm1.
    assert (p10 28 * p10 K <= p10 27 * p10 L)%Q as Hp.
    { rewrite <- !p10_add. apply p10_le. lia. }
    pose proof (p10_pos K). pose proof (p10_pos L).
    assert (inject_Z n * p10 K <= p10 28 * p10 K)%Q by (apply Qmult_le_r; done).
    assert (p10 27 * p10 L <= inject_Z m * p10 L)%Q by (apply Qmult_le_r; done). lra.
  - pose proof (p10_pos L). apply Qmult_le_r; [done|]. rewrite <- Zle_Qle.
    eapply half_even_mono; [|exact Hn|exact Hm]. apply Qmult_le_r; [apply p10_pos|done].
  - exfalso. assert (p10 28 * p10 L <= p10 27 * p10 K)%Q by (rewrite <- !p10_add; apply p10_le; lia).
    lra.
Qed.

(** Rounding keeps the sign. *)
Lemma rounds_pos X v : (0 < X)%Q -> rounds X v -> (0 < v)%Q.
Proof. intros HX [[H _]|[[_ H]|[H _]]]; [lra| |lra]. eapply pos_rounds_pos; eauto. Qed.

Lemma rounds_zero X v : (X == 0)%Q -> rounds X v -> (v == 0)%Q.
Proof. intros HX [[_ H]|[[H _]|[H _]]]; lra. Qed.

Lemma rounds_neg X v : (X < 0)%Q -> rounds X v -> (v < 0)%Q.
Proof. intros HX [[H _]|[[H _]|[_ H]]]; [lra|lra|]. apply pos_rounds_pos in H. lra. Qed.

(** Rounding is monotone; in particular the rounded value is unique. *)
Theorem rounds_mono X Y v w : (X <= Y)%Q -> rounds X v -> rounds Y w -> (v <= w)%Q.
Proof.
  intros HXY Hv Hw.
  destruct (Q_dec X 0) as [[HX|HX]|HX], (Q_dec Y 0) as [[HY|HY]|HY]; try (exfalso; lra).
  - destruct Hv as [[? _]|[[? _]|[_ Hv]]]; [exfalso; lra..|].
    destruct Hw as [[? _]|[[? _]|[_ Hw]]]; [exfalso; lra..|].
    assert (- w <= - v)%Q; [|lra]. eapply pos_rounds_mono; [|exact Hw|exact Hv]. lra.
  - pose proof (rounds_neg _ _ HX Hv). pose proof (rounds_pos _ _ HY Hw). lra.
  - pose proof (rounds_neg _ _ HX Hv). pose proof (rounds_zero _ _ HY Hw). lra.
  - destruct Hv as [[? _]|[[_ Hv]|[? _]]]; [exfalso; lra| |exfalso; lra].
    destruct Hw as [[? _]|[[_ Hw]|[? _]]]; [exfalso; lra| |exfalso; lra].
    eapply pos_rounds_mono; eauto.
  - pose proof (rounds_zero _ _ HX Hv). pose proof (rounds_pos _ _ HY Hw). lra.
  - pose proof (rounds_zero _ _ HX Hv). pose proof (rounds_zero _ _ HY Hw). lra.
Qed.

Lemma rounds_unique X v w : rounds X v -> rounds X w -> (v == w)%Q.
Proof. intros. apply Qle_antisym; eapply rounds_mono; eauto; lra. Qed.

Lemma pos_rounds_fits X v : pos_rounds X v -> fits v.
Proof.
  intros (K & n & Hv & H1 & H2 & Hn). exists n, K. split; [done|].
  pose proof (pos_rounds_coef_bounds _ _ _ H1 H2 Hn). unfold PREC. lia.
Qed.

Lemma fits_opp v : fits v -> fits (- v).
Proof.
  intros (c & e & Hv & Hc). exists (- c), e. rewrite Hv, inject_Z_opp. split; [ring|lia].
Qed.

Lemma rounds_fits X v : rounds X v -> fits v.
Proof.
  intros [[_ Hv]|[[_ Hv]|[_ Hv]]].
  - exists 0, 0. rewrite Hv. split; [reflexivity|]. unfold PREC. lia.
  - eapply pos_rounds_fits; eauto.
  - rewrite <- (Qopp_involutive v). eapply fits_opp, pos_rounds_fits; eauto.
Qed.

Lemma pos_rounds_err X v : pos_rounds X v -> (Qabs (v - X) <= uround * X)%Q.
Proof.
  intros (K & n & Hv & H1 & H2 & [Hn _]).
  pose proof (p10_pos K) as HpK. pose proof (p10_opp K) as Ho.
  apply Qabs_le_iff in Hn as [Hl Hu]. apply Qabs_le_iff. rewrite Hv.
  assert ((inject_Z n - X * p10 (- K)) * p10 K == inject_Z n * p10 K - X)%Q as Heq.
  { transitivity (inject_Z n * p10 K - X * (p10 (- K) * p10 K))%Q; [ring|]. rewrite Ho. ring. }
  assert ((1 # 2) * p10 K <= uround * X)%Q as Hb.
  { assert (uround * (p10 27 * p10 K) <= uround * X)%Q.
    { apply Qmult_le_l; [reflexivity|done]. }
    assert (uround * (p10 27 * p10 K) == (1 # 2) * p10 K)%Q; [|lra].
    rewrite Qmult_assoc. apply Qmult_comp; reflexivity. }
  rewrite <- Heq. split; nra.
Qed.

(** Relative error of one rounding. *)
Theorem rounds_err X v : rounds X v -> (Qabs (v - X) <= uround * Qabs X)%Q.
Proof.
  intros [[HX Hv]|[[HX Hv]|[HX Hv]]].
  - rewrite HX, Hv. discriminate.
  - rewrite (Qabs_pos X) by lra. now apply pos_rounds_err.
  - rewrite (Qabs_neg X) by lra. apply pos_rounds_err in Hv.
    rewrite <- Qabs_opp. eapply Qle_trans; [|exact Hv]. apply Qle_lteq. right.
    apply Qabs_wd. ring.
Qed.

(** An exactly representable result is returned unchanged. *)
Lemma pos_rounds_exact X v : (0 < X)%Q -> fits X -> pos_rounds X v -> (v == X)%Q.
Proof.
  intros HX (c & e & Hc & Hb) (K & n & Hv & H1 & H2 & Hn).
  destruct (scale_bounds X K H1 H2) as [Hlo Hhi].
  assert (exists z, X * p10 (- K) == inject_Z z)%Q as [z Hz].
  { assert (X * p10 (- K) == inject_Z c * p10 (e - K))%Q as Hs.
    { rewrite Hc, <- Qmult_assoc, <- p10_add. now replace (e + - K) with (e - K) by lia. }
    destruct (Z.le_gt_cases K e) as [HKe|HKe].
    - exists (c * 10 ^ (e - K)). rewrite Hs, inject_Z_mult, <- p10_inject by lia. reflexivity.
    - assert (inject_Z c <= p10 28)%Q as Hc28.
      { rewrite <- inject_pow28, <- Zle_Qle. unfold PREC in Hb. lia. }
      assert (p10 28 <= inject_Z c)%Q as Hc28'.
      { assert (p10 28 * p10 (e - K) <= inject_Z c * p10 (e - K))%Q.
        { rewrite <- Hs, <- p10_add. eapply Qle_trans; [|exact Hlo]. apply p10_le. lia. }
        apply Qmult_le_r in H; [done|apply p10_pos]. }
      assert (X * p10 (- K) == p10 (28 + (e - K)))%Q as Hs2.
      { rewrite Hs, p10_add. apply Qmult_comp; [lra|reflexivity]. }
      assert (28 + (e - K) = 27) as Hek.
      { destruct (Z.le_gt_cases (28 + (e - K)) 26) as [Hle|Hgt]; [|lia].
        apply p10_le in Hle. rewrite <- Hs2 in Hle. exfalso.
        assert (p10 26 < p10 27)%Q by reflexivity. lra. }
      exists (10 ^ 27). rewrite Hs2, Hek. now rewrite inject_pow27. }
  assert (n = z) as ->.
  { assert (half_even (X * p10 (- K)) z) as Hz'.
    { eapply half_even_comp; [symmetry; exact Hz|apply half_even_int]. }
    apply Z.le_antisymm.
    - eapply half_even_mono; [|exact Hn|exact Hz']; lra.
    - eapply half_even_mono; [|exact Hz'|exact Hn]; lra. }
  rewrite Hv, <- Hz, <- Qmult_assoc, p10_opp. ring.
Qed.

Theorem rounds_exact X v : fits X -> rounds X v -> (v == X)%Q.
Proof.
  intros Hf [[HX Hv]|[[HX Hv]|[HX Hv]]]; [lra| |].
  - now apply pos_rounds_exact.
  - assert (- v == - X)%Q; [|lra]. apply pos_rounds_exact; [lra| |done]. now apply fits_opp.
Qed.

(** ** Executable rounding *)

(** [num / den] scaled by [10 ^ (- k)] as a ratio of integers. *)
Definition scale_num (num k : Z) : Z := num * 10 ^ Z.max 0 (- k).
Definition scale_den (den k : Z) : Z := den * 10 ^ Z.max 0 k.

(** The exponent that leaves exactly 28 digits before the point. *)
Definition quot_exp (a den : Z) : Z :=
  let k := ndigits a - ndigits den - PREC in
  if 10 ^ PREC * scale_den den k <=? scale_num a k then k + 1 else k.

(** [num / den * 10 ^ e] rounded to the context precision ([den > 0]). *)
Definition round_ratio (num den e : Z) : Dec :=
  if num =? 0 then mkDec 0 e
  else let a := Z.abs num in
       let k := quot_exp a den in
       mkDec (Z.sgn num * he_div (scale_num a k) (scale_den den k)) (e + k).

Lemma scale_ratio a den k :
  0 < den ->
  (inject_Z (scale_num a k) / inject_Z (scale_den den k) == inject_Z a / inject_Z den * p10 (- k))%Q.
Proof.
  intros Hd. unfold scale_num, scale_den. rewrite !inject_Z_mult, <- !p10_inject by lia.
  assert (0 < inject_Z den)%Q by (change 0%Q with (inject_Z 0); now rewrite <- Zlt_Qlt).
  pose proof (p10_pos (Z.max 0 k)).
  assert (p10 (Z.max 0 (- k)) == p10 (- k) * p10 (Z.max 0 k))%Q as ->.
  { rewrite <- p10_add. now replace (- k + Z.max 0 k) with (Z.max 0 (- k)) by lia. }
  field. split; lra.
Qed.

Lemma scale_den_pos den k : 0 < den -> 0 < scale_den den k.
Proof. intros. unfold scale_den. pose proof (pow10_pos (Z.max 0 k)). nia. Qed.

Lemma scale_step a den k :
  scale_num a (k + 1) * (10 * scale_den den k) = scale_num a k * scale_den den (k + 1).
Proof.
  unfold scale_num, scale_den. destruct (Z.le_gt_cases 0 k).
  - replace (Z.max 0 (- (k + 1))) with 0 by lia. replace (Z.max 0 (- k)) with 0 by lia.
    replace (Z.max 0 (k + 1)) with (Z.succ k) by lia. replace (Z.max 0 k) with k by lia.
    rewrite Z.pow_succ_r by lia. ring.
  - replace (Z.max 0 (k + 1)) with 0 by lia. replace (Z.max 0 k) with 0 by lia.
    replace (Z.max 0 (- k)) with (Z.succ (Z.max 0 (- (k + 1)))) by lia.
    rewrite Z.pow_succ_r by lia. ring.
Qed.

Lemma quot_exp_spec a den :
  0 < a -> 0 < den ->
  let k := quot_exp a den in
  10 ^ 27 * scale_den den k <= scale_num a k < 10 ^ 28 * scale_den den k.
Proof.
  intros Ha Hd k.
  destruct (ndigits_spec a Ha) as (Ha1 & Ha2 & Ha3).
  destruct (ndigits_spec den Hd) as (Hd1 & Hd2 & Hd3).
  set (da := ndigits a) in *. set (dd := ndigits den) in *.
  set (k0 := da - dd - PREC) in *.
  assert (10 ^ 27 * scale_den den k0 <= scale_num a k0 < 10 ^ 29 * scale_den den k0) as [Hlo Hhi].
  { unfold scale_num, scale_den, k0, PREC. destruct (Z.le_gt_cases 0 (da - dd - 28)).
    - replace (Z.max 0 (- (da - dd - 28))) with 0 by lia.
      rewrite Z.max_r, Z.pow_0_r by lia. split.
      + replace (da - 1) with (27 + (dd + (da - dd - 28))) in Ha2 by lia.
        rewrite !Z.pow_add_r in Ha2 by lia.
        pose proof (pow10_pos (da - dd - 28) ltac:(lia)). nia.
      + replace da with (29 + ((dd - 1) + (da - dd - 28))) in Ha3 by lia.
        rewrite !Z.pow_add_r in Ha3 by lia.
        pose proof (pow10_pos (da - dd - 28) ltac:(lia)). nia.
    - rewrite (Z.max_l 0 (da - dd - 28)), Z.pow_0_r by lia.
      rewrite Z.max_r by lia.
      pose proof (pow10_pos (- (da - dd - 28)) ltac:(lia)) as Hp. split.
      + assert (10 ^ (da - 1) * 10 ^ (- (da - dd - 28)) = 10 ^ 27 * 10 ^ dd) as Heq.
        { rewrite <- !Z.pow_add_r by lia. f_equal. lia. }
        nia.
      + assert (10 ^ da * 10 ^ (- (da - dd - 28)) = 10 ^ 29 * 10 ^ (dd - 1)) as Heq.
        { rewrite <- !Z.pow_add_r by lia. f_equal. lia. }
        nia. }
  unfold k, quot_exp. fold da dd. fold k0.
  destruct (Z.leb_spec (10 ^ PREC * scale_den den k0) (scale_num a k0)) as [Hge|Hlt];
    unfold PREC in *; [|lia].
  pose proof (scale_step a den k0) as Hs.
  pose proof (scale_den_pos den k0 Hd). pose proof (scale_den_pos den (k0 + 1) Hd).
  nia.
Qed.

Lemma round_ratio_pos num den e :
  0 < num -> 0 < den ->
  pos_rounds (inject_Z num / inject_Z den * p10 e) (dval (round_ratio num den e)).
Proof.
  intros Hn Hd. unfold round_ratio. destruct (Z.eqb_spec num 0); [lia|].
  rewrite (Z.abs_eq num), (Z.sgn_pos num), Z.mul_1_l by lia.
  pose proof (quot_exp_spec num den Hn Hd) as Hk. cbv zeta in Hk.
  set (k := quot_exp num den) in *.
  pose proof (scale_den_pos den k Hd) as Hsd.
  assert (0 < inject_Z (scale_den den k))%Q as HsdQ.
  { change 0%Q with (inject_Z 0). now rewrite <- Zlt_Qlt. }
  destruct Hk as [Hk1 Hk2]. rewrite Zle_Qle, inject_Z_mult, inject_pow27 in Hk1.
  rewrite Zlt_Qlt, inject_Z_mult, inject_pow28 in Hk2.
  pose proof (scale_ratio num den k Hd) as Hr.
  assert (p10 27 <= inject_Z num / inject_Z den * p10 (- k))%Q as Hlo.
  { rewrite <- Hr. apply Qle_shift_div_l; done. }
  assert (inject_Z num / inject_Z den * p10 (- k) < p10 28)%Q as Hhi.
  { rewrite <- Hr. apply Qlt_shift_div_r; done. }
  assert (inject_Z num / inject_Z den * p10 e
          == inject_Z num / inject_Z den * p10 (- k) * p10 (e + k))%Q as Hx.
  { rewrite <- Qmult_assoc, <- p10_add. now replace (- k + (e + k)) with e by lia. }
  exists (e + k), (he_div (scale_num num k) (scale_den den k)).
  split; [reflexivity|]. pose proof (p10_pos (e + k)).
  split; [rewrite Hx; now apply Qmult_le_r|].
  split; [rewrite Hx; now apply Qmult_lt_r|].
  eapply half_even_comp; [|apply he_div_spec, Hsd].
  rewrite Hr, <- Qmult_assoc, <- p10_add. now replace (e + - (e + k)) with (- k) by lia.
Qed.

Lemma round_ratio_opp num den e : dval (round_ratio (- num) den e) = (- dval (round_ratio num den e))%Q.
Proof.
  unfold round_ratio. destruct (Z.eqb_spec num 0) as [->|Hn]; [reflexivity|].
  destruct (Z.eqb_spec (- num) 0); [lia|].
  rewrite Z.abs_opp, Z.sgn_opp. unfold dval; cbn [coef dexp].
  rewrite Z.mul_opp_l, inject_Z_opp. unfold Qmult, Qopp. cbn. f_equal. lia.
Qed.

(** The executable rounding implements the specification. *)
Theorem round_ratio_rounds num den e :
  0 < den -> rounds (inject_Z num / inject_Z den * p10 e) (dval (round_ratio num den e)).
Proof.
  intros Hd. pose proof (p10_pos e) as Hp.
  assert (0 < / inject_Z den)%Q as Hi.
  { apply Qinv_lt_0_compat. change 0%Q with (inject_Z 0). now rewrite <- Zlt_Qlt. }
  assert (forall z : Z, (0 < z)%Z -> 0 < inject_Z z / inject_Z den * p10 e)%Q as Hpos.
  { intros z Hz. rewrite Zlt_Qlt in Hz. apply Qmult_lt_0_compat; [|done].
    now apply Qmult_lt_0_compat. }
  destruct (Z.lt_trichotomy num 0) as [Hn|[->|Hn]].
  - right; right. specialize (Hpos (- num) ltac:(lia)).
    assert (- (inject_Z num / inject_Z den * p10 e) == inject_Z (- num) / inject_Z den * p10 e)%Q as Hx.
    { rewrite inject_Z_opp. unfold Qdiv. ring. }
    split; [lra|]. rewrite Hx, <- round_ratio_opp. apply round_ratio_pos; lia.
  - left. split; [unfold Qdiv; ring|]. unfold dval, round_ratio; cbn. ring.
  - right; left. split; [auto|]. now apply round_ratio_pos.
Qed.

(** ** Operators *)

Definition dzero : Dec := mkDec 0 0.
Definition dint (n : Z) : Dec := mkDec n 0.

(** The coefficients of two decimals at their common exponent. *)
Definition common_exp (x y : Dec) : Z := Z.min (dexp x) (dexp y).
Definition aligned (x : Dec) (e : Z) : Z := coef x * 10 ^ (dexp x - e).

Definition dcompare (x y : Dec) : comparison :=
  let e := common_exp x y in Z.compare (aligned x e) (aligned y e).
Definition dleb (x y : Dec) : bool := match dcompare x y with Gt => false | _ => true end.
Definition dltb (x y : Dec) : bool := match dcompare x y with Lt => true | _ => false end.
Definition deqb (x y : Dec) : bool := match dcompare x y with Eq => true | _ => false end.

(** [bool(d)]. *)
Definition dtruthy (d : Dec) : bool := negb (coef d =? 0).

Definition dadd (x y : Dec) : Dec :=
  let e := common_exp x y in round_ratio (aligned x e + aligned y e) 1 e.
Definition dsub (x y : Dec) : Dec :=
  let e := common_exp x y in round_ratio (aligned x e - aligned y e) 1 e.
Definition dmul (x y : Dec) : Dec := round_ratio (coef x * coef y) 1 (dexp x + dexp y).
(** The quotient for a non-zero divisor. *)
Definition dquot (x y : Dec) : Dec :=
  round_ratio (coef x * Z.sgn (coef y)) (Z.abs (coef y)) (dexp x - dexp y).
Definition ddiv (x y : Dec) : res Dec :=
  if dtruthy y then Ok (dquot x y)
  else Raise (if dtruthy x then ZeroDivisionError else OtherException "InvalidOperation").
Definition dneg (x : Dec) : Dec := round_ratio (- coef x) 1 (dexp x).
Definition dabs (x : Dec) : Dec := round_ratio (Z.abs (coef x)) 1 (dexp x).

(** [d.quantize(Decimal(1).scaleb(e))] rounds half to even; a coefficient that
    needs more than the context's digits is an [InvalidOperation]. *)
Definition dquantize (d : Dec) (e : Z) : res Dec :=
  let c := if e <=? dexp d then coef d * 10 ^ (dexp d - e) else he_div (coef d) (10 ^ (e - dexp d)) in
  if PREC <? ndigits (Z.abs c) then Raise (OtherException "InvalidOperation") else Ok (mkDec c e).

(** [max(a, b)] and [min(a, b)]: the first argument wins a tie. *)
Definition dmax (a b : Dec) : Dec := if dltb a b then b else a.
Definition dmin (a b : Dec) : Dec := if dltb b a then b else a.

(** [sum(l, Decimal("0"))]. *)
Definition dsum (l : list Dec) : Dec := foldl dadd dzero l.

Inductive Rounding := ROUND_DOWN | ROUND_FLOOR | ROUND_CEILING.

(** [d.to_integral_value(rounding=r)]: exact, not subject to the precision. *)
Definition to_integral_value (r : Rounding) (d : Dec) : Dec :=
  if 0 <=? dexp d then d
  else let m := 10 ^ (- dexp d) in
       mkDec (match r with
              | ROUND_DOWN => Z.quot (coef d) m
              | ROUND_FLOOR => coef d / m
              | ROUND_CEILING => - ((- coef d) / m)
              end) 0.

Declare Scope dec_scope.
Delimit Scope dec_scope with D.
Bind Scope dec_scope with Dec.
Arguments dquot (_ _)%_dec_scope.
Arguments ddiv (_ _)%_dec_scope.
Arguments dabs _%_dec_scope.
Arguments dneg _%_dec_scope.
Arguments dadd (_ _)%_dec_scope.
Arguments dsub (_ _)%_dec_scope.
Arguments dmul (_ _)%_dec_scope.
Arguments dleb (_ _)%_dec_scope.
Arguments dltb (_ _)%_dec_scope.
Arguments deqb (_ _)%_dec_scope.
Arguments dmax (_ _)%_dec_scope.
Arguments dmin (_ _)%_dec_scope.
Notation "x <=? y" := (dleb x y) : dec_scope.
Notation "x <? y" := (dltb x y) : dec_scope.
Notation "x =? y" := (deqb x y) : dec_scope.
Notation "x + y" := (dadd x y) : dec_scope.
Notation "x - y" := (dsub x y) : dec_scope.
Notation "x * y" := (dmul x y) : dec_scope.

(** ** Specifications of the operators *)

Lemma aligned_val x e : e <= dexp x -> (inject_Z (aligned x e) * p10 e == dval x)%Q.
Proof.
  intros H. unfold aligned, dval. rewrite inject_Z_mult, <- p10_inject by lia.
  rewrite <- Qmult_assoc, <- p10_split. reflexivity.
Qed.

Lemma dcompare_spec x y : dcompare x y = (dval x ?= dval y)%Q.
Proof.
  unfold dcompare. set (e := common_exp x y).
  rewrite <- (aligned_val x e), <- (aligned_val y e) by (unfold e, common_exp; lia).
  pose proof (p10_pos e).
  destruct (Z.compare_spec (aligned x e) (aligned y e)) as [Hc|Hc|Hc]; symmetry.
  - apply Qeq_alt. now rewrite Hc.
  - apply Qlt_alt, Qmult_lt_r; [done|]. now rewrite <- Zlt_Qlt.
  - apply Qgt_alt, Qmult_lt_r; [done|]. now rewrite <- Zlt_Qlt.
Qed.

Lemma dleb_spec x y : dleb x y = true <-> (dval x <= dval y)%Q.
Proof.
  unfold dleb. rewrite dcompare_spec. rewrite Qle_alt. destruct (dval x ?= dval y)%Q; naive_solver.
Qed.
Lemma dltb_spec x y : dltb x y = true <-> (dval x < dval y)%Q.
Proof.
  unfold dltb. rewrite dcompare_spec. rewrite Qlt_alt. destruct (dval x ?= dval y)%Q; naive_solver.
Qed.
Lemma deqb_spec x y : deqb x y = true <-> (dval x == dval y)%Q.
Proof.
  unfold deqb. rewrite dcompare_spec. rewrite Qeq_alt. destruct (dval x ?= dval y)%Q; naive_solver.
Qed.
Lemma dleb_false x y : dleb x y = false <-> (dval y < dval x)%Q.
Proof.
  rewrite <- not_true_iff_false, dleb_spec. split; [apply Qnot_le_lt|apply Qlt_not_le].
Qed.
Lemma dltb_false x y : dltb x y = false <-> (dval y <= dval x)%Q.
Proof.
  rewrite <- not_true_iff_false, dltb_spec. split; [apply Qnot_lt_le|apply Qle_not_lt].
Qed.
Lemma deqb_false x y : deqb x y = false <-> ~ (dval x == dval y)%Q.
Proof. now rewrite <- not_true_iff_false, deqb_spec. Qed.

Lemma dval_zero e : (dval (mkDec 0 e) == 0)%Q.
Proof. unfold dval; cbn. ring. Qed.

Lemma dval_dint n : (dval (dint n) == inject_Z n)%Q.
Proof. unfold dval, dint; cbn. ring. Qed.

Lemma dtruthy_spec d : dtruthy d = true <-> ~ (dval d == 0)%Q.
Proof.
  unfold dtruthy. rewrite negb_true_iff, Z.eqb_neq. unfold dval.
  pose proof (p10_pos (dexp d)). split.
  - intros Hc Hz. apply Hc. apply Qmult_integral in Hz as [Hz|Hz]; [|lra].
    unfold Qeq in Hz; cbn in Hz. lia.
  - intros Hz Hc. apply Hz. rewrite Hc. ring.
Qed.

Lemma inject_div_1 z : (inject_Z z / inject_Z 1 == inject_Z z)%Q.
Proof. change (inject_Z 1) with 1%Q. field. Qed.

Lemma dadd_rounds x y : rounds (dval x + dval y) (dval (dadd x y)).
Proof.
  unfold dadd. set (e := common_exp x y).
  eapply rounds_proper; [|reflexivity|apply round_ratio_rounds; lia].
  rewrite inject_div_1, inject_Z_plus, Qmult_plus_distr_l.
  rewrite !aligned_val by (unfold e, common_exp; lia). reflexivity.
Qed.

Lemma dsub_rounds x y : rounds (dval x - dval y) (dval (dsub x y)).
Proof.
  unfold dsub. set (e := common_exp x y).
  eapply rounds_proper; [|reflexivity|apply round_ratio_rounds; lia].
  rewrite inject_div_1. unfold Z.sub. rewrite inject_Z_plus, inject_Z_opp, Qmult_plus_distr_l.
  rewrite <- (aligned_val x e), <- (aligned_val y e) by (unfold e, common_exp; lia). ring.
Qed.

Lemma dmul_rounds x y : rounds (dval x * dval y) (dval (dmul x y)).
Proof.
  unfold dmul. eapply rounds_proper; [|reflexivity|apply round_ratio_rounds; lia].
  rewrite inject_div_1, inject_Z_mult, p10_add. unfold dval. ring.
Qed.

Lemma dquot_rounds x y : ~ (dval y == 0)%Q -> rounds (dval x / dval y) (dval (dquot x y)).
Proof.
  intros Hy. apply dtruthy_spec in Hy. unfold dtruthy in Hy.
  apply negb_true_iff, Z.eqb_neq in Hy.
  unfold dquot. eapply rounds_proper; [|reflexivity|apply round_ratio_rounds; lia].
  pose proof (p10_pos (dexp y)). unfold dval.
  assert (p10 (dexp x) == p10 (dexp x - dexp y) * p10 (dexp y))%Q as -> by apply p10_split.
  assert (~ inject_Z (coef y) == 0)%Q as Hcy by (unfold Qeq; cbn; lia).
  destruct (Z.lt_ge_cases (coef y) 0).
  - rewrite Z.sgn_neg, Z.abs_neq, inject_Z_mult, !inject_Z_opp by lia.
    change (inject_Z 1) with 1%Q. field. repeat split; lra.
  - rewrite Z.sgn_pos, Z.abs_eq, inject_Z_mult by lia.
    change (inject_Z 1) with 1%Q. field. repeat split; lra.
Qed.

Lemma ddiv_ok x y q : ddiv x y = Ok q <-> ~ (dval y == 0)%Q /\ q = dquot x y.
Proof.
  unfold ddiv. rewrite <- dtruthy_spec. destruct (dtruthy y); naive_solver.
Qed.

Lemma dneg_rounds x : rounds (- dval x) (dval (dneg x)).
Proof.
  unfold dneg. eapply rounds_proper; [|reflexivity|apply round_ratio_rounds; lia].
  rewrite inject_div_1, inject_Z_opp. unfold dval. ring.
Qed.

Lemma dabs_rounds x : rounds (Qabs (dval x)) (dval (dabs x)).
Proof.
  unfold dabs. eapply rounds_proper; [|reflexivity|apply round_ratio_rounds; lia].
  rewrite inject_div_1. unfold dval. rewrite Qabs_Qmult.
  pose proof (p10_pos (dexp x)). rewrite (Qabs_pos (p10 _)) by lra.
  reflexivity.
Qed.

(** ** Derived lemmas used by the components *)

Lemma dadd_fits x y : fits (dval (dadd x y)).
Proof. eapply rounds_fits, dadd_rounds. Qed.
Lemma dsub_fits x y : fits (dval (dsub x y)).
Proof. eapply rounds_fits, dsub_rounds. Qed.
Lemma dmul_fits x y : fits (dval (dmul x y)).
Proof. eapply rounds_fits, dmul_rounds. Qed.

Lemma fits_zero : fits 0.
Proof. exists 0, 0. split; [reflexivity|]. unfold PREC. lia. Qed.

Lemma fits_small c e : Z.abs c <= 10 ^ PREC -> fits (dval (mkDec c e)).
Proof. intros. exists c, e. split; [reflexivity|done]. Qed.

(** A representable value is a fixed point of rounding. *)
Lemma fits_rounds b : fits b -> rounds b b.
Proof.
  intros (c & e & Hc & Hb).
  pose proof (round_ratio_rounds c 1 e ltac:(lia)) as Hr.
  assert (inject_Z c / inject_Z 1 * p10 e == b)%Q as Hx by (rewrite inject_div_1; now symmetry).
  rewrite Hx in Hr.
  assert (dval (round_ratio c 1 e) == b)%Q as Hv.
  { apply rounds_exact; [|done]. exists c, e. done. }
  now rewrite Hv in Hr.
Qed.

(** Comparisons with a representable bound survive rounding. *)
Lemma rounds_le_bound X v b : fits b -> (X <= b)%Q -> rounds X v -> (v <= b)%Q.
Proof. intros Hb HX Hv. eapply rounds_mono; [exact HX|exact Hv|now apply fits_rounds]. Qed.
Lemma rounds_ge_bound X v b : fits b -> (b <= X)%Q -> rounds X v -> (b <= v)%Q.
Proof. intros Hb HX Hv. eapply rounds_mono; [exact HX|now apply fits_rounds|exact Hv]. Qed.

Lemma dadd_mono x x' y y' :
  (dval x <= dval x')%Q -> (dval y <= dval y')%Q -> (dval (dadd x y) <= dval (dadd x' y'))%Q.
Proof. intros. eapply rounds_mono; [|apply dadd_rounds|apply dadd_rounds]. lra. Qed.

Lemma dadd_ge_l x y : fits (dval x) -> (0 <= dval y)%Q -> (dval x <= dval (dadd x y))%Q.
Proof. intros. eapply rounds_ge_bound; [done| |apply dadd_rounds]. lra. Qed.
Lemma dadd_ge_r x y : fits (dval y) -> (0 <= dval x)%Q -> (dval y <= dval (dadd x y))%Q.
Proof. intros. eapply rounds_ge_bound; [done| |apply dadd_rounds]. lra. Qed.

Lemma dadd_nonneg x y : (0 <= dval x)%Q -> (0 <= dval y)%Q -> (0 <= dval (dadd x y))%Q.
Proof. intros. eapply rounds_ge_bound; [apply fits_zero| |apply dadd_rounds]. lra. Qed.
Lemma dadd_pos x y : (0 < dval x + dval y)%Q -> (0 < dval (dadd x y))%Q.
Proof. intros. eapply rounds_pos; [|apply dadd_rounds]. done. Qed.
Lemma dmul_pos x y : (0 < dval x)%Q -> (0 < dval y)%Q -> (0 < dval (dmul x y))%Q.
Proof. intros. eapply rounds_pos; [|apply dmul_rounds]. nra. Qed.
Lemma dmul_nonneg x y : (0 <= dval x)%Q -> (0 <= dval y)%Q -> (0 <= dval (dmul x y))%Q.
Proof. intros. eapply rounds_ge_bound; [apply fits_zero| |apply dmul_rounds]. nra. Qed.

Lemma Qdiv_pos a b : (0 < a)%Q -> (0 < b)%Q -> (0 < a / b)%Q.
Proof. intros. apply Qlt_shift_div_l; lra. Qed.

Lemma Qdiv_le a a' b : (0 < b)%Q -> (a <= a')%Q -> (a / b <= a' / b)%Q.
Proof.
  intros Hb Ha. apply Qmult_le_r; [|done]. now apply Qinv_lt_0_compat.
Qed.

Lemma dquot_pos x y : (0 < dval x)%Q -> (0 < dval y)%Q -> (0 < dval (dquot x y))%Q.
Proof. intros. eapply rounds_pos; [|apply dquot_rounds; lra]. now apply Qdiv_pos. Qed.

Lemma dquot_mono x x' y :
  (0 < dval y)%Q -> (dval x <= dval x')%Q -> (dval (dquot x y) <= dval (dquot x' y))%Q.
Proof.
  intros. eapply rounds_mono; [|apply dquot_rounds; lra|apply dquot_rounds; lra]. now apply Qdiv_le.
Qed.

Lemma dadd_exact x y : fits (dval x + dval y) -> (dval (dadd x y) == dval x + dval y)%Q.
Proof. intros. apply rounds_exact; [done|apply dadd_rounds]. Qed.
Lemma dsub_exact x y : fits (dval x - dval y) -> (dval (dsub x y) == dval x - dval y)%Q.
Proof. intros. apply rounds_exact; [done|apply dsub_rounds]. Qed.
Lemma dmul_exact x y : fits (dval x * dval y) -> (dval (dmul x y) == dval x * dval y)%Q.
Proof. intros. apply rounds_exact; [done|apply dmul_rounds]. Qed.
Lemma dquot_exact x y :
  ~ (dval y == 0)%Q -> fits (dval x / dval y) -> (dval (dquot x y) == dval x / dval y)%Q.
Proof. intros. apply rounds_exact; [done|now apply dquot_rounds]. Qed.

Lemma dneg_exact x : fits (dval x) -> (dval (dneg x) == - dval x)%Q.
Proof. intros. apply rounds_exact; [now apply fits_opp|apply dneg_rounds]. Qed.
Lemma dabs_nonneg x : (0 <= dval (dabs x))%Q.
Proof. eapply rounds_ge_bound; [apply fits_zero|apply Qabs_nonneg|apply dabs_rounds]. Qed.
Lemma dabs_exact x : fits (dval x) -> (dval (dabs x) == Qabs (dval x))%Q.
Proof.
  intros H. apply rounds_exact; [|apply dabs_rounds]. revert H. apply Qabs_case; intros; [done|].
  now apply fits_opp.
Qed.

Lemma dmin_le_l a b : (dval (dmin a b) <= dval a)%Q.
Proof. unfold dmin. destruct (dltb b a) eqn:E; [apply dltb_spec in E|]; lra. Qed.
Lemma dmin_le_r a b : (dval (dmin a b) <= dval b)%Q.
Proof. unfold dmin. destruct (dltb b a) eqn:E; [lra|apply dltb_false in E; lra]. Qed.
Lemma dmax_ge_l a b : (dval a <= dval (dmax a b))%Q.
Proof. unfold dmax. destruct (dltb a b) eqn:E; [apply dltb_spec in E|]; lra. Qed.
Lemma dmax_ge_r a b : (dval b <= dval (dmax a b))%Q.
Proof. unfold dmax. destruct (dltb a b) eqn:E; [lra|apply dltb_false in E; lra]. Qed.
Lemma dmin_cases a b : dmin a b = a \/ dmin a b = b.
Proof. unfold dmin. destruct (dltb b a); auto. Qed.
Lemma dmax_cases a b : dmax a b = a \/ dmax a b = b.
Proof. unfold dmax. destruct (dltb a b); auto. Qed.

(** *** Rounding to an integer *)

Definition is_integer (x : Q) : Prop := exists z, (x == inject_Z z)%Q.

Lemma inject_div_pow c k : 0 < k -> (dval (mkDec c (- k)) == inject_Z c / inject_Z (10 ^ k))%Q.
Proof.
  intros Hk. unfold dval; cbn [coef dexp]. rewrite <- p10_inject by lia.
  pose proof (p10_opp k) as Ho. pose proof (p10_pos k).
  apply Qeq_sym, Qmult_inj_r with (z := p10 k); [lra|].
  rewrite <- Qmult_assoc, Ho. field. lra.
Qed.

Lemma to_integral_floor d :
  exists z, (dval (to_integral_value ROUND_FLOOR d) == inject_Z z)%Q /\
    (inject_Z z <= dval d)%Q /\ (dval d < inject_Z z + 1)%Q.
Proof.
  unfold to_integral_value. destruct (Z.leb_spec 0 (dexp d)) as [He|He].
  - exists (coef d * 10 ^ dexp d).
    assert (dval d == inject_Z (coef d * 10 ^ dexp d))%Q as Hd.
    { unfold dval. rewrite inject_Z_mult, p10_inject by lia. reflexivity. }
    rewrite Hd. repeat split; lra.
  - destruct d as [c e]; cbn [coef dexp] in *. set (k := - e).
    assert (dval (mkDec c e) == inject_Z c / inject_Z (10 ^ k))%Q as Hv.
    { replace e with (- k) by lia. apply inject_div_pow. lia. }
    pose proof (pow10_pos k ltac:(lia)) as Hp.
    exists (c / 10 ^ k). rewrite Hv. split; [apply dval_dint|].
    pose proof (Z.div_mod c (10 ^ k) ltac:(lia)) as Hdm.
    pose proof (Z.mod_pos_bound c (10 ^ k) Hp) as Hm.
    assert (0 < inject_Z (10 ^ k))%Q by (change 0%Q with (inject_Z 0); now rewrite <- Zlt_Qlt).
    split.
    + apply Qle_shift_div_l; [done|]. rewrite <- inject_Z_mult, <- Zle_Qle. nia.
    + apply Qlt_shift_div_r; [done|]. change 1%Q with (inject_Z 1).
      rewrite <- inject_Z_plus, <- inject_Z_mult, <- Zlt_Qlt. nia.
Qed.

Lemma to_integral_ceil d :
  exists z, (dval (to_integral_value ROUND_CEILING d) == inject_Z z)%Q /\
    (dval d <= inject_Z z)%Q /\ (inject_Z z - 1 < dval d)%Q.
Proof.
  assert (forall c e, (dval (mkDec (- c) e) == - dval (mkDec c e))%Q) as Hopp.
  { intros c e. unfold dval; cbn. rewrite inject_Z_opp. ring. }
  destruct d as [c e]. destruct (to_integral_floor (mkDec (- c) e)) as (z & Hz & H1 & H2).
  exists (- z). rewrite inject_Z_opp. rewrite Hopp in H1, H2. split; [|split; lra].
  rewrite <- Hz. revert Hz. unfold to_integral_value; cbn [coef dexp].
  destruct (0 <=? e); intros _; [rewrite Hopp; ring|]. apply Hopp.
Qed.

Lemma to_integral_down_nonneg d :
  (0 <= dval d)%Q -> to_integral_value ROUND_DOWN d = to_integral_value ROUND_FLOOR d.
Proof.
  intros Hd. unfold to_integral_value. destruct (Z.leb_spec 0 (dexp d)); [done|].
  f_equal. apply Z.quot_div_nonneg; [|apply pow10_pos; lia].
  unfold dval in Hd. pose proof (p10_pos (dexp d)).
  assert (0 <= inject_Z (coef d))%Q as Hc by nra.
  change 0%Q with (inject_Z 0) in Hc. now rewrite <- Zle_Qle in Hc.
Qed.

(** Scaling by a power of ten keeps a value representable. *)
Lemma fits_scaled v k : fits v -> fits (v * p10 k).
Proof.
  intros (c & e & Hc & Hb). exists c, (e + k). split; [|done]. rewrite Hc, p10_add. ring.
Qed.

Create HintDb dec discriminated.
#[export] Hint Resolve dadd_fits dsub_fits dmul_fits fits_zero dadd_nonneg dmul_pos dmul_nonneg
  dquot_pos dabs_nonneg dmin_le_l dmin_le_r dmax_ge_l dmax_ge_r p10_pos : dec.

(** Turn boolean comparisons of decimals into inequalities over [Q]. *)
Ltac dec_bools := repeat match goal with
  | H : dleb _ _ = true |- _ => apply dleb_spec in H
  | H : dleb _ _ = false |- _ => apply dleb_false in H
  | H : dltb _ _ = true |- _ => apply dltb_spec in H
  | H : dltb _ _ = false |- _ => apply dltb_false in H
  | H : deqb _ _ = true |- _ => apply deqb_spec in H
  | H : deqb _ _ = false |- _ => apply deqb_false in H
  | H : context [dval dzero] |- _ => change (dval dzero) with (0 * 1)%Q in H
  end.

(** Decimals compared through their boolean tests, as an order on values. *)
Definition dle (x y : Dec) : Prop := (dval x <= dval y)%Q.
Definition dlt (x y : Dec) : Prop := (dval x < dval y)%Q.
Definition deq (x y : Dec) : Prop := (dval x == dval y)%Q.

#[export] Instance dle_dec x y : Decision (dle x y).
Proof.
  destruct (dleb x y) eqn:E; [left|right]; unfold dle; rewrite <- dleb_spec; congruence.
Defined.
#[export] Instance deq_equiv : Equivalence deq.
Proof.
  split; unfold deq; [intros x; reflexivity|intros x y; now symmetry|].
  intros x y z Hxy Hyz. now rewrite Hxy.
Qed.
#[export] Instance dle_preorder : PreOrder dle.
Proof. split; unfold dle; [intros x; lra|intros x y z ? ?; lra]. Qed.
#[export] Instance dadd_proper : Proper (deq ==> deq ==> deq) dadd.
Proof.
  intros x x' Hx y y' Hy. unfold deq in *. eapply rounds_unique; [apply dadd_rounds|].
  rewrite Hx, Hy. apply dadd_rounds.
Qed.
#[export] Instance dmul_proper : Proper (deq ==> deq ==> deq) dmul.
Proof.
  intros x x' Hx y y' Hy. unfold deq in *. eapply rounds_unique; [apply dmul_rounds|].
  rewrite Hx, Hy. apply dmul_rounds.
Qed.
#[export] Instance dleb_proper : Proper (deq ==> deq ==> eq) dleb.
Proof.
  intros x x' Hx y y' Hy. unfold deq in *. apply eq_true_iff_eq.
  rewrite !dleb_spec, Hx, Hy. reflexivity.
Qed.

Example dadd_ex : deqb (dadd (mkDec 1 (-1)) (mkDec 2 (-1))) (mkDec 3 (-1)) = true.
Proof. reflexivity. Qed.
Example dquot_ex : deqb (dquot (dint 1) (dint 3)) (mkDec 3333333333333333333333333333 (-28)) = true.
Proof. reflexivity. Qed.
Example dquot_ex2 : deqb (dquot (dint 2) (dint 3)) (mkDec 6666666666666666666666666667 (-28)) = true.
Proof. reflexivity. Qed.

(** ** Accumulated rounding *)

(** The factor by which [n] roundings may understate a non-negative amount. *)
Definition shrink (n : nat) : Q := Qpower (1 - uround) (Z.of_nat n).

Lemma uround_bounds : (0 < uround /\ uround < 1)%Q.
Proof. split; reflexivity. Qed.

Lemma shrink_pos n : (0 < shrink n)%Q.
Proof. apply Qpower_0_lt. pose proof uround_bounds. lra. Qed.

Lemma shrink_S n : (shrink (S n) == (1 - uround) * shrink n)%Q.
Proof.
  unfold shrink. rewrite Nat2Z.inj_succ, <- Z.add_1_r, Qpower_plus.
  - simpl. ring.
  - pose proof uround_bounds. lra.
Qed.

Lemma rounds_shrink X v : (0 <= X)%Q -> rounds X v -> ((1 - uround) * X <= v)%Q.
Proof.
  intros HX Hr. apply rounds_err, Qabs_le_iff in Hr as [Hr _].
  rewrite Qabs_pos in Hr by done. lra.
Qed.

Lemma shrink_le_1 n : (shrink n <= 1)%Q.
Proof.
  induction n; [unfold shrink; simpl; lra|]. rewrite shrink_S.
  pose proof uround_bounds. pose proof (shrink_pos n). nra.
Qed.

(** The factor by which [n] roundings may overstate it. *)
Definition grow (n : nat) : Q := Qpower (1 + uround) (Z.of_nat n).

Lemma grow_S n : (grow (S n) == (1 + uround) * grow n)%Q.
Proof.
  unfold grow. rewrite Nat2Z.inj_succ, <- Z.add_1_r, Qpower_plus.
  - simpl. ring.
  - pose proof uround_bounds. lra.
Qed.

Lemma grow_ge_1 n : (1 <= grow n)%Q.
Proof.
  induction n; [unfold grow; simpl; lra|]. rewrite grow_S. pose proof uround_bounds. nra.
Qed.

Lemma rounds_grow X v : (0 <= X)%Q -> rounds X v -> (v <= (1 + uround) * X)%Q.
Proof.
  intros HX Hr. apply rounds_err, Qabs_le_iff in Hr as [_ Hr].
  rewrite Qabs_pos in Hr by done. lra.
Qed.
