(* ===== verification/PyValue.v ===== *)
(** * PyValue: the dynamic values the adapters parse

    JSON-shaped payloads of the exchange client ([dict.get], [x or y], [str],
    [bool]) and the constructors [Decimal(text)] and [int(text)] of the standard
    library, on ASCII text.  A float carries its [repr], a container the text
    that [str] gives it. *)
From S2P Require Import Prelude PyDecimal.
From Stdlib Require Import Ascii.
From stdpp Require Import pretty.
Local Open Scope Z_scope.

Inductive PyVal :=
  | VNone
  | VBool (b : bool)
  | VInt (z : Z)
  | VFloat (repr : string)
  | VStr (s : string)
  | VList (repr : string) (items : list PyVal)
  | VDict (repr : string) (items : list (string * PyVal)).

Definition py_str (v : PyVal) : string :=
  match v with
  | VNone => "None"
  | VBool b => if b then "True" else "False"
  | VInt z => pretty z
  | VFloat r => r
  | VStr s => s
  | VList r _ | VDict r _ => r
  end.

Definition py_truthy (v : PyVal) : bool :=
  match v with
  | VNone => false
  | VBool b => b
  | VInt z => negb (z =? 0)
  | VFloat r => negb (String.eqb r "0.0" || String.eqb r "-0.0")
  | VStr s => str_truthy s
  | VList _ l => is_nonempty l
  | VDict _ l => is_nonempty l
  end.

(** [a or b] *)
Definition py_or (a b : PyVal) : PyVal := if py_truthy a then a else b.

(** [d.get(key)] on the items of a dict, whose keys are unique. *)
Fixpoint py_get (items : list (string * PyVal)) (key : string) : PyVal :=
  match items with
  | [] => VNone
  | (k, v) :: items => if String.eqb k key then v else py_get items key
  end.

Definition py_is_none (v : PyVal) : bool := match v with VNone => true | _ => false end.

(** [v == text] *)
Definition py_eq_str (v : PyVal) (text : string) : bool :=
  match v with VStr s => String.eqb s text | _ => false end.

(** ** Text *)

Definition is_space (c : ascii) : bool :=
  let n := N_of_ascii c in ((9 <=? n) && (n <=? 13) || (28 <=? n) && (n <=? 32))%N%bool.

Fixpoint lstrip (s : string) : string :=
  match s with
  | EmptyString => EmptyString
  | String c s' => if is_space c then lstrip s' else s
  end.

Fixpoint rstrip (s : string) : string :=
  match s with
  | EmptyString => EmptyString
  | String c s' => let r := rstrip s' in if is_space c && negb (str_truthy r) then EmptyString else String c r
  end.

Definition strip (s : string) : string := rstrip (lstrip s).

Fixpoint without (x : ascii) (s : string) : string :=
  match s with
  | EmptyString => EmptyString
  | String c s' => if Ascii.eqb c x then without x s' else String c (without x s')
  end.

Definition digit_of (c : ascii) : option Z :=
  let n := N_of_ascii c in if ((48 <=? n) && (n <=? 57))%N%bool then Some (Z.of_N n - 48) else None.

(** The leading digits of [s]: the number [acc] they extend, their count, the rest. *)
Fixpoint take_digits (acc : Z) (n : nat) (s : string) : Z * nat * string :=
  match s with
  | String c s' => match digit_of c with Some d => take_digits (acc * 10 + d) (S n) s' | None => (acc, n, s) end
  | EmptyString => (acc, n, s)
  end.

Definition split_sign (s : string) : Z * string :=
  match s with
  | String c s' => if Ascii.eqb c "-" then (-1, s') else if Ascii.eqb c "+" then (1, s') else (1, s)
  | EmptyString => (1, s)
  end.

(** ** [Decimal(text)] *)

Inductive PyNumber := Finite (d : Dec) | NotFinite.

Definition all_digits (s : string) : bool := let '(_, _, rest) := take_digits 0 0 s in negb (str_truthy rest).

Definition is_special (s : string) : bool :=
  let s := str_lower s in
  String.eqb s "inf" || String.eqb s "infinity" ||
  match s with
  | String "n" (String "a" (String "n" s')) => all_digits s'
  | String "s" (String "n" (String "a" (String "n" s'))) => all_digits s'
  | _ => false
  end.

(** [[e|E][sign]digits], or nothing. *)
Definition parse_exponent (s : string) : option Z :=
  match s with
  | EmptyString => Some 0
  | String c s' =>
      if Ascii.eqb c "e" || Ascii.eqb c "E" then
        let '(sign, s') := split_sign s' in
        let '(e, n, rest) := take_digits 0 0 s' in
        if (n =? 0)%nat || str_truthy rest then None else Some (sign * e)
      else None
  end.

Definition parse_unsigned (s : string) : option Dec :=
  let '(i, ni, rest) := take_digits 0 0 s in
  let '(coef, nf, rest) :=
    match rest with
    | String "." rest => take_digits i 0 rest
    | _ => (i, 0%nat, rest)
    end in
  if (ni + nf =? 0)%nat then None
  else match parse_exponent rest with
       | Some e => Some (mkDec coef (e - Z.of_nat nf))
       | None => None
       end.

Definition parse_decimal (text : string) : option PyNumber :=
  let s := without "_" (strip text) in
  let '(sign, s) := split_sign s in
  if is_special s then Some NotFinite
  else match parse_unsigned s with
       | Some d => Some (Finite (mkDec (sign * coef d) (dexp d)))
       | None => None
       end.

(** ** [int(text)] *)

(** Digits with single underscores between them. *)
Fixpoint int_digits (acc : Z) (after_digit : bool) (s : string) : option Z :=
  match s with
  | EmptyString => if after_digit then Some acc else None
  | String c s' =>
      match digit_of c with
      | Some d => int_digits (acc * 10 + d) true s'
      | None => if Ascii.eqb c "_" && after_digit then int_digits acc false s' else None
      end
  end.

Definition parse_int (text : string) : option Z :=
  let '(sign, s) := split_sign (strip text) in
  match int_digits 0 false s with
  | Some z => Some (sign * z)
  | None => None
  end.

Example parse_decimal_examples :
  parse_decimal " 0.00100 " = Some (Finite (mkDec 100 (-5))) /\
  parse_decimal "-1_2.5E+3" = Some (Finite (mkDec (-125) 2)) /\
  parse_decimal "1e-08" = Some (Finite (mkDec 1 (-8))) /\ parse_decimal ".5" = Some (Finite (mkDec 5 (-1))) /\
  parse_decimal "NaN12" = Some NotFinite /\ parse_decimal "-Infinity" = Some NotFinite /\
  parse_decimal "None" = None /\ parse_decimal "." = None /\ parse_decimal "1e" = None.
Proof. by vm_compute. Qed.

Example parse_int_examples :
  parse_int " 17_50 " = Some 1750 /\ parse_int "-3" = Some (-3) /\ parse_int "1.0" = None /\
  parse_int "1__0" = None /\ parse_int "_1" = None /\ parse_int "" = None.
Proof. by vm_compute. Qed.

(** ** Printing a decimal so that it parses back *)

Definition dec_text (d : Dec) : string := pretty (coef d) +:+ "e" +:+ pretty (dexp d).

(** Neither stripped nor dropped by the parsers. *)
Definition plain (c : ascii) : bool := negb (is_space c) && negb (Ascii.eqb c "_").

Lemma rstrip_plain s : all_chars plain s = true -> rstrip s = s.
Proof.
  induction s as [|c s IH]; simpl; [done|]. unfold plain at 1. rewrite !andb_true_iff, negb_true_iff.
  intros [[-> _] Hs]. by rewrite IH.
Qed.

Lemma lstrip_plain s : all_chars plain s = true -> lstrip s = s.
Proof. destruct s as [|c s]; simpl; [done|]. unfold plain at 1. rewrite !andb_true_iff, negb_true_iff. by intros [[-> _] _]. Qed.

Lemma strip_plain s : all_chars plain s = true -> strip s = s.
Proof. intros H. unfold strip. by rewrite lstrip_plain, rstrip_plain. Qed.

Lemma without_plain s : all_chars plain s = true -> without "_" s = s.
Proof.
  induction s as [|c s IH]; simpl; [done|]. unfold plain at 1. rewrite !andb_true_iff, !negb_true_iff.
  intros [[_ ->] Hs]. by rewrite IH.
Qed.

Lemma digit_of_pretty x : (x < 10)%N -> digit_of (pretty_N_char x) = Some (Z.of_N x).
Proof. intros H. assert (x = 0 \/ x = 1 \/ x = 2 \/ x = 3 \/ x = 4 \/ x = 5 \/ x = 6 \/ x = 7 \/ x = 8 \/ x = 9)%N by lia. naive_solver. Qed.

Lemma take_digits_go x s : exists k : nat, ((0 < x)%N -> (0 < k)%nat) /\ forall a n,
  take_digits a n (pretty_N_go x s) = take_digits (a * 10 ^ Z.of_nat k + Z.of_N x) (n + k) s.
Proof.
  revert s. induction (N.lt_wf_0 x) as [x _ IH]. intros s. destruct (decide (x = 0)%N) as [->|Hx].
  - exists 0%nat. split; [lia|]. intros a n. rewrite pretty_N_go_0. f_equal; lia.
  - rewrite pretty_N_go_step by lia.
    destruct (IH (x / 10)%N ltac:(apply N.div_lt; lia) (String (pretty_N_char (x mod 10)) s)) as (k & _ & Hk).
    exists (S k). split; [lia|]. intros a n. rewrite Hk. cbn [take_digits].
    rewrite digit_of_pretty by (apply N.mod_lt; lia). pose proof (N.div_mod x 10 ltac:(lia)).
    rewrite Nat2Z.inj_succ, Z.pow_succ_r by lia. f_equal; [|lia].
    rewrite N2Z.inj_mod, N2Z.inj_div. pose proof (Z.div_mod (Z.of_N x) 10 ltac:(lia)). lia.
Qed.

Lemma pretty_N_go_app x s t : pretty_N_go x (s +:+ t) = pretty_N_go x s +:+ t.
Proof.
  revert s. induction (N.lt_wf_0 x) as [x _ IH]. intros s. destruct (decide (x = 0)%N) as [->|Hx].
  - by rewrite !pretty_N_go_0.
  - rewrite (pretty_N_go_step x (s +:+ t)), (pretty_N_go_step x s) by lia.
    apply (IH (x / 10)%N ltac:(apply N.div_lt; lia) (String (pretty_N_char (x mod 10)) s)).
Qed.

Lemma take_digits_pretty (x : N) s : exists k : nat, (0 < k)%nat /\ forall a n,
  take_digits a n (pretty x +:+ s) = take_digits (a * 10 ^ Z.of_nat k + Z.of_N x) (n + k) s.
Proof.
  unfold pretty, pretty_N. case_decide as Hx; [subst; exists 1%nat|].
  - split; [lia|]. intros a n.
    change (take_digits (a * 10 + 0) (S n) s = take_digits (a * 10 ^ 1 + 0) (n + 1) s). f_equal; lia.
  - rewrite <- pretty_N_go_app. destruct (take_digits_go x ("" +:+ s)) as (k & Hk & E). exists k. split; [lia|done].
Qed.

Definition starts_with_digit (s : string) : Prop :=
  exists c t, s = String c t /\ is_Some (digit_of c).

Lemma pretty_N_go_head x s : starts_with_digit s \/ x <> 0%N -> starts_with_digit (pretty_N_go x s).
Proof.
  revert s. induction (N.lt_wf_0 x) as [x _ IH]. intros s Hs. destruct (decide (x = 0)%N) as [->|Hx].
  - rewrite pretty_N_go_0. tauto.
  - rewrite pretty_N_go_step by lia. apply IH; [apply N.div_lt; lia|]. left. do 2 eexists. split; [done|].
    rewrite digit_of_pretty by (apply N.mod_lt; lia). eauto.
Qed.

Lemma pretty_head (x : N) : starts_with_digit (pretty x).
Proof. unfold pretty, pretty_N. case_decide; [by do 2 eexists|]. apply pretty_N_go_head. by right. Qed.

Lemma pretty_N_go_plain x s : all_chars plain s = true -> all_chars plain (pretty_N_go x s) = true.
Proof.
  revert s. induction (N.lt_wf_0 x) as [x _ IH]. intros s Hs. destruct (decide (x = 0)%N) as [->|Hx].
  - by rewrite pretty_N_go_0.
  - rewrite pretty_N_go_step by lia. apply IH; [apply N.div_lt; lia|]. cbn [all_chars]. rewrite Hs, andb_true_r.
    unfold pretty_N_char. by repeat case_match.
Qed.

Lemma pretty_plain (z : Z) : all_chars plain (pretty z) = true.
Proof.
  assert (forall x : N, all_chars plain (pretty x) = true) as H.
  { intros x. unfold pretty, pretty_N. case_decide; [done|]. by apply pretty_N_go_plain. }
  destruct z as [|p|p]; [done|apply (H (Npos p))|].
  change (all_chars plain ("-" +:+ pretty (Npos p)) = true). by rewrite all_chars_app, H.
Qed.

(** Sign and magnitude of a printed integer. *)
Lemma split_sign_pretty (z : Z) s : exists sign, sign * Z.abs z = z /\
  split_sign (pretty z +:+ s) = (sign, pretty (Z.abs_N z) +:+ s).
Proof.
  assert (forall x : N, split_sign (pretty x +:+ s) = (1, pretty x +:+ s)) as H.
  { intros x. destruct (pretty_head x) as (c & t & -> & d & Hd). change (String c t +:+ s) with (String c (t +:+ s)).
    unfold split_sign. destruct (Ascii.eqb_spec c "-") as [->|]; [done|].
    destruct (Ascii.eqb_spec c "+") as [->|]; [done|]. done. }
  destruct z as [|p|p]; [exists 1; split; [lia|]; apply (H 0%N)|exists 1; split; [lia|]; apply (H (Npos p))|].
  exists (-1). split; [lia|]. reflexivity.
Qed.

Lemma digit_not_special c t : is_Some (digit_of c) -> is_special (String c t) = false.
Proof. destruct c as [[] [] [] [] [] [] [] []]; intros [d Hd]; try discriminate Hd; reflexivity. Qed.

Lemma app_nil_str s : s +:+ "" = s.
Proof. induction s as [|c s IH]; [done|]. change (String c s +:+ "") with (String c (s +:+ "")). by rewrite IH. Qed.

Lemma parse_exponent_pretty (z : Z) : parse_exponent (String "e" (pretty z)) = Some z.
Proof.
  unfold parse_exponent. cbn [Ascii.eqb Bool.eqb orb].
  destruct (split_sign_pretty z "") as (sign & Hz & E). rewrite !app_nil_str in E. rewrite E.
  destruct (take_digits_pretty (Z.abs_N z) "") as (k & Hk & Ht). rewrite app_nil_str in Ht. rewrite Ht.
  cbn. destruct k; [lia|]. cbn. f_equal. rewrite N2Z.inj_abs_N. done.
Qed.

Lemma parse_decimal_text d : parse_decimal (dec_text d) = Some (Finite d).
Proof.
  destruct d as [c e]. unfold parse_decimal, dec_text. cbn [coef dexp].
  rewrite strip_plain, without_plain by (by rewrite !all_chars_app, !pretty_plain).
  destruct (split_sign_pretty c ("e" +:+ pretty e)) as (sign & Hc & ->).
  assert (is_special (pretty (Z.abs_N c) +:+ "e" +:+ pretty e) = false) as ->.
  { destruct (pretty_head (Z.abs_N c)) as (x & t & -> & Hx). by apply digit_not_special. }
  unfold parse_unsigned. destruct (take_digits_pretty (Z.abs_N c) ("e" +:+ pretty e)) as (k & Hk & ->).
  change ("e" +:+ pretty e) with (String "e" (pretty e)). cbn [take_digits digit_of].
  change (digit_of "e") with (@None Z). cbn iota.
  rewrite parse_exponent_pretty. destruct k; [lia|]. cbn. f_equal. f_equal. f_equal; [|lia].
  rewrite N2Z.inj_abs_N. lia.
Qed.

Lemma int_digits_take s : forall acc n b z m,
  take_digits acc n s = (z, m, EmptyString) -> s <> EmptyString -> int_digits acc b s = Some z.
Proof.
  induction s as [|c s IH]; intros acc n b z m H Hs; [done|]. cbn in *.
  destruct (digit_of c) as [d|]; [|by injection H].
  destruct s as [|c' s']; [by injection H as <- <-|]. by eapply IH.
Qed.

Lemma parse_int_pretty (z : Z) : parse_int (pretty z) = Some z.
Proof.
  unfold parse_int. rewrite strip_plain by apply pretty_plain.
  destruct (split_sign_pretty z "") as (sign & Hz & E). rewrite !app_nil_str in E. rewrite E.
  destruct (take_digits_pretty (Z.abs_N z) "") as (k & Hk & Ht). rewrite app_nil_str in Ht.
  rewrite (int_digits_take _ 0 0%nat false _ _ (Ht 0 0%nat))
    by (by destruct (pretty_head (Z.abs_N z)) as (c & t & -> & _)).
  f_equal. rewrite N2Z.inj_abs_N. lia.
Qed.

(** ** Access that may raise *)

Fixpoint py_find (items : list (string * PyVal)) (key : string) : option PyVal :=
  match items with
  | [] => None
  | (k, v) :: items => if String.eqb k key then Some v else py_find items key
  end.

(** [d[key]] *)
Definition py_item (items : list (string * PyVal)) (key : string) : res PyVal :=
  match py_find items key with Some v => Ok v | None => Raise (KeyError key) end.
(** [d.get(key, default)] *)
Definition py_get_or (items : list (string * PyVal)) (key : string) (d : PyVal) : PyVal :=
  default d (py_find items key).

(** The items of a value used as a mapping. *)
Definition py_mapping (v : PyVal) : res (list (string * PyVal)) :=
  match v with VDict _ items => Ok items | _ => Raise (OtherException "AttributeError") end.

(** The elements of a value that is iterated over, each then used as a mapping. *)
Definition py_mappings (v : PyVal) : res (list PyVal) :=
  match v with
  | VList _ items => Ok items
  | VDict _ [] | VStr "" => Ok []
  | VDict _ _ | VStr _ => Raise (OtherException "AttributeError")
  | _ => Raise (TypeError "not iterable")
  end.

(** [Decimal(str(v))] of a finite number. *)
Definition py_decimal (v : PyVal) : res Dec :=
  match parse_decimal (py_str v) with
  | Some (Finite d) => Ok d
  | _ => Raise (OtherException "InvalidOperation")
  end.

(** [int(v)] *)
Definition py_int (v : PyVal) : res Z :=
  match v with
  | VInt z => Ok z
  | VBool b => Ok (if b then 1 else 0)
  | VFloat r =>
      match parse_decimal r with
      | Some (Finite d) => Ok (if 0 <=? dexp d then coef d * 10 ^ dexp d else Z.quot (coef d) (10 ^ (- dexp d)))
      | _ => Raise (ValueError "cannot convert float to integer")
      end
  | VStr s => match parse_int s with Some z => Ok z | None => Raise (ValueError "invalid literal for int()") end
  | _ => Raise (TypeError "int()")
  end.

(** The text up to the first occurrence of a character: [s.split(c, 1)[0]]. *)
Fixpoint before (x : ascii) (s : string) : string :=
  match s with
  | EmptyString => EmptyString
  | String c s' => if Ascii.eqb c x then EmptyString else String c (before x s')
  end.

Fixpoint contains_char (x : ascii) (s : string) : bool :=
  match s with EmptyString => false | String c s' => Ascii.eqb c x || contains_char x s' end.

(** [s.endswith(suffix)] with what precedes the suffix. *)
Fixpoint without_suffix (suffix s : string) : option string :=
  if String.eqb s suffix then Some EmptyString
  else match s with
       | EmptyString => None
       | String c s' => match without_suffix suffix s' with Some p => Some (String c p) | None => None end
       end.

(** [Decimal(str(d[key]))], and [d[key]] used as a mapping. *)
Definition item_decimal (items : list (string * PyVal)) (key : string) : res Dec :=
  py_item items key ≫= py_decimal.
Definition item_mapping (items : list (string * PyVal)) (key : string) : res (list (string * PyVal)) :=
  py_item items key ≫= py_mapping.
