(* ===== verification/State.v ===== *)
(** * State: lifecycle states and their transition tables

    [domain/enums.py] and [domain/state.py]: the intent, position and
    protection lifecycles, the tables of legal transitions, and the validators
    every persisted mutation passes through.  The properties are about whole
    paths of validated transitions, not single steps. *)
From S2P Require Import Prelude.
From stdpp Require Export relations.

(** ** States (the [StrEnum] classes) *)

Inductive V2IntentState :=
  | INTENT_CREATED | EXCHANGE_SUBMITTING | EXCHANGE_UNKNOWN | EXCHANGE_ACKNOWLEDGED
  | FILLED | REJECTED | CANCELLED | EXPIRED.

Inductive V2PositionState :=
  | POSITION_PROJECTED | PROTECTED | REDUCING | CLOSED | QUARANTINED.

Inductive V2ProtectionState :=
  | PROTECTION_INTENT | PROTECTION_SUBMITTING | PROTECTION_ACTIVE | PROTECTION_TRIGGERED
  | PROTECTION_FILLED | PROTECTION_CANCELLED | PROTECTION_FAILED | PROTECTION_UNKNOWN.

Inductive V2ExecutionMode := BINANCE_TESTNET | LOCAL_PAPER.

Inductive V2CandidateType := PRIMARY | SAMPLING | RESEARCH.

#[export] Instance V2IntentState_eq_dec : EqDecision V2IntentState.
Proof. solve_decision. Defined.
#[export] Instance V2PositionState_eq_dec : EqDecision V2PositionState.
Proof. solve_decision. Defined.
#[export] Instance V2ProtectionState_eq_dec : EqDecision V2ProtectionState.
Proof. solve_decision. Defined.
#[export] Instance V2ExecutionMode_eq_dec : EqDecision V2ExecutionMode.
Proof. solve_decision. Defined.
#[export] Instance V2CandidateType_eq_dec : EqDecision V2CandidateType.
Proof. solve_decision. Defined.

(** ** Transition tables *)

Definition _LEGAL_INTENT_TRANSITIONS (s : V2IntentState) : list V2IntentState :=
  match s with
  | INTENT_CREATED => [EXCHANGE_SUBMITTING; CANCELLED]
  | EXCHANGE_SUBMITTING => [EXCHANGE_ACKNOWLEDGED; FILLED; REJECTED; CANCELLED; EXCHANGE_UNKNOWN]
  | EXCHANGE_UNKNOWN => [EXCHANGE_ACKNOWLEDGED; FILLED; REJECTED; CANCELLED; EXPIRED]
  | EXCHANGE_ACKNOWLEDGED => [FILLED; CANCELLED; EXPIRED]
  | FILLED | REJECTED | CANCELLED | EXPIRED => []
  end.

Definition _LEGAL_POSITION_TRANSITIONS (s : V2PositionState) : list V2PositionState :=
  match s with
  | POSITION_PROJECTED => [PROTECTED; REDUCING; QUARANTINED]
  | PROTECTED => [REDUCING; CLOSED; QUARANTINED]
  | REDUCING => [CLOSED; QUARANTINED]
  | CLOSED | QUARANTINED => []
  end.

Definition _LEGAL_PROTECTION_TRANSITIONS (s : V2ProtectionState) : list V2ProtectionState :=
  match s with
  | PROTECTION_INTENT => [PROTECTION_SUBMITTING; PROTECTION_CANCELLED]
  | PROTECTION_SUBMITTING =>
      [PROTECTION_ACTIVE; PROTECTION_CANCELLED; PROTECTION_FAILED; PROTECTION_UNKNOWN]
  | PROTECTION_ACTIVE => [PROTECTION_TRIGGERED; PROTECTION_CANCELLED]
  | PROTECTION_TRIGGERED => [PROTECTION_FILLED]
  | PROTECTION_FAILED => [PROTECTION_SUBMITTING; PROTECTION_CANCELLED]
  | PROTECTION_UNKNOWN =>
      [PROTECTION_ACTIVE; PROTECTION_TRIGGERED; PROTECTION_CANCELLED; PROTECTION_FAILED]
  | PROTECTION_FILLED | PROTECTION_CANCELLED => []
  end.

(** ** Validators *)

(** A no-op is always legal; any other target must be in the table. *)
Definition validate_transition {A} `{EqDecision A} (legal : A -> list A) (tag : string)
    (current next_state : A) : res unit :=
  if decide (current = next_state) then Ok tt
  else if decide (next_state ∈ legal current) then Ok tt
  else Raise (ValueError tag).

Definition validate_intent_transition (current next_state : V2IntentState) : res unit :=
  validate_transition _LEGAL_INTENT_TRANSITIONS "Illegal V2 intent transition" current next_state.

Definition validate_position_transition (current next_state : V2PositionState) : res unit :=
  validate_transition _LEGAL_POSITION_TRANSITIONS "Illegal V2 position transition" current next_state.

Definition validate_historical_attribution_transition (current next_state : V2PositionState) : res unit :=
  if decide (current <> QUARANTINED \/ next_state <> CLOSED)
  then Raise (ValueError "Historical attribution may transition only QUARANTINED -> CLOSED")
  else Ok tt.

Definition validate_protection_transition (current next_state : V2ProtectionState) : res unit :=
  validate_transition _LEGAL_PROTECTION_TRANSITIONS "Illegal V2 protection transition" current next_state.

(** ** Step relations *)

Definition intent_step (a b : V2IntentState) : Prop := validate_intent_transition a b = Ok tt.
Definition position_step (a b : V2PositionState) : Prop := validate_position_transition a b = Ok tt.
Definition protection_step (a b : V2ProtectionState) : Prop := validate_protection_transition a b = Ok tt.

(** A step that changes the state. *)
Definition proper {A} (R : A -> A -> Prop) (a b : A) : Prop := R a b /\ a <> b.

Lemma validate_transition_ok {A} `{EqDecision A} legal tag (a b : A) :
  validate_transition legal tag a b = Ok tt <-> a = b \/ b ∈ legal a.
Proof. unfold validate_transition. repeat case_decide; naive_solver. Qed.

(** A set of states closed under one step is closed under paths. *)
Lemma rtc_closed {A} (R : A -> A -> Prop) (P : A -> Prop) :
  (forall a b, P a -> R a b -> P b) -> forall a b, rtc R a b -> P a -> P b.
Proof. intros Hc a b Hp. induction Hp; eauto. Qed.

(** Decide every single step of a finite lifecycle. *)
Ltac step_cases :=
  repeat match goal with
  | H : intent_step ?a ?b |- _ => apply validate_transition_ok in H; cbn in H
  | H : position_step ?a ?b |- _ => apply validate_transition_ok in H; cbn in H
  | H : protection_step ?a ?b |- _ => apply validate_transition_ok in H; cbn in H
  | H : _ ∈ _ :: _ |- _ => apply elem_of_cons in H
  | H : _ ∈ [] |- _ => by apply not_elem_of_nil in H
  | H : _ \/ _ |- _ => destruct H; subst
  end.

(** ** Intents *)

Definition intent_terminal (s : V2IntentState) : bool :=
  match s with FILLED | REJECTED | CANCELLED | EXPIRED => true | _ => false end.

(** Distance to the end of the lifecycle. *)
Definition intent_rank (s : V2IntentState) : nat :=
  match s with
  | INTENT_CREATED => 4 | EXCHANGE_SUBMITTING => 3 | EXCHANGE_UNKNOWN => 2
  | EXCHANGE_ACKNOWLEDGED => 1 | _ => 0
  end.

Lemma intent_step_rank a b : proper intent_step a b -> intent_rank b < intent_rank a.
Proof. intros [H Hne]. destruct a; cbn in *; step_cases; simpl in *; try congruence; lia. Qed.

Lemma intent_path_rank n a b : nsteps (proper intent_step) n a b -> n + intent_rank b <= intent_rank a.
Proof. induction 1 as [|n a b c Hs _ IH]; [lia|]. apply intent_step_rank in Hs. lia. Qed.

(** An intent whose submission outcome is unknown is never resubmitted. *)
Theorem unknown_intent_never_resubmitted s :
  rtc intent_step EXCHANGE_UNKNOWN s -> s <> EXCHANGE_SUBMITTING /\ s <> INTENT_CREATED.
Proof.
  intros Hp. assert (intent_rank s <= 2) as Hr.
  { apply (rtc_closed intent_step (fun x => intent_rank x <= 2)) in Hp; [done| |cbn; lia].
    intros x y Hx Hs. destruct (decide (x = y)) as [->|Hne]; [done|].
    pose proof (intent_step_rank x y (conj Hs Hne)). lia. }
  destruct s; cbn in Hr; split; (discriminate || lia).
Qed.

Lemma unknown_intent_never_resubmitted_witness :
  rtc intent_step EXCHANGE_UNKNOWN FILLED /\ FILLED <> EXCHANGE_SUBMITTING.
Proof.
  assert (rtc intent_step EXCHANGE_UNKNOWN FILLED) as H.
  { apply (rtc_l _ _ FILLED); [reflexivity|apply rtc_refl]. }
  split; [exact H|]. exact (proj1 (unknown_intent_never_resubmitted FILLED H)).
Defined.

(** Terminal states admit only the no-op, and every lifecycle ends. *)
Theorem intent_lifecycle_terminates n a b :
  nsteps (proper intent_step) n a b ->
  n <= 4 /\ (intent_terminal a = true -> n = 0 /\ b = a).
Proof.
  intros Hn. pose proof (intent_path_rank _ _ _ Hn) as Hr. split.
  - destruct a; cbn in Hr; lia.
  - intros Ht. assert (n = 0) as -> by (destruct a; try discriminate Ht; cbn in Hr; lia).
    inversion Hn. done.
Qed.

Lemma intent_lifecycle_terminates_witness :
  nsteps (proper intent_step) 4 INTENT_CREATED FILLED /\ 4 <= 4.
Proof.
  assert (nsteps (proper intent_step) 4 INTENT_CREATED FILLED) as H.
  { apply (nsteps_l _ _ _ EXCHANGE_SUBMITTING); [split; [reflexivity|discriminate]|].
    apply (nsteps_l _ _ _ EXCHANGE_UNKNOWN); [split; [reflexivity|discriminate]|].
    apply (nsteps_l _ _ _ EXCHANGE_ACKNOWLEDGED); [split; [reflexivity|discriminate]|].
    apply (nsteps_l _ _ _ FILLED); [split; [reflexivity|discriminate]|].
    apply nsteps_O. }
  split; [exact H|]. exact (proj1 (intent_lifecycle_terminates 4 INTENT_CREATED FILLED H)).
Defined.

(** ** Positions *)

Definition position_open (s : V2PositionState) : bool :=
  match s with CLOSED | QUARANTINED => false | _ => true end.

(** Once an exit has started the position can only end: it never becomes
    [PROTECTED] again, and [CLOSED]/[QUARANTINED] never change. *)
Theorem reducing_position_only_ends a b :
  rtc position_step a b ->
  (a = REDUCING -> b = REDUCING \/ position_open b = false) /\
  (position_open a = false -> b = a).
Proof.
  intros Hp. split.
  - intros ->. apply (rtc_closed position_step (fun x => x = REDUCING \/ position_open x = false)
      ltac:(intros x y [->|Hx] Hs; [|destruct x; try discriminate Hx]; cbn in Hs; step_cases; auto)
      _ _ Hp). auto.
  - intros Ha. symmetry. revert Ha. induction Hp as [|x y z Hs _ IH]; [done|]. intros Hx.
    assert (x = y) as -> by (destruct x; try discriminate Hx; step_cases; done). auto.
Qed.

Lemma reducing_position_only_ends_witness :
  rtc position_step REDUCING CLOSED /\ (CLOSED = REDUCING \/ position_open CLOSED = false).
Proof.
  assert (rtc position_step REDUCING CLOSED) as H by (apply (rtc_l _ _ CLOSED); [reflexivity|apply rtc_refl]).
  split; [exact H|]. exact (proj1 (reducing_position_only_ends REDUCING CLOSED H) eq_refl).
Defined.

(** ** Protections *)

(** From an undetermined submission the exchange may be contacted again only
    after the attempt was determined to have failed. *)
Theorem unknown_protection_resubmit_needs_failure n s :
  nsteps protection_step n PROTECTION_UNKNOWN s -> s = PROTECTION_SUBMITTING ->
  exists k, k < n /\ nsteps protection_step k PROTECTION_UNKNOWN PROTECTION_FAILED.
Proof.
  intros Hn. assert (forall m a b, nsteps protection_step m a b ->
    a <> PROTECTION_SUBMITTING /\ a <> PROTECTION_INTENT -> b = PROTECTION_SUBMITTING ->
    exists k, k < m /\ nsteps protection_step k a PROTECTION_FAILED) as Hgen; [|eapply Hgen; eauto; done].
  clear. induction 1 as [a|m a b c Hs Hp IH]; intros [Ha1 Ha2] ->; [done|].
  destruct (decide (a = PROTECTION_FAILED)) as [->|Hf].
  { exists 0. split; [lia|apply nsteps_O]. }
  destruct (IH ltac:(destruct a; step_cases; done) eq_refl) as (k & Hk & Hpk).
  exists (S k). split; [lia|]. eapply nsteps_l; eauto.
Qed.

Lemma unknown_protection_resubmit_needs_failure_witness :
  nsteps protection_step 2 PROTECTION_UNKNOWN PROTECTION_SUBMITTING /\
  exists k, k < 2 /\ nsteps protection_step k PROTECTION_UNKNOWN PROTECTION_FAILED.
Proof.
  assert (nsteps protection_step 2 PROTECTION_UNKNOWN PROTECTION_SUBMITTING) as H.
  { apply (nsteps_l _ _ _ PROTECTION_FAILED); [reflexivity|].
    apply (nsteps_l _ _ _ PROTECTION_SUBMITTING); [reflexivity|]. apply nsteps_O. }
  split; [exact H|]. exact (unknown_protection_resubmit_needs_failure 2 PROTECTION_SUBMITTING H eq_refl).
Defined.

(** The table alone does not bound the number of retries: the lifecycle
    [SUBMITTING -> FAILED -> SUBMITTING] can be repeated any number of times. *)
Theorem protection_retries_unbounded n :
  nsteps (proper protection_step) (2 * n) PROTECTION_SUBMITTING PROTECTION_SUBMITTING.
Proof.
  induction n as [|n IH]; [apply nsteps_O|].
  replace (2 * S n) with (S (S (2 * n))) by lia.
  apply (nsteps_l _ _ _ PROTECTION_FAILED); [split; [reflexivity|discriminate]|].
  apply (nsteps_l _ _ _ PROTECTION_SUBMITTING); [split; [reflexivity|discriminate]|]. exact IH.
Qed.
