(* ===== verification/Sha256.v ===== *)
(** * Sha256: the [hashlib.sha256] digest the identifiers are derived from

    FIPS 180-4 on byte strings, executable, with the two facts the
    identifiers rely on: [hexdigest] has 64 characters, all lower-case hex
    digits.  Nothing is claimed about collisions. *)
From S2P Require Import Prelude.
From Stdlib Require Import Ascii.
From Stdlib Require Export String.

Local Open Scope Z_scope.

Definition w32 (x : Z) : Z := Z.land x (Z.ones 32).
Definition add32 (x y : Z) : Z := w32 (x + y).
Definition rotr (n x : Z) : Z := w32 (Z.lor (Z.shiftr x n) (Z.shiftl x (32 - n))).
Definition shr (n x : Z) : Z := Z.shiftr x n.

Definition round_constants : list Z :=
  [
   1116352408; 1899447441; 3049323471; 3921009573; 961987163; 1508970993; 2453635748; 2870763221;
   3624381080; 310598401; 607225278; 1426881987; 1925078388; 2162078206; 2614888103; 3248222580;
   3835390401; 4022224774; 264347078; 604807628; 770255983; 1249150122; 1555081692; 1996064986;
   2554220882; 2821834349; 2952996808; 3210313671; 3336571891; 3584528711; 113926993; 338241895;
   666307205; 773529912; 1294757372; 1396182291; 1695183700; 1986661051; 2177026350; 2456956037;
   2730485921; 2820302411; 3259730800; 3345764771; 3516065817; 3600352804; 4094571909; 275423344;
   430227734; 506948616; 659060556; 883997877; 958139571; 1322822218; 1537002063; 1747873779;
   1955562222; 2024104815; 2227730452; 2361852424; 2428436474; 2756734187; 3204031479; 3329325298].

(** The eight working variables. *)
Record Hash := mkHash { ha : Z; hb : Z; hc : Z; hd : Z; he : Z; hf : Z; hg : Z; hh : Z }.

Definition initial_hash : Hash :=
  mkHash 1779033703 3144134277 1013904242 2773480762 1359893119 2600822924 528734635 1541459225.

Definition big_sigma0 x := Z.lxor (rotr 2 x) (Z.lxor (rotr 13 x) (rotr 22 x)).
Definition big_sigma1 x := Z.lxor (rotr 6 x) (Z.lxor (rotr 11 x) (rotr 25 x)).
Definition small_sigma0 x := Z.lxor (rotr 7 x) (Z.lxor (rotr 18 x) (shr 3 x)).
Definition small_sigma1 x := Z.lxor (rotr 17 x) (Z.lxor (rotr 19 x) (shr 10 x)).
Definition ch x y z := Z.lxor (Z.land x y) (Z.land (Z.lxor x (Z.ones 32)) z).
Definition maj x y z := Z.lxor (Z.land x y) (Z.lxor (Z.land x z) (Z.land y z)).

Definition round (h : Hash) (kw : Z * Z) : Hash :=
  let t1 := add32 (hh h) (add32 (big_sigma1 (he h))
              (add32 (ch (he h) (hf h) (hg h)) (add32 kw.1 kw.2))) in
  let t2 := add32 (big_sigma0 (ha h)) (maj (ha h) (hb h) (hc h)) in
  mkHash (add32 t1 t2) (ha h) (hb h) (hc h) (add32 (hd h) t1) (he h) (hf h) (hg h).

(** The message schedule, kept most recent word first. *)
Fixpoint extend (n : nat) (rev_w : list Z) : list Z :=
  match n with
  | O => rev_w
  | S m =>
      let w i := nth i rev_w 0 in
      extend m (add32 (small_sigma1 (w 1%nat)) (add32 (w 6%nat)
                 (add32 (small_sigma0 (w 14%nat)) (w 15%nat))) :: rev_w)
  end.

Definition compress (h : Hash) (block : list Z) : Hash :=
  let ws := rev (extend 48 (rev block)) in
  let h' := foldl round h (zip round_constants ws) in
  mkHash (add32 (ha h) (ha h')) (add32 (hb h) (hb h')) (add32 (hc h) (hc h'))
    (add32 (hd h) (hd h')) (add32 (he h) (he h')) (add32 (hf h) (hf h'))
    (add32 (hg h) (hg h')) (add32 (hh h) (hh h')).

Fixpoint bytes_of (s : string) : list Z :=
  match s with
  | EmptyString => []
  | String c s' => Z.of_nat (nat_of_ascii c) :: bytes_of s'
  end.

Definition be_bytes (n : nat) (x : Z) : list Z :=
  map (fun i => Z.land (Z.shiftr x (8 * Z.of_nat i)) 255) (rev (seq 0 n)).

Definition pad (m : list Z) : list Z :=
  let len := Z.of_nat (List.length m) in
  m ++ [128] ++ replicate (Z.to_nat ((55 - len) mod 64)) 0 ++ be_bytes 8 (8 * len).

Fixpoint words_of (l : list Z) : list Z :=
  match l with
  | a :: b :: c :: d :: l' =>
      Z.lor (Z.shiftl a 24) (Z.lor (Z.shiftl b 16) (Z.lor (Z.shiftl c 8) d)) :: words_of l'
  | _ => []
  end.

Fixpoint blocks (fuel : nat) (ws : list Z) : list (list Z) :=
  match fuel, ws with
  | S f, _ :: _ => take 16 ws :: blocks f (drop 16 ws)
  | _, _ => []
  end.

Definition sha256 (s : string) : Hash :=
  let ws := words_of (pad (bytes_of s)) in
  foldl compress initial_hash (blocks (List.length ws) ws).

(** ** Hexadecimal output *)

Definition hex_digit (n : Z) : ascii :=
  match n with
  | 0 => "0" | 1 => "1" | 2 => "2" | 3 => "3" | 4 => "4" | 5 => "5" | 6 => "6" | 7 => "7"
  | 8 => "8" | 9 => "9" | 10 => "a" | 11 => "b" | 12 => "c" | 13 => "d" | 14 => "e" | 15 => "f"
  | _ => "0"
  end%char.

Definition hex_word (x : Z) : list ascii :=
  map (fun i => hex_digit (Z.land (Z.shiftr x (4 * i)) 15)) [7; 6; 5; 4; 3; 2; 1; 0].

Definition hash_words (h : Hash) : list Z := [ha h; hb h; hc h; hd h; he h; hf h; hg h; hh h].

(** [hashlib.sha256(s.encode("utf-8")).hexdigest()] *)
Definition hexdigest (s : string) : string :=
  string_of_list_ascii (mjoin (map hex_word (hash_words (sha256 s)))).

Definition is_hex (c : ascii) : bool :=
  existsb (Ascii.eqb c) ["0"; "1"; "2"; "3"; "4"; "5"; "6"; "7"; "8"; "9";
                         "a"; "b"; "c"; "d"; "e"; "f"]%char.

Lemma hex_digit_is_hex n : is_hex (hex_digit n) = true.
Proof. destruct n as [|p|]; [done| |done]. do 4 (destruct p; try reflexivity). Qed.

Lemma length_string_of_list_ascii l : String.length (string_of_list_ascii l) = List.length l.
Proof. induction l; simpl; congruence. Qed.

Lemma length_hexdigest s : String.length (hexdigest s) = 64%nat.
Proof.
  unfold hexdigest. rewrite length_string_of_list_ascii. destruct (sha256 s). reflexivity.
Qed.

Lemma hexdigest_is_hex s : Forall (fun c => is_hex c = true) (list_ascii_of_string (hexdigest s)).
Proof.
  unfold hexdigest. rewrite list_ascii_of_string_of_list_ascii.
  generalize (hash_words (sha256 s)). intros ws.
  apply Forall_join, Forall_map, Forall_true. intros w.
  apply Forall_map, Forall_true. intros i. apply hex_digit_is_hex.
Qed.

Example sha256_abc :
  hexdigest "abc" = "ba7816bf8f01cfea414140de5dae2223b00361a396177a9cb410ff61f20015ad"%string.
Proof. vm_compute. reflexivity. Qed.
