(* ===== verification/ClientOrderId.v ===== *)
(** * ClientOrderId: deterministic client order identifiers

    [domain/client_order_id.py]: the four identifiers V2 mints, their
    validation against the exchange's limits, and the reverse parse of the
    leg.  Strings are their UTF-8 bytes.  What is proved: which inputs mint an
    identifier, that a minted identifier is accepted by the exchange's rules
    and parses back to its own leg, and when two mints can coincide. *)
From S2P Require Import Prelude Sha256.
From stdpp Require Export pretty.
From Stdlib Require Import Ascii.

Local Open Scope Z_scope.

Definition MAX_CLIENT_ORDER_ID_LENGTH : nat := 36.
Definition _INTENT_HASH_LENGTH : nat := 20.
Definition _POSITION_HASH_LENGTH : nat := 18.

Inductive OrderLegKind := ENTRY | EXIT | STOP | TARGET.
#[export] Instance OrderLegKind_eq_dec : EqDecision OrderLegKind.
Proof. solve_decision. Defined.

Definition _PREFIX_BY_LEG (k : OrderLegKind) : string :=
  match k with ENTRY => "A2E" | EXIT => "A2X" | STOP => "A2S" | TARGET => "A2T" end.

(** The dictionary's insertion order. *)
Definition legs_in_order : list OrderLegKind := [ENTRY; EXIT; STOP; TARGET].

(** [s[:n]] *)
Definition str_take (n : nat) (s : string) : string := String.substring 0 n s.

(** [str(n)] of an integer. *)
Definition str_int (n : Z) : string := pretty n.

Definition separator : ascii := "031"%char.

(** [_hash( *parts, length)]; the parts are joined by the unit separator. *)
Definition _hash (parts : list string) (len : nat) : string :=
  str_take len (hexdigest (String.concat (String separator "") parts)).

Definition in_range (lo hi c : ascii) : bool :=
  (nat_of_ascii lo <=? nat_of_ascii c)%nat && (nat_of_ascii c <=? nat_of_ascii hi)%nat.
Definition id_char (c : ascii) : bool :=
  in_range "A" "Z" c || in_range "a" "z" c || in_range "0" "9" c || Ascii.eqb c "-".

(** [^[A-Za-z0-9-]+$] under [re.match]: [$] also accepts one final newline. *)
Fixpoint CLIENT_ORDER_ID_PATTERN (s : string) : bool :=
  match s with
  | EmptyString => false
  | String c EmptyString => id_char c
  | String c (String n EmptyString) => id_char c && (id_char n || Ascii.eqb n "010")
  | String c s' => id_char c && CLIENT_ORDER_ID_PATTERN s'
  end.

Definition _validate (client_order_id : string) : res string :=
  if (MAX_CLIENT_ORDER_ID_LENGTH <? String.length client_order_id)%nat
  then Raise (ValueError "exceeding the exchange limit")
  else if negb (CLIENT_ORDER_ID_PATTERN client_order_id)
  then Raise (ValueError "contains characters outside [A-Za-z0-9-]")
  else Ok client_order_id.

Definition entry_client_order_id (intent_id : string) (leg : Z) : res string :=
  if negb (str_truthy intent_id) then Raise (ValueError "intent_id is required")
  else if leg <? 1 then Raise (ValueError "leg must be >= 1")
  else let digest := _hash [intent_id; str_int leg] _INTENT_HASH_LENGTH in
       _validate (_PREFIX_BY_LEG ENTRY +:+ "-" +:+ digest +:+ "-" +:+ str_int leg).

Definition exit_client_order_id (position_id : string) (attempt : Z) : res string :=
  if negb (str_truthy position_id) then Raise (ValueError "position_id is required")
  else if attempt <? 1 then Raise (ValueError "attempt must be >= 1")
  else let digest := _hash [position_id; str_int attempt] _INTENT_HASH_LENGTH in
       _validate (_PREFIX_BY_LEG EXIT +:+ "-" +:+ digest +:+ "-" +:+ str_int attempt).

Definition stop_client_order_id (position_id : string) (revision : Z) : res string :=
  if negb (str_truthy position_id) then Raise (ValueError "position_id is required")
  else if revision <? 1 then Raise (ValueError "revision must be >= 1")
  else let digest := _hash [position_id; "stop"%string; str_int revision] _POSITION_HASH_LENGTH in
       _validate (_PREFIX_BY_LEG STOP +:+ "-" +:+ digest).

Definition target_client_order_id (position_id : string) (revision : Z) : res string :=
  if negb (str_truthy position_id) then Raise (ValueError "position_id is required")
  else if revision <? 1 then Raise (ValueError "revision must be >= 1")
  else let digest := _hash [position_id; "target"%string; str_int revision] _POSITION_HASH_LENGTH in
       _validate (_PREFIX_BY_LEG TARGET +:+ "-" +:+ digest).

(** [s.split("-", 1)[0]] *)
Fixpoint before_dash (s : string) : string :=
  match s with
  | EmptyString => EmptyString
  | String c s' => if Ascii.eqb c "-" then EmptyString else String c (before_dash s')
  end.

Definition leg_kind_of (client_order_id : string) : option OrderLegKind :=
  let prefix := before_dash client_order_id in
  List.find (fun leg => String.eqb prefix (_PREFIX_BY_LEG leg)) legs_in_order.

Definition is_v2_client_order_id (client_order_id : string) : bool :=
  match leg_kind_of client_order_id with Some _ => true | None => false end.

(** The identifier of a leg, as one function. *)
Definition mint (k : OrderLegKind) (ref : string) (n : Z) : res string :=
  match k with
  | ENTRY => entry_client_order_id ref n
  | EXIT => exit_client_order_id ref n
  | STOP => stop_client_order_id ref n
  | TARGET => target_client_order_id ref n
  end.

(** ** Characters and lengths *)

Lemma length_app_str a b : String.length (a +:+ b) = (String.length a + String.length b)%nat.
Proof.
  induction a as [|c a IH]; [done|]. change (String c a +:+ b) with (String c (a +:+ b)).
  cbn [String.length]. by rewrite IH.
Qed.

Lemma pattern_of_all_chars c s :
  all_chars id_char (String c s) = true -> CLIENT_ORDER_ID_PATTERN (String c s) = true.
Proof.
  revert c; induction s as [|n s IH]; intros c H.
  - simpl in *. by rewrite andb_true_r in H.
  - cbn [all_chars] in H. apply andb_true_iff in H as [Hc Hs].
    destruct s as [|m s].
    + cbn in *. rewrite andb_true_r in Hs. by rewrite Hc, Hs.
    + specialize (IH n Hs). cbn [CLIENT_ORDER_ID_PATTERN] in *. by rewrite Hc, IH.
Qed.

Lemma hex_is_id_char c : is_hex c = true -> id_char c = true.
Proof.
  unfold is_hex. intros H. apply existsb_exists in H as (d & Hd & He).
  apply Ascii.eqb_eq in He as ->. simpl in Hd.
  repeat destruct Hd as [<-|Hd]; [reflexivity..|done].
Qed.

Lemma all_chars_forall p s : Forall (fun c => p c = true) (list_ascii_of_string s) -> all_chars p s = true.
Proof. induction s as [|c s IH]; simpl; [done|]. intros H. inversion H; subst. by rewrite H2, IH. Qed.

Lemma str_take_spec p n s :
  (n <= String.length s)%nat -> all_chars p s = true ->
  String.length (str_take n s) = n /\ all_chars p (str_take n s) = true.
Proof.
  revert n; induction s as [|c s IH]; intros [|n] Hn Hp; simpl in *; try done; try lia.
  apply andb_true_iff in Hp as [Hc Hp]. destruct (IH n ltac:(lia) Hp) as [Hl Ha].
  unfold str_take in *. by rewrite Hl, Hc, Ha.
Qed.

Lemma hash_spec parts n :
  (n <= 64)%nat -> String.length (_hash parts n) = n /\ all_chars id_char (_hash parts n) = true.
Proof.
  intros Hn. unfold _hash. apply str_take_spec; [by rewrite length_hexdigest|].
  apply all_chars_forall. eapply Forall_impl; [apply hexdigest_is_hex|]. apply hex_is_id_char.
Qed.

Definition digit (c : ascii) : bool := in_range "0" "9" c.

Lemma pretty_char_digit x : digit (pretty_N_char x) = true.
Proof. destruct x as [|p]; [done|]. do 4 (destruct p as [p|p|]; try reflexivity). Qed.

Lemma pretty_N_go_digits x s : all_chars digit s = true -> all_chars digit (pretty_N_go x s) = true.
Proof.
  revert s. induction (N.lt_wf_0 x) as [x _ IH]. intros s Hs.
  destruct (decide (x = 0)%N) as [->|Hx]; [by rewrite pretty_N_go_0|].
  rewrite pretty_N_go_step by lia. apply IH; [apply N.div_lt; lia|].
  cbn. by rewrite pretty_char_digit.
Qed.

Lemma pretty_N_go_length (k : nat) x s :
  (x < 10 ^ N.of_nat k)%N -> (String.length (pretty_N_go x s) <= k + String.length s)%nat.
Proof.
  revert x s; induction k as [|k IH]; intros x s Hx.
  - simpl in Hx. assert (x = 0)%N as -> by lia. by rewrite pretty_N_go_0.
  - destruct (decide (x = 0)%N) as [->|Hx0]; [rewrite pretty_N_go_0; lia|].
    rewrite pretty_N_go_step by lia.
    etrans; [apply IH|simpl; lia].
    rewrite Nat2N.inj_succ, N.pow_succ_r' in Hx. apply N.Div0.div_lt_upper_bound. lia.
Qed.

Lemma pretty_N_go_length_lower (k : nat) x s :
  (10 ^ N.of_nat k <= x)%N -> (k + String.length s < String.length (pretty_N_go x s))%nat.
Proof.
  revert x s; induction k as [|k IH]; intros x s Hx.
  - simpl in Hx. rewrite pretty_N_go_step by lia.
    assert (forall y t, String.length t <= String.length (pretty_N_go y t))%nat as Hm.
    { intros y. induction (N.lt_wf_0 y) as [y _ IHy]. intros t.
      destruct (decide (y = 0)%N) as [->|Hy]; [by rewrite pretty_N_go_0|].
      rewrite pretty_N_go_step by lia. etrans; [|apply IHy, N.div_lt; lia]. simpl; lia. }
    specialize (Hm (x / 10)%N (String (pretty_N_char (x mod 10)) s)). simpl in *. lia.
  - rewrite Nat2N.inj_succ, N.pow_succ_r' in Hx.
    rewrite pretty_N_go_step by lia.
    specialize (IH (x / 10)%N (String (pretty_N_char (x mod 10)) s)). simpl in IH.
    assert (10 ^ N.of_nat k <= x / 10)%N by (apply N.div_le_lower_bound; lia). lia.
Qed.

Lemma str_int_pos n : 1 <= n -> str_int n = pretty_N_go (Z.to_N n) "".
Proof. intros. destruct n as [|p|p]; try lia. reflexivity. Qed.

Lemma str_int_digits n : 1 <= n -> all_chars digit (str_int n) = true.
Proof. intros. rewrite str_int_pos by done. by apply pretty_N_go_digits. Qed.

Lemma str_int_length n (k : nat) : 1 <= n -> (String.length (str_int n) <= k)%nat <-> n < 10 ^ Z.of_nat k.
Proof.
  intros Hn. rewrite str_int_pos by done.
  assert (10 ^ N.of_nat k = Z.to_N (10 ^ Z.of_nat k))%N as Hp.
  { change 10%N with (Z.to_N 10). rewrite <- (N2Z.id (N.of_nat k)) at 1.
    rewrite nat_N_Z, <- Z2N.inj_pow by lia. done. }
  assert (0 < 10 ^ Z.of_nat k) by (apply Z.pow_pos_nonneg; lia).
  destruct (Z.lt_ge_cases n (10 ^ Z.of_nat k)) as [Hl|Hg].
  - pose proof (pretty_N_go_length k (Z.to_N n) "" ltac:(rewrite Hp; lia)). simpl in *. lia.
  - pose proof (pretty_N_go_length_lower k (Z.to_N n) "" ltac:(rewrite Hp; lia)). simpl in *. lia.
Qed.

Lemma digit_is_id_char s : all_chars digit s = true -> all_chars id_char s = true.
Proof.
  induction s as [|c s IH]; simpl; [done|]. intros H. apply andb_true_iff in H as [Hc Hs].
  rewrite IH by done. unfold id_char, digit in *. rewrite Hc. by rewrite orb_true_r.
Qed.

(** ** Minting *)

Definition hash_length (k : OrderLegKind) : nat :=
  match k with ENTRY | EXIT => _INTENT_HASH_LENGTH | STOP | TARGET => _POSITION_HASH_LENGTH end.
Definition hash_parts (k : OrderLegKind) (ref : string) (n : Z) : list string :=
  match k with
  | ENTRY | EXIT => [ref; str_int n]
  | STOP => [ref; "stop"%string; str_int n]
  | TARGET => [ref; "target"%string; str_int n]
  end.
Definition suffix (k : OrderLegKind) (n : Z) : string :=
  match k with ENTRY | EXIT => "-" +:+ str_int n | STOP | TARGET => "" end.
(** The identifier before validation. *)
Definition raw_id (k : OrderLegKind) (ref : string) (n : Z) : string :=
  _PREFIX_BY_LEG k +:+ "-" +:+ _hash (hash_parts k ref n) (hash_length k) +:+ suffix k n.

Lemma hash_length_le k : (hash_length k <= 64)%nat.
Proof. destruct k; unfold hash_length, _INTENT_HASH_LENGTH, _POSITION_HASH_LENGTH; lia. Qed.

Lemma app_empty_str s : s +:+ "" = s.
Proof. induction s as [|c s IH]; [done|]. change (String c s +:+ "") with (String c (s +:+ "")). by rewrite IH. Qed.

Lemma mint_raw k ref n :
  mint k ref n =
    if negb (str_truthy ref) then Raise (ValueError (match k with ENTRY => "intent_id is required" | _ => "position_id is required" end))
    else if n <? 1 then Raise (ValueError (match k with ENTRY => "leg must be >= 1" | EXIT => "attempt must be >= 1" | _ => "revision must be >= 1" end))
    else _validate (raw_id k ref n).
Proof. destruct k; unfold raw_id; cbn [suffix]; rewrite ?app_empty_str; reflexivity. Qed.

Lemma raw_id_chars k ref n : 1 <= n -> CLIENT_ORDER_ID_PATTERN (raw_id k ref n) = true.
Proof.
  intros Hn. unfold raw_id.
  destruct (hash_spec (hash_parts k ref n) (hash_length k)) as [_ Hc]; [apply hash_length_le|].
  set (d := _hash _ _) in *. clearbody d.
  assert (all_chars id_char (_PREFIX_BY_LEG k +:+ "-" +:+ d +:+ suffix k n) = true) as Ha.
  { rewrite !all_chars_app, Hc.
    assert (all_chars id_char (suffix k n) = true) as ->; [|by destruct k].
    destruct k; cbn [suffix]; rewrite ?all_chars_app; try done.
    all: by rewrite (digit_is_id_char (str_int n)) by (by apply str_int_digits). }
  destruct k; exact (pattern_of_all_chars _ _ Ha).
Qed.

Lemma raw_id_length k ref n :
  String.length (raw_id k ref n) = (4 + hash_length k + String.length (suffix k n))%nat.
Proof.
  unfold raw_id. rewrite !length_app_str.
  destruct (hash_spec (hash_parts k ref n) (hash_length k)) as [-> _]; [apply hash_length_le|].
  by destruct k.
Qed.

Lemma raw_id_fits k ref n :
  1 <= n ->
  (String.length (raw_id k ref n) <= 36)%nat <-> (k = ENTRY \/ k = EXIT -> n < 10 ^ 11).
Proof.
  intros Hn. rewrite raw_id_length. pose proof (str_int_length n 11 Hn) as Hl.
  change (10 ^ Z.of_nat 11) with (10 ^ 11) in Hl.
  assert (forall m, String.length ("-" +:+ m) = S (String.length m)) as Hd by (intros; apply length_app_str).
  unfold hash_length, _INTENT_HASH_LENGTH, _POSITION_HASH_LENGTH.
  destruct k; cbn [suffix]; rewrite ?Hd.
  1-2: split; [intros H _; apply Hl; lia|intros H; specialize (H ltac:(auto)); apply Hl in H; lia].
  all: split; [intros _ [?|?]; discriminate|intros _; cbn; lia].
Qed.

Lemma validate_ok s i :
  _validate s = Ok i <-> i = s /\ (String.length s <= 36)%nat /\ CLIENT_ORDER_ID_PATTERN s = true.
Proof.
  unfold _validate, MAX_CLIENT_ORDER_ID_LENGTH. destruct (Nat.ltb_spec 36 (String.length s)).
  - split; [done|]. intros (_ & ? & _). lia.
  - destruct (CLIENT_ORDER_ID_PATTERN s); simpl; naive_solver.
Qed.

Lemma mint_ok k ref n i :
  mint k ref n = Ok i <->
  i = raw_id k ref n /\ ref <> ""%string /\ 1 <= n /\ (k = ENTRY \/ k = EXIT -> n < 10 ^ 11).
Proof.
  rewrite mint_raw. destruct (str_truthy ref) eqn:Er; cbn [negb].
  2:{ split; [done|]. intros (_ & Hr & _). apply str_truthy_true in Hr. congruence. }
  apply str_truthy_true in Er. destruct (Z.ltb_spec n 1) as [Hn|Hn].
  { split; [done|]. intros (_ & _ & ? & _). lia. }
  rewrite validate_ok, raw_id_fits by done. rewrite raw_id_chars by done. naive_solver.
Qed.

Lemma leg_kind_of_raw k ref n : leg_kind_of (raw_id k ref n) = Some k.
Proof. by destruct k. Qed.

(** ** Identity *)

Lemma app_eq_length (a a' b b' : string) :
  String.length a = String.length a' -> a +:+ b = a' +:+ b' -> a = a' /\ b = b'.
Proof.
  revert a'; induction a as [|c a IH]; intros [|c' a'] Hl; try discriminate Hl; [done|].
  change (String c (a +:+ b) = String c' (a' +:+ b') -> String c a = String c' a' /\ b = b').
  intros H. injection Hl as Hl. injection H as -> H. destruct (IH a' Hl H) as [-> ->]. done.
Qed.

Fixpoint has_char (x : ascii) (s : string) : bool :=
  match s with EmptyString => false | String c s' => Ascii.eqb c x || has_char x s' end.

Lemma has_char_app x a b : has_char x (a +:+ b) = has_char x a || has_char x b.
Proof.
  induction a as [|c a IH]; [done|]. change (String c a +:+ b) with (String c (a +:+ b)).
  cbn. rewrite IH. apply orb_assoc.
Qed.

Lemma digits_no_separator s : all_chars digit s = true -> has_char separator s = false.
Proof.
  induction s as [|c s IH]; [done|]. cbn. intros H. apply andb_true_iff in H as [Hc Hs].
  rewrite IH by done. destruct (Ascii.eqb_spec c separator) as [->|]; [discriminate Hc|done].
Qed.

(** What follows the last separator determines both halves. *)
Lemma split_last (x : ascii) a b a' b' :
  has_char x b = false -> has_char x b' = false ->
  a +:+ String x b = a' +:+ String x b' -> a = a' /\ b = b'.
Proof.
  revert a'; induction a as [|c a IH]; intros [|c' a'] Hb Hb'.
  - change (String x b = String x b' -> EmptyString = EmptyString /\ b = b'). naive_solver.
  - change (String x b = String c' (a' +:+ String x b') -> EmptyString = String c' a' /\ b = b').
    intros H. injection H as -> ->. rewrite has_char_app in Hb. cbn in Hb.
    by rewrite Ascii.eqb_refl, orb_true_r in Hb.
  - change (String c (a +:+ String x b) = String x b' -> String c a = EmptyString /\ b = b').
    intros H. injection H as -> <-. rewrite has_char_app in Hb'. cbn in Hb'.
    by rewrite Ascii.eqb_refl, orb_true_r in Hb'.
  - change (String c (a +:+ String x b) = String c' (a' +:+ String x b') -> String c a = String c' a' /\ b = b').
    intros H. injection H as -> H. destruct (IH a' Hb Hb' H) as [-> ->]. done.
Qed.

(** The string that is hashed. *)
Definition payload (k : OrderLegKind) (ref : string) (n : Z) : string :=
  String.concat (String separator "") (hash_parts k ref n).

Lemma app_inj_r (a a' b : string) : a +:+ b = a' +:+ b -> a = a'.
Proof.
  intros H. assert (String.length a = String.length a') as Hl.
  { apply (f_equal String.length) in H. rewrite !length_app_str in H. lia. }
  by destruct (app_eq_length a a' b b Hl H).
Qed.

Lemma payload_inj k ref n ref' n' :
  1 <= n -> 1 <= n' -> payload k ref n = payload k ref' n' -> ref = ref' /\ n = n'.
Proof.
  intros Hn Hn' H.
  pose proof (digits_no_separator _ (str_int_digits n Hn)) as Hs.
  pose proof (digits_no_separator _ (str_int_digits n' Hn')) as Hs'.
  assert (exists m, (forall r j, payload k r j = (r +:+ m) +:+ String separator (str_int j))) as [m Hm].
  { assert (forall a b c : string, (a +:+ b) +:+ c = a +:+ (b +:+ c)) as Hassoc.
    { intros a b c. induction a as [|x a IH]; [done|].
      change (String x ((a +:+ b) +:+ c) = String x (a +:+ (b +:+ c))). by rewrite IH. }
    destruct k; [exists ""|exists ""|exists (String separator "stop")|exists (String separator "target")];
      intros r j; rewrite ?app_empty_str, ?Hassoc; reflexivity. }
  rewrite !Hm in H. apply split_last in H as [Hr Hd]; [|done..].
  split; [by apply app_inj_r in Hr|]. by apply (inj pretty) in Hd.
Qed.

(** ** Properties *)

(** Exactly which inputs mint an identifier, and what a minted identifier
    satisfies: the exchange's length and alphabet, and the reverse parse. *)
Theorem minted_id_spec k ref n :
  (is_ok (mint k ref n) = true <->
     ref <> ""%string /\ 1 <= n /\ (k = ENTRY \/ k = EXIT -> n < 10 ^ 11)) /\
  (forall i, mint k ref n = Ok i ->
     (String.length i <= MAX_CLIENT_ORDER_ID_LENGTH)%nat /\ CLIENT_ORDER_ID_PATTERN i = true
     /\ leg_kind_of i = Some k /\ is_v2_client_order_id i = true).
Proof.
  split.
  - split.
    + destruct (mint k ref n) as [i|e] eqn:E; [|done]. intros _. apply mint_ok in E. tauto.
    + intros H. assert (mint k ref n = Ok (raw_id k ref n)) as -> by (apply mint_ok; tauto). done.
  - intros i Hi. apply mint_ok in Hi as (-> & Hr & Hn & Hk).
    split; [by apply raw_id_fits|]. split; [by apply raw_id_chars|].
    unfold is_v2_client_order_id. by rewrite leg_kind_of_raw.
Qed.

(** Two mints that coincide are for the same leg, and for an entry or an exit
    for the same attempt number, whatever the hash does; they are the same
    mint unless two different payloads have equal truncated digests. *)
Theorem equal_ids_same_leg k ref n k' ref' n' i :
  mint k ref n = Ok i -> mint k' ref' n' = Ok i ->
  k = k' /\ (k = ENTRY \/ k = EXIT -> n = n') /\
  ((ref = ref' /\ n = n') \/
   (payload k ref n <> payload k ref' n' /\
    str_take (hash_length k) (hexdigest (payload k ref n)) =
    str_take (hash_length k) (hexdigest (payload k ref' n')))).
Proof.
  intros H H'. apply mint_ok in H as (-> & Hr & Hn & _). apply mint_ok in H' as (Heq & Hr' & Hn' & _).
  assert (k = k') as <-.
  { pose proof (leg_kind_of_raw k ref n) as Hl. rewrite Heq, leg_kind_of_raw in Hl. congruence. }
  unfold raw_id in Heq. apply app_eq_length in Heq as [_ Heq]; [|done].
  apply app_eq_length in Heq as [_ Heq]; [|done].
  assert (hash_length k <= 64)%nat as Hh by apply hash_length_le.
  apply app_eq_length in Heq as [Hd Hs]; [|by rewrite !(proj1 (hash_spec _ _ Hh))].
  split; [done|]. split.
  - intros Hk. apply (inj pretty). destruct Hk as [-> | ->]; cbn [suffix] in Hs; by injection Hs.
  - destruct (decide (payload k ref n = payload k ref' n')) as [Hp|Hp].
    + left. by apply (payload_inj k).
    + right. split; [done|]. exact Hd.
Qed.

Lemma equal_ids_same_leg_witness :
  mint STOP "pos-1" 2 = Ok "A2S-bd038cbc87254825a8"%string /\ STOP = STOP.
Proof.
  assert (mint STOP "pos-1" 2 = Ok "A2S-bd038cbc87254825a8"%string) as H by (vm_compute; reflexivity).
  split; [exact H|]. exact (proj1 (equal_ids_same_leg STOP "pos-1" 2 STOP "pos-1" 2 _ H H)).
Defined.

Example entry_id_example :
  entry_client_order_id "intent-1" 1 = Ok "A2E-eb4c4dd912314203417c-1"%string.
Proof. vm_compute. reflexivity. Qed.
