(* ===== verification/Receipts.v ===== *)
(** * Receipts: commands, exchange receipts and the Exchange-First invariants

    [domain/commands.py], [domain/receipts.py] and [domain/invariants.py].
    A dataclass with a [__post_init__] is a record together with a checked
    constructor [make_*].  Timestamps are microseconds since the epoch. *)
From S2P Require Import Prelude PyDecimal State.

Local Open Scope Z_scope.

Definition datetime : Type := Z.

(** ** Commands *)

Record SubmitEntryToExchange := mkSubmitEntry {
  se_intent_id : string; se_quantity : Dec; se_leverage : Z; se_client_order_id : string }.

Record SubmitProtectionOrders := mkSubmitProtection {
  sp_position_id : string; sp_stop_loss_price : Dec; sp_take_profit_price : option Dec;
  sp_stop_client_order_id : string; sp_tp_client_order_id : option string }.

Record SubmitReduceOnlyExit := mkSubmitReduce {
  sr_position_id : string; sr_exit_reason : string; sr_reduce_quantity : Dec;
  sr_client_order_id : string; sr_is_emergency : bool }.

(** ** Receipts *)

Record FillReceipt := mkFillReceipt {
  fr_intent_id : string; fr_exchange_order_id : string; fr_trade_ids : list string;
  fr_filled_quantity : Dec; fr_average_fill_price : Dec; fr_total_fee : Dec;
  fr_fill_timestamp : datetime; fr_source : string }.

Definition BINANCE_USER_TRADE : string := "BINANCE_USER_TRADE".
Definition BINANCE_ORDER_STATUS_RECOVERY : string := "BINANCE_ORDER_STATUS_RECOVERY".

(** [FillReceipt.__post_init__] *)
Definition make_FillReceipt (r : FillReceipt) : res FillReceipt :=
  assert_or (str_truthy (fr_exchange_order_id r))
    (ValueError "FillReceipt requires exchange_order_id") ≫= fun _ =>
  assert_or (negb (negb (is_nonempty (fr_trade_ids r))
                   && negb (String.eqb (fr_source r) BINANCE_ORDER_STATUS_RECOVERY)))
    (ValueError "FillReceipt requires trade_ids") ≫= fun _ =>
  assert_or (negb (fr_filled_quantity r <=? dzero)%D)
    (ValueError "FillReceipt filled_quantity must be > 0") ≫= fun _ =>
  assert_or (negb (fr_average_fill_price r <=? dzero)%D)
    (ValueError "FillReceipt average_fill_price must be > 0") ≫= fun _ =>
  Ok r.

Record ProtectionReceipt := mkProtectionReceipt {
  pr_position_id : string; pr_stop_exchange_order_id : string;
  pr_tp_exchange_order_id : option string; pr_submission_timestamp : datetime }.

Definition make_ProtectionReceipt (r : ProtectionReceipt) : res ProtectionReceipt :=
  assert_or (str_truthy (pr_stop_exchange_order_id r))
    (ValueError "ProtectionReceipt requires stop_exchange_order_id") ≫= fun _ => Ok r.

Record ReduceReceipt := mkReduceReceipt {
  rr_position_id : string; rr_exchange_order_id : string; rr_trade_ids : list string;
  rr_filled_quantity : Dec; rr_average_fill_price : Dec; rr_total_fee : Dec;
  rr_fill_timestamp : datetime }.

Definition make_ReduceReceipt (r : ReduceReceipt) : res ReduceReceipt :=
  assert_or (str_truthy (rr_exchange_order_id r))
    (ValueError "ReduceReceipt requires exchange_order_id") ≫= fun _ =>
  assert_or (is_nonempty (rr_trade_ids r))
    (ValueError "ReduceReceipt requires at least one trade_id") ≫= fun _ =>
  assert_or (negb (rr_filled_quantity r <=? dzero)%D)
    (ValueError "ReduceReceipt filled_quantity must be > 0") ≫= fun _ =>
  assert_or (negb (rr_average_fill_price r <=? dzero)%D)
    (ValueError "ReduceReceipt average_fill_price must be > 0") ≫= fun _ =>
  Ok r.

(** ** Invariants *)

Definition assert_fill_receipt_valid (r : FillReceipt) : res unit :=
  assert_or (str_truthy (fr_exchange_order_id r))
    (ValueError "FillReceipt missing exchange_order_id") ≫= fun _ =>
  assert_or (is_nonempty (fr_trade_ids r)) (ValueError "FillReceipt missing trade_ids") ≫= fun _ =>
  assert_or (negb (fr_filled_quantity r <=? dzero)%D)
    (ValueError "FillReceipt filled_quantity must be > 0") ≫= fun _ =>
  assert_or (negb (fr_average_fill_price r <=? dzero)%D)
    (ValueError "FillReceipt average_fill_price must be > 0").

Definition assert_protection_active_requires_exchange_order_id (stop_exchange_order_id : option string) : res unit :=
  assert_or (ostr_truthy stop_exchange_order_id) (ValueError "missing stop exchange order id").

Definition assert_protection_receipt_valid (r : ProtectionReceipt) : res unit :=
  assert_protection_active_requires_exchange_order_id (Some (pr_stop_exchange_order_id r)).

Definition default_min_stop_distance_pct : Dec := mkDec 1 (-3).

Definition assert_protection_price_from_fill (r : FillReceipt) (stop_loss_price : Dec)
    (direction : string) (min_stop_distance_pct : Dec) : res unit :=
  let fill_price := fr_average_fill_price r in
  (if String.eqb direction "long" then
     if (fill_price <=? stop_loss_price)%D then Raise (ValueError "long stop_loss_price must be < fill_price")
     else ddiv (fill_price - stop_loss_price)%D fill_price
   else if String.eqb direction "short" then
     if (stop_loss_price <=? fill_price)%D then Raise (ValueError "short stop_loss_price must be > fill_price")
     else ddiv (stop_loss_price - fill_price)%D fill_price
   else Raise (ValueError "Unknown direction")) ≫= fun distance_pct =>
  assert_or (negb (distance_pct <? min_stop_distance_pct)%D)
    (ValueError "stop distance is below minimum").

Definition assert_reduce_quantity_valid (reduce_quantity position_quantity : Dec) : res unit :=
  assert_or (negb (reduce_quantity <=? dzero)%D) (ValueError "reduce_quantity must be > 0") ≫= fun _ =>
  assert_or (negb (position_quantity <? reduce_quantity)%D)
    (ValueError "reduce_quantity exceeds position_quantity").

Definition assert_managed_position_invariants (position_id : string)
    (fill_receipt : option FillReceipt) (exchange_order_id : option string) : res unit :=
  match fill_receipt with
  | None => Raise (ValueError "Managed position has no FillReceipt")
  | Some r =>
      assert_fill_receipt_valid r ≫= fun _ =>
      assert_or (negb (ostr_truthy exchange_order_id
                       && negb (bool_decide (Some (fr_exchange_order_id r) = exchange_order_id))))
        (ValueError "exchange_order_id does not match FillReceipt.exchange_order_id")
  end.

(** ** Properties *)

Lemma not_leb_zero d : negb (d <=? dzero)%D = true <-> (0 < dval d)%Q.
Proof.
  rewrite negb_true_iff, dleb_false. unfold dzero. rewrite dval_zero. reflexivity.
Qed.

(** What the Exchange-First proof of a fill is: an exchange order, at least one
    trade, a positive quantity and a positive price. *)
Definition fill_evidence (r : FillReceipt) : Prop :=
  fr_exchange_order_id r <> ""%string /\ fr_trade_ids r <> [] /\
  (0 < dval (fr_filled_quantity r))%Q /\ (0 < dval (fr_average_fill_price r))%Q.

Lemma assert_fill_receipt_valid_ok r : assert_fill_receipt_valid r = Ok tt <-> fill_evidence r.
Proof.
  unfold assert_fill_receipt_valid, fill_evidence.
  rewrite !assert_bind_ok, assert_or_ok, str_truthy_true, is_nonempty_true, !not_leb_zero. tauto.
Qed.

(** A managed position is accepted exactly when a receipt carries the full
    evidence and, if the position names an exchange order, it is the same. *)
Theorem managed_position_needs_evidence pid fr oid :
  assert_managed_position_invariants pid fr oid = Ok tt <->
  exists r, fr = Some r /\ fill_evidence r /\
    (oid = None \/ oid = Some ""%string \/ oid = Some (fr_exchange_order_id r)).
Proof.
  unfold assert_managed_position_invariants. destruct fr as [r|]; [|naive_solver].
  rewrite res_bind_ok. setoid_rewrite assert_or_ok.
  split.
  - intros ([] & Hr & Ho). apply assert_fill_receipt_valid_ok in Hr. exists r. split; [done|].
    split; [done|]. destruct oid as [s|]; [|auto]. right. cbn in Ho.
    destruct s as [|c s]; [auto|]. right. cbn in Ho. apply negb_true_iff, negb_false_iff in Ho.
    by apply bool_decide_eq_true in Ho.
  - intros (r' & [= <-] & Hr & Ho). exists tt. split; [by apply assert_fill_receipt_valid_ok|].
    destruct Ho as [-> | [-> | ->]]; [done..|]. rewrite bool_decide_true by done.
    by rewrite andb_false_r.
Qed.

(** A receipt recovered at order level (no trade ids) is a legal [FillReceipt]
    but is never accepted as evidence for projecting a position. *)
Theorem order_level_recovery_receipt_not_projectable r :
  make_FillReceipt r = Ok r -> fr_trade_ids r = [] ->
  fr_source r = BINANCE_ORDER_STATUS_RECOVERY /\
  assert_fill_receipt_valid r = Raise (ValueError "FillReceipt missing trade_ids").
Proof.
  unfold make_FillReceipt. intros H Ht. inv_asserts. rewrite Ht in *. cbn in *. split_bools.
  split; [by apply String.eqb_eq|].
  unfold assert_fill_receipt_valid. rewrite H0, Ht. done.
Qed.

Definition sample_recovery_receipt : FillReceipt :=
  mkFillReceipt "intent-1" "987" [] (mkDec 5 (-3)) (dint 64000) dzero 0 BINANCE_ORDER_STATUS_RECOVERY.

Lemma order_level_recovery_receipt_not_projectable_witness :
  make_FillReceipt sample_recovery_receipt = Ok sample_recovery_receipt /\
  assert_fill_receipt_valid sample_recovery_receipt = Raise (ValueError "FillReceipt missing trade_ids").
Proof.
  split; [reflexivity|].
  exact (proj2 (order_level_recovery_receipt_not_projectable sample_recovery_receipt eq_refl eq_refl)).
Defined.

(** The stop-distance check: an accepted stop is on the losing side of the fill
    price, and the exact relative distance is the minimum up to two roundings. *)
Theorem protection_price_check_sound r stop dir m :
  (0 < dval (fr_average_fill_price r))%Q ->
  assert_protection_price_from_fill r stop dir m = Ok tt ->
  let fill := dval (fr_average_fill_price r) in
  (dir = "long"%string /\ (dval stop < fill)%Q \/ dir = "short"%string /\ (fill < dval stop)%Q) /\
  (dval m * fill <= (1 + uround) * (1 + uround) * Qabs (fill - dval stop))%Q.
Proof.
  intros Hf H fill. assert (0 < fill)%Q as Hff by exact Hf.
  assert (forall x q, rounds x (dval q) -> (0 < x)%Q -> (dval q <= (1 + uround) * x)%Q) as Hup.
  { intros x q Hr Hx. apply rounds_err in Hr. rewrite (Qabs_pos x) in Hr by lra.
    apply Qabs_le_iff in Hr. lra. }
  assert (forall x, (0 < x)%Q -> forall d q, rounds x (dval d) -> q = dquot d (fr_average_fill_price r) ->
    dltb q m = false -> (dval m * fill <= (1 + uround) * (1 + uround) * x)%Q) as Hmain.
  { intros x Hx d q Hd -> Hm. apply dltb_false in Hm.
    pose proof (rounds_pos _ _ Hx Hd) as Hd0. pose proof (Hup _ _ Hd Hx) as Hd1.
    pose proof (Hup _ _ (dquot_rounds d (fr_average_fill_price r) ltac:(lra))
      (Qdiv_pos _ _ Hd0 Hf)) as Hq.
    assert (dval m * fill <= (1 + uround) * (dval d / fill) * fill)%Q as H1.
    { apply Qmult_le_r; [done|]. eapply Qle_trans; [exact Hm|exact Hq]. }
    assert ((1 + uround) * (dval d / fill) * fill == (1 + uround) * dval d)%Q as H2 by (field; lra).
    assert ((1 + uround) * dval d <= (1 + uround) * ((1 + uround) * x))%Q as H3.
    { apply Qmult_le_l; [reflexivity|done]. }
    rewrite H2 in H1. lra. }
  unfold assert_protection_price_from_fill in H. apply res_bind_ok in H as (q & Hq & Hm).
  apply assert_or_ok, negb_true_iff in Hm.
  destruct (String.eqb_spec dir "long") as [->|_].
  - destruct (dleb _ _) eqn:E in Hq; [done|]. apply dleb_false in E. apply ddiv_ok in Hq as [_ ->].
    fold fill in E. split; [auto|]. rewrite Qabs_pos by lra.
    eapply Hmain; [lra|apply dsub_rounds|reflexivity|done].
  - destruct (String.eqb_spec dir "short") as [->|_]; [|done].
    destruct (dleb _ _) eqn:E in Hq; [done|]. apply dleb_false in E. apply ddiv_ok in Hq as [_ ->].
    fold fill in E. split; [auto|]. rewrite Qabs_neg by lra.
    assert (- (fill - dval stop) == dval stop - fill)%Q as -> by ring.
    eapply Hmain; [lra|apply dsub_rounds|reflexivity|done].
Qed.

Definition sample_receipt : FillReceipt :=
  mkFillReceipt "intent-1" "987" ["t1"%string] (mkDec 5 (-3)) (dint 64000) dzero 0 BINANCE_USER_TRADE.

Lemma protection_price_check_sound_witness :
  assert_protection_price_from_fill sample_receipt (dint 63000) "long" default_min_stop_distance_pct = Ok tt /\
  (("long" = "long" /\ (dval (dint 63000) < dval (dint 64000))%Q)
   \/ "long" = "short" /\ (dval (dint 64000) < dval (dint 63000))%Q)%string.
Proof.
  split; [reflexivity|].
  exact (proj1 (protection_price_check_sound sample_receipt (dint 63000) "long"
    default_min_stop_distance_pct ltac:(reflexivity) eq_refl)).
Defined.
