(* ===== verification/Candidates.v ===== *)
(** * Candidates: the trade candidate contract

    [domain/candidates.py]: a candidate carries distances, never absolute
    prices; its constructor enforces the promotion and geometry rules, and
    absolute protection prices are resolved from a real fill price only. *)
From S2P Require Import Prelude PyDecimal State Receipts.

Local Open Scope Z_scope.

Inductive CandidateLane := PRODUCTION | TESTNET_SAMPLING | SHADOW_LANE.
Inductive CandidateSide := LONG | SHORT.

#[export] Instance CandidateLane_eq_dec : EqDecision CandidateLane.
Proof. solve_decision. Defined.
#[export] Instance CandidateSide_eq_dec : EqDecision CandidateSide.
Proof. solve_decision. Defined.

Definition lane_value (l : CandidateLane) : string :=
  match l with PRODUCTION => "PRODUCTION" | TESTNET_SAMPLING => "TESTNET_SAMPLING" | SHADOW_LANE => "SHADOW" end.
Definition side_value (s : CandidateSide) : string := match s with LONG => "LONG" | SHORT => "SHORT" end.

(** [CandidateLane(value)] *)
Definition lane_of_value (s : string) : option CandidateLane :=
  List.find (fun l => String.eqb s (lane_value l)) [PRODUCTION; TESTNET_SAMPLING; SHADOW_LANE].

Definition EXECUTION_UNIVERSE : list string := ["BTC/USDT"; "ETH/USDT"]%string.

(** The fields as passed to the constructor; [raw_lane] is replaced by the
    parsed [lane] in the object. *)
Record TradeCandidate := mkCandidate {
  tc_candidate_id : string; tc_cycle_id : string; tc_strategy_id : string; tc_strategy_version : string;
  tc_raw_lane : string; tc_candidate_type : V2CandidateType; tc_symbol : string; tc_side : string;
  tc_signal_candle_close_time : datetime; tc_signal_reference_price : Dec; tc_confidence : Dec;
  tc_stop_distance : Dec; tc_take_profit_distance : option Dec; tc_max_entry_drift_bps : Dec;
  tc_expires_at : datetime; tc_non_promotable : bool }.

(** The lane of a constructed candidate. *)
Definition tc_lane (c : TradeCandidate) : option CandidateLane := lane_of_value (tc_raw_lane c).

Definition is_lane (o : option CandidateLane) (l : CandidateLane) : bool := bool_decide (o = Some l).
Definition is_type (t u : V2CandidateType) : bool := bool_decide (t = u).
Definition one_decimal : Dec := dint 1.

(** [TradeCandidate.__post_init__] *)
Definition make_TradeCandidate (c : TradeCandidate) : res TradeCandidate :=
  let lane := tc_lane c in
  assert_or (bool_decide (is_Some lane)) (ValueError "lane must be PRODUCTION, TESTNET_SAMPLING, or SHADOW") ≫= fun _ =>
  assert_or (String.eqb (tc_side c) "LONG" || String.eqb (tc_side c) "SHORT")
    (ValueError "side must be LONG or SHORT") ≫= fun _ =>
  assert_or (negb (tc_signal_reference_price c <=? dzero)%D) (ValueError "signal_reference_price must be > 0") ≫= fun _ =>
  assert_or (negb (tc_stop_distance c <=? dzero)%D) (ValueError "stop_distance must be > 0") ≫= fun _ =>
  assert_or (match tc_take_profit_distance c with Some d => negb (d <=? dzero)%D | None => true end)
    (ValueError "take_profit_distance must be > 0 when set") ≫= fun _ =>
  assert_or (negb (tc_max_entry_drift_bps c <=? dzero)%D) (ValueError "max_entry_drift_bps must be > 0") ≫= fun _ =>
  assert_or ((dzero <=? tc_confidence c)%D && (tc_confidence c <=? one_decimal)%D)
    (ValueError "confidence must be within [0, 1]") ≫= fun _ =>
  assert_or (negb (tc_expires_at c <=? tc_signal_candle_close_time c))
    (ValueError "expires_at must be after signal_candle_close_time") ≫= fun _ =>
  assert_or (negb (is_type (tc_candidate_type c) SAMPLING && negb (tc_non_promotable c)))
    (ValueError "SAMPLING candidates must be non_promotable") ≫= fun _ =>
  assert_or (negb (is_lane lane TESTNET_SAMPLING && negb (tc_non_promotable c)))
    (ValueError "TESTNET_SAMPLING candidates must be non_promotable") ≫= fun _ =>
  assert_or (negb (is_lane lane SHADOW_LANE && negb (is_type (tc_candidate_type c) RESEARCH)))
    (ValueError "SHADOW lane is reserved for RESEARCH candidates") ≫= fun _ =>
  assert_or (negb (is_type (tc_candidate_type c) RESEARCH && negb (is_lane lane SHADOW_LANE)))
    (ValueError "RESEARCH candidates must use the SHADOW lane") ≫= fun _ =>
  assert_or (negb (is_type (tc_candidate_type c) RESEARCH && negb (tc_non_promotable c)))
    (ValueError "RESEARCH candidates must be non_promotable") ≫= fun _ =>
  Ok c.

Definition tc_direction (c : TradeCandidate) : string :=
  if String.eqb (tc_side c) "LONG" then "long" else "short".

Definition is_expired (c : TradeCandidate) (now : datetime) : bool := tc_expires_at c <=? now.

(** [x if self.take_profit_distance else None] *)
Definition resolve_take (c : TradeCandidate) (f : Dec -> Dec) : option Dec :=
  match tc_take_profit_distance c with
  | Some d => if dtruthy d then Some (f d) else None
  | None => None
  end.

Definition resolve_protection_prices (c : TradeCandidate) (average_fill_price : Dec) : res (Dec * option Dec) :=
  assert_or (negb (average_fill_price <=? dzero)%D) (ValueError "average_fill_price must be > 0") ≫= fun _ =>
  let '(stop, take) :=
    if String.eqb (tc_side c) "LONG"
    then (dsub average_fill_price (tc_stop_distance c), resolve_take c (fun d => dadd average_fill_price d))
    else (dadd average_fill_price (tc_stop_distance c), resolve_take c (fun d => dsub average_fill_price d)) in
  assert_or (negb (stop <=? dzero)%D) (ValueError "resolved stop price must be > 0") ≫= fun _ =>
  assert_or (match take with Some t => negb (t <=? dzero)%D | None => true end)
    (ValueError "resolved take-profit price must be > 0") ≫= fun _ =>
  Ok (stop, take).

Definition drift_bps_from (c : TradeCandidate) (pre_submit_price : Dec) : res Dec :=
  assert_or (negb (pre_submit_price <=? dzero)%D) (ValueError "pre_submit_price must be > 0") ≫= fun _ =>
  let delta := dabs (dsub pre_submit_price (tc_signal_reference_price c)) in
  ddiv delta (tc_signal_reference_price c) ≫= fun q => Ok (dmul q (dint 10000)).

Definition drift_within_tolerance (c : TradeCandidate) (pre_submit_price : Dec) : res bool :=
  drift_bps_from c pre_submit_price ≫= fun d => Ok (d <=? tc_max_entry_drift_bps c)%D.

(** ** The candidate contract *)

Record candidate_wf (c : TradeCandidate) : Prop := {
  wf_side : tc_side c = "LONG"%string \/ tc_side c = "SHORT"%string;
  wf_ref : (0 < dval (tc_signal_reference_price c))%Q;
  wf_stop : (0 < dval (tc_stop_distance c))%Q;
  wf_take : forall d, tc_take_profit_distance c = Some d -> (0 < dval d)%Q;
  wf_drift : (0 < dval (tc_max_entry_drift_bps c))%Q;
  wf_conf : (0 <= dval (tc_confidence c) /\ dval (tc_confidence c) <= 1)%Q;
  wf_expiry : tc_signal_candle_close_time c < tc_expires_at c;
  (** Only PRIMARY candidates of the PRODUCTION lane may be promoted. *)
  wf_lane : match tc_lane c with
            | Some PRODUCTION => tc_candidate_type c = PRIMARY \/
                                 (tc_candidate_type c = SAMPLING /\ tc_non_promotable c = true)
            | Some TESTNET_SAMPLING => tc_candidate_type c <> RESEARCH /\ tc_non_promotable c = true
            | Some SHADOW_LANE => tc_candidate_type c = RESEARCH /\ tc_non_promotable c = true
            | None => False
            end }.

Lemma dval_dzero : (dval dzero == 0)%Q.
Proof. apply dval_zero. Qed.

Lemma make_TradeCandidate_iff c : make_TradeCandidate c = Ok c <-> candidate_wf c.
Proof.
  unfold make_TradeCandidate. rewrite !assert_bind_ok, !not_leb_zero, !andb_true_iff, !dleb_spec.
  rewrite dval_dzero. unfold one_decimal. rewrite dval_dint, orb_true_iff, !String.eqb_eq.
  rewrite bool_decide_eq_true. unfold is_lane, is_type.
  assert ((match tc_take_profit_distance c with Some d => negb (d <=? dzero)%D | None => true end) = true
          <-> forall d, tc_take_profit_distance c = Some d -> (0 < dval d)%Q) as ->.
  { destruct (tc_take_profit_distance c) as [d|]; [rewrite not_leb_zero|]; naive_solver. }
  rewrite negb_true_iff, Z.leb_gt.
  split.
  - intros (Hl & Hs & Hr & Hst & Ht & Hd & Hc & He & H1 & H2 & H3 & H4 & H5 & _).
    constructor; try done.
    destruct (tc_lane c) as [[]|], (tc_candidate_type c), (tc_non_promotable c);
      cbn in *; try discriminate; auto; by destruct Hl.
  - intros [Hs Hr Hst Ht Hd Hc He Hl]. repeat (split; [done||idtac|]); try done.
    all: destruct (tc_lane c) as [[]|], (tc_candidate_type c), (tc_non_promotable c);
      cbn in *; try done; naive_solver.
Qed.

Lemma make_TradeCandidate_raises c e : make_TradeCandidate c = Raise e -> exists t, e = ValueError t.
Proof.
  unfold make_TradeCandidate, assert_or, mbind, res_bind. intros H.
  repeat case_bool; simplify_eq; eauto.
Qed.

(** The constructor accepts exactly the candidates of the contract, returns the
    candidate unchanged, and rejects everything else with a [ValueError]. *)
Theorem make_TradeCandidate_spec c :
  (candidate_wf c -> make_TradeCandidate c = Ok c) /\
  (~ candidate_wf c -> exists t, make_TradeCandidate c = Raise (ValueError t)) /\
  (forall c', make_TradeCandidate c = Ok c' -> c' = c /\ candidate_wf c).
Proof.
  split_and!; [apply make_TradeCandidate_iff| |].
  - intros Hn. destruct (make_TradeCandidate c) as [c'|e] eqn:E.
    + assert (c' = c) as -> by (unfold make_TradeCandidate in E; by inv_asserts).
      by apply make_TradeCandidate_iff in E.
    + destruct (make_TradeCandidate_raises c e E) as [t ->]. eauto.
  - intros c' E. assert (c' = c) as -> by (unfold make_TradeCandidate in E; by inv_asserts).
    split; [done|]. by apply make_TradeCandidate_iff.
Qed.

(** Absolute prices resolved from a fill: on the right side of the fill, within
    one rounding of the candidate's distances, exactly so when representable. *)
Theorem resolve_protection_prices_geometry c fill stop take :
  candidate_wf c -> fits (dval fill) -> resolve_protection_prices c fill = Ok (stop, take) ->
  let sgn := if String.eqb (tc_side c) "LONG" then 1%Q else (-1)%Q in
  (0 < dval stop)%Q /\
  (sgn * dval stop <= sgn * dval fill)%Q /\
  rounds (dval fill - sgn * dval (tc_stop_distance c)) (dval stop) /\
  (forall t, take = Some t -> exists d, tc_take_profit_distance c = Some d /\ (0 < dval t)%Q /\
     (sgn * dval fill <= sgn * dval t)%Q /\ rounds (dval fill + sgn * dval d) (dval t)) /\
  (take = None <-> tc_take_profit_distance c = None).
Proof.
  intros [Hs _ Hst Ht _ _ _ _] Hfit H. cbv zeta. unfold resolve_protection_prices in H. inv_asserts.
  apply not_leb_zero in H0.
  assert (forall d, tc_take_profit_distance c = Some d -> dtruthy d = true) as Htr.
  { intros d Hd. apply dtruthy_spec. specialize (Ht d Hd). lra. }
  destruct (String.eqb_spec (tc_side c) "LONG") as [HL|HL]; inv_asserts; subst; simplify_eq.
  all: apply not_leb_zero in H1; split; [done|].
  - pose proof (dsub_rounds fill (tc_stop_distance c)) as Hr.
    split. { assert (dval (dsub fill (tc_stop_distance c)) <= dval fill)%Q; [|lra].
             eapply rounds_le_bound; [exact Hfit| |exact Hr]. lra. }
    split. { eapply rounds_proper; [|reflexivity|exact Hr]. ring. }
    unfold resolve_take in *. destruct (tc_take_profit_distance c) as [d|] eqn:Ed; [|naive_solver].
    rewrite (Htr d eq_refl) in *. split; [|naive_solver]. intros t [= <-]. exists d.
    pose proof (dadd_rounds fill d) as Hr2. specialize (Ht d eq_refl).
    apply not_leb_zero in H2. split; [done|]. split; [done|]. split.
    + assert (dval fill <= dval (dadd fill d))%Q; [|lra].
      eapply rounds_ge_bound; [exact Hfit| |exact Hr2]. lra.
    + eapply rounds_proper; [|reflexivity|exact Hr2]. ring.
  - pose proof (dadd_rounds fill (tc_stop_distance c)) as Hr.
    split. { assert (dval fill <= dval (dadd fill (tc_stop_distance c)))%Q; [|lra].
             eapply rounds_ge_bound; [exact Hfit| |exact Hr]. lra. }
    split. { eapply rounds_proper; [|reflexivity|exact Hr]. ring. }
    unfold resolve_take in *. destruct (tc_take_profit_distance c) as [d|] eqn:Ed; [|naive_solver].
    rewrite (Htr d eq_refl) in *. split; [|naive_solver]. intros t [= <-]. exists d.
    pose proof (dsub_rounds fill d) as Hr2. specialize (Ht d eq_refl).
    apply not_leb_zero in H2. split; [done|]. split; [done|]. split.
    + assert (dval (dsub fill d) <= dval fill)%Q; [|lra].
      eapply rounds_le_bound; [exact Hfit| |exact Hr2]. lra.
    + eapply rounds_proper; [|reflexivity|exact Hr2]. ring.
Qed.

Definition sample_candidate : TradeCandidate :=
  mkCandidate "cand-1" "cycle-1" "trend" "1.0" "TESTNET_SAMPLING" SAMPLING "BTC/USDT" "LONG" 0
    (dint 64000) (mkDec 55 (-2)) (dint 320) (Some (dint 480)) (dint 20) 75000000 true.

Lemma sample_candidate_wf : candidate_wf sample_candidate.
Proof. apply make_TradeCandidate_iff. reflexivity. Qed.

Lemma resolve_protection_prices_geometry_witness :
  exists stop take, resolve_protection_prices sample_candidate (dint 64010) = Ok (stop, take) /\
  (0 < dval stop)%Q.
Proof.
  exists (mkDec 6369000000000000000000000000 (-23)), (Some (mkDec 6449000000000000000000000000 (-23))).
  assert (resolve_protection_prices sample_candidate (dint 64010) =
          Ok (mkDec 6369000000000000000000000000 (-23), Some (mkDec 6449000000000000000000000000 (-23)))) as H
    by (vm_compute; reflexivity).
  split; [exact H|].
  refine (proj1 (resolve_protection_prices_geometry sample_candidate (dint 64010) _ _
    sample_candidate_wf _ H)).
  apply fits_small. unfold PREC. vm_compute. discriminate.
Defined.
