(* ===== verification/PortfolioRisk.v ===== *)
(** * PortfolioRisk: the portfolio and crypto-cluster initial-risk budget

    [domain/portfolio_risk.py]: the entry-only gate that answers whether new
    exposure may be opened.  The gate sums committed risk in rounded decimals,
    so its guarantee is stated on the exact sum with the accumulated rounding
    made explicit, and its monotonicity covers in-flight intents. *)
From S2P Require Import Prelude PyDecimal.
From Stdlib Require Import QArith Lqa.
Local Open Scope Z_scope.

Definition MAX_TOTAL_INITIAL_RISK_FRACTION : Dec := mkDec 125 (-4).
Definition MAX_SAME_DIRECTION_CLUSTER_RISK_FRACTION : Dec := mkDec 80 (-4).
Definition MAX_OPEN_POSITIONS : Z := 2.

Definition CRYPTO_BETA_CLUSTER : gset string :=
  {["BTC/USDT"; "ETH/USDT"; "SOL/USDT"; "XRP/USDT"; "BNB/USDT"]}.

Definition DIR_LONG : string := "long".
Definition DIR_SHORT : string := "short".

Record RiskExposure := mkExposure {
  re_symbol : string;
  re_direction : string;
  re_initial_risk_usdt : Dec;
  re_source : string }.

(** [LONG if str(direction).lower() in {LONG, "buy"} else SHORT]. *)
Definition normalize_direction (d : string) : string :=
  if bool_decide (str_lower d ∈ [DIR_LONG; "buy"%string]) then DIR_LONG else DIR_SHORT.

Definition normalized_direction (e : RiskExposure) : string := normalize_direction (re_direction e).

Inductive PortfolioReason :=
  | PORTFOLIO_EQUITY_UNAVAILABLE | PORTFOLIO_RISK_UNMEASURABLE | MAX_OPEN_EXPOSURES
  | PORTFOLIO_TOTAL_RISK_LIMIT | CRYPTO_CLUSTER_RISK_LIMIT.

#[export] Instance PortfolioReason_eq_dec : EqDecision PortfolioReason.
Proof. solve_decision. Defined.

Record PortfolioRiskDecision := mkPortfolioRiskDecision {
  pr_allowed : bool;
  pr_reason_code : option PortfolioReason;
  pr_equity : Dec;
  pr_candidate_risk_usdt : Dec;
  pr_committed_total_risk_usdt : Dec;
  pr_committed_cluster_risk_usdt : Dec;
  pr_projected_total_risk_fraction : Dec;
  pr_projected_cluster_risk_fraction : Dec;
  pr_open_position_count : Z }.

Definition blocked (d : PortfolioRiskDecision) : bool := negb (pr_allowed d).

Definition portfolio_risk_blocks (d : PortfolioRiskDecision) (diagnostic : bool) : bool :=
  match pr_reason_code d with
  | None => false
  | Some r => negb diagnostic || bool_decide (r = MAX_OPEN_EXPOSURES)
  end.

Definition _sum_risk (l : list RiskExposure) : Dec := dsum (map re_initial_risk_usdt l).

Definition in_cluster (symbol : string) : bool := bool_decide (symbol ∈ CRYPTO_BETA_CLUSTER).

Definition same_cluster_bet (direction : string) (e : RiskExposure) : bool :=
  in_cluster (re_symbol e) && String.eqb (normalized_direction e) direction.

Definition is_open_position (e : RiskExposure) : bool := String.eqb (re_source e) "position".

Definition evaluate_portfolio_risk (equity : Dec) (candidate_symbol candidate_direction : string)
    (candidate_initial_risk_usdt : Dec) (committed : list RiskExposure)
    (max_total_fraction max_cluster_fraction : Dec) (max_open_positions : Z) : PortfolioRiskDecision :=
  if (equity <=? dzero)%D then
    mkPortfolioRiskDecision false (Some PORTFOLIO_EQUITY_UNAVAILABLE) equity
      candidate_initial_risk_usdt dzero dzero dzero dzero 0
  else
  let direction := normalize_direction candidate_direction in
  let committed_total := _sum_risk committed in
  let committed_cluster := _sum_risk (bfilter (same_cluster_bet direction) committed) in
  let projected_total := (committed_total + candidate_initial_risk_usdt)%D in
  let projected_cluster :=
    (committed_cluster + (if in_cluster candidate_symbol then candidate_initial_risk_usdt else dzero))%D in
  let projected_total_fraction := dquot projected_total equity in
  let projected_cluster_fraction := dquot projected_cluster equity in
  let open_positions := Z.of_nat (length (bfilter is_open_position committed)) in
  let verdict (reason_code : option PortfolioReason) :=
    mkPortfolioRiskDecision (match reason_code with None => true | Some _ => false end) reason_code
      equity candidate_initial_risk_usdt committed_total committed_cluster
      projected_total_fraction projected_cluster_fraction open_positions in
  if (candidate_initial_risk_usdt <=? dzero)%D then verdict (Some PORTFOLIO_RISK_UNMEASURABLE)
  else if max_open_positions <=? open_positions then verdict (Some MAX_OPEN_EXPOSURES)
  else if (max_total_fraction <? projected_total_fraction)%D then verdict (Some PORTFOLIO_TOTAL_RISK_LIMIT)
  else if (max_cluster_fraction <? projected_cluster_fraction)%D then verdict (Some CRYPTO_CLUSTER_RISK_LIMIT)
  else verdict None.

(** ** Rounded sums of non-negative risks *)

Definition exact_sum (l : list RiskExposure) : Q :=
  foldr (fun e acc => dval (re_initial_risk_usdt e) + acc)%Q 0%Q l.

Definition nonneg_risks (l : list RiskExposure) : Prop :=
  Forall (fun e => 0 <= dval (re_initial_risk_usdt e))%Q l.

Lemma fold_add_shrink l a :
  nonneg_risks l -> (0 <= dval a)%Q ->
  let s := foldl dadd a (map re_initial_risk_usdt l) in
  (0 <= dval s)%Q /\ (shrink (length l) * (dval a + exact_sum l) <= dval s)%Q.
Proof.
  intros Hl. revert a. induction Hl as [|e l He Hl IH]; intros a Ha; cbv zeta; simpl.
  - split; [done|]. unfold shrink. simpl. lra.
  - destruct (IH (dadd a (re_initial_risk_usdt e))) as [H1 H2]; [by apply dadd_nonneg|].
    split; [done|]. refine (Qle_trans _ _ _ _ H2).
    assert ((1 - uround) * (dval a + dval (re_initial_risk_usdt e)) <= dval (dadd a (re_initial_risk_usdt e)))%Q
      as Hs by (apply rounds_shrink; [lra|apply dadd_rounds]).
    assert (0 <= exact_sum l)%Q as Hx.
    { clear -Hl. induction Hl; simpl; [lra|]. unfold exact_sum in *. simpl. lra. }
    pose proof (shrink_pos (length l)). pose proof uround_bounds.
    rewrite shrink_S. set (k := shrink (length l)) in *. set (a' := dval (dadd a _)) in *.
    set (x := dval (re_initial_risk_usdt e)) in *. set (X := exact_sum l) in *.
    assert (k * ((1 - uround) * (dval a + x)) <= k * a')%Q by (apply Qmult_le_l; lra).
    assert (0 <= uround * k * X)%Q by (repeat apply Qmult_le_0_compat; lra).
    lra.
Qed.

Lemma sum_risk_shrink l :
  nonneg_risks l -> (0 <= dval (_sum_risk l))%Q /\ (shrink (length l) * exact_sum l <= dval (_sum_risk l))%Q.
Proof.
  intros Hl. pose proof (dval_zero 0) as H0. fold dzero in H0.
  destruct (fold_add_shrink l dzero Hl) as [H1 H2]; [lra|]. split; [done|].
  refine (Qle_trans _ _ _ _ H2). rewrite H0. lra.
Qed.

Lemma bfilter_nonneg f l : nonneg_risks l -> nonneg_risks (bfilter f l).
Proof.
  unfold nonneg_risks. induction 1; simpl; [constructor|]. destruct (f _); [constructor|]; auto.
Qed.

(** A rounded fraction under a ceiling bounds the exact projected risk. *)
Lemma fraction_bound n (T c eq lim : Dec) (X : Q) :
  (0 < dval eq)%Q -> (0 <= X)%Q -> (0 <= dval c)%Q -> (0 <= dval T)%Q ->
  (shrink n * X <= dval T)%Q -> (dquot (T + c) eq <=? lim)%D = true ->
  (shrink (S (S n)) * (X + dval c) <= dval lim * dval eq)%Q.
Proof.
  intros He HX Hc HT Hs Hle. apply dleb_spec in Hle. pose proof uround_bounds as Hu.
  pose proof (shrink_pos n) as Hp. pose proof (shrink_le_1 n) as Hp1.
  assert ((1 - uround) * (dval T + dval c) <= dval (T + c)%D)%Q as H1
    by (apply rounds_shrink; [lra|apply dadd_rounds]).
  assert (0 <= dval (T + c)%D)%Q as HTc by (by apply dadd_nonneg).
  assert ((1 - uround) * (dval (T + c)%D / dval eq) <= dval (dquot (T + c)%D eq))%Q as H2.
  { apply rounds_shrink; [|apply dquot_rounds; lra].
    apply Qle_shift_div_l; [done|]. lra. }
  set (p := dval (T + c)%D) in *. set (e := dval eq) in *.
  assert ((1 - uround) * p <= dval lim * e)%Q as H3.
  { assert ((1 - uround) * (p / e) * e <= dval lim * e)%Q by (apply Qmult_le_compat_r; lra).
    assert ((1 - uround) * (p / e) * e == (1 - uround) * p)%Q by (field; lra). lra. }
  refine (Qle_trans _ _ _ _ H3). rewrite !shrink_S.
  assert (shrink n * (X + dval c) <= dval T + dval c)%Q as H4.
  { assert (shrink n * dval c <= 1 * dval c)%Q by (apply Qmult_le_compat_r; lra). lra. }
  assert ((1 - uround) * (shrink n * (X + dval c)) <= (1 - uround) * (dval T + dval c))%Q
    by (apply Qmult_le_l; lra).
  assert ((1 - uround) * ((1 - uround) * (shrink n * (X + dval c))) <= (1 - uround) * p)%Q
    by (apply Qmult_le_l; lra).
  lra.
Qed.

Lemma exact_sum_nonneg l : nonneg_risks l -> (0 <= exact_sum l)%Q.
Proof. induction 1; unfold exact_sum in *; simpl; lra. Qed.

Section gate.
Context (equity : Dec) (symbol direction : string) (risk : Dec).
Context (max_total max_cluster : Dec) (max_open : Z).

Let gate (committed : list RiskExposure) : PortfolioRiskDecision :=
  evaluate_portfolio_risk equity symbol direction risk committed max_total max_cluster max_open.

Definition cluster_share : Dec := if in_cluster symbol then risk else dzero.
Definition cluster_of (committed : list RiskExposure) : list RiskExposure :=
  bfilter (same_cluster_bet (normalize_direction direction)) committed.
Definition open_count (committed : list RiskExposure) : Z :=
  Z.of_nat (length (bfilter is_open_position committed)).

Lemma gate_allowed_iff committed :
  pr_allowed (gate committed) = true <->
  (0 < dval equity)%Q /\ (0 < dval risk)%Q /\ open_count committed < max_open /\
  (dquot (_sum_risk committed + risk) equity <=? max_total)%D = true /\
  (dquot (_sum_risk (cluster_of committed) + cluster_share) equity <=? max_cluster)%D = true.
Proof.
  unfold gate, evaluate_portfolio_risk. fold (cluster_of committed) cluster_share (open_count committed).
  pose proof (dval_zero 0) as H0. fold dzero in H0.
  destruct (equity <=? dzero)%D eqn:E1.
  { apply dleb_spec in E1. simpl. split; [done|]. intros [? _]. lra. }
  apply dleb_false in E1.
  destruct (risk <=? dzero)%D eqn:E2.
  { apply dleb_spec in E2. simpl. split; [done|]. intros (_ & ? & _). lra. }
  apply dleb_false in E2.
  destruct (max_open <=? open_count committed) eqn:E3; [simpl; split; [done|lia]|].
  rewrite !dleb_spec.
  destruct (max_total <? _)%D eqn:E4.
  { apply dltb_spec in E4. simpl. split; [done|]. intros (_ & _ & _ & ? & _). lra. }
  destruct (max_cluster <? _)%D eqn:E5.
  { apply dltb_spec in E5. simpl. split; [done|]. intros (_ & _ & _ & _ & ?). lra. }
  apply dltb_false in E4, E5. simpl. split; [|done]. intros _. apply Z.leb_gt in E3.
  split_and!; try done; lra.
Qed.
End gate.

(** An admitted candidate keeps the book under every ceiling: open positions
    stay within the cap, and the exact (unrounded) total and same-direction
    cluster risk, the candidate included, stay within the fraction of equity up
    to the 28-digit rounding of the sums and of the division. *)
Lemma admitted_risk_within_budget equity symbol direction risk committed max_total max_cluster max_open :
  nonneg_risks committed ->
  pr_allowed (evaluate_portfolio_risk equity symbol direction risk committed
                max_total max_cluster max_open) = true ->
  open_count committed + 1 <= max_open /\ (0 < dval risk)%Q /\
  (shrink (length committed + 2) * (exact_sum committed + dval risk) <= dval max_total * dval equity)%Q /\
  (shrink (length (cluster_of direction committed) + 2) *
     (exact_sum (cluster_of direction committed) + dval (cluster_share symbol risk)) <=
   dval max_cluster * dval equity)%Q.
Proof.
  intros Hn Ha. apply gate_allowed_iff in Ha as (He & Hr & Ho & Ht & Hc).
  destruct (sum_risk_shrink committed Hn) as [T1 T2].
  assert (nonneg_risks (cluster_of direction committed)) as Hn' by (by apply bfilter_nonneg).
  destruct (sum_risk_shrink _ Hn') as [C1 C2].
  rewrite !Nat.add_succ_r, !Nat.add_0_r. split; [lia|]. split; [done|]. split.
  - apply (fraction_bound _ (_sum_risk committed)); try done; [by apply exact_sum_nonneg|lra].
  - apply (fraction_bound _ (_sum_risk (cluster_of direction committed))); try done;
      [by apply exact_sum_nonneg|].
    unfold cluster_share. destruct (in_cluster symbol); [lra|discriminate].
Qed.

(** ** Monotonicity *)

Lemma foldl_dadd_fits l a : fits (dval a) -> fits (dval (foldl dadd a l)).
Proof. revert a; induction l; simpl; auto with dec. Qed.

Lemma foldl_dadd_sublist (l l' : list RiskExposure) :
  sublist l l' -> forall a a' : Dec, nonneg_risks l' -> fits (dval a') -> (dval a <= dval a')%Q ->
  (dval (foldl dadd a (map re_initial_risk_usdt l)) <=
   dval (foldl dadd a' (map re_initial_risk_usdt l')))%Q.
Proof.
  induction 1 as [|e l l' _ IH|e l l' _ IH]; intros a a' Hn Hf Ha; simpl; [done| |].
  - inversion Hn; subst. apply IH; [done|auto with dec|]. apply dadd_mono; [done|lra].
  - inversion Hn; subst. apply IH; [done|auto with dec|].
    refine (Qle_trans _ _ _ Ha _). by apply dadd_ge_l.
Qed.

Lemma sum_risk_sublist l l' :
  nonneg_risks l' -> sublist l l' -> (dval (_sum_risk l) <= dval (_sum_risk l'))%Q.
Proof.
  intros Hn Hs. apply foldl_dadd_sublist; auto; [|lra].
  rewrite (dval_zero 0). apply fits_zero.
Qed.

(** Commitments only tighten the gate: if the candidate is admitted against a
    book, it is admitted against every part of that book, so leaving out an
    in-flight intent (or any exposure) can only make the gate more permissive,
    and adding one never turns a refusal into an admission. *)
Theorem more_commitments_never_admit equity symbol direction risk l l' max_total max_cluster max_open :
  nonneg_risks l' -> sublist l l' ->
  pr_allowed (evaluate_portfolio_risk equity symbol direction risk l' max_total max_cluster max_open) = true ->
  pr_allowed (evaluate_portfolio_risk equity symbol direction risk l max_total max_cluster max_open) = true.
Proof.
  intros Hn Hs. rewrite !gate_allowed_iff, !dleb_spec. intros (He & Hr & Ho & Ht & Hc).
  assert (sublist (cluster_of direction l) (cluster_of direction l')) as Hsc by (by apply bfilter_sublist).
  assert (nonneg_risks (cluster_of direction l')) as Hn' by (by apply bfilter_nonneg).
  assert (sublist (bfilter is_open_position l) (bfilter is_open_position l')) as Hso
    by (by apply bfilter_sublist).
  apply sublist_length in Hso.
  split_and!; try done; [unfold open_count in *; lia| |].
  - refine (Qle_trans _ _ _ _ Ht). apply dquot_mono; [done|].
    apply dadd_mono; [by apply sum_risk_sublist|lra].
  - refine (Qle_trans _ _ _ _ Hc). apply dquot_mono; [done|].
    apply dadd_mono; [by apply sum_risk_sublist|lra].
Qed.

Definition sample_book : list RiskExposure :=
  [mkExposure "ETH/USDT" "BUY" (mkDec 2525 (-2)) "position";
   mkExposure "SOL/USDT" "short" (dint 20) "intent"].

Lemma sample_book_nonneg : nonneg_risks sample_book.
Proof. repeat constructor; discriminate. Qed.

Lemma admitted_risk_within_budget_witness :
  pr_allowed (evaluate_portfolio_risk (dint 10000) "BTC/USDT" "long" (dint 30) sample_book
    MAX_TOTAL_INITIAL_RISK_FRACTION MAX_SAME_DIRECTION_CLUSTER_RISK_FRACTION MAX_OPEN_POSITIONS) = true /\
  open_count sample_book + 1 <= 2.
Proof.
  split; [vm_compute; reflexivity|].
  exact (proj1 (admitted_risk_within_budget (dint 10000) "BTC/USDT" "long" (dint 30) sample_book
    MAX_TOTAL_INITIAL_RISK_FRACTION MAX_SAME_DIRECTION_CLUSTER_RISK_FRACTION MAX_OPEN_POSITIONS
    sample_book_nonneg ltac:(vm_compute; reflexivity))).
Defined.

Lemma more_commitments_never_admit_witness :
  pr_allowed (evaluate_portfolio_risk (dint 10000) "BTC/USDT" "long" (dint 30) (tail sample_book)
    MAX_TOTAL_INITIAL_RISK_FRACTION MAX_SAME_DIRECTION_CLUSTER_RISK_FRACTION MAX_OPEN_POSITIONS) = true.
Proof.
  apply (more_commitments_never_admit (dint 10000) "BTC/USDT" "long" (dint 30) (tail sample_book) sample_book).
  - apply sample_book_nonneg.
  - apply sublist_cons, sublist_skip, sublist_nil.
  - vm_compute; reflexivity.
Defined.
