(* ===== verification/RiskControls.v ===== *)
(** * RiskControls: cost gate and profit protection of the sampling lane

    [application/risk_controls.py]: funding direction, the post-cost payoff
    gate (R2), and the P1/P2/P3 profit-protection stops (R3).  The theorems
    show that the gate is monotone in every cost, and that a profit-protection
    stop always lies between the entry and the mark. *)
From S2P Require Import Prelude PyDecimal.
From Stdlib Require Import QArith Qabs Lqa.
Local Open Scope Z_scope.

Definition R2_MIN_THEORETICAL_NET_PAYOFF : Dec := mkDec 115 (-2).
Definition DEFAULT_TAKER_FEE_BPS : Dec := dint 5.
Definition DEFAULT_ROUND_TRIP_SLIPPAGE_BPS : Dec := dint 6.

Definition resolve_effective_funding_bps (raw_funding_bps : Dec) (side : string) : res Dec :=
  assert_or (String.eqb side "LONG" || String.eqb side "SHORT") (ValueError "side must be LONG or SHORT") ≫= fun _ =>
  Ok (if String.eqb side "LONG" then raw_funding_bps else dneg raw_funding_bps).

Record CostGateResult := mkCostGateResult {
  cg_cost_r : Dec;
  cg_theoretical_net_payoff : Dec;
  cg_planned_target_r : Dec;
  cg_commission_r : Dec;
  cg_funding_r : Dec;
  cg_slippage_r : Dec;
  cg_passed : bool }.

(** [(bps / Decimal("10000")) * entry_price / stop_distance]. *)
Definition bps_in_r (bps entry_price stop_distance : Dec) : Dec :=
  dquot (dmul (dquot bps (dint 10000)) entry_price) stop_distance.

Definition effective_funding (effective_funding_bps funding_bps : option Dec) : Dec :=
  match effective_funding_bps with
  | Some f => f
  | None => match funding_bps with Some f => if dtruthy f then f else dzero | None => dzero end
  end.

Definition calculate_cost_gate (entry_price stop_distance : Dec) (take_profit_distance : option Dec)
    (commission_bps : Dec) (effective_funding_bps funding_bps : option Dec)
    (slippage_bps minimum_net_payoff : Dec) : res CostGateResult :=
  assert_or (negb ((entry_price <=? dzero)%D || (stop_distance <=? dzero)%D))
    (ValueError "entry_price and stop_distance must be positive") ≫= fun _ =>
  assert_or (match effective_funding_bps, funding_bps with Some _, Some _ => false | _, _ => true end)
    (ValueError "provide only effective_funding_bps or funding_bps") ≫= fun _ =>
  let planned_target_r := match take_profit_distance with
                          | Some d => dquot d stop_distance
                          | None => dzero
                          end in
  let commission_r := bps_in_r commission_bps entry_price stop_distance in
  let funding_r := bps_in_r (effective_funding effective_funding_bps funding_bps) entry_price stop_distance in
  let slippage_r := bps_in_r slippage_bps entry_price stop_distance in
  let cost_r := (commission_r + funding_r + slippage_r)%D in
  ddiv (planned_target_r - cost_r) (dint 1 + cost_r) ≫= fun theoretical_net_payoff =>
  Ok (mkCostGateResult cost_r theoretical_net_payoff planned_target_r commission_r funding_r slippage_r
        (minimum_net_payoff <=? theoretical_net_payoff)%D).

(** ** Profit protection *)

Record ProfitProtectionDecision := mkPPD {
  pp_policy : string;
  pp_trigger_r : option Dec;
  pp_lock_r : option Dec;
  pp_stop_price : option Dec }.

Definition no_protection (policy : string) : ProfitProtectionDecision := mkPPD policy None None None.

Definition mfe_of (direction : string) (entry_price mark_price risk : Dec) : Dec :=
  if String.eqb direction "long"
  then dquot (mark_price - entry_price) risk else dquot (entry_price - mark_price) risk.

Definition locked_stop (direction : string) (entry_price lock risk : Dec) : Dec :=
  if String.eqb direction "long"
  then (entry_price + lock * risk)%D else (entry_price - lock * risk)%D.

Definition p1_profit_protection (direction : string) (entry_price original_stop_price mark_price : Dec) :
    res ProfitProtectionDecision :=
  assert_or (String.eqb direction "long" || String.eqb direction "short")
    (ValueError "direction must be long or short") ≫= fun _ =>
  let risk := dabs (entry_price - original_stop_price) in
  if (risk <=? dzero)%D then Ok (no_protection "P1") else
  let mfe_r := mfe_of direction entry_price mark_price risk in
  let chosen :=
    if (mkDec 100 (-2) <=? mfe_r)%D then Some (mkDec 100 (-2), mkDec 40 (-2))
    else if (mkDec 60 (-2) <=? mfe_r)%D then Some (mkDec 60 (-2), mkDec 5 (-2))
    else None in
  match chosen with
  | None => Ok (no_protection "P1")
  | Some (trigger_r, lock_r) =>
      Ok (mkPPD "P1" (Some trigger_r) (Some lock_r) (Some (locked_stop direction entry_price lock_r risk)))
  end.

Definition shadow_profit_protection (policy direction : string)
    (entry_price original_stop_price mark_price : Dec) : res ProfitProtectionDecision :=
  let risk := dabs (entry_price - original_stop_price) in
  if (risk <=? dzero)%D then Ok (no_protection policy) else
  let mfe_r := mfe_of direction entry_price mark_price risk in
  let locked trigger lock :=
    Ok (mkPPD policy (Some trigger) (Some lock) (Some (locked_stop direction entry_price lock risk))) in
  if String.eqb policy "P2" then
    if (mkDec 125 (-2) <=? mfe_r)%D then locked (mkDec 125 (-2)) (mkDec 50 (-2))
    else if (mkDec 75 (-2) <=? mfe_r)%D then locked (mkDec 75 (-2)) (mkDec 5 (-2))
    else Ok (no_protection policy)
  else if String.eqb policy "P3" then
    if (mfe_r <? mkDec 100 (-2))%D then Ok (no_protection policy)
    else locked (mkDec 100 (-2)) (mkDec 10 (-2))
  else Raise (ValueError "unsupported shadow policy").

(** ** The cost gate is monotone *)

Lemma dmul_mono_l x x' y :
  (0 <= dval y)%Q -> (dval x <= dval x')%Q -> (dval (x * y)%D <= dval (x' * y)%D)%Q.
Proof.
  intros Hy Hx. eapply rounds_mono; [|apply dmul_rounds|apply dmul_rounds].
  by apply Qmult_le_compat_r.
Qed.

Lemma dsub_mono x x' y y' :
  (dval x <= dval x')%Q -> (dval y' <= dval y)%Q -> (dval (x - y)%D <= dval (x' - y')%D)%Q.
Proof. intros. eapply rounds_mono; [|apply dsub_rounds|apply dsub_rounds]. lra. Qed.

Lemma bps_in_r_mono bps bps' e s :
  (0 < dval e)%Q -> (0 < dval s)%Q -> (dval bps <= dval bps')%Q ->
  (dval (bps_in_r bps e s) <= dval (bps_in_r bps' e s))%Q.
Proof.
  intros He Hs Hb. unfold bps_in_r. apply dquot_mono; [done|]. apply dmul_mono_l; [lra|].
  by apply dquot_mono.
Qed.

(** The quotient test of the gate, for a positive floor. *)
Lemma payoff_mono t t' c c' m :
  (dval t' <= dval t)%Q -> (dval c <= dval c')%Q -> (0 < dval m)%Q -> (0 < dval (dint 1 + c)%D)%Q ->
  (dval m <= dval (dquot (t' - c') (dint 1 + c')))%Q ->
  (dval m <= dval (dquot (t - c) (dint 1 + c)))%Q.
Proof.
  intros Ht Hc Hm Hd Hp.
  assert (dval (dint 1 + c)%D <= dval (dint 1 + c')%D)%Q as Hdd by (apply dadd_mono; lra).
  assert (dval (t' - c')%D <= dval (t - c)%D)%Q as Hnn by (by apply dsub_mono).
  refine (Qle_trans _ _ _ Hp _).
  assert (0 < dval (dint 1 + c')%D)%Q as Hd' by lra.
  pose proof (dquot_rounds (t' - c')%D (dint 1 + c')%D ltac:(lra)) as R'.
  eapply rounds_mono; [|exact R'|apply dquot_rounds; lra].
  set (n := dval (t - c)%D) in *. set (n' := dval (t' - c')%D) in *.
  set (d := dval (dint 1 + c)%D) in *. set (d' := dval (dint 1 + c')%D) in *.
  assert (0 < n')%Q as Hn'.
  { destruct (Qlt_le_dec 0 n') as [|Hle]; [done|]. exfalso.
    assert (n' / d' <= 0)%Q by (apply Qle_shift_div_r; lra).
    pose proof (rounds_mono _ _ _ _ H R' (fits_rounds _ fits_zero)). lra. }
  apply Qle_shift_div_l; [done|].
  assert (n' / d' * d == n' * (d / d'))%Q as -> by (field; lra).
  assert (d / d' <= 1)%Q by (apply Qle_shift_div_r; lra).
  assert (n' * (d / d') <= n' * 1)%Q by (apply Qmult_le_l; lra). lra.
Qed.

(** Raising a cost or lowering the target never turns a refused trade into an
    admitted one: for a positive payoff floor, if the gate passes at the worse
    inputs then it passes at the better ones. *)
Theorem cost_gate_monotone e s tp tp' k k' f f' sl sl' m r' :
  (dval tp' <= dval tp)%Q -> (dval k <= dval k')%Q -> (dval f <= dval f')%Q -> (dval sl <= dval sl')%Q ->
  (0 < dval m)%Q -> (0 < dval (dint 1 + (bps_in_r k e s + bps_in_r f e s + bps_in_r sl e s))%D)%Q ->
  calculate_cost_gate e s (Some tp') k' (Some f') None sl' m = Ok r' -> cg_passed r' = true ->
  exists r, calculate_cost_gate e s (Some tp) k (Some f) None sl m = Ok r /\ cg_passed r = true.
Proof.
  intros Htp Hk Hf Hsl Hm Hpos H Hp. unfold calculate_cost_gate in *. inv_asserts.
  rewrite H0. apply negb_true_iff, orb_false_iff in H0 as [He Hs].
  apply dleb_false in He, Hs. rewrite (dval_zero 0) in He, Hs.
  apply res_bind_ok in H as (q' & Hq' & H). injection H as <-.
  apply ddiv_ok in Hq' as [_ ->]. cbn [effective_funding cg_passed] in *.
  rewrite dleb_spec in Hp.
  eexists. split.
  - apply assert_bind_ok. split; [done|]. apply assert_bind_ok. split; [done|].
    apply res_bind_ok. eexists. split; [apply ddiv_ok; split; [lra|reflexivity]|reflexivity].
  - cbn [cg_passed]. rewrite dleb_spec. cbn [effective_funding].
    eapply payoff_mono; [by apply dquot_mono| |done|done|exact Hp].
    repeat apply dadd_mono; by apply bps_in_r_mono.
Qed.

Lemma cost_gate_monotone_witness :
  exists r, calculate_cost_gate (dint 64000) (dint 320) (Some (dint 1280)) (dint 10) (Some (dint (-1))) None
              (dint 6) R2_MIN_THEORETICAL_NET_PAYOFF = Ok r /\ cg_passed r = true.
Proof.
  assert (exists r', calculate_cost_gate (dint 64000) (dint 320) (Some (dint 1280)) (dint 10)
    (Some (dint 1)) None (dint 6) R2_MIN_THEORETICAL_NET_PAYOFF = Ok r' /\ cg_passed r' = true)
    as (r' & H & Hp) by (exists_ok; reflexivity).
  refine (cost_gate_monotone _ _ _ _ _ _ _ _ _ _ _ r' _ _ _ _ _ _ H Hp);
    try reflexivity; vm_compute; discriminate.
Defined.

(** ** Profit-protection stops *)

Lemma uround_lt : (0 < uround /\ uround < 1 # 10)%Q.
Proof. split; reflexivity. Qed.

(** A lock of at most two fifths of the reached trigger stays between the entry
    and the mark, whatever the roundings. *)
Lemma lock_below_progress (R X d q lR trig lock : Q) :
  (0 < R -> 0 < trig -> 0 <= lock -> lock <= (2 # 5) * trig ->
   rounds X d -> rounds (d / R) q -> trig <= q -> rounds (lock * R) lR ->
   0 <= lR /\ lR <= X)%Q.
Proof.
  intros HR Ht Hl Hlt Hd Hq Htq HlR. pose proof (rounds_err _ _ Hq) as Eq.
  pose proof (rounds_err _ _ Hd) as Ed. pose proof (rounds_err _ _ HlR) as El.
  assert (0 < d)%Q as Hdpos.
  { destruct (Qlt_le_dec 0 d) as [|Hle]; [done|]. exfalso.
    assert (d / R <= 0)%Q by (apply Qle_shift_div_r; lra).
    pose proof (rounds_mono _ _ _ _ H Hq (fits_rounds _ fits_zero)). lra. }
  assert (0 < X)%Q as HX.
  { destruct (Qlt_le_dec 0 X) as [|Hle]; [done|]. exfalso.
    pose proof (rounds_mono _ _ _ _ Hle Hd (fits_rounds _ fits_zero)). lra. }
  assert (0 <= lock * R)%Q as HlR0 by (apply Qmult_le_0_compat; lra).
  assert (0 < d / R)%Q by (by apply Qdiv_pos).
  rewrite (Qabs_pos (d / R)) in Eq by lra. rewrite (Qabs_pos X) in Ed by lra.
  rewrite (Qabs_pos (lock * R)) in El by lra.
  apply Qabs_le_iff in Eq as [_ Eq]. apply Qabs_le_iff in Ed as [_ Ed]. apply Qabs_le_iff in El as [El0 El].
  pose proof uround_lt as Hu.
  assert (trig <= (1 + uround) * (d / R))%Q as H1 by lra.
  assert (trig * R <= (1 + uround) * d)%Q as H2.
  { assert (trig * R <= (1 + uround) * (d / R) * R)%Q by (apply Qmult_le_compat_r; lra).
    assert ((1 + uround) * (d / R) * R == (1 + uround) * d)%Q by (field; lra). lra. }
  assert (lock * R <= (2 # 5) * trig * R)%Q as H3 by (apply Qmult_le_compat_r; lra).
  assert (d <= (1 + uround) * X)%Q as H4 by lra.
  split.
  - assert (0 <= (1 - uround) * (lock * R))%Q by (apply Qmult_le_0_compat; lra). lra.
  - assert (lR <= (1 + uround) * (lock * R))%Q as H5 by lra.
    assert (d <= (11 # 10) * X)%Q by (assert (uround * X <= (1 # 10) * X)%Q by (apply Qmult_le_compat_r; lra); lra).
    assert (trig * R <= (11 # 10) * d)%Q
      by (assert (uround * d <= (1 # 10) * d)%Q by (apply Qmult_le_compat_r; lra); lra).
    assert (uround * (lock * R) <= (1 # 10) * (lock * R))%Q by (apply Qmult_le_compat_r; lra).
    lra.
Qed.

Lemma locked_stop_between direction entry orig mark trig lock :
  let risk := dabs (entry - orig) in
  fits (dval entry) -> fits (dval mark) -> (risk <=? dzero)%D = false ->
  (0 < dval trig)%Q -> (0 <= dval lock)%Q -> (dval lock <= (2 # 5) * dval trig)%Q ->
  (trig <=? mfe_of direction entry mark risk)%D = true ->
  let stop := locked_stop direction entry lock risk in
  if String.eqb direction "long"
  then (dval entry <= dval stop /\ dval stop <= dval mark)%Q
  else (dval mark <= dval stop /\ dval stop <= dval entry)%Q.
Proof.
  intros risk He Hm Hr Ht Hl Hlt Hmfe stop. apply dleb_false in Hr. apply dleb_spec in Hmfe.
  rewrite (dval_zero 0) in Hr. unfold mfe_of in Hmfe. subst stop. unfold locked_stop.
  pose proof (dmul_rounds lock risk) as RL.
  destruct (String.eqb direction "long").
  - pose proof (dsub_rounds mark entry) as RD.
    pose proof (dquot_rounds (mark - entry) risk ltac:(lra)) as RQ.
    destruct (lock_below_progress _ _ _ _ _ _ _ Hr Ht Hl Hlt RD RQ Hmfe RL) as [A B].
    pose proof (dadd_rounds entry (lock * risk)) as RS.
    split; [eapply rounds_ge_bound; eauto|eapply rounds_le_bound; eauto]; lra.
  - pose proof (dsub_rounds entry mark) as RD.
    pose proof (dquot_rounds (entry - mark) risk ltac:(lra)) as RQ.
    destruct (lock_below_progress _ _ _ _ _ _ _ Hr Ht Hl Hlt RD RQ Hmfe RL) as [A B].
    pose proof (dsub_rounds entry (lock * risk)) as RS.
    split; [eapply rounds_ge_bound; eauto|eapply rounds_le_bound; eauto]; lra.
Qed.

(** What P1 and the shadow policies P2/P3 can return. *)
Lemma p1_stop_shape direction entry orig mark r stop :
  p1_profit_protection direction entry orig mark = Ok r -> pp_stop_price r = Some stop ->
  exists trig lock, (dabs (entry - orig) <=? dzero)%D = false /\
    (trig <=? mfe_of direction entry mark (dabs (entry - orig)))%D = true /\
    stop = locked_stop direction entry lock (dabs (entry - orig)) /\
    (0 < dval trig /\ 0 <= dval lock /\ dval lock <= (2 # 5) * dval trig)%Q.
Proof.
  unfold p1_profit_protection, no_protection. intros H Hs. inv_asserts.
  repeat case_bool; injection H as <-; simpl in Hs; simplify_eq;
    eexists _, _; (split; [reflexivity|]); (split; [eassumption|]); (split; [reflexivity|]);
    repeat split; vm_compute; discriminate.
Qed.

Lemma shadow_stop_shape policy direction entry orig mark r stop :
  shadow_profit_protection policy direction entry orig mark = Ok r -> pp_stop_price r = Some stop ->
  exists trig lock, (dabs (entry - orig) <=? dzero)%D = false /\
    (trig <=? mfe_of direction entry mark (dabs (entry - orig)))%D = true /\
    stop = locked_stop direction entry lock (dabs (entry - orig)) /\
    (0 < dval trig /\ 0 <= dval lock /\ dval lock <= (2 # 5) * dval trig)%Q.
Proof.
  unfold shadow_profit_protection, no_protection. intros H Hs. cbv zeta in H.
  repeat case_bool; try discriminate; injection H as <-; simpl in Hs; simplify_eq;
    eexists _, _; (split; [reflexivity|]);
    (split; [first [eassumption | apply dleb_spec, dltb_false; eassumption]|]); (split; [reflexivity|]);
    repeat split; vm_compute; discriminate.
Qed.

(** Every profit-protection stop, live (P1) or shadow (P2/P3), lies between the
    entry and the mark on the profitable side: it locks in a non-negative
    result, and it is not already triggered at the mark that produced it.  In
    particular it never loosens an original stop on the loss side. *)
Theorem profit_stop_between_entry_and_mark policy direction entry orig mark r stop :
  fits (dval entry) -> fits (dval mark) ->
  p1_profit_protection direction entry orig mark = Ok r \/
  shadow_profit_protection policy direction entry orig mark = Ok r ->
  pp_stop_price r = Some stop ->
  if String.eqb direction "long"
  then (dval entry <= dval stop /\ dval stop <= dval mark /\
        (dval orig <= dval entry -> dval orig <= dval stop))%Q
  else (dval mark <= dval stop /\ dval stop <= dval entry /\
        (dval entry <= dval orig -> dval stop <= dval orig))%Q.
Proof.
  intros He Hm Hp Hs.
  assert (exists trig lock, (dabs (entry - orig) <=? dzero)%D = false /\
    (trig <=? mfe_of direction entry mark (dabs (entry - orig)))%D = true /\
    stop = locked_stop direction entry lock (dabs (entry - orig)) /\
    (0 < dval trig /\ 0 <= dval lock /\ dval lock <= (2 # 5) * dval trig)%Q)
    as (trig & lock & Hr & Hmfe & -> & Ht & Hl & Hlt).
  { destruct Hp; [eapply p1_stop_shape|eapply shadow_stop_shape]; eauto. }
  pose proof (locked_stop_between direction entry orig mark trig lock He Hm Hr Ht Hl Hlt Hmfe) as G.
  cbv zeta in G. destruct (String.eqb direction "long"); destruct G; repeat split; lra.
Qed.

Lemma profit_stop_between_entry_and_mark_witness :
  exists r, p1_profit_protection "long" (dint 100) (dint 90) (dint 107) = Ok r /\
  exists stop, pp_stop_price r = Some stop /\ (dval (dint 100) <= dval stop)%Q.
Proof.
  assert (exists r, p1_profit_protection "long" (dint 100) (dint 90) (dint 107) = Ok r /\
    exists stop, pp_stop_price r = Some stop) as (r & H & stop & Hs) by (exists_ok; eauto).
  exists r. split; [exact H|]. exists stop. split; [exact Hs|].
  refine (proj1 (profit_stop_between_entry_and_mark "P2" "long" (dint 100) (dint 90) (dint 107) r stop
    _ _ (or_introl H) Hs)); apply fits_small; vm_compute; discriminate.
Defined.

(** A stop already on the profit side is not compared with the proposal: for a
    long entered at 100 with its stop already at 110 and the mark at 110, P1
    proposes a stop at 104, below the current one. *)
Theorem p1_can_loosen_profit_side_stop :
  match p1_profit_protection "long" (dint 100) (dint 110) (dint 110) with
  | Ok r => match pp_stop_price r with
            | Some stop => (dval stop == 104)%Q /\ (dval stop < dval (dint 110))%Q
            | None => False
            end
  | Raise _ => False
  end.
Proof. vm_compute. split; reflexivity. Qed.
