(* ===== verification/Sampling.v ===== *)
(** * Sampling: the stateful throttle of the sampling lane

    [application/sampling_service.py]: the daily counters, the per-symbol
    cooldown and the account-wide cap.  The invariant relates the mutable state
    to the log of the entries recorded so far; the property is about every
    interleaving of checks and recorded entries in time order. *)
From S2P Require Import Prelude Receipts.
Local Open Scope Z_scope.

(** [datetime.date()] of a UTC timestamp in microseconds. *)
Definition MICROS_PER_SECOND : Z := 1000000.
Definition MICROS_PER_DAY : Z := 86400 * MICROS_PER_SECOND.
Definition utc_date (t : datetime) : Z := t / MICROS_PER_DAY.

Record SamplingState := mkSamplingState {
  daily_symbol_counts : gmap string Z;
  last_entry_at : gmap string (option datetime);
  last_reset_date : option datetime;
  daily_total_count : Z }.

Definition empty_sampling_state : SamplingState := mkSamplingState ∅ ∅ None 0.

Definition symbol_count (s : SamplingState) (symbol : string) : Z :=
  default 0 (daily_symbol_counts s !! symbol).

Definition _maybe_reset (s : SamplingState) (now : datetime) : SamplingState :=
  let today := utc_date now in
  if match last_reset_date s with
     | None => true
     | Some r => negb (utc_date r =? today)
     end
  then mkSamplingState ∅ (last_entry_at s) (Some now) 0
  else s.

Definition record_entry (s : SamplingState) (symbol : string) (at_ : datetime) : SamplingState :=
  let s := _maybe_reset s at_ in
  mkSamplingState (<[symbol := symbol_count s symbol + 1]> (daily_symbol_counts s))
    (<[symbol := Some at_]> (last_entry_at s)) (last_reset_date s) (daily_total_count s + 1).

Inductive ThrottleReason := ALLOWED | SYMBOL_CAP | TOTAL_CAP | COOLDOWN.

#[export] Instance ThrottleReason_eq_dec : EqDecision ThrottleReason.
Proof. solve_decision. Defined.

(** The check may reset the day's counters: it returns the state too. *)
Definition check_sampling_throttle (symbol : string) (now : datetime) (s : SamplingState)
    (max_daily_trades_per_symbol max_daily_trades_total cooldown_seconds : Z) :
    ThrottleReason * SamplingState :=
  let s := _maybe_reset s now in
  if max_daily_trades_per_symbol <=? symbol_count s symbol then (SYMBOL_CAP, s)
  else if max_daily_trades_total <=? daily_total_count s then (TOTAL_CAP, s)
  else match last_entry_at s !! symbol with
       | Some (Some last_at) =>
           if now - last_at <? cooldown_seconds * MICROS_PER_SECOND then (COOLDOWN, s) else (ALLOWED, s)
       | _ => (ALLOWED, s)
       end.

(** ** Histories of the lane *)

Section lane.
Context (max_symbol max_total cooldown : Z).

(** One evaluation: the check at [at_check], and the entry recorded at
    [at_record] when the check allowed it and the entry was placed. *)
Record attempt := mkAttempt {
  at_symbol : string; at_check : datetime; at_record : datetime; at_placed : bool }.

(** A log entry: symbol and time; the newest first. *)
Definition log_entry : Type := string * datetime.

Definition lane_step (st : SamplingState * list log_entry) (a : attempt) :
    SamplingState * list log_entry :=
  let '(s, log) := st in
  let '(r, s) := check_sampling_throttle (at_symbol a) (at_check a) s max_symbol max_total cooldown in
  if bool_decide (r = ALLOWED) && at_placed a
  then (record_entry s (at_symbol a) (at_record a), (at_symbol a, at_record a) :: log)
  else (s, log).

Definition lane_run (l : list attempt) : SamplingState * list log_entry :=
  foldl lane_step (empty_sampling_state, []) l.

(** The attempts happen one after the other. *)
Fixpoint ordered (from : datetime) (l : list attempt) : Prop :=
  match l with
  | [] => True
  | a :: l => from <= at_check a /\ at_check a <= at_record a /\ ordered (at_record a) l
  end.

Definition on_day (d : Z) (e : log_entry) : bool := utc_date e.2 =? d.
Definition on_day_for (s : string) (d : Z) (e : log_entry) : bool :=
  String.eqb e.1 s && on_day d e.

(** Entries of one symbol are at least the cooldown apart. *)
Fixpoint spaced (log : list log_entry) : Prop :=
  match log with
  | [] => True
  | (s, t) :: log =>
      (forall t', (s, t') ∈ log -> cooldown * MICROS_PER_SECOND <= t - t') /\ spaced log
  end.

Fixpoint latest (s : string) (log : list log_entry) : option datetime :=
  match log with
  | [] => None
  | (s', t) :: log => if String.eqb s' s then Some t else latest s log
  end.

Record lane_inv (now : datetime) (st : SamplingState * list log_entry) : Prop := {
  li_times : forall e, e ∈ st.2 -> e.2 <= now;
  li_desc : forall s t t', latest s st.2 = Some t -> (s, t') ∈ st.2 -> t' <= t;
  li_fresh : last_reset_date st.1 = None -> st.2 = [];
  li_day : forall r, last_reset_date st.1 = Some r ->
    r <= now /\ (forall e, e ∈ st.2 -> utc_date e.2 <= utc_date r) /\
    daily_total_count st.1 = zcount (on_day (utc_date r)) st.2 /\
    forall s, symbol_count st.1 s = zcount (on_day_for s (utc_date r)) st.2;
  li_last : forall s, last_entry_at st.1 !! s = Some <$> latest s st.2;
  li_total : forall d, zcount (on_day d) st.2 <= max_total;
  li_symbol : forall s d, zcount (on_day_for s d) st.2 <= max_symbol;
  li_spaced : spaced st.2 }.

Lemma utc_date_mono t t' : t <= t' -> utc_date t <= utc_date t'.
Proof. intros. apply Z.div_le_mono; [done|lia]. Qed.

Lemma zcount_on_day_nil d log :
  (forall e, e ∈ log -> utc_date e.2 < d) ->
  zcount (on_day d) log = 0 /\ forall s, zcount (on_day_for s d) log = 0.
Proof.
  intros H. split; [|intros s]; apply zcount_nil; intros e He; specialize (H e He);
    unfold on_day_for, on_day; rewrite ?andb_false_iff; [|right]; apply Z.eqb_neq; lia.
Qed.

Lemma _maybe_reset_day s now : exists r, last_reset_date (_maybe_reset s now) = Some r /\
  utc_date r = utc_date now /\ (last_reset_date s = Some r \/ r = now).
Proof.
  unfold _maybe_reset. destruct (last_reset_date s) as [r|] eqn:E; simpl; [|eauto].
  destruct (utc_date r =? utc_date now) eqn:Ed; simpl; [|eauto].
  exists r. apply Z.eqb_eq in Ed. auto.
Qed.

Lemma lane_inv_reset now now' s log :
  lane_inv now (s, log) -> now <= now' -> lane_inv now' (_maybe_reset s now', log).
Proof.
  intros [Ht Hd Hf Hday Hl Htot Hsym Hsp] Hle. simpl in *.
  destruct (_maybe_reset_day s now') as (r & Hr & Hrd & Hcase).
  constructor; simpl; try done.
  - intros e He. specialize (Ht e He). lia.
  - rewrite Hr. discriminate.
  - intros r' Hr'. rewrite Hr in Hr'. injection Hr' as <-.
    unfold _maybe_reset in *. destruct (last_reset_date s) as [r0|] eqn:E.
    + destruct (Hday r0 eq_refl) as (A & B & C & D).
      destruct (utc_date r0 =? utc_date now') eqn:Ed; simpl in *.
      * assert (r = r0) as -> by congruence. split_and!; auto. lia.
      * injection Hr as <-. apply Z.eqb_neq in Ed.
        assert (utc_date r0 <= utc_date now') by (apply utc_date_mono; lia).
        destruct (zcount_on_day_nil (utc_date now') log) as [Z1 Z2].
        { intros e He. specialize (B e He). lia. }
        rewrite Z1. split_and!; try done. intros e He. specialize (B e He). lia.
    + simpl in *. injection Hr as <-. rewrite (Hf eq_refl) in *. split_and!; try done.
      intros e He. by apply elem_of_nil in He.
  - unfold _maybe_reset. destruct (match last_reset_date s with Some _ => _ | None => _ end); simpl; auto.
Qed.

Lemma zcount_snoc_day d log s t :
  zcount (on_day d) ((s, t) :: log) = (if utc_date t =? d then 1 else 0) + zcount (on_day d) log.
Proof. rewrite zcount_cons. reflexivity. Qed.

Lemma zcount_snoc_day_for s0 d log s t :
  zcount (on_day_for s0 d) ((s, t) :: log) =
  (if String.eqb s s0 && (utc_date t =? d) then 1 else 0) + zcount (on_day_for s0 d) log.
Proof. rewrite zcount_cons. reflexivity. Qed.

Lemma latest_in s log t : latest s log = Some t -> (s, t) ∈ log.
Proof.
  induction log as [|[s' t'] log IH]; simpl; [done|].
  destruct (String.eqb_spec s' s) as [->|]; [intros [= ->]; left|right; auto].
Qed.

Lemma latest_none s log : latest s log = None -> forall t, (s, t) ∉ log.
Proof.
  induction log as [|[s' t'] log IH]; simpl; intros H t Hin; [by apply elem_of_nil in Hin|].
  destruct (String.eqb_spec s' s) as [->|]; [done|].
  apply elem_of_cons in Hin as [[= -> ->]|Hin]; [done|]. by eapply IH.
Qed.

(** Recording an entry that the check allowed keeps the invariant. *)
Lemma lane_inv_record now at_ s log symbol :
  0 < max_symbol -> 0 < max_total ->
  lane_inv now (s, log) -> now <= at_ ->
  (forall r, last_reset_date s = Some r -> utc_date r = utc_date at_ ->
     symbol_count s symbol < max_symbol /\ daily_total_count s < max_total) ->
  (forall t, latest symbol log = Some t -> cooldown * MICROS_PER_SECOND <= at_ - t) ->
  lane_inv at_ (record_entry s symbol at_, (symbol, at_) :: log).
Proof.
  intros Hms Hmt Hinv Hle Hcap Hcool.
  pose proof (lane_inv_reset now at_ s log Hinv Hle) as Hinv'.
  destruct (_maybe_reset_day s at_) as (r & Hr & Hrd & _).
  assert (symbol_count (_maybe_reset s at_) symbol < max_symbol /\
          daily_total_count (_maybe_reset s at_) < max_total) as [Hc1 Hc2].
  { unfold _maybe_reset. destruct (last_reset_date s) as [r0|] eqn:E; simpl; [|done].
    destruct (utc_date r0 =? utc_date at_) eqn:Ed; simpl; [|done].
    apply Z.eqb_eq in Ed. by apply Hcap with r0. }
  destruct Hinv' as [Ht Hd Hf Hday Hl Htot Hsym Hsp]. simpl in *.
  destruct (Hday r Hr) as (A & B & C & D). rewrite Hrd in *.
  set (s' := _maybe_reset s at_) in *. unfold record_entry. fold s'.
  constructor; simpl.
  - intros e [->|He]%elem_of_cons; simpl; [lia|auto].
  - intros s0 t t'. destruct (String.eqb_spec symbol s0) as [->|Hne].
    + intros [= <-] [[= ->]|Hin]%elem_of_cons; [lia|]. by apply (Ht (s0, t')).
    + intros Hlt [[= -> ->]|Hin]%elem_of_cons; [done|]. by apply (Hd s0).
  - rewrite Hr. discriminate.
  - intros r' Hr'. rewrite Hr in Hr'. injection Hr' as <-. rewrite Hrd. split_and!.
    + done.
    + intros e [->|He]%elem_of_cons; simpl; [lia|auto].
    + rewrite zcount_snoc_day, Z.eqb_refl, C. lia.
    + intros s0. rewrite zcount_snoc_day_for, Z.eqb_refl, andb_true_r.
      unfold symbol_count at 1. simpl. destruct (String.eqb_spec symbol s0) as [->|Hne].
      * rewrite lookup_insert_eq. simpl. rewrite D. lia.
      * rewrite lookup_insert_ne by done. fold (symbol_count s' s0). rewrite D. lia.
  - intros s0. destruct (String.eqb_spec symbol s0) as [->|Hne].
    + by rewrite lookup_insert_eq.
    + rewrite lookup_insert_ne by done. apply Hl.
  - intros d. rewrite zcount_snoc_day. destruct (Z.eqb_spec (utc_date at_) d) as [<-|]; [|apply Htot].
    rewrite <- C. lia.
  - intros s0 d. rewrite zcount_snoc_day_for.
    destruct (String.eqb_spec symbol s0) as [->|]; simpl; [|apply Hsym].
    destruct (Z.eqb_spec (utc_date at_) d) as [<-|]; [|apply Hsym]. rewrite <- D. lia.
  - split; [|done]. intros t' Hin. destruct (latest symbol log) as [t|] eqn:E.
    + specialize (Hcool t eq_refl). specialize (Hd symbol t t' E Hin). lia.
    + by apply latest_none with (t := t') in E.
Qed.

Lemma lane_step_inv now st a :
  0 < max_symbol -> 0 < max_total ->
  lane_inv now st -> now <= at_check a -> at_check a <= at_record a ->
  lane_inv (at_record a) (lane_step st a).
Proof.
  intros Hms Hmt Hinv H1 H2. destruct st as [s log].
  pose proof (lane_inv_reset now (at_check a) s log Hinv H1) as Hinv'.
  assert (forall now' st, lane_inv now' st -> now' <= at_record a -> last_reset_date st.1 <> None ->
    lane_inv (at_record a) st) as Hweak.
  { intros now' st [] ? Hn. constructor; auto.
    - intros e He. specialize (li_times0 e He). lia.
    - intros r Hr. destruct (li_day0 r Hr). split; [lia|done]. }
  destruct (_maybe_reset_day s (at_check a)) as (r & Hr & Hrd & _).
  unfold lane_step, check_sampling_throttle. set (s' := _maybe_reset s (at_check a)) in *.
  destruct (max_symbol <=? _) eqn:E1; [simpl; apply (Hweak (at_check a)); [done|done|simpl; congruence]|].
  destruct (max_total <=? _) eqn:E2; [simpl; apply (Hweak (at_check a)); [done|done|simpl; congruence]|].
  apply Z.leb_gt in E1, E2.
  assert (forall t, latest (at_symbol a) log = Some t ->
    match last_entry_at s' !! at_symbol a with Some (Some l) => l = t | _ => False end) as Hlast.
  { intros t Ht. pose proof (li_last _ _ Hinv' (at_symbol a)) as Hla. simpl in Hla.
    fold s' in Hla. by rewrite Hla, Ht. }
  assert (lane_inv (at_check a) (s', log)) as Hinv'' by exact Hinv'.
  destruct (last_entry_at s' !! at_symbol a) as [[l|]|] eqn:El.
  1: destruct (at_check a - l <? _) eqn:E3;
       [simpl; apply (Hweak (at_check a)); [done|done|simpl; congruence]|].
  all: simpl; destruct (at_placed a); simpl;
       [apply (lane_inv_record (at_check a)); auto|apply (Hweak (at_check a)); [done|done|simpl; congruence]].
  all: intros t Ht; specialize (Hlast t Ht); try done; subst; apply Z.ltb_ge in E3; lia.
Qed.

Lemma lane_run_inv from l st :
  0 < max_symbol -> 0 < max_total -> lane_inv from st -> ordered from l ->
  exists now, lane_inv now (foldl lane_step st l).
Proof.
  intros Hs Ht. revert from st. induction l as [|a l IH]; intros from st Hi Ho; simpl; [eauto|].
  destruct Ho as (O1 & O2 & O3). eapply IH; [|exact O3]. by eapply lane_step_inv.
Qed.

Lemma lane_inv_empty from : 0 < max_symbol -> 0 < max_total -> lane_inv from (empty_sampling_state, []).
Proof.
  intros. constructor; simpl; try done.
  - intros e He. by apply elem_of_nil in He.
  - intros d. unfold zcount. simpl. lia.
  - intros s d. unfold zcount. simpl. lia.
Qed.
End lane.

(** Whatever the interleaving of checks and placed entries, over any number of
    days: no UTC day ever holds more than the account-wide cap of entries, no
    symbol exceeds its own cap on any day, and two entries of one symbol are
    never closer than the cooldown. *)
Theorem sampling_throttle_respected max_symbol max_total cooldown from l :
  0 < max_symbol -> 0 < max_total -> ordered from l ->
  let log := (lane_run max_symbol max_total cooldown l).2 in
  (forall d, zcount (on_day d) log <= max_total) /\
  (forall s d, zcount (on_day_for s d) log <= max_symbol) /\
  spaced cooldown log.
Proof.
  intros Hs Ht Ho. cbv zeta.
  destruct (lane_run_inv max_symbol max_total cooldown from l _ Hs Ht
    (lane_inv_empty max_symbol max_total cooldown from Hs Ht) Ho) as [now []].
  split_and!; auto.
Qed.

Lemma sampling_throttle_respected_witness :
  (lane_run 3 6 900 [mkAttempt "BTC/USDT" 0 10 true; mkAttempt "BTC/USDT" 20 30 true;
                     mkAttempt "ETH/USDT" 40 50 true]).2 = [("ETH/USDT"%string, 50); ("BTC/USDT"%string, 10)] /\
  spaced 900 [("ETH/USDT"%string, 50); ("BTC/USDT"%string, 10)].
Proof.
  split; [reflexivity|].
  refine (proj2 (proj2 (sampling_throttle_respected 3 6 900 0
    [mkAttempt "BTC/USDT" 0 10 true; mkAttempt "BTC/USDT" 20 30 true; mkAttempt "ETH/USDT" 40 50 true] _ _ _)));
    [lia|lia|simpl; lia].
Defined.
