(* ===== verification/Funnel.v ===== *)
(** * Funnel: the decision funnel

    [observability/decision_funnel.py]: every evaluated decision bar accumulates
    ordered stage records in a mutable builder that is sealed once into an
    immutable record.  Enum members carry a prefix ([ST_], [OC_], [RC_]) because
    several classes of the code share member names.  Free text ([detail]) and
    the [metrics] strings are not modelled; [recorded_at] is the clock reading
    the operation is given. *)
From S2P Require Import Prelude Receipts.
Local Open Scope Z_scope.

Inductive FunnelStage :=
  | ST_CYCLE_STARTED | ST_DATA_AVAILABLE | ST_CANDLE_CLOSED | ST_DATA_FRESH | ST_TIMEFRAMES_ALIGNED
  | ST_REGIME_EVALUATED | ST_ENTRY_SIGNAL_EVALUATED | ST_CANDIDATE_CREATED
  | ST_META_LABEL_EVALUATED | ST_MANIFEST_EVALUATED | ST_RECONCILIATION_HEALTHY | ST_RISK_APPROVED
  | ST_AI_REVIEWED | ST_PRICE_DRIFT_APPROVED | ST_INTENT_CREATED | ST_EXCHANGE_SUBMITTED
  | ST_EXCHANGE_FILLED | ST_POSITION_PROJECTED | ST_PROTECTION_CONFIRMED.

#[export] Instance FunnelStage_eq_dec : EqDecision FunnelStage.
Proof. solve_decision. Defined.

(** The members of [FunnelStage] in definition order; [order] is the position. *)
Definition all_stages : list FunnelStage :=
  [ST_CYCLE_STARTED; ST_DATA_AVAILABLE; ST_CANDLE_CLOSED; ST_DATA_FRESH; ST_TIMEFRAMES_ALIGNED;
   ST_REGIME_EVALUATED; ST_ENTRY_SIGNAL_EVALUATED; ST_CANDIDATE_CREATED;
   ST_META_LABEL_EVALUATED; ST_MANIFEST_EVALUATED; ST_RECONCILIATION_HEALTHY; ST_RISK_APPROVED;
   ST_AI_REVIEWED; ST_PRICE_DRIFT_APPROVED; ST_INTENT_CREATED; ST_EXCHANGE_SUBMITTED;
   ST_EXCHANGE_FILLED; ST_POSITION_PROJECTED; ST_PROTECTION_CONFIRMED].

Fixpoint index_of {A} `{EqDecision A} (x : A) (l : list A) : Z :=
  match l with
  | [] => 0
  | y :: l => if decide (x = y) then 0 else 1 + index_of x l
  end.

Definition order (s : FunnelStage) : Z := index_of s all_stages.

Inductive StageOutcome := OC_PASSED | OC_SKIPPED | OC_REJECTED | OC_ERROR.

#[export] Instance StageOutcome_eq_dec : EqDecision StageOutcome.
Proof. solve_decision. Defined.

Definition outcome_is_terminal (o : StageOutcome) : bool :=
  bool_decide (o ∈ [OC_SKIPPED; OC_REJECTED; OC_ERROR]).

Inductive DecisionReasonCode :=
  | RC_OK | RC_CANDIDATE_READY | RC_ENTRY_INTENT_CREATED | RC_NO_MARKET_DATA | RC_NO_CLOSED_CANDLE
  | RC_DUPLICATE_DECISION | RC_MARKET_DATA_STALE | RC_INSUFFICIENT_HISTORY
  | RC_SINGLE_TIMEFRAME_LANE | RC_FOUR_HOUR_DIRECTION_CONFLICT | RC_MULTI_TIMEFRAME_DISAGREEMENT
  | RC_ONE_HOUR_REGIME_RANGE | RC_REGIME_NOT_ELIGIBLE | RC_NO_ENTRY_SIGNAL | RC_RSI_OUTSIDE_RANGE
  | RC_MACD_DIRECTION_MISMATCH | RC_EMA_DIRECTION_MISMATCH | RC_ATR_NOT_POSITIVE
  | RC_SIGNAL_CONFIDENCE_BELOW_THRESHOLD | RC_CANDIDATE_EXPIRED | RC_CANDIDATE_CONSTRUCTION_FAILED
  | RC_SYMBOL_NOT_IN_EXECUTION_UNIVERSE | RC_META_LABEL_BET_SKIPPED | RC_META_LABEL_NOT_CONFIGURED
  | RC_MANIFEST_NOT_ELIGIBLE | RC_MANIFEST_UNAVAILABLE | RC_NO_AUTHORIZED_PRODUCTION_STRATEGY
  | RC_NET_EDGE_AFTER_COST_NEGATIVE | RC_NO_TRADE_COST_INEFFICIENT | RC_RECONCILIATION_UNAVAILABLE
  | RC_RECONCILIATION_DEGRADED | RC_RECOVERY_REQUIRED | RC_UNMANAGED_EXTERNAL_POSITION
  | RC_MANUAL_POSITION_DIRECTION_CONFLICT | RC_RISK_LIMIT_EXCEEDED | RC_ENTRY_KILL_SWITCH_ACTIVE
  | RC_POSITION_ALREADY_OPEN | RC_DAILY_TRADE_LIMIT_REACHED | RC_SYMBOL_COOLDOWN_ACTIVE
  | RC_AI_PROVIDER_UNAVAILABLE | RC_AI_ADVISORY_VETO | RC_AI_REVIEW_DISABLED
  | RC_PRICE_DRIFT_EXCEEDED | RC_SHADOW_MODE_NO_SUBMIT | RC_EXCHANGE_UNAVAILABLE
  | RC_EXCHANGE_REJECTED | RC_EXCHANGE_UNKNOWN | RC_PROTECTION_FAILED | RC_INTERNAL_ERROR.

#[export] Instance DecisionReasonCode_eq_dec : EqDecision DecisionReasonCode.
Proof. solve_decision. Defined.

Record FunnelStageRecord := mkStageRecord {
  sr_stage : FunnelStage;
  sr_outcome : StageOutcome;
  sr_reason_code : DecisionReasonCode;
  sr_recorded_at : datetime }.

Definition stage_is_terminal (r : FunnelStageRecord) : bool := outcome_is_terminal (sr_outcome r).

Record DecisionFunnelRecord := mkFunnelRecord {
  fu_funnel_id : string;
  fu_cycle_id : string;
  fu_symbol : string;
  fu_lane : string;
  fu_strategy_id : string;
  fu_strategy_version : string;
  fu_terminal_stage : FunnelStage;
  fu_reason_code : DecisionReasonCode;
  fu_stages : list FunnelStageRecord;
  fu_bar_timestamp : option datetime;
  fu_candidate_id : option string;
  fu_created_at : datetime }.

Definition terminal_outcome (r : DecisionFunnelRecord) : option StageOutcome :=
  sr_outcome <$> last (fu_stages r).

(** [candidate_id is not None and reason_code is CANDIDATE_READY]. *)
Definition created_candidate (r : DecisionFunnelRecord) : bool :=
  bool_decide (is_Some (fu_candidate_id r)) && bool_decide (fu_reason_code r = RC_CANDIDATE_READY).

Definition stage_for (r : DecisionFunnelRecord) (s : FunnelStage) : option FunnelStageRecord :=
  List.find (fun x => bool_decide (sr_stage x = s)) (fu_stages r).

(** The mutable builder object. *)
Record DecisionFunnelBuilder := mkBuilder {
  fb_funnel_id : string;
  fb_cycle_id : string;
  fb_symbol : string;
  fb_lane : string;
  fb_strategy_id : string;
  fb_strategy_version : string;
  fb_stages : list FunnelStageRecord;
  fb_bar_timestamp : option datetime;
  fb_candidate_id : option string;
  fb_built : bool;
  fb_created_at : datetime }.

(** [__init__] with a caller-supplied or freshly drawn id [fresh_id]. *)
Definition build_funnel_record (cycle_id symbol lane strategy_id strategy_version : string)
    (funnel_id : option string) (fresh_id : string) (now : datetime) : DecisionFunnelBuilder :=
  mkBuilder (ostr_or funnel_id fresh_id) cycle_id symbol lane strategy_id strategy_version
    [] None None false now.

Definition with_stages (b : DecisionFunnelBuilder) (l : list FunnelStageRecord) : DecisionFunnelBuilder :=
  mkBuilder (fb_funnel_id b) (fb_cycle_id b) (fb_symbol b) (fb_lane b) (fb_strategy_id b)
    (fb_strategy_version b) l (fb_bar_timestamp b) (fb_candidate_id b) (fb_built b) (fb_created_at b).
Definition set_decision_bar (bar : datetime) (b : DecisionFunnelBuilder) : DecisionFunnelBuilder :=
  mkBuilder (fb_funnel_id b) (fb_cycle_id b) (fb_symbol b) (fb_lane b) (fb_strategy_id b)
    (fb_strategy_version b) (fb_stages b) (Some bar) (fb_candidate_id b) (fb_built b) (fb_created_at b).
Definition set_candidate (id : string) (b : DecisionFunnelBuilder) : DecisionFunnelBuilder :=
  mkBuilder (fb_funnel_id b) (fb_cycle_id b) (fb_symbol b) (fb_lane b) (fb_strategy_id b)
    (fb_strategy_version b) (fb_stages b) (fb_bar_timestamp b) (Some id) (fb_built b) (fb_created_at b).
Definition set_built (b : DecisionFunnelBuilder) : DecisionFunnelBuilder :=
  mkBuilder (fb_funnel_id b) (fb_cycle_id b) (fb_symbol b) (fb_lane b) (fb_strategy_id b)
    (fb_strategy_version b) (fb_stages b) (fb_bar_timestamp b) (fb_candidate_id b) true (fb_created_at b).

Local Open Scope py_scope.

Definition record (stage : FunnelStage) (outcome : StageOutcome) (reason_code : DecisionReasonCode)
    (now : datetime) : SM DecisionFunnelBuilder FunnelStageRecord :=
  let! b := sget in
  sassert (negb (fb_built b)) (RuntimeError "already built; cannot record") ;;;
  let r := mkStageRecord stage outcome reason_code now in
  smodify (fun b => with_stages b (fb_stages b ++ [r])) ;;;
  sret r.

Definition build (terminal_stage : FunnelStage) (reason_code : DecisionReasonCode) :
    SM DecisionFunnelBuilder DecisionFunnelRecord :=
  let! b := sget in
  sassert (negb (fb_built b)) (RuntimeError "already built") ;;;
  sassert (is_nonempty (fb_stages b)) (RuntimeError "has no recorded stages") ;;;
  smodify set_built ;;;
  sret (mkFunnelRecord (fb_funnel_id b) (fb_cycle_id b) (fb_symbol b) (fb_lane b) (fb_strategy_id b)
    (fb_strategy_version b) terminal_stage reason_code (fb_stages b) (fb_bar_timestamp b)
    (fb_candidate_id b) (fb_created_at b)).

(** ** The builder as an object with a call history *)

Inductive funnel_call :=
  | CRecord (stage : FunnelStage) (outcome : StageOutcome) (reason : DecisionReasonCode) (now : datetime)
  | CSetBar (bar : datetime)
  | CSetCandidate (id : string)
  | CBuild (terminal : FunnelStage) (reason : DecisionReasonCode).

(** One call by a caller that survives exceptions; the records built so far. *)
Definition funnel_step (st : DecisionFunnelBuilder * list DecisionFunnelRecord) (c : funnel_call) :
    DecisionFunnelBuilder * list DecisionFunnelRecord :=
  let '(b, out) := st in
  match c with
  | CRecord s o r n => ((record s o r n b).2, out)
  | CSetBar t => (set_decision_bar t b, out)
  | CSetCandidate i => (set_candidate i b, out)
  | CBuild s r => match build s r b with
                  | (Ok rec, b') => (b', out ++ [rec])
                  | (Raise _, b') => (b', out)
                  end
  end.

Definition funnel_run (b : DecisionFunnelBuilder) (l : list funnel_call) :
    DecisionFunnelBuilder * list DecisionFunnelRecord := foldl funnel_step (b, []) l.

(** The stage records a history asks for, up to the first successful build. *)
Fixpoint recorded (built : bool) (sofar : list FunnelStageRecord) (l : list funnel_call) :
    list FunnelStageRecord :=
  match l with
  | [] => sofar
  | CRecord s o r n :: l =>
      recorded built (if built then sofar else sofar ++ [mkStageRecord s o r n]) l
  | CBuild _ _ :: l => recorded (built || is_nonempty sofar) sofar l
  | _ :: l => recorded built sofar l
  end.

Definition funnel_inv (st : DecisionFunnelBuilder * list DecisionFunnelRecord) : Prop :=
  match st.2 with
  | [] => fb_built st.1 = false
  | [r] => fb_built st.1 = true /\ fu_stages r = fb_stages st.1 /\ fu_stages r <> []
  | _ => False
  end.

Lemma funnel_step_inv st c : funnel_inv st -> funnel_inv (funnel_step st c).
Proof.
  destruct st as [b out], c; unfold funnel_inv; simpl; intros H.
  - unfold record, sbind, sget, sassert, smodify, sret, sraise. destruct (fb_built b) eqn:E; simpl.
    + destruct out as [|r [|]]; try done. by rewrite E in *.
    + destruct out as [|r [|]]; try done. by destruct H.
  - done.
  - done.
  - unfold build, sbind, sget, sassert, smodify, sret, sraise. destruct (fb_built b) eqn:E; simpl.
    + destruct out as [|r' [|]]; try done. by rewrite E.
    + destruct (fb_stages b) eqn:Es; simpl.
      * destruct out as [|r' [|]]; try done. by destruct H.
      * destruct out as [|r' [|]]; simpl; try done; by destruct H.
Qed.

Lemma funnel_run_inv st l : funnel_inv st -> funnel_inv (foldl funnel_step st l).
Proof. revert st; induction l; simpl; auto using funnel_step_inv. Qed.

Lemma funnel_run_stages st l :
  fb_stages (foldl funnel_step st l).1 = recorded (fb_built st.1) (fb_stages st.1) l.
Proof.
  revert st; induction l as [|c l IH]; intros [b out]; [done|]. cbn [foldl]. rewrite IH.
  destruct c; simpl; try done.
  - unfold record, sbind, sget, sassert, smodify, sret, sraise.
    destruct (fb_built b) eqn:E; simpl; by rewrite E.
  - unfold build, sbind, sget, sassert, smodify, sret, sraise.
    destruct (fb_built b) eqn:E; simpl; [by rewrite E|].
    destruct (fb_stages b) eqn:Es; simpl; [by rewrite E, Es|by rewrite Es].
Qed.

(** However a caller uses the builder, surviving every exception: at most one
    record is ever produced, it holds exactly the stages recorded before it was
    built (at least one), and stages recorded after the build are refused. *)
Theorem funnel_built_once cycle symbol lane sid sver fid fresh now l :
  let '(b, out) := funnel_run (build_funnel_record cycle symbol lane sid sver fid fresh now) l in
  match out with
  | [] => fb_built b = false
  | [r] => fb_built b = true /\ fu_stages r = recorded false [] l /\ fu_stages r <> []
  | _ => False
  end.
Proof.
  unfold funnel_run. set (b0 := build_funnel_record _ _ _ _ _ _ _ _).
  pose proof (funnel_run_inv (b0, []) l eq_refl) as H.
  pose proof (funnel_run_stages (b0, []) l) as Hs.
  destruct (foldl funnel_step (b0, []) l) as [b out]. unfold funnel_inv in H. simpl in *.
  destruct out as [|r [|]]; try done. destruct H as (H1 & H2 & H3). split; [done|]. split; [|done]. etransitivity; [exact H2|exact Hs].
Qed.

(** A terminal outcome does not seal the builder: a stage recorded after a
    rejection is accepted, and the built record then ends in a passed stage. *)
Theorem terminal_outcome_does_not_seal b :
  fb_built b = false ->
  exists r b', build ST_RISK_APPROVED RC_OK
    (funnel_run b [CRecord ST_DATA_FRESH OC_REJECTED RC_MARKET_DATA_STALE 0;
                   CRecord ST_RISK_APPROVED OC_PASSED RC_OK 1]).1 = (Ok r, b') /\
    terminal_outcome r = Some OC_PASSED.
Proof.
  intros Hb. unfold funnel_run. simpl.
  unfold record, sbind, sget, sassert, smodify, sret, sraise. rewrite Hb. simpl. rewrite Hb. simpl.
  unfold build, sbind, sget, sassert, smodify, sret, sraise. simpl. rewrite Hb. simpl.
  rewrite <- app_assoc. simpl. destruct (fb_stages b) as [|x l]; simpl.
  - eexists _, _. split; [reflexivity|]. reflexivity.
  - eexists _, _. split; [reflexivity|]. unfold terminal_outcome. simpl.
    change (x :: l ++ ?k) with ((x :: l) ++ k). rewrite last_app. reflexivity.
Qed.

Lemma terminal_outcome_does_not_seal_witness :
  let b := build_funnel_record "c" "BTC/USDT" "TESTNET_SAMPLING" "s" "1" None "f" 0 in
  exists r b', build ST_RISK_APPROVED RC_OK
    (funnel_run b [CRecord ST_DATA_FRESH OC_REJECTED RC_MARKET_DATA_STALE 0;
                   CRecord ST_RISK_APPROVED OC_PASSED RC_OK 1]).1 = (Ok r, b') /\
    terminal_outcome r = Some OC_PASSED.
Proof. apply (terminal_outcome_does_not_seal (build_funnel_record _ _ _ _ _ _ _ _)). reflexivity. Defined.
