(* ===== verification/Adapter.v ===== *)
(** * Adapter: the exchange interface of the application services

    [infrastructure/market_snapshot_provider.py], the receipt types of
    [infrastructure/binance_adapter.py], and the interface the entry, exit,
    protection and recovery services call.  The services are generic in the
    adapter; their theorems instantiate it with [traced], which wraps any
    adapter and records every call with its outcome. *)
From S2P Require Import Prelude PyDecimal State Receipts.
Local Open Scope Z_scope.

(** ** Snapshots *)

Record PreSubmitMarketSnapshot := mkMarketSnapshot {
  ms_symbol : string; ms_current_price : Dec; ms_atr : Dec; ms_last_update : datetime;
  ms_tick_size : Dec; ms_step_size : Dec; ms_min_notional : Dec }.

Definition make_PreSubmitMarketSnapshot (m : PreSubmitMarketSnapshot) : res PreSubmitMarketSnapshot :=
  assert_or (negb (ms_current_price m <=? dzero)%D) (ValueError "current_price must be > 0") ≫= fun _ =>
  assert_or (negb (ms_atr m <? dzero)%D) (ValueError "atr must be >= 0") ≫= fun _ =>
  assert_or (negb (ms_tick_size m <=? dzero)%D) (ValueError "tick_size must be > 0") ≫= fun _ =>
  assert_or (negb (ms_step_size m <=? dzero)%D) (ValueError "step_size must be > 0") ≫= fun _ =>
  assert_or (negb (ms_min_notional m <=? dzero)%D) (ValueError "min_notional must be > 0") ≫= fun _ =>
  Ok m.

Record ExchangePositionSnapshot := mkExchangePosition {
  xp_symbol : string; xp_direction : string; xp_quantity : Dec; xp_entry_price : Dec;
  xp_mark_price : Dec; xp_unrealized_pnl : Dec; xp_leverage : option Z }.

Record ExchangeOrderSnapshot := mkExchangeOrder {
  xo_exchange_order_id : string; xo_client_order_id : option string; xo_symbol : string;
  xo_side : string; xo_order_type : string; xo_quantity : Dec; xo_price : option Dec;
  xo_status : string; xo_reduce_only : bool }.

Record AuthoritativeAccountSnapshot := mkAccountSnapshot {
  as_balance : Dec; as_equity : Dec; as_positions : list ExchangePositionSnapshot;
  as_pending_orders : list ExchangeOrderSnapshot; as_snapshot_timestamp : datetime }.

Definition make_AuthoritativeAccountSnapshot (s : AuthoritativeAccountSnapshot) :
    res AuthoritativeAccountSnapshot :=
  assert_or (negb (as_equity s <? dzero)%D) (ValueError "equity cannot be negative") ≫= fun _ => Ok s.

(** ** Receipts of exchange actions *)

Record ExchangeOrderReceipt := mkOrderReceipt {
  or_exchange_order_id : string; or_client_order_id : string; or_symbol : string; or_side : string;
  or_order_type : string; or_quantity : Dec; or_price : option Dec; or_status : string;
  or_acknowledged_at : datetime; or_reduce_only : bool }.

Record ExchangeFillReceipt := mkFill {
  ef_exchange_order_id : string; ef_trade_id : string; ef_filled_quantity : Dec;
  ef_fill_price : Dec; ef_fee : Dec; ef_fill_timestamp : datetime }.

(** ** The interface *)

Class ExchangeAdapter (W : Type) := {
  submit_market_order : SubmitEntryToExchange -> string -> string -> SM W ExchangeOrderReceipt;
  fetch_fills : string -> string -> SM W (list ExchangeFillReceipt);
  submit_protection : SubmitProtectionOrders -> string -> string -> Dec ->
    SM W (ExchangeOrderReceipt * option ExchangeOrderReceipt);
  submit_reduce_only_exit : SubmitReduceOnlyExit -> string -> string -> SM W ExchangeOrderReceipt;
  cancel_order : string -> string -> SM W ExchangeOrderReceipt;
  query_order_by_client_id : string -> string -> SM W (option ExchangeOrderReceipt);
  fetch_authoritative_snapshot : SM W AuthoritativeAccountSnapshot }.

(** ** Tracing *)

(** A call on the adapter together with what it returned or raised. *)
Inductive AdapterCall :=
  | CallSubmitMarket (c : SubmitEntryToExchange) (symbol side : string) (r : res ExchangeOrderReceipt)
  | CallFetchFills (symbol order_id : string) (r : res (list ExchangeFillReceipt))
  | CallSubmitProtection (c : SubmitProtectionOrders) (symbol side : string) (quantity : Dec)
      (r : res (ExchangeOrderReceipt * option ExchangeOrderReceipt))
  | CallReduceOnly (c : SubmitReduceOnlyExit) (symbol side : string) (r : res ExchangeOrderReceipt)
  | CallCancel (symbol order_id : string) (r : res ExchangeOrderReceipt)
  | CallQuery (symbol client_id : string) (r : res (option ExchangeOrderReceipt))
  | CallSnapshot (r : res AuthoritativeAccountSnapshot).

Definition trace_call {W A} (mk : res A -> AdapterCall) (m : SM W A) : SM (W * list AdapterCall) A :=
  fun '(w, l) => let '(r, w') := m w in (r, (w', l ++ [mk r])).

#[export] Instance traced {W} (A : ExchangeAdapter W) : ExchangeAdapter (W * list AdapterCall) := {
  submit_market_order c s d := trace_call (CallSubmitMarket c s d) (submit_market_order c s d);
  fetch_fills s o := trace_call (CallFetchFills s o) (fetch_fills s o);
  submit_protection c s d q := trace_call (CallSubmitProtection c s d q) (submit_protection c s d q);
  submit_reduce_only_exit c s d := trace_call (CallReduceOnly c s d) (submit_reduce_only_exit c s d);
  cancel_order s o := trace_call (CallCancel s o) (cancel_order s o);
  query_order_by_client_id s i := trace_call (CallQuery s i) (query_order_by_client_id s i);
  fetch_authoritative_snapshot := trace_call CallSnapshot fetch_authoritative_snapshot }.

(** Run a service against a traced adapter from an empty trace. *)
Definition run_traced {W A} (m : SM (W * list AdapterCall) A) (w : W) : res A * W * list AdapterCall :=
  let '(r, (w', l)) := m (w, []) in (r, w', l).

(** What a call does to the account. *)
Definition is_entry_call (c : AdapterCall) : bool :=
  match c with CallSubmitMarket _ _ _ _ => true | _ => false end.
Definition is_reduce_call (c : AdapterCall) : bool :=
  match c with CallReduceOnly _ _ _ _ => true | _ => false end.
Definition is_protection_call (c : AdapterCall) : bool :=
  match c with CallSubmitProtection _ _ _ _ _ => true | _ => false end.
Definition is_read_call (c : AdapterCall) : bool :=
  match c with CallFetchFills _ _ _ | CallQuery _ _ _ | CallSnapshot _ => true | _ => false end.

Lemma trace_call_inv {W A} (mk : res A -> AdapterCall) (m : SM W A) s r s' :
  trace_call mk m s = (r, s') -> exists w', m s.1 = (r, w') /\ s' = (w', s.2 ++ [mk r]).
Proof. unfold trace_call. destruct s as [w l]. destruct (m w) as [x w'] eqn:E. intros [= <- <-]. eauto. Qed.

Lemma run_traced_inv {W A} (m : SM (W * list AdapterCall) A) w r w' log :
  run_traced m w = (r, w', log) -> m (w, []) = (r, (w', log)).
Proof. unfold run_traced. destruct (m (w, [])) as [x [w1 l]]. by intros [= <- <- <-]. Qed.

Section traced_inversion.
Context {W} {A : ExchangeAdapter W}.
Implicit Types (st : W * list AdapterCall).

Lemma traced_submit_market_order c s d st r st' :
  @submit_market_order _ (traced A) c s d st = (r, st') ->
  exists w', submit_market_order c s d st.1 = (r, w') /\ st' = (w', st.2 ++ [CallSubmitMarket c s d r]).
Proof. exact (trace_call_inv (CallSubmitMarket c s d) (submit_market_order c s d) st r st'). Qed.

Lemma traced_fetch_fills s o st r st' :
  @fetch_fills _ (traced A) s o st = (r, st') ->
  exists w', fetch_fills s o st.1 = (r, w') /\ st' = (w', st.2 ++ [CallFetchFills s o r]).
Proof. exact (trace_call_inv (CallFetchFills s o) (fetch_fills s o) st r st'). Qed.

Lemma traced_submit_protection c s d q st r st' :
  @submit_protection _ (traced A) c s d q st = (r, st') ->
  exists w', submit_protection c s d q st.1 = (r, w') /\ st' = (w', st.2 ++ [CallSubmitProtection c s d q r]).
Proof. exact (trace_call_inv (CallSubmitProtection c s d q) (submit_protection c s d q) st r st'). Qed.

Lemma traced_submit_reduce_only_exit c s d st r st' :
  @submit_reduce_only_exit _ (traced A) c s d st = (r, st') ->
  exists w', submit_reduce_only_exit c s d st.1 = (r, w') /\ st' = (w', st.2 ++ [CallReduceOnly c s d r]).
Proof. exact (trace_call_inv (CallReduceOnly c s d) (submit_reduce_only_exit c s d) st r st'). Qed.

Lemma traced_cancel_order s o st r st' :
  @cancel_order _ (traced A) s o st = (r, st') ->
  exists w', cancel_order s o st.1 = (r, w') /\ st' = (w', st.2 ++ [CallCancel s o r]).
Proof. exact (trace_call_inv (CallCancel s o) (cancel_order s o) st r st'). Qed.

Lemma traced_query_order_by_client_id s i st r st' :
  @query_order_by_client_id _ (traced A) s i st = (r, st') ->
  exists w', query_order_by_client_id s i st.1 = (r, w') /\ st' = (w', st.2 ++ [CallQuery s i r]).
Proof. exact (trace_call_inv (CallQuery s i) (query_order_by_client_id s i) st r st'). Qed.

Lemma traced_fetch_authoritative_snapshot st r st' :
  @fetch_authoritative_snapshot _ (traced A) st = (r, st') ->
  exists w', fetch_authoritative_snapshot st.1 = (r, w') /\ st' = (w', st.2 ++ [CallSnapshot r]).
Proof. exact (trace_call_inv CallSnapshot fetch_authoritative_snapshot st r st'). Qed.

End traced_inversion.

(** Decompose a traced run completely: the adapter calls become outcomes. *)
Ltac inv_call1 :=
  match goal with
  | H : @submit_market_order _ (traced _) _ _ _ _ = _ |- _ => apply traced_submit_market_order in H as (? & ? & ?)
  | H : @fetch_fills _ (traced _) _ _ _ = _ |- _ => apply traced_fetch_fills in H as (? & ? & ?)
  | H : @submit_protection _ (traced _) _ _ _ _ _ = _ |- _ => apply traced_submit_protection in H as (? & ? & ?)
  | H : @submit_reduce_only_exit _ (traced _) _ _ _ _ = _ |- _ => apply traced_submit_reduce_only_exit in H as (? & ? & ?)
  | H : @cancel_order _ (traced _) _ _ _ = _ |- _ => apply traced_cancel_order in H as (? & ? & ?)
  | H : @query_order_by_client_id _ (traced _) _ _ _ = _ |- _ => apply traced_query_order_by_client_id in H as (? & ? & ?)
  | H : @fetch_authoritative_snapshot _ (traced _) _ = _ |- _ => apply traced_fetch_authoritative_snapshot in H as (? & ? & ?)
  end; simplify_eq; cbn [fst snd app] in *.
Ltac inv_traced := repeat (inv_run1 || inv_call1).

(** Case analysis on the exception that a handler received. *)
Ltac case_handler :=
  match goal with
  | H : match ?m with _ => _ end |- _ =>
      match m with
      | match ?e with _ => _ end =>
          is_var e; destruct e; cbn beta iota in H; try match type of H with _ /\ _ => destruct H as [? ?] end; simplify_eq
      end
  end.

(** ** A concrete adapter, for evaluating the services *)

(** The world is a script: what each operation answers, every time. *)
Record Script := mkScript {
  sc_submit : res ExchangeOrderReceipt; sc_fills : res (list ExchangeFillReceipt);
  sc_protect : res (ExchangeOrderReceipt * option ExchangeOrderReceipt);
  sc_reduce : res ExchangeOrderReceipt; sc_cancel : res ExchangeOrderReceipt;
  sc_query : res (option ExchangeOrderReceipt); sc_snapshot : res AuthoritativeAccountSnapshot }.

Definition scripted : ExchangeAdapter Script := {|
  submit_market_order _ _ _ := fun w => (sc_submit w, w);
  fetch_fills _ _ := fun w => (sc_fills w, w);
  submit_protection _ _ _ _ := fun w => (sc_protect w, w);
  submit_reduce_only_exit _ _ _ := fun w => (sc_reduce w, w);
  cancel_order _ _ := fun w => (sc_cancel w, w);
  query_order_by_client_id _ _ := fun w => (sc_query w, w);
  fetch_authoritative_snapshot := fun w => (sc_snapshot w, w) |}.
