(* ===== verification/RuntimeLock.v ===== *)
(** * RuntimeLock: engine activation and the writer lease

    [infrastructure/runtime_lock.py] and [application/fencing.py]: the settings
    that activate the engine, the fencing-token conflict query over the cycle
    table, and the lease built on it. *)
From S2P Require Import Prelude State Receipts.
Local Open Scope Z_scope.

Inductive EngineActivation := DISABLED | SHADOW | ACTIVE.

#[export] Instance EngineActivation_eq_dec : EqDecision EngineActivation.
Proof. solve_decision. Defined.

(** The attributes of [Settings] that are read. *)
Record Settings := mkSettings {
  automated_trading_engine : option string;
  binance_use_testnet : bool;
  live_trading_enabled : bool;
  binance_auto_execute : bool }.

Inductive ActivationWarning := SHADOW_NO_ORDERS | SOLE_WRITER | LOCAL_PAPER_MODE.

Record EngineActivationConfig := mkActivation {
  v2_activation : EngineActivation;
  execution_mode : V2ExecutionMode;
  allow_legacy_writer : bool;
  warnings : list ActivationWarning }.

Definition resolve_engine_activation (s : Settings) : res EngineActivationConfig :=
  let engine_flag := str_lower (default "legacy"%string (automated_trading_engine s)) in
  assert_or (binance_use_testnet s) (ValueError "requires BINANCE_USE_TESTNET=true") ≫= fun _ =>
  assert_or (negb (live_trading_enabled s)) (ValueError "requires LIVE_TRADING_ENABLED=false") ≫= fun _ =>
  (if String.eqb engine_flag "legacy" then Ok (DISABLED, true, [])
   else if String.eqb engine_flag "v2_shadow" then Ok (SHADOW, true, [SHADOW_NO_ORDERS])
   else if String.eqb engine_flag "v2_active" then Ok (ACTIVE, false, [SOLE_WRITER])
   else Raise (ValueError "Invalid AUTOMATED_TRADING_ENGINE")) ≫= fun '(activation, legacy, ws) =>
  let '(mode, ws) :=
    if binance_auto_execute s then (BINANCE_TESTNET, ws) else (LOCAL_PAPER, ws ++ [LOCAL_PAPER_MODE]) in
  assert_or (negb (bool_decide (activation = ACTIVE) && legacy))
    (ValueError "V2 is ACTIVE but Legacy Writer is also enabled") ≫= fun _ =>
  Ok (mkActivation activation mode legacy ws).

(** ** Fencing conflicts *)

(** The columns of [V2ExecutionCycle] the query reads. *)
Record CycleRow := mkCycleRow {
  cy_symbol : string;
  cy_execution_mode : V2ExecutionMode;
  cy_fencing_token : string;
  cy_started_at : datetime }.

Definition MICROS_PER_MINUTE : Z := 60000000.

(** [order_by(started_at.desc()).limit(1)]: a most recent row, the first of the
    table among equals. *)
Definition latest_row (rows : list CycleRow) : option CycleRow :=
  foldl (fun best r => match best with
                       | None => Some r
                       | Some b => if cy_started_at b <? cy_started_at r then Some r else Some b
                       end) None rows.

Definition competing (symbol : string) (mode : V2ExecutionMode) (token : string) (r : CycleRow) : bool :=
  String.eqb (cy_symbol r) symbol && bool_decide (cy_execution_mode r = mode)
  && negb (String.eqb (cy_fencing_token r) token).

Definition check_fencing_conflict (rows : list CycleRow) (now : datetime) (symbol : string)
    (mode : V2ExecutionMode) (current_token : string) (lookback_minutes : Z) : bool * option string :=
  let cutoff := now - lookback_minutes * MICROS_PER_MINUTE in
  match latest_row (bfilter (competing symbol mode current_token) rows) with
  | Some r => if cutoff <=? cy_started_at r then (true, Some (cy_fencing_token r)) else (false, None)
  | None => (false, None)
  end.

Record WriterLease := mkWriterLease {
  wl_engine_id : string; wl_symbol : string; wl_execution_mode : V2ExecutionMode;
  wl_fencing_token : string; wl_acquired_at : datetime }.

Definition acquire_testnet_writer (rows : list CycleRow) (now : datetime) (engine_id symbol : string)
    (mode : V2ExecutionMode) (fencing_token : string) : res WriterLease :=
  let '(has_conflict, _) := check_fencing_conflict rows now symbol mode fencing_token 5 in
  assert_or (negb has_conflict) (RuntimeError "conflicting fencing token detected") ≫= fun _ =>
  Ok (mkWriterLease engine_id symbol mode fencing_token now).

(** The position columns [assert_no_active_v2_positions] reads. *)
Definition assert_no_active_v2_positions (positions : list (V2ExecutionMode * V2PositionState))
    (mode : V2ExecutionMode) : res unit :=
  assert_or (negb (is_nonempty (bfilter (fun p => bool_decide (p.1 = mode) &&
      bool_decide (p.2 ∈ [POSITION_PROJECTED; PROTECTED; REDUCING])) positions)))
    (RuntimeError "Cannot start Legacy Writer: active V2 managed positions exist").

(** ** Properties *)

(** Whatever the settings, an accepted configuration runs on the testnet with
    live trading off and has at most one writer: the legacy writer is allowed
    exactly when the engine is not active. *)
Theorem activation_single_writer s c :
  resolve_engine_activation s = Ok c ->
  binance_use_testnet s = true /\ live_trading_enabled s = false /\
  (allow_legacy_writer c = true <-> v2_activation c <> ACTIVE) /\
  (v2_activation c = ACTIVE <-> str_lower (default "legacy"%string (automated_trading_engine s)) = "v2_active"%string) /\
  (execution_mode c = BINANCE_TESTNET <-> binance_auto_execute s = true).
Proof.
  unfold resolve_engine_activation. intros H. inv_asserts. split_bools.
  split; [done|]. split; [done|].
  set (flag := str_lower (default "legacy"%string (automated_trading_engine s))) in H |- *.
  clearbody flag.
  destruct (String.eqb_spec flag "legacy") as [E|N1];
    [|destruct (String.eqb_spec flag "v2_shadow") as [E|N2];
      [|destruct (String.eqb_spec flag "v2_active") as [E|N3]; [|discriminate]]];
    rewrite ?E; cbn in H; destruct (binance_auto_execute s); cbn in H; injection H as <-; cbn;
    repeat split; try done; intros; discriminate.
Qed.

Lemma activation_single_writer_witness :
  exists c, resolve_engine_activation (mkSettings (Some "V2_ACTIVE"%string) true false true) = Ok c /\
  (allow_legacy_writer c = true <-> v2_activation c <> ACTIVE).
Proof.
  exists (mkActivation ACTIVE BINANCE_TESTNET false [SOLE_WRITER]).
  split; [vm_compute; reflexivity|].
  exact (proj1 (proj2 (proj2 (activation_single_writer (mkSettings (Some "V2_ACTIVE"%string) true false true)
    (mkActivation ACTIVE BINANCE_TESTNET false [SOLE_WRITER]) ltac:(vm_compute; reflexivity))))).
Defined.

Lemma latest_row_from rows acc :
  let r := foldl (fun best r => match best with
                       | None => Some r
                       | Some b => if cy_started_at b <? cy_started_at r then Some r else Some b
                       end) acc rows in
  match r with
  | None => acc = None /\ rows = []
  | Some b => (acc = Some b \/ b ∈ rows) /\
              (forall a, acc = Some a -> cy_started_at a <= cy_started_at b) /\
              (forall x, x ∈ rows -> cy_started_at x <= cy_started_at b)
  end.
Proof.
  revert acc. induction rows as [|x rows IH]; intros acc; simpl.
  - destruct acc as [a|]; [|done]. split; [auto|]. split; [intros ? [= ->]; lia|].
    intros y Hy. by apply elem_of_nil in Hy.
  - set (acc' := match acc with None => _ | Some _ => _ end). specialize (IH acc').
    destruct (foldl _ acc' rows) as [b|].
    + destruct IH as (I1 & I2 & I3). subst acc'. destruct acc as [a|].
      * destruct (Z.ltb_spec (cy_started_at a) (cy_started_at x)) as [Hlt|Hge].
        -- specialize (I2 x eq_refl). split; [|split].
           ++ destruct I1 as [[= ->]|I1]; [right; left|right; by right].
           ++ intros ? [= <-]. lia.
           ++ intros y [->|Hy]%elem_of_cons; [lia|auto].
        -- specialize (I2 a eq_refl). split; [|split].
           ++ destruct I1 as [[= ->]|I1]; [by left|right; by right].
           ++ intros ? [= <-]. lia.
           ++ intros y [->|Hy]%elem_of_cons; [lia|auto].
      * specialize (I2 x eq_refl). split; [|split].
        -- destruct I1 as [[= ->]|I1]; [right; left|right; by right].
        -- discriminate.
        -- intros y [->|Hy]%elem_of_cons; [lia|auto].
    + destruct IH as [I1 I2]. subst acc'. destruct acc as [a|]; [|done]. by case_bool.
Qed.

(** The conflict query looks at one row but misses nothing: it reports a
    conflict exactly when some cycle of the same scope with a different token
    started within the look-back window. *)
Theorem fencing_conflict_complete rows now symbol mode token minutes :
  (check_fencing_conflict rows now symbol mode token minutes).1 = true <->
  exists r, r ∈ rows /\ cy_symbol r = symbol /\ cy_execution_mode r = mode /\ cy_fencing_token r <> token /\
    now - minutes * MICROS_PER_MINUTE <= cy_started_at r.
Proof.
  unfold check_fencing_conflict, latest_row.
  pose proof (latest_row_from (bfilter (competing symbol mode token) rows) None) as H. cbv zeta in H.
  assert (forall r, r ∈ bfilter (competing symbol mode token) rows <->
    r ∈ rows /\ cy_symbol r = symbol /\ cy_execution_mode r = mode /\ cy_fencing_token r <> token) as Hin.
  { intros r. rewrite elem_of_bfilter. unfold competing.
    rewrite !andb_true_iff, negb_true_iff, String.eqb_eq, String.eqb_neq, bool_decide_eq_true. tauto. }
  destruct (foldl _ None _) as [b|].
  - destruct H as ([[=]|H1] & _ & H3). apply Hin in H1.
    destruct (Z.leb_spec (now - minutes * MICROS_PER_MINUTE) (cy_started_at b)) as [Hle|Hgt]; simpl.
    + split; [|done]. intros _. exists b. tauto.
    + split; [done|]. intros (r & R1 & R2 & R3 & R4 & R5).
      assert (cy_started_at r <= cy_started_at b) by (apply H3, Hin; tauto). lia.
  - destruct H as [_ H]. simpl. split; [done|]. intros (r & R1 & R2 & R3 & R4 & R5).
    assert (r ∈ bfilter (competing symbol mode token) rows) as Hr by (apply Hin; tauto).
    rewrite H in Hr. by apply elem_of_nil in Hr.
Qed.
