(* ===== verification/Quantities.v ===== *)
(** * Quantities: fill aggregation and exchange increments

    The arithmetic the entry, exit and protection services share: aggregating
    fill receipts into a quantity and a volume-weighted price, flooring a
    quantity to the exchange step ([round_quantity_to_step], [floor_to_step])
    and rounding a price to the tick ([round_to_tick]).  The code divides in
    28-digit decimals before truncating; the theorems give the exact result. *)
From S2P Require Import Prelude PyDecimal Receipts Adapter.
From Stdlib Require Import QArith Qabs Lqa.
Local Open Scope Z_scope.

(** ** Fill aggregation *)

Record FillTotals := mkTotals {
  ft_quantity : Dec; ft_notional : Dec; ft_fee : Dec; ft_trade_ids : list string;
  ft_last : option datetime }.

Definition no_fills : FillTotals := mkTotals dzero dzero dzero [] None.

(** The loop body. *)
Definition add_fill (t : FillTotals) (f : ExchangeFillReceipt) : FillTotals :=
  mkTotals (ft_quantity t + ef_filled_quantity f)
    (ft_notional t + ef_filled_quantity f * ef_fill_price f)
    (ft_fee t + ef_fee f)
    (ft_trade_ids t ++ [ef_trade_id f])
    (match ft_last t with
     | None => Some (ef_fill_timestamp f)
     | Some l => if l <? ef_fill_timestamp f then Some (ef_fill_timestamp f) else Some l
     end).

(** [(quantity, vwap, fee, trade_ids, last_timestamp)]. *)
Definition _aggregate_fills (fills : list ExchangeFillReceipt) :
    Dec * option Dec * Dec * list string * option datetime :=
  let t := foldl add_fill no_fills fills in
  let vwap := if (dzero <? ft_quantity t)%D then Some (dquot (ft_notional t) (ft_quantity t)) else None in
  (ft_quantity t, vwap, ft_fee t, ft_trade_ids t, ft_last t).

(** ** Increments *)

Definition floor_to_step (quantity step_size : Dec) : res Dec :=
  assert_or (negb (step_size <=? dzero)%D) (ValueError "step_size must be > 0") ≫= fun _ =>
  Ok (dmul (to_integral_value ROUND_DOWN (dquot quantity step_size)) step_size).

Inductive Leg := LegStop | LegTarget | LegOther.

(** [round_to_tick(price, tick_size, direction=..., leg=...)]; a [leg] string
    other than the two known ones is [LegOther]. *)
Definition round_to_tick (price tick_size : Dec) (direction : string) (leg : Leg) : res Dec :=
  assert_or (negb (tick_size <=? dzero)%D) (ValueError "tick_size must be > 0") ≫= fun _ =>
  (match leg with
   | LegStop => Ok (if String.eqb direction "long" then ROUND_CEILING else ROUND_FLOOR)
   | LegTarget => Ok (if String.eqb direction "long" then ROUND_FLOOR else ROUND_CEILING)
   | LegOther => Raise (ValueError "leg must be 'stop' or 'target'")
   end) ≫= fun rounding =>
  Ok (dmul (to_integral_value rounding (dquot price tick_size)) tick_size).

(** ** Exactness of the divide-truncate-multiply idiom *)

(** The coefficients at the common exponent are small enough for the 28-digit
    quotient to fall in the right integer interval. *)
Definition exact_grid (x s : Dec) : bool :=
  let e := common_exp x s in
  (0 <=? aligned x e) && (0 <? aligned s e) && (aligned x e <=? 10 ^ 27) && (aligned s e <=? 10 ^ 27).

(** Specification: the largest / smallest multiple of [s] not above / below [x]. *)
Definition grid_floor (x s r : Q) : Prop := exists n, (r == inject_Z n * s /\ r <= x /\ x < r + s)%Q.
Definition grid_ceil (x s r : Q) : Prop := exists n, (r == inject_Z n * s /\ x <= r /\ r - s < x)%Q.

Lemma uround_1e27 a b : 0 <= a -> a <= 10 ^ 27 -> 0 < b ->
  (uround * (inject_Z a / inject_Z b) < 1 / inject_Z b)%Q.
Proof.
  intros Ha Hb Hp. assert (0 < inject_Z b)%Q by (change 0%Q with (inject_Z 0); by rewrite <- Zlt_Qlt).
  apply Qlt_shift_div_l; [done|].
  assert (uround * (inject_Z a / inject_Z b) * inject_Z b == uround * inject_Z a)%Q as -> by (field; lra).
  assert (inject_Z a <= inject_Z (10 ^ 27))%Q by (by rewrite <- Zle_Qle).
  assert (uround * inject_Z a <= uround * inject_Z (10 ^ 27))%Q by (apply Qmult_le_l; [reflexivity|done]).
  assert (uround * inject_Z (10 ^ 27) < 1)%Q by reflexivity. lra.
Qed.

Lemma fits_int z : Z.abs z <= 10 ^ 28 -> fits (inject_Z z).
Proof. intros H. rewrite <- dval_dint. by apply fits_small. Qed.

Lemma quot_err a b v :
  0 <= a -> 0 < b -> a <= 10 ^ 27 -> rounds (inject_Z a / inject_Z b) v ->
  (inject_Z a / inject_Z b - 1 / inject_Z b < v /\ v < inject_Z a / inject_Z b + 1 / inject_Z b)%Q.
Proof.
  intros Ha Hb Hs Hr. apply rounds_err in Hr. pose proof (uround_1e27 a b Ha Hs Hb) as Hu.
  assert (0 < inject_Z b)%Q by (change 0%Q with (inject_Z 0); by rewrite <- Zlt_Qlt).
  assert (0 <= inject_Z a)%Q by (change 0%Q with (inject_Z 0); by rewrite <- Zle_Qle).
  rewrite (Qabs_pos (inject_Z a / inject_Z b)) in Hr by (apply Qle_shift_div_l; lra).
  apply Qabs_le_iff in Hr. lra.
Qed.

Lemma inject_div_le a b n : 0 < b -> n * b <= a -> (inject_Z n <= inject_Z a / inject_Z b)%Q.
Proof.
  intros Hb H. apply Qle_shift_div_l; [change 0%Q with (inject_Z 0); by rewrite <- Zlt_Qlt|].
  rewrite <- inject_Z_mult. by rewrite <- Zle_Qle.
Qed.

Lemma inject_div_ge a b n : 0 < b -> a <= n * b -> (inject_Z a / inject_Z b <= inject_Z n)%Q.
Proof.
  intros Hb H. apply Qle_shift_div_r; [change 0%Q with (inject_Z 0); by rewrite <- Zlt_Qlt|].
  rewrite <- inject_Z_mult. by rewrite <- Zle_Qle.
Qed.

Lemma div_plus_inv a b : 0 < b ->
  (inject_Z a / inject_Z b + 1 / inject_Z b == inject_Z (a + 1) / inject_Z b)%Q.
Proof.
  intros Hb. assert (0 < inject_Z b)%Q by (change 0%Q with (inject_Z 0); by rewrite <- Zlt_Qlt).
  rewrite inject_Z_plus. change (inject_Z 1) with 1%Q. field. lra.
Qed.

Lemma div_minus_inv a b : 0 < b ->
  (inject_Z a / inject_Z b - 1 / inject_Z b == inject_Z (a - 1) / inject_Z b)%Q.
Proof.
  intros Hb. assert (0 < inject_Z b)%Q by (change 0%Q with (inject_Z 0); by rewrite <- Zlt_Qlt).
  unfold Z.sub. rewrite inject_Z_plus. change (inject_Z (- (1))) with (-1)%Q. field. lra.
Qed.

Lemma quot_floor_exact a b v z :
  0 <= a -> 0 < b -> a <= 10 ^ 27 -> rounds (inject_Z a / inject_Z b) v ->
  (inject_Z z <= v)%Q -> (v < inject_Z z + 1)%Q -> z = a / b.
Proof.
  intros Ha Hb Hs Hr H1 H2. pose proof (quot_err a b v Ha Hb Hs Hr) as [_ He].
  pose proof (Z.div_mod a b ltac:(lia)) as Hdm. pose proof (Z.mod_pos_bound a b Hb) as Hm.
  assert (0 <= a / b <= a)
    by (clear -Ha Hb; split; [apply Z.div_pos; lia|apply Z.div_le_upper_bound; [lia|nia]]).
  assert (inject_Z (a / b) <= v)%Q as Hn.
  { eapply rounds_ge_bound; [|apply (inject_div_le a b); [done|lia]|exact Hr]. apply fits_int. lia. }
  rewrite div_plus_inv in He by done.
  assert (inject_Z (a + 1) / inject_Z b <= inject_Z (a / b + 1))%Q as Hle by (apply inject_div_ge; nia).
  assert (inject_Z (a / b) < inject_Z (z + 1))%Q as L1
    by (rewrite inject_Z_plus; change (inject_Z 1) with 1%Q; lra).
  assert (inject_Z z < inject_Z (a / b + 1))%Q as L2 by lra.
  rewrite <- Zlt_Qlt in L1, L2. lia.
Qed.

Lemma quot_ceil_exact a b v z :
  0 <= a -> 0 < b -> a <= 10 ^ 27 -> rounds (inject_Z a / inject_Z b) v ->
  (v <= inject_Z z)%Q -> (inject_Z z - 1 < v)%Q -> z = - ((- a) / b).
Proof.
  intros Ha Hb Hs Hr H1 H2. pose proof (quot_err a b v Ha Hb Hs Hr) as [He _].
  set (c := - ((- a) / b)).
  pose proof (Z.div_mod (- a) b ltac:(lia)) as Hdm. pose proof (Z.mod_pos_bound (- a) b Hb) as Hm.
  assert (a <= c * b /\ (c - 1) * b <= a - 1) as [C1 C2] by (unfold c; nia).
  assert (0 <= c <= a) by (clear -C1 C2 Ha Hb; nia).
  assert (v <= inject_Z c)%Q as Hn.
  { eapply rounds_le_bound; [|apply (inject_div_ge a b); [done|exact C1]|exact Hr]. apply fits_int. lia. }
  rewrite div_minus_inv in He by done.
  pose proof (inject_div_le (a - 1) b (c - 1) Hb C2) as Hle.
  assert (inject_Z (z + -1) < inject_Z c)%Q as L1
    by (rewrite inject_Z_plus; change (inject_Z (-1)) with (-1)%Q; lra).
  assert (inject_Z (c - 1) < inject_Z z)%Q as L2 by lra.
  rewrite <- Zlt_Qlt in L1, L2. lia.
Qed.

(** The quotient of two decimals is the ratio of their aligned coefficients. *)
Lemma aligned_ratio x s (e := common_exp x s) :
  aligned s e <> 0 -> (dval x / dval s == inject_Z (aligned x e) / inject_Z (aligned s e))%Q.
Proof.
  intros Hs. pose proof (p10_pos e) as Hp.
  rewrite <- (aligned_val x e), <- (aligned_val s e) by (unfold e, common_exp; lia).
  assert (~ inject_Z (aligned s e) == 0)%Q.
  { unfold Qeq. simpl. lia. }
  field. split; first [done|lra].
Qed.

Lemma exact_grid_spec x s : exact_grid x s = true ->
  let e := common_exp x s in
  0 <= aligned x e /\ 0 < aligned s e /\ aligned x e <= 10 ^ 27 /\ aligned s e <= 10 ^ 27.
Proof. unfold exact_grid. cbv zeta. rewrite !andb_true_iff. lia. Qed.

Lemma grid_product x s z :
  let e := common_exp x s in
  Z.abs (z * aligned s e) <= 10 ^ 28 -> fits (inject_Z z * dval s).
Proof.
  intros e H. rewrite <- (aligned_val s e) by (unfold e, common_exp; lia).
  rewrite Qmult_assoc, <- inject_Z_mult. by apply fits_scaled, fits_int.
Qed.

Lemma grid_scale x s z (R : Q -> Q -> Prop) :
  let e := common_exp x s in
  (inject_Z z * dval s == inject_Z (z * aligned s e) * p10 e)%Q /\
  (dval x == inject_Z (aligned x e) * p10 e)%Q /\ (dval s == inject_Z (aligned s e) * p10 e)%Q.
Proof.
  intros e. rewrite <- (aligned_val s e), <- (aligned_val x e) by (unfold e, common_exp; lia).
  rewrite inject_Z_mult. repeat split; ring.
Qed.

(** Flooring (resp. ceiling) the decimal quotient and multiplying back gives the
    exact multiple of the increment, when the coefficients are at most 10^27. *)
Lemma grid_down_exact x s :
  exact_grid x s = true -> grid_floor (dval x) (dval s) (dval (dmul (to_integral_value ROUND_FLOOR (dquot x s)) s)).
Proof.
  intros H. apply exact_grid_spec in H. set (e := common_exp x s) in *. cbv zeta in H.
  destruct H as (Ha & Hb & Hsa & Hsb).
  set (a := aligned x e) in *. set (b := aligned s e) in *.
  destruct (to_integral_floor (dquot x s)) as (z & Hz & Z1 & Z2).
  pose proof (grid_scale x s (a / b) (fun _ _ => True)) as (G1 & G2 & G3). fold e a b in G1, G2, G3.
  pose proof (p10_pos e) as Hp.
  assert (~ (dval s == 0)%Q) as Hs0.
  { rewrite G3. assert (0 < inject_Z b)%Q by (change 0%Q with (inject_Z 0); by rewrite <- Zlt_Qlt). nra. }
  pose proof (dquot_rounds x s Hs0) as Hq. rewrite aligned_ratio in Hq by (fold e b; lia). fold e a b in Hq.
  assert (z = a / b) as -> by (by apply (quot_floor_exact a b (dval (dquot x s)))).
  pose proof (Z.div_mod a b ltac:(lia)) as Hdm. pose proof (Z.mod_pos_bound a b Hb) as Hm.
  assert (0 <= a / b * b <= a) as Hnb by (clear -Ha Hb Hdm Hm; split; [apply Z.mul_nonneg_nonneg; [apply Z.div_pos|]; lia|lia]).
  assert (dval (dmul (to_integral_value ROUND_FLOOR (dquot x s)) s) == inject_Z (a / b) * dval s)%Q as Hr.
  { rewrite dmul_exact; rewrite Hz; [reflexivity|]. apply (grid_product x s). fold e b. lia. }
  exists (a / b). rewrite Hr. split; [reflexivity|]. rewrite G1, G2, G3.
  split.
  - apply Qmult_le_compat_r; [|lra]. rewrite <- Zle_Qle. lia.
  - rewrite <- Qmult_plus_distr_l, <- inject_Z_plus. apply Qmult_lt_r; [done|]. rewrite <- Zlt_Qlt. lia.
Qed.

Lemma grid_up_exact x s :
  exact_grid x s = true -> grid_ceil (dval x) (dval s) (dval (dmul (to_integral_value ROUND_CEILING (dquot x s)) s)).
Proof.
  intros H. apply exact_grid_spec in H. set (e := common_exp x s) in *. cbv zeta in H.
  destruct H as (Ha & Hb & Hsa & Hsb).
  set (a := aligned x e) in *. set (b := aligned s e) in *. set (c := - ((- a) / b)).
  destruct (to_integral_ceil (dquot x s)) as (z & Hz & Z1 & Z2).
  pose proof (grid_scale x s c (fun _ _ => True)) as (G1 & G2 & G3). fold e a b in G1, G2, G3.
  pose proof (p10_pos e) as Hp.
  assert (~ (dval s == 0)%Q) as Hs0.
  { rewrite G3. assert (0 < inject_Z b)%Q by (change 0%Q with (inject_Z 0); by rewrite <- Zlt_Qlt). nra. }
  pose proof (dquot_rounds x s Hs0) as Hq. rewrite aligned_ratio in Hq by (fold e b; lia). fold e a b in Hq.
  assert (z = c) as -> by (by apply (quot_ceil_exact a b (dval (dquot x s)))).
  pose proof (Z.div_mod (- a) b ltac:(lia)) as Hdm. pose proof (Z.mod_pos_bound (- a) b Hb) as Hm.
  assert (a <= c * b /\ c * b < a + b) as [C1 C2] by (unfold c; clear -Hdm Hm; lia).
  assert (dval (dmul (to_integral_value ROUND_CEILING (dquot x s)) s) == inject_Z c * dval s)%Q as Hr.
  { rewrite dmul_exact; rewrite Hz; [reflexivity|]. apply (grid_product x s). fold e b. lia. }
  exists c. rewrite Hr. split; [reflexivity|]. rewrite G1, G2, G3.
  split.
  - apply Qmult_le_compat_r; [|lra]. rewrite <- Zle_Qle. lia.
  - assert (inject_Z (c * b) * p10 e - inject_Z b * p10 e == inject_Z (c * b - b) * p10 e)%Q as ->
      by (unfold Z.sub; rewrite inject_Z_plus, inject_Z_opp; ring).
    apply Qmult_lt_r; [done|]. rewrite <- Zlt_Qlt. lia.
Qed.

(** ** Properties *)

Lemma floor_to_step_grid quantity step_size :
  (0 < dval step_size)%Q -> exact_grid quantity step_size = true ->
  exists r, floor_to_step quantity step_size = Ok r /\
    grid_floor (dval quantity) (dval step_size) (dval r) /\ (0 <= dval r)%Q.
Proof.
  intros Hs Hg. unfold floor_to_step.
  assert (negb (step_size <=? dzero)%D = true) as -> by (by apply not_leb_zero).
  pose proof (exact_grid_spec _ _ Hg) as Ha. cbv zeta in Ha. destruct Ha as [Ha _].
  assert (0 <= dval quantity)%Q as Hq.
  { rewrite <- (aligned_val quantity (common_exp quantity step_size)) by (unfold common_exp; lia).
    apply Qmult_le_0_compat; [|apply Qlt_le_weak, p10_pos]. change 0%Q with (inject_Z 0). by rewrite <- Zle_Qle. }
  assert (0 <= dval (dquot quantity step_size))%Q as Hd.
  { eapply rounds_ge_bound; [apply fits_zero| |apply dquot_rounds; lra]. apply Qle_shift_div_l; lra. }
  rewrite to_integral_down_nonneg by done.
  eexists. split; [reflexivity|]. pose proof (grid_down_exact _ _ Hg) as G. split; [exact G|].
  destruct (to_integral_floor (dquot quantity step_size)) as (z & Hz & Z1 & Z2).
  apply dmul_nonneg; [|lra]. rewrite Hz.
  assert (inject_Z (-1) < inject_Z z)%Q as L by (change (inject_Z (-1)) with (-1)%Q; lra).
  rewrite <- Zlt_Qlt in L. change 0%Q with (inject_Z 0). rewrite <- Zle_Qle. lia.
Qed.

Lemma floor_to_step_ok_step quantity step_size r : floor_to_step quantity step_size = Ok r -> (0 < dval step_size)%Q.
Proof. unfold floor_to_step. intros H. inv_asserts. by apply not_leb_zero. Qed.

(** C40. Flooring to the exchange step is exact: for a positive step it returns the
    largest multiple of the step that does not exceed the quantity, so less than
    one step is left behind; for any other step it raises. *)
Theorem floor_to_step_exact quantity step_size :
  exact_grid quantity step_size = true ->
  ((dval step_size <= 0)%Q -> exists t, floor_to_step quantity step_size = Raise (ValueError t)) /\
  ((0 < dval step_size)%Q ->
   exists r n, floor_to_step quantity step_size = Ok r /\ (dval r == inject_Z n * dval step_size)%Q /\ 0 <= n /\
     (dval r <= dval quantity)%Q /\ (dval quantity - dval r < dval step_size)%Q).
Proof.
  intros Hg. split.
  - intros Hs. unfold floor_to_step. destruct (step_size <=? dzero)%D eqn:E; [simpl; eauto|].
    apply dleb_false in E. rewrite (dval_zero 0) in E. lra.
  - intros Hs. destruct (floor_to_step_grid quantity step_size Hs Hg) as (r & Hr & (n & Hn & H1 & H2) & H3).
    exists r, n. split_and!; try done; [|lra].
    assert (0 <= inject_Z n)%Q as Hnn.
    { rewrite Hn in H3. destruct (Qlt_le_dec (inject_Z n) 0); [|done]. exfalso. nra. }
    change 0%Q with (inject_Z 0) in Hnn. by rewrite <- Zle_Qle in Hnn.
Qed.

Lemma floor_to_step_exact_witness :
  exists r n, floor_to_step (mkDec 12345 (-4)) (mkDec 1 (-3)) = Ok r /\
    (dval r == inject_Z n * dval (mkDec 1 (-3)))%Q /\ 0 <= n /\
    (dval r <= dval (mkDec 12345 (-4)))%Q /\ (dval (mkDec 12345 (-4)) - dval r < dval (mkDec 1 (-3)))%Q.
Proof. apply (floor_to_step_exact (mkDec 12345 (-4)) (mkDec 1 (-3))); reflexivity. Defined.

Lemma round_to_tick_grid price tick direction leg r :
  exact_grid price tick = true -> round_to_tick price tick direction leg = Ok r ->
  match leg, String.eqb direction "long" with
  | LegStop, true | LegTarget, false => grid_ceil (dval price) (dval tick) (dval r)
  | LegStop, false | LegTarget, true => grid_floor (dval price) (dval tick) (dval r)
  | LegOther, _ => False
  end.
Proof.
  intros Hg H. unfold round_to_tick in H. inv_asserts. apply res_bind_ok in H as (m & Hm & H).
  injection H as <-.
  destruct leg, (String.eqb direction "long"); try discriminate; injection Hm as <-;
    first [by apply grid_up_exact | by apply grid_down_exact].
Qed.

(** Rounding a protection price to the tick is risk-safer: the stop moves
    toward the entry and the target toward the entry, by less than one tick. *)
Theorem round_to_tick_risk_safer price tick direction leg r :
  exact_grid price tick = true -> round_to_tick price tick direction leg = Ok r ->
  match leg, String.eqb direction "long" with
  | LegStop, true | LegTarget, false => grid_ceil (dval price) (dval tick) (dval r)
  | LegStop, false | LegTarget, true => grid_floor (dval price) (dval tick) (dval r)
  | LegOther, _ => False
  end.
Proof. apply round_to_tick_grid. Qed.

Lemma round_to_tick_risk_safer_witness :
  exists r, round_to_tick (mkDec 6368999 (-2)) (mkDec 1 (-1)) "long" LegStop = Ok r /\
    grid_ceil (dval (mkDec 6368999 (-2))) (dval (mkDec 1 (-1))) (dval r).
Proof.
  eexists. split; [reflexivity|].
  apply (round_to_tick_risk_safer (mkDec 6368999 (-2)) (mkDec 1 (-1)) "long" LegStop); reflexivity.
Defined.

(** *** The volume-weighted price *)

Definition exact_quantity (l : list ExchangeFillReceipt) : Q :=
  foldr (fun f acc => dval (ef_filled_quantity f) + acc)%Q 0%Q l.

Definition priced_within (lo hi : Q) (f : ExchangeFillReceipt) : Prop :=
  (0 < dval (ef_filled_quantity f) /\ lo <= dval (ef_fill_price f) <= hi)%Q.

(** One addition to a bounded accumulator costs one rounding on each side. *)
Lemma dadd_shrink k X x A M :
  (0 <= dval A + dval M)%Q -> (shrink k * X <= dval A)%Q -> (shrink k * x <= dval M)%Q ->
  (shrink (S k) * (X + x) <= dval (A + M))%Q.
Proof.
  intros H0 HA HM. refine (Qle_trans _ _ _ _ (rounds_shrink _ _ H0 (dadd_rounds A M))).
  rewrite shrink_S, <- Qmult_assoc. pose proof uround_bounds. apply Qmult_le_l; lra.
Qed.

Lemma dadd_grow k X x A M :
  (0 <= dval A + dval M)%Q -> (dval A <= grow k * X)%Q -> (dval M <= grow k * x)%Q ->
  (dval (A + M) <= grow (S k) * (X + x))%Q.
Proof.
  intros H0 HA HM. refine (Qle_trans _ _ _ (rounds_grow _ _ H0 (dadd_rounds A M)) _).
  rewrite grow_S, <- Qmult_assoc. pose proof uround_bounds. apply Qmult_le_l; lra.
Qed.

Lemma shrink_weaken k x : (0 <= x)%Q -> (shrink k * x <= x)%Q.
Proof.
  intros Hx. pose proof (shrink_le_1 k).
  assert (shrink k * x <= 1 * x)%Q by (apply Qmult_le_compat_r; lra). lra.
Qed.

Lemma grow_weaken k x : (0 <= x)%Q -> (x <= grow k * x)%Q.
Proof.
  intros Hx. pose proof (grow_ge_1 k).
  assert (1 * x <= grow k * x)%Q by (apply Qmult_le_compat_r; lra). lra.
Qed.

(** The notional of one fill, with its own rounding. *)
Lemma fill_notional_bounds k lo hi f :
  (0 < lo)%Q -> priced_within lo hi f ->
  let q := dval (ef_filled_quantity f) in
  let m := dval (ef_filled_quantity f * ef_fill_price f) in
  (0 <= m /\ shrink (S k) * (lo * q) <= m /\ m <= grow (S k) * (hi * q))%Q.
Proof.
  intros Hlo [Hq [Hp1 Hp2]]. cbv zeta. pose proof uround_bounds as Hu.
  set (q := dval (ef_filled_quantity f)) in *. set (p := dval (ef_fill_price f)) in *.
  assert (lo * q <= q * p)%Q as P1 by (rewrite (Qmult_comm lo); apply Qmult_le_l; lra).
  assert (q * p <= hi * q)%Q as P2 by (rewrite (Qmult_comm hi); apply Qmult_le_l; lra).
  assert (0 <= lo * q)%Q as L0 by (apply Qmult_le_0_compat; lra).
  assert (0 <= q * p)%Q as Hqp by lra.
  pose proof (rounds_shrink _ _ Hqp (dmul_rounds (ef_filled_quantity f) (ef_fill_price f))) as M1.
  pose proof (rounds_grow _ _ Hqp (dmul_rounds (ef_filled_quantity f) (ef_fill_price f))) as M2.
  assert (0 <= (1 - uround) * (lo * q) <= (1 - uround) * (q * p))%Q as [B0 B1].
  { split; [apply Qmult_le_0_compat; lra|apply Qmult_le_l; lra]. }
  assert ((1 + uround) * (q * p) <= (1 + uround) * (hi * q))%Q as B2 by (apply Qmult_le_l; lra).
  pose proof (shrink_weaken k _ B0) as W1.
  assert (0 <= (1 + uround) * (hi * q))%Q as B3 by (apply Qmult_le_0_compat; lra).
  pose proof (grow_weaken k _ B3) as W2.
  rewrite shrink_S, grow_S. repeat split; lra.
Qed.

Lemma add_fill_bounds lo hi l t (k : nat) (X : Q) :
  (0 < lo)%Q -> Forall (priced_within lo hi) l ->
  (0 <= dval (ft_quantity t))%Q -> (0 <= dval (ft_notional t))%Q ->
  (shrink k * X <= dval (ft_quantity t) <= grow k * X)%Q ->
  (shrink (S k) * (lo * X) <= dval (ft_notional t) <= grow (S k) * (hi * X))%Q ->
  let t' := foldl add_fill t l in
  let n := (k + length l)%nat in
  (shrink n * (X + exact_quantity l) <= dval (ft_quantity t') <= grow n * (X + exact_quantity l))%Q /\
  (shrink (S n) * (lo * (X + exact_quantity l)) <= dval (ft_notional t') <=
     grow (S n) * (hi * (X + exact_quantity l)))%Q.
Proof.
  intros Hlo Hl. revert t k X. induction Hl as [|f l Hf Hl IH]; intros t k X T1 T2 [B1 B2] [B3 B4]; cbv zeta.
  - simpl. rewrite Nat.add_0_r, !Qplus_0_r. auto.
  - pose proof (fill_notional_bounds k lo hi f Hlo Hf) as (M0 & M1 & M2).
    destruct Hf as [Hq [Hp1 Hp2]].
    simpl length. rewrite Nat.add_succ_r. simpl foldl. simpl exact_quantity.
    assert (X + (dval (ef_filled_quantity f) + exact_quantity l) ==
            (X + dval (ef_filled_quantity f)) + exact_quantity l)%Q as -> by ring.
    rewrite <- Nat.add_succ_l. apply IH; cbn [add_fill ft_quantity ft_notional].
    + apply dadd_nonneg; lra.
    + by apply dadd_nonneg.
    + split; [apply dadd_shrink|apply dadd_grow]; try lra;
        [apply shrink_weaken|apply grow_weaken]; lra.
    + rewrite (Qmult_plus_distr_r lo), (Qmult_plus_distr_r hi). split; [apply dadd_shrink|apply dadd_grow]; lra.
Qed.

Lemma fold_trade_ids_from l t :
  ft_trade_ids (foldl add_fill t l) = ft_trade_ids t ++ map ef_trade_id l.
Proof. revert t; induction l as [|f l IH]; intros t; simpl; [by rewrite app_nil_r|]. rewrite IH. simpl. by rewrite <- app_assoc. Qed.

Lemma fold_trade_ids l : ft_trade_ids (foldl add_fill no_fills l) = map ef_trade_id l.
Proof. apply fold_trade_ids_from. Qed.

(** The aggregate of confirmed fills: the trade ids are the fills' in order, the
    quantity is positive, and the volume-weighted price lies between the lowest
    and the highest fill price up to one rounding per operation. *)
Theorem aggregated_vwap_within_fill_prices lo hi l :
  l <> [] -> (0 < lo)%Q -> Forall (priced_within lo hi) l ->
  exists q v fee last,
    _aggregate_fills l = (q, Some v, fee, map ef_trade_id l, last) /\
    (0 < dval q)%Q /\ (0 < dval v)%Q /\
    let n := length l in
    (shrink (S (S n)) * lo <= grow n * dval v)%Q /\ (shrink n * dval v <= grow (S (S n)) * hi)%Q.
Proof.
  intros Hne Hlo Hl.
  assert (0 < exact_quantity l)%Q as HE.
  { clear -Hne Hl. destruct Hl as [|f l [Hf _] Hl]; [done|]. simpl.
    assert (0 <= exact_quantity l)%Q; [|lra]. clear -Hl. induction Hl as [|g l [Hg _] _ IH]; simpl; lra. }
  pose proof (dval_zero 0) as H0. fold dzero in H0.
  assert (forall g h x : Q, (g * (x * 0) <= dval dzero <= h * (x * 0))%Q) as Hz
    by (intros g h x; assert (g * (x * 0) == 0)%Q by ring; assert (h * (x * 0) == 0)%Q by ring; lra).
  assert (forall g h : Q, (g * 0 <= dval dzero <= h * 0)%Q) as Hz1 by (intros g h; lra).
  assert (0 <= dval dzero)%Q as H00 by lra.
  destruct (add_fill_bounds lo hi l no_fills 0 0 Hlo Hl H00 H00 (Hz1 _ _)) as [[B1 B2] [B3 B4]].
  { split; [apply (Hz _ 0%Q)|apply (Hz 0%Q)]. }
  simpl (0 + _)%nat in *. rewrite !Qplus_0_l in *.
  unfold _aggregate_fills. rewrite fold_trade_ids. set (t := foldl add_fill no_fills l) in *.
  set (E := exact_quantity l) in *. set (n := length l) in *.
  pose proof (shrink_pos n) as Sn. pose proof (shrink_pos (S n)) as SSn. pose proof uround_bounds as Hu.
  assert (0 < dval (ft_quantity t))%Q as HQ.
  { assert (0 < shrink n * E)%Q by (by apply Qmult_lt_0_compat). lra. }
  assert (0 < dval (ft_notional t))%Q as HN.
  { assert (0 < shrink (S n) * (lo * E))%Q by (repeat apply Qmult_lt_0_compat; lra). lra. }
  assert ((dzero <? ft_quantity t)%D = true) as -> by (apply dltb_spec; lra).
  exists (ft_quantity t), (dquot (ft_notional t) (ft_quantity t)), (ft_fee t), (ft_last t).
  split; [reflexivity|]. split; [done|].
  pose proof (dquot_pos _ _ HN HQ) as HV. split; [done|]. cbv zeta.
  pose proof (Qdiv_pos _ _ HN HQ) as HNQ.
  pose proof (dquot_rounds (ft_notional t) (ft_quantity t) ltac:(lra)) as R.
  assert (0 <= dval (ft_notional t) / dval (ft_quantity t))%Q as HNQ' by lra.
  pose proof (rounds_shrink _ _ HNQ' R) as R1. pose proof (rounds_grow _ _ HNQ' R) as R2.
  set (v := dval (dquot (ft_notional t) (ft_quantity t))) in *.
  set (Q := dval (ft_quantity t)) in *. set (N := dval (ft_notional t)) in *.
  apply (Qmult_le_compat_r _ _ Q) in R1, R2; [|lra..].
  assert ((1 - uround) * (N / Q) * Q == (1 - uround) * N)%Q as E1 by (field; lra).
  assert ((1 + uround) * (N / Q) * Q == (1 + uround) * N)%Q as E2 by (field; lra).
  rewrite E1 in R1. rewrite E2 in R2. split; apply (Qmult_le_r _ _ E HE).
  - rewrite shrink_S.
    assert ((1 - uround) * (shrink (S n) * (lo * E)) <= (1 - uround) * N)%Q by (apply Qmult_le_l; lra).
    assert (v * Q <= v * (grow n * E))%Q by (apply Qmult_le_l; lra). lra.
  - rewrite (grow_S (S n)).
    assert ((1 + uround) * N <= (1 + uround) * (grow (S n) * (hi * E)))%Q by (apply Qmult_le_l; lra).
    assert (v * (shrink n * E) <= v * Q)%Q by (apply Qmult_le_l; lra). lra.
Qed.

Lemma aggregated_vwap_within_fill_prices_witness :
  let l := [mkFill "9" "t1" (mkDec 2 (-3)) (dint 64000) dzero 5; mkFill "9" "t2" (mkDec 1 (-3)) (dint 64003) dzero 7] in
  exists q v fee last, _aggregate_fills l = (q, Some v, fee, ["t1"; "t2"]%string, last) /\ (0 < dval q)%Q /\ (0 < dval v)%Q.
Proof.
  intros l.
  destruct (aggregated_vwap_within_fill_prices 64000 64003 l) as (q & v & fee & last & H & Hq & Hv & _);
    [discriminate|reflexivity|repeat constructor; discriminate|].
  exists q, v, fee, last. split; [exact H|]. split; [exact Hq|exact Hv].
Defined.

