(* ===== verification/Reconciliation.v ===== *)
(** * Reconciliation: exchange truth against the local projection

    [application/reconciliation_service.py]: the read-only local views, the
    identity-only claim of exchange positions, and [reconcile], whose loops
    share five accumulators ([Findings]).  The specification is the relation
    [consistent]; the theorems show that HEALTHY is exactly consistency, and
    that every discrepancy blocks its symbol.  The free-text [detail] of a
    discrepancy is not modelled. *)
From S2P Require Import Prelude PyDecimal State Receipts ClientOrderId Adapter.
From Stdlib Require Import Ascii.
Local Open Scope Z_scope.

Inductive ReconciliationStatus := HEALTHY | DEGRADED | UNAVAILABLE | RECOVERY_REQUIRED.

#[export] Instance ReconciliationStatus_eq_dec : EqDecision ReconciliationStatus.
Proof. solve_decision. Defined.

Inductive DiscrepancyCode :=
  | SNAPSHOT_UNAVAILABLE | EXTERNAL_POSITION_UNCLAIMABLE | LOCAL_POSITION_MISSING_AT_EXCHANGE
  | QUANTITY_MISMATCH | DIRECTION_MISMATCH | MANAGED_POSITION_UNPROTECTED
  | PROTECTION_ORDER_MISSING_AT_EXCHANGE | UNKNOWN_ORDER_PRESENT | ORPHAN_V2_CLIENT_ORDER_AT_EXCHANGE
  | CONFIRMED_ENTRY_FILL_UNPROJECTED | QUARANTINED_ENTRY_LIFECYCLE | MANUAL_BASELINE_DRIFT.

#[export] Instance DiscrepancyCode_eq_dec : EqDecision DiscrepancyCode.
Proof. solve_decision. Defined.

Record LocalPositionView := mkLocalPosition {
  lp_position_id : string; lp_symbol : string; lp_direction : string; lp_quantity : Dec;
  lp_state : V2PositionState; lp_claim_keys : gset string; lp_has_active_protection : bool;
  lp_protection_exchange_order_ids : gset string;
  lp_protection_order_refs : list (string * string * string);
  lp_entry_price : Dec; lp_original_stop_price : option Dec; lp_current_stop_price : option Dec;
  lp_protection_id : option string; lp_protection_policy : string; lp_protection_version : Z }.

Record LocalIntentView := mkLocalIntent {
  li_intent_id : string; li_symbol : string; li_client_order_id : string; li_state : V2IntentState;
  li_has_confirmed_entry_fill : bool; li_has_quarantined_lifecycle : bool }.

(** [external_baseline_positions] is a dict: keys are unique, in insertion order. *)
Record LocalStateView := mkLocalState {
  ls_positions : list LocalPositionView; ls_intents : list LocalIntentView;
  ls_known_client_order_ids : gset string; ls_external_baseline : list (string * Dec);
  ls_historical_gaps : gset string }.

Record Discrepancy := mkDiscrepancy {
  d_code : DiscrepancyCode; d_symbol : option string;
  d_local_position_id : option string; d_exchange_ref : option string }.

Record ReconciliationResult := mkReconciliation {
  rc_status : ReconciliationStatus; rc_discrepancies : list Discrepancy;
  rc_entry_blocked_symbols : gset string; rc_quarantine_candidates : list string;
  rc_recovery_required_refs : list string; rc_unavailable_reason : option string;
  rc_reconciled_at : option datetime; rc_snapshot_positions : list (string * Dec);
  rc_historical_degraded : bool; rc_historical_gap_count : Z }.

Definition entry_allowed_globally (r : ReconciliationResult) : bool := bool_decide (rc_status r = HEALTHY).

Definition entry_allowed_for (r : ReconciliationResult) (symbol : string) : bool :=
  if bool_decide (rc_status r ∈ [UNAVAILABLE; RECOVERY_REQUIRED]) then false
  else bool_decide (symbol ∉ rc_entry_blocked_symbols r).

Definition reduce_only_exit_allowed (r : ReconciliationResult) : bool := true.

Definition QUANTITY_TOLERANCE : Dec := mkDec 1 (-8).

Definition unavailable (reason : string) (reconciled_at : option datetime) : ReconciliationResult :=
  mkReconciliation UNAVAILABLE [mkDiscrepancy SNAPSHOT_UNAVAILABLE None None None] ∅ [] []
    (Some reason) reconciled_at [] false 0.

Definition shares_identity (refs : gset string) (p : LocalPositionView) : bool :=
  negb (bool_decide (lp_claim_keys p ∩ refs = ∅)).

(** The loop returns the first position that shares an identity; both branches
    of its symbol/direction test return the same position. *)
Definition _claim_exchange_position (exchange_symbol exchange_direction : string)
    (local_positions : list LocalPositionView) (exchange_claim_refs : gset string) :
    option LocalPositionView :=
  if bool_decide (exchange_claim_refs = ∅) then None
  else List.find (shares_identity exchange_claim_refs) local_positions.

(** ** The loops *)

Definition position_key (symbol direction : string) : string := (symbol +:+ ":" +:+ direction)%string.
Definition exchange_key (p : ExchangePositionSnapshot) : string := position_key (xp_symbol p) (xp_direction p).

Fixpoint dict_get {V} (d : list (string * V)) (k : string) : option V :=
  match d with
  | [] => None
  | (k', v) :: d => if String.eqb k' k then Some v else dict_get d k
  end.

(** [symbol, _direction = key.rsplit(":", 1)]: the text before the last colon. *)
Fixpoint rsplit_colon (s : string) : option string :=
  match s with
  | EmptyString => None
  | String c s' =>
      match rsplit_colon s' with
      | Some p => Some (String c p)
      | None => if Ascii.eqb c ":"%char then Some EmptyString else None
      end
  end.

(** The accumulators. *)
Record Findings := mkFindings {
  f_discrepancies : list Discrepancy; f_blocked : gset string; f_quarantine : list string;
  f_recovery : list string; f_matched : gset string }.

Definition no_findings : Findings := mkFindings [] ∅ [] [] ∅.

(** [discrepancies.append(...); entry_blocked.add(symbol)] and, for the recovery
    codes, [recovery_refs.append(...)]. *)
Definition report (code : DiscrepancyCode) (symbol : string) (pid ref : option string)
    (recovery : list string) (f : Findings) : Findings :=
  mkFindings (f_discrepancies f ++ [mkDiscrepancy code (Some symbol) pid ref])
    ({[symbol]} ∪ f_blocked f) (f_quarantine f) (f_recovery f ++ recovery) (f_matched f).
Definition quarantine (key : string) (f : Findings) : Findings :=
  mkFindings (f_discrepancies f) (f_blocked f) (f_quarantine f ++ [key]) (f_recovery f) (f_matched f).
Definition matched (pid : string) (f : Findings) : Findings :=
  mkFindings (f_discrepancies f) (f_blocked f) (f_quarantine f) (f_recovery f) ({[pid]} ∪ f_matched f).
Definition report_if (b : bool) (code : DiscrepancyCode) (symbol : string) (pid ref : option string)
    (recovery : list string) (f : Findings) : Findings :=
  if b then report code symbol pid ref recovery f else f.

Definition intent_step (f : Findings) (i : LocalIntentView) : Findings :=
  let f := report_if (li_has_confirmed_entry_fill i) CONFIRMED_ENTRY_FILL_UNPROJECTED (li_symbol i)
             None (Some (li_intent_id i)) [li_intent_id i] f in
  report_if (li_has_quarantined_lifecycle i) QUARANTINED_ENTRY_LIFECYCLE (li_symbol i)
    None (Some (li_intent_id i)) [li_intent_id i] f.

Section reconcile.
Context (snapshot : AuthoritativeAccountSnapshot) (local_state : LocalStateView).
Context (claim_refs : gmap string (gset string)).

Definition refs_of (key : string) : gset string := default ∅ (claim_refs !! key).
Definition claim_of (p : ExchangePositionSnapshot) : option LocalPositionView :=
  _claim_exchange_position (xp_symbol p) (xp_direction p) (ls_positions local_state)
    (refs_of (exchange_key p)).
Definition baseline_of (p : ExchangePositionSnapshot) : option Dec :=
  dict_get (ls_external_baseline local_state) (exchange_key p).
Definition exchange_order_ids : gset string :=
  list_to_set (map xo_exchange_order_id (as_pending_orders snapshot)).
Definition missing_protection (c : LocalPositionView) : gset string :=
  lp_protection_exchange_order_ids c ∖ exchange_order_ids.

Definition baseline_drift (p : ExchangePositionSnapshot) : bool :=
  match baseline_of p with
  | Some b => (xp_quantity p + QUANTITY_TOLERANCE <? b)%D
  | None => false
  end.
Definition baseline_matches (p : ExchangePositionSnapshot) : bool :=
  match baseline_of p with
  | Some b => (dabs (xp_quantity p - b) <=? QUANTITY_TOLERANCE)%D
  | None => false
  end.
Definition quantity_mismatch (c : LocalPositionView) (p : ExchangePositionSnapshot) : bool :=
  (QUANTITY_TOLERANCE <? dabs (lp_quantity c + default dzero (baseline_of p) - xp_quantity p))%D.

(** The body of the loop over exchange positions. *)
Definition exchange_step (f : Findings) (p : ExchangePositionSnapshot) : Findings :=
  let key := exchange_key p in
  let f := report_if (baseline_drift p) MANUAL_BASELINE_DRIFT (xp_symbol p) None (Some key) [] f in
  match claim_of p with
  | None =>
      if baseline_drift p then f
      else if baseline_matches p then f
      else quarantine key (report EXTERNAL_POSITION_UNCLAIMABLE (xp_symbol p) None (Some key) [] f)
  | Some c =>
      let pid := Some (lp_position_id c) in
      let f := matched (lp_position_id c) f in
      let f := report_if (negb (String.eqb (lp_direction c) (xp_direction p))) DIRECTION_MISMATCH
                 (xp_symbol p) pid (Some key) [] f in
      let f := report_if (quantity_mismatch c p) QUANTITY_MISMATCH (xp_symbol p) pid (Some key) [] f in
      let f := report_if (negb (lp_has_active_protection c)) MANAGED_POSITION_UNPROTECTED (xp_symbol p)
                 pid None [lp_position_id c] f in
      report_if (lp_has_active_protection c && negb (bool_decide (missing_protection c = ∅)))
        PROTECTION_ORDER_MISSING_AT_EXCHANGE (xp_symbol p) pid None [lp_position_id c] f
  end.

Definition local_open (c : LocalPositionView) : bool :=
  negb (bool_decide (lp_state c ∈ [CLOSED; QUARANTINED])).

Definition local_step (f : Findings) (c : LocalPositionView) : Findings :=
  report_if (local_open c && negb (bool_decide (lp_position_id c ∈ f_matched f)))
    LOCAL_POSITION_MISSING_AT_EXCHANGE (lp_symbol c) (Some (lp_position_id c)) None [lp_position_id c] f.

Definition exchange_position_keys : list string := map exchange_key (as_positions snapshot).

(** The loop over captured baselines; the unpacking of [rsplit] may raise. *)
Definition baseline_step (f : res Findings) (kb : string * Dec) : res Findings :=
  f ≫= fun f =>
  if bool_decide (kb.1 ∈ exchange_position_keys) then Ok f
  else match rsplit_colon kb.1 with
       | None => Raise (ValueError "not enough values to unpack")
       | Some symbol => Ok (report MANUAL_BASELINE_DRIFT symbol None (Some kb.1) [] f)
       end.

Definition order_step (f : Findings) (o : ExchangeOrderSnapshot) : Findings :=
  match xo_client_order_id o with
  | None => report UNKNOWN_ORDER_PRESENT (xo_symbol o) None (Some (xo_exchange_order_id o))
              [xo_exchange_order_id o] f
  | Some client_id =>
      if bool_decide (client_id ∈ ls_known_client_order_ids local_state) then f
      else report_if (is_v2_client_order_id client_id) ORPHAN_V2_CLIENT_ORDER_AT_EXCHANGE (xo_symbol o)
             None (Some (xo_exchange_order_id o)) [xo_exchange_order_id o] f
  end.

Definition after_positions : Findings :=
  foldl local_step
    (foldl exchange_step (foldl intent_step no_findings (ls_intents local_state)) (as_positions snapshot))
    (ls_positions local_state).

Definition find_discrepancies : res Findings :=
  foldl baseline_step (Ok after_positions) (ls_external_baseline local_state) ≫= fun f =>
  Ok (foldl order_step f (as_pending_orders snapshot)).
End reconcile.

Definition _RECOVERY_CODES : list DiscrepancyCode :=
  [MANAGED_POSITION_UNPROTECTED; PROTECTION_ORDER_MISSING_AT_EXCHANGE; UNKNOWN_ORDER_PRESENT;
   ORPHAN_V2_CLIENT_ORDER_AT_EXCHANGE; CONFIRMED_ENTRY_FILL_UNPROJECTED; QUARANTINED_ENTRY_LIFECYCLE;
   LOCAL_POSITION_MISSING_AT_EXCHANGE].

Definition is_recovery_code (d : Discrepancy) : bool := bool_decide (d_code d ∈ _RECOVERY_CODES).

Definition _resolve_status (l : list Discrepancy) : ReconciliationStatus :=
  if negb (is_nonempty l) then HEALTHY
  else if existsb is_recovery_code l then RECOVERY_REQUIRED else DEGRADED.

Definition reconcile (snapshot : option AuthoritativeAccountSnapshot) (local_state : LocalStateView)
    (unavailable_reason : option string) (reconciled_at : option datetime)
    (exchange_position_claim_refs : gmap string (gset string)) : res ReconciliationResult :=
  match snapshot with
  | None => Ok (unavailable (ostr_or unavailable_reason "exchange snapshot unavailable") reconciled_at)
  | Some s =>
      find_discrepancies s local_state exchange_position_claim_refs ≫= fun f =>
      Ok (mkReconciliation (_resolve_status (f_discrepancies f)) (f_discrepancies f) (f_blocked f)
            (f_quarantine f) (fromkeys (f_recovery f)) None reconciled_at
            (map (fun p => (exchange_key p, xp_quantity p)) (as_positions s))
            (negb (bool_decide (ls_historical_gaps local_state = ∅)))
            (Z.of_nat (size (ls_historical_gaps local_state))))
  end.

(** ** Generic facts about the accumulators *)

(** A step that only adds: what it reports does not depend on earlier reports. *)
Definition reports {A} (step : Findings -> A -> Findings) (items : A -> list Discrepancy) : Prop :=
  forall f x, f_discrepancies (step f x) = f_discrepancies f ++ items x.

Definition item (b : bool) (code : DiscrepancyCode) (symbol : string) (pid ref : option string) :
    list Discrepancy :=
  if b then [mkDiscrepancy code (Some symbol) pid ref] else [].

Lemma disc_report_if b code s pid ref rec f :
  f_discrepancies (report_if b code s pid ref rec f) = f_discrepancies f ++ item b code s pid ref.
Proof. destruct b; simpl; [done|by rewrite app_nil_r]. Qed.

Lemma disc_matched pid f : f_discrepancies (matched pid f) = f_discrepancies f.
Proof. done. Qed.

Lemma fold_reports {A} step (items : A -> list Discrepancy) l f :
  reports step items -> f_discrepancies (foldl step f l) = f_discrepancies f ++ concat (map items l).
Proof.
  intros Hr. revert f; induction l as [|x l IH]; intros f; simpl; [by rewrite app_nil_r|].
  by rewrite IH, Hr, <- app_assoc.
Qed.

(** Every reported discrepancy names a symbol that is blocked. *)
Definition blocks_all (f : Findings) : Prop :=
  forall d, d ∈ f_discrepancies f -> exists s, d_symbol d = Some s /\ s ∈ f_blocked f.

(** Every blocked symbol has a discrepancy. *)
Definition blocks_only (f : Findings) : Prop :=
  forall s, s ∈ f_blocked f -> exists d, d ∈ f_discrepancies f /\ d_symbol d = Some s.

Definition well_reported (f : Findings) : Prop := blocks_all f /\ blocks_only f.

Lemma well_reported_empty : well_reported no_findings.
Proof. split; intros x Hx; simpl in Hx; [by apply elem_of_nil in Hx|set_solver]. Qed.

Lemma well_reported_report_if b code s pid ref rec f :
  well_reported f -> well_reported (report_if b code s pid ref rec f).
Proof.
  intros [H1 H2]. destruct b; [|done]. split; simpl.
  - intros d [Hd|Hd]%elem_of_app.
    + destruct (H1 d Hd) as (s' & E & Hs). exists s'. simpl. split; [done|set_solver].
    + apply list_elem_of_singleton in Hd as ->. exists s. simpl. split; [done|set_solver].
  - intros s' Hs'. simpl in Hs'. apply elem_of_union in Hs' as [Hs'|Hs'].
    + apply elem_of_singleton in Hs' as ->. eexists. split; [apply elem_of_app; right; by left|done].
    + destruct (H2 s' Hs') as (d & Hd & E). exists d. split; [apply elem_of_app; by left|done].
Qed.

Lemma well_reported_matched pid f : well_reported f -> well_reported (matched pid f).
Proof. done. Qed.

Lemma well_reported_quarantine key f : well_reported f -> well_reported (quarantine key f).
Proof. done. Qed.

Lemma well_reported_fold {A} (step : Findings -> A -> Findings) l f :
  (forall f x, well_reported f -> well_reported (step f x)) -> well_reported f -> well_reported (foldl step f l).
Proof. intros Hs. revert f; induction l; simpl; auto. Qed.

#[export] Hint Resolve well_reported_report_if well_reported_matched well_reported_quarantine
  well_reported_empty : pylib.

Lemma report_as_if code s pid ref rec f : report code s pid ref rec f = report_if true code s pid ref rec f.
Proof. done. Qed.

(** ** What each loop reports *)

Definition intent_items (i : LocalIntentView) : list Discrepancy :=
  item (li_has_confirmed_entry_fill i) CONFIRMED_ENTRY_FILL_UNPROJECTED (li_symbol i) None (Some (li_intent_id i))
  ++ item (li_has_quarantined_lifecycle i) QUARANTINED_ENTRY_LIFECYCLE (li_symbol i) None (Some (li_intent_id i)).

Lemma intent_reports : reports intent_step intent_items.
Proof. intros f i. unfold intent_step, intent_items. by rewrite !disc_report_if, app_assoc. Qed.

Lemma intent_step_ok f i : well_reported f -> well_reported (intent_step f i).
Proof. unfold intent_step. auto with pylib. Qed.

Section loops.
Context (snapshot : AuthoritativeAccountSnapshot) (ls : LocalStateView).
Context (refs : gmap string (gset string)).

Definition claimed_items (c : LocalPositionView) (p : ExchangePositionSnapshot) : list Discrepancy :=
  let pid := Some (lp_position_id c) in
  let key := Some (exchange_key p) in
  item (negb (String.eqb (lp_direction c) (xp_direction p))) DIRECTION_MISMATCH (xp_symbol p) pid key
  ++ item (quantity_mismatch ls c p) QUANTITY_MISMATCH (xp_symbol p) pid key
  ++ item (negb (lp_has_active_protection c)) MANAGED_POSITION_UNPROTECTED (xp_symbol p) pid None
  ++ item (lp_has_active_protection c && negb (bool_decide (missing_protection snapshot c = ∅)))
       PROTECTION_ORDER_MISSING_AT_EXCHANGE (xp_symbol p) pid None.

Definition exchange_items (p : ExchangePositionSnapshot) : list Discrepancy :=
  item (baseline_drift ls p) MANUAL_BASELINE_DRIFT (xp_symbol p) None (Some (exchange_key p))
  ++ match claim_of ls refs p with
     | None => item (negb (baseline_drift ls p) && negb (baseline_matches ls p))
                 EXTERNAL_POSITION_UNCLAIMABLE (xp_symbol p) None (Some (exchange_key p))
     | Some c => claimed_items c p
     end.

Lemma exchange_reports : reports (exchange_step snapshot ls refs) exchange_items.
Proof.
  intros f p. unfold exchange_step, exchange_items, claimed_items.
  destruct (claim_of ls refs p) as [c|].
  - rewrite !disc_report_if, disc_matched, disc_report_if, <- !app_assoc. done.
  - destruct (baseline_drift ls p) eqn:E1; cbn [negb andb item].
    + rewrite disc_report_if. by rewrite app_nil_r.
    + destruct (baseline_matches ls p); simpl; [by rewrite app_nil_r|done].
Qed.

Lemma exchange_step_ok f p : well_reported f -> well_reported (exchange_step snapshot ls refs f p).
Proof.
  intros H. unfold exchange_step. destruct (claim_of ls refs p) as [c|]; [auto 10 with pylib|].
  repeat case_bool; rewrite ?report_as_if; auto with pylib.
Qed.

Lemma local_step_ok f c : well_reported f -> well_reported (local_step f c).
Proof. unfold local_step. auto with pylib. Qed.

Definition order_items (o : ExchangeOrderSnapshot) : list Discrepancy :=
  match xo_client_order_id o with
  | None => item true UNKNOWN_ORDER_PRESENT (xo_symbol o) None (Some (xo_exchange_order_id o))
  | Some i => item (negb (bool_decide (i ∈ ls_known_client_order_ids ls)) && is_v2_client_order_id i)
                ORPHAN_V2_CLIENT_ORDER_AT_EXCHANGE (xo_symbol o) None (Some (xo_exchange_order_id o))
  end.

Lemma order_reports : reports (order_step ls) order_items.
Proof.
  intros f o. unfold order_step, order_items. destruct (xo_client_order_id o) as [i|].
  - destruct (bool_decide _); simpl; [by rewrite app_nil_r|apply disc_report_if].
  - done.
Qed.

Lemma order_step_ok f o : well_reported f -> well_reported (order_step ls f o).
Proof.
  intros H. unfold order_step. destruct (xo_client_order_id o); rewrite ?report_as_if; [case_bool|]; auto with pylib.
Qed.

(** The matched ids are those of the claimed exchange positions. *)
Lemma exchange_matched l f x :
  x ∈ f_matched (foldl (exchange_step snapshot ls refs) f l) <->
  x ∈ f_matched f \/ exists p c, p ∈ l /\ claim_of ls refs p = Some c /\ lp_position_id c = x.
Proof.
  assert (forall b code s pid ref rec f, f_matched (report_if b code s pid ref rec f) = f_matched f) as Hm
    by (intros [] *; done).
  revert f; induction l as [|p l IH]; intros f; simpl.
  - split; [auto|]. intros [?|(p & c & Hp & _)]; [done|]. by apply elem_of_nil in Hp.
  - rewrite IH. unfold exchange_step. destruct (claim_of ls refs p) as [c|] eqn:E.
    + rewrite !Hm. cbn [matched f_matched]. rewrite Hm, elem_of_union, elem_of_singleton.
      setoid_rewrite elem_of_cons. naive_solver.
    + assert (f_matched (if baseline_drift ls p
          then report_if (baseline_drift ls p) MANUAL_BASELINE_DRIFT (xp_symbol p) None (Some (exchange_key p)) [] f
          else if baseline_matches ls p
            then report_if (baseline_drift ls p) MANUAL_BASELINE_DRIFT (xp_symbol p) None (Some (exchange_key p)) [] f
            else quarantine (exchange_key p) (report EXTERNAL_POSITION_UNCLAIMABLE (xp_symbol p) None
              (Some (exchange_key p)) [] (report_if (baseline_drift ls p) MANUAL_BASELINE_DRIFT (xp_symbol p) None
              (Some (exchange_key p)) [] f))) = f_matched f) as ->.
      { repeat case_bool; simpl; rewrite ?Hm; reflexivity. }
      setoid_rewrite elem_of_cons. naive_solver.
Qed.

Definition local_items (m : gset string) (c : LocalPositionView) : list Discrepancy :=
  item (local_open c && negb (bool_decide (lp_position_id c ∈ m)))
    LOCAL_POSITION_MISSING_AT_EXCHANGE (lp_symbol c) (Some (lp_position_id c)) None.

Lemma local_fold l f :
  f_discrepancies (foldl local_step f l) = f_discrepancies f ++ concat (map (local_items (f_matched f)) l) /\
  f_matched (foldl local_step f l) = f_matched f.
Proof.
  revert f; induction l as [|c l IH]; intros f; simpl; [by rewrite app_nil_r|].
  destruct (IH (local_step f c)) as [-> ->].
  assert (f_matched (local_step f c) = f_matched f) as -> by (unfold local_step; by case_bool || by destruct (_ && _)).
  unfold local_step. by rewrite disc_report_if, <- app_assoc.
Qed.
End loops.

(** ** Captured baselines *)

Definition baseline_items (snapshot : AuthoritativeAccountSnapshot) (kb : string * Dec) : list Discrepancy :=
  match rsplit_colon kb.1 with
  | Some s => item (negb (bool_decide (kb.1 ∈ exchange_position_keys snapshot))) MANUAL_BASELINE_DRIFT s
                None (Some kb.1)
  | None => []
  end.

Lemma baseline_step_raise snapshot e l : foldl (baseline_step snapshot) (Raise e) l = Raise e.
Proof. induction l; simpl; auto. Qed.

Lemma baseline_fold snapshot l f f' :
  foldl (baseline_step snapshot) (Ok f) l = Ok f' ->
  f_discrepancies f' = f_discrepancies f ++ concat (map (baseline_items snapshot) l) /\
  (well_reported f -> well_reported f') /\
  (forall kb, kb ∈ l -> kb.1 ∈ exchange_position_keys snapshot \/ is_Some (rsplit_colon kb.1)).
Proof.
  revert f. induction l as [|kb l IH]; intros f H; simpl in *.
  - injection H as ->. rewrite app_nil_r. split; [done|]. split; [done|]. intros kb Hk. by apply elem_of_nil in Hk.
  - unfold baseline_items at 1. destruct (decide (kb.1 ∈ exchange_position_keys snapshot)) as [Hin|Hin].
    + rewrite bool_decide_true in H |- * by done. destruct (IH _ H) as (A & B & C).
      split; [rewrite A; by destruct (rsplit_colon kb.1)|]. split; [done|].
      intros kb' [->|?]%elem_of_cons; auto.
    + rewrite bool_decide_false in H |- * by done. destruct (rsplit_colon kb.1) as [s|] eqn:E.
      * destruct (IH _ H) as (A & B & C). split; [rewrite A; simpl; by rewrite <- app_assoc|].
        split; [intros Hw; apply B; rewrite report_as_if; auto with pylib|].
        intros kb' [->|?]%elem_of_cons; [right; rewrite E; eauto|auto].
      * by rewrite baseline_step_raise in H.
Qed.

Lemma baseline_fold_ok snapshot l f :
  (forall kb, kb ∈ l -> is_Some (rsplit_colon kb.1)) -> exists f', foldl (baseline_step snapshot) (Ok f) l = Ok f'.
Proof.
  revert f. induction l as [|kb l IH]; intros f H; [by eexists|]. simpl.
  destruct (H kb ltac:(by left)) as [s Hs]. rewrite Hs.
  assert (forall kb, kb ∈ l -> is_Some (rsplit_colon kb.1)) as H' by (intros; apply H; by right).
  case_bool; by apply IH.
Qed.

(** ** The specification *)

(** What the loops check, in their own terms. *)
Record checked (snapshot : AuthoritativeAccountSnapshot) (ls : LocalStateView)
    (refs : gmap string (gset string)) : Prop := {
  (** no confirmed entry fill lacks a lifecycle, and no lifecycle is quarantined *)
  ck_intents : forall i, i ∈ ls_intents ls ->
    li_has_confirmed_entry_fill i = false /\ li_has_quarantined_lifecycle i = false;
  (** every exchange position is claimed by identity and agrees with its local
      projection, protection included, or is exactly a captured baseline *)
  ck_exchange : forall p, p ∈ as_positions snapshot ->
    baseline_drift ls p = false /\
    match claim_of ls refs p with
    | Some c => lp_direction c = xp_direction p /\ quantity_mismatch ls c p = false /\
                lp_has_active_protection c = true /\
                lp_protection_exchange_order_ids c ⊆ exchange_order_ids snapshot
    | None => baseline_matches ls p = true
    end;
  (** every open local position is claimed by an exchange position *)
  ck_local : forall c, c ∈ ls_positions ls -> local_open c = true ->
    exists p c', p ∈ as_positions snapshot /\ claim_of ls refs p = Some c' /\ lp_position_id c' = lp_position_id c;
  (** every captured baseline is still on the exchange *)
  ck_baseline : forall kb, kb ∈ ls_external_baseline ls -> kb.1 ∈ exchange_position_keys snapshot;
  (** every exchange order is known locally or is visibly not ours *)
  ck_orders : forall o, o ∈ as_pending_orders snapshot -> exists i, xo_client_order_id o = Some i /\
    (i ∈ ls_known_client_order_ids ls \/ is_v2_client_order_id i = false) }.

Section spec.
Context (snapshot : AuthoritativeAccountSnapshot) (ls : LocalStateView) (refs : gmap string (gset string)).

(** The exchange position carries an identity of this local position. *)
Definition same_identity (c : LocalPositionView) (p : ExchangePositionSnapshot) : Prop :=
  exists key_refs k, refs !! (xp_symbol p +:+ ":" +:+ xp_direction p)%string = Some key_refs /\ k ∈ key_refs /\ k ∈ lp_claim_keys c.
(** The owner of an exchange position: the first local position with an identity of it. *)
Definition owner (p : ExchangePositionSnapshot) (c : LocalPositionView) : Prop :=
  exists before after, ls_positions ls = before ++ c :: after /\ same_identity c p /\
    forall c', c' ∈ before -> ~ same_identity c' p.
Definition ownerless (p : ExchangePositionSnapshot) : Prop := forall c, c ∈ ls_positions ls -> ~ same_identity c p.
(** The quantity that the operator's baseline captured of it. *)
Definition captured (p : ExchangePositionSnapshot) : option Dec :=
  dict_get (ls_external_baseline ls) (xp_symbol p +:+ ":" +:+ xp_direction p)%string.

(** Exchange and local projection explain each other. *)
Record consistent : Prop := {
  (** no confirmed entry fill lacks a lifecycle, and no lifecycle is quarantined *)
  co_intents : forall i, i ∈ ls_intents ls ->
    li_has_confirmed_entry_fill i = false /\ li_has_quarantined_lifecycle i = false;
  (** no exchange position is smaller than its baseline, by more than 10^-8 *)
  co_drift : forall p b, p ∈ as_positions snapshot -> captured p = Some b ->
    (dval b <= dval (xp_quantity p + mkDec 1 (-8))%D)%Q;
  (** an owned exchange position agrees with its owner on the direction and, with the
      baseline and up to 10^-8, on the quantity; its protection is active, and its
      protection orders are on the exchange *)
  co_owned : forall p c, p ∈ as_positions snapshot -> owner p c ->
    lp_direction c = xp_direction p /\
    (dval (dabs (lp_quantity c + default dzero (captured p) - xp_quantity p))%D <= 1 # 100000000)%Q /\
    lp_has_active_protection c = true /\
    forall id, id ∈ lp_protection_exchange_order_ids c -> exists o, o ∈ as_pending_orders snapshot /\ xo_exchange_order_id o = id;
  (** any other exchange position is its baseline, up to 10^-8 *)
  co_ownerless : forall p, p ∈ as_positions snapshot -> ownerless p ->
    exists b, captured p = Some b /\ (dval (dabs (xp_quantity p - b))%D <= 1 # 100000000)%Q;
  (** every local position that is neither closed nor quarantined owns one *)
  co_local : forall c, c ∈ ls_positions ls -> lp_state c <> CLOSED -> lp_state c <> QUARANTINED ->
    exists p c', p ∈ as_positions snapshot /\ owner p c' /\ lp_position_id c' = lp_position_id c;
  (** every captured baseline is still on the exchange *)
  co_baseline : forall key b, (key, b) ∈ ls_external_baseline ls ->
    exists p, p ∈ as_positions snapshot /\ key = (xp_symbol p +:+ ":" +:+ xp_direction p)%string;
  (** every exchange order is known locally or is visibly not ours *)
  co_orders : forall o, o ∈ as_pending_orders snapshot -> exists i, xo_client_order_id o = Some i /\
    (i ∈ ls_known_client_order_ids ls \/ is_v2_client_order_id i = false) }.

Lemma shares_iff c p : shares_identity (refs_of refs (exchange_key p)) c = true <-> same_identity c p.
Proof.
  unfold shares_identity, same_identity, refs_of, exchange_key, position_key. rewrite negb_true_iff, bool_decide_eq_false. split.
  - intros [k Hk]%set_choose_L. apply elem_of_intersection in Hk as [H1 H2]. destruct (refs !! _) as [r|]; [|set_solver].
    by exists r, k.
  - intros (r & k & Hr & Hk & Hc). rewrite Hr. set_solver.
Qed.
Lemma unshared_iff c p : shares_identity (refs_of refs (exchange_key p)) c = false <-> ~ same_identity c p.
Proof. by rewrite <- shares_iff, not_true_iff_false. Qed.

Lemma find_first {X} (f : X -> bool) l c : List.find f l = Some c <->
  exists before after, l = before ++ c :: after /\ f c = true /\ forall c', c' ∈ before -> f c' = false.
Proof.
  split.
  - induction l as [|x l IH]; [done|]. simpl. destruct (f x) eqn:Ex.
    + intros [= ->]. exists [], l. split_and!; [done|done|by intros ? ?%elem_of_nil].
    + intros (b & a & -> & Hc & Hb)%IH. exists (x :: b), a. split_and!; [done|done|]. intros c' [->|Hin]%elem_of_cons; auto.
  - intros (b & a & -> & Hc & Hb). induction b as [|x b IH]; simpl; [by rewrite Hc|].
    rewrite (Hb x) by (by left). apply IH. intros c' Hin. apply Hb. by right.
Qed.

(** Without any reference nothing is claimed, which the search finds by itself. *)
Lemma claim_search p : claim_of ls refs p = List.find (shares_identity (refs_of refs (exchange_key p))) (ls_positions ls).
Proof.
  unfold claim_of, _claim_exchange_position. case_bool_decide as He; [|done]. rewrite He.
  induction (ls_positions ls) as [|c l IH]; [done|]. simpl. unfold shares_identity at 1.
  by rewrite bool_decide_eq_true_2 by set_solver.
Qed.
Lemma claim_some p c : claim_of ls refs p = Some c <-> owner p c.
Proof.
  rewrite claim_search, find_first. unfold owner. setoid_rewrite shares_iff. setoid_rewrite unshared_iff. done.
Qed.
Lemma claim_none p : claim_of ls refs p = None <-> ownerless p.
Proof.
  rewrite claim_search. unfold ownerless. setoid_rewrite <- unshared_iff. split.
  - intros Hf c Hc. apply list_elem_of_In in Hc. exact (find_none _ _ Hf c Hc).
  - intros Hn. destruct (List.find _ _) as [c|] eqn:E; [|done]. apply List.find_some in E as [Hc%list_elem_of_In E].
    by rewrite (Hn c Hc) in E.
Qed.

Lemma drift_iff p : baseline_drift ls p = false <->
  forall b, captured p = Some b -> (dval b <= dval (xp_quantity p + mkDec 1 (-8))%D)%Q.
Proof.
  unfold baseline_drift, baseline_of, captured, QUANTITY_TOLERANCE, exchange_key, position_key.
  destruct (dict_get _ _) as [b|]; [|done]. rewrite dltb_false. split; [by intros Hb b' [= <-]|by intros Hb; apply Hb].
Qed.
Lemma mismatch_iff c p : quantity_mismatch ls c p = false <->
  (dval (dabs (lp_quantity c + default dzero (captured p) - xp_quantity p))%D <= 1 # 100000000)%Q.
Proof. unfold quantity_mismatch. apply dltb_false. Qed.
Lemma matches_iff p : baseline_matches ls p = true <->
  exists b, captured p = Some b /\ (dval (dabs (xp_quantity p - b))%D <= 1 # 100000000)%Q.
Proof.
  unfold baseline_matches, baseline_of, captured, exchange_key, position_key. destruct (dict_get _ _) as [b|].
  - unfold QUANTITY_TOLERANCE. rewrite dleb_spec. split; [intros Hb; by exists b|by intros (b' & [= <-] & Hb)].
  - split; [done|by intros (b & ? & _)].
Qed.

Lemma local_open_iff c : local_open c = true <-> lp_state c <> CLOSED /\ lp_state c <> QUARANTINED.
Proof.
  unfold local_open. rewrite negb_true_iff, bool_decide_eq_false, not_elem_of_cons, not_elem_of_cons.
  split; [by intros (? & ? & _)|intros [? ?]; split_and!; [done|done|apply not_elem_of_nil]].
Qed.
Lemma protection_iff c : lp_protection_exchange_order_ids c ⊆ exchange_order_ids snapshot <->
  forall id, id ∈ lp_protection_exchange_order_ids c -> exists o, o ∈ as_pending_orders snapshot /\ xo_exchange_order_id o = id.
Proof.
  unfold exchange_order_ids. split; intros Hs id Hid.
  - apply Hs, elem_of_list_to_set, list_elem_of_fmap in Hid as (o & -> & Ho). by exists o.
  - destruct (Hs id Hid) as (o & Ho & <-). by apply elem_of_list_to_set, list_elem_of_fmap_2.
Qed.
Lemma keys_iff key : key ∈ exchange_position_keys snapshot <->
  exists p, p ∈ as_positions snapshot /\ key = (xp_symbol p +:+ ":" +:+ xp_direction p)%string.
Proof. unfold exchange_position_keys. rewrite list_elem_of_fmap. naive_solver. Qed.

Lemma checked_iff : checked snapshot ls refs <-> consistent.
Proof.
  split.
  - intros [Hi He Hl Hb Ho]. split; [done| | | | | |done].
    + intros p b Hp. destruct (He p Hp) as [Hd _]. by apply drift_iff.
    + intros p c Hp Hc%claim_some. destruct (He p Hp) as [_ H]. rewrite Hc in H. by rewrite <- mismatch_iff, <- protection_iff.
    + intros p Hp Hn%claim_none. destruct (He p Hp) as [_ H]. rewrite Hn in H. by apply matches_iff.
    + intros c Hc H1 H2. destruct (Hl c Hc) as (p & c' & Hp & Hcl%claim_some & E); [by apply local_open_iff|by exists p, c'].
    + intros key b Hk. by apply keys_iff, (Hb (key, b)).
  - intros [Hi Hd He Hn Hl Hb Ho]. split; [done| | | |done].
    + intros p Hp. split; [apply drift_iff; intros b; by apply Hd|].
      destruct (claim_of ls refs p) as [c|] eqn:Ec.
      * apply claim_some in Ec. rewrite protection_iff, mismatch_iff. by apply He.
      * apply matches_iff, Hn; [done|by apply claim_none].
    + intros c Hc [H1 H2]%local_open_iff. destruct (Hl c Hc H1 H2) as (p & c' & Hp & Hcl%claim_some & E). by exists p, c'.
    + intros [key b] Hk. apply keys_iff. by apply (Hb key b).
Qed.
End spec.

Lemma concat_map_nil {A B} (f : A -> list B) l : concat (map f l) = [] <-> forall x, x ∈ l -> f x = [].
Proof.
  induction l as [|x l IH]; simpl.
  - split; [|done]. intros _ x Hx. by apply elem_of_nil in Hx.
  - rewrite app_nil, IH. setoid_rewrite elem_of_cons. naive_solver.
Qed.

Lemma item_nil b code s pid ref : item b code s pid ref = [] <-> b = false.
Proof. destruct b; simpl; naive_solver. Qed.

Lemma matched_intents l f : f_matched (foldl intent_step f l) = f_matched f.
Proof.
  revert f; induction l as [|i l IH]; intros f; simpl; [done|]. rewrite IH.
  unfold intent_step. by destruct (li_has_confirmed_entry_fill i), (li_has_quarantined_lifecycle i).
Qed.

(** The discrepancies of a completed pass, loop by loop. *)
Lemma find_discrepancies_shape snapshot ls refs f :
  find_discrepancies snapshot ls refs = Ok f ->
  exists m, (forall x, x ∈ m <-> exists p c, p ∈ as_positions snapshot /\ claim_of ls refs p = Some c /\
                                             lp_position_id c = x) /\
  f_discrepancies f =
    concat (map intent_items (ls_intents ls)) ++ concat (map (exchange_items snapshot ls refs) (as_positions snapshot))
    ++ concat (map (local_items m) (ls_positions ls)) ++ concat (map (baseline_items snapshot) (ls_external_baseline ls))
    ++ concat (map (order_items ls) (as_pending_orders snapshot)) /\
  well_reported f /\
  (forall kb, kb ∈ ls_external_baseline ls -> kb.1 ∈ exchange_position_keys snapshot \/ is_Some (rsplit_colon kb.1)).
Proof.
  unfold find_discrepancies. intros H. apply res_bind_ok in H as (g & Hg & H). injection H as <-.
  apply baseline_fold in Hg as (Hd & Hw & Hk).
  unfold after_positions in *. set (f0 := foldl intent_step no_findings (ls_intents ls)) in *.
  set (f1 := foldl (exchange_step snapshot ls refs) f0 (as_positions snapshot)) in *.
  exists (f_matched f1). split.
  { intros x. unfold f1. rewrite exchange_matched. unfold f0. rewrite matched_intents. simpl. set_solver. }
  split; [|split; [|done]].
  - rewrite (fold_reports _ _ _ _ (order_reports ls)), Hd.
    rewrite (proj1 (local_fold (ls_positions ls) f1)). unfold f1 at 1.
    rewrite (fold_reports _ _ _ _ (exchange_reports snapshot ls refs)). unfold f0.
    rewrite (fold_reports _ _ _ _ intent_reports). simpl. by rewrite <- !app_assoc.
  - apply well_reported_fold; [intros; by apply order_step_ok|]. apply Hw.
    apply well_reported_fold; [intros; by apply local_step_ok|].
    apply well_reported_fold; [intros; by apply exchange_step_ok|].
    apply well_reported_fold; [intros; by apply intent_step_ok|]. apply well_reported_empty.
Qed.

Lemma exchange_items_nil snapshot ls refs p :
  exchange_items snapshot ls refs p = [] <->
  baseline_drift ls p = false /\
  match claim_of ls refs p with
  | Some c => lp_direction c = xp_direction p /\ quantity_mismatch ls c p = false /\
              lp_has_active_protection c = true /\
              lp_protection_exchange_order_ids c ⊆ exchange_order_ids snapshot
  | None => baseline_matches ls p = true
  end.
Proof.
  unfold exchange_items. rewrite app_nil, item_nil. destruct (claim_of ls refs p) as [c|].
  - unfold claimed_items. rewrite !app_nil, !item_nil, !negb_false_iff, String.eqb_eq, andb_false_iff,
      negb_false_iff, bool_decide_eq_true.
    assert (missing_protection snapshot c = ∅ <-> lp_protection_exchange_order_ids c ⊆ exchange_order_ids snapshot)
      as ->
      by (unfold missing_protection; split; [apply empty_difference_subseteq_L|apply subseteq_empty_difference_L]).
    split; [intros (? & ? & ? & ? & [?|?]); congruence || auto|naive_solver].
  - rewrite item_nil, andb_false_iff, !negb_false_iff. split; [intros [? [?|?]]; congruence || auto|naive_solver].
Qed.

Lemma no_discrepancies_iff snapshot ls refs f :
  find_discrepancies snapshot ls refs = Ok f -> f_discrepancies f = [] <-> consistent snapshot ls refs.
Proof.
  intros H. rewrite <- checked_iff. apply find_discrepancies_shape in H as (m & Hm & -> & _ & Hk).
  rewrite !app_nil, !concat_map_nil. split.
  - intros (Hi & He & Hl & Hb & Ho). constructor.
    + intros i Hin. specialize (Hi i Hin). unfold intent_items in Hi. by rewrite app_nil, !item_nil in Hi.
    + intros p Hp. by apply exchange_items_nil, He.
    + intros c Hc Hop. specialize (Hl c Hc). unfold local_items in Hl. rewrite item_nil, Hop in Hl. simpl in Hl.
      apply negb_false_iff, bool_decide_eq_true, Hm in Hl as (p & c' & ? & ? & ?). eauto.
    + intros kb Hin. specialize (Hb kb Hin). unfold baseline_items in Hb.
      destruct (Hk kb Hin) as [|[s Hs]]; [done|]. rewrite Hs, item_nil in Hb.
      by apply negb_false_iff, bool_decide_eq_true in Hb.
    + intros o Hin. specialize (Ho o Hin). unfold order_items in Ho.
      destruct (xo_client_order_id o) as [i|]; [|done]. exists i. split; [done|].
      rewrite item_nil, andb_false_iff, negb_false_iff, bool_decide_eq_true in Ho. done.
  - intros [Hi He Hl Hb Ho]. split_and!.
    + intros i Hin. unfold intent_items. by rewrite app_nil, !item_nil; apply Hi.
    + intros p Hp. by apply exchange_items_nil, He.
    + intros c Hc. unfold local_items. rewrite item_nil, andb_false_iff, negb_false_iff, bool_decide_eq_true.
      destruct (local_open c) eqn:E; [right|by left]. apply Hm. destruct (Hl c Hc E) as (p & c' & ? & ? & ?). eauto.
    + intros kb Hin. unfold baseline_items. destruct (rsplit_colon kb.1); [|done].
      rewrite bool_decide_true by auto. done.
    + intros o Hin. unfold order_items. destruct (Ho o Hin) as (i & -> & Hi').
      rewrite item_nil, andb_false_iff, negb_false_iff, bool_decide_eq_true. done.
Qed.

(** ** Properties *)

Lemma resolve_status_healthy l : _resolve_status l = HEALTHY <-> l = [].
Proof. unfold _resolve_status. destruct l; simpl; [done|]. split; [|done]. by repeat case_bool. Qed.

Lemma resolve_status_recovery l :
  _resolve_status l = RECOVERY_REQUIRED <-> exists d, d ∈ l /\ d_code d ∈ _RECOVERY_CODES.
Proof.
  assert (existsb is_recovery_code l = true <-> exists d, d ∈ l /\ d_code d ∈ _RECOVERY_CODES) as <-.
  { rewrite existsb_exists. unfold is_recovery_code. setoid_rewrite bool_decide_eq_true.
    by setoid_rewrite list_elem_of_In. }
  unfold _resolve_status. destruct l as [|d l]; [simpl; split; discriminate|]. cbn [is_nonempty negb].
  destruct (existsb _ _); split; congruence.
Qed.

Lemma reconcile_some snapshot ls u t refs r :
  reconcile (Some snapshot) ls u t refs = Ok r ->
  exists f, find_discrepancies snapshot ls refs = Ok f /\ rc_discrepancies r = f_discrepancies f /\
    rc_entry_blocked_symbols r = f_blocked f /\ rc_status r = _resolve_status (f_discrepancies f).
Proof.
  unfold reconcile. intros H. apply res_bind_ok in H as (f & Hf & H). injection H as <-. eauto.
Qed.


(** Fail-closed gating: entry in a symbol is refused exactly when the exchange
    truth is unavailable, when some discrepancy anywhere requires recovery, or
    when some discrepancy names that very symbol; reduce-only exits never are. *)
Theorem entry_refused_iff o ls u t refs r s :
  reconcile o ls u t refs = Ok r ->
  (entry_allowed_for r s = false <->
   o = None \/ (exists d, d ∈ rc_discrepancies r /\ d_code d ∈ _RECOVERY_CODES) \/
   (exists d, d ∈ rc_discrepancies r /\ d_symbol d = Some s)) /\
  reduce_only_exit_allowed r = true.
Proof.
  intros H. split; [|done]. destruct o as [snapshot|].
  - apply reconcile_some in H as (f & Hf & Hd & Hb & Hs).
    apply find_discrepancies_shape in Hf as (m & _ & _ & [Hw1 Hw2] & _).
    unfold entry_allowed_for. rewrite Hd, Hb, Hs.
    pose proof (resolve_status_recovery (f_discrepancies f)) as Hr.
    assert (_resolve_status (f_discrepancies f) <> UNAVAILABLE) as Hu
      by (unfold _resolve_status; by repeat case_bool).
    assert (s ∈ f_blocked f <-> exists d, d ∈ f_discrepancies f /\ d_symbol d = Some s) as Hbs.
    { split; [apply Hw2|]. intros (d & Hin & E). destruct (Hw1 d Hin) as (s' & E' & ?). by simplify_eq. }
    rewrite <- Hr, <- Hbs. case_bool_decide as Hc.
    + split; [|done]. intros _. right. left. set_solver.
    + rewrite bool_decide_eq_false. split.
      * intros Hn. right. right. by destruct (decide (s ∈ f_blocked f)).
      * intros [?|[Hx|?]]; [done|exfalso; apply Hc; rewrite Hx; set_solver|by intros ?].
  - simpl in H. injection H as <-. unfold entry_allowed_for. simpl. split; [by left|done].
Qed.

(** Reconciliation never fails on the data of positions, orders or intents: it
    returns a result whenever every captured baseline key contains a colon. *)
Theorem reconcile_total o ls u t refs :
  (forall kb, kb ∈ ls_external_baseline ls -> is_Some (rsplit_colon kb.1)) ->
  exists r, reconcile o ls u t refs = Ok r.
Proof.
  intros Hk. destruct o as [s|]; [|simpl; eauto]. unfold reconcile, find_discrepancies.
  destruct (baseline_fold_ok s (ls_external_baseline ls) (after_positions s ls refs) Hk) as [f ->].
  simpl. eauto.
Qed.

(** Ownership is identity-only: an exchange position is claimed by the first
    local position that shares one of its identity references, and by none when
    no local position shares any, whatever the symbols, sizes or prices. *)
Theorem claim_is_identity_only symbol direction l refs :
  match _claim_exchange_position symbol direction l refs with
  | Some c => exists before after, l = before ++ c :: after /\ (exists k, k ∈ lp_claim_keys c /\ k ∈ refs) /\
                forall c', c' ∈ before -> lp_claim_keys c' ## refs
  | None => forall c, c ∈ l -> lp_claim_keys c ## refs
  end.
Proof.
  assert (forall c, shares_identity refs c = false <-> lp_claim_keys c ## refs) as Hno.
  { intros c. unfold shares_identity. rewrite negb_false_iff, bool_decide_eq_true. set_solver. }
  unfold _claim_exchange_position. case_bool_decide as He; [subst; set_solver|].
  induction l as [|c l IH]; simpl; [intros c Hc; by apply elem_of_nil in Hc|].
  destruct (shares_identity refs c) eqn:E.
  - exists [], l. split; [done|]. split; [|intros c' Hc'; by apply elem_of_nil in Hc'].
    unfold shares_identity in E. apply negb_true_iff, bool_decide_eq_false in E.
    apply set_choose_L in E as [k Hk]. exists k. set_solver.
  - apply Hno in E. destruct (List.find _ l) as [c'|].
    + destruct IH as (b & a & -> & Hk & Hb). exists (c :: b), a. split; [done|]. split; [done|].
      intros c'' [->|?]%elem_of_cons; auto.
    + intros c' [->|?]%elem_of_cons; auto.
Qed.

Definition sample_position : ExchangePositionSnapshot :=
  mkExchangePosition "BTC/USDT" "long" (mkDec 5 (-3)) (dint 64000) (dint 64010) dzero (Some 3).
Definition sample_local : LocalPositionView :=
  mkLocalPosition "pos-1" "BTC/USDT" "long" (mkDec 5 (-3)) PROTECTED {["pos-1"; "987"]} true {["555"]} []
    (dint 64000) None None (Some "prot-1"%string) "P1" 1.
Definition sample_stop : ExchangeOrderSnapshot :=
  mkExchangeOrder "555" (Some "v2s-x"%string) "BTC/USDT" "sell" "stop_market" (mkDec 5 (-3)) (Some (dint 63000)) "new" true.
Definition sample_snapshot : AuthoritativeAccountSnapshot :=
  mkAccountSnapshot (dint 1000) (dint 1000) [sample_position] [sample_stop] 0.
Definition sample_local_state : LocalStateView :=
  mkLocalState [sample_local] [] {["v2s-x"]} [] ∅.
Definition sample_refs : gmap string (gset string) := {["BTC/USDT:long" := {["987"]}]}.


Lemma entry_refused_iff_witness :
  exists r, reconcile None sample_local_state None None sample_refs = Ok r /\ entry_allowed_for r "BTC/USDT" = false.
Proof.
  exists (unavailable "exchange snapshot unavailable" None). split; [reflexivity|].
  apply (proj2 (proj1 (entry_refused_iff None sample_local_state None None sample_refs
    (unavailable "exchange snapshot unavailable" None) "BTC/USDT" eq_refl))). by left.
Defined.

Lemma reconcile_total_witness :
  exists r, reconcile (Some sample_snapshot)
    (mkLocalState [] [] ∅ [("ETH/USDT:short"%string, dint 1)] ∅) None None sample_refs = Ok r.
Proof.
  apply (reconcile_total (Some sample_snapshot) (mkLocalState [] [] ∅ [("ETH/USDT:short"%string, dint 1)] ∅)).
  intros kb Hk. apply list_elem_of_singleton in Hk as ->. vm_compute. eauto.
Defined.

(** The symbol of a claimed position is not a consistency check: an exchange
    position in another symbol that carries the identity of a local position
    passes as HEALTHY, because both branches of the claim return the position. *)
Theorem claimed_symbol_mismatch_is_healthy :
  exists r, reconcile
    (Some (mkAccountSnapshot (dint 1000) (dint 1000)
       [mkExchangePosition "ETH/USDT" "long" (mkDec 5 (-3)) (dint 64000) (dint 64010) dzero None] [sample_stop] 0))
    sample_local_state None None {["ETH/USDT:long" := {["987"]}]} = Ok r /\
    rc_status r = HEALTHY /\ lp_symbol sample_local = "BTC/USDT"%string.
Proof. exists_ok. split; reflexivity. Qed.
