(* ===== verification/Entry.v ===== *)
(** * Entry: the entry gate and Exchange-First entry execution

    [application/entry_service.py].  [evaluate_entry] is the pure gate; a block
    is its reason code (the message is not modelled).  [execute_entry] runs
    against any exchange adapter, keeps the source's order of guards, and
    re-raises every exception its handlers do not name. *)
From S2P Require Import Prelude PyDecimal State Receipts ClientOrderId Candidates Funnel Adapter RuntimeLock Reconciliation Quantities.
From Stdlib Require Import QArith Lqa.
Local Open Scope Z_scope.

Definition MIN_DRIFT_CEILING_BPS : Dec := dint 20.
Definition ATR_DRIFT_FRACTION : Dec := mkDec 25 (-2).

Inductive EntryDecision := APPROVED | BLOCKED.

#[export] Instance EntryDecision_eq_dec : EqDecision EntryDecision.
Proof. solve_decision. Defined.

Record EntryGateResult := mkGateResult {
  eg_decision : EntryDecision; eg_reason_code : DecisionReasonCode; eg_blocks : list DecisionReasonCode;
  eg_drift_bps : option Dec; eg_drift_ceiling_bps : option Dec }.

Definition gate_approved (g : EntryGateResult) : bool := bool_decide (eg_decision g = APPROVED).

Record EntryRuntimeContext := mkRuntime {
  rt_engine_activation : EngineActivation; rt_execution_mode : V2ExecutionMode;
  rt_reconciliation_status : ReconciliationStatus; rt_entry_blocked_symbols : gset string;
  rt_entry_kill_switch_active : bool; rt_recovery_entry_blocked : bool;
  rt_open_position_symbols : gset string; rt_symbol_cooldown_active : bool;
  rt_daily_trade_limit_reached : bool; rt_manifest_eligible : bool;
  rt_net_edge_after_cost_bps : option Dec; rt_theoretical_net_payoff : option Dec;
  rt_risk_budget_available : bool; rt_ai_advisory_veto : bool; rt_now : option datetime }.

Definition drift_ceiling_bps (c : TradeCandidate) (m : PreSubmitMarketSnapshot) : Dec :=
  let atr_component :=
    if (dzero <? ms_atr m)%D && (dzero <? tc_signal_reference_price c)%D
    then dmul (dquot (dmul ATR_DRIFT_FRACTION (ms_atr m)) (tc_signal_reference_price c)) (dint 10000)
    else dzero in
  let ceiling := dmax MIN_DRIFT_CEILING_BPS atr_component in
  if (dzero <? tc_max_entry_drift_bps c)%D then dmin ceiling (tc_max_entry_drift_bps c) else ceiling.

(** [candidate.lane == SHADOW or candidate.candidate_type is RESEARCH]. *)
Definition shadow_only (c : TradeCandidate) : bool :=
  is_lane (tc_lane c) SHADOW_LANE || is_type (tc_candidate_type c) RESEARCH.

Definition block_if (b : bool) (r : DecisionReasonCode) : list DecisionReasonCode := if b then [r] else [].

(** The checks before the price drift, in the order of the appends. *)
Definition static_blocks (c : TradeCandidate) (r : EntryRuntimeContext) : list DecisionReasonCode :=
  block_if (shadow_only c) RC_SHADOW_MODE_NO_SUBMIT
  ++ block_if (bool_decide (rt_engine_activation r = DISABLED)) RC_SHADOW_MODE_NO_SUBMIT
  ++ block_if (rt_entry_kill_switch_active r) RC_ENTRY_KILL_SWITCH_ACTIVE
  ++ (match rt_reconciliation_status r with
      | UNAVAILABLE => [RC_RECONCILIATION_UNAVAILABLE]
      | RECOVERY_REQUIRED => [RC_RECOVERY_REQUIRED]
      | _ => []
      end)
  ++ block_if (rt_recovery_entry_blocked r) RC_RECOVERY_REQUIRED
  ++ block_if (bool_decide (tc_symbol c ∈ rt_entry_blocked_symbols r)) RC_UNMANAGED_EXTERNAL_POSITION
  ++ block_if (bool_decide (tc_symbol c ∈ rt_open_position_symbols r)) RC_POSITION_ALREADY_OPEN
  ++ block_if (rt_symbol_cooldown_active r) RC_SYMBOL_COOLDOWN_ACTIVE
  ++ block_if (rt_daily_trade_limit_reached r) RC_DAILY_TRADE_LIMIT_REACHED
  ++ block_if (negb (rt_manifest_eligible r)) RC_MANIFEST_NOT_ELIGIBLE
  ++ (match rt_net_edge_after_cost_bps r with
      | Some e => block_if (e <=? dzero)%D RC_NET_EDGE_AFTER_COST_NEGATIVE
      | None => []
      end)
  ++ (match rt_theoretical_net_payoff r with
      | Some p => block_if (p <? mkDec 115 (-2))%D RC_NO_TRADE_COST_INEFFICIENT
      | None => []
      end)
  ++ block_if (negb (rt_risk_budget_available r)) RC_RISK_LIMIT_EXCEEDED
  ++ block_if (rt_ai_advisory_veto r) RC_AI_ADVISORY_VETO
  ++ (match rt_now r with
      | Some now => block_if (is_expired c now) RC_CANDIDATE_EXPIRED
      | None => []
      end).

Definition evaluate_entry (c : TradeCandidate) (r : EntryRuntimeContext)
    (snapshot : option PreSubmitMarketSnapshot) : res EntryGateResult :=
  (match snapshot with
   | None => Ok (None, None, [])
   | Some m =>
       drift_bps_from c (ms_current_price m) ≫= fun drift =>
       let ceiling := drift_ceiling_bps c m in
       Ok (Some drift, Some ceiling, block_if (ceiling <? drift)%D RC_PRICE_DRIFT_EXCEEDED)
   end) ≫= fun '(drift, ceiling, drift_blocks) =>
  let blocks := static_blocks c r ++ drift_blocks in
  match blocks with
  | b :: _ => Ok (mkGateResult BLOCKED b blocks drift ceiling)
  | [] => Ok (mkGateResult APPROVED RC_OK [] drift ceiling)
  end.

(** ** Execution *)

Inductive EntryExecutionStatus :=
  | NOT_ATTEMPTED | SHADOW_REHEARSED | ENTRY_FILLED | PARTIALLY_FILLED | ACKNOWLEDGED_UNFILLED
  | ENTRY_REJECTED | UNKNOWN.

#[export] Instance EntryExecutionStatus_eq_dec : EqDecision EntryExecutionStatus.
Proof. solve_decision. Defined.

Record EntryExecutionResult := mkEntryResult {
  ex_status : EntryExecutionStatus; ex_intent_state : V2IntentState; ex_client_order_id : string;
  ex_reason_code : DecisionReasonCode; ex_exchange_order_id : option string; ex_trade_ids : list string;
  ex_filled_quantity : Dec; ex_average_fill_price : option Dec; ex_total_fee : Dec;
  ex_fill_timestamp : option datetime; ex_fill_source : string; ex_requested_quantity : Dec;
  ex_guard_exchange_order_id : option string; ex_guard_client_order_id : option string }.

Definition position_projectable (r : EntryExecutionResult) : bool :=
  bool_decide (ex_status r ∈ [ENTRY_FILLED; PARTIALLY_FILLED])
  && ostr_truthy (ex_exchange_order_id r)
  && (is_nonempty (ex_trade_ids r) || String.eqb (ex_fill_source r) BINANCE_ORDER_STATUS_RECOVERY)
  && (dzero <? ex_filled_quantity r)%D
  && match ex_average_fill_price r with Some p => (dzero <? p)%D | None => false end.

Definition requires_client_order_id_recovery (r : EntryExecutionResult) : bool :=
  bool_decide (ex_status r = UNKNOWN).

(** A result without fill data. *)
Definition entry_result (status : EntryExecutionStatus) (state : V2IntentState) (cid : string)
    (reason : DecisionReasonCode) (oid : option string) (requested : Dec) : EntryExecutionResult :=
  mkEntryResult status state cid reason oid [] dzero None dzero None BINANCE_USER_TRADE requested None None.

Definition round_quantity_to_step (quantity step_size : Dec) : res Dec := floor_to_step quantity step_size.

Definition order_side (c : TradeCandidate) : string := if String.eqb (tc_side c) "LONG" then "buy" else "sell".
Definition unwind_side (c : TradeCandidate) : string := if String.eqb (tc_side c) "LONG" then "sell" else "buy".

Local Open Scope py_scope.

(** The post-fill margin test; the division by the leverage may raise. *)
Definition margin_exceeded (enforce : bool) (margin_equity max_margin_fraction : option Dec)
    (leverage : Z) (filled_quantity vwap : Dec) : res bool :=
  match margin_equity, max_margin_fraction with
  | Some equity, Some fraction =>
      if enforce && (dzero <? equity)%D
      then ddiv (dmul filled_quantity vwap) (dint leverage) ≫= fun margin =>
           Ok (dmul equity fraction <? margin)%D
      else Ok false
  | _, _ => Ok false
  end.

Definition execute_entry {W} `{ExchangeAdapter W} (candidate : TradeCandidate)
    (gate_result : EntryGateResult) (snapshot : PreSubmitMarketSnapshot) (intent_id : string)
    (quantity : Dec) (leverage : Z) (engine_activation : EngineActivation)
    (margin_equity max_margin_fraction : option Dec) (enforce_margin_ceiling : bool) :
    SM W EntryExecutionResult :=
  let! client_order_id := slift (entry_client_order_id intent_id 1) in
  if shadow_only candidate then
    sret (entry_result NOT_ATTEMPTED INTENT_CREATED client_order_id RC_SHADOW_MODE_NO_SUBMIT None quantity)
  else if negb (gate_approved gate_result) then
    sret (entry_result NOT_ATTEMPTED INTENT_CREATED client_order_id (eg_reason_code gate_result) None quantity)
  else
  let! normalized_quantity := slift (round_quantity_to_step quantity (ms_step_size snapshot)) in
  if (normalized_quantity <=? dzero)%D then
    sret (entry_result NOT_ATTEMPTED INTENT_CREATED client_order_id RC_RISK_LIMIT_EXCEEDED None quantity)
  else if (dmul normalized_quantity (ms_current_price snapshot) <? ms_min_notional snapshot)%D then
    sret (entry_result NOT_ATTEMPTED INTENT_CREATED client_order_id RC_RISK_LIMIT_EXCEEDED None normalized_quantity)
  else if negb (bool_decide (engine_activation = ACTIVE)) then
    sret (entry_result SHADOW_REHEARSED INTENT_CREATED client_order_id RC_SHADOW_MODE_NO_SUBMIT None normalized_quantity)
  else
  let command := mkSubmitEntry intent_id normalized_quantity leverage client_order_id in
  stry_else (submit_market_order command (tc_symbol candidate) (order_side candidate))
    (fun e => match e with
     | ExchangeTimeout =>
         Some (sret (entry_result UNKNOWN EXCHANGE_UNKNOWN client_order_id RC_EXCHANGE_UNKNOWN None normalized_quantity))
     | BinanceAdapterUnavailable =>
         Some (sret (entry_result ENTRY_REJECTED REJECTED client_order_id RC_EXCHANGE_UNAVAILABLE None normalized_quantity))
     | _ => None
     end)
    (fun receipt =>
  stry_else (fetch_fills (tc_symbol candidate) (or_exchange_order_id receipt))
    (fun e => match e with
     | BinanceAdapterUnavailable | ExchangeTimeout =>
         Some (sret (entry_result ACKNOWLEDGED_UNFILLED EXCHANGE_ACKNOWLEDGED client_order_id RC_EXCHANGE_UNKNOWN
                       (Some (or_exchange_order_id receipt)) normalized_quantity))
     | _ => None
     end)
    (fun fills =>
  let '(filled_quantity, vwap, total_fee, trade_ids, fill_timestamp) := _aggregate_fills fills in
  match negb (is_nonempty trade_ids) || (filled_quantity <=? dzero)%D, vwap with
  | false, Some vwap =>
      let! exceeded := slift (margin_exceeded enforce_margin_ceiling margin_equity max_margin_fraction
                                leverage filled_quantity vwap) in
      if exceeded then
        let guard_position_id := ("margin-guard:" +:+ intent_id)%string in
        let! guard_client_order_id := slift (exit_client_order_id guard_position_id 1) in
        let! guard_exchange_order_id :=
          stry (let! r := submit_reduce_only_exit
                  (mkSubmitReduce guard_position_id "CANARY_MARGIN_CEILING" filled_quantity
                     guard_client_order_id true)
                  (tc_symbol candidate) (unwind_side candidate) in
                sret (Some (or_exchange_order_id r)))
               (fun _ => Some (sret None)) in
        sret (mkEntryResult ENTRY_REJECTED REJECTED client_order_id RC_RISK_LIMIT_EXCEEDED
                (Some (or_exchange_order_id receipt)) trade_ids filled_quantity (Some vwap) total_fee
                fill_timestamp BINANCE_USER_TRADE normalized_quantity guard_exchange_order_id
                (Some guard_client_order_id))
      else
        sret (mkEntryResult (if (filled_quantity <? normalized_quantity)%D then PARTIALLY_FILLED else ENTRY_FILLED)
                FILLED client_order_id RC_OK (Some (or_exchange_order_id receipt)) trade_ids filled_quantity
                (Some vwap) total_fee fill_timestamp BINANCE_USER_TRADE normalized_quantity None None)
  | _, _ =>
      sret (entry_result ACKNOWLEDGED_UNFILLED EXCHANGE_ACKNOWLEDGED client_order_id RC_OK
              (Some (or_exchange_order_id receipt)) normalized_quantity)
  end)).

(** ** The gate *)

(** When opening risk is permitted, as one condition per concern. *)
Record entry_permitted (c : TradeCandidate) (r : EntryRuntimeContext)
    (snapshot : option PreSubmitMarketSnapshot) : Prop := {
  ep_executable : tc_lane c <> Some SHADOW_LANE /\ tc_candidate_type c <> RESEARCH;
  ep_engine : rt_engine_activation r <> DISABLED;
  ep_kill_switch : rt_entry_kill_switch_active r = false;
  ep_reconciled : rt_reconciliation_status r = HEALTHY \/ rt_reconciliation_status r = DEGRADED;
  ep_recovered : rt_recovery_entry_blocked r = false;
  ep_symbol : tc_symbol c ∉ rt_entry_blocked_symbols r /\ tc_symbol c ∉ rt_open_position_symbols r;
  ep_throttle : rt_symbol_cooldown_active r = false /\ rt_daily_trade_limit_reached r = false;
  ep_manifest : rt_manifest_eligible r = true;
  ep_edge : forall e, rt_net_edge_after_cost_bps r = Some e -> (0 < dval e)%Q;
  ep_payoff : forall p, rt_theoretical_net_payoff r = Some p -> (115 # 100 <= dval p)%Q;
  ep_risk : rt_risk_budget_available r = true;
  ep_ai : rt_ai_advisory_veto r = false;
  ep_fresh : forall now, rt_now r = Some now -> now < tc_expires_at c;
  ep_drift : forall m d, snapshot = Some m -> drift_bps_from c (ms_current_price m) = Ok d ->
    (dval d <= dval (drift_ceiling_bps c m))%Q }.

Lemma block_if_nil b r : block_if b r = [] <-> b = false.
Proof. destruct b; simpl; naive_solver. Qed.

Lemma shadow_only_false c : shadow_only c = false <-> tc_lane c <> Some SHADOW_LANE /\ tc_candidate_type c <> RESEARCH.
Proof. unfold shadow_only, is_lane, is_type. by rewrite orb_false_iff, !bool_decide_eq_false. Qed.

Lemma opt_block_nil {A} (o : option A) (b : A -> bool) r :
  match o with Some x => block_if (b x) r | None => [] end = [] <-> forall x, o = Some x -> b x = false.
Proof. destruct o; [rewrite block_if_nil|]; naive_solver. Qed.

Lemma static_blocks_nil c r snapshot :
  (forall m d, snapshot = Some m -> drift_bps_from c (ms_current_price m) = Ok d ->
     (dval d <= dval (drift_ceiling_bps c m))%Q) ->
  static_blocks c r = [] <-> entry_permitted c r snapshot.
Proof.
  intros Hd. unfold static_blocks.
  rewrite !app_nil, !opt_block_nil, !block_if_nil, shadow_only_false, !negb_false_iff, !bool_decide_eq_false.
  setoid_rewrite dleb_false. setoid_rewrite dltb_false. unfold is_expired. setoid_rewrite Z.leb_gt.
  assert ((match rt_reconciliation_status r with
           | UNAVAILABLE => [RC_RECONCILIATION_UNAVAILABLE] | RECOVERY_REQUIRED => [RC_RECOVERY_REQUIRED]
           | _ => [] end) = [] <-> rt_reconciliation_status r = HEALTHY \/ rt_reconciliation_status r = DEGRADED) as ->
    by (destruct (rt_reconciliation_status r); naive_solver).
  pose proof (dval_zero 0) as H0. fold dzero in H0.
  assert (dval (mkDec 115 (-2)) == 115 # 100)%Q as H115 by reflexivity.
  split.
  - intros (?&?&?&?&?&?&?&?&?&?&He&Hp&?&?&?). constructor;
      first [tauto | exact Hd | intros x E; specialize (He x E); lra | intros x E; specialize (Hp x E); lra].
  - intros [? ? ? ? ? [? ?] [? ?] ? He Hp ? ? ? _]. split_and!;
      first [tauto | intros x E; specialize (He x E); lra | intros x E; specialize (Hp x E); lra].
Qed.

(** The drift ceiling never widens a candidate's own tolerance. *)
Lemma drift_ceiling_le_tolerance c m :
  (0 < dval (tc_max_entry_drift_bps c))%Q ->
  (dval (drift_ceiling_bps c m) <= dval (tc_max_entry_drift_bps c))%Q.
Proof.
  intros H. unfold drift_ceiling_bps. pose proof (dval_zero 0) as H0. fold dzero in H0.
  assert ((dzero <? tc_max_entry_drift_bps c)%D = true) as -> by (apply dltb_spec; lra).
  apply dmin_le_r.
Qed.

(** C36. The gate approves exactly when opening risk is permitted on every count;
    otherwise it reports every failed check, its reason being the first. *)
Theorem evaluate_entry_approves_iff c r snapshot g :
  evaluate_entry c r snapshot = Ok g ->
  (gate_approved g = true <-> entry_permitted c r snapshot) /\
  (gate_approved g = false -> exists b l, eg_blocks g = b :: l /\ eg_reason_code g = b /\
     sublist (static_blocks c r) (eg_blocks g)).
Proof.
  unfold evaluate_entry. intros H. apply res_bind_ok in H as ([[drift ceiling] db] & Hdb & H).
  assert (match static_blocks c r ++ db with
          | b :: _ => gate_approved g = false /\ eg_reason_code g = b /\ eg_blocks g = static_blocks c r ++ db
          | [] => gate_approved g = true end) as Hg.
  { destruct (static_blocks c r ++ db); injection H as <-; done. }
  clear H. split.
  - destruct snapshot as [m|].
    + apply res_bind_ok in Hdb as (d & Hd & Hdb). injection Hdb as <- <- <-.
      destruct (drift_ceiling_bps c m <? d)%D eqn:E; cbn [block_if] in Hg.
      * assert (gate_approved g = false) as -> by (destruct (static_blocks c r); simpl in Hg; tauto).
        split; [done|]. intros []. apply dltb_spec in E. specialize (ep_drift0 m d eq_refl Hd). lra.
      * apply dltb_false in E. rewrite app_nil_r in Hg.
        rewrite <- (static_blocks_nil c r (Some m)) by (intros ? d' [= <-] Hd'; by replace d' with d by congruence).
        destruct (static_blocks c r); [tauto|]. destruct Hg as [-> _]. done.
    + injection Hdb as <- <- <-. rewrite app_nil_r in Hg.
      rewrite <- (static_blocks_nil c r None) by done.
      destruct (static_blocks c r); [tauto|]. destruct Hg as [-> _]. done.
  - intros Hf. destruct (static_blocks c r ++ db) as [|b l] eqn:E; [congruence|].
    destruct Hg as (_ & -> & Hb). rewrite Hb. exists b, l. split; [done|]. split; [done|].
    rewrite <- E. by apply sublist_inserts_r.
Qed.

Definition sample_runtime : EntryRuntimeContext :=
  mkRuntime ACTIVE BINANCE_TESTNET HEALTHY ∅ false false ∅ false false true None (Some (mkDec 120 (-2))) true false (Some 100).
Definition sample_market : PreSubmitMarketSnapshot :=
  mkMarketSnapshot "BTC/USDT" (dint 64010) dzero 0 (mkDec 1 (-1)) (mkDec 1 (-3)) (dint 5).

Lemma evaluate_entry_approves_iff_witness :
  entry_permitted sample_candidate sample_runtime (Some sample_market).
Proof.
  assert (exists g, evaluate_entry sample_candidate sample_runtime (Some sample_market) = Ok g /\
    gate_approved g = true) as (g & H & Ha) by (exists_ok; reflexivity).
  exact (proj1 (proj1 (evaluate_entry_approves_iff sample_candidate sample_runtime (Some sample_market) g H)) Ha).
Defined.

(** ** What an execution does, call by call *)

Section execution.
Context (c : TradeCandidate) (g : EntryGateResult) (m : PreSubmitMarketSnapshot) (intent_id : string).
Context (quantity : Dec) (leverage : Z) (activation : EngineActivation).
Context (margin_equity max_margin_fraction : option Dec) (enforce : bool).

(** Everything that must hold before a request leaves the process. *)
Definition ready (cid : string) (nq : Dec) : Prop :=
  entry_client_order_id intent_id 1 = Ok cid /\ shadow_only c = false /\ gate_approved g = true /\
  round_quantity_to_step quantity (ms_step_size m) = Ok nq /\ (0 < dval nq)%Q /\
  (dval (ms_min_notional m) <= dval (dmul nq (ms_current_price m)))%Q /\ activation = ACTIVE.

Definition entry_command (cid : string) (nq : Dec) : SubmitEntryToExchange := mkSubmitEntry intent_id nq leverage cid.
Definition guard_command (q : Dec) (gid : string) : SubmitReduceOnlyExit :=
  mkSubmitReduce ("margin-guard:" +:+ intent_id)%string "CANARY_MARGIN_CEILING" q gid true.

Definition submit_call (cid : string) (nq : Dec) (r : res ExchangeOrderReceipt) : AdapterCall :=
  CallSubmitMarket (entry_command cid nq) (tc_symbol c) (order_side c) r.

Inductive entry_run : list AdapterCall -> res EntryExecutionResult -> Prop :=
  | er_no_call r :
      (forall x, r = Ok x -> ex_status x ∈ [NOT_ATTEMPTED; SHADOW_REHEARSED] /\ ex_intent_state x = INTENT_CREATED) ->
      entry_run [] r
  | er_submit_raised cid nq e : ready cid nq ->
      entry_run [submit_call cid nq (Raise e)]
        (match e with
         | ExchangeTimeout => Ok (entry_result UNKNOWN EXCHANGE_UNKNOWN cid RC_EXCHANGE_UNKNOWN None nq)
         | BinanceAdapterUnavailable => Ok (entry_result ENTRY_REJECTED REJECTED cid RC_EXCHANGE_UNAVAILABLE None nq)
         | _ => Raise e
         end)
  | er_fills_raised cid nq rcpt e : ready cid nq ->
      entry_run [submit_call cid nq (Ok rcpt); CallFetchFills (tc_symbol c) (or_exchange_order_id rcpt) (Raise e)]
        (match e with
         | ExchangeTimeout | BinanceAdapterUnavailable =>
             Ok (entry_result ACKNOWLEDGED_UNFILLED EXCHANGE_ACKNOWLEDGED cid RC_EXCHANGE_UNKNOWN
                   (Some (or_exchange_order_id rcpt)) nq)
         | _ => Raise e
         end)
  | er_unfilled cid nq rcpt fills q v fee ids t : ready cid nq ->
      _aggregate_fills fills = (q, v, fee, ids, t) -> (ids = [] \/ (dval q <= 0)%Q \/ v = None) ->
      entry_run [submit_call cid nq (Ok rcpt); CallFetchFills (tc_symbol c) (or_exchange_order_id rcpt) (Ok fills)]
        (Ok (entry_result ACKNOWLEDGED_UNFILLED EXCHANGE_ACKNOWLEDGED cid RC_OK
               (Some (or_exchange_order_id rcpt)) nq))
  | er_margin_raised cid nq rcpt fills q v fee ids t e : ready cid nq ->
      _aggregate_fills fills = (q, Some v, fee, ids, t) -> ids <> [] -> (0 < dval q)%Q ->
      (margin_exceeded enforce margin_equity max_margin_fraction leverage q v = Raise e \/
       margin_exceeded enforce margin_equity max_margin_fraction leverage q v = Ok true) ->
      entry_run [submit_call cid nq (Ok rcpt); CallFetchFills (tc_symbol c) (or_exchange_order_id rcpt) (Ok fills)]
        (Raise e)
  | er_guarded cid nq rcpt fills q v fee ids t gid gr : ready cid nq ->
      _aggregate_fills fills = (q, Some v, fee, ids, t) -> ids <> [] -> (0 < dval q)%Q ->
      margin_exceeded enforce margin_equity max_margin_fraction leverage q v = Ok true ->
      exit_client_order_id ("margin-guard:" +:+ intent_id)%string 1 = Ok gid ->
      entry_run [submit_call cid nq (Ok rcpt); CallFetchFills (tc_symbol c) (or_exchange_order_id rcpt) (Ok fills);
                 CallReduceOnly (guard_command q gid) (tc_symbol c) (unwind_side c) gr]
        (Ok (mkEntryResult ENTRY_REJECTED REJECTED cid RC_RISK_LIMIT_EXCEEDED (Some (or_exchange_order_id rcpt))
               ids q (Some v) fee t BINANCE_USER_TRADE nq
               (match gr with Ok x => Some (or_exchange_order_id x) | Raise _ => None end) (Some gid)))
  | er_filled cid nq rcpt fills q v fee ids t : ready cid nq ->
      _aggregate_fills fills = (q, Some v, fee, ids, t) -> ids <> [] -> (0 < dval q)%Q ->
      margin_exceeded enforce margin_equity max_margin_fraction leverage q v = Ok false ->
      entry_run [submit_call cid nq (Ok rcpt); CallFetchFills (tc_symbol c) (or_exchange_order_id rcpt) (Ok fills)]
        (Ok (mkEntryResult (if (q <? nq)%D then PARTIALLY_FILLED else ENTRY_FILLED) FILLED cid RC_OK
               (Some (or_exchange_order_id rcpt)) ids q (Some v) fee t BINANCE_USER_TRADE nq None None)).
End execution.

Lemma no_call_run c g m i q l a me mf en r :
  (forall x, r = Ok x -> ex_status x ∈ [NOT_ATTEMPTED; SHADOW_REHEARSED] /\ ex_intent_state x = INTENT_CREATED) ->
  entry_run c g m i q l a me mf en [] r.
Proof. apply er_no_call. Qed.

Lemma ready_intro c g m i q a cid nq :
  Ok cid = entry_client_order_id i 1 -> shadow_only c = false -> negb (gate_approved g) = false ->
  Ok nq = round_quantity_to_step q (ms_step_size m) -> (nq <=? dzero)%D = false ->
  (nq * ms_current_price m <? ms_min_notional m)%D = false -> negb (bool_decide (a = ACTIVE)) = false ->
  ready c g m i q a cid nq.
Proof.
  intros H1 H2 H3 H4 H5 H6 H7. apply negb_false_iff in H3, H7. apply bool_decide_eq_true in H7.
  apply dleb_false in H5. apply dltb_false in H6. rewrite (dval_zero 0) in H5. by split_and!.
Qed.

Lemma fills_confirmed ids q :
  negb (is_nonempty ids) || (q <=? dzero)%D = false -> (ids : list string) <> [] /\ (0 < dval q)%Q.
Proof.
  intros [H1 H2]%orb_false_iff. apply negb_false_iff, is_nonempty_true in H1.
  apply dleb_false in H2. by rewrite (dval_zero 0) in H2.
Qed.

Lemma fills_unconfirmed ids q (v : option Dec) :
  negb (is_nonempty ids) || (q <=? dzero)%D = true ->
  (ids : list string) = [] \/ (dval q <= 0)%Q \/ v = None.
Proof.
  intros [H|H]%orb_true_iff.
  - left. by apply negb_true_iff, is_nonempty_false in H.
  - right. left. apply dleb_spec in H. by rewrite (dval_zero 0) in H.
Qed.

Lemma execute_entry_shape {W} {A : ExchangeAdapter W} c g m i q l a me mf en w r w' log :
  run_traced (execute_entry (H := traced A) c g m i q l a me mf en) w = (r, w', log) ->
  entry_run c g m i q l a me mf en log r.
Proof.
  intros H. apply run_traced_inv in H. unfold execute_entry in H. inv_traced.
  all: try (apply er_no_call; intros ? ?; simplify_eq; split; [first [left|right; left]|reflexivity]; fail).
  all: try lazymatch goal with
       | Hc : Ok ?cid = entry_client_order_id _ _, Hq : Ok ?nq = round_quantity_to_step _ _ |- _ =>
           assert (ready c g m i q a cid nq) as Hready by (by apply ready_intro)
       end.
  all: try lazymatch goal with
       | Hf : negb (is_nonempty _) || _ = false |- _ => pose proof (fills_confirmed _ _ Hf) as [? ?]
       end.
  - eapply er_unfilled; eauto using fills_unconfirmed.
  - eapply er_guarded with (gr := Ok _); eauto.
  - eapply er_guarded with (gr := Raise _); eauto.
  - eapply er_margin_raised; eauto.
  - eapply er_filled; eauto.
  - eapply er_margin_raised; eauto.
  - eapply er_unfilled; eauto.
  - case_handler;
      inv_traced; exact (er_fills_raised _ _ _ _ _ _ _ _ _ _ _ _ _ _ Hready).
  - case_handler;
      inv_traced; exact (er_submit_raised _ _ _ _ _ _ _ _ _ _ _ _ _ Hready).
  - apply er_no_call. discriminate.
  - apply er_no_call. discriminate.
Qed.

(** ** Properties of the execution *)

(** C32. A request leaves the process at most once and only when everything is in
    order: the candidate is executable, the gate approved, the engine is ACTIVE,
    the step-floored quantity is positive and reaches the minimum notional; it
    carries that quantity and the intent's own client order id. *)
Theorem entry_submits_only_when_ready {W} {A : ExchangeAdapter W} c g m i q l a me mf en w r w' log :
  run_traced (execute_entry (H := traced A) c g m i q l a me mf en) w = (r, w', log) ->
  log = [] \/
  exists cid nq s rest, ready c g m i q a cid nq /\ log = submit_call c i l cid nq s :: rest /\
    Forall (fun k => is_entry_call k = false /\ is_protection_call k = false) rest.
Proof.
  intros H. apply execute_entry_shape in H. destruct H; [by left|right..].
  all: eexists cid, nq, _, _; split; [eassumption|]; split; [reflexivity|]; repeat constructor.
Qed.

(** Exchange-First projection: a result that permits a local position carries
    exactly the aggregate of fills the exchange confirmed for the order it
    acknowledged, with at least one trade and positive quantity and price. *)
Theorem entry_projects_only_confirmed_fills {W} {A : ExchangeAdapter W} c g m i q l a me mf en w x w' log :
  run_traced (execute_entry (H := traced A) c g m i q l a me mf en) w = (Ok x, w', log) ->
  position_projectable x = true ->
  exists cid nq rcpt fills v,
    log = [submit_call c i l cid nq (Ok rcpt); CallFetchFills (tc_symbol c) (or_exchange_order_id rcpt) (Ok fills)] /\
    _aggregate_fills fills =
      (ex_filled_quantity x, Some v, ex_total_fee x, ex_trade_ids x, ex_fill_timestamp x) /\
    ex_average_fill_price x = Some v /\ (0 < dval v)%Q /\ (0 < dval (ex_filled_quantity x))%Q /\
    ex_trade_ids x <> [] /\ ex_exchange_order_id x = Some (or_exchange_order_id rcpt) /\
    or_exchange_order_id rcpt <> ""%string /\ ex_intent_state x = FILLED /\
    (ex_status x = PARTIALLY_FILLED <-> (dval (ex_filled_quantity x) < dval nq)%Q).
Proof.
  intros H Hp. apply execute_entry_shape in H.
  assert (ex_status x = ENTRY_FILLED \/ ex_status x = PARTIALLY_FILLED) as Hst.
  { unfold position_projectable in Hp. rewrite !andb_true_iff, bool_decide_eq_true in Hp. set_solver. }
  remember (Ok x) as rr eqn:Er.
  destruct H as [r Hno|cid nq e Hr|cid nq rcpt e Hr|cid nq rcpt fills qq v fee ids t Hr Ha Hu
    |cid nq rcpt fills qq v fee ids t e Hr Ha Hi Hq Hm|cid nq rcpt fills qq v fee ids t gid gr Hr Ha Hi Hq Hm Hg
    |cid nq rcpt fills qq v fee ids t Hr Ha Hi Hq Hm].
  - destruct (Hno x Er) as [Hx _]. exfalso. destruct Hst; elem_cases Hx.
  - destruct e; try discriminate; injection Er as <-; simpl in Hst; destruct Hst; discriminate.
  - destruct e; try discriminate; injection Er as <-; simpl in Hst; destruct Hst; discriminate.
  - injection Er as <-. simpl in Hst; destruct Hst; discriminate.
  - discriminate.
  - injection Er as <-. simpl in Hst; destruct Hst; discriminate.
  - injection Er as <-. exists cid, nq, rcpt, fills, v. unfold position_projectable in Hp. simpl in *.
    rewrite !andb_true_iff, str_truthy_true in Hp.
    destruct Hp as [[[[_ Ho] _] _] Hv]. apply dltb_spec in Hv. rewrite (dval_zero 0) in Hv.
    split; [done|]. split; [done|]. split_and!; try done;
      destruct (qq <? nq)%D eqn:E; [apply dltb_spec in E|apply dltb_false in E]; split; intros; first [done|lra|exfalso; lra].
Qed.

(** The failure taxonomy: UNKNOWN is reported exactly when the submission timed
    out, the pre-submit rejection exactly when the adapter was unavailable, and
    no exception a handler does not name is swallowed or turned into a result. *)
Theorem entry_failure_taxonomy {W} {A : ExchangeAdapter W} c g m i q l a me mf en w r w' log :
  run_traced (execute_entry (H := traced A) c g m i q l a me mf en) w = (r, w', log) ->
  ((exists x, r = Ok x /\ requires_client_order_id_recovery x = true) <->
   exists cid nq, log = [submit_call c i l cid nq (Raise ExchangeTimeout)]) /\
  (forall cid nq, log = [submit_call c i l cid nq (Raise BinanceAdapterUnavailable)] ->
     exists x, r = Ok x /\ ex_status x = ENTRY_REJECTED /\ ex_filled_quantity x = dzero) /\
  (forall cid nq e, log = [submit_call c i l cid nq (Raise e)] ->
     e <> ExchangeTimeout -> e <> BinanceAdapterUnavailable -> r = Raise e).
Proof.
  intros H. apply execute_entry_shape in H. unfold requires_client_order_id_recovery.
  setoid_rewrite bool_decide_eq_true.
  destruct H as [r Hno|cid nq e Hr|cid nq rcpt e Hr|cid nq rcpt fills qq v fee ids t Hr Ha Hu
    |cid nq rcpt fills qq v fee ids t e Hr Ha Hi Hq Hm|cid nq rcpt fills qq v fee ids t gid gr Hr Ha Hi Hq Hm Hg
    |cid nq rcpt fills qq v fee ids t Hr Ha Hi Hq Hm].
  - split; [|split; discriminate || (intros; discriminate)]. split.
    + intros (x & -> & Hx). destruct (Hno x eq_refl) as [Hs _]. exfalso. elem_cases Hs.
    + intros (? & ? & ?). discriminate.
  - split; [|split].
    + split; [|intros (? & ? & [= <- <- ->]); eauto]. destruct e; intros (x & [= <-] & Hx); try discriminate. eauto.
    + intros ? ? [= <- <- ->]. eauto.
    + intros ? ? ? [= <- <- ->]. by destruct e0.
  - split; [|split; intros; discriminate]. split; [|intros (? & ? & ?); discriminate].
    destruct e; intros (x & [= <-] & Hx); discriminate.
  - split; [|split; intros; discriminate]. split; [|intros (? & ? & ?); discriminate].
    intros (x & [= <-] & Hx); discriminate.
  - split; [|split; intros; discriminate]. split; [|intros (? & ? & ?); discriminate].
    intros (x & ? & Hx); discriminate.
  - split; [|split; intros; discriminate]. split; [|intros (? & ? & ?); discriminate].
    intros (x & [= <-] & Hx); discriminate.
  - split; [|split; intros; discriminate]. split; [|intros (? & ? & ?); discriminate].
    intros (x & [= <-] & Hx). simpl in Hx. by destruct (qq <? nq)%D.
Qed.

(** The margin guard: a reduce-only order is sent exactly when the confirmed
    fill exceeds the margin ceiling; it unwinds the whole confirmed quantity on
    the opposite side, and the result never permits a local position. *)
Theorem margin_guard_unwinds_fill {W} {A : ExchangeAdapter W} c g m i q l a me mf en w r w' log k sym side rr :
  run_traced (execute_entry (H := traced A) c g m i q l a me mf en) w = (r, w', log) ->
  CallReduceOnly k sym side rr ∈ log ->
  exists x v fills, r = Ok x /\ position_projectable x = false /\
    CallFetchFills (tc_symbol c) (default ""%string (ex_exchange_order_id x)) (Ok fills) ∈ log /\
    _aggregate_fills fills = (ex_filled_quantity x, Some v, ex_total_fee x, ex_trade_ids x, ex_fill_timestamp x) /\
    margin_exceeded en me mf l (ex_filled_quantity x) v = Ok true /\
    sr_reduce_quantity k = ex_filled_quantity x /\ sym = tc_symbol c /\ side = unwind_side c /\
    side <> order_side c.
Proof.
  intros H Hin. apply execute_entry_shape in H.
  destruct H as [r Hno|cid nq e Hr|cid nq rcpt e Hr|cid nq rcpt fills qq v fee ids t Hr Ha Hu
    |cid nq rcpt fills qq v fee ids t e Hr Ha Hi Hq Hm|cid nq rcpt fills qq v fee ids t gid gr Hr Ha Hi Hq Hm Hg
    |cid nq rcpt fills qq v fee ids t Hr Ha Hi Hq Hm].
  6: { eexists _, v, fills. split; [reflexivity|]. split; [reflexivity|]. simpl.
       split; [right; left|]. split; [exact Ha|].
       assert (CallReduceOnly k sym side rr = CallReduceOnly (guard_command i qq gid) (tc_symbol c) (unwind_side c) gr)
         as [= -> -> -> ->] by (unfold submit_call in Hin; elem_cases Hin; done).
       split_and!; try done. unfold unwind_side, order_side. by destruct (String.eqb _ _). }
  all: exfalso; unfold submit_call in Hin; elem_cases Hin.
Qed.

(** ** A concrete run *)

Definition sample_gate : EntryGateResult := mkGateResult APPROVED RC_OK [] None None.
Definition sample_order (oid : string) : ExchangeOrderReceipt :=
  mkOrderReceipt oid "" "BTC/USDT" "buy" "market" (mkDec 5 (-3)) None "closed" 0 false.
Definition sample_fills : list ExchangeFillReceipt :=
  [mkFill "987" "t1" (mkDec 3 (-3)) (dint 64000) (mkDec 1 (-2)) 5; mkFill "987" "t2" (mkDec 2 (-3)) (dint 64010) dzero 7].
Definition empty_account : AuthoritativeAccountSnapshot := mkAccountSnapshot (dint 1000) (dint 1000) [] [] 0.
Definition sample_script : Script :=
  mkScript (Ok (sample_order "987")) (Ok sample_fills) (Raise BinanceAdapterUnavailable) (Ok (sample_order "988"))
    (Raise BinanceAdapterUnavailable) (Ok None) (Ok empty_account).
Definition timeout_script : Script :=
  mkScript (Raise ExchangeTimeout) (Ok []) (Raise BinanceAdapterUnavailable) (Raise BinanceAdapterUnavailable)
    (Raise BinanceAdapterUnavailable) (Ok None) (Ok empty_account).

Definition sample_run (s : Script) (enforce : bool) : res EntryExecutionResult * Script * list AdapterCall :=
  run_traced (execute_entry (H := traced scripted) sample_candidate sample_gate sample_market "intent-1"
    (mkDec 51 (-4)) 3 ACTIVE (Some (dint 300)) (Some (mkDec 3 (-1))) enforce) s.

Lemma run_parts {A B C} (x : A * B * C) : x = (x.1.1, x.1.2, x.2).
Proof. by destruct x as [[? ?] ?]. Qed.

Lemma sample_run_parts s enforce :
  run_traced (execute_entry (H := traced scripted) sample_candidate sample_gate sample_market "intent-1"
    (mkDec 51 (-4)) 3 ACTIVE (Some (dint 300)) (Some (mkDec 3 (-1))) enforce) s =
  ((sample_run s enforce).1.1, (sample_run s enforce).1.2, (sample_run s enforce).2).
Proof. unfold sample_run. apply run_parts. Qed.

Lemma entry_submits_only_when_ready_witness :
  exists cid nq s rest, ready sample_candidate sample_gate sample_market "intent-1" (mkDec 51 (-4)) ACTIVE cid nq /\
    (sample_run sample_script false).2 = submit_call sample_candidate "intent-1" 3 cid nq s :: rest.
Proof.
  destruct (entry_submits_only_when_ready sample_candidate sample_gate sample_market "intent-1" (mkDec 51 (-4)) 3
    ACTIVE (Some (dint 300)) (Some (mkDec 3 (-1))) false sample_script _ _ _
    (sample_run_parts sample_script false)) as [H|(cid & nq & s & rest & H1 & H2 & _)].
  - exfalso. revert H. vm_compute. discriminate.
  - exists cid, nq, s, rest. split; [exact H1|exact H2].
Defined.

Definition sample_result : EntryExecutionResult :=
  match (sample_run sample_script false).1.1 with
  | Ok x => x
  | Raise _ => entry_result NOT_ATTEMPTED INTENT_CREATED "" RC_OK None dzero
  end.

Lemma entry_projects_only_confirmed_fills_witness :
  position_projectable sample_result = true /\ ex_intent_state sample_result = FILLED.
Proof.
  assert (position_projectable sample_result = true) as Hp by (vm_compute; reflexivity).
  split; [exact Hp|].
  assert (sample_run sample_script false = (Ok sample_result, (sample_run sample_script false).1.2, (sample_run sample_script false).2))
    as Hrun by (vm_compute; reflexivity).
  unfold sample_run at 1 in Hrun.
  destruct (entry_projects_only_confirmed_fills sample_candidate sample_gate sample_market "intent-1" (mkDec 51 (-4)) 3
    ACTIVE (Some (dint 300)) (Some (mkDec 3 (-1))) false sample_script sample_result _ _ Hrun Hp)
    as (cid & nq & rcpt & fills & v & _ & _ & _ & _ & _ & _ & _ & _ & H & _).
  exact H.
Defined.

Lemma entry_failure_taxonomy_witness :
  exists cid nq, (sample_run timeout_script false).2 =
    [submit_call sample_candidate "intent-1" 3 cid nq (Raise ExchangeTimeout)].
Proof.
  apply (proj1 (proj1 (entry_failure_taxonomy sample_candidate sample_gate sample_market "intent-1" (mkDec 51 (-4)) 3
    ACTIVE (Some (dint 300)) (Some (mkDec 3 (-1))) false timeout_script _ _ _
    (sample_run_parts timeout_script false)))).
  eexists. split; vm_compute; reflexivity.
Defined.

Lemma margin_guard_unwinds_fill_witness :
  exists k rr, CallReduceOnly k "BTC/USDT" "sell" rr ∈ (sample_run sample_script true).2 /\
    sr_reduce_quantity k = mkDec 5000000000000000000000000000 (-30).
Proof.
  assert (exists k rr, (sample_run sample_script true).2 !! 2%nat = Some (CallReduceOnly k "BTC/USDT" "sell" rr))
    as (k & rr & Hk) by (do 2 eexists; vm_compute; reflexivity).
  apply list_elem_of_lookup_2 in Hk. exists k, rr. split; [exact Hk|].
  destruct (margin_guard_unwinds_fill sample_candidate sample_gate sample_market "intent-1" (mkDec 51 (-4)) 3
    ACTIVE (Some (dint 300)) (Some (mkDec 3 (-1))) true sample_script _ _ _ k "BTC/USDT" "sell" rr
    (sample_run_parts sample_script true) Hk) as (x & v & fills & Hx & _ & _ & _ & _ & Hq & _).
  rewrite Hq. revert Hx. vm_compute. intros [= <-]. reflexivity.
Defined.
