(* ===== verification/Exit.v ===== *)
(** * Exit: the reduce-only exit coordinator

    [application/exit_service.py]: the exit gate, which checks only what makes a
    reduce-only order safe, and the execution that reconciles the local state
    with what the exchange confirmed. *)
From S2P Require Import Prelude PyDecimal State Receipts ClientOrderId Adapter Quantities.
From Stdlib Require Import QArith Lqa.
Local Open Scope Z_scope.

Inductive ExitReason :=
  | HARD_STOP | TAKE_PROFIT | TIME_EXIT | STRATEGY_INVALIDATION | OPPOSITE_SIGNAL_CLOSE
  | PROTECTION_FAILURE_EMERGENCY | CANARY_MARGIN_CEILING | MANUAL_REDUCE_ONLY.

#[export] Instance ExitReason_eq_dec : EqDecision ExitReason.
Proof. solve_decision. Defined.

Definition exit_reason_value (r : ExitReason) : string :=
  match r with
  | HARD_STOP => "HARD_STOP" | TAKE_PROFIT => "TAKE_PROFIT" | TIME_EXIT => "TIME_EXIT"
  | STRATEGY_INVALIDATION => "STRATEGY_INVALIDATION" | OPPOSITE_SIGNAL_CLOSE => "OPPOSITE_SIGNAL_CLOSE"
  | PROTECTION_FAILURE_EMERGENCY => "PROTECTION_FAILURE_EMERGENCY"
  | CANARY_MARGIN_CEILING => "CANARY_MARGIN_CEILING" | MANUAL_REDUCE_ONLY => "MANUAL_REDUCE_ONLY"
  end.

Definition is_hard_exit (r : ExitReason) : bool :=
  bool_decide (r ∈ [HARD_STOP; PROTECTION_FAILURE_EMERGENCY; CANARY_MARGIN_CEILING; STRATEGY_INVALIDATION]).

Inductive ExitBlockReason :=
  | NO_AUTHORITATIVE_POSITION | QUANTITY_NOT_POSITIVE | QUANTITY_ROUNDS_TO_ZERO | SIDE_WOULD_NOT_REDUCE
  | INVALID_FENCING_TOKEN | GATEWAY_UNAVAILABLE.

Inductive ExitVerdict := EXIT_APPROVED | EXIT_BLOCKED | ALREADY_FLAT.

Inductive ExitExecutionStatus :=
  | EXIT_NOT_ATTEMPTED | EXIT_CLOSED | PARTIALLY_REDUCED | ALREADY_FLAT_RECONCILED | SUBMITTED_UNCONFIRMED
  | EXIT_UNKNOWN | EXIT_FAILED.

#[export] Instance ExitVerdict_eq_dec : EqDecision ExitVerdict.
Proof. solve_decision. Defined.
#[export] Instance ExitExecutionStatus_eq_dec : EqDecision ExitExecutionStatus.
Proof. solve_decision. Defined.

Record ExitDecision := mkExitDecision {
  xd_verdict : ExitVerdict; xd_position_id : string; xd_symbol : string; xd_direction : string;
  xd_reason : ExitReason; xd_quantity : Dec; xd_client_order_id : string; xd_reduce_only : bool;
  xd_block_reason : option ExitBlockReason }.

(** [ExitDecision.__post_init__] *)
Definition make_ExitDecision (d : ExitDecision) : res ExitDecision :=
  assert_or (xd_reduce_only d) (ValueError "ExitDecision.reduce_only must be True") ≫= fun _ => Ok d.

Definition exit_approved (d : ExitDecision) : bool := bool_decide (xd_verdict d = EXIT_APPROVED).
Definition exchange_side (d : ExitDecision) : string :=
  if String.eqb (xd_direction d) "long" then "sell" else "buy".

Record ExitExecutionResult := mkExitResult {
  xr_status : ExitExecutionStatus; xr_position_state : V2PositionState; xr_client_order_id : string;
  xr_exchange_order_id : option string; xr_trade_ids : list string; xr_reduced_quantity : Dec;
  xr_average_fill_price : option Dec; xr_total_fee : Dec; xr_remaining_quantity : option Dec;
  xr_fill_timestamp : option datetime; xr_residual_protection_cancelled : list string }.

Definition position_closed (r : ExitExecutionResult) : bool :=
  bool_decide (xr_status r ∈ [EXIT_CLOSED; ALREADY_FLAT_RECONCILED])
  && bool_decide (xr_position_state r = CLOSED).

Definition exit_requires_recovery (r : ExitExecutionResult) : bool := bool_decide (xr_status r = EXIT_UNKNOWN).

Definition evaluate_exit (position_id symbol direction : string) (reason : ExitReason)
    (requested_quantity : Dec) (authoritative_position : option ExchangePositionSnapshot) (step_size : Dec)
    (attempt : Z) (fencing_token_valid : option bool) (gateway_available : bool) : res ExitDecision :=
  exit_client_order_id position_id attempt ≫= fun client_order_id =>
  let decision verdict quantity block :=
    make_ExitDecision (mkExitDecision verdict position_id symbol direction reason quantity client_order_id true block) in
  let blocked b := decision EXIT_BLOCKED dzero (Some b) in
  if negb (default false fencing_token_valid) then blocked INVALID_FENCING_TOKEN
  else if negb gateway_available then blocked GATEWAY_UNAVAILABLE
  else match authoritative_position with
  | None => decision ALREADY_FLAT dzero None
  | Some p =>
      if (xp_quantity p <=? dzero)%D then decision ALREADY_FLAT dzero None
      else if negb (String.eqb (xp_direction p) direction) then blocked SIDE_WOULD_NOT_REDUCE
      else if (requested_quantity <=? dzero)%D then blocked QUANTITY_NOT_POSITIVE
      else
        let clamped := dmin requested_quantity (xp_quantity p) in
        floor_to_step clamped step_size ≫= fun quantity =>
        if (quantity <=? dzero)%D then blocked QUANTITY_ROUNDS_TO_ZERO
        else decision EXIT_APPROVED quantity None
  end.

(** ** Execution *)

Local Open Scope py_scope.

(** Each cancellation is attempted; a failure is logged and ignored. *)
Fixpoint _cancel_protection {W} `{ExchangeAdapter W} (order_ids : list string) (symbol : string) : SM W unit :=
  match order_ids with
  | [] => sret tt
  | order_id :: order_ids =>
      stry (cancel_order symbol order_id ;;; sret tt) (fun _ => Some (sret tt)) ;;;
      _cancel_protection order_ids symbol
  end.

Definition exit_result (status : ExitExecutionStatus) (state : V2PositionState) (cid : string)
    (oid : option string) (cancelled : list string) : ExitExecutionResult :=
  mkExitResult status state cid oid [] dzero None dzero None None cancelled.

(** [any(p.symbol == ... and p.direction == ... and p.quantity > 0)]. *)
Definition still_open_in (symbol direction : string) (s : AuthoritativeAccountSnapshot) : bool :=
  existsb (fun p => String.eqb (xp_symbol p) symbol && String.eqb (xp_direction p) direction
                    && (dzero <? xp_quantity p)%D) (as_positions s).

(** The handler of [ReduceOnlyAlreadyFlat]: a failed read counts as flat. *)
Definition handle_already_flat {W} `{ExchangeAdapter W} (decision : ExitDecision)
    (open_protection_order_ids : list string) : SM W ExitExecutionResult :=
  let! still_open :=
    stry (let! snapshot := fetch_authoritative_snapshot in
          sret (still_open_in (xd_symbol decision) (xd_direction decision) snapshot))
         (fun _ => Some (sret false)) in
  if negb still_open then
    _cancel_protection open_protection_order_ids (xd_symbol decision) ;;;
    sret (exit_result ALREADY_FLAT_RECONCILED CLOSED (xd_client_order_id decision) None open_protection_order_ids)
  else sret (exit_result SUBMITTED_UNCONFIRMED REDUCING (xd_client_order_id decision) None []).

Definition execute_reduce_only_exit {W} `{ExchangeAdapter W} (decision : ExitDecision)
    (authoritative_quantity step_size : Dec) (open_protection_order_ids : list string) :
    SM W ExitExecutionResult :=
  let cid := xd_client_order_id decision in
  if negb (exit_approved decision) && negb (bool_decide (xd_verdict decision = ALREADY_FLAT)) then
    sret (exit_result EXIT_NOT_ATTEMPTED REDUCING cid None [])
  else if bool_decide (xd_verdict decision = ALREADY_FLAT) then
    sret (exit_result ALREADY_FLAT_RECONCILED CLOSED cid None [])
  else
  let command := mkSubmitReduce (xd_position_id decision) (exit_reason_value (xd_reason decision))
                   (xd_quantity decision) cid (is_hard_exit (xd_reason decision)) in
  stry_else (submit_reduce_only_exit command (xd_symbol decision) (exchange_side decision))
    (fun e => match e with
     | ReduceOnlyAlreadyFlat => Some (handle_already_flat decision open_protection_order_ids)
     | ExitTimeout => Some (sret (exit_result EXIT_UNKNOWN REDUCING cid None []))
     | BinanceAdapterUnavailable => Some (sret (exit_result EXIT_FAILED REDUCING cid None []))
     | _ => None
     end)
    (fun receipt =>
  let oid := Some (or_exchange_order_id receipt) in
  stry_else (fetch_fills (xd_symbol decision) (or_exchange_order_id receipt))
    (fun e => match e with
     | BinanceAdapterUnavailable | ExitTimeout => Some (sret (exit_result SUBMITTED_UNCONFIRMED REDUCING cid oid []))
     | _ => None
     end)
    (fun fills =>
  let '(reduced_qty, vwap, total_fee, trade_ids, fill_ts) := _aggregate_fills fills in
  if negb (is_nonempty trade_ids) || (reduced_qty <=? dzero)%D then
    sret (exit_result SUBMITTED_UNCONFIRMED REDUCING cid oid [])
  else
  let remaining := dmax dzero (authoritative_quantity - reduced_qty)%D in
  let! remaining_floored := slift (floor_to_step remaining step_size) in
  if (remaining_floored <=? dzero)%D then
    _cancel_protection open_protection_order_ids (xd_symbol decision) ;;;
    sret (mkExitResult EXIT_CLOSED CLOSED cid oid trade_ids reduced_qty vwap total_fee (Some dzero) fill_ts
            open_protection_order_ids)
  else
    sret (mkExitResult PARTIALLY_REDUCED REDUCING cid oid trade_ids reduced_qty vwap total_fee
            (Some remaining_floored) fill_ts []))).

(** ** The gate *)

(** When a reduce-only order may be sent, and for how much. *)
Record exit_sendable (direction : string) (requested : Dec) (p : ExchangePositionSnapshot) (step : Dec)
    (token : option bool) (gateway : bool) (q : Dec) : Prop := {
  es_token : token = Some true;
  es_gateway : gateway = true;
  es_side : xp_direction p = direction;
  es_requested : (0 < dval requested)%Q;
  es_open : (0 < dval (xp_quantity p))%Q;
  es_floored : floor_to_step (dmin requested (xp_quantity p)) step = Ok q;
  es_positive : (0 < dval q)%Q }.

Lemma leb_zero_false d : (d <=? dzero)%D = false <-> (0 < dval d)%Q.
Proof. rewrite dleb_false, (dval_zero 0). done. Qed.
Lemma leb_zero_true d : (d <=? dzero)%D = true <-> (dval d <= 0)%Q.
Proof. rewrite dleb_spec, (dval_zero 0). done. Qed.

Lemma evaluate_exit_cases pid symbol direction reason requested auth step attempt token gateway d :
  evaluate_exit pid symbol direction reason requested auth step attempt token gateway = Ok d ->
  xd_reduce_only d = true /\ exit_client_order_id pid attempt = Ok (xd_client_order_id d) /\
  xd_direction d = direction /\ xd_symbol d = symbol /\
  match xd_verdict d with
  | EXIT_APPROVED => exists p, auth = Some p /\ exit_sendable direction requested p step token gateway (xd_quantity d)
  | ALREADY_FLAT => token = Some true /\ gateway = true /\
                    (auth = None \/ exists p, auth = Some p /\ (dval (xp_quantity p) <= 0)%Q)
  | EXIT_BLOCKED => token <> Some true \/ gateway = false \/
      exists p, auth = Some p /\ (0 < dval (xp_quantity p))%Q /\
        (xp_direction p <> direction \/ (dval requested <= 0)%Q \/
         exists q, floor_to_step (dmin requested (xp_quantity p)) step = Ok q /\ (dval q <= 0)%Q)
  end.
Proof.
  unfold evaluate_exit, make_ExitDecision. intros H. apply res_bind_ok in H as (cid & Hcid & H). cbv zeta in H.
  destruct (default false token) eqn:Et; cbn [negb] in H.
  2:{ injection H as <-. simpl. split_and!; try done. left. destruct token as [[]|]; done. }
  assert (token = Some true) as -> by (destruct token as [[]|]; done).
  destruct gateway; cbn [negb] in H.
  2:{ injection H as <-. simpl. split_and!; try done. auto. }
  destruct auth as [p|]; [|injection H as <-; simpl; split_and!; auto].
  destruct (xp_quantity p <=? dzero)%D eqn:Eq.
  { injection H as <-. simpl. apply leb_zero_true in Eq. split_and!; eauto. }
  apply leb_zero_false in Eq. destruct (String.eqb_spec (xp_direction p) direction) as [Ed|Ed]; cbn [negb] in H.
  2:{ injection H as <-. simpl. split_and!; try done. right. right. exists p. auto. }
  destruct (requested <=? dzero)%D eqn:Er.
  { injection H as <-. simpl. apply leb_zero_true in Er. split_and!; try done. right. right. exists p. auto. }
  apply leb_zero_false in Er. apply res_bind_ok in H as (q & Hq & H).
  destruct (q <=? dzero)%D eqn:E0; injection H as <-; simpl; split_and!; try done.
  - apply leb_zero_true in E0. right. right. exists p. split_and!; try done. eauto.
  - apply leb_zero_false in E0. exists p. split; [done|]. by constructor.
Qed.

(** The exit gate approves exactly when a reduce-only order is sendable, looking
    at nothing but the fencing token, the gateway, the authoritative position
    and the quantity; the approved quantity is positive, on the reducing side,
    and is the largest step multiple within both the request and the position. *)
Theorem exit_gate_spec pid symbol direction reason requested auth step attempt token gateway d :
  evaluate_exit pid symbol direction reason requested auth step attempt token gateway = Ok d ->
  (exit_approved d = true <->
   exists p q, auth = Some p /\ exit_sendable direction requested p step token gateway q) /\
  (forall p, auth = Some p -> exit_approved d = true -> exact_grid (dmin requested (xp_quantity p)) step = true ->
     xd_reduce_only d = true /\ (0 < dval (xd_quantity d))%Q /\
     (dval (xd_quantity d) <= dval requested)%Q /\ (dval (xd_quantity d) <= dval (xp_quantity p))%Q /\
     (dval (dmin requested (xp_quantity p)) - dval (xd_quantity d) < dval step)%Q /\
     exchange_side d = if String.eqb (xp_direction p) "long" then "sell"%string else "buy"%string).
Proof.
  intros H. apply evaluate_exit_cases in H as (Hro & _ & Hdir & _ & Hv). unfold exit_approved.
  rewrite bool_decide_eq_true. split.
  - split.
    + intros E. rewrite E in Hv. destruct Hv as (p & ? & ?). eauto.
    + intros (p & q & -> & [? ? ? ? ? ? ?]). destruct (xd_verdict d); [done| |].
      * exfalso. destruct Hv as [?|[?|(p' & [= <-] & ? & [?|[?|(q' & ? & ?)]])]]; try congruence; [lra|].
        assert (q' = q) as -> by congruence. lra.
      * exfalso. destruct Hv as (_ & _ & [?|(p' & [= <-] & ?)]); [done|lra].
  - intros p -> E Hg. apply bool_decide_eq_true in E. rewrite E in Hv. destruct Hv as (p' & [= <-] & [? ? Hs ? ? Hf ?]).
    pose proof (floor_to_step_ok_step _ _ _ Hf) as Hstep.
    destruct (floor_to_step_grid _ _ Hstep Hg) as (r & Hr & (n & _ & G1 & G2) & _).
    assert (r = xd_quantity d) as -> by congruence.
    pose proof (dmin_le_l requested (xp_quantity p)). pose proof (dmin_le_r requested (xp_quantity p)).
    split_and!; try done; try lra. unfold exchange_side. by rewrite Hdir, Hs.
Qed.

(** ** The execution, call by call *)

Definition cancels (symbol : string) (ids : list string) (log : list AdapterCall) : Prop :=
  Forall2 (fun id k => exists r, k = CallCancel symbol id r) ids log.

Lemma cancel_protection_run {W} {A : ExchangeAdapter W} ids symbol st r st' :
  _cancel_protection (H := traced A) ids symbol st = (r, st') ->
  r = Ok tt /\ exists cl, st'.2 = st.2 ++ cl /\ cancels symbol ids cl.
Proof.
  revert st. induction ids as [|id ids IH]; intros st H; cbn [_cancel_protection] in H.
  - inv_run. split; [done|]. exists []. rewrite app_nil_r. split; [done|constructor].
  - inv_traced.
    all: apply IH in H as (-> & cl & Hl & Hc); split; [done|]; simpl in Hl; rewrite <- app_assoc in Hl;
      eexists; (split; [exact Hl|]); constructor; eauto.
Qed.

Section exit_run.
Context (d : ExitDecision) (auth step : Dec) (ids : list string).

Definition exit_command : SubmitReduceOnlyExit :=
  mkSubmitReduce (xd_position_id d) (exit_reason_value (xd_reason d)) (xd_quantity d)
    (xd_client_order_id d) (is_hard_exit (xd_reason d)).
Definition reduce_call (r : res ExchangeOrderReceipt) : AdapterCall :=
  CallReduceOnly exit_command (xd_symbol d) (exchange_side d) r.
Definition fills_call (rcpt : ExchangeOrderReceipt) (r : res (list ExchangeFillReceipt)) : AdapterCall :=
  CallFetchFills (xd_symbol d) (or_exchange_order_id rcpt) r.

(** What the exchange snapshot said after an "already flat" rejection. *)
Definition seen_open (s : res AuthoritativeAccountSnapshot) : bool :=
  match s with Ok s => still_open_in (xd_symbol d) (xd_direction d) s | Raise _ => false end.

Inductive exit_run : list AdapterCall -> res ExitExecutionResult -> Prop :=
  | xe_blocked : xd_verdict d = EXIT_BLOCKED ->
      exit_run [] (Ok (exit_result EXIT_NOT_ATTEMPTED REDUCING (xd_client_order_id d) None []))
  | xe_flat : xd_verdict d = ALREADY_FLAT ->
      exit_run [] (Ok (exit_result ALREADY_FLAT_RECONCILED CLOSED (xd_client_order_id d) None []))
  | xe_rejected_flat s cl : xd_verdict d = EXIT_APPROVED -> seen_open s = false -> cancels (xd_symbol d) ids cl ->
      exit_run (reduce_call (Raise ReduceOnlyAlreadyFlat) :: CallSnapshot s :: cl)
        (Ok (exit_result ALREADY_FLAT_RECONCILED CLOSED (xd_client_order_id d) None ids))
  | xe_rejected_open s : xd_verdict d = EXIT_APPROVED -> seen_open s = true ->
      exit_run [reduce_call (Raise ReduceOnlyAlreadyFlat); CallSnapshot s]
        (Ok (exit_result SUBMITTED_UNCONFIRMED REDUCING (xd_client_order_id d) None []))
  | xe_submit_raised e : xd_verdict d = EXIT_APPROVED -> e <> ReduceOnlyAlreadyFlat ->
      exit_run [reduce_call (Raise e)]
        (match e with
         | ExitTimeout => Ok (exit_result EXIT_UNKNOWN REDUCING (xd_client_order_id d) None [])
         | BinanceAdapterUnavailable => Ok (exit_result EXIT_FAILED REDUCING (xd_client_order_id d) None [])
         | _ => Raise e
         end)
  | xe_fills_raised rcpt e : xd_verdict d = EXIT_APPROVED ->
      exit_run [reduce_call (Ok rcpt); fills_call rcpt (Raise e)]
        (match e with
         | ExitTimeout | BinanceAdapterUnavailable =>
             Ok (exit_result SUBMITTED_UNCONFIRMED REDUCING (xd_client_order_id d) (Some (or_exchange_order_id rcpt)) [])
         | _ => Raise e
         end)
  | xe_no_fill rcpt fills q v fee oids t : xd_verdict d = EXIT_APPROVED ->
      _aggregate_fills fills = (q, v, fee, oids, t) -> (oids = [] \/ (dval q <= 0)%Q) ->
      exit_run [reduce_call (Ok rcpt); fills_call rcpt (Ok fills)]
        (Ok (exit_result SUBMITTED_UNCONFIRMED REDUCING (xd_client_order_id d) (Some (or_exchange_order_id rcpt)) []))
  | xe_step_raised rcpt fills q v fee oids t e : xd_verdict d = EXIT_APPROVED ->
      _aggregate_fills fills = (q, v, fee, oids, t) -> oids <> [] -> (0 < dval q)%Q ->
      floor_to_step (dmax dzero (auth - q)) step = Raise e ->
      exit_run [reduce_call (Ok rcpt); fills_call rcpt (Ok fills)] (Raise e)
  | xe_closed rcpt fills q v fee oids t rem cl : xd_verdict d = EXIT_APPROVED ->
      _aggregate_fills fills = (q, v, fee, oids, t) -> oids <> [] -> (0 < dval q)%Q ->
      floor_to_step (dmax dzero (auth - q)) step = Ok rem -> (dval rem <= 0)%Q -> cancels (xd_symbol d) ids cl ->
      exit_run (reduce_call (Ok rcpt) :: fills_call rcpt (Ok fills) :: cl)
        (Ok (mkExitResult EXIT_CLOSED CLOSED (xd_client_order_id d) (Some (or_exchange_order_id rcpt)) oids q v fee
               (Some dzero) t ids))
  | xe_partial rcpt fills q v fee oids t rem : xd_verdict d = EXIT_APPROVED ->
      _aggregate_fills fills = (q, v, fee, oids, t) -> oids <> [] -> (0 < dval q)%Q ->
      floor_to_step (dmax dzero (auth - q)) step = Ok rem -> (0 < dval rem)%Q ->
      exit_run [reduce_call (Ok rcpt); fills_call rcpt (Ok fills)]
        (Ok (mkExitResult PARTIALLY_REDUCED REDUCING (xd_client_order_id d) (Some (or_exchange_order_id rcpt)) oids q v
               fee (Some rem) t [])).
End exit_run.

Lemma confirmed_exit (oids : list string) q :
  negb (is_nonempty oids) || (q <=? dzero)%D = false -> oids <> [] /\ (0 < dval q)%Q.
Proof.
  intros [H1 H2]%orb_false_iff. apply negb_false_iff, is_nonempty_true in H1. by apply leb_zero_false in H2.
Qed.

Lemma unconfirmed_exit (oids : list string) q :
  negb (is_nonempty oids) || (q <=? dzero)%D = true -> oids = [] \/ (dval q <= 0)%Q.
Proof.
  intros [H|H]%orb_true_iff; [left; by apply negb_true_iff, is_nonempty_false in H|right; by apply leb_zero_true].
Qed.

Lemma already_flat_run {W} {A : ExchangeAdapter W} d ids st r st' :
  handle_already_flat (H := traced A) d ids st = (r, st') ->
  exists s cl, st'.2 = st.2 ++ CallSnapshot s :: cl /\
    (seen_open d s = false /\ cancels (xd_symbol d) ids cl /\
     r = Ok (exit_result ALREADY_FLAT_RECONCILED CLOSED (xd_client_order_id d) None ids) \/
     seen_open d s = true /\ cl = [] /\
     r = Ok (exit_result SUBMITTED_UNCONFIRMED REDUCING (xd_client_order_id d) None [])).
Proof.
  unfold handle_already_flat. intros H. inv_traced.
  all: repeat match goal with
       | Hc : _cancel_protection _ _ _ = _ |- _ => apply cancel_protection_run in Hc as (? & cl & Hl & Hc)
       | Hb : negb _ = true |- _ => apply negb_true_iff in Hb
       | Hb : negb _ = false |- _ => apply negb_false_iff in Hb
       end; simplify_eq.
  - eexists (Ok _), cl. rewrite Hl. cbn. rewrite <- app_assoc. split; [reflexivity|]. left. auto.
  - eexists (Ok _), []. split; [reflexivity|]. right. auto.
  - eexists (Raise _), cl. rewrite Hl. cbn. rewrite <- app_assoc. split; [reflexivity|]. left. auto.
Qed.

Lemma execute_exit_shape {W} {A : ExchangeAdapter W} d auth step ids w r w' log :
  run_traced (execute_reduce_only_exit (H := traced A) d auth step ids) w = (r, w', log) ->
  exit_run d auth step ids log r.
Proof.
  intros H. apply run_traced_inv in H. unfold execute_reduce_only_exit, exit_approved in H.
  destruct (xd_verdict d) eqn:Ev; cbn [negb andb bool_decide] in H;
    rewrite ?bool_decide_true, ?bool_decide_false in H by done; cbn [negb andb] in H; inv_traced.
  all: try (by constructor).
  all: try lazymatch goal with
       | Hf : negb (is_nonempty _) || _ = false |- _ => pose proof (confirmed_exit _ _ Hf) as [? ?]
       end.
  - eapply xe_no_fill; eauto using unconfirmed_exit.
  - match goal with Hc : _cancel_protection _ _ _ = _ |- _ =>
      apply cancel_protection_run in Hc as (_ & cl & Hl & Hc) end.
    cbn in Hl. subst. eapply xe_closed; eauto. by apply leb_zero_true.
  - match goal with Hc : _cancel_protection _ _ _ = _ |- _ =>
      apply cancel_protection_run in Hc as (? & _) end. discriminate.
  - eapply xe_partial; eauto. by apply leb_zero_false.
  - eapply xe_step_raised; eauto.
  - case_handler; inv_traced; exact (xe_fills_raised _ _ _ _ _ _ Ev).
  - case_handler; inv_traced; try (refine (xe_submit_raised _ _ _ _ _ Ev _); discriminate).
    match goal with Hc : handle_already_flat _ _ _ = _ |- _ =>
      apply already_flat_run in Hc as (s & cl & Hl & [(? & ? & ->)|(? & -> & ->)]) end; cbn in Hl; subst.
    + by eapply xe_rejected_flat.
    + by apply xe_rejected_open.
Qed.

(** C34. The coordinator can only reduce: it sends at most one order, reduce-only and
    for exactly the approved quantity on the reducing side, and otherwise only
    reads and cancels the protection orders it was given. *)
Theorem exit_never_adds_risk {W} {A : ExchangeAdapter W} d auth step ids w r w' log :
  run_traced (execute_reduce_only_exit (H := traced A) d auth step ids) w = (r, w', log) ->
  (log = [] /\ xd_verdict d <> EXIT_APPROVED) \/
  exists rr rest, xd_verdict d = EXIT_APPROVED /\ log = reduce_call d rr :: rest /\
    Forall (fun k => is_read_call k = true \/ exists id rk, id ∈ ids /\ k = CallCancel (xd_symbol d) id rk) rest.
Proof.
  intros H. apply execute_exit_shape in H.
  assert (forall cl, cancels (xd_symbol d) ids cl ->
    Forall (fun k => is_read_call k = true \/ exists id rk, id ∈ ids /\ k = CallCancel (xd_symbol d) id rk) cl) as Hcl.
  { unfold cancels. intros cl Hc. clear -Hc.
    assert (forall l, Forall2 (fun id k => exists r, k = CallCancel (xd_symbol d) id r) l cl ->
      (forall x, x ∈ l -> x ∈ ids) ->
      Forall (fun k => is_read_call k = true \/ exists id rk, id ∈ ids /\ k = CallCancel (xd_symbol d) id rk) cl) as G.
    { clear Hc. intros l Hl. induction Hl as [|id k l cl [rk ->] _ IH]; intros Hin; constructor.
      - right. exists id, rk. split; [apply Hin; by left|done].
      - apply IH. intros. apply Hin. by right. }
    by apply (G ids). }
  destruct H; [left; split; congruence|left; split; congruence|right..].
  all: eexists _, _; split; [eassumption|]; split; [reflexivity|]; repeat constructor; auto.
Qed.

(** Why a local position may be closed: there was nothing to reduce, or confirmed
    fills leave less than one step of the authoritative quantity, or the exchange
    refused the order as already flat and no snapshot showed the position open. *)
Theorem exit_closed_justified {W} {A : ExchangeAdapter W} d auth step ids w x w' log :
  run_traced (execute_reduce_only_exit (H := traced A) d auth step ids) w = (Ok x, w', log) ->
  position_closed x = true <->
  xd_verdict d = ALREADY_FLAT \/
  (exists rcpt fills q v fee oids t rem,
     xd_verdict d = EXIT_APPROVED /\ reduce_call d (Ok rcpt) ∈ log /\ fills_call d rcpt (Ok fills) ∈ log /\
     _aggregate_fills fills = (q, v, fee, oids, t) /\ oids <> [] /\ (0 < dval q)%Q /\
     xr_reduced_quantity x = q /\ floor_to_step (dmax dzero (auth - q)) step = Ok rem /\ (dval rem <= 0)%Q) \/
  (exists s, reduce_call d (Raise ReduceOnlyAlreadyFlat) ∈ log /\ CallSnapshot s ∈ log /\ seen_open d s = false).
Proof.
  intros H. apply execute_exit_shape in H. remember (Ok x) as rx eqn:Ex.
  assert (forall st cid oid c, position_closed (exit_result st REDUCING cid oid c) = false) as Hn
    by (intros; unfold position_closed; simpl; by rewrite andb_false_r).
  destruct H as [Hv|Hv|s cl Hv Hs Hc|s Hv Hs|e Hv He|rcpt e Hv|rcpt fills q v fee oids t Hv Ha Hu
    |rcpt fills q v fee oids t e Hv Ha Hi Hq Hf|rcpt fills q v fee oids t rem cl Hv Ha Hi Hq Hf Hr Hc
    |rcpt fills q v fee oids t rem Hv Ha Hi Hq Hf Hr].
  - injection Ex as <-. rewrite Hn. split; [done|].
    intros [?|[(? & ? & ? & ? & ? & ? & ? & ? & ? & _)|(s & Hin & _)]]; [congruence|congruence|by apply elem_of_nil in Hin].
  - injection Ex as <-. split; [by left|done].
  - injection Ex as <-. split; [|done]. intros _. right. right. exists s. split; [left|]. split; [right; left|done].
  - injection Ex as <-. rewrite Hn. split; [done|].
    intros [?|[(? & ? & ? & ? & ? & ? & ? & ? & ? & Hin & _)|(s' & _ & Hin & Hs')]]; [congruence| |].
    + unfold reduce_call in Hin. elem_cases Hin.
    + unfold reduce_call in Hin. elem_cases Hin.
  - assert (position_closed x = false) as -> by (destruct e; try discriminate; injection Ex as <-; apply Hn).
    split; [done|].
    intros [?|[(? & ? & ? & ? & ? & ? & ? & ? & ? & Hin & _)|(s' & Hin & _)]]; [congruence| |];
      unfold reduce_call in Hin; elem_cases Hin.
  - assert (position_closed x = false) as -> by (destruct e; try discriminate; injection Ex as <-; apply Hn).
    split; [done|].
    intros [?|[(? & ? & ? & ? & ? & ? & ? & ? & ? & _ & Hin & _)|(s' & Hin & _)]]; [congruence| |];
      unfold reduce_call, fills_call in Hin; elem_cases Hin.
  - injection Ex as <-. rewrite Hn. split; [done|].
    intros [?|[(rcpt' & fills' & q' & v' & fee' & oids' & t' & ? & _ & Hin & Hin2 & Ha' & Hne & Hq' & _)|(s' & Hin & _)]];
      [congruence| |unfold reduce_call, fills_call in Hin; elem_cases Hin].
    unfold reduce_call, fills_call in Hin2. elem_cases Hin2.
    assert (oids' = oids /\ q' = q) as [-> ->] by (split; congruence). destruct Hu; [done|lra].
  - discriminate.
  - injection Ex as <-. split; [|done]. intros _. right. left. exists rcpt, fills, q, v, fee, oids, t, rem.
    split; [done|]. split; [left|]. split; [right; left|]. by split_and!.
  - injection Ex as <-. split; [done|].
    intros [?|[(rcpt' & fills' & q' & v' & fee' & oids' & t' & rem' & _ & Hin & Hin2 & Ha' & Hne & Hq' & _ & Hf' & Hr')|(s' & Hin & _)]];
      [congruence| |unfold reduce_call, fills_call in Hin; elem_cases Hin].
    unfold reduce_call, fills_call in Hin2. elem_cases Hin2.
    assert (q' = q) as -> by congruence. assert (rem' = rem) as -> by congruence. lra.
Qed.

(** ** Concrete runs *)

Definition sample_exit : ExitDecision :=
  mkExitDecision EXIT_APPROVED "pos-1" "BTC/USDT" "long" HARD_STOP (mkDec 5 (-3)) "v2x-1" true None.
Definition exit_order (oid : string) : ExchangeOrderReceipt :=
  mkOrderReceipt oid "v2x-1" "BTC/USDT" "sell" "market" (mkDec 5 (-3)) None "closed" 0 true.
Definition exit_script (reduce : res ExchangeOrderReceipt) (snapshot : res AuthoritativeAccountSnapshot) : Script :=
  mkScript (Raise BinanceAdapterUnavailable) (Ok [mkFill "988" "t9" (mkDec 5 (-3)) (dint 63000) dzero 9])
    (Raise BinanceAdapterUnavailable) reduce (Ok (exit_order "1")) (Ok None) snapshot.
Definition sample_exit_run (auth : Dec) (s : Script) : res ExitExecutionResult * Script * list AdapterCall :=
  run_traced (execute_reduce_only_exit (H := traced scripted) sample_exit auth (mkDec 1 (-3)) ["555"%string]) s.
Definition filled_exit : Script := exit_script (Ok (exit_order "988")) (Raise BinanceAdapterUnavailable).
Definition flat_exit : Script := exit_script (Raise ReduceOnlyAlreadyFlat) (Raise BinanceAdapterUnavailable).

Lemma triple_parts {A B C} (x : A * B * C) : x = (x.1.1, x.1.2, x.2).
Proof. by destruct x as [[? ?] ?]. Qed.

Lemma sample_exit_run_parts auth s :
  run_traced (execute_reduce_only_exit (H := traced scripted) sample_exit auth (mkDec 1 (-3)) ["555"%string]) s =
  ((sample_exit_run auth s).1.1, (sample_exit_run auth s).1.2, (sample_exit_run auth s).2).
Proof. apply triple_parts. Qed.

Lemma exit_gate_spec_witness :
  exists d, evaluate_exit "pos-1" "BTC/USDT" "long" TIME_EXIT (dint 1)
    (Some (mkExchangePosition "BTC/USDT" "long" (mkDec 55 (-4)) (dint 64000) (dint 64010) dzero None))
    (mkDec 1 (-3)) 1 (Some true) true = Ok d /\ exit_approved d = true /\
  exists p q, Some (mkExchangePosition "BTC/USDT" "long" (mkDec 55 (-4)) (dint 64000) (dint 64010) dzero None) = Some p /\
    exit_sendable "long" (dint 1) p (mkDec 1 (-3)) (Some true) true q.
Proof.
  exists_ok. split; [reflexivity|].
  refine (proj1 (proj1 (exit_gate_spec "pos-1" "BTC/USDT" "long" TIME_EXIT (dint 1)
    (Some (mkExchangePosition "BTC/USDT" "long" (mkDec 55 (-4)) (dint 64000) (dint 64010) dzero None))
    (mkDec 1 (-3)) 1 (Some true) true _ ltac:(vm_compute; reflexivity))) _). reflexivity.
Defined.

Lemma exit_never_adds_risk_witness :
  exists rr rest, (sample_exit_run (mkDec 55 (-4)) filled_exit).2 = reduce_call sample_exit rr :: rest.
Proof.
  destruct (exit_never_adds_risk sample_exit (mkDec 55 (-4)) (mkDec 1 (-3)) ["555"%string] filled_exit _ _ _
    (sample_exit_run_parts (mkDec 55 (-4)) filled_exit)) as [[_ H]|(rr & rest & _ & H & _)].
  - exfalso. by apply H.
  - exists rr, rest. exact H.
Defined.

(** The residual after the confirmed fill is not zero: half a step of the
    authoritative quantity stays open on the exchange, yet the position is closed
    locally and its protection order is cancelled. *)
Theorem exit_closes_with_residual :
  match (sample_exit_run (mkDec 55 (-4)) filled_exit).1.1 with
  | Ok x => position_closed x = true /\
            (0 < dval (mkDec 55 (-4)) - dval (xr_reduced_quantity x))%Q /\
            xr_residual_protection_cancelled x = ["555"%string]
  | Raise _ => False
  end.
Proof. vm_compute. repeat split. Qed.

(** When the exchange refuses the order as already flat and the account cannot
    be read, the position is closed without any confirmation that it is zero. *)
Theorem exit_closed_without_confirmation :
  match (sample_exit_run (mkDec 55 (-4)) flat_exit).1.1 with
  | Ok x => position_closed x = true /\
            (sample_exit_run (mkDec 55 (-4)) flat_exit).2 !! 1%nat = Some (CallSnapshot (Raise BinanceAdapterUnavailable))
  | Raise _ => False
  end.
Proof. vm_compute. split; reflexivity. Qed.

Definition closed_exit_result : ExitExecutionResult :=
  match (sample_exit_run (mkDec 5 (-3)) filled_exit).1.1 with
  | Ok x => x
  | Raise _ => exit_result EXIT_FAILED REDUCING "" None []
  end.

Lemma exit_closed_justified_witness :
  xd_verdict sample_exit = EXIT_APPROVED /\
  (xd_verdict sample_exit = ALREADY_FLAT \/
   (exists rcpt fills q v fee oids t rem,
     xd_verdict sample_exit = EXIT_APPROVED /\
     reduce_call sample_exit (Ok rcpt) ∈ (sample_exit_run (mkDec 5 (-3)) filled_exit).2 /\
     fills_call sample_exit rcpt (Ok fills) ∈ (sample_exit_run (mkDec 5 (-3)) filled_exit).2 /\
     _aggregate_fills fills = (q, v, fee, oids, t) /\ oids <> [] /\ (0 < dval q)%Q /\
     xr_reduced_quantity closed_exit_result = q /\
     floor_to_step (dmax dzero (mkDec 5 (-3) - q)) (mkDec 1 (-3)) = Ok rem /\ (dval rem <= 0)%Q) \/
   (exists s, reduce_call sample_exit (Raise ReduceOnlyAlreadyFlat) ∈ (sample_exit_run (mkDec 5 (-3)) filled_exit).2 /\
     CallSnapshot s ∈ (sample_exit_run (mkDec 5 (-3)) filled_exit).2 /\ seen_open sample_exit s = false)).
Proof.
  split; [reflexivity|].
  assert (sample_exit_run (mkDec 5 (-3)) filled_exit =
    (Ok closed_exit_result, (sample_exit_run (mkDec 5 (-3)) filled_exit).1.2, (sample_exit_run (mkDec 5 (-3)) filled_exit).2))
    as Hrun by (vm_compute; reflexivity).
  unfold sample_exit_run at 1 in Hrun.
  apply (proj1 (exit_closed_justified sample_exit (mkDec 5 (-3)) (mkDec 1 (-3)) ["555"%string] filled_exit
    closed_exit_result _ _ Hrun)).
  vm_compute. reflexivity.
Defined.
