(* ===== verification/Protection.v ===== *)
(** * Protection: every exchange-confirmed position gets protected

    [application/protection_service.py]: the protection plan derived from a
    fill, and the escalation ladder (submit, re-read and retry, emergency
    reduce-only close, account-wide entry block).  The retry loop is structural
    in the attempts that remain. *)
From S2P Require Import Prelude PyDecimal State Receipts ClientOrderId Candidates Adapter Quantities.
From Stdlib Require Import QArith Lqa.
Local Open Scope Z_scope.

Inductive ProtectionOutcome :=
  | PROT_ACTIVE | PROT_ALREADY_FLAT | PROT_UNKNOWN | EMERGENCY_CLOSED | EMERGENCY_CLOSE_PENDING.

Inductive ProtectionFailureAction :=
  | RETRIED_SUBMISSION | EMERGENCY_REDUCE_ONLY_CLOSE | ACCOUNT_ENTRY_BLOCK | HIGH_PRIORITY_ALERT.

#[export] Instance ProtectionOutcome_eq_dec : EqDecision ProtectionOutcome.
Proof. solve_decision. Defined.

Record ProtectionPlan := mkPlan {
  pl_position_id : string; pl_symbol : string; pl_direction : string; pl_quantity : Dec;
  pl_average_fill_price : Dec; pl_stop_price : Dec; pl_take_profit_price : option Dec;
  pl_stop_client_order_id : string; pl_tp_client_order_id : option string; pl_attempt : Z }.

(** [ProtectionPlan.__post_init__] *)
Definition make_ProtectionPlan (p : ProtectionPlan) : res ProtectionPlan :=
  let fill := pl_average_fill_price p in
  assert_or (negb (pl_quantity p <=? dzero)%D) (ValueError "protection quantity must be > 0") ≫= fun _ =>
  assert_or (negb (pl_stop_price p <=? dzero)%D) (ValueError "stop price must be > 0") ≫= fun _ =>
  (if String.eqb (pl_direction p) "long" then
     assert_or (pl_stop_price p <? fill)%D (ValueError "long stop must be below fill") ≫= fun _ =>
     assert_or (match pl_take_profit_price p with Some t => (fill <? t)%D | None => true end)
       (ValueError "long take-profit must be above fill")
   else if String.eqb (pl_direction p) "short" then
     assert_or (fill <? pl_stop_price p)%D (ValueError "short stop must be above fill") ≫= fun _ =>
     assert_or (match pl_take_profit_price p with Some t => (t <? fill)%D | None => true end)
       (ValueError "short take-profit must be below fill")
   else Raise (ValueError "direction must be long or short")) ≫= fun _ =>
  Ok p.

Definition protection_side (p : ProtectionPlan) : string :=
  if String.eqb (pl_direction p) "long" then "sell" else "buy".

Record ProtectionResult := mkProtectionResult {
  ps_outcome : ProtectionOutcome; ps_state : V2ProtectionState; ps_stop_exchange_order_id : option string;
  ps_tp_exchange_order_id : option string; ps_actions : list ProtectionFailureAction;
  ps_account_entry_blocked : bool; ps_attempts : Z }.

Definition protection_is_active (r : ProtectionResult) : bool :=
  bool_decide (ps_state r = PROTECTION_ACTIVE) && ostr_truthy (ps_stop_exchange_order_id r).
Definition requires_manual_intervention (r : ProtectionResult) : bool :=
  bool_decide (ps_outcome r = EMERGENCY_CLOSE_PENDING).

(** [target_client_order_id(...) if take_profit_price else None]. *)
Definition tp_id_if (take_profit : option Dec) (position_id : string) (revision : Z) : res (option string) :=
  match take_profit with
  | Some t => if dtruthy t then target_client_order_id position_id revision ≫= fun i => Ok (Some i) else Ok None
  | None => Ok None
  end.

Definition build_protection_plan (position_id : string) (candidate : TradeCandidate)
    (average_fill_price filled_quantity tick_size : Dec) (attempt : Z) : res ProtectionPlan :=
  assert_or (negb (average_fill_price <=? dzero)%D) (ValueError "average_fill_price must be > 0") ≫= fun _ =>
  assert_or (negb (filled_quantity <=? dzero)%D) (ValueError "filled_quantity must be > 0") ≫= fun _ =>
  resolve_protection_prices candidate average_fill_price ≫= fun '(raw_stop, raw_target) =>
  let direction := tc_direction candidate in
  round_to_tick raw_stop tick_size direction LegStop ≫= fun stop_price =>
  (match raw_target with
   | Some t => round_to_tick t tick_size direction LegTarget ≫= fun t => Ok (Some t)
   | None => Ok None
   end) ≫= fun take_profit_price =>
  stop_client_order_id position_id attempt ≫= fun stop_id =>
  tp_id_if take_profit_price position_id attempt ≫= fun tp_id =>
  make_ProtectionPlan (mkPlan position_id (tc_symbol candidate) direction filled_quantity average_fill_price
    stop_price take_profit_price stop_id tp_id attempt).

(** ** The escalation ladder *)

Local Open Scope py_scope.

Fixpoint quantity_of (symbol direction : string) (l : list ExchangePositionSnapshot) : Dec :=
  match l with
  | [] => dzero
  | p :: l => if String.eqb (xp_symbol p) symbol && String.eqb (xp_direction p) direction
              then xp_quantity p else quantity_of symbol direction l
  end.

Definition _exchange_quantity_for {W} `{ExchangeAdapter W} (symbol direction : string) : SM W Dec :=
  let! snapshot := fetch_authoritative_snapshot in
  sret (quantity_of symbol direction (as_positions snapshot)).

Definition _escalate_emergency {W} `{ExchangeAdapter W} (plan : ProtectionPlan)
    (actions : list ProtectionFailureAction) (attempts : Z) : SM W ProtectionResult :=
  let actions := actions ++ [EMERGENCY_REDUCE_ONLY_CLOSE] in
  let! cid := slift (exit_client_order_id (pl_position_id plan) (pl_attempt plan)) in
  let command := mkSubmitReduce (pl_position_id plan) "PROTECTION_FAILED_EMERGENCY_CLOSE" (pl_quantity plan) cid true in
  stry (submit_reduce_only_exit command (pl_symbol plan) (protection_side plan) ;;; sret tt)
    (fun e => match e with
     | ProtectionTimeout | ProtectionSubmissionError | BinanceAdapterUnavailable => Some (sret tt)
     | _ => None
     end) ;;;
  let pending := mkProtectionResult EMERGENCY_CLOSE_PENDING PROTECTION_FAILED None None
                   (actions ++ [ACCOUNT_ENTRY_BLOCK; HIGH_PRIORITY_ALERT]) true attempts in
  stry_else (_exchange_quantity_for (pl_symbol plan) (pl_direction plan))
    (fun _ => Some (sret pending))
    (fun live_quantity =>
  if (live_quantity <=? dzero)%D then
    sret (mkProtectionResult EMERGENCY_CLOSED PROTECTION_CANCELLED None None actions false attempts)
  else sret pending).

Definition protection_command (p : ProtectionPlan) : SubmitProtectionOrders :=
  mkSubmitProtection (pl_position_id p) (pl_stop_price p) (pl_take_profit_price p)
    (pl_stop_client_order_id p) (pl_tp_client_order_id p).

(** The plan of the next attempt: the live quantity and fresh client order ids. *)
Definition retry_plan (p : ProtectionPlan) (live_quantity : Dec) (attempt : Z) : res ProtectionPlan :=
  stop_client_order_id (pl_position_id p) (attempt + 1) ≫= fun stop_id =>
  tp_id_if (pl_take_profit_price p) (pl_position_id p) (attempt + 1) ≫= fun tp_id =>
  make_ProtectionPlan (mkPlan (pl_position_id p) (pl_symbol p) (pl_direction p) live_quantity
    (pl_average_fill_price p) (pl_stop_price p) (pl_take_profit_price p) stop_id tp_id (attempt + 1)).

(** After a rejected submission: re-read the position, then stop, retry or escalate. *)
Definition after_rejection {W} `{ExchangeAdapter W} (max_attempts attempt : Z) (current_plan : ProtectionPlan)
    (actions : list ProtectionFailureAction) (continue : ProtectionPlan -> SM W ProtectionResult) :
    SM W ProtectionResult :=
  stry_else (_exchange_quantity_for (pl_symbol current_plan) (pl_direction current_plan))
    (fun _ => Some (_escalate_emergency current_plan actions attempt))
    (fun live_quantity =>
  if (live_quantity <=? dzero)%D then
    sret (mkProtectionResult PROT_ALREADY_FLAT PROTECTION_CANCELLED None None actions false attempt)
  else if attempt <? max_attempts then
    let! plan := slift (retry_plan current_plan live_quantity attempt) in
    continue plan
  else _escalate_emergency current_plan actions attempt).

(** [for attempt in range(1, max_attempts + 1)], with [remaining] iterations left. *)
Fixpoint ensure_loop {W} `{ExchangeAdapter W} (max_attempts : Z) (remaining : nat) (attempt : Z)
    (current_plan : ProtectionPlan) (actions : list ProtectionFailureAction) : SM W ProtectionResult :=
  match remaining with
  | O => _escalate_emergency current_plan actions max_attempts
  | S remaining =>
      stry_else (submit_protection (protection_command current_plan) (pl_symbol current_plan)
                   (protection_side current_plan) (pl_quantity current_plan))
        (fun e => match e with
         | ProtectionTimeout =>
             Some (sret (mkProtectionResult PROT_UNKNOWN PROTECTION_UNKNOWN None None actions false attempt))
         | ProtectionSubmissionError | BinanceAdapterUnavailable =>
             Some (after_rejection max_attempts attempt current_plan actions (fun plan =>
               ensure_loop max_attempts remaining (attempt + 1) plan (actions ++ [RETRIED_SUBMISSION])))
         | _ => None
         end)
        (fun '(stop_receipt, tp_receipt) =>
         if negb (str_truthy (or_exchange_order_id stop_receipt)) then
           _escalate_emergency current_plan actions attempt
         else
           sret (mkProtectionResult PROT_ACTIVE PROTECTION_ACTIVE (Some (or_exchange_order_id stop_receipt))
                   (or_exchange_order_id <$> tp_receipt) actions false attempt))
  end.

Definition ensure_protection {W} `{ExchangeAdapter W} (plan : ProtectionPlan) (max_attempts : Z) :
    SM W ProtectionResult :=
  ensure_loop max_attempts (Z.to_nat max_attempts) 1 plan [].

(** ** What the ladder guarantees *)

(** The outcome as justified by the last thing the exchange said. *)
Definition outcome_justified (symbol direction : string) (log : list AdapterCall) (x : ProtectionResult) : Prop :=
  match ps_outcome x with
  | PROT_ACTIVE => exists c side q stop tp,
      last log = Some (CallSubmitProtection c symbol side q (Ok (stop, tp))) /\
      or_exchange_order_id stop <> ""%string /\ ps_stop_exchange_order_id x = Some (or_exchange_order_id stop) /\
      ps_state x = PROTECTION_ACTIVE
  | PROT_UNKNOWN => exists c side q,
      last log = Some (CallSubmitProtection c symbol side q (Raise ProtectionTimeout)) /\
      ps_state x = PROTECTION_UNKNOWN
  | PROT_ALREADY_FLAT | EMERGENCY_CLOSED => exists s, last log = Some (CallSnapshot (Ok s)) /\
      (dval (quantity_of symbol direction (as_positions s)) <= 0)%Q /\ ps_state x = PROTECTION_CANCELLED
  | EMERGENCY_CLOSE_PENDING => ps_state x = PROTECTION_FAILED /\
      (exists c side rr, CallReduceOnly c symbol side rr ∈ log) /\
      exists s, last log = Some (CallSnapshot s) /\
        (is_ok s = false \/ exists a, s = Ok a /\ (0 < dval (quantity_of symbol direction (as_positions a)))%Q)
  end /\ (ps_account_entry_blocked x = true <-> ps_outcome x = EMERGENCY_CLOSE_PENDING).

(** How many orders a run of the ladder may have sent. *)
Definition calls_bounded (submissions : Z) (log : list AdapterCall) : Prop :=
  zcount is_protection_call log <= submissions /\ zcount is_reduce_call log <= 1 /\
  zcount is_entry_call log = 0.


Lemma outcome_justified_app symbol direction pre log x :
  log <> [] -> outcome_justified symbol direction log x -> outcome_justified symbol direction (pre ++ log) x.
Proof.
  intros Hne [H Hb]. split; [|done].
  assert (last (pre ++ log) = last log) as Hl by (rewrite last_app; by destruct (last log) eqn:E; [|apply last_None in E]).
  destruct (ps_outcome x); rewrite ?Hl; try done. destruct H as (? & (c & side & rr & Hin) & ?).
  split; [done|]. split; [exists c, side, rr; apply elem_of_app; by right|done].
Qed.

Lemma leb_dzero_true d : (d <=? dzero)%D = true -> (dval d <= 0)%Q.
Proof. intros H. apply dleb_spec in H. by rewrite (dval_zero 0) in H. Qed.
Lemma leb_dzero_false d : (d <=? dzero)%D = false -> (0 < dval d)%Q.
Proof. intros H. apply dleb_false in H. by rewrite (dval_zero 0) in H. Qed.

Section ladder.
Context {W} {A : ExchangeAdapter W}.
Implicit Types (st : W * list AdapterCall).

Lemma quantity_run symbol direction st r st' :
  _exchange_quantity_for (H := traced A) symbol direction st = (r, st') ->
  exists s, st'.2 = st.2 ++ [CallSnapshot s] /\
    r = match s with Ok a => Ok (quantity_of symbol direction (as_positions a)) | Raise e => Raise e end.
Proof. unfold _exchange_quantity_for. intros H. inv_traced; [exists (Ok x)|exists (Raise x)]; auto. Qed.

(** The emergency close of [_escalate_emergency], whose result is ignored. *)
Lemma reduce_step c symbol side h st r st' :
  (forall e k, h e = Some k -> k = sret tt) ->
  stry (sbind (@submit_reduce_only_exit _ (traced A) c symbol side) (fun _ => sret tt)) h st = (r, st') ->
  exists rr, st'.2 = st.2 ++ [CallReduceOnly c symbol side rr].
Proof.
  intros Hh H. apply stry_inv in H as [(? & H & ->)|(e & s1 & H & Hk)]; inv_traced; [by eexists|].
  case_match eqn:E; [apply Hh in E as ->; inv_run|destruct Hk as [_ ->]]; by eexists.
Qed.

Lemma escalate_run plan actions n st r st' :
  _escalate_emergency (H := traced A) plan actions n st = (r, st') ->
  exists l, st'.2 = st.2 ++ l /\ calls_bounded 0 l /\
    forall x, r = Ok x -> l <> [] /\ outcome_justified (pl_symbol plan) (pl_direction plan) l x.
Proof.
  unfold _escalate_emergency. intros H.
  apply sbind_inv in H as [(cid & s1 & Hc & H)|(e & Hc & ->)]; apply slift_inv in Hc as [_ ->];
    [|exists []; rewrite app_nil_r; by repeat split].
  apply sbind_inv in H as [([] & s2 & Hr & H)|(e & Hr & ->)];
    (apply reduce_step in Hr as [rr Hr]; [|by intros [] ? ?; simplify_eq]);
    [|eexists; split; [exact Hr|]; by repeat split].
  apply stry_else_inv in H as [(q & s3 & Hq & H)|(e & s3 & Hq & H)];
    apply quantity_run in Hq as (sn & Hl & Hs); rewrite Hr, <-app_assoc in Hl.
  - assert (s3 = st') as <- by (case_bool; by inv_run).
    exists [CallReduceOnly (mkSubmitReduce (pl_position_id plan) "PROTECTION_FAILED_EMERGENCY_CLOSE"
      (pl_quantity plan) cid true) (pl_symbol plan) (protection_side plan) rr; CallSnapshot sn].
    split; [done|]. split; [by repeat split|]. intros x ->. split; [done|].
    destruct sn as [a|]; [|done]. simplify_eq/=. case_bool; inv_run.
    + split; [|done]. exists a. split; [done|]. split; [by apply leb_dzero_true|done].
    + split; [|done]. split; [done|]. split; [do 3 eexists; constructor|].
      exists (Ok a). split; [done|]. right. exists a. split; [done|by apply leb_dzero_false].
  - inv_run. eexists [_; _]. split; [exact Hl|]. split; [by repeat split|]. intros x [= <-]. split; [done|].
    split; [|done]. split; [done|]. split; [do 3 eexists; constructor|]. exists sn. split; [done|].
    left. by destruct sn.
Qed.

(** A run of the ladder with [remaining] attempts left. *)
Definition ladder_log_ok (plan : ProtectionPlan) (remaining : nat) (l : list AdapterCall)
    (r : res ProtectionResult) : Prop :=
  calls_bounded (Z.of_nat remaining) l /\
  (forall pre c symbol side q post,
     l = pre ++ CallSubmitProtection c symbol side q (Raise ProtectionTimeout) :: post -> post = []) /\
  forall x, r = Ok x -> l <> [] /\ outcome_justified (pl_symbol plan) (pl_direction plan) l x.

Lemma no_protection_split l pre c symbol side q rr post :
  zcount is_protection_call l <= 0 -> l <> pre ++ CallSubmitProtection c symbol side q rr :: post.
Proof. intros H ->. rewrite zcount_app, zcount_cons in H. simpl in H. pose proof (zcount_nonneg is_protection_call pre).
  pose proof (zcount_nonneg is_protection_call post). lia. Qed.

Lemma escalate_log_ok plan actions n remaining st r st' :
  _escalate_emergency (H := traced A) plan actions n st = (r, st') ->
  exists l, st'.2 = st.2 ++ l /\ calls_bounded 0 l /\ ladder_log_ok plan remaining l r.
Proof.
  intros H. apply escalate_run in H as (l & Hl & Hc & Hx). exists l. split; [done|]. split; [done|].
  split; [destruct Hc as (? & ? & ?); repeat split; lia|]. split; [|done].
  intros pre c symbol side q post E. exfalso. eapply no_protection_split, E. apply Hc.
Qed.

(** One failed submission, then whatever the ladder does next. *)
Lemma ladder_log_cons plan remaining c side q rr l mid r :
  rr <> Raise ProtectionTimeout -> mid = [] \/ (exists s, mid = [CallSnapshot s]) ->
  ladder_log_ok plan remaining l r ->
  ladder_log_ok plan (S remaining)
    (CallSubmitProtection c (pl_symbol plan) side q rr :: mid ++ l) r.
Proof.
  intros He Hm ((H1 & H2 & H3) & Ht & Hx). split; [|split].
  - destruct Hm as [->|[s ->]]; repeat split; simpl; rewrite !zcount_cons; simpl; lia.
  - intros pre c' symbol' side' q' post E. destruct Hm as [->|[s ->]]; simpl in E.
    + destruct pre as [|? pre]; simplify_eq/=. by eapply Ht.
    + destruct pre as [|? [|? pre]]; simplify_eq/=. by eapply Ht.
  - intros x ->. destruct (Hx x eq_refl) as [Hne Hj]. split; [done|].
    rewrite app_comm_cons. by apply outcome_justified_app.
Qed.

Lemma make_plan_inv p p' : make_ProtectionPlan p = Ok p' -> p' = p.
Proof. unfold make_ProtectionPlan. intros H. inv_asserts. apply res_bind_ok in H as (? & _ & [= ->]). done. Qed.

Lemma retry_plan_inv p q n p' :
  retry_plan p q n = Ok p' -> pl_symbol p' = pl_symbol p /\ pl_direction p' = pl_direction p /\ pl_quantity p' = q.
Proof.
  unfold retry_plan. intros H. apply res_bind_ok in H as (? & _ & H). apply res_bind_ok in H as (? & _ & H).
  by apply make_plan_inv in H as ->.
Qed.

(** The ladder stops after one submission, or after the read that follows it. *)
Lemma ladder_log_stop plan remaining c side q rr mid x :
  mid = [] \/ rr <> Raise ProtectionTimeout /\ (exists s, mid = [CallSnapshot s]) ->
  outcome_justified (pl_symbol plan) (pl_direction plan)
    (CallSubmitProtection c (pl_symbol plan) side q rr :: mid) x ->
  ladder_log_ok plan (S remaining) (CallSubmitProtection c (pl_symbol plan) side q rr :: mid) (Ok x).
Proof.
  intros Hm Hj. split; [|split; [|by intros ? [= <-]]].
  - destruct Hm as [->|[_ [s ->]]]; repeat split; unfold zcount; simpl; lia.
  - intros pre c' symbol' side' q' post E. destruct Hm as [->|[? [s ->]]].
    + destruct pre as [|? [|]]; by simplify_eq/=.
    + destruct pre as [|? [|? [|]]]; by simplify_eq/=.
Qed.

Lemma ladder_log_raise plan remaining c side q rr e :
  ladder_log_ok plan (S remaining) [CallSubmitProtection c (pl_symbol plan) side q rr] (Raise e).
Proof.
  split; [repeat split; unfold zcount; simpl; lia|]. split; [|done].
  intros pre c' symbol' side' q' post E. destruct pre as [|? [|]]; by simplify_eq/=.
Qed.

Lemma after_rejection_run max_attempts attempt remaining plan actions continue st r st' c side q rr :
  rr <> Raise ProtectionTimeout ->
  (forall plan' st1 r' st2, continue plan' st1 = (r', st2) ->
     exists l, st2.2 = st1.2 ++ l /\ ladder_log_ok plan' remaining l r') ->
  after_rejection (H := traced A) max_attempts attempt plan actions continue
    (st.1, st.2 ++ [CallSubmitProtection c (pl_symbol plan) side q rr]) = (r, st') ->
  exists l, st'.2 = st.2 ++ l /\ ladder_log_ok plan (S remaining) l r.
Proof.
  intros Hrr IH H. unfold after_rejection in H.
  apply stry_else_inv in H as [(live & s1 & Hq & H)|(e & s1 & Hq & H)];
    apply quantity_run in Hq as (sn & Hl & Hs); cbn [snd] in Hl; rewrite <-app_assoc in Hl;
    assert ([CallSnapshot sn] = [] \/ exists s, [CallSnapshot sn] = [CallSnapshot s]) as Hmid by eauto.
  - case_bool; [|case_bool].
    + inv_run. eexists; split; [exact Hl|]. apply ladder_log_stop; [right; eauto|].
      destruct sn as [a|]; [|done]. simplify_eq/=. split; [|done]. exists a. split; [done|].
      split; [by apply leb_dzero_true|done].
    + apply sbind_inv in H as [(plan' & s2 & Hp & H)|(e & Hp & ->)]; apply slift_inv in Hp as [Hp ->].
      * apply IH in H as (l & Hl' & Hok). rewrite Hl, <-app_assoc in Hl'.
        eexists; split; [exact Hl'|]. apply (ladder_log_cons _ _ _ _ _ _ l [CallSnapshot sn]); [done|done|].
        destruct Hok as (Hc & Ht & Hx). symmetry in Hp. apply retry_plan_inv in Hp as (E1 & E2 & _).
        rewrite E1, E2 in Hx. by split.
      * eexists; split; [exact Hl|].
        apply (ladder_log_cons _ _ _ _ _ _ [] [CallSnapshot sn]); [done|done|]. split; [by repeat split; unfold zcount; simpl; lia|].
        split; [by intros [] ? ? ? ? ?|done].
    + apply (escalate_log_ok _ _ _ remaining) in H as (l & Hl' & _ & Hok). rewrite Hl, <-app_assoc in Hl'.
      eexists; split; [exact Hl'|]. by apply (ladder_log_cons _ _ _ _ _ _ l [CallSnapshot sn]).
  - apply (escalate_log_ok _ _ _ remaining) in H as (l & Hl' & _ & Hok). rewrite Hl, <-app_assoc in Hl'.
    eexists; split; [exact Hl'|]. by apply (ladder_log_cons _ _ _ _ _ _ l [CallSnapshot sn]).
Qed.

Lemma ensure_loop_run max_attempts remaining : forall attempt plan actions st r st',
  ensure_loop (H := traced A) max_attempts remaining attempt plan actions st = (r, st') ->
  exists l, st'.2 = st.2 ++ l /\ ladder_log_ok plan remaining l r.
Proof.
  induction remaining as [|n IH]; intros attempt plan actions st r st' H.
  - apply (escalate_log_ok _ _ _ 0%nat) in H as (l & Hl & _ & Hx). by exists l.
  - simpl in H. apply stry_else_inv in H as [([stop tp] & s1 & Hs & H)|(e & s1 & Hs & H)];
      apply traced_submit_protection in Hs as (w1 & _ & ->).
    + case_bool.
      * apply (escalate_log_ok _ _ _ n) in H as (l & Hl & Hc & Hx). cbn [snd] in Hl.
        rewrite <-app_assoc in Hl. eexists; split; [exact Hl|].
        by apply (ladder_log_cons _ _ _ _ _ _ l []); [|left|].
      * inv_run. eexists; split; [reflexivity|]. apply ladder_log_stop; [by left|].
        split; [|done]. do 5 eexists. split; [done|]. split; [|done].
        by apply str_truthy_true, negb_false_iff.
    + destruct e; try (destruct H as [-> ->]; eexists; split; [reflexivity|apply ladder_log_raise]).
      * refine (after_rejection_run _ _ n _ _ _ (w1, st.2) r st' _ _ _ _ _ _ H); [done|eauto].
      * inv_run. eexists; split; [reflexivity|]. apply ladder_log_stop; [by left|].
        split; [|done]. by do 3 eexists.
      * refine (after_rejection_run _ _ n _ _ _ (w1, st.2) r st' _ _ _ _ _ _ H); [done|eauto].
Qed.
End ladder.

Definition beyond (up : bool) (x y : Dec) : Prop := if up then (dval y < dval x)%Q else (dval x < dval y)%Q.

Lemma make_plan_spec p p' :
  make_ProtectionPlan p = Ok p' -> p' = p /\ (0 < dval (pl_quantity p))%Q /\ (0 < dval (pl_stop_price p))%Q /\
  beyond (negb (String.eqb (pl_direction p) "long")) (pl_stop_price p) (pl_average_fill_price p) /\
  (forall t, pl_take_profit_price p = Some t ->
     beyond (String.eqb (pl_direction p) "long") t (pl_average_fill_price p)).
Proof.
  intros H. pose proof (make_plan_inv _ _ H) as ->. unfold make_ProtectionPlan in H. inv_asserts.
  apply not_leb_zero in H0, H1. split; [done|]. split; [done|]. split; [done|].
  apply res_bind_ok in H as (u & H & _). destruct u.
  destruct (String.eqb_spec (pl_direction p) "long"); [|destruct (String.eqb_spec (pl_direction p) "short"); [|done]];
    inv_asserts; apply dltb_spec in H2; (split; [done|]); intros t E; rewrite E in H; by apply dltb_spec in H.
Qed.

(** ** Claims *)

(** C33. Gate 8.  The outcome that [ensure_protection] reports is what the exchange
    last said: ACTIVE only after a submission acknowledged with a non-empty stop
    order id; flat or closed only after a snapshot read without the position;
    UNKNOWN only when a submission timed out; and an unprotected live (or
    unverifiable) position is always EMERGENCY_CLOSE_PENDING with an attempted
    reduce-only close and the account blocked. *)
Theorem protection_outcome_sound {W} {A : ExchangeAdapter W} plan max_attempts (w : W) x w' log :
  run_traced (ensure_protection (H := traced A) plan max_attempts) w = (Ok x, w', log) ->
  outcome_justified (pl_symbol plan) (pl_direction plan) log x.
Proof.
  intros H%run_traced_inv. apply ensure_loop_run in H as (l & Hl & _ & _ & Hx).
  cbn in Hl. subst l. by apply Hx.
Qed.

(** The ladder never sends an entry order, sends at most [max_attempts] protection
    submissions and at most one reduce-only order, and a submission whose outcome
    is unknown is the last call: it is never resubmitted. *)
Theorem protection_calls_bounded {W} {A : ExchangeAdapter W} plan max_attempts (w : W) r w' log :
  run_traced (ensure_protection (H := traced A) plan max_attempts) w = (r, w', log) ->
  zcount is_protection_call log <= Z.max 0 max_attempts /\ zcount is_reduce_call log <= 1 /\
  zcount is_entry_call log = 0 /\
  (forall pre c symbol side q post,
     log = pre ++ CallSubmitProtection c symbol side q (Raise ProtectionTimeout) :: post -> post = []).
Proof.
  intros H%run_traced_inv. apply ensure_loop_run in H as (l & Hl & (H1 & H2 & H3) & Ht & _).
  cbn in Hl. subst l. split; [lia|]. by split; [|split].
Qed.

(** A plan built from a fill brackets it: the stop is positive and strictly on the
    losing side, the target strictly on the winning side, each the tick next to the
    resolved price on the side that loses less. *)
Theorem protection_plan_brackets_fill position_id c fill quantity tick attempt p :
  build_protection_plan position_id c fill quantity tick attempt = Ok p ->
  let long := String.eqb (tc_direction c) "long" in
  let grid (up : bool) := if up then grid_ceil else grid_floor in
  pl_quantity p = quantity /\ (0 < dval quantity)%Q /\ (0 < dval (pl_stop_price p))%Q /\
  beyond (negb long) (pl_stop_price p) fill /\
  exists raw_stop raw_target, resolve_protection_prices c fill = Ok (raw_stop, raw_target) /\
    (exact_grid raw_stop tick = true -> grid long (dval raw_stop) (dval tick) (dval (pl_stop_price p))) /\
    (forall t, pl_take_profit_price p = Some t ->
       beyond long t fill /\
       exists t0, raw_target = Some t0 /\
         (exact_grid t0 tick = true -> grid (negb long) (dval t0) (dval tick) (dval t))).
Proof.
  unfold build_protection_plan. intros H. cbv zeta.
  inv_asserts.
  apply res_bind_ok in H as ([raw_stop raw_target] & Hr & H).
  apply res_bind_ok in H as (stop & Hs & H). apply res_bind_ok in H as (take & Ht & H).
  apply res_bind_ok in H as (sid & _ & H). apply res_bind_ok in H as (tid & _ & H).
  apply make_plan_spec in H as (-> & Hq & Hst & Hbs & Hbt). cbn in *.
  split; [done|]. split; [done|]. split; [done|]. split; [done|]. exists raw_stop, raw_target. split; [done|].
  split; [intros Hg; apply round_to_tick_grid in Hs; [|done]; by destruct (String.eqb _ _)|].
  intros t ->. split; [by apply Hbt|]. destruct raw_target as [t0|]; [|done]. exists t0. split; [done|].
  intros Hg. apply res_bind_ok in Ht as (t' & Ht & [= <-]). apply round_to_tick_grid in Ht; [|done].
  by destruct (String.eqb _ _).
Qed.

(** ** Evaluation *)

Definition sample_order (id cid : string) : ExchangeOrderReceipt :=
  mkOrderReceipt id cid "BTC/USDT" "sell" "STOP_MARKET" (mkDec 5 (-3)) None "NEW" 70000000 true.

Definition live_account : AuthoritativeAccountSnapshot :=
  mkAccountSnapshot (dint 5000) (dint 5000)
    [mkExchangePosition "BTC/USDT" "long" (mkDec 5 (-3)) (dint 64010) (dint 64000) dzero None] [] 70000000.

Definition sample_protection_script (protect : res (ExchangeOrderReceipt * option ExchangeOrderReceipt)) : Script :=
  mkScript (Raise BinanceAdapterUnavailable) (Ok []) protect (Raise BinanceAdapterUnavailable)
    (Raise BinanceAdapterUnavailable) (Ok None) (Ok live_account).

Definition sample_plan (attempt : Z) : ProtectionPlan :=
  match stop_client_order_id "pos-1" attempt with
  | Ok stop_id => mkPlan "pos-1" "BTC/USDT" "long" (mkDec 5 (-3)) (dint 64010) (dint 63690) None stop_id None attempt
  | Raise _ => mkPlan "" "" "" dzero dzero dzero None "" None 0
  end.

Definition sample_ladder (attempt : Z) (s : Script) : res ProtectionResult * Script * list AdapterCall :=
  run_traced (ensure_protection (H := traced scripted) (sample_plan attempt) 2) s.

Lemma sample_ladder_parts attempt s :
  run_traced (ensure_protection (H := traced scripted) (sample_plan attempt) 2) s =
  ((sample_ladder attempt s).1.1, (sample_ladder attempt s).1.2, (sample_ladder attempt s).2).
Proof. unfold sample_ladder. by destruct (run_traced _ _) as [[? ?] ?]. Qed.

Definition active_script : Script := sample_protection_script (Ok (sample_order "701" "v2s", None)).
Definition rejecting_script : Script := sample_protection_script (Raise ProtectionSubmissionError).

Definition active_result : ProtectionResult :=
  mkProtectionResult PROT_ACTIVE PROTECTION_ACTIVE (Some "701"%string) None [] false 1.

Lemma protection_outcome_sound_witness :
  outcome_justified (pl_symbol (sample_plan 1)) (pl_direction (sample_plan 1))
    (sample_ladder 1 active_script).2 active_result.
Proof.
  refine (protection_outcome_sound (A := scripted) (sample_plan 1) 2 active_script active_result
    (sample_ladder 1 active_script).1.2 _ _).
  rewrite sample_ladder_parts. assert ((sample_ladder 1 active_script).1.1 = Ok active_result) as ->
    by (vm_compute; reflexivity). reflexivity.
Defined.

Lemma protection_calls_bounded_witness :
  zcount is_protection_call (sample_ladder 1 rejecting_script).2 <= 2 /\
  zcount is_protection_call (sample_ladder 1 rejecting_script).2 = 2.
Proof.
  split; [|vm_compute; reflexivity].
  exact (proj1 (protection_calls_bounded (A := scripted) (sample_plan 1) 2 rejecting_script _ _ _
    (sample_ladder_parts 1 rejecting_script))).
Defined.

Definition sample_built_plan : res ProtectionPlan :=
  build_protection_plan "pos-1" sample_candidate (mkDec 6401003 (-2)) (mkDec 5 (-3)) (mkDec 1 (-1)) 1.

Lemma protection_plan_brackets_fill_witness :
  match sample_built_plan with
  | Ok p => (0 < dval (pl_stop_price p))%Q
  | Raise _ => False
  end.
Proof.
  destruct sample_built_plan as [p|e] eqn:E; [|by vm_compute in E].
  exact (proj1 (proj2 (proj2 (protection_plan_brackets_fill "pos-1" sample_candidate (mkDec 6401003 (-2))
    (mkDec 5 (-3)) (mkDec 1 (-1)) 1 p E)))).
Defined.

(** The client order id of each protection submission of a trace. *)
Definition stop_ids (l : list AdapterCall) : list string :=
  omap (fun c => match c with CallSubmitProtection c _ _ _ _ => Some (sp_stop_client_order_id c) | _ => None end) l.

(** A plan of attempt 2 (as recovery builds it for a position already protected
    once) is retried under the same client order id after a rejection: the retry
    numbers the loop, not the plan. *)
Theorem retry_reuses_client_order_id :
  exists i, stop_ids (sample_ladder 2 rejecting_script).2 = [i; i] /\ i <> ""%string.
Proof. eexists. split; [vm_compute; reflexivity|done]. Qed.
