(* ===== verification/Recovery.v ===== *)
(** * Recovery: planning a restart without creating risk

    [application/recovery_service.py]: the reduce-only action plan derived from
    the exchange snapshot, the reconciliation findings, the intents in flight and
    the pending emergency closes.  Notes and reasons are free text and are not
    modelled; the exchange order ids, which no branch of the planner reads, are not
    passed. *)
From S2P Require Import Prelude PyDecimal State Receipts ClientOrderId Adapter Reconciliation.
Local Open Scope Z_scope.

Inductive RecoveryActionType :=
  | RESOLVE_UNKNOWN_INTENT_BY_CLIENT_ID | MARK_INTENT_NOT_SUBMITTED | RESUBMIT_PROTECTION
  | RECOVERY_EMERGENCY_CLOSE | QUARANTINE_EXTERNAL_POSITION | QUARANTINE_LOCAL_GHOST_POSITION
  | CANCEL_ORPHAN_PROTECTION_ORDER | MANUAL_INTERVENTION_REQUIRED.

#[export] Instance RecoveryActionType_eq_dec : EqDecision RecoveryActionType.
Proof. solve_decision. Defined.

Record RecoveryAction := mkAction {
  ra_action_type : RecoveryActionType; ra_target_ref : string; ra_symbol : option string;
  ra_reduce_only : bool }.

(** [RecoveryAction.__post_init__] *)
Definition make_RecoveryAction (a : RecoveryAction) : res RecoveryAction :=
  assert_or (ra_reduce_only a) (ValueError "must be reduce-only") ≫= fun _ => Ok a.

(** A constructor call with the default [reduce_only=True]. *)
Definition action (t : RecoveryActionType) (ref : string) (symbol : option string) : RecoveryAction :=
  mkAction t ref symbol true.

Record PendingIntentView := mkPendingIntent {
  pi_intent_id : string; pi_symbol : string; pi_client_order_id : string; pi_state : V2IntentState }.

Record EmergencyCloseRequest := mkEmergencyClose {
  ec_position_id : string; ec_symbol : string; ec_direction : string; ec_quantity : Dec }.

Record RecoveryResult := mkRecoveryResult {
  rr_actions : list RecoveryAction; rr_entry_blocked : bool; rr_unresolved_refs : list string;
  rr_resolved_refs : list string; rr_recovered_at : option datetime }.

Definition is_type_of (t : RecoveryActionType) (a : RecoveryAction) : bool := bool_decide (ra_action_type a = t).
Definition recovery_requires_manual_intervention (r : RecoveryResult) : bool :=
  existsb (is_type_of MANUAL_INTERVENTION_REQUIRED) (rr_actions r).
Definition recovery_reduce_only_exit_allowed (r : RecoveryResult) : bool := true.

Definition code_value (c : DiscrepancyCode) : string :=
  match c with
  | SNAPSHOT_UNAVAILABLE => "SNAPSHOT_UNAVAILABLE"
  | EXTERNAL_POSITION_UNCLAIMABLE => "EXTERNAL_POSITION_UNCLAIMABLE"
  | LOCAL_POSITION_MISSING_AT_EXCHANGE => "LOCAL_POSITION_MISSING_AT_EXCHANGE"
  | QUANTITY_MISMATCH => "QUANTITY_MISMATCH"
  | DIRECTION_MISMATCH => "DIRECTION_MISMATCH"
  | MANAGED_POSITION_UNPROTECTED => "MANAGED_POSITION_UNPROTECTED"
  | PROTECTION_ORDER_MISSING_AT_EXCHANGE => "PROTECTION_ORDER_MISSING_AT_EXCHANGE"
  | UNKNOWN_ORDER_PRESENT => "UNKNOWN_ORDER_PRESENT"
  | ORPHAN_V2_CLIENT_ORDER_AT_EXCHANGE => "ORPHAN_V2_CLIENT_ORDER_AT_EXCHANGE"
  | CONFIRMED_ENTRY_FILL_UNPROJECTED => "CONFIRMED_ENTRY_FILL_UNPROJECTED"
  | QUARANTINED_ENTRY_LIFECYCLE => "QUARANTINED_ENTRY_LIFECYCLE"
  | MANUAL_BASELINE_DRIFT => "MANUAL_BASELINE_DRIFT"
  end.

(** [ref or (discrepancy.symbol or "unknown")] *)
Definition ref_or_symbol (d : Discrepancy) (ref : option string) : string :=
  ostr_or ref (ostr_or (d_symbol d) "unknown").

Definition _plan_for_discrepancy (d : Discrepancy) : option RecoveryAction :=
  match d_code d with
  | EXTERNAL_POSITION_UNCLAIMABLE =>
      Some (action QUARANTINE_EXTERNAL_POSITION (ref_or_symbol d (d_exchange_ref d)) (d_symbol d))
  | MANAGED_POSITION_UNPROTECTED | PROTECTION_ORDER_MISSING_AT_EXCHANGE =>
      Some (action RESUBMIT_PROTECTION (ref_or_symbol d (d_local_position_id d)) (d_symbol d))
  | LOCAL_POSITION_MISSING_AT_EXCHANGE =>
      Some (action QUARANTINE_LOCAL_GHOST_POSITION (ref_or_symbol d (d_local_position_id d)) (d_symbol d))
  | ORPHAN_V2_CLIENT_ORDER_AT_EXCHANGE =>
      Some (action CANCEL_ORPHAN_PROTECTION_ORDER (ostr_or (d_exchange_ref d) "unknown") (d_symbol d))
  | UNKNOWN_ORDER_PRESENT =>
      Some (action MANUAL_INTERVENTION_REQUIRED (ostr_or (d_exchange_ref d) "unknown") (d_symbol d))
  | CONFIRMED_ENTRY_FILL_UNPROJECTED | QUARANTINED_ENTRY_LIFECYCLE =>
      Some (action MANUAL_INTERVENTION_REQUIRED (ref_or_symbol d (d_exchange_ref d)) (d_symbol d))
  | QUANTITY_MISMATCH | DIRECTION_MISMATCH =>
      Some (action MANUAL_INTERVENTION_REQUIRED (ref_or_symbol d (d_local_position_id d)) (d_symbol d))
  | SNAPSHOT_UNAVAILABLE | MANUAL_BASELINE_DRIFT => None
  end.

(** The three accumulators of the pass. *)
Record RecoveryPlan := mkRecoveryPlan {
  rp_actions : list RecoveryAction; rp_unresolved : list string; rp_resolved : list string }.

Definition empty_plan : RecoveryPlan := mkRecoveryPlan [] [] [].

Definition act_resolved (a : RecoveryAction) (p : RecoveryPlan) : RecoveryPlan :=
  mkRecoveryPlan (rp_actions p ++ [a]) (rp_unresolved p) (rp_resolved p ++ [ra_target_ref a]).
Definition act_unresolved (a : RecoveryAction) (p : RecoveryPlan) : RecoveryPlan :=
  mkRecoveryPlan (rp_actions p ++ [a]) (rp_unresolved p ++ [ra_target_ref a]) (rp_resolved p).

Definition emergency_action (e : EmergencyCloseRequest) : RecoveryAction :=
  action RECOVERY_EMERGENCY_CLOSE (ec_position_id e) (Some (ec_symbol e)).

Section pass.
Context (snapshot : AuthoritativeAccountSnapshot).

Definition exchange_client_ids : list string := omap xo_client_order_id (as_pending_orders snapshot).
Definition snapshot_position_keys : list string := map exchange_key (as_positions snapshot).

(** 1. In-flight intents, by client order id. *)
Definition intent_action (i : PendingIntentView) : RecoveryAction :=
  action (if bool_decide (pi_client_order_id i ∈ exchange_client_ids)
          then RESOLVE_UNKNOWN_INTENT_BY_CLIENT_ID else MARK_INTENT_NOT_SUBMITTED)
    (pi_intent_id i) (Some (pi_symbol i)).
Definition recover_intent (p : RecoveryPlan) (i : PendingIntentView) : RecoveryPlan :=
  act_resolved (intent_action i) p.

(** 2. Reconciliation discrepancies. *)
Definition recover_discrepancy (p : RecoveryPlan) (d : Discrepancy) : RecoveryPlan :=
  match _plan_for_discrepancy d with
  | None => mkRecoveryPlan (rp_actions p)
              (rp_unresolved p ++ [ostr_or (d_exchange_ref d) (ostr_or (d_local_position_id d) (code_value (d_code d)))])
              (rp_resolved p)
  | Some a => if is_type_of MANUAL_INTERVENTION_REQUIRED a then act_unresolved a p else act_resolved a p
  end.

(** 3. Emergency closes. *)
Definition recover_emergency (p : RecoveryPlan) (e : EmergencyCloseRequest) : RecoveryPlan :=
  act_resolved (emergency_action e) p.

(** 4. Local positions without an exchange counterpart. *)
Definition is_ghost (c : LocalPositionView) : bool :=
  negb (bool_decide (lp_state c ∈ [CLOSED; QUARANTINED])) &&
  negb (bool_decide (position_key (lp_symbol c) (lp_direction c) ∈ snapshot_position_keys)).
Definition ghost_action (c : LocalPositionView) : RecoveryAction :=
  action QUARANTINE_LOCAL_GHOST_POSITION (lp_position_id c) (Some (lp_symbol c)).
Definition recover_ghost (p : RecoveryPlan) (c : LocalPositionView) : RecoveryPlan :=
  if is_ghost c &&
     negb (existsb (fun a => String.eqb (ra_target_ref a) (lp_position_id c)
                             && is_type_of QUARANTINE_LOCAL_GHOST_POSITION a) (rp_actions p))
  then act_resolved (ghost_action c) p else p.

Definition recovery_plan (incidents : ReconciliationResult) (local_state : option LocalStateView)
    (pending_intents : list PendingIntentView) (emergency_closes : list EmergencyCloseRequest) : RecoveryPlan :=
  let p := foldl recover_intent empty_plan pending_intents in
  let p := foldl recover_discrepancy p (rc_discrepancies incidents) in
  let p := foldl recover_emergency p emergency_closes in
  match local_state with
  | Some ls => foldl recover_ghost p (ls_positions ls)
  | None => p
  end.
End pass.

Definition recover_pending_state (snapshot : option AuthoritativeAccountSnapshot)
    (incidents : ReconciliationResult) (local_state : option LocalStateView)
    (pending_intents : list PendingIntentView) (emergency_closes : list EmergencyCloseRequest)
    (recovered_at : option datetime) : RecoveryResult :=
  match snapshot with
  | None =>
      mkRecoveryResult (map emergency_action emergency_closes) true
        (fromkeys (rc_recovery_required_refs incidents)) [] recovered_at
  | Some snapshot =>
      let p := recovery_plan snapshot incidents local_state pending_intents emergency_closes in
      let healthy := bool_decide (rc_status incidents = HEALTHY) in
      let entry_blocked := is_nonempty (rp_unresolved p) || negb healthy || is_nonempty (rp_actions p) in
      mkRecoveryResult (rp_actions p)
        (if negb (is_nonempty (rp_actions p)) && healthy then false else entry_blocked)
        (fromkeys (rp_unresolved p)) (fromkeys (rp_resolved p)) recovered_at
  end.

(** ** The shape of a plan *)

Section shape.
Context (s : AuthoritativeAccountSnapshot).

Lemma recover_intents l p :
  rp_actions (foldl (recover_intent s) p l) = rp_actions p ++ map (intent_action s) l /\
  rp_unresolved (foldl (recover_intent s) p l) = rp_unresolved p.
Proof.
  revert p. induction l as [|i l IH]; intros p; simpl; [by rewrite app_nil_r|].
  destruct (IH (recover_intent s p i)) as (-> & ->). simpl. by rewrite <- app_assoc.
Qed.

Lemma recover_emergencies l p :
  rp_actions (foldl recover_emergency p l) = rp_actions p ++ map emergency_action l /\
  rp_unresolved (foldl recover_emergency p l) = rp_unresolved p.
Proof.
  revert p. induction l as [|i l IH]; intros p; simpl; [by rewrite app_nil_r|].
  destruct (IH (recover_emergency p i)) as (-> & ->). simpl. by rewrite <- app_assoc.
Qed.

Definition unresolved_ref (d : Discrepancy) : option string :=
  match _plan_for_discrepancy d with
  | None => Some (ostr_or (d_exchange_ref d) (ostr_or (d_local_position_id d) (code_value (d_code d))))
  | Some a => if is_type_of MANUAL_INTERVENTION_REQUIRED a then Some (ra_target_ref a) else None
  end.

Lemma recover_discrepancies l p :
  rp_actions (foldl recover_discrepancy p l) = rp_actions p ++ omap _plan_for_discrepancy l /\
  rp_unresolved (foldl recover_discrepancy p l) = rp_unresolved p ++ omap unresolved_ref l.
Proof.
  revert p. induction l as [|d l IH]; intros p; simpl; [by rewrite !app_nil_r|].
  destruct (IH (recover_discrepancy p d)) as (-> & ->). clear IH. unfold recover_discrepancy, unresolved_ref.
  destruct (_plan_for_discrepancy d) as [a|]; [destruct (is_type_of _ a)|]; simpl; by rewrite <- ?app_assoc.
Qed.

Lemma is_type_of_true t a : is_type_of t a = true <-> ra_action_type a = t.
Proof. apply bool_decide_eq_true. Qed.

Definition quarantines (c : LocalPositionView) (a : RecoveryAction) : Prop :=
  ra_action_type a = QUARANTINE_LOCAL_GHOST_POSITION /\ ra_target_ref a = lp_position_id c.

Lemma already_quarantined l c :
  existsb (fun a => String.eqb (ra_target_ref a) (lp_position_id c)
                    && is_type_of QUARANTINE_LOCAL_GHOST_POSITION a) l = true <->
  exists a, a ∈ l /\ quarantines c a.
Proof.
  rewrite existsb_exists. unfold quarantines. split; intros (a & H1 & H2); exists a;
    rewrite list_elem_of_In, ?andb_true_iff, ?String.eqb_eq, ?is_type_of_true in *; tauto.
Qed.

Lemma recover_ghosts l p :
  exists gs, rp_actions (foldl (recover_ghost s) p l) = rp_actions p ++ map ghost_action gs /\
    sublist gs (bfilter (is_ghost s) l) /\
    rp_unresolved (foldl (recover_ghost s) p l) = rp_unresolved p /\
    (forall c, c ∈ l -> is_ghost s c = true ->
       exists a, a ∈ rp_actions (foldl (recover_ghost s) p l) /\ quarantines c a).
Proof.
  revert p. induction l as [|c l IH]; intros p; simpl.
  { exists []. simpl. rewrite app_nil_r. split_and!; try done. intros c Hc. by apply elem_of_nil in Hc. }
  destruct (IH (recover_ghost s p c)) as (gs & Ha & Hs & Hu & Hg). unfold recover_ghost in *.
  destruct (is_ghost s c) eqn:Eg; [destruct (existsb _ _) eqn:Ee|]; simpl in *.
  - exists gs. split; [done|]. split; [by constructor|]. split; [done|].
    intros c' [->|Hin]%elem_of_cons Hc'; [|by apply Hg].
    apply already_quarantined in Ee as (a & Hin & Hq). exists a. split; [|done]. rewrite Ha. set_solver.
  - exists (c :: gs). rewrite Ha, <- app_assoc. split; [done|]. split; [by constructor|]. split; [done|].
    intros c' [->|Hin]%elem_of_cons Hc'.
    + exists (ghost_action c). split; [set_solver|done].
    + destruct (Hg c' Hin Hc') as (a & Hin' & Hq). exists a. split; [|done]. rewrite Ha in Hin'. set_solver.
  - exists gs. split; [done|]. split; [done|]. split; [done|].
    intros c' [->|Hin]%elem_of_cons Hc'; [congruence|by apply Hg].
Qed.

Lemma recovery_plan_shape r ols pend closes (p := recovery_plan s r ols pend closes) :
  exists gs, rp_actions p = map (intent_action s) pend ++ omap _plan_for_discrepancy (rc_discrepancies r)
      ++ map emergency_action closes ++ map ghost_action gs /\
    sublist gs (bfilter (is_ghost s) (from_option ls_positions [] ols)) /\
    rp_unresolved p = omap unresolved_ref (rc_discrepancies r) /\
    (forall c, c ∈ from_option ls_positions [] ols -> is_ghost s c = true ->
       exists a, a ∈ rp_actions p /\ quarantines c a).
Proof.
  subst p. unfold recovery_plan.
  destruct (recover_intents pend empty_plan) as (A1 & U1).
  destruct (recover_discrepancies (rc_discrepancies r) (foldl (recover_intent s) empty_plan pend)) as (A2 & U2).
  destruct (recover_emergencies closes
    (foldl recover_discrepancy (foldl (recover_intent s) empty_plan pend) (rc_discrepancies r))) as (A3 & U3).
  rewrite A2, A1 in A3. rewrite U2, U1 in U3. simpl in A3, U3. rewrite <- app_assoc in A3.
  destruct ols as [ls|]; simpl.
  - destruct (recover_ghosts (ls_positions ls) (foldl recover_emergency (foldl recover_discrepancy
      (foldl (recover_intent s) empty_plan pend) (rc_discrepancies r)) closes)) as (gs & A4 & Hs & U4 & Hg).
    exists gs. rewrite A3, <- !app_assoc in A4. rewrite U4. auto.
  - exists []. simpl. rewrite app_nil_r. split; [done|]. split; [done|]. split; [done|].
    intros c Hc. by apply elem_of_nil in Hc.
Qed.
End shape.

(** ** Claims *)

(** The order or position that a reported discrepancy is about. *)
Definition about (s : AuthoritativeAccountSnapshot) (ls : LocalStateView) (refs : gmap string (gset string))
    (code : DiscrepancyCode) (symbol pid ref : option string) : Prop :=
  match code with
  | ORPHAN_V2_CLIENT_ORDER_AT_EXCHANGE =>
      exists o id, o ∈ as_pending_orders s /\ xo_client_order_id o = Some id /\ is_v2_client_order_id id = true /\
        id ∉ ls_known_client_order_ids ls /\ symbol = Some (xo_symbol o) /\ ref = Some (xo_exchange_order_id o)
  | MANAGED_POSITION_UNPROTECTED | PROTECTION_ORDER_MISSING_AT_EXCHANGE =>
      exists p c, p ∈ as_positions s /\ owner ls refs p c /\ symbol = Some (xp_symbol p) /\ pid = Some (lp_position_id c) /\
        (lp_has_active_protection c = false \/ exists id, id ∈ lp_protection_exchange_order_ids c /\
           forall o, o ∈ as_pending_orders s -> xo_exchange_order_id o <> id)
  | EXTERNAL_POSITION_UNCLAIMABLE =>
      exists p, p ∈ as_positions s /\ ownerless ls refs p /\ symbol = Some (xp_symbol p) /\
        ref = Some (position_key (xp_symbol p) (xp_direction p))
  | LOCAL_POSITION_MISSING_AT_EXCHANGE =>
      exists c, c ∈ ls_positions ls /\ lp_state c <> CLOSED /\ lp_state c <> QUARANTINED /\
        symbol = Some (lp_symbol c) /\ pid = Some (lp_position_id c) /\
        forall p c', p ∈ as_positions s -> owner ls refs p c' -> lp_position_id c' <> lp_position_id c
  | _ => True
  end.

(** A finding of a reconciliation of this snapshot is about an order or a position of it. *)
Definition grounded (s : AuthoritativeAccountSnapshot) (r : ReconciliationResult) (d : Discrepancy) : Prop :=
  forall ls u t refs, reconcile (Some s) ls u t refs = Ok r ->
    about s ls refs (d_code d) (d_symbol d) (d_local_position_id d) (d_exchange_ref d).
(** A finding of one of these codes names the symbol of the action, and its reference is the
    target, unless it is missing or empty. *)
Definition reported (s : AuthoritativeAccountSnapshot) (r : ReconciliationResult) (codes : list DiscrepancyCode)
    (ref : Discrepancy -> option string) (a : RecoveryAction) : Prop :=
  exists d, d ∈ rc_discrepancies r /\ d_code d ∈ codes /\ d_symbol d = ra_symbol a /\
    (forall t, ref d = Some t -> t <> ""%string -> ra_target_ref a = t) /\ grounded s r d.
(** The intent of the action, and whether an open order of the exchange has its client id. *)
Definition in_flight (s : AuthoritativeAccountSnapshot) (pend : list PendingIntentView) (found : Prop -> Prop)
    (a : RecoveryAction) : Prop :=
  exists i, i ∈ pend /\ ra_target_ref a = pi_intent_id i /\ ra_symbol a = Some (pi_symbol i) /\
    found (exists o, o ∈ as_pending_orders s /\ xo_client_order_id o = Some (pi_client_order_id i)).
(** An open local position whose symbol and direction no exchange position has. *)
Definition missing_at (s : AuthoritativeAccountSnapshot) (c : LocalPositionView) : Prop :=
  lp_state c <> CLOSED /\ lp_state c <> QUARANTINED /\
  forall p, p ∈ as_positions s -> position_key (xp_symbol p) (xp_direction p) <> position_key (lp_symbol c) (lp_direction c).

(** Why each kind of action may be planned. *)
Definition action_justified (s : option AuthoritativeAccountSnapshot) (r : ReconciliationResult)
    (ols : option LocalStateView) (pend : list PendingIntentView) (closes : list EmergencyCloseRequest)
    (a : RecoveryAction) : Prop :=
  match ra_action_type a with
  | RECOVERY_EMERGENCY_CLOSE => exists e, e ∈ closes /\ ra_target_ref a = ec_position_id e /\ ra_symbol a = Some (ec_symbol e)
  | t => exists sn, s = Some sn /\
    match t with
    | RESOLVE_UNKNOWN_INTENT_BY_CLIENT_ID => in_flight sn pend (fun found => found) a
    | MARK_INTENT_NOT_SUBMITTED => in_flight sn pend (fun found => ~ found) a
    | RESUBMIT_PROTECTION =>
        reported sn r [MANAGED_POSITION_UNPROTECTED; PROTECTION_ORDER_MISSING_AT_EXCHANGE] d_local_position_id a
    | QUARANTINE_EXTERNAL_POSITION => reported sn r [EXTERNAL_POSITION_UNCLAIMABLE] d_exchange_ref a
    | QUARANTINE_LOCAL_GHOST_POSITION =>
        reported sn r [LOCAL_POSITION_MISSING_AT_EXCHANGE] d_local_position_id a \/
        exists ls c, ols = Some ls /\ c ∈ ls_positions ls /\ missing_at sn c /\ ra_target_ref a = lp_position_id c
    | CANCEL_ORPHAN_PROTECTION_ORDER => reported sn r [ORPHAN_V2_CLIENT_ORDER_AT_EXCHANGE] d_exchange_ref a
    | MANUAL_INTERVENTION_REQUIRED =>
        reported sn r [UNKNOWN_ORDER_PRESENT; CONFIRMED_ENTRY_FILL_UNPROJECTED; QUARANTINED_ENTRY_LIFECYCLE] d_exchange_ref a \/
        reported sn r [QUANTITY_MISMATCH; DIRECTION_MISMATCH] d_local_position_id a
    | RECOVERY_EMERGENCY_CLOSE => True
    end
  end.

Lemma elem_of_item d b code symbol pid ref :
  d ∈ item b code symbol pid ref <-> b = true /\ d = mkDiscrepancy code (Some symbol) pid ref.
Proof.
  destruct b; simpl; [rewrite list_elem_of_singleton; naive_solver|]. split; [by intros ?%elem_of_nil|by intros [? _]].
Qed.
Lemma elem_of_concat_map {X} (f : X -> list Discrepancy) l d : d ∈ concat (map f l) <-> exists x, x ∈ l /\ d ∈ f x.
Proof.
  rewrite list_elem_of_In, in_concat. split.
  - intros (k & Hk & Hd). apply list_elem_of_In, list_elem_of_fmap in Hk as (x & -> & Hx). exists x. split; [done|by apply list_elem_of_In].
  - intros (x & Hx & Hd). exists (f x). split; [|by apply list_elem_of_In]. by apply list_elem_of_In, list_elem_of_fmap_2.
Qed.

Lemma unprotected_order s c : negb (bool_decide (missing_protection s c = ∅)) = true ->
  exists id, id ∈ lp_protection_exchange_order_ids c /\ forall o, o ∈ as_pending_orders s -> xo_exchange_order_id o <> id.
Proof.
  intros [id Hid]%negb_true_iff%bool_decide_eq_false%set_choose_L. unfold missing_protection in Hid. apply elem_of_difference in Hid as [Hid Hn].
  exists id. split; [done|]. intros o Ho <-. apply Hn, elem_of_list_to_set. by apply list_elem_of_fmap_2.
Qed.

Lemma exchange_about s ls refs p d : p ∈ as_positions s -> d ∈ exchange_items s ls refs p ->
  about s ls refs (d_code d) (d_symbol d) (d_local_position_id d) (d_exchange_ref d).
Proof.
  intros Hp. unfold exchange_items. rewrite elem_of_app, elem_of_item. intros [[_ ->]|Hd]; [done|].
  destruct (claim_of ls refs p) as [c|] eqn:Ec.
  - apply claim_some in Ec. unfold claimed_items in Hd. rewrite !elem_of_app, !elem_of_item in Hd.
    destruct Hd as [[_ ->]|[[_ ->]|[[Hb ->]|[[_ Hb]%andb_true_iff ->]]]]; try done; cbn.
    + exists p, c. apply negb_true_iff in Hb. split_and!; try done. by left.
    + exists p, c. split_and!; try done. right. by apply unprotected_order.
  - apply elem_of_item in Hd as [_ ->]. apply claim_none in Ec. cbn. by exists p.
Qed.

Lemma discrepancy_about s ls refs f d : find_discrepancies s ls refs = Ok f -> d ∈ f_discrepancies f ->
  about s ls refs (d_code d) (d_symbol d) (d_local_position_id d) (d_exchange_ref d).
Proof.
  intros (m & Hm & -> & _ & _)%find_discrepancies_shape. rewrite !elem_of_app, !elem_of_concat_map.
  intros [(i & _ & Hd)|[(p & Hp & Hd)|[(c & Hc & Hd)|[(kb & _ & Hd)|(o & Ho & Hd)]]]].
  - unfold intent_items in Hd. rewrite elem_of_app, !elem_of_item in Hd. by destruct Hd as [[_ ->]|[_ ->]].
  - by eapply exchange_about.
  - unfold local_items in Hd. apply elem_of_item in Hd as [Hb ->]. cbn.
    apply andb_true_iff in Hb as [[H1 H2]%local_open_iff Hn%negb_true_iff%bool_decide_eq_false].
    exists c. split_and!; try done. intros p c' Hp Ho%claim_some E. apply Hn, Hm. by exists p, c'.
  - unfold baseline_items in Hd. destruct (rsplit_colon kb.1); [|by apply elem_of_nil in Hd]. by apply elem_of_item in Hd as [_ ->].
  - unfold order_items in Hd. destruct (xo_client_order_id o) as [id|] eqn:Eid; [|by apply list_elem_of_singleton in Hd as ->].
    apply elem_of_item in Hd as [Hb ->]. apply andb_true_iff in Hb as [Hk%negb_true_iff%bool_decide_eq_false Hv]. cbn.
    by exists o, id.
Qed.

Lemma ostr_or_some o fallback t : o = Some t -> t <> ""%string -> ostr_or o fallback = t.
Proof. intros -> Ht. by destruct t. Qed.
Lemma findings_grounded s r d : d ∈ rc_discrepancies r -> grounded s r d.
Proof. intros Hd ls u t refs (f & Hf & E & _)%reconcile_some. rewrite E in Hd. by eapply discrepancy_about. Qed.

Lemma planned_reported s r ols pend closes d a : d ∈ rc_discrepancies r -> _plan_for_discrepancy d = Some a ->
  make_RecoveryAction a = Ok a /\ action_justified (Some s) r ols pend closes a.
Proof.
  intros Hd. pose proof (findings_grounded s r d Hd) as Hg. unfold _plan_for_discrepancy.
  assert (forall codes ref b, d_code d ∈ codes -> d_symbol d = ra_symbol b ->
    (forall t, ref d = Some t -> t <> ""%string -> ra_target_ref b = t) -> reported s r codes ref b) as Hr.
  { intros codes ref b Hc Hs Ht. exists d. by split_and!. }
  destruct (d_code d) eqn:Ec; intros [= <-]; (split; [done|]); exists s; (split; [done|]); cbn.
  all: repeat first [left; apply Hr; [set_solver|done|intros t; apply ostr_or_some]
                    |right; apply Hr; [set_solver|done|intros t; apply ostr_or_some]
                    |apply Hr; [set_solver|done|intros t; apply ostr_or_some]].
Qed.

Lemma intent_justified s r ols pend closes i : i ∈ pend ->
  action_justified (Some s) r ols pend closes (intent_action s i).
Proof.
  intros Hi. unfold action_justified, intent_action. cbn.
  assert (pi_client_order_id i ∈ exchange_client_ids s <->
    exists o, o ∈ as_pending_orders s /\ xo_client_order_id o = Some (pi_client_order_id i)) as Hx
    by apply list_elem_of_omap.
  case_bool_decide as E; cbn; exists s; (split; [done|]); exists i; split_and!; try done; by rewrite <- Hx.
Qed.
Lemma ghost_missing s c : is_ghost s c = true -> missing_at s c.
Proof.
  intros [Hs Hk]%andb_true_iff. apply negb_true_iff, bool_decide_eq_false in Hs, Hk.
  split; [intros E; apply Hs; rewrite E; by left|]. split; [intros E; apply Hs; rewrite E; right; by left|].
  intros p Hp E. apply Hk. rewrite <- E. by apply (list_elem_of_fmap_2 exchange_key).
Qed.

(** C37. Every planned recovery action passes the reduce-only contract and has its one
    justification, which names its target: a close only for a pending emergency close of
    that position, and, with a snapshot, an intent resolved or marked not submitted as
    the open orders of the exchange do or do not have its client id, and a discrepancy of
    the matching code about that order or position for everything else.  Where the
    findings are those of a reconciliation of this snapshot, a cancelled order is an open
    order with a V2 client id that is not known locally, protection is resubmitted for a
    position that owns an exchange position and lacks protection there, an external
    position that is quarantined has no owner, and a ghost of the findings owns nothing.
    The mark of an intent rests on the open orders alone: a filled market order is marked
    too ([filled_market_intent_marked_not_submitted]). *)
Theorem recovery_actions_justified s r ols pend closes t a :
  a ∈ rr_actions (recover_pending_state s r ols pend closes t) ->
  make_RecoveryAction a = Ok a /\ action_justified s r ols pend closes a.
Proof.
  intros Ha. destruct s as [s|]; simpl in Ha.
  - destruct (recovery_plan_shape s r ols pend closes) as (gs & E & Hs & _ & _). rewrite E, !elem_of_app in Ha.
    destruct Ha as [Ha|[Ha|[Ha|Ha]]].
    + apply list_elem_of_fmap in Ha as (i & -> & Hi). split; [done|]. by apply intent_justified.
    + apply list_elem_of_omap in Ha as (d & Hd & Ha). by apply (planned_reported s r ols pend closes d).
    + apply list_elem_of_fmap in Ha as (e & -> & He). split; [done|]. by exists e.
    + apply list_elem_of_fmap in Ha as (c & -> & Hc). split; [done|]. exists s. split; [done|]. right.
      pose proof (elem_of_sublist _ _ _ Hc Hs) as Hin. apply elem_of_bfilter in Hin as [Hin Hg%ghost_missing].
      destruct ols as [ls|]; [by exists ls, c|by apply elem_of_nil in Hin].
  - apply list_elem_of_fmap in Ha as (e & -> & He). split; [done|]. by exists e.
Qed.

(** Nothing is dropped.  With a snapshot, every in-flight intent is resolved by
    its client order id, every discrepancy leads to an action or stays listed as
    unresolved, every emergency close is planned, and every open local position
    absent from the exchange is quarantined; without one, entry stays blocked and
    the emergency closes are still planned. *)
Theorem recovery_is_complete s r ols pend closes t :
  let x := recover_pending_state s r ols pend closes t in
  (forall e, e ∈ closes -> emergency_action e ∈ rr_actions x) /\
  match s with
  | None => rr_entry_blocked x = true /\ forall ref, ref ∈ rc_recovery_required_refs r -> ref ∈ rr_unresolved_refs x
  | Some s =>
      (forall i, i ∈ pend -> intent_action s i ∈ rr_actions x) /\
      (forall d, d ∈ rc_discrepancies r -> (exists a, _plan_for_discrepancy d = Some a /\ a ∈ rr_actions x) \/
         exists ref, unresolved_ref d = Some ref /\ ref ∈ rr_unresolved_refs x) /\
      (forall c, c ∈ from_option ls_positions [] ols -> is_ghost s c = true ->
         exists a, a ∈ rr_actions x /\ quarantines c a)
  end.
Proof.
  destruct s as [s|]; simpl.
  - destruct (recovery_plan_shape s r ols pend closes) as (gs & E & _ & Hu & Hg).
    split; [intros e He; rewrite E, !elem_of_app; right; right; left; apply list_elem_of_fmap; eauto|].
    split; [intros i Hi; rewrite E, !elem_of_app; left; apply list_elem_of_fmap; eauto|]. split; [|done].
    intros d Hd. destruct (_plan_for_discrepancy d) as [a|] eqn:Ea.
    + left. exists a. split; [done|]. rewrite E, !elem_of_app. right. left. apply list_elem_of_omap. eauto.
    + right. unfold unresolved_ref at 1. rewrite Ea. eexists. split; [done|]. apply elem_of_fromkeys.
      rewrite Hu. apply list_elem_of_omap. exists d. split; [done|]. unfold unresolved_ref. by rewrite Ea.
  - split; [intros e He; apply list_elem_of_fmap; eauto|]. split; [done|]. intros ref. by rewrite elem_of_fromkeys.
Qed.

(** The entry block is lifted exactly when a fresh snapshot reconciles: exchange
    and local projection consistent, nothing in flight, no emergency close
    pending, no open local position absent from the exchange. *)
Theorem recovery_lifts_block_iff o ls u t0 refs r pend closes t :
  reconcile o ls u t0 refs = Ok r ->
  (rr_entry_blocked (recover_pending_state o r (Some ls) pend closes t) = false <->
   exists s, o = Some s /\ consistent s ls refs /\ pend = [] /\ closes = [] /\
     forall c, c ∈ ls_positions ls -> is_ghost s c = false).
Proof.
  intros H. destruct o as [s|]; [|simpl; naive_solver].
  apply reconcile_some in H as (f & Hf & Hd & _ & Hs). unfold recover_pending_state. cbv zeta. cbn [rr_entry_blocked].
  destruct (recovery_plan_shape s r (Some ls) pend closes) as (gs & E & Hg & Hu & Hq). cbn [from_option] in *.
  pose proof (no_discrepancies_iff _ _ _ _ Hf) as Hno.
  pose proof (resolve_status_healthy (f_discrepancies f)) as Hh. rewrite <- Hs in Hh.
  split.
  - intros Hb. exists s. split; [done|].
    assert (is_nonempty (rp_actions (recovery_plan s r (Some ls) pend closes)) = false /\ rc_status r = HEALTHY) as [Ha Hst].
    { destruct (is_nonempty (rp_actions _)); simpl in Hb; [by rewrite orb_true_r in Hb|].
      case_bool_decide; [done|]. by rewrite orb_true_r in Hb. }
    apply is_nonempty_false in Ha. split; [tauto|].
    assert (pend = [] /\ closes = []) as [-> ->].
    { rewrite Ha in E. symmetry in E. apply app_eq_nil in E as [E1 E]. apply app_eq_nil in E as [_ E].
      apply app_eq_nil in E as [E2 _]. split; by eapply map_eq_nil. }
    split; [done|]. split; [done|]. intros c Hc. destruct (is_ghost s c) eqn:Ec; [|done].
    destruct (Hq c Hc Ec) as (a & Hin & _). rewrite Ha in Hin. by apply elem_of_nil in Hin.
  - intros (s' & [= <-] & Hc & -> & -> & Hgs).
    assert (rc_discrepancies r = []) as Hnil by (rewrite Hd; tauto).
    rewrite Hnil in E. assert (gs = []) as ->.
    { destruct gs as [|c gs]; [done|]. assert (c ∈ bfilter (is_ghost s) (ls_positions ls)) as Hin
        by (eapply elem_of_sublist; [left|done]). apply elem_of_bfilter in Hin as [Hin Hgc]. by rewrite (Hgs c Hin) in Hgc. }
    assert (rp_actions (recovery_plan s r (Some ls) [] []) = []) as -> by exact E.
    rewrite bool_decide_true by tauto. done.
Qed.

(** ** Evaluation *)

Definition sample_healthy : ReconciliationResult :=
  mkReconciliation HEALTHY [] ∅ [] [] None None [("BTC/USDT:long"%string, mkDec 5 (-3))] false 0.
Definition sample_close : EmergencyCloseRequest := mkEmergencyClose "pos-1" "BTC/USDT" "long" (mkDec 5 (-3)).

(** The position of [sample_local] without protection. *)
Definition unprotected_state : LocalStateView :=
  mkLocalState [mkLocalPosition "pos-1" "BTC/USDT" "long" (mkDec 5 (-3)) PROTECTED {["pos-1"; "987"]} false ∅ []
    (dint 64000) None None None "P1" 1] [] {["v2s-x"]} [] ∅.
Definition unprotected_result : ReconciliationResult :=
  match reconcile (Some sample_snapshot) unprotected_state None None sample_refs with Ok r => r | Raise _ => sample_healthy end.

Lemma recovery_actions_justified_witness :
  let a := action RESUBMIT_PROTECTION "pos-1" (Some "BTC/USDT"%string) in
  action_justified (Some sample_snapshot) unprotected_result (Some unprotected_state) [] [sample_close] a /\
  action_justified (Some sample_snapshot) unprotected_result (Some unprotected_state) [] [sample_close] (emergency_action sample_close).
Proof.
  split; apply (recovery_actions_justified (Some sample_snapshot) unprotected_result (Some unprotected_state) [] [sample_close] None);
    apply list_elem_of_In; vm_compute; tauto.
Defined.

Lemma recovery_lifts_block_iff_witness :
  rr_entry_blocked (recover_pending_state (Some sample_snapshot) sample_healthy (Some sample_local_state) [] [] None) = false /\
  exists s, Some sample_snapshot = Some s /\ consistent s sample_local_state sample_refs /\
    @nil PendingIntentView = [] /\ @nil EmergencyCloseRequest = [] /\
    forall c, c ∈ ls_positions sample_local_state -> is_ghost s c = false.
Proof.
  assert (rr_entry_blocked (recover_pending_state (Some sample_snapshot) sample_healthy
    (Some sample_local_state) [] [] None) = false) as H by (vm_compute; reflexivity).
  split; [exact H|].
  refine (proj1 (recovery_lifts_block_iff (Some sample_snapshot) sample_local_state None None sample_refs
    sample_healthy [] [] None _) H).
  vm_compute. reflexivity.
Defined.

(** A market entry that has filled is no open order any more: the planner takes
    its client order id for absent and marks the intent as never submitted,
    although the snapshot shows the position it opened. *)
Example filled_market_intent_marked_not_submitted :
  exists a, a ∈ rr_actions (recover_pending_state (Some sample_snapshot) sample_healthy (Some sample_local_state)
      [mkPendingIntent "intent-1" "BTC/USDT" "v2e-x" EXCHANGE_UNKNOWN] [] None) /\
    ra_action_type a = MARK_INTENT_NOT_SUBMITTED /\ ra_target_ref a = "intent-1"%string /\
    sample_position ∈ as_positions sample_snapshot.
Proof. eexists. split_and!; [left|reflexivity|reflexivity|left]. Qed.
