(* ===== verification/FillNormalizer.v ===== *)
(** * FillNormalizer: fail-closed normalization of execution fills

    [infrastructure/fill_normalizer.py]: parsing one venue payload into an
    immutable fill, and removing repeated observations of the same trade.  A
    payload is the items of a mapping.  A millisecond timestamp is converted
    exactly (the code's float division is exact up to the year 2242). *)
From S2P Require Import Prelude PyDecimal PyValue Receipts Adapter.
From Stdlib Require Import QArith Lqa.
From stdpp Require Import pretty sorting.
Local Open Scope Z_scope.

Record NormalizedFill := mkNormalized {
  nf_exchange_order_id : string; nf_trade_id : string; nf_filled_quantity : Dec;
  nf_fill_price : Dec; nf_fee : Dec; nf_fill_timestamp : datetime }.

Definition fill_error {A} (why : string) : res A := Raise (FillNormalizationError why).

(** [NormalizedFill.__post_init__]; the decimals that reach it are finite. *)
Definition make_NormalizedFill (f : NormalizedFill) : res NormalizedFill :=
  assert_or (str_truthy (nf_exchange_order_id f) && str_truthy (nf_trade_id f))
    (FillNormalizationError "fill requires exchange_order_id and trade_id") ≫= fun _ =>
  assert_or (negb ((nf_filled_quantity f <=? dzero) || (nf_fill_price f <=? dzero)))%D
    (FillNormalizationError "fill requires finite positive quantity and price") ≫= fun _ =>
  assert_or (negb (nf_fee f <? dzero)%D) (FillNormalizationError "fill fee must be finite and non-negative") ≫= fun _ =>
  Ok f.

Definition _required_text (value : PyVal) (name : string) : res string :=
  let text := strip (py_str (py_or value (VStr ""))) in
  if str_truthy text then Ok text else fill_error name.

Definition _positive_decimal (value : PyVal) (name : string) : res Dec :=
  match parse_decimal (py_str value) with
  | None => fill_error name
  | Some NotFinite => fill_error name
  | Some (Finite d) => if (d <=? dzero)%D then fill_error name else Ok d
  end.

Definition _required_fee (value : PyVal) : res Dec :=
  match parse_decimal (py_str value) with
  | None => fill_error "fill requires a numeric fee"
  | Some NotFinite => fill_error "fill fee must be finite"
  | Some (Finite d) => Ok (dabs d)
  end.

(** 9999-12-31T23:59:59.999Z, the last millisecond [datetime] can hold. *)
Definition MAX_TIMESTAMP_MS : Z := 253402300799999.

Definition _timestamp (value : PyVal) : res datetime :=
  match parse_int (py_str value) with
  | None => fill_error "fill requires a millisecond timestamp"
  | Some ms =>
      if ms <=? 0 then fill_error "fill timestamp must be positive"
      else if MAX_TIMESTAMP_MS <? ms then Raise (OtherException "timestamp out of range")
      else Ok (ms * 1000)
  end.

Definition _fee_from_currency_amount (currency_value amount : PyVal) : res Dec :=
  _required_text currency_value "fee currency" ≫= fun currency =>
  if String.eqb (str_upper currency) "USDT" then _required_fee amount
  else fill_error "non-USDT fee".

Definition _fee_from_mapping (value : PyVal) : res Dec :=
  match value with
  | VDict _ items => _fee_from_currency_amount (py_get items "currency") (py_get items "cost")
  | _ => fill_error "CCXT fill requires a fee receipt"
  end.

Definition normalize_ccxt_trade (payload : list (string * PyVal)) (expected_order_id : string) : res NormalizedFill :=
  _required_text (py_get payload "order") "exchange_order_id" ≫= fun order_id =>
  assert_or (String.eqb order_id expected_order_id) (FillNormalizationError "order id mismatch") ≫= fun _ =>
  _fee_from_mapping (py_get payload "fee") ≫= fun fee =>
  _required_text (py_get payload "id") "trade_id" ≫= fun trade_id =>
  _positive_decimal (py_get payload "amount") "amount" ≫= fun quantity =>
  _positive_decimal (py_get payload "price") "price" ≫= fun price =>
  _timestamp (py_get payload "timestamp") ≫= fun fill_timestamp =>
  make_NormalizedFill (mkNormalized order_id trade_id quantity price fee fill_timestamp).

Definition normalize_binance_order_trade_update (payload : list (string * PyVal)) : res NormalizedFill :=
  let raw := if py_eq_str (py_get payload "e") "ORDER_TRADE_UPDATE" then py_get payload "o"
             else VDict "" payload in
  match raw with
  | VDict _ raw =>
      _required_text (py_get raw "i") "exchange_order_id" ≫= fun order_id =>
      _required_text (py_get raw "t") "trade_id" ≫= fun trade_id =>
      _positive_decimal (py_get raw "l") "last_fill_quantity" ≫= fun quantity =>
      _positive_decimal (py_or (py_get raw "L") (py_get raw "ap")) "last_fill_price" ≫= fun price =>
      _fee_from_currency_amount (py_get raw "N") (py_get raw "n") ≫= fun fee =>
      _timestamp (py_or (py_get raw "T") (py_get payload "E")) ≫= fun fill_timestamp =>
      make_NormalizedFill (mkNormalized order_id trade_id quantity price fee fill_timestamp)
  | _ => fill_error "Binance execution payload must be an object"
  end.

(** ** De-duplication *)

(** [==] of the dataclass: decimals compare by value. *)
Definition fill_eqb (a b : NormalizedFill) : bool :=
  String.eqb (nf_exchange_order_id a) (nf_exchange_order_id b) && String.eqb (nf_trade_id a) (nf_trade_id b)
  && (nf_filled_quantity a =? nf_filled_quantity b)%D && (nf_fill_price a =? nf_fill_price b)%D
  && (nf_fee a =? nf_fee b)%D && (nf_fill_timestamp a =? nf_fill_timestamp b).

Definition same_key (a b : NormalizedFill) : bool :=
  String.eqb (nf_exchange_order_id a) (nf_exchange_order_id b) && String.eqb (nf_trade_id a) (nf_trade_id b).

(** [unique[key] = fill]: a dict from keys to fills is its values, in order. *)
Fixpoint put_fill (unique : list NormalizedFill) (f : NormalizedFill) : list NormalizedFill :=
  match unique with
  | [] => [f]
  | g :: unique => if same_key g f then f :: unique else g :: put_fill unique f
  end.

Definition observe (acc : res (list NormalizedFill)) (f : NormalizedFill) : res (list NormalizedFill) :=
  acc ≫= fun unique =>
  match List.find (fun g => same_key g f) unique with
  | Some previous => if fill_eqb previous f then Ok (put_fill unique f) else fill_error "conflicting duplicate fill"
  | None => Ok (put_fill unique f)
  end.

(** [<=] of Python strings, on bytes. *)
Fixpoint str_leb (a b : string) : bool :=
  match a, b with
  | EmptyString, _ => true
  | String _ _, EmptyString => false
  | String c a, String d b =>
      let x := Ascii.N_of_ascii c in let y := Ascii.N_of_ascii d in
      if (x <? y)%N then true else if (y <? x)%N then false else str_leb a b
  end.

Definition fill_leb (a b : NormalizedFill) : bool :=
  (nf_fill_timestamp a <? nf_fill_timestamp b)
  || ((nf_fill_timestamp a =? nf_fill_timestamp b) && str_leb (nf_trade_id a) (nf_trade_id b)).

(** [sorted]: stable. *)
Fixpoint insert_fill (f : NormalizedFill) (l : list NormalizedFill) : list NormalizedFill :=
  match l with
  | [] => [f]
  | g :: l' => if fill_leb f g then f :: l else g :: insert_fill f l'
  end.
Definition sort_fills (l : list NormalizedFill) : list NormalizedFill := foldr insert_fill [] l.

Definition deduplicate_fills (fills : list NormalizedFill) : res (list NormalizedFill) :=
  foldl observe (Ok []) fills ≫= fun unique => Ok (sort_fills unique).

(** The receipt the adapter hands to the services. *)
Definition fill_receipt (f : NormalizedFill) : ExchangeFillReceipt :=
  mkFill (nf_exchange_order_id f) (nf_trade_id f) (nf_filled_quantity f) (nf_fill_price f) (nf_fee f)
    (nf_fill_timestamp f).

(** ** Normalization *)

Definition fill_valid (f : NormalizedFill) : Prop :=
  nf_exchange_order_id f <> ""%string /\ nf_trade_id f <> ""%string /\
  (0 < dval (nf_filled_quantity f))%Q /\ (0 < dval (nf_fill_price f))%Q /\ (0 <= dval (nf_fee f))%Q /\
  0 < nf_fill_timestamp f.

(** The only way out of normalization that is not a [FillNormalizationError]. *)
Definition fails_closed (r : res NormalizedFill) : Prop :=
  match r with
  | Ok f => fill_valid f
  | Raise (FillNormalizationError _) => True
  | Raise e => e = OtherException "timestamp out of range"
  end.

Lemma required_text_cases v name :
  (exists t, _required_text v name = Ok t /\ t <> ""%string) \/ _required_text v name = fill_error name.
Proof. unfold _required_text. case_bool; [left; eexists; split; [done|by apply str_truthy_true]|by right]. Qed.

Lemma positive_decimal_cases v name :
  (exists d, _positive_decimal v name = Ok d /\ (0 < dval d)%Q) \/ _positive_decimal v name = fill_error name.
Proof.
  unfold _positive_decimal. destruct (parse_decimal _) as [[d|]|]; [|by right|by right].
  destruct (d <=? dzero)%D eqn:E; [by right|left]. exists d. split; [done|].
  apply dleb_false in E. by rewrite (dval_zero 0) in E.
Qed.

Lemma required_fee_cases v :
  (exists d, _required_fee v = Ok d /\ (0 <= dval d)%Q) \/ exists w, _required_fee v = fill_error w.
Proof.
  unfold _required_fee. destruct (parse_decimal _) as [[d|]|]; [|by right; eexists|by right; eexists].
  left. eexists. split; [done|apply dabs_nonneg].
Qed.

Lemma timestamp_cases v :
  (exists t, _timestamp v = Ok t /\ 0 < t) \/ (exists w, _timestamp v = fill_error w) \/
  _timestamp v = Raise (OtherException "timestamp out of range").
Proof.
  unfold _timestamp. destruct (parse_int _) as [ms|]; [|right; left; by eexists].
  destruct (Z.leb_spec ms 0); [right; left; by eexists|]. case_bool; [by right; right|].
  left. eexists. split; [done|lia].
Qed.

Lemma currency_fee_cases c v :
  (exists d, _fee_from_currency_amount c v = Ok d /\ (0 <= dval d)%Q /\
     str_upper (strip (py_str (py_or c (VStr "")))) = "USDT"%string) \/
  exists w, _fee_from_currency_amount c v = fill_error w.
Proof.
  unfold _fee_from_currency_amount, _required_text. case_bool; [|right; by eexists]. cbn.
  destruct (String.eqb_spec (str_upper (strip (py_str (py_or c (VStr ""))))) "USDT") as [E|]; [|right; by eexists].
  destruct (required_fee_cases v) as [(d & -> & Hd)|[w ->]]; [left; eauto|right; by eexists].
Qed.

Lemma make_fill_ok f : fill_valid f -> make_NormalizedFill f = Ok f.
Proof.
  intros (H1 & H2 & H3 & H4 & H5 & _). unfold make_NormalizedFill.
  apply str_truthy_true in H1, H2. rewrite H1, H2.
  assert ((nf_filled_quantity f <=? dzero)%D = false) as -> by (apply dleb_false; by rewrite (dval_zero 0)).
  assert ((nf_fill_price f <=? dzero)%D = false) as -> by (apply dleb_false; by rewrite (dval_zero 0)).
  assert ((nf_fee f <? dzero)%D = false) as -> by (apply dltb_false; by rewrite (dval_zero 0)). done.
Qed.

(** Both normalizers bind these parsers in some order; each step either fails
    closed or adds its fact. *)
Ltac normalize_step :=
  match goal with
  | |- context [_required_text ?v ?n ≫= _] =>
      destruct (required_text_cases v n) as [(? & -> & ?)| ->]; [cbn [mbind res_bind]|exact I]
  | |- context [_positive_decimal ?v ?n ≫= _] =>
      destruct (positive_decimal_cases v n) as [(? & -> & ?)| ->]; [cbn [mbind res_bind]|exact I]
  | |- context [_fee_from_currency_amount ?c ?v ≫= _] =>
      destruct (currency_fee_cases c v) as [(? & -> & ? & ?)|[? ->]]; [cbn [mbind res_bind]|exact I]
  | |- context [_timestamp ?v ≫= _] =>
      destruct (timestamp_cases v) as [(? & -> & ?)|[[? ->]| ->]]; [cbn [mbind res_bind]|exact I|try reflexivity]
  end.

(** C38. Normalization fails closed: from any payload it either returns a fill with
    full identity, positive finite quantity and price, non-negative fee and
    positive time, or raises [FillNormalizationError]; only a timestamp beyond
    the calendar escapes as another exception.  A CCXT trade is accepted only for
    the queried order and with a USDT fee. *)
Theorem normalization_fails_closed payload expected :
  fails_closed (normalize_binance_order_trade_update payload) /\
  fails_closed (normalize_ccxt_trade payload expected) /\
  forall f, normalize_ccxt_trade payload expected = Ok f ->
    nf_exchange_order_id f = expected /\
    exists r items, py_get payload "fee" = VDict r items /\
      str_upper (strip (py_str (py_or (py_get items "currency") (VStr "")))) = "USDT"%string.
Proof.
  split; [|assert (match normalize_ccxt_trade payload expected with
    | Ok f => fill_valid f /\ nf_exchange_order_id f = expected /\
        exists r items, py_get payload "fee" = VDict r items /\
          str_upper (strip (py_str (py_or (py_get items "currency") (VStr "")))) = "USDT"%string
    | r => fails_closed r end) as H].
  - unfold normalize_binance_order_trade_update. cbv zeta.
    destruct (if py_eq_str _ _ then _ else _) as [| | | | | |r raw]; try exact I.
    repeat normalize_step. by rewrite make_fill_ok.
  - unfold normalize_ccxt_trade. normalize_step.
    destruct (String.eqb_spec x expected) as [->|]; [cbn [assert_or mbind res_bind]|exact I].
    unfold _fee_from_mapping. destruct (py_get payload "fee") as [| | | | | |r items] eqn:E; try exact I.
    repeat normalize_step. rewrite make_fill_ok by done. split; [done|]. split; [done|]. by exists r, items.
  - destruct (normalize_ccxt_trade payload expected) as [f|e]; [|done].
    destruct H as (Hv & Ho & Hr). split; [done|]. by intros f' [= <-].
Qed.

(** ** Round trip *)

Definition ccxt_payload (f : NormalizedFill) : list (string * PyVal) :=
  [("order", VStr (nf_exchange_order_id f)); ("id", VStr (nf_trade_id f));
   ("amount", VStr (dec_text (nf_filled_quantity f))); ("price", VStr (dec_text (nf_fill_price f)));
   ("fee", VDict "" [("currency", VStr "usdt"); ("cost", VStr (dec_text (nf_fee f)))]);
   ("timestamp", VInt (nf_fill_timestamp f / 1000))]%string.

(** A fill as a venue can report it: untrimmed identities, whole milliseconds. *)
Definition fill_reportable (f : NormalizedFill) : Prop :=
  fill_valid f /\ strip (nf_exchange_order_id f) = nf_exchange_order_id f /\
  strip (nf_trade_id f) = nf_trade_id f /\ fits (dval (nf_fee f)) /\
  nf_fill_timestamp f mod 1000 = 0 /\ nf_fill_timestamp f <= MAX_TIMESTAMP_MS * 1000.

Lemma required_text_str s name : strip s = s -> s <> ""%string -> _required_text (VStr s) name = Ok s.
Proof.
  intros Hs Hne. apply str_truthy_true in Hne. unfold _required_text, py_or. cbn [py_truthy].
  rewrite Hne. cbn [py_str]. by rewrite Hs, Hne.
Qed.

Lemma positive_decimal_text d name : (0 < dval d)%Q -> _positive_decimal (VStr (dec_text d)) name = Ok d.
Proof.
  intros H. unfold _positive_decimal. cbn [py_str]. rewrite parse_decimal_text.
  assert ((d <=? dzero)%D = false) as ->; [|done]. apply dleb_false. by rewrite (dval_zero 0).
Qed.

Lemma ccxt_payload_get f (p := ccxt_payload f) :
  py_get p "order" = VStr (nf_exchange_order_id f) /\ py_get p "fee" =
    VDict "" [("currency", VStr "usdt"); ("cost", VStr (dec_text (nf_fee f)))]%string /\
  py_get p "id" = VStr (nf_trade_id f) /\ py_get p "amount" = VStr (dec_text (nf_filled_quantity f)) /\
  py_get p "price" = VStr (dec_text (nf_fill_price f)) /\ py_get p "timestamp" = VInt (nf_fill_timestamp f / 1000).
Proof. by split_and!. Qed.

(** C39. Every reportable fill is recovered from its payload: normalization loses
    nothing (the fee, normalized by [abs], keeps its value). *)
Theorem ccxt_trade_roundtrip f :
  fill_reportable f ->
  exists f', normalize_ccxt_trade (ccxt_payload f) (nf_exchange_order_id f) = Ok f' /\ fill_eqb f' f = true.
Proof.
  intros (Hv & Ho & Hi & Hf & Hm & Hmax). pose proof Hv as (H1 & H2 & H3 & H4 & H5 & H6).
  assert (dval (dabs (nf_fee f)) == dval (nf_fee f))%Q as Hfee
    by (rewrite dabs_exact by done; rewrite Qabs.Qabs_pos by done; reflexivity).
  exists (mkNormalized (nf_exchange_order_id f) (nf_trade_id f) (nf_filled_quantity f) (nf_fill_price f)
    (dabs (nf_fee f)) (nf_fill_timestamp f)). split.
  - unfold normalize_ccxt_trade. destruct (ccxt_payload_get f) as (-> & -> & -> & -> & -> & ->).
    rewrite !required_text_str by done. cbn [mbind res_bind]. rewrite String.eqb_refl. cbn [assert_or mbind res_bind].
    change (_fee_from_mapping (VDict "" _)) with (_fee_from_currency_amount (VStr "usdt") (VStr (dec_text (nf_fee f)))).
    change (_fee_from_currency_amount (VStr "usdt") (VStr (dec_text (nf_fee f))))
      with (_required_fee (VStr (dec_text (nf_fee f)))).
    unfold _required_fee at 1. cbn [py_str]. rewrite parse_decimal_text. cbn [mbind res_bind].
    rewrite !positive_decimal_text by done. cbn [mbind res_bind].
    unfold _timestamp. cbn [py_str]. rewrite parse_int_pretty.
    pose proof (Z.div_exact (nf_fill_timestamp f) 1000 ltac:(lia)) as [_ Hd]. specialize (Hd Hm).
    destruct (Z.leb_spec (nf_fill_timestamp f / 1000) 0); [lia|].
    destruct (Z.ltb_spec MAX_TIMESTAMP_MS (nf_fill_timestamp f / 1000)); [lia|]. cbn [mbind res_bind].
    rewrite Z.mul_comm, <- Hd. apply make_fill_ok. by rewrite <-Hfee in H5.
  - unfold fill_eqb. cbn. rewrite !String.eqb_refl, Z.eqb_refl, !andb_true_r. cbn.
    rewrite !andb_true_iff, !deqb_spec. split_and!; done.
Qed.

(** ** De-duplication *)

Definition fill_key (f : NormalizedFill) : string * string := (nf_exchange_order_id f, nf_trade_id f).

Lemma same_key_spec a b : same_key a b = true <-> fill_key a = fill_key b.
Proof. unfold same_key, fill_key. rewrite andb_true_iff, !String.eqb_eq. split; [by intros [-> ->]|by intros [= -> ->]]. Qed.

Lemma fill_eqb_spec a b : fill_eqb a b = true <->
  fill_key a = fill_key b /\ (dval (nf_filled_quantity a) == dval (nf_filled_quantity b))%Q /\
  (dval (nf_fill_price a) == dval (nf_fill_price b))%Q /\ (dval (nf_fee a) == dval (nf_fee b))%Q /\
  nf_fill_timestamp a = nf_fill_timestamp b.
Proof. unfold fill_eqb. rewrite !andb_true_iff, !deqb_spec, Z.eqb_eq, <-same_key_spec. unfold same_key. rewrite andb_true_iff. tauto. Qed.

Lemma fill_eqb_refl a : fill_eqb a a = true.
Proof. apply fill_eqb_spec. repeat (split; [reflexivity|]). reflexivity. Qed.

Lemma fill_eqb_sym a b : fill_eqb a b = true -> fill_eqb b a = true.
Proof. rewrite !fill_eqb_spec. intros (H & H1 & H2 & H3 & H4). repeat (split; [by symmetry|]). by symmetry. Qed.

Lemma fill_eqb_trans a b c : fill_eqb a b = true -> fill_eqb b c = true -> fill_eqb a c = true.
Proof.
  rewrite !fill_eqb_spec. intros (H & H1 & H2 & H3 & H4) (G & G1 & G2 & G3 & G4).
  split; [congruence|]. repeat (split; [etrans; eassumption|]). congruence.
Qed.

Lemma fill_eqb_key a b : fill_eqb a b = true -> fill_key a = fill_key b.
Proof. rewrite fill_eqb_spec. tauto. Qed.

Definition conflict_free (l : list NormalizedFill) : Prop :=
  forall f g, f ∈ l -> g ∈ l -> fill_key f = fill_key g -> fill_eqb f g = true.

(** What the dict holds after observing [seen]. *)
Record dict_inv (u seen : list NormalizedFill) : Prop := {
  di_keys : NoDup (map fill_key u);
  di_sound : forall g, g ∈ u -> g ∈ seen;
  di_complete : forall f, f ∈ seen -> exists g, g ∈ u /\ fill_eqb g f = true;
  di_conflict_free : conflict_free seen }.

Lemma put_fill_elem u f g : g ∈ put_fill u f -> g = f \/ g ∈ u.
Proof. induction u as [|h u IH]; simpl; [set_solver|]. case_bool; set_solver. Qed.

Lemma put_fill_has u f : f ∈ put_fill u f.
Proof. induction u as [|h u IH]; simpl; [set_solver|]. case_bool; set_solver. Qed.

Lemma put_fill_keeps u f g : g ∈ u -> fill_key g <> fill_key f -> g ∈ put_fill u f.
Proof.
  induction u as [|h u IH]; simpl; [set_solver|]. intros [->|Hg]%elem_of_cons Hk.
  - destruct (same_key h f) eqn:E; [by apply same_key_spec in E|set_solver].
  - case_bool; set_solver.
Qed.

Lemma put_fill_keys u f :
  map fill_key (put_fill u f) = map fill_key u \/
  (fill_key f ∉ map fill_key u /\ map fill_key (put_fill u f) = map fill_key u ++ [fill_key f]).
Proof.
  induction u as [|h u IH]; simpl; [right; set_solver|]. destruct (same_key h f) eqn:E; simpl.
  - apply same_key_spec in E as ->. by left.
  - assert (fill_key h <> fill_key f) by (rewrite <- same_key_spec; congruence).
    destruct IH as [->|[Hn ->]]; [by left|right]. split; [|done]. apply not_elem_of_cons. split; [congruence|done].
Qed.

Lemma find_same_key u f :
  match List.find (fun g => same_key g f) u with
  | Some g => g ∈ u /\ fill_key g = fill_key f
  | None => fill_key f ∉ map fill_key u
  end.
Proof.
  destruct (List.find _ u) as [g|] eqn:E.
  - apply List.find_some in E as [Hin Hk]. rewrite list_elem_of_In. split; [done|by apply same_key_spec].
  - intros (g & Hk & Hg)%list_elem_of_fmap. apply list_elem_of_In in Hg.
    apply (List.find_none _ _ E) in Hg. symmetry in Hk. apply same_key_spec in Hk. congruence.
Qed.

Lemma key_unique u g h : NoDup (map fill_key u) -> g ∈ u -> h ∈ u -> fill_key g = fill_key h -> g = h.
Proof.
  induction u as [|x u IH]; simpl; [set_solver|]. intros [Hx Hu]%NoDup_cons Hg Hh Hk.
  rewrite elem_of_cons in Hg, Hh. rewrite list_elem_of_fmap in Hx.
  destruct Hg as [->|Hg], Hh as [->|Hh]; [done| | |by apply IH]; exfalso; apply Hx; eauto.
Qed.

Lemma observe_inv u seen f :
  dict_inv u seen ->
  match observe (Ok u) f with
  | Ok u' => dict_inv u' (seen ++ [f])
  | Raise e => e = FillNormalizationError "conflicting duplicate fill" /\ ~ conflict_free (seen ++ [f])
  end.
Proof.
  intros [Hk Hs Hc Hf]. cbn. pose proof (find_same_key u f) as Hfind.
  assert (NoDup (map fill_key (put_fill u f))) as Hk'.
  { destruct (put_fill_keys u f) as [->|[Hn ->]]; [done|]. apply NoDup_app. split; [done|].
    split; [intros x Hx Hx'; apply list_elem_of_singleton in Hx'; by subst|]. apply NoDup_singleton. }
  destruct (List.find _ u) as [p|].
  - destruct Hfind as [Hp Hpk]. destruct (fill_eqb p f) eqn:E.
    + split; [done| | |].
      * intros g Hg. apply elem_of_app. apply put_fill_elem in Hg as [->|Hg]; [right; by left|left; by apply Hs].
      * intros g [Hg| ->%list_elem_of_singleton]%elem_of_app; [|exists f; split; [apply put_fill_has|apply fill_eqb_refl]].
        destruct (Hc g Hg) as (h & Hh & Hhg). destruct (decide (fill_key h = fill_key f)) as [Hkf|Hkf].
        -- assert (h = p) as -> by (eapply key_unique; [exact Hk|done|done|congruence]).
           exists f. split; [apply put_fill_has|]. exact (fill_eqb_trans _ _ _ (fill_eqb_sym _ _ E) Hhg).
        -- exists h. split; [by apply put_fill_keeps|done].
      * assert (forall g, g ∈ seen -> fill_key g = fill_key f -> fill_eqb f g = true) as Hself.
        { intros g Hg Hgk. apply (fill_eqb_trans _ _ _ (fill_eqb_sym _ _ E)), Hf; [by apply Hs|done|congruence]. }
        intros g h [Hg| ->%list_elem_of_singleton]%elem_of_app [Hh| ->%list_elem_of_singleton]%elem_of_app Hgh.
        -- by apply Hf.
        -- apply fill_eqb_sym. by apply Hself.
        -- by apply Hself.
        -- apply fill_eqb_refl.
    + split; [done|]. intros Hcf. rewrite (Hcf p f) in E; [done| | |done]; apply elem_of_app; [left; by apply Hs|right; by left].
  - split; [done| | |].
    + intros g Hg. apply elem_of_app. apply put_fill_elem in Hg as [->|Hg]; [right; by left|left; by apply Hs].
    + intros g [Hg| ->%list_elem_of_singleton]%elem_of_app; [|exists f; split; [apply put_fill_has|apply fill_eqb_refl]].
      destruct (Hc g Hg) as (h & Hh & Hhg). exists h. split; [|done]. apply put_fill_keeps; [done|].
      intros Hkf. apply Hfind, list_elem_of_fmap. eauto.
    + assert (forall g, g ∈ seen -> fill_key g <> fill_key f) as Hself.
      { intros g Hg Hgk. destruct (Hc g Hg) as (h & Hh & Hhg%fill_eqb_key). apply Hfind, list_elem_of_fmap.
        exists h. split; [congruence|done]. }
      intros g h [Hg| ->%list_elem_of_singleton]%elem_of_app [Hh| ->%list_elem_of_singleton]%elem_of_app Hgh.
      * by apply Hf.
      * by apply Hself in Hgh.
      * symmetry in Hgh. by apply Hself in Hgh.
      * apply fill_eqb_refl.
Qed.

Lemma observe_raise e l : foldl observe (Raise e) l = Raise e.
Proof. induction l; [done|]. cbn. done. Qed.

Lemma conflict_free_app l l' : conflict_free (l ++ l') -> conflict_free l.
Proof. intros H f g Hf Hg. apply H; set_solver. Qed.

Lemma observe_all l u seen :
  dict_inv u seen ->
  match foldl observe (Ok u) l with
  | Ok u' => dict_inv u' (seen ++ l)
  | Raise e => e = FillNormalizationError "conflicting duplicate fill" /\ ~ conflict_free (seen ++ l)
  end.
Proof.
  revert u seen. induction l as [|f l IH]; intros u seen H; [by rewrite app_nil_r|]. cbn [foldl].
  pose proof (observe_inv u seen f H) as Ho. destruct (observe (Ok u) f) as [u'|e].
  - specialize (IH u' _ Ho). by rewrite <- app_assoc in IH.
  - rewrite observe_raise. destruct Ho as [-> Ho]. split; [done|]. intros Hc. apply Ho.
    apply (conflict_free_app _ l). by rewrite <- app_assoc.
Qed.

(** *** Order *)

Lemma str_leb_refl s : str_leb s s = true.
Proof. induction s as [|c s IH]; cbn; [done|]. by rewrite N.ltb_irrefl. Qed.

Lemma str_leb_total a b : str_leb a b = true \/ str_leb b a = true.
Proof.
  revert b. induction a as [|c a IH]; intros [|d b]; cbn; [auto..|].
  destruct (N.ltb_spec (Ascii.N_of_ascii c) (Ascii.N_of_ascii d)); [auto|].
  destruct (N.ltb_spec (Ascii.N_of_ascii d) (Ascii.N_of_ascii c)); [auto|]. apply IH.
Qed.

Lemma str_leb_trans a b c : str_leb a b = true -> str_leb b c = true -> str_leb a c = true.
Proof.
  revert b c. induction a as [|x a IH]; intros [|y b] [|z c]; cbn; try done.
  repeat match goal with |- context [(?m <? ?n)%N] => destruct (N.ltb_spec m n) end; try done; try lia. apply IH.
Qed.

Definition fill_le (a b : NormalizedFill) : Prop := fill_leb a b = true.

Lemma fill_le_spec a b : fill_le a b <-> nf_fill_timestamp a < nf_fill_timestamp b \/
  (nf_fill_timestamp a = nf_fill_timestamp b /\ str_leb (nf_trade_id a) (nf_trade_id b) = true).
Proof. unfold fill_le, fill_leb. by rewrite orb_true_iff, andb_true_iff, Z.ltb_lt, Z.eqb_eq. Qed.

Lemma insert_fill_perm f l : insert_fill f l ≡ₚ f :: l.
Proof.
  induction l as [|g l IH]; simpl; [done|]. case_bool; [done|]. rewrite IH. constructor.
Qed.

Lemma sort_fills_perm l : sort_fills l ≡ₚ l.
Proof. induction l as [|f l IH]; simpl; [done|]. by rewrite insert_fill_perm, IH. Qed.

Lemma insert_fill_sorted f l : StronglySorted fill_le l -> StronglySorted fill_le (insert_fill f l).
Proof.
  induction l as [|g l IH]; simpl; [repeat constructor|]. intros [Hs Hf]%StronglySorted_inv.
  destruct (fill_leb f g) eqn:E.
  - constructor; [by constructor|]. constructor; [done|]. eapply Forall_impl; [exact Hf|]. intros h Hh.
    change (fill_le f g) in E. rewrite fill_le_spec in *. destruct E as [?|[? ?]], Hh as [?|[? ?]]; try (left; lia).
    right. split; [lia|]. by eapply str_leb_trans.
  - constructor; [by apply IH|]. rewrite insert_fill_perm. constructor; [|done]. rewrite fill_le_spec.
    assert (~ fill_le f g) as Hn by (unfold fill_le; congruence). rewrite fill_le_spec in Hn.
    destruct (str_leb_total (nf_trade_id f) (nf_trade_id g)), (Z.lt_trichotomy (nf_fill_timestamp f) (nf_fill_timestamp g)) as [?|[?|?]];
      first [exfalso; tauto | left; lia | right; split; [lia|tauto]].
Qed.

Lemma sort_fills_sorted l : StronglySorted fill_le (sort_fills l).
Proof. induction l as [|f l IH]; simpl; [constructor|by apply insert_fill_sorted]. Qed.

(** De-duplication refuses exactly the observations that contradict each other;
    otherwise it returns, in execution order, one observation of every trade, all
    its observations being equal to the one kept. *)
Theorem deduplicate_fills_spec l :
  match deduplicate_fills l with
  | Ok r => conflict_free l /\ StronglySorted fill_le r /\ NoDup (map fill_key r) /\
      (forall f, f ∈ r -> f ∈ l) /\ (forall f, f ∈ l -> exists g, g ∈ r /\ fill_eqb g f = true)
  | Raise e => e = FillNormalizationError "conflicting duplicate fill" /\ ~ conflict_free l
  end.
Proof.
  unfold deduplicate_fills. assert (dict_inv [] []) as H0.
  { split; [apply NoDup_nil_2|intros f Hf..|intros f g Hf]; by apply elem_of_nil in Hf. }
  pose proof (observe_all l [] [] H0) as H. simpl in H. destruct (foldl observe (Ok []) l) as [u|e]; [|done].
  cbn. destruct H as [Hk Hs Hc Hf]. split; [done|]. split; [apply sort_fills_sorted|].
  split; [by rewrite sort_fills_perm|]. split.
  - intros f. rewrite sort_fills_perm. apply Hs.
  - intros f Hfl. destruct (Hc f Hfl) as (g & Hg & E). exists g. by rewrite sort_fills_perm.
Qed.

Definition sample_fill : NormalizedFill := mkNormalized "123" "t-9" (mkDec 5 (-3)) (mkDec 6400010 (-2)) (mkDec 12 (-2)) 1750000000000000.

Lemma ccxt_trade_roundtrip_witness :
  exists f', normalize_ccxt_trade (ccxt_payload sample_fill) "123" = Ok f' /\ fill_eqb f' sample_fill = true.
Proof.
  apply (ccxt_trade_roundtrip sample_fill). split; [|split; [reflexivity|split; [reflexivity|split; [|split]]]].
  - repeat split; try done; vm_compute; discriminate.
  - apply fits_small. vm_compute. discriminate.
  - reflexivity.
  - vm_compute. discriminate.
Defined.
