(* ===== verification/AccountWriter.v ===== *)
(** * AccountWriter: machine-scoped ownership of Binance mutations

    [infrastructure/account_writer.py]: the registry that binds an exchange
    account to one database and leases it to one writer process at a time, and
    the guard every exchange mutation runs under.  The world holds the registry
    files by resolved path; one operation is one critical section of the file
    lock.  The clock, the host name and the liveness of a process are arguments;
    operator metadata is not modelled. *)
From S2P Require Import Prelude PyValue Receipts.
From Stdlib Require Import Ascii.
From stdpp Require Import pretty.
Local Open Scope Z_scope.
Local Open Scope py_scope.

Inductive ProcessLiveness := ALIVE | DEAD | LIVENESS_UNKNOWN.

#[export] Instance ProcessLiveness_eq_dec : EqDecision ProcessLiveness.
Proof. solve_decision. Defined.

Record AccountScope := mkScope { sc_exchange : string; sc_environment : string; sc_account_identity : string }.

Definition scope_key (s : AccountScope) : string :=
  (str_upper (sc_exchange s) +:+ ":" +:+ str_upper (sc_environment s) +:+ ":" +:+ sc_account_identity s)%string.

Record AccountWriterCapability := mkCapability {
  cap_scope_key : string; cap_database : string; cap_owner : string; cap_generation : Z; cap_registry : string }.

#[export] Instance AccountWriterCapability_eq_dec : EqDecision AccountWriterCapability.
Proof. solve_decision. Defined.

Record AccountWriterLease := mkLease {
  le_capability : AccountWriterCapability; le_acquired_at : datetime; le_expires_at : datetime; le_host : string }.

(** The value stored for one account; a key that is absent from the JSON object
    is [None], an absent generation 0. *)
Record AccountEntry := mkAccount {
  ac_scope_key : option string; ac_database : option string; ac_owner : option string; ac_generation : Z;
  ac_acquired_at : option datetime; ac_renewed_at : option datetime; ac_expires_at : option datetime;
  ac_host : option string }.

Definition no_account : AccountEntry := mkAccount None None None 0 None None None None.

Inductive RegistryFile := FileUnreadable | FileRoot (accounts : gmap string AccountEntry).

Notation Registries := (gmap string RegistryFile).

Definition fence_error (code : string) : PyExc := AccountWriterFenceError code.

(** [root = _read(path) or {}; accounts = dict(root.get("accounts") or {})] *)
Definition read_accounts (path : string) : SM Registries (gmap string AccountEntry) := fun w =>
  match w !! path with
  | None => (Ok ∅, w)
  | Some FileUnreadable => (Raise (fence_error "ACCOUNT_WRITER_REGISTRY_UNREADABLE"), w)
  | Some (FileRoot accounts) => (Ok accounts, w)
  end.

Definition write_accounts (path : string) (accounts : gmap string AccountEntry) : SM Registries unit :=
  smodify (fun w => <[path := FileRoot accounts]> w).

(** ** Account scope *)

Definition resolve_account_scope (account_identity : option string) (configured exchange environment : string) :
    res AccountScope :=
  let identity := strip (ostr_or account_identity configured) in
  assert_or (str_truthy identity) (fence_error "ACCOUNT_SCOPE_IDENTITY_MISSING") ≫= fun _ =>
  let scope := mkScope exchange environment identity in
  assert_or (String.eqb (str_upper exchange) "BINANCE" && String.eqb (str_upper environment) "TESTNET")
    (fence_error "ACCOUNT_SCOPE_UNSUPPORTED") ≫= fun _ =>
  Ok scope.

(** [uid] is the identity the account endpoint reported, if any. *)
Definition account_scope_from_binance_client (configured : string) (uid : option string) : res AccountScope :=
  let configured := strip configured in
  match uid with
  | Some uid =>
      if str_truthy (strip uid) then
        resolve_account_scope (Some uid) configured "BINANCE" "TESTNET" ≫= fun scope =>
        assert_or (negb (str_truthy configured && negb (String.eqb configured (sc_account_identity scope))))
          (fence_error "ACCOUNT_SCOPE_IDENTITY_MISMATCH") ≫= fun _ => Ok scope
      else resolve_account_scope (Some configured) configured "BINANCE" "TESTNET"
  | None => resolve_account_scope (Some configured) configured "BINANCE" "TESTNET"
  end.

(** ** Liveness of the recorded owner *)

Section liveness.
Context (hostname : string) (probe : Z -> ProcessLiveness).

(** [owner_id.rsplit(":", 1)] of an id with exactly one colon. *)
Fixpoint split_colon (s : string) : option (string * string) :=
  match s with
  | EmptyString => None
  | String c s' =>
      if Ascii.eqb c ":" then Some (EmptyString, s')
      else match split_colon s' with Some (a, b) => Some (String c a, b) | None => None end
  end.

Definition _owner_pid (owner_id : string) : option Z :=
  match split_colon owner_id with
  | None => None
  | Some (owner_host, raw_pid) =>
      match split_colon raw_pid with
      | Some _ => None
      | None =>
          if negb (String.eqb (str_lower owner_host) (str_lower hostname)) then None
          else match parse_int raw_pid with
               | None => None
               | Some pid => if pid <=? 0 then None else Some pid
               end
      end
  end.

Definition _dead_local_supervisor_owner (owner_id : string) : ProcessLiveness :=
  match _owner_pid owner_id with
  | None => LIVENESS_UNKNOWN
  | Some pid => probe pid
  end.

(** ** Operations *)

Definition _assert_current (current : option AccountEntry) (c : AccountWriterCapability) (observed : datetime) : res unit :=
  let current := default no_account current in
  let rejected := fence_error "ACCOUNT_WRITER_FENCE_REJECTED" in
  assert_or (bool_decide (ac_scope_key current = Some (cap_scope_key c))) rejected ≫= fun _ =>
  assert_or (bool_decide (ac_database current = Some (cap_database c))) rejected ≫= fun _ =>
  assert_or (bool_decide (ac_owner current = Some (cap_owner c)) && (ac_generation current =? cap_generation c))
    rejected ≫= fun _ =>
  assert_or (match ac_expires_at current with Some t => negb (t <=? observed) | None => false end) rejected.

Definition bind_account (path scope database operator_identity operator_reason : string) : SM Registries AccountEntry :=
  sassert (str_truthy (strip operator_identity) && str_truthy (strip operator_reason))
    (fence_error "OPERATOR_BINDING_METADATA_MISSING") ;;;
  let! accounts := read_accounts path in
  let current := default no_account (accounts !! scope) in
  sassert (bool_decide (ac_database current = None \/ ac_database current = Some database))
    (fence_error "ACCOUNT_ALREADY_BOUND_TO_DIFFERENT_DATABASE") ;;;
  let value := mkAccount (Some scope) (Some database) (ac_owner current) (ac_generation current)
    (ac_acquired_at current) (ac_renewed_at current) (ac_expires_at current) (ac_host current) in
  write_accounts path (<[scope := value]> accounts) ;;;
  sret value.

Definition rebind_account (path scope database operator_identity operator_reason : string)
    (exchange_is_flat exchange_open_orders_empty new_database_recovery_clear : bool) (now : datetime) :
    SM Registries AccountEntry :=
  sassert (str_truthy (strip operator_identity) && str_truthy (strip operator_reason))
    (fence_error "OPERATOR_BINDING_METADATA_MISSING") ;;;
  sassert (exchange_is_flat && exchange_open_orders_empty && new_database_recovery_clear)
    (fence_error "ACCOUNT_REBIND_REQUIRES_MANUAL_RECOVERY") ;;;
  let! accounts := read_accounts path in
  match accounts !! scope with
  | None => sraise (fence_error "ACCOUNT_BINDING_REQUIRED")
  | Some current =>
      sassert (match ac_expires_at current with Some t => t <=? now | None => true end)
        (fence_error "ACCOUNT_REBIND_REQUIRES_INACTIVE_WRITER") ;;;
      let value := mkAccount (ac_scope_key current) (Some database) None (ac_generation current) None None None None in
      write_accounts path (<[scope := value]> accounts) ;;;
      sret value
  end.

(** [owner_id or f"{hostname}:{pid}:{uuid}"] *)
Definition writer_owner (owner_id : option string) (pid : Z) (uuid : string) : string :=
  ostr_or owner_id (hostname +:+ ":" +:+ pretty pid +:+ ":" +:+ uuid).

Definition acquire_account_writer (path scope database owner : string) (lease : Z) (observed : datetime) :
    SM Registries AccountWriterLease :=
  let! accounts := read_accounts path in
  match accounts !! scope with
  | None => sraise (fence_error "ACCOUNT_BINDING_REQUIRED")
  | Some current =>
      match ac_database current with
      | None => sraise (fence_error "ACCOUNT_BINDING_REQUIRED")
      | Some bound =>
          sassert (String.eqb bound database) (fence_error "ACCOUNT_BOUND_TO_DIFFERENT_DATABASE") ;;;
          let existing_owner := default "" (ac_owner current) in
          let same_owner := String.eqb existing_owner owner in
          let active := match ac_expires_at current with Some t => observed <? t | None => false end in
          sassert (negb (active && negb same_owner &&
                         negb (bool_decide (_dead_local_supervisor_owner existing_owner = DEAD))))
            (fence_error "ACCOUNT_WRITER_ALREADY_HELD") ;;;
          let generation := if same_owner && active then ac_generation current else ac_generation current + 1 in
          let expiry := observed + lease in
          let value := mkAccount (Some scope) (Some database) (Some owner) generation
            (Some observed) (Some observed) (Some expiry) (Some hostname) in
          write_accounts path (<[scope := value]> accounts) ;;;
          sret (mkLease (mkCapability scope database owner generation path) observed expiry hostname)
      end
  end.

Definition renew_account_writer (l : AccountWriterLease) (lease : Z) (observed : datetime) :
    SM Registries AccountWriterLease :=
  let c := le_capability l in
  let! accounts := read_accounts (cap_registry c) in
  slift (_assert_current (accounts !! cap_scope_key c) c observed) ;;;
  let current := default no_account (accounts !! cap_scope_key c) in
  let expiry := observed + lease in
  let value := mkAccount (ac_scope_key current) (ac_database current) (ac_owner current) (ac_generation current)
    (ac_acquired_at current) (Some observed) (Some expiry) (ac_host current) in
  write_accounts (cap_registry c) (<[cap_scope_key c := value]> accounts) ;;;
  sret (mkLease c (le_acquired_at l) expiry (le_host l)).

(** The clock is read twice. *)
Definition release_account_writer (l : AccountWriterLease) (observed now : datetime) : SM Registries unit :=
  let c := le_capability l in
  let! accounts := read_accounts (cap_registry c) in
  slift (_assert_current (accounts !! cap_scope_key c) c observed) ;;;
  let current := default no_account (accounts !! cap_scope_key c) in
  let value := mkAccount (ac_scope_key current) (ac_database current) (ac_owner current) (ac_generation current)
    (ac_acquired_at current) (ac_renewed_at current) (Some now) (ac_host current) in
  write_accounts (cap_registry c) (<[cap_scope_key c := value]> accounts).

(** [with mutation_guard(capability):] admits its body, while the lock is held. *)
Definition mutation_guard (registry_path : string) (c : AccountWriterCapability) (now : datetime) : SM Registries unit :=
  sassert (String.eqb (cap_registry c) registry_path) (fence_error "ACCOUNT_WRITER_FENCE_REJECTED") ;;;
  let! accounts := read_accounts (cap_registry c) in
  slift (_assert_current (accounts !! cap_scope_key c) c now).

Definition capability_is_current (registry_path : string) (c : option AccountWriterCapability) (now : datetime)
    (w : Registries) : bool :=
  match c with
  | None => false
  | Some c => is_ok (mutation_guard registry_path c now w).1
  end.

(** ** Observability *)

Inductive WriterStatusKind := REGISTRY_UNREADABLE | UNBOUND | WRITER_VALID | WRITER_HELD | WRITER_EXPIRED.

Record WriterStatus := mkStatus {
  ws_status : WriterStatusKind; ws_bound_database : option string; ws_generation : option Z;
  ws_lease_active : option bool; ws_conflict : option string }.

Definition writer_status (path scope database : string) (c : option AccountWriterCapability) (now : datetime)
    (w : Registries) : WriterStatus :=
  match (read_accounts path w).1 with
  | Raise e => mkStatus REGISTRY_UNREADABLE None None None
                 (Some (match e with AccountWriterFenceError code => code | _ => "" end))
  | Ok accounts =>
      match accounts !! scope with
      | None => mkStatus UNBOUND None None (Some false) (Some "ACCOUNT_BINDING_REQUIRED"%string)
      | Some current =>
          let lease_active := match ac_expires_at current with Some t => now <? t | None => false end in
          let capability_valid :=
            match c with Some c => is_ok (_assert_current (Some current) c now) | None => false end in
          mkStatus (if capability_valid then WRITER_VALID else if lease_active then WRITER_HELD else WRITER_EXPIRED)
            (ac_database current) (Some (ac_generation current)) (Some lease_active)
            (if negb (bool_decide (ac_database current = Some database))
             then Some "ACCOUNT_BOUND_TO_DIFFERENT_DATABASE"
             else if lease_active && negb capability_valid then Some "ACCOUNT_WRITER_ALREADY_HELD"
             else None)%string
      end
  end.
End liveness.

(** ** What an operation may change *)

Definition entry_at (w : Registries) (path scope : string) : option AccountEntry :=
  match w !! path with Some (FileRoot accounts) => accounts !! scope | _ => None end.

(** An entry only grows: a new generation, or the same one with its owner kept or
    removed. *)
Definition succeeds (e v : AccountEntry) : Prop :=
  ac_generation e < ac_generation v \/
  ac_generation e = ac_generation v /\
    (ac_owner v = None \/ ac_owner v = ac_owner e /\ (ac_database e = None \/ ac_database v = ac_database e)).

(** The entry under which a capability was issued, and one that bounds it. *)
Definition issues (c : AccountWriterCapability) (v : AccountEntry) : Prop :=
  cap_generation c = ac_generation v /\ ac_owner v = Some (cap_owner c) /\ ac_database v = Some (cap_database c).
Definition bounds (c : AccountWriterCapability) (e : AccountEntry) : Prop :=
  cap_generation c < ac_generation e \/ cap_generation c = ac_generation e /\ (ac_owner e = None \/ issues c e).

Lemma bounds_succeeds c e v : bounds c e -> succeeds e v -> bounds c v.
Proof.
  unfold bounds, succeeds, issues.
  intros [?|[? [Ho|(? & Ho & Hd)]]] [?|[? [Hv|[Hv Hdv]]]]; try (left; lia); right; (split; [lia|]).
  all: try (left; congruence). right. split; [lia|]. rewrite Hv, Ho. split; [done|]. destruct Hdv; congruence.
Qed.

Lemma issues_bounds c v : issues c v -> bounds c v.
Proof. intros H. right. split; [apply H|by right]. Qed.

Lemma bounds_issues c c' v : bounds c' v -> issues c v -> cap_registry c' = cap_registry c ->
  cap_scope_key c' = cap_scope_key c -> cap_generation c' < cap_generation c \/ c' = c.
Proof.
  unfold bounds, issues. destruct c, c'; simpl. intros [?|[? [?|(? & ? & ?)]]] (? & ? & ?) ? ?; simplify_eq/=;
    first [left; lia | right; f_equal; congruence].
Qed.

Inductive WriterOp :=
  | WBind (path scope database operator_identity operator_reason : string)
  | WRebind (path scope database operator_identity operator_reason : string)
      (is_flat no_orders clear : bool) (now : datetime)
  | WAcquire (hostname : string) (probe : Z -> ProcessLiveness) (path scope database : string)
      (owner_id : option string) (pid : Z) (uuid : string) (lease : Z) (observed : datetime)
  | WRenew (l : AccountWriterLease) (lease : Z) (observed : datetime)
  | WRelease (l : AccountWriterLease) (observed now : datetime).

Definition writer_step (op : WriterOp) : SM Registries (option AccountWriterLease) :=
  match op with
  | WBind p s d oi orr => bind_account p s d oi orr ;;; sret None
  | WRebind p s d oi orr f n c now => rebind_account p s d oi orr f n c now ;;; sret None
  | WAcquire h probe p s d o pid uuid lease now =>
      let! l := acquire_account_writer h probe p s d (writer_owner h o pid uuid) lease now in sret (Some l)
  | WRenew l lease now => let! l := renew_account_writer l lease now in sret (Some l)
  | WRelease l observed now => release_account_writer l observed now ;;; sret None
  end.

(** Nothing happens, or one slot advances, and a capability is issued only there. *)
Definition step_effect (w : Registries) (r : res (option AccountWriterLease)) (w' : Registries) : Prop :=
  (w' = w /\ forall l, r <> Ok (Some l)) \/
  exists p s v, entry_at w' p s = Some v /\
    (forall p' s', (p', s') <> (p, s) -> entry_at w' p' s' = entry_at w p' s') /\
    (forall e, entry_at w p s = Some e -> succeeds e v) /\
    (forall l, r = Ok (Some l) -> cap_registry (le_capability l) = p /\ cap_scope_key (le_capability l) = s /\
       issues (le_capability l) v).

Lemma read_accounts_inv path w r w' : read_accounts path w = (r, w') -> w' = w /\
  match r with Ok accounts => forall s, entry_at w path s = accounts !! s
  | Raise e => e = fence_error "ACCOUNT_WRITER_REGISTRY_UNREADABLE" end.
Proof.
  unfold read_accounts, entry_at. destruct (w !! path) as [[|a]|]; intros [= <- <-]; (split; [done|]); [done..|].
  intros s. by rewrite lookup_empty.
Qed.

Lemma write_effect w p s v accounts r :
  (forall s, entry_at w p s = accounts !! s) -> (forall e, accounts !! s = Some e -> succeeds e v) ->
  (forall l, r = Ok (Some l) -> cap_registry (le_capability l) = p /\ cap_scope_key (le_capability l) = s /\
     issues (le_capability l) v) ->
  step_effect w r (<[p := FileRoot (<[s := v]> accounts)]> w).
Proof.
  intros Ha Hs Hr. right. exists p, s, v. split; [|split; [|split; [|done]]].
  - unfold entry_at. by rewrite lookup_insert_eq, lookup_insert_eq.
  - intros p' s' Hne. unfold entry_at at 1. destruct (decide (p' = p)) as [->|Hp].
    + rewrite lookup_insert_eq, lookup_insert_ne by congruence. by rewrite Ha.
    + by rewrite lookup_insert_ne by congruence.
  - intros e. rewrite Ha. apply Hs.
Qed.

Lemma assert_current_ok e c t :
  _assert_current e c t = Ok tt <-> exists v, e = Some v /\ ac_scope_key v = Some (cap_scope_key c) /\ issues c v /\
    exists x, ac_expires_at v = Some x /\ t < x.
Proof.
  unfold _assert_current, issues. rewrite !assert_bind_ok, assert_or_ok, andb_true_iff, !bool_decide_eq_true, Z.eqb_eq.
  destruct e as [v|]; simpl; [|split; [by intros [? _]|by intros (? & ? & _)]]. split.
  - intros (H1 & H2 & [H3 H4] & H5). exists v. destruct (ac_expires_at v) as [x|]; [|done].
    apply negb_true_iff, Z.leb_gt in H5. by eauto 10.
  - intros (v' & [= <-] & H1 & (H2 & H3 & H4) & x & -> & Hx). rewrite negb_true_iff, Z.leb_gt. by eauto 10.
Qed.

Lemma writer_owner_nonempty h o pid uuid : writer_owner h o pid uuid <> ""%string.
Proof.
  unfold writer_owner, ostr_or. assert (h +:+ ":" +:+ pretty pid +:+ ":" +:+ uuid <> "")%string by (by destruct h).
  destruct o as [s|]; [|done]. destruct (str_truthy s) eqn:E; [by apply str_truthy_true in E|done].
Qed.

Ltac read_file H := apply read_accounts_inv in H as [? H]; simplify_eq; cbn beta iota in H.
Ltac no_effect := left; split; [done|by intros ? ?].

Lemma writer_step_effect op w r w' : writer_step op w = (r, w') -> step_effect w r w'.
Proof.
  destruct op; cbn [writer_step]; unfold bind_account, rebind_account, acquire_account_writer, renew_account_writer,
    release_account_writer, write_accounts; cbv zeta; intros H; inv_run.
  all: repeat match goal with H : read_accounts _ _ = _ |- _ => apply read_accounts_inv in H as [? ?]; simplify_eq end.
  all: try no_effect.
  - eapply write_effect; [done| |done]. intros e E. rewrite E in *. cbn in *. right. split; [done|]. right.
    split; [done|]. apply bool_decide_eq_true in H3 as [?|?]; [by left|right; by symmetry].
  - eapply write_effect; [done| |done]. intros e E. simplify_eq. right. split; [done|by left].
  - eapply write_effect; [done| |by intros l [= <-]]. intros e E. simplify_eq.
    match goal with H : String.eqb _ database = true |- _ => apply String.eqb_eq in H end. simplify_eq.
    destruct (String.eqb_spec (default ""%string (ac_owner a)) (writer_owner hostname owner_id pid uuid)) as [Ho|];
      [|left; simpl; lia].
    destruct (match ac_expires_at a with Some _ => _ | None => _ end); [|left; simpl; lia].
    right. split; [done|]. right. cbn. split; [|right; done].
    destruct (ac_owner a); cbn in Ho; [by rewrite Ho|]. symmetry in Ho. by apply writer_owner_nonempty in Ho.
  - match goal with H : Ok ?u = _assert_current _ _ _ |- _ => symmetry in H;
      destruct u; apply assert_current_ok in H as (v & E & Hs & Hi & _) end.
    rewrite E. cbn. eapply write_effect; [done| |by intros l' [= <-]].
    intros e E'. simplify_eq. right. split; [done|]. right. split; [done|by right].
  - match goal with H : Ok ?u = _assert_current _ _ _ |- _ => symmetry in H;
      destruct u; apply assert_current_ok in H as (v & E & Hs & Hi & _) end.
    rewrite E. cbn. eapply write_effect; [done| |done].
    intros e E'. simplify_eq. right. split; [done|]. right. split; [done|by right].
Qed.

(** ** Histories *)

Definition issued_by (r : res (option AccountWriterLease)) : list AccountWriterCapability :=
  match r with Ok (Some l) => [le_capability l] | _ => [] end.

(** Run operations of any processes in any order; collect the capabilities issued. *)
Definition history_step (s : Registries * list AccountWriterCapability) (op : WriterOp) :
    Registries * list AccountWriterCapability :=
  let '(r, w) := writer_step op s.1 in (w, s.2 ++ issued_by r).
Definition run_history (w : Registries) (ops : list WriterOp) : Registries * list AccountWriterCapability :=
  foldl history_step (w, []) ops.

Definition same_slot (c c' : AccountWriterCapability) : Prop :=
  cap_registry c = cap_registry c' /\ cap_scope_key c = cap_scope_key c'.

Record history_inv (s : Registries * list AccountWriterCapability) : Prop := {
  hi_bounded : forall c, c ∈ s.2 -> exists e, entry_at s.1 (cap_registry c) (cap_scope_key c) = Some e /\ bounds c e;
  hi_ordered : forall pre c mid c' post, s.2 = pre ++ c :: mid ++ c' :: post -> same_slot c c' ->
    cap_generation c < cap_generation c' \/ c = c' }.

Lemma ordered_snoc (l : list AccountWriterCapability) x :
  (forall pre c mid c' post, l = pre ++ c :: mid ++ c' :: post -> same_slot c c' ->
     cap_generation c < cap_generation c' \/ c = c') ->
  (forall c, c ∈ l -> same_slot c x -> cap_generation c < cap_generation x \/ c = x) ->
  forall pre c mid c' post, l ++ [x] = pre ++ c :: mid ++ c' :: post -> same_slot c c' ->
     cap_generation c < cap_generation c' \/ c = c'.
Proof.
  intros Hl Hx pre c mid c' post E. destruct post as [|y post _] using rev_ind.
  - assert (l = pre ++ c :: mid /\ x = c') as [-> ->].
    { apply (app_inj_tail l (pre ++ c :: mid) x c'). by rewrite E, <- app_assoc. }
    apply Hx. set_solver.
  - apply (Hl pre c mid c' post). apply (app_inj_tail l _ x y). rewrite E, <- !app_assoc. simpl. by rewrite <- app_assoc.
Qed.

Lemma history_step_inv s op : history_inv s -> history_inv (history_step s op).
Proof.
  intros [Hb Ho]. destruct s as [w issued]. unfold history_step. cbn [fst snd] in *.
  destruct (writer_step op w) as [r w'] eqn:E. apply writer_step_effect in E as [[-> Hr]|(p & sc & v & Hv & Hother & Hs & Hi)].
  { assert (issued_by r = []) as -> by (destruct r as [[l|]|]; [by destruct (Hr l)|done|done]). rewrite app_nil_r. by split. }
  assert (forall c, c ∈ issued -> exists e, entry_at w' (cap_registry c) (cap_scope_key c) = Some e /\ bounds c e) as Hb'.
  { intros c Hc. destruct (Hb c Hc) as (e & He & Hbe).
    destruct (decide ((cap_registry c, cap_scope_key c) = (p, sc))) as [[= E1 E2]|Hne].
    - exists v. rewrite E1, E2 in *. split; [done|]. apply (bounds_succeeds c e v Hbe), Hs. congruence.
    - exists e. by rewrite Hother. }
  destruct r as [[l|]|]; cbn [issued_by]; [|rewrite app_nil_r; split; [exact Hb'|exact Ho]..].
  destruct (Hi l eq_refl) as (<- & <- & Hl). split; cbn [fst snd].
  - intros c [Hc| ->%list_elem_of_singleton]%elem_of_app; [by apply Hb'|]. exists v. split; [done|by apply issues_bounds].
  - apply ordered_snoc; [done|]. intros c Hc [Hreg Hsc]. destruct (Hb' c Hc) as (e & He & Hbe).
    rewrite Hreg, Hsc, Hv in He. injection He as <-. by apply (bounds_issues _ _ v).
Qed.

Lemma run_history_inv w ops : history_inv (run_history w ops).
Proof.
  unfold run_history. assert (history_inv (w, [])) as H.
  { split; simpl; [intros c Hc; by apply elem_of_nil in Hc|]. intros [|? ?] ? ? ? ? E; discriminate E. }
  revert H. generalize (w, @nil AccountWriterCapability). induction ops as [|op ops IH]; intros s H; [done|].
  simpl. by apply IH, history_step_inv.
Qed.

Lemma guard_reads c e path now w :
  entry_at w (cap_registry c) (cap_scope_key c) = Some e -> cap_generation c <> ac_generation e ->
  exists code, mutation_guard path c now w = (Raise (AccountWriterFenceError code), w).
Proof.
  intros He Hg. unfold mutation_guard. destruct (sbind _ _ w) as [r w'] eqn:E.
  apply sbind_inv in E as [(? & s1 & Ha & E)|(x & Ha & ->)]; apply sassert_inv in Ha as [-> [[_ Ha]|[_ Ha]]]; simplify_eq;
    [|by eexists].
  apply sbind_inv in E as [(accounts & s1 & Hr & E)|(x & Hr & ->)]; apply read_accounts_inv in Hr as [-> Hr].
  - apply slift_inv in E as [-> ->]. rewrite <- Hr, He. unfold _assert_current. simpl.
    assert ((ac_generation e =? cap_generation c) = false) as -> by lia.
    rewrite andb_false_r.
    destruct (bool_decide (ac_scope_key e = _)), (bool_decide (ac_database e = _)); by eexists.
  - rewrite Hr. by eexists.
Qed.

(** Fencing tokens.  In any history of any processes on any registries, a later
    capability of the same account carries a larger generation than every
    different earlier one, and from then on the earlier one is rejected: at any
    time, the guard raises before its body and leaves the registry alone. *)
Theorem superseded_writer_fenced w0 ops w pre c mid c' post path now :
  run_history w0 ops = (w, pre ++ c :: mid ++ c' :: post) -> same_slot c c' -> c <> c' ->
  cap_generation c < cap_generation c' /\
  exists code, mutation_guard path c now w = (Raise (AccountWriterFenceError code), w).
Proof.
  intros H Hs Hne. pose proof (run_history_inv w0 ops) as [Hb Ho]. rewrite H in Hb, Ho. cbn [fst snd] in *.
  assert (cap_generation c < cap_generation c') as Hlt by (by destruct (Ho _ _ _ _ _ eq_refl Hs)).
  split; [done|]. destruct (Hb c') as (e & He & Hbe); [set_solver|].
  destruct Hs as [Hr Hk]. rewrite <- Hr, <- Hk in He. apply (guard_reads c e); [done|].
  destruct Hbe as [?|[? _]]; lia.
Qed.

(** At any moment at most one capability of an account passes the guard. *)
Theorem one_current_writer w path c c' now now' :
  capability_is_current path (Some c) now w = true -> capability_is_current path (Some c') now' w = true ->
  cap_scope_key c = cap_scope_key c' -> c = c'.
Proof.
  assert (forall c now, capability_is_current path (Some c) now w = true ->
    cap_registry c = path /\ exists v, entry_at w path (cap_scope_key c) = Some v /\ issues c v) as Hcur.
  { intros x t. unfold capability_is_current, mutation_guard. destruct (sbind _ _ w) as [r w'] eqn:E. cbn.
    destruct r as [[]|]; [|done]. intros _. inv_run.
    match goal with H : read_accounts _ _ = _ |- _ => apply read_accounts_inv in H as [-> Hr] end.
    match goal with H : String.eqb _ _ = true |- _ => apply String.eqb_eq in H as <- end.
    match goal with H : Ok _ = _ |- _ => symmetry in H; apply assert_current_ok in H as (v & Hv & _ & Hi & _) end.
    split; [done|]. exists v. by rewrite Hr. }
  intros H1 H2 Hk. apply Hcur in H1 as (P1 & v & V1 & I1), H2 as (P2 & v' & V2 & I2).
  rewrite Hk, V2 in V1. injection V1 as ->. destruct I1 as (? & ? & ?), I2 as (? & ? & ?).
  destruct c, c'; simpl in *. f_equal; congruence.
Qed.

Lemma is_ok_sassert {S A} b e (m : SM S A) w :
  is_ok (m w).1 = true -> is_ok ((sassert b e ;;; m) w).1 = b.
Proof. intros H. unfold sassert, sbind. destruct b; simpl; done. Qed.

(** The lease is granted exactly when the account is bound to the caller's
    database and nobody else may still be writing: the previous lease is the
    caller's own, expired, or of a local process known to be dead. *)
Theorem acquire_granted_iff h probe path scope db owner lease t w :
  is_ok (acquire_account_writer h probe path scope db owner lease t w).1 = true <->
  exists e, entry_at w path scope = Some e /\ ac_database e = Some db /\
    (default "" (ac_owner e) = owner \/ ~ (exists x, ac_expires_at e = Some x /\ t < x) \/
     _dead_local_supervisor_owner h probe (default "" (ac_owner e)) = DEAD)%string.
Proof.
  unfold acquire_account_writer, entry_at, sbind at 1, read_accounts.
  destruct (w !! path) as [[|accounts]|]; cbn; [split; [done|by intros (? & ? & _)]| |
    rewrite lookup_empty; split; [done|by intros (? & ? & _)]].
  destruct (accounts !! scope) as [e|]; [|split; [done|by intros (? & ? & _)]].
  destruct (ac_database e) as [d|] eqn:Ed; [|split; [done|intros (? & [= <-] & ? & _); congruence]].
  destruct (String.eqb_spec d db) as [->|Hd]; cbn; [|split; [done|intros (? & [= <-] & ? & _); congruence]].
  assert (match ac_expires_at e with Some t0 => t <? t0 | None => false end = true <->
    exists x, ac_expires_at e = Some x /\ t < x) as Hx.
  { destruct (ac_expires_at e); [rewrite Z.ltb_lt|]; [split; [eauto|by intros (? & [= <-] & ?)]|split; [done|by intros (? & ? & _)]]. }
  rewrite is_ok_sassert by done. rewrite negb_true_iff, !andb_false_iff, negb_false_iff, String.eqb_eq,
    negb_false_iff, bool_decide_eq_true, <- not_true_iff_false, Hx.
  split; [intros H; exists e; split; [done|split; [done|tauto]]|intros (? & [= <-] & _ & H); tauto].
Qed.

(** ** Evaluation *)

Definition demo_registry : Registries :=
  {["/r" := FileRoot {["K" := mkAccount (Some "K") (Some "db") None 4 None None None None]}]}%string.

(** A leases, dies, B takes over, A asks again. *)
Definition demo_history : list WriterOp :=
  [WAcquire "box" (fun _ => ALIVE) "/r" "K" "db" (Some "box:11") 11 "u" 360 100;
   WAcquire "box" (fun _ => ALIVE) "/r" "K" "db" (Some "box:22") 22 "u" 360 200;
   WAcquire "box" (fun _ => DEAD) "/r" "K" "db" (Some "box:22") 22 "u" 360 300]%string.

Definition cap_a : AccountWriterCapability := mkCapability "K" "db" "box:11" 5 "/r".
Definition cap_b : AccountWriterCapability := mkCapability "K" "db" "box:22" 6 "/r".

Lemma superseded_writer_fenced_witness :
  exists code, mutation_guard "/r" cap_a 310 (run_history demo_registry demo_history).1 =
    (Raise (AccountWriterFenceError code), (run_history demo_registry demo_history).1).
Proof.
  refine (proj2 (superseded_writer_fenced demo_registry demo_history _ [] cap_a [] cap_b [] "/r" 310 _ _ _)).
  - vm_compute. reflexivity.
  - split; reflexivity.
  - vm_compute. discriminate.
Defined.

Lemma one_current_writer_witness :
  capability_is_current "/r" (Some cap_b) 310 (run_history demo_registry demo_history).1 = true /\ cap_b = cap_b.
Proof.
  assert (capability_is_current "/r" (Some cap_b) 310 (run_history demo_registry demo_history).1 = true) as H
    by (vm_compute; reflexivity).
  split; [exact H|]. exact (one_current_writer _ "/r" cap_b cap_b 310 310 H H eq_refl).
Defined.
