(* ===== verification/BinanceAdapter.v ===== *)
(** * BinanceAdapter: the exchange interface over a venue client

    [infrastructure/binance_adapter.py].  The third-party client, the clock, the
    settings and the registry file are the class [VenueClient]; nothing is
    assumed of them: each call returns what it likes or raises what it likes, and
    the registry may change between two observations.  The adapter implements
    the interface [ExchangeAdapter] of the services, and every mutation of the
    account runs under the writer guard.

    A request carries the decimals whose [float] is sent; a textual field of a
    payload is kept by its text; a non-finite number counts as malformed. *)
From S2P Require Import Prelude PyDecimal PyValue State Receipts Adapter FillNormalizer AccountWriter.
From Stdlib Require Import Ascii.
Local Open Scope Z_scope.
Local Open Scope py_scope.

(** ** The client *)

Record OrderRequest := mkRequest {
  rq_symbol : string; rq_type : string; rq_side : string; rq_amount : Dec;
  rq_client_order_id : string; rq_stop_price : option Dec; rq_reduce_only : bool }.

(** An endpoint that the client may lack is an option. *)
Class VenueClient (W : Type) := {
  vc_credentials : SM W bool;
  vc_connect : SM W bool;
  vc_observe : W -> (string * Registries * datetime) * W;
  vc_now : W -> datetime * W;
  vc_fetch_balance : SM W PyVal;
  vc_fetch_positions : SM W PyVal;
  vc_fetch_open_orders : option string -> SM W PyVal;
  vc_open_algo_orders : option (option string -> SM W PyVal);
  vc_fetch_ticker : string -> SM W PyVal;
  vc_market : string -> SM W PyVal;
  vc_set_leverage : Z -> string -> SM W PyVal;
  vc_create_order : OrderRequest -> SM W PyVal;
  vc_get_order : string -> string -> SM W PyVal;
  vc_fetch_closed_orders : string -> SM W PyVal;
  vc_fetch_my_trades : string -> string -> SM W PyVal;
  vc_get_algo_order : option (string -> string -> SM W PyVal);
  vc_cancel_order : string -> string -> SM W PyVal;
  vc_cancel_algo_order : option (string -> string -> SM W PyVal) }.

(** ** Symbols and flags *)

Definition _canonical_symbol (symbol : string) : string :=
  let canonical := before ":" symbol in
  match without_suffix "USDT" canonical with
  | Some base => if contains_char "/" canonical then canonical else (base +:+ "/USDT")%string
  | None => canonical
  end.

(** [symbol.replace("/", "").split(":", 1)[0]] *)
Definition market_id (symbol : string) : string := before ":" (without "/" symbol).

Definition is_digit (c : ascii) : bool := match digit_of c with Some _ => true | None => false end.
Definition _looks_like_binance_algo_order_id (exchange_order_id : string) : bool :=
  str_truthy exchange_order_id && all_chars is_digit exchange_order_id
  && (15 <=? String.length exchange_order_id)%nat.

Definition _exchange_bool (v : PyVal) : bool :=
  match v with
  | VStr s => bool_decide (str_lower (strip s) ∈ ["1"; "true"; "yes"]%string)
  | _ => py_truthy v
  end.

Definition ostr_of (v : PyVal) : option string := if py_is_none v then None else Some (py_str v).
Definition optional_decimal (v : PyVal) : res (option Dec) :=
  if py_truthy v then py_decimal v ≫= fun d => Ok (Some d) else Ok None.

(** ** Payloads *)

Fixpoint collect {A B} (f : A -> res (list B)) (l : list A) : res (list B) :=
  match l with
  | [] => Ok []
  | x :: l => f x ≫= fun y => collect f l ≫= fun ys => Ok (y ++ ys)
  end.

Definition parse_position (v : PyVal) : res (list ExchangePositionSnapshot) :=
  py_mapping v ≫= fun d =>
  py_decimal (py_get_or d "contracts" (VInt 0)) ≫= fun contracts =>
  if (contracts =? dzero)%D then Ok []
  else
  py_item d "symbol" ≫= fun symbol =>
  py_item d "side" ≫= fun side =>
  item_decimal d "contracts" ≫= fun quantity =>
  item_decimal d "entryPrice" ≫= fun entry_price =>
  item_decimal d "markPrice" ≫= fun mark_price =>
  py_decimal (py_get_or d "unrealizedPnl" (VInt 0)) ≫= fun unrealized_pnl =>
  (let leverage := py_get d "leverage" in
   if py_is_none leverage then Ok None else py_int leverage ≫= fun z => Ok (Some z)) ≫= fun leverage =>
  Ok [mkExchangePosition (_canonical_symbol (py_str symbol)) (if py_eq_str side "long" then "long" else "short")
        quantity entry_price mark_price unrealized_pnl leverage].

Definition parse_open_order (v : PyVal) : res (list ExchangeOrderSnapshot) :=
  py_mapping v ≫= fun d =>
  py_item d "id" ≫= fun id =>
  py_item d "symbol" ≫= fun symbol =>
  py_item d "side" ≫= fun side =>
  py_item d "type" ≫= fun order_type =>
  item_decimal d "amount" ≫= fun amount =>
  optional_decimal (py_get d "price") ≫= fun price =>
  py_item d "status" ≫= fun status =>
  Ok [mkExchangeOrder (py_str id) (ostr_of (py_get d "clientOrderId")) (_canonical_symbol (py_str symbol))
        (py_str side) (py_str order_type) amount price (py_str status) (py_truthy (py_get d "reduceOnly"))].

Definition or_text (v : PyVal) (d : string) : string := py_str (py_or v (VStr d)).
Definition algo_order_id (d : list (string * PyVal)) : string :=
  or_text (py_or (py_get d "algoId") (py_or (py_get d "orderId") (py_get d "id"))) "".

(** The loop over algo orders skips those without an id and those already known. *)
Fixpoint parse_algo_orders (known : gset string) (l : list PyVal) : res (list ExchangeOrderSnapshot) :=
  match l with
  | [] => Ok []
  | v :: l =>
      py_mapping v ≫= fun d =>
      let exchange_order_id := algo_order_id d in
      if negb (str_truthy exchange_order_id) || bool_decide (exchange_order_id ∈ known) then parse_algo_orders known l
      else
      py_decimal (py_or (py_get d "quantity") (VStr "0")) ≫= fun quantity =>
      optional_decimal (py_or (py_get d "triggerPrice") (py_get d "stopPrice")) ≫= fun price =>
      parse_algo_orders ({[exchange_order_id]} ∪ known) l ≫= fun rest =>
      Ok (mkExchangeOrder exchange_order_id (ostr_of (py_or (py_get d "clientAlgoId") (py_get d "clientOrderId")))
            (_canonical_symbol (or_text (py_get d "symbol") "")) (str_lower (or_text (py_get d "side") ""))
            (str_lower (or_text (py_or (py_get d "orderType") (py_get d "type")) "conditional")) quantity price
            (str_lower (or_text (py_or (py_get d "algoStatus") (py_get d "status")) "NEW"))
            (py_truthy (py_get d "reduceOnly")) :: rest)
  end.

Definition usdt_amount (balance : list (string * PyVal)) (key : string) : res Dec :=
  py_mapping (py_get_or balance "USDT" (VDict "{}" [])) ≫= fun usdt => py_decimal (py_get_or usdt key (VInt 0)).

(** [receipt_from_algo] *)
Definition receipt_from_algo (symbol : string) (d : list (string * PyVal)) (now : datetime) : res ExchangeOrderReceipt :=
  py_decimal (py_or (py_or (py_get d "quantity") (py_get d "origQty")) (VInt 0)) ≫= fun quantity =>
  optional_decimal (py_or (py_get d "triggerPrice") (py_or (py_get d "stopPrice") (py_get d "price"))) ≫= fun price =>
  Ok (mkOrderReceipt (algo_order_id d) (or_text (py_or (py_get d "clientAlgoId") (py_get d "clientOrderId")) "")
        (_canonical_symbol (or_text (py_get d "symbol") symbol)) (str_lower (or_text (py_get d "side") ""))
        (str_lower (or_text (py_or (py_get d "orderType") (py_get d "type")) "conditional")) quantity price
        (str_lower (or_text (py_or (py_get d "algoStatus") (py_get d "status")) "new")) now
        (_exchange_bool (py_get d "reduceOnly"))).

(** The receipt of an open or closed order found by its client order id. *)
Definition receipt_from_order (symbol client_order_id : string) (d : list (string * PyVal)) (now : datetime) :
    res ExchangeOrderReceipt :=
  py_item d "id" ≫= fun id =>
  py_item d "side" ≫= fun side =>
  py_item d "type" ≫= fun order_type =>
  item_decimal d "amount" ≫= fun quantity =>
  optional_decimal (py_get d "price") ≫= fun price =>
  py_item d "status" ≫= fun status =>
  py_mapping (py_or (py_get d "info") (VDict "{}" [])) ≫= fun info =>
  Ok (mkOrderReceipt (py_str id) client_order_id symbol (py_str side) (py_str order_type) quantity price
        (py_str status) now (_exchange_bool (py_get_or d "reduceOnly" (py_get info "reduceOnly")))).

(** The receipt of an order this adapter just created. *)
Definition created_receipt (symbol side order_type client_order_id : string) (quantity : Dec) (price : option Dec)
    (d : list (string * PyVal)) (now : datetime) : res ExchangeOrderReceipt :=
  py_item d "id" ≫= fun id =>
  py_item d "status" ≫= fun status =>
  Ok (mkOrderReceipt (py_str id) client_order_id symbol side order_type quantity price (py_str status) now false).

Definition cancelled_algo_receipt (symbol exchange_order_id : string) (d : list (string * PyVal)) (now : datetime) :
    res ExchangeOrderReceipt :=
  py_decimal (py_or (py_get d "quantity") (VStr "0")) ≫= fun quantity =>
  optional_decimal (py_or (py_get d "triggerPrice") (py_get d "stopPrice")) ≫= fun price =>
  Ok (mkOrderReceipt (or_text (py_get d "algoId") exchange_order_id) (py_str (py_get d "clientAlgoId")) symbol
        (str_lower (or_text (py_get d "side") "")) (str_lower (or_text (py_get d "orderType") "conditional"))
        quantity price "canceled" now false).

Definition cancelled_receipt (symbol : string) (d : list (string * PyVal)) (now : datetime) : res ExchangeOrderReceipt :=
  py_item d "id" ≫= fun id =>
  py_item d "side" ≫= fun side =>
  py_item d "type" ≫= fun order_type =>
  item_decimal d "amount" ≫= fun quantity =>
  optional_decimal (py_get d "price") ≫= fun price =>
  Ok (mkOrderReceipt (py_str id) (py_str (py_get d "clientOrderId")) symbol (py_str side) (py_str order_type)
        quantity price "canceled" now false).

(** ** The adapter *)

Definition payload_mapping {S} (v : PyVal) : SM S (list (string * PyVal)) := slift (py_mapping v).

Section adapter.
Context {W : Type} {V : VenueClient W} (writer_capability : option AccountWriterCapability).

(** The state: whether the gateway is initialized, and the client's world. *)
Definition AState : Type := bool * W.
Definition venue {A} (m : SM W A) : SM AState A := fun '(b, w) => let '(r, w') := m w in (r, (b, w')).
Definition now : SM AState datetime := venue (fun w => let '(t, w') := vc_now w in (Ok t, w')).
Definition observe_registry : SM AState (string * Registries * datetime) :=
  venue (fun w => let '(o, w') := vc_observe w in (Ok o, w')).

(** [with self._mutation_guard(): m] *)
Definition guarded {A} (m : SM AState A) : SM AState A :=
  match writer_capability with
  | None => sraise (fence_error "ACCOUNT_WRITER_FENCE_REJECTED")
  | Some c =>
      let! o := observe_registry in
      slift (mutation_guard o.1.1 c o.2 o.1.2).1 ;;;
      m
  end.

(** [except Exception as e: raise BinanceAdapterUnavailable] *)
Definition or_unavailable {A} (m : SM AState A) : SM AState A :=
  stry m (fun _ => Some (sraise BinanceAdapterUnavailable)).
(** The same after [except AccountWriterFenceError: raise]. *)
Definition or_unavailable_unless_fenced {A} (m : SM AState A) : SM AState A :=
  stry m (fun e => match e with AccountWriterFenceError _ => None | _ => Some (sraise BinanceAdapterUnavailable) end).

Definition _ensure_gateway : SM AState unit :=
  let! ready := (fun s : AState => (Ok s.1, s)) in
  if ready then sret tt
  else or_unavailable (
    let! credentials := venue vc_credentials in
    sassert credentials BinanceAdapterUnavailable ;;;
    let! is_unavailable_client := venue vc_connect in
    sassert (negb is_unavailable_client) BinanceAdapterUnavailable ;;;
    smodify (fun s : AState => (true, s.2))).

Definition binance_fetch_snapshot : SM AState AuthoritativeAccountSnapshot :=
  _ensure_gateway ;;;
  or_unavailable (
    let! balance := venue vc_fetch_balance in
    let! balance := payload_mapping balance in
    let! usdt_balance := slift (usdt_amount balance "free") in
    let! usdt_total := slift (usdt_amount balance "total") in
    let! positions := venue vc_fetch_positions in
    let! positions := slift (py_mappings positions ≫= collect parse_position) in
    let! orders := venue (vc_fetch_open_orders None) in
    let! orders := slift (py_mappings orders ≫= collect parse_open_order) in
    let! algo_orders := match vc_open_algo_orders with
                        | Some fetch_open_algo_orders => venue (fetch_open_algo_orders None)
                        | None => sret (VList "[]" [])
                        end in
    let! algo_orders := slift (py_mappings (py_or algo_orders (VList "[]" [])) ≫=
                               parse_algo_orders (list_to_set (map xo_exchange_order_id orders))) in
    let! t := now in
    slift (make_AuthoritativeAccountSnapshot
             (mkAccountSnapshot usdt_balance usdt_total positions (orders ++ algo_orders) t))).

Definition fetch_market_snapshot (symbol : string) : SM AState PreSubmitMarketSnapshot :=
  _ensure_gateway ;;;
  or_unavailable (
    let! ticker := venue (vc_fetch_ticker symbol) in
    let! current_price := slift (py_mapping ticker ≫= fun d => item_decimal d "last") in
    let! market := venue (vc_market symbol) in
    let! market := payload_mapping market in
    let! precision := slift (item_mapping market "precision") in
    let! tick_size := slift (item_decimal precision "price") in
    let! step_size := slift (item_decimal precision "amount") in
    let! limits := slift (item_mapping market "limits") in
    let! min_notional := slift (item_mapping limits "cost" ≫= fun d => item_decimal d "min") in
    let! t := now in
    slift (make_PreSubmitMarketSnapshot
             (mkMarketSnapshot symbol current_price dzero t tick_size step_size min_notional))).

(** The creation of one order and its receipt. *)
Definition create_and_receipt (rq : OrderRequest) : SM AState ExchangeOrderReceipt :=
  let! response := guarded (venue (vc_create_order rq)) in
  let! d := payload_mapping response in
  let! t := now in
  slift (created_receipt (rq_symbol rq) (rq_side rq) (rq_type rq) (rq_client_order_id rq) (rq_amount rq)
           (rq_stop_price rq) d t).

Definition binance_submit_market_order (command : SubmitEntryToExchange) (symbol side : string) :
    SM AState ExchangeOrderReceipt :=
  _ensure_gateway ;;;
  or_unavailable_unless_fenced (
    or_unavailable_unless_fenced (guarded (venue (vc_set_leverage (se_leverage command) symbol))) ;;;
    create_and_receipt (mkRequest symbol "market" side (se_quantity command) (se_client_order_id command) None false)).

Definition query_filled_order_by_id (symbol exchange_order_id : string) : SM AState (option ExchangeOrderReceipt) :=
  _ensure_gateway ;;;
  let! rows := or_unavailable (venue (vc_get_order (market_id symbol) exchange_order_id)) in
  match rows with
  | VDict _ d =>
      if negb (String.eqb (py_str (py_get d "orderId")) exchange_order_id) then sret None
      else
      let! id := slift (py_item d "orderId") in
      let! quantity := slift (py_decimal (py_or (py_get d "origQty") (VStr "0"))) in
      let! price := slift (optional_decimal (py_get d "avgPrice")) in
      let! ms := slift (py_int (py_or (py_get d "updateTime") (py_or (py_get d "time") (VInt 0)))) in
      sret (Some (mkOrderReceipt (py_str id) (or_text (py_get d "clientOrderId") "")
        (_canonical_symbol (or_text (py_get d "symbol") symbol)) (str_lower (or_text (py_get d "side") ""))
        (str_lower (or_text (py_get d "type") "market")) quantity price (str_lower (or_text (py_get d "status") ""))
        (ms * 1000) (_exchange_bool (py_get d "reduceOnly"))))
  | _ => sret None
  end.

(** The first order of a response that carries the client order id. *)
Fixpoint find_order (id_of : list (string * PyVal) -> bool) (l : list PyVal) : res (option (list (string * PyVal))) :=
  match l with
  | [] => Ok None
  | v :: l => py_mapping v ≫= fun d => if id_of d then Ok (Some d) else find_order id_of l
  end.

Definition search_orders (id_of : list (string * PyVal) -> bool) (response : PyVal) :
    SM AState (option (list (string * PyVal))) := slift (py_mappings response ≫= find_order id_of).

Definition binance_query_order_by_client_id (symbol client_order_id : string) : SM AState (option ExchangeOrderReceipt) :=
  _ensure_gateway ;;;
  or_unavailable (
    let! algo := match vc_open_algo_orders with
                 | Some fetch_open_algo_orders =>
                     let! algo_orders := venue (fetch_open_algo_orders (Some (market_id symbol))) in
                     search_orders (fun d => String.eqb
                       (or_text (py_or (py_get d "clientAlgoId") (py_get d "clientOrderId")) "") client_order_id)
                       (py_or algo_orders (VList "[]" []))
                 | None => sret None
                 end in
    match algo with
    | Some d => let! t := now in let! r := slift (receipt_from_algo symbol d t) in sret (Some r)
    | None =>
        let by_client_id d := py_eq_str (py_get d "clientOrderId") client_order_id in
        let! open_orders := venue (vc_fetch_open_orders (Some symbol)) in
        let! found := search_orders by_client_id open_orders in
        match found with
        | Some d => let! t := now in let! r := slift (receipt_from_order symbol client_order_id d t) in sret (Some r)
        | None =>
            let! closed_orders := venue (vc_fetch_closed_orders symbol) in
            let! found := search_orders by_client_id closed_orders in
            match found with
            | Some d => let! t := now in let! r := slift (receipt_from_order symbol client_order_id d t) in sret (Some r)
            | None => sret None
            end
        end
    end).

Definition normalize_trades (order_id : string) (trades : PyVal) : res (list ExchangeFillReceipt) :=
  (py_mappings trades ≫= collect (fun v => py_mapping v ≫= fun d =>
     normalize_ccxt_trade d order_id ≫= fun f => Ok [f])) ≫= fun fills =>
  deduplicate_fills fills ≫= fun fills => Ok (map fill_receipt fills).

Definition binance_fetch_fills (symbol exchange_order_id : string) : SM AState (list ExchangeFillReceipt) :=
  _ensure_gateway ;;;
  or_unavailable (
    let! trades := venue (vc_fetch_my_trades symbol exchange_order_id) in
    if negb (py_truthy trades) && _looks_like_binance_algo_order_id exchange_order_id then
      match vc_get_algo_order with
      | Some fetch_algo_order =>
          let! algo_order := venue (fetch_algo_order exchange_order_id (market_id symbol)) in
          match algo_order with
          | VDict _ d =>
              let actual := py_get d "actualOrderId" in
              if py_truthy actual then
                let! trades := venue (vc_fetch_my_trades symbol (py_str actual)) in
                slift (normalize_trades (py_str actual) trades)
              else slift (normalize_trades exchange_order_id trades)
          | _ => slift (normalize_trades exchange_order_id trades)
          end
      | None => slift (normalize_trades exchange_order_id trades)
      end
    else slift (normalize_trades exchange_order_id trades)).

Definition stop_request (symbol side client_order_id : string) (quantity stop_price : Dec) : OrderRequest :=
  mkRequest symbol "stop_market" side quantity client_order_id (Some stop_price) true.

Definition binance_submit_protection (command : SubmitProtectionOrders) (symbol side : string) (quantity : Dec) :
    SM AState (ExchangeOrderReceipt * option ExchangeOrderReceipt) :=
  _ensure_gateway ;;;
  or_unavailable_unless_fenced (
    let! stop_receipt := create_and_receipt
      (stop_request symbol side (sp_stop_client_order_id command) quantity (sp_stop_loss_price command)) in
    match sp_take_profit_price command, sp_tp_client_order_id command with
    | Some price, Some tp_id =>
        if dtruthy price && str_truthy tp_id then
          let! tp_receipt := create_and_receipt
            (mkRequest symbol "take_profit_market" side quantity tp_id (Some price) true) in
          sret (stop_receipt, Some tp_receipt)
        else sret (stop_receipt, None)
    | _, _ => sret (stop_receipt, None)
    end).

Definition submit_stop_replacement (symbol side : string) (quantity stop_price : Dec) (client_order_id : string) :
    SM AState ExchangeOrderReceipt :=
  _ensure_gateway ;;;
  or_unavailable_unless_fenced
    (create_and_receipt (stop_request symbol side client_order_id quantity stop_price)).

Definition binance_submit_reduce_only_exit (command : SubmitReduceOnlyExit) (symbol side : string) :
    SM AState ExchangeOrderReceipt :=
  _ensure_gateway ;;;
  or_unavailable_unless_fenced
    (create_and_receipt (mkRequest symbol "market" side (sr_reduce_quantity command) (sr_client_order_id command) None true)).

Definition cancel_algo (cancel_algo_order : string -> string -> SM W PyVal) (symbol exchange_order_id : string) :
    SM AState ExchangeOrderReceipt :=
  let! response := venue (cancel_algo_order exchange_order_id (market_id symbol)) in
  let! d := payload_mapping response in
  let! t := now in
  slift (cancelled_algo_receipt symbol exchange_order_id d t).

Definition _cancel_order_unlocked (symbol exchange_order_id : string) : SM AState ExchangeOrderReceipt :=
  _ensure_gateway ;;;
  or_unavailable (
    let cancel := (let! response := venue (vc_cancel_order exchange_order_id symbol) in
                   let! d := payload_mapping response in
                   let! t := now in
                   slift (cancelled_receipt symbol d t)) in
    match vc_cancel_algo_order with
    | Some cancel_algo_order =>
        if _looks_like_binance_algo_order_id exchange_order_id
        then cancel_algo cancel_algo_order symbol exchange_order_id
        else stry cancel (fun _ => Some (cancel_algo cancel_algo_order symbol exchange_order_id))
    | None => cancel
    end).

Definition binance_cancel_order (symbol exchange_order_id : string) : SM AState ExchangeOrderReceipt :=
  guarded (_cancel_order_unlocked symbol exchange_order_id).

(** The adapter is an implementation of the services' interface. *)
Definition binance_adapter : ExchangeAdapter AState := {|
  submit_market_order := binance_submit_market_order;
  fetch_fills := binance_fetch_fills;
  submit_protection := binance_submit_protection;
  submit_reduce_only_exit := binance_submit_reduce_only_exit;
  cancel_order := binance_cancel_order;
  query_order_by_client_id := binance_query_order_by_client_id;
  fetch_authoritative_snapshot := binance_fetch_snapshot |}.

End adapter.
Arguments AState : clear implicits.

(** ** Which exceptions leave the adapter *)

(** The two exceptions the services are told to expect. *)
Definition adapter_exception (e : PyExc) : Prop :=
  e = BinanceAdapterUnavailable \/ exists code, e = AccountWriterFenceError code.

Lemma mutation_guard_raises path c t : raises (fun e => exists code, e = AccountWriterFenceError code) (mutation_guard path c t).
Proof.
  intros w e w' H. unfold mutation_guard in H.
  apply sbind_inv in H as [(u & s1 & Ha & H)|(e1 & Ha & H)]; apply sassert_inv in Ha as [-> [[_ Ha]|[_ Ha]]];
    simplify_eq; [|by eexists].
  apply sbind_inv in H as [(a & s1 & Hr & H)|(e1 & Hr & H)]; apply read_accounts_inv in Hr as [-> Hr].
  - apply slift_inv in H as [H _]. unfold _assert_current, assert_or in H. cbv zeta in H.
    repeat case_bool; cbn in H; simplify_eq; by eexists.
  - simplify_eq. by eexists.
Qed.

Section exceptions.
Context {W : Type} {V : VenueClient W} (cap : option AccountWriterCapability).

Lemma or_unavailable_raises {A} (m : SM (AState W) A) : raises adapter_exception (or_unavailable m).
Proof. apply raises_try; [|done]. intros e k [= <-]. apply raises_raise. by left. Qed.

Lemma or_unavailable_unless_fenced_raises {A} (m : SM (AState W) A) :
  raises adapter_exception (or_unavailable_unless_fenced m).
Proof.
  apply raises_try.
  - intros e k H. destruct e; simplify_eq; apply raises_raise; by left.
  - intros e H. destruct e; try done. right. by eexists.
Qed.

Lemma guarded_raises {A} (m : SM (AState W) A) : raises adapter_exception m -> raises adapter_exception (guarded cap m).
Proof.
  intros Hm. unfold guarded. destruct cap as [c|]; [|apply raises_raise; right; by eexists].
  apply raises_bind.
  - intros [b w] e s' H. unfold observe_registry, venue in H. destruct (vc_observe w); discriminate H.
  - intros o. apply raises_bind; [|done]. intros s e s' H. apply slift_inv in H as [H _].
    destruct (mutation_guard o.1.1 c o.2 o.1.2) as [r w'] eqn:E. cbn in H. subst r.
    right. by eapply mutation_guard_raises.
Qed.

Lemma ensure_gateway_raises : raises adapter_exception (_ensure_gateway (V := V)).
Proof.
  apply raises_bind; [intros s e s' H; discriminate H|]. intros ready.
  destruct ready; [apply raises_ret|apply or_unavailable_raises].
Qed.

#[local] Hint Resolve or_unavailable_raises or_unavailable_unless_fenced_raises guarded_raises ensure_gateway_raises : programs.

(** Every operation raises [BinanceAdapterUnavailable] or the writer fence's refusal. *)
Lemma adapter_exceptions :
  (forall c s d, raises adapter_exception (binance_submit_market_order cap c s d)) /\
  (forall s o, raises adapter_exception (binance_fetch_fills (V := V) s o)) /\
  (forall c s d q, raises adapter_exception (binance_submit_protection cap c s d q)) /\
  (forall s d q p i, raises adapter_exception (submit_stop_replacement cap s d q p i)) /\
  (forall c s d, raises adapter_exception (binance_submit_reduce_only_exit cap c s d)) /\
  (forall s o, raises adapter_exception (binance_cancel_order cap s o)) /\
  (forall s i, raises adapter_exception (binance_query_order_by_client_id (V := V) s i)) /\
  raises adapter_exception (binance_fetch_snapshot (V := V)) /\
  (forall s, raises adapter_exception (fetch_market_snapshot (V := V) s)).
Proof.
  assert (forall {A} (m : SM (AState W) A), raises adapter_exception m ->
    raises adapter_exception (sbind (_ensure_gateway (V := V)) (fun _ => m))) as H by auto with programs.
  split_and!; intros; try (apply H); auto with programs.
  apply guarded_raises, H. auto with programs.
Qed.
End exceptions.

(** ** Every mutation is fenced *)

Inductive VenueEvent :=
  | EvObserve (path : string) (registries : Registries) (at_time : datetime)
  | EvSetLeverage (leverage : Z) (symbol : string) (accepted : bool)
  | EvCreateOrder (rq : OrderRequest) (accepted : bool)
  | EvCancel (symbol exchange_order_id : string) (accepted : bool)
  | EvRead.

Definition is_mutation (e : VenueEvent) : bool :=
  match e with EvSetLeverage _ _ _ | EvCreateOrder _ _ | EvCancel _ _ _ => true | _ => false end.

Definition record_event {W A} (ev : res A -> VenueEvent) (m : SM W A) : SM (W * list VenueEvent) A :=
  fun '(w, l) => let '(r, w') := m w in (r, (w', l ++ [ev r])).
Definition record_read {W A} (m : SM W A) : SM (W * list VenueEvent) A := record_event (fun _ => EvRead) m.

(** A client that records what is asked of it. *)
#[export] Instance recorded {W} (V : VenueClient W) : VenueClient (W * list VenueEvent) := {
  vc_credentials := record_read vc_credentials;
  vc_connect := record_read vc_connect;
  vc_observe := fun '(w, l) => let '(o, w') := vc_observe w in (o, (w', l ++ [EvObserve o.1.1 o.1.2 o.2]));
  vc_now := fun '(w, l) => let '(t, w') := vc_now w in (t, (w', l));
  vc_fetch_balance := record_read vc_fetch_balance;
  vc_fetch_positions := record_read vc_fetch_positions;
  vc_fetch_open_orders s := record_read (vc_fetch_open_orders s);
  vc_open_algo_orders := (fun f s => record_read (f s)) <$> vc_open_algo_orders;
  vc_fetch_ticker s := record_read (vc_fetch_ticker s);
  vc_market s := record_read (vc_market s);
  vc_set_leverage l s := record_event (fun r => EvSetLeverage l s (is_ok r)) (vc_set_leverage l s);
  vc_create_order rq := record_event (fun r => EvCreateOrder rq (is_ok r)) (vc_create_order rq);
  vc_get_order m i := record_read (vc_get_order m i);
  vc_fetch_closed_orders s := record_read (vc_fetch_closed_orders s);
  vc_fetch_my_trades s i := record_read (vc_fetch_my_trades s i);
  vc_get_algo_order := (fun f i m => record_read (f i m)) <$> vc_get_algo_order;
  vc_cancel_order i s := record_event (fun r => EvCancel s i (is_ok r)) (vc_cancel_order i s);
  vc_cancel_algo_order := (fun f i m => record_event (fun r => EvCancel m i (is_ok r)) (f i m)) <$> vc_cancel_algo_order }.

Section fenced.
Context {W : Type} {V : VenueClient W} (cap : option AccountWriterCapability).
Notation St := (AState (W * list VenueEvent)).
Definition log (s : St) : list VenueEvent := s.2.2.

(** An observation of the registry under which this adapter may write. *)
Definition admits (e : VenueEvent) : Prop :=
  match e with
  | EvObserve path registries t => exists c, cap = Some c /\ is_ok (mutation_guard path c t registries).1 = true
  | _ => False
  end.
Definition within_guard (e : VenueEvent) : bool := match e with EvRead | EvCancel _ _ _ => true | _ => false end.
Definition is_cancel (e : VenueEvent) : bool := match e with EvCancel _ _ _ => true | _ => false end.

(** Between an admitting observation and a leverage change or an order creation
    nothing happens; between it and a cancellation only reads and the other
    attempt to cancel, all under the same lock. *)
Definition fenced (l : list VenueEvent) : Prop :=
  forall pre e post, l = pre ++ e :: post -> is_mutation e = true ->
    exists pre' o mid, pre = pre' ++ o :: mid /\ admits o /\ Forall (fun x => within_guard x = true) mid /\
      (is_cancel e = false -> mid = []).

(** The guard is held: what has happened since it was entered. *)
Definition held (l mid : list VenueEvent) : Prop :=
  fenced l /\ Forall (fun x => within_guard x = true) mid /\ exists pre o, l = pre ++ o :: mid /\ admits o.

Lemma fenced_snoc l e :
  fenced l -> (is_mutation e = true -> exists pre' o mid, l = pre' ++ o :: mid /\ admits o /\
    Forall (fun x => within_guard x = true) mid /\ (is_cancel e = false -> mid = [])) -> fenced (l ++ [e]).
Proof.
  intros Hl He pre x post E Hx. destruct post as [|y post _] using rev_ind.
  - apply app_inj_tail in E as [-> ->]. by apply He.
  - apply (Hl pre x post); [|done]. apply (app_inj_tail l _ e y). by rewrite E, <-app_assoc.
Qed.

Lemma venue_event_inv {A} (ev : res A -> VenueEvent) (m : SM W A) (s : St) r s' :
  venue (record_event ev m) s = (r, s') -> log s' = log s ++ [ev r].
Proof.
  destruct s as [b [w l]]. unfold venue, record_event. destruct (m w) as [x w']. by intros [= <- <-].
Qed.

Lemma preserves_read {A} (m : SM W A) : preserves (fun s : St => fenced (log s)) (venue (record_read m)).
Proof. intros s r s' Hs H. apply venue_event_inv in H as ->. by apply fenced_snoc. Qed.

Lemma preserves_now : preserves (fun s : St => fenced (log s)) (now (V := recorded V)).
Proof.
  intros [b [w l]] r s' Hs H. unfold now, venue in H. cbn in H. destruct (vc_now w). by injection H as <- <-.
Qed.

(** Entering the guard. *)
Lemma fenced_guarded {A} (m : SM St A) :
  (forall s r s', held (log s) [] -> m s = (r, s') -> fenced (log s')) ->
  preserves (fun s : St => fenced (log s)) (guarded (V := recorded V) cap m).
Proof.
  intros Hm s r s' Hs H. unfold guarded in H. destruct cap as [c|] eqn:Ec; [|by apply sraise_inv in H as [-> ->]].
  apply sbind_inv in H as [(o & s1 & Ho & H)|(e & Ho & ->)]; destruct s as [b [w l]];
    unfold observe_registry, venue in Ho; cbn in Ho; destruct (vc_observe w) as [[[path regs] t] w1]; [|done].
  injection Ho as <- <-. cbn [fst snd] in *. unfold log in Hs. cbn in Hs.
  assert (fenced (l ++ [EvObserve path regs t])) as Hf by (by apply fenced_snoc).
  apply sbind_inv in H as [(u & s2 & Hg & H)|(e & Hg & ->)]; apply slift_inv in Hg as [Hg ->]; [|done].
  eapply Hm; [|exact H]. split; [done|]. split; [constructor|]. exists l, (EvObserve path regs t). split; [done|].
  exists c. split; [done|]. by rewrite <- Hg.
Qed.

Lemma guarded_mutation {A} (ev : res A -> VenueEvent) (m : SM W A) :
  preserves (fun s : St => fenced (log s)) (guarded (V := recorded V) cap (venue (record_event ev m))).
Proof.
  apply fenced_guarded. intros s r s' (Hf & _ & pre & o & Hl & Ho) H. apply venue_event_inv in H as ->.
  apply fenced_snoc; [done|]. intros _. exists pre, o, []. by repeat split.
Qed.

(** Decompose a program into reads, pure steps and guarded mutations. *)
Ltac fenced_step :=
  first [ apply preserves_ret | apply preserves_raise | apply preserves_lift | apply preserves_assert
        | apply preserves_read | apply preserves_now | apply guarded_mutation
        | apply preserves_bind; [|intros ?]
        | apply preserves_try; [|intros ? ? ?; simplify_eq]
        | match goal with
          | |- preserves _ (match ?x with _ => _ end) => destruct x eqn:?
          end
        | match goal with
          | H : match ?e with _ => _ end = Some ?k |- preserves _ ?k => destruct e; simplify_eq
          end ].

Lemma gateway_fenced : preserves (fun s : St => fenced (log s)) (_ensure_gateway (V := recorded V)).
Proof.
  unfold _ensure_gateway, or_unavailable, vc_credentials, vc_connect. cbn.
  apply preserves_bind; [by intros s r s' Hs [= <- <-]|]. intros ready. repeat fenced_step.
  by intros [b s] r s' Hs [= <- <-].
Qed.
(** While the guard is held, reads and attempts to cancel keep it held. *)
Definition holding (s : St) : Prop := exists mid, held (log s) mid.

Lemma held_snoc l mid e : held l mid -> within_guard e = true -> held (l ++ [e]) (mid ++ [e]).
Proof.
  intros (Hf & Hm & pre & o & Hl & Ho) He. split; [|split].
  - apply fenced_snoc; [done|]. intros Hx. exists pre, o, mid. split_and!; try done. by destruct e.
  - apply Forall_app. by repeat constructor.
  - exists pre, o. by rewrite Hl, <-app_assoc.
Qed.

Lemma holding_event {A} (ev : res A -> VenueEvent) (m : SM W A) :
  (forall r, within_guard (ev r) = true) -> preserves holding (venue (record_event ev m)).
Proof. intros He s r s' [mid Hs] H. apply venue_event_inv in H. exists (mid ++ [ev r]). rewrite H. by apply held_snoc. Qed.

Lemma holding_now : preserves holding (now (V := recorded V)).
Proof. intros [b [w l]] r s' Hs H. unfold now, venue in H. cbn in H. destruct (vc_now w). by injection H as <- <-. Qed.

Ltac holding_step :=
  first [ apply preserves_ret | apply preserves_raise | apply preserves_lift | apply preserves_assert
        | apply holding_event; by intros ? | apply holding_now
        | apply preserves_bind; [|intros ?]
        | apply preserves_try; [|intros ? ? ?; simplify_eq]
        | match goal with |- preserves _ (match ?x with _ => _ end) => destruct x eqn:? end ].

Lemma cancel_unlocked_holding symbol id : preserves holding (_cancel_order_unlocked (V := recorded V) symbol id).
Proof.
  unfold _cancel_order_unlocked, _ensure_gateway, or_unavailable, cancel_algo, payload_mapping,
    vc_credentials, vc_connect, vc_cancel_order, vc_cancel_algo_order; cbn.
  apply preserves_bind.
  - apply preserves_bind; [by intros s r s' Hs [= <- <-]|]. intros ready. unfold record_read. repeat holding_step.
    by intros [b s] r s' Hs [= <- <-].
  - intros _. destruct (@vc_cancel_algo_order W V); cbn; repeat holding_step.
Qed.

(** Every operation keeps the log fenced. *)
Lemma adapter_operations_fenced :
  let keeps {A} (m : SM St A) := preserves (fun s => fenced (log s)) m in
  (forall c s d, keeps (binance_submit_market_order (V := recorded V) cap c s d)) /\
  (forall s o, keeps (binance_fetch_fills (V := recorded V) s o)) /\
  (forall c s d q, keeps (binance_submit_protection (V := recorded V) cap c s d q)) /\
  (forall s d q p i, keeps (submit_stop_replacement (V := recorded V) cap s d q p i)) /\
  (forall c s d, keeps (binance_submit_reduce_only_exit (V := recorded V) cap c s d)) /\
  (forall s o, keeps (binance_cancel_order (V := recorded V) cap s o)) /\
  (forall s i, keeps (binance_query_order_by_client_id (V := recorded V) s i)) /\
  keeps (binance_fetch_snapshot (V := recorded V)) /\
  (forall s i, keeps (query_filled_order_by_id (V := recorded V) s i)) /\
  (forall s, keeps (fetch_market_snapshot (V := recorded V) s)).
Proof.
  cbv zeta. assert (forall {A} (m : SM St A), preserves (fun s : St => fenced (log s)) m ->
    preserves (fun s : St => fenced (log s)) (sbind (_ensure_gateway (V := recorded V)) (fun _ => m))) as G.
  { intros A m Hm. apply preserves_bind; [apply gateway_fenced|done]. }
  split_and!; intros.
  6: { apply fenced_guarded. intros st r st' Hs H.
       assert (holding st') as [mid [? _]]; [|done]. eapply cancel_unlocked_holding; [|exact H]. by exists []. }
  all: apply G; unfold or_unavailable, or_unavailable_unless_fenced, create_and_receipt, payload_mapping, search_orders,
    vc_open_algo_orders, vc_get_algo_order; cbn.
  all: try destruct (@vc_open_algo_orders W V); try destruct (@vc_get_algo_order W V); cbn; repeat fenced_step.
Qed.
(** *** Invariants of the log *)

Definition keeps_log (Q : list VenueEvent -> Prop) (s : St) : Prop := Q (log s).

(** [Q] is kept by every event of the kind [p], which includes the reads. *)
Section events.
Context (p : VenueEvent -> bool) (Q : list VenueEvent -> Prop) (Hsnoc : forall l e, Q l -> p e = true -> Q (l ++ [e])).
Context (Hread : p EvRead = true) (Hobs : forall a b c, p (EvObserve a b c) = true).

Lemma event_kept {A} (ev : res A -> VenueEvent) (m : SM W A) :
  (forall r, p (ev r) = true) -> preserves (keeps_log Q) (venue (record_event ev m)).
Proof. intros He s r s' Hs H. apply venue_event_inv in H. unfold keeps_log. rewrite H. by apply Hsnoc. Qed.

Lemma now_kept : preserves (keeps_log Q) (now (V := recorded V)).
Proof. intros [b [w l]] r s' Hs H. unfold now, venue in H. cbn in H. destruct (vc_now w). by injection H as <- <-. Qed.

Lemma observe_kept : preserves (keeps_log Q) (observe_registry (V := recorded V)).
Proof.
  intros [b [w l]] r s' Hs H. unfold observe_registry, venue in H. cbn in H. destruct (vc_observe w) as [[[x y] t] w1].
  injection H as <- <-. by apply Hsnoc.
Qed.

(** A guarded step that establishes [R] from [Q]. *)
Lemma guarded_run {A} (m : SM St A) (R : St -> Prop) :
  (forall s, keeps_log Q s -> R s) ->
  (forall s r s', keeps_log Q s -> m s = (r, s') -> R s') ->
  forall s r s', keeps_log Q s -> guarded (V := recorded V) cap m s = (r, s') -> R s'.
Proof.
  intros Hr Hm s r s' Hs H. unfold guarded in H. destruct cap; [|by apply sraise_inv in H as [_ ->]; auto].
  apply sbind_inv in H as [(o & s1 & Ho & H)|(e & Ho & ->)]; apply observe_kept in Ho; auto.
  apply sbind_inv in H as [(u & s2 & Hg & H)|(e & Hg & ->)]; apply slift_inv in Hg as [_ ->]; eauto.
Qed.

Lemma guarded_kept {A} (m : SM St A) :
  preserves (keeps_log Q) m -> preserves (keeps_log Q) (guarded (V := recorded V) cap m).
Proof. intros Hm s r s' Hs H. by eapply (guarded_run m). Qed.

Lemma gateway_kept : preserves (keeps_log Q) (_ensure_gateway (V := recorded V)).
Proof.
  unfold _ensure_gateway, or_unavailable, vc_credentials, vc_connect. cbn.
  apply preserves_bind; [by intros s r s' Hs [= <- <-]|]. intros ready. destruct ready; [apply preserves_ret|].
  apply preserves_try; [|intros ? ? [= <-]; apply preserves_raise].
  repeat (apply preserves_bind; [first [by apply event_kept|apply preserves_assert]|intros ?]).
  by intros [b s] r s' Hs [= <- <-].
Qed.
End events.
End fenced.
