(* ===== verification/Composition.v ===== *)
(** * Composition: the services running on the Binance adapter

    The entry, exit and protection services are generic in the exchange adapter;
    here they run on [BinanceAdapter], over a client that records its events.
    The theorems speak of what reaches the venue. *)
From S2P Require Import Prelude PyDecimal PyValue State Receipts ClientOrderId Candidates Funnel Adapter RuntimeLock.
From S2P Require Import Quantities Reconciliation Entry Exit Protection AccountWriter BinanceAdapter.
Local Open Scope Z_scope.

(** ** Services keep what their adapter's operations keep *)

Section keeps.
Context {W} {A : ExchangeAdapter W} (P : W -> Prop).

(** The operations that may only reduce risk. *)
Record derisking_keeps : Prop := {
  dk_protect : forall c s d q, preserves P (submit_protection c s d q);
  dk_reduce : forall c s d, preserves P (submit_reduce_only_exit c s d);
  dk_cancel : forall s o, preserves P (cancel_order s o);
  dk_fills : forall s o, preserves P (fetch_fills s o);
  dk_snapshot : preserves P fetch_authoritative_snapshot }.

Ltac keeps_step :=
  first [ apply preserves_ret | apply preserves_raise | apply preserves_lift | apply preserves_assert
        | apply preserves_bind; [|intros ?]
        | apply preserves_try_else; [|intros ? ? ?; simplify_eq|intros ?]
        | apply preserves_try; [|intros ? ? ?; simplify_eq]
        | assumption
        | match goal with
          | H : derisking_keeps |- _ => first [apply (dk_protect H)|apply (dk_reduce H)|apply (dk_cancel H)|apply (dk_fills H)|apply (dk_snapshot H)]
          end
        | match goal with |- preserves _ (match ?x with _ => _ end) => destruct x eqn:? end
        | match goal with
          | H : match ?e with _ => _ end = Some ?k |- preserves _ ?k => destruct e; simplify_eq
          end ].

Lemma exit_keeps decision auth step ids :
  derisking_keeps -> preserves P (execute_reduce_only_exit decision auth step ids).
Proof.
  intros H. assert (forall ids s, preserves P (_cancel_protection ids s)) as Hc.
  { intros l s. induction l as [|i l IH]; simpl; repeat keeps_step. }
  unfold execute_reduce_only_exit, handle_already_flat. cbv zeta. repeat (keeps_step || apply Hc).
Qed.

Lemma escalate_keeps plan actions n : derisking_keeps -> preserves P (_escalate_emergency plan actions n).
Proof. intros H. unfold _escalate_emergency, _exchange_quantity_for. cbv zeta. repeat keeps_step. Qed.

Lemma ensure_loop_keeps m n : derisking_keeps -> forall k plan actions, preserves P (ensure_loop m n k plan actions).
Proof.
  intros H. induction n as [|n IH]; intros k plan actions; simpl; [by apply escalate_keeps|].
  unfold after_rejection, _exchange_quantity_for. repeat (keeps_step || apply (escalate_keeps _ _ _ H) || apply IH).
Qed.

(** An entry run sends its market order once, from a state that satisfies [P0],
    with the client id of its intent, for its candidate, and only if the engine is active. *)
Lemma entry_sends_once (P0 : W -> Prop) c g m i q l a me mf en :
  derisking_keeps -> (forall s, P0 s -> P s) ->
  (forall command st r st', entry_client_order_id i 1 = Ok (se_client_order_id command) -> a = ACTIVE ->
     P0 st -> submit_market_order command (tc_symbol c) (order_side c) st = (r, st') -> P st') ->
  forall st r st', P0 st -> execute_entry c g m i q l a me mf en st = (r, st') -> P st'.
Proof.
  intros H H0 Hs st r st' Hst E. unfold execute_entry in E. cbv zeta in E.
  apply sbind_inv in E as [(cid & s1 & E1 & E)|(e & E1 & ->)]; apply slift_inv in E1 as [E1 ->]; [|by apply H0].
  do 2 (case_bool; [apply sret_inv in E as [_ ->]; by apply H0|]).
  apply sbind_inv in E as [(nq & s2 & E2 & E)|(e & E2 & ->)]; apply slift_inv in E2 as [E2 ->]; [|by apply H0].
  do 2 (case_bool; [apply sret_inv in E as [_ ->]; by apply H0|]).
  destruct (bool_decide (a = ACTIVE)) eqn:Ea; simpl in E; [|apply sret_inv in E as [_ ->]; by apply H0].
  apply bool_decide_eq_true in Ea.
  apply stry_else_inv in E as [(receipt & s3 & E3 & E)|(e & s3 & E3 & E)]; apply Hs in E3; try done.
  - revert E. generalize r. clear r. intros r E. revert E3 E. apply (fun G : preserves P _ => G s3 r st').
    repeat keeps_step.
  - destruct e; try (by destruct E as [_ ->]); apply sret_inv in E as [_ ->]; done.
Qed.
End keeps.

(** ** What reaches the venue *)

(** Neither a leverage change nor an order that could open or grow a position. *)
Definition reduces_risk (e : VenueEvent) : bool :=
  match e with
  | EvSetLeverage _ _ _ => false
  | EvCreateOrder rq _ => rq_reduce_only rq
  | _ => true
  end.

Section on_binance.
Context {W : Type} {V : VenueClient W} (cap : option AccountWriterCapability).
Notation St := (AState (W * list VenueEvent)).
#[local] Instance on_binance : ExchangeAdapter St := binance_adapter (V := recorded V) cap.

Lemma fenced_operations : derisking_keeps (fun s : St => fenced cap (log s)) /\
  forall c s d, preserves (fun s : St => fenced cap (log s)) (submit_market_order c s d).
Proof.
  destruct (adapter_operations_fenced (V := V) cap) as (H1 & H2 & H3 & _ & H5 & H6 & _ & H8 & _).
  split; [by split|done].
Qed.

Section derisking.
Context (Q : list VenueEvent -> Prop) (Hsnoc : forall l e, Q l -> reduces_risk e = true -> Q (l ++ [e])).

Ltac derisk_step :=
  first [ apply preserves_ret | apply preserves_raise | apply preserves_lift | apply preserves_assert
        | apply (event_kept reduces_risk _ Hsnoc); by intros ? | apply (now_kept Q)
        | apply (guarded_kept cap reduces_risk _ Hsnoc); [done|]
        | apply preserves_bind; [|intros ?]
        | apply preserves_try; [|intros ? ? ?; simplify_eq]
        | match goal with |- preserves _ (match ?x with _ => _ end) => destruct x eqn:? end
        | match goal with
          | H : match ?e with _ => _ end = Some ?k |- preserves _ ?k => destruct e; simplify_eq
          end ].

Lemma derisking_operations : derisking_keeps (keeps_log (W := W) Q).
Proof.
  assert (forall {X} (m : SM St X), preserves (keeps_log Q) m ->
    preserves (keeps_log Q) (sbind (_ensure_gateway (V := recorded V)) (fun _ => m))) as G'.
  { intros X m Hm. apply preserves_bind; [by apply (gateway_kept reduces_risk)|done]. }
  split; intros.
  3: apply (guarded_kept cap reduces_risk _ Hsnoc); [done|].
  all: apply G'; unfold or_unavailable, or_unavailable_unless_fenced, create_and_receipt, payload_mapping, cancel_algo,
    vc_open_algo_orders, vc_get_algo_order, vc_cancel_order, vc_cancel_algo_order; cbn; unfold record_read.
  all: try destruct (@vc_open_algo_orders W V); try destruct (@vc_get_algo_order W V);
    try destruct (@vc_cancel_algo_order W V); cbn; unfold record_read; repeat derisk_step.
Qed.

Lemma query_keeps symbol id : preserves (keeps_log (W := W) Q) (query_order_by_client_id symbol id).
Proof.
  apply preserves_bind; [by apply (gateway_kept reduces_risk)|intros _].
  unfold or_unavailable, search_orders, vc_open_algo_orders. cbn. unfold record_read.
  destruct (@vc_open_algo_orders W V); cbn; unfold record_read; repeat derisk_step.
Qed.
End derisking.

(** At most [n] orders that open a position and [k] leverage changes. *)
Definition opens (e : VenueEvent) : bool :=
  match e with EvCreateOrder rq _ => negb (rq_reduce_only rq) | _ => false end.
Definition sets_leverage (e : VenueEvent) : bool := match e with EvSetLeverage _ _ _ => true | _ => false end.
Definition exposes_at_most (n k : Z) (l : list VenueEvent) : Prop := zcount opens l <= n /\ zcount sets_leverage l <= k.

Lemma zcount_snoc {A} (f : A -> bool) l x : zcount f (l ++ [x]) = zcount f l + (if f x then 1 else 0).
Proof. rewrite zcount_app, zcount_cons. unfold zcount. simpl. lia. Qed.

Lemma exposes_snoc n k l e : exposes_at_most n k l -> reduces_risk e = true -> exposes_at_most n k (l ++ [e]).
Proof.
  unfold exposes_at_most. rewrite !zcount_snoc. intros H He. destruct e; cbn in *; rewrite ?He in *; cbn; lia.
Qed.

Lemma exposes_weaken n k n' k' l : n <= n' -> k <= k' -> exposes_at_most n k l -> exposes_at_most n' k' l.
Proof. unfold exposes_at_most. lia. Qed.

(** [m] takes every state of [P] into [R], however it ends. *)
Definition takes {X} (P R : St -> Prop) (m : SM St X) : Prop := forall s r s', P s -> m s = (r, s') -> R s'.

Lemma takes_bind {X Y} (P Q R : St -> Prop) (m : SM St X) (f : X -> SM St Y) :
  takes P Q m -> (forall s, Q s -> R s) -> (forall x, takes Q R (f x)) -> takes P R (sbind m f).
Proof.
  intros Hm Hw Hf s r s' Hs [(a & s1 & H1 & H2)|(e & H1 & ->)]%sbind_inv; [by eapply Hf; [eapply Hm|]|by eapply Hw, Hm].
Qed.

Lemma takes_or_unavailable {X} (P R : St -> Prop) (m : SM St X) : takes P R m -> takes P R (or_unavailable_unless_fenced m).
Proof.
  intros Hm s r s' Hs H. unfold or_unavailable_unless_fenced in H.
  apply stry_inv in H as [(a & H & _)|(e & s1 & H1 & H2)]; [by eapply Hm|]. assert (R s1) by (by eapply Hm).
  destruct e; try (apply sraise_inv in H2 as [_ ->]); try (by destruct H2 as [_ ->]); done.
Qed.

Definition exposed (n k : Z) : St -> Prop := keeps_log (exposes_at_most n k).

Lemma exposed_weaken n k n' k' s : n <= n' -> k <= k' -> exposed n k s -> exposed n' k' s.
Proof. apply exposes_weaken. Qed.

Lemma takes_guarded_event {X} n k n' k' (ev : res X -> VenueEvent) (m : SM W X) :
  n <= n' -> k <= k' -> (forall r l, exposes_at_most n k l -> exposes_at_most n' k' (l ++ [ev r])) ->
  takes (exposed n k) (exposed n' k') (guarded (V := recorded V) cap (venue (record_event ev m))).
Proof.
  intros Hn Hk He. unfold takes. apply (guarded_run cap reduces_risk _ (exposes_snoc n k)); [done|by intros s; apply exposed_weaken|].
  intros s r s' Hs H. apply venue_event_inv in H. unfold exposed, keeps_log. rewrite H. by apply He.
Qed.

(** A submission adds one leverage change and one opening order at most. *)
Lemma submission_exposes_once n k c sym d : takes (exposed n k) (exposed (n + 1) (k + 1)) (submit_market_order c sym d).
Proof.
  cbn. unfold binance_submit_market_order.
  apply (takes_bind _ (exposed n k)); [apply (gateway_kept (V := V) reduces_risk _ (exposes_snoc n k)); done
    |intros s; apply exposed_weaken; lia|]. intros u.
  apply takes_or_unavailable, (takes_bind _ (exposed n (k + 1))).
  { apply takes_or_unavailable, takes_guarded_event; [lia..|]. intros r l. unfold exposes_at_most. rewrite !zcount_snoc. cbn. lia. }
  { intros s; apply exposed_weaken; lia. }
  intros v. apply (takes_bind _ (exposed (n + 1) (k + 1))); [|done|].
  { apply takes_guarded_event; [lia..|]. intros r l. unfold exposes_at_most. rewrite !zcount_snoc. cbn. lia. }
  intros x. apply preserves_bind; [apply preserves_lift|]. intros y. apply preserves_bind; [apply now_kept|].
  intros z. apply preserves_lift.
Qed.

(** Every order, cancellation and leverage change of the three services reaches
    the venue under the writer guard: right after an observation of the registry
    in which this process holds the current, unexpired lease of the account. *)
Theorem services_on_binance_fenced :
  (forall c g m i q l a me mf en, preserves (keeps_log (fenced cap)) (execute_entry c g m i q l a me mf en)) /\
  (forall d q step ids, preserves (keeps_log (fenced cap)) (execute_reduce_only_exit d q step ids)) /\
  (forall plan n, preserves (keeps_log (fenced cap)) (ensure_protection plan n)).
Proof.
  destruct fenced_operations as [H Hs]. split_and!; intros.
  - intros s r s' Hl E. eapply (entry_sends_once _ (keeps_log (fenced cap))); [exact H|done| |exact Hl|exact E].
    intros c0 st r1 st' _ _ Hst E1. by eapply Hs.
  - by apply exit_keeps.
  - by apply ensure_loop_keeps.
Qed.

(** The exit and protection services never add risk at the venue: every order
    they create is reduce-only and they never change the leverage, whatever the
    venue answers. *)
Theorem exit_and_protection_only_reduce :
  (forall d q step ids, preserves (keeps_log (Forall (fun e => reduces_risk e = true))) (execute_reduce_only_exit d q step ids)) /\
  (forall plan n, preserves (keeps_log (Forall (fun e => reduces_risk e = true))) (ensure_protection plan n)).
Proof.
  assert (derisking_keeps (keeps_log (Forall (fun e => reduces_risk e = true)))) as H.
  { apply derisking_operations. intros l e Hl He. apply Forall_app. by repeat constructor. }
  split; intros; [by apply exit_keeps|by apply ensure_loop_keeps].
Qed.

(** An entry run creates at most one order that opens a position and changes the
    leverage at most once, whatever the venue answers; every other order it
    creates is reduce-only. *)
Theorem entry_exposes_once c g m i q l a me mf en (s : St) r s' :
  log s = [] -> execute_entry c g m i q l a me mf en s = (r, s') ->
  zcount opens (log s') <= 1 /\ zcount sets_leverage (log s') <= 1.
Proof.
  intros Hl E. eapply (entry_sends_once (exposed 1 1) (exposed 0 0)); [| | | |exact E].
  - apply derisking_operations, exposes_snoc.
  - intros st. by apply exposed_weaken.
  - intros c0 st r1 st' _ _. apply (submission_exposes_once 0 0).
  - unfold exposed, keeps_log. by rewrite Hl.
Qed.

(** The run returns only results that satisfy [R]. *)
Definition returns {X} (R : X -> Prop) (m : SM St X) : Prop := forall s x s', m s = (Ok x, s') -> R x.

Lemma returns_ret {X} (R : X -> Prop) x : R x -> returns R (sret x).
Proof. by intros H s y s' [[= ->] _]%sret_inv. Qed.
Lemma returns_bind {X Y} (R : Y -> Prop) (m : SM St X) f : (forall x, returns R (f x)) -> returns R (sbind m f).
Proof. intros H s y s' [(a & s1 & _ & E)|(e & _ & [=])]%sbind_inv. by eapply H. Qed.
Lemma returns_try_else {X Y} (R : Y -> Prop) E (m : SM St X) h k :
  raises E m -> (forall e q, E e -> h e = Some q -> returns R q) -> (forall x, returns R (k x)) ->
  returns R (stry_else m h k).
Proof.
  intros Hm Hh Hk s y s' [(c & s1 & _ & H)|(e & s1 & H1 & H)]%stry_else_inv; [by eapply Hk|].
  destruct (h e) as [q|] eqn:Eq; [|by destruct H]. eapply Hh; [by eapply Hm|done|done].
Qed.
Lemma returns_lift_bind {X Y} (R : Y -> Prop) (x : res X) f : (forall x, returns R (f x)) -> returns R (sbind (slift x) f).
Proof. apply returns_bind. Qed.

Ltac no_timeout := exfalso; match goal with H : adapter_exception _ |- _ => by destruct H as [?|[? ?]] end.
Ltac returns_step :=
  first [ apply returns_ret; first [done|cbn; by case_match]
        | apply returns_bind; intros ?
        | match goal with
          | H : _ |- returns _ (stry_else _ _ _) =>
              eapply returns_try_else; [apply H|intros [] ? ? ?; simplify_eq; try no_timeout|intros ?]
          | |- returns _ (stry_else _ _ _) =>
              eapply (returns_try_else _ (fun _ => True)); [intros ? ? ? ?; exact I|intros ? ? _ ?; simplify_eq|intros ?]
          | |- returns _ (match ?x with _ => _ end) => destruct x eqn:?
          end ].

(** On this adapter an undetermined submission cannot be reported: it never
    raises a timeout, so UNKNOWN is not a possible outcome of any service. *)
Theorem undetermined_outcome_unreachable :
  (forall c g m i q l a me mf en, returns (fun x => ex_status x <> UNKNOWN) (execute_entry c g m i q l a me mf en)) /\
  (forall d q step ids, returns (fun x => xr_status x <> EXIT_UNKNOWN) (execute_reduce_only_exit d q step ids)) /\
  (forall plan n, returns (fun x => ps_outcome x <> PROT_UNKNOWN) (ensure_protection plan n)).
Proof.
  destruct (adapter_exceptions (V := recorded V) cap) as (Hm & Hf & Hp & _ & Hr & _).
  assert (forall plan actions n, returns (fun x => ps_outcome x <> PROT_UNKNOWN) (_escalate_emergency plan actions n)) as He.
  { intros. unfold _escalate_emergency. cbv zeta. repeat returns_step. }
  split_and!; intros.
  - unfold execute_entry. cbv zeta. repeat returns_step.
  - unfold execute_reduce_only_exit, handle_already_flat. cbv zeta. repeat returns_step.
  - unfold ensure_protection. generalize 1 (@nil ProtectionFailureAction). revert plan.
    induction (Z.to_nat n) as [|k IH]; intros plan j actions; simpl; [apply He|].
    unfold after_rejection. repeat (apply He || apply IH || returns_step).
Qed.
End on_binance.

(** ** Evaluation *)

(** A venue that keeps every order it accepts and answers a creation as scripted;
    the registry holds the lease of [cap_b]. *)
Record DemoVenue := mkDemoVenue {
  dv_accepts : OrderRequest -> bool; dv_answer : OrderRequest -> res PyVal; dv_live : list OrderRequest }.

Definition demo_position : PyVal :=
  VDict "" [("contracts", VFloat "0.005"); ("symbol", VStr "BTC/USDT:USDT"); ("side", VStr "long");
            ("entryPrice", VFloat "64010.0"); ("markPrice", VFloat "64000.0"); ("unrealizedPnl", VFloat "-0.05")]%string.

Definition demo_client : VenueClient DemoVenue := {|
  vc_credentials w := (Ok true, w);
  vc_connect w := (Ok false, w);
  vc_observe w := ("/r"%string, (run_history demo_registry demo_history).1, 310, w);
  vc_now w := (310, w);
  vc_fetch_balance w := (Ok (VDict "" []), w);
  vc_fetch_positions w := (Ok (VList "" [demo_position]), w);
  vc_fetch_open_orders _ w := (Ok (VList "[]" []), w);
  vc_open_algo_orders := None;
  vc_fetch_ticker _ w := (Raise (OtherException "offline"), w);
  vc_market _ w := (Raise (OtherException "offline"), w);
  vc_set_leverage _ _ w := (Ok VNone, w);
  vc_create_order rq w :=
    (dv_answer w rq, mkDemoVenue (dv_accepts w) (dv_answer w) (dv_live w ++ (if dv_accepts w rq then [rq] else [])));
  vc_get_order _ _ w := (Raise (OtherException "offline"), w);
  vc_fetch_closed_orders _ w := (Ok (VList "[]" []), w);
  vc_fetch_my_trades _ _ w := (Ok (VList "[]" []), w);
  vc_get_algo_order := None;
  vc_cancel_order _ _ w := (Raise (OtherException "offline"), w);
  vc_cancel_algo_order := None |}.

Definition order_payload : PyVal := VDict "" [("id", VStr "987"); ("status", VStr "open")]%string.
Definition timeout_answer : res PyVal := Raise (OtherException "RequestTimeout").

Definition demo_state (accepts : OrderRequest -> bool) (answer : OrderRequest -> res PyVal) :
    AState (DemoVenue * list VenueEvent) := (false, (mkDemoVenue accepts answer [], [])).

Definition demo_adapter : ExchangeAdapter (AState (DemoVenue * list VenueEvent)) :=
  binance_adapter (V := recorded demo_client) (Some cap_b).

Definition demo_entry (answer : OrderRequest -> res PyVal) :=
  execute_entry (H := demo_adapter) sample_candidate sample_gate sample_market "intent-1" (mkDec 51 (-4)) 3 ACTIVE
    None None false (demo_state (fun _ => true) answer).

Definition live_orders (s : AState (DemoVenue * list VenueEvent)) : list OrderRequest := dv_live s.2.1.

Lemma entry_exposes_once_witness :
  zcount opens (log (demo_entry (fun _ => Ok order_payload)).2) <= 1 /\
  zcount opens (log (demo_entry (fun _ => Ok order_payload)).2) = 1.
Proof.
  split; [|vm_compute; reflexivity].
  refine (proj1 (entry_exposes_once (V := demo_client) (Some cap_b) sample_candidate sample_gate sample_market
    "intent-1" (mkDec 51 (-4)) 3 ACTIVE None None false (demo_state (fun _ => true) (fun _ => Ok order_payload))
    (demo_entry (fun _ => Ok order_payload)).1 _ eq_refl _)).
  unfold demo_entry, demo_adapter, on_binance. by destruct (execute_entry _ _ _ _ _ _ _ _ _ _ _).
Defined.

(** The lease of another process stops the run before anything is sent. *)
Example superseded_process_sends_nothing :
  let run := execute_entry (H := binance_adapter (V := recorded demo_client) (Some cap_a)) sample_candidate sample_gate
    sample_market "intent-1" (mkDec 51 (-4)) 3 ACTIVE None None false (demo_state (fun _ => true) (fun _ => Ok order_payload)) in
  bfilter is_mutation (log run.2) = [] /\ run.1 = Raise (fence_error "ACCOUNT_WRITER_FENCE_REJECTED").
Proof. vm_compute. split; reflexivity. Qed.

(** A timeout raised after the venue accepted the order: the run reports the
    entry as rejected while the order is live. *)
Theorem timed_out_entry_reported_rejected :
  match (demo_entry (fun _ => timeout_answer)).1 with
  | Ok x => ex_status x = ENTRY_REJECTED /\ requires_client_order_id_recovery x = false /\
            length (live_orders (demo_entry (fun _ => timeout_answer)).2) = 1%nat
  | Raise _ => False
  end.
Proof. vm_compute. repeat split. Qed.

(** A stop that is live and a take-profit that is refused: the submission counts
    as failed and the retry places a second stop for the whole position. *)
Definition demo_plan : ProtectionPlan :=
  match stop_client_order_id "pos-1" 1, target_client_order_id "pos-1" 1 with
  | Ok s, Ok t => mkPlan "pos-1" "BTC/USDT" "long" (mkDec 5 (-3)) (dint 64010) (dint 63690) (Some (dint 65000)) s (Some t) 1
  | _, _ => mkPlan "" "" "" dzero dzero dzero None "" None 0
  end.
Definition is_stop (rq : OrderRequest) : bool := String.eqb (rq_type rq) "stop_market".
Definition demo_ladder :=
  ensure_protection (H := demo_adapter) demo_plan 2
    (demo_state is_stop (fun rq => if is_stop rq then Ok order_payload else Raise (OtherException "rejected"))).

Theorem partial_protection_duplicates_stop :
  (map rq_amount (live_orders demo_ladder.2) = [mkDec 5 (-3); mkDec 5 (-3)]) /\
  match demo_ladder.1 with Ok x => ps_outcome x = EMERGENCY_CLOSE_PENDING | Raise _ => False end.
Proof. vm_compute. split; reflexivity. Qed.
