(* ===== verification/Database.v ===== *)
(** * Database: the tables, their constraints and sessions

    [infrastructure/models.py] and the session discipline of
    [services/database.py].  A table is the list of its rows in the order of
    insertion; a query without ORDER BY returns them in that order.  The engine
    is SQLite as the local runtime configures it: unique keys, the partial index
    on open positions and the CHECK constraints are enforced, foreign keys are
    not.  Columns that no modelled operation reads (notes, creation times, a
    rejection reason) are left out.  A column of an enumeration is typed by it, a
    numeric column keeps the decimal written to it.  Random identifiers and the
    clock are the class [Host]: the n-th value the process draws. *)
From S2P Require Import Prelude PyDecimal PyValue State Receipts.
Local Open Scope Z_scope.
Local Open Scope py_scope.

Definition PyDict : Type := list (string * PyVal).

(** ** Rows *)

Record CycleRow := mkCycle {
  cy_cycle_id : string; cy_symbol : string; cy_timeframe : string; cy_bar_timestamp : datetime;
  cy_execution_mode : V2ExecutionMode; cy_fencing_token : string; cy_started_at : datetime;
  cy_completed_at : option datetime; cy_decision_terminal : option string }.

Record DecisionRow := mkDecision {
  de_decision_id : string; de_cycle_id : string; de_candidate_key : option string;
  de_terminal_reason : option string; de_payload : PyDict; de_created_at : datetime }.

Record SnapshotRow := mkSnapshot {
  sn_snapshot_id : string; sn_cycle_id : string; sn_decision_id : string; sn_symbol : string;
  sn_decision_time : datetime; sn_snapshot_hash : string; sn_payload : PyDict }.

Record ShadowRow := mkShadow {
  sh_shadow_id : string; sh_snapshot_id : string; sh_variant : string; sh_payload_hash : string;
  sh_payload : PyDict; sh_created_at : datetime }.

Record OutcomeRow := mkOutcome {
  so_outcome_id : string; so_shadow_id : string; so_outcome_hash : string; so_payload : PyDict }.

Record IntentRow := mkIntent {
  it_intent_id : string; it_cycle_id : string; it_decision_id : option string; it_symbol : string;
  it_direction : string; it_candidate_key : string; it_candidate_type : V2CandidateType;
  it_execution_mode : V2ExecutionMode; it_decision_bar_timestamp : datetime;
  it_decision_funnel_id : option string; it_initial_risk_usdt : option Dec; it_state : V2IntentState; it_version : Z }.

Record OrderRow := mkOrder {
  eo_order_record_id : string; eo_intent_id : string; eo_client_order_id : string;
  eo_exchange_order_id : option string; eo_quantity : Dec; eo_leverage : Z;
  eo_submitted_at : option datetime; eo_acknowledged_at : option datetime; eo_filled_quantity : option Dec;
  eo_average_fill_price : option Dec; eo_total_fee : option Dec; eo_fill_timestamp : option datetime;
  eo_trade_ids : list (option string); eo_created_at : datetime }.

Record FillRow := mkFillRow {
  fl_fill_id : string; fl_intent_id : string; fl_exchange_order_record_id : string; fl_account_id : string;
  fl_exchange_order_id : string; fl_trade_id : option string; fl_fill_source : string; fl_symbol : string;
  fl_side : string; fl_reduce_only : bool; fl_filled_quantity : Dec; fl_fill_price : Dec;
  fl_commission : option Dec; fl_commission_asset : option string; fl_exchange_event_time : datetime;
  fl_received_at : datetime; fl_raw_hash : string }.

Record PositionRow := mkPosition {
  mp_position_id : string; mp_intent_id : string; mp_order_record_id : string; mp_symbol : string;
  mp_direction : string; mp_execution_mode : V2ExecutionMode; mp_quantity : Dec; mp_entry_price : Dec;
  mp_entry_fee : Dec; mp_state : V2PositionState; mp_version : Z; mp_projected_at : datetime;
  mp_protected_at : option datetime; mp_closed_at : option datetime; mp_realized_pnl : option Dec }.

Record ProtectionRow := mkProtection {
  pt_protection_id : string; pt_position_id : string; pt_stop_loss_price : Dec;
  pt_original_stop_loss_price : option Dec; pt_take_profit_price : option Dec;
  pt_stop_client_order_id : string; pt_tp_client_order_id : option string;
  pt_stop_exchange_order_id : option string; pt_tp_exchange_order_id : option string;
  pt_state : V2ProtectionState; pt_version : Z; pt_policy : string; pt_created_at : datetime;
  pt_activated_at : option datetime }.

Inductive AggregateType := AGG_INTENT | AGG_POSITION | AGG_PROTECTION.

Record EventRow := mkEvent {
  ev_event_id : string; ev_aggregate_id : string; ev_aggregate_type : AggregateType;
  ev_event_type : string; ev_event_payload : PyDict; ev_occurred_at : datetime }.

Record ReconciliationRow := mkReconciliationRow {
  rs_snapshot_id : string; rs_cycle_id : option string; rs_execution_mode : V2ExecutionMode;
  rs_exchange_positions : PyDict; rs_exchange_open_orders : PyDict; rs_local_positions : PyDict;
  rs_discrepancies : PyDict; rs_status : string; rs_captured_at : datetime }.

Record IncidentRow := mkIncident {
  ic_incident_id : string; ic_incident_type : string; ic_severity : string;
  ic_related_aggregate_id : option string; ic_intent_id : option string; ic_position_id : option string;
  ic_description : string; ic_context : PyDict; ic_resolved : bool; ic_resolved_at : option datetime }.

Record ControlRow := mkControl {
  ct_scope : string; ct_entry_enabled : bool; ct_reason : option string; ct_updated_by : option string;
  ct_version : Z; ct_updated_at : datetime }.

Record FinalizationRow := mkFinalization {
  fz_finalization_id : string; fz_adjudication_id : string; fz_manifest_hash : string;
  fz_evidence_hash : string; fz_database_identity : string; fz_position_id : string;
  fz_exchange_order_id : string; fz_exchange_trade_id : string; fz_aggregate_quantity : Dec;
  fz_allocated_quantity : Dec; fz_operator_identity : string; fz_operator_reason : string;
  fz_finalized_at : datetime }.

#[export] Instance AggregateType_eq_dec : EqDecision AggregateType.
Proof. solve_decision. Defined.

(** ** Tables *)

Record Db := mkDb {
  cycles : list CycleRow;
  decisions : list DecisionRow;
  snapshots : list SnapshotRow;
  shadows : list ShadowRow;
  outcomes : list OutcomeRow;
  intents : list IntentRow;
  orders : list OrderRow;
  fills : list FillRow;
  positions : list PositionRow;
  protections : list ProtectionRow;
  events : list EventRow;
  reconciliations : list ReconciliationRow;
  incidents : list IncidentRow;
  controls : list ControlRow;
  finalizations : list FinalizationRow }.

Definition empty_db : Db := mkDb [] [] [] [] [] [] [] [] [] [] [] [] [] [] [].

(** A table: its rows in the order of insertion, and their primary key. *)
Class Table (R : Type) := { rows : Db -> list R; with_rows : list R -> Db -> Db; row_key : R -> string }.

#[export] Instance cycles_table : Table CycleRow := {|
  rows := cycles; row_key := cy_cycle_id;
  with_rows l d := mkDb l (decisions d) (snapshots d) (shadows d) (outcomes d) (intents d) (orders d) (fills d) (positions d) (protections d) (events d) (reconciliations d) (incidents d) (controls d) (finalizations d) |}.
#[export] Instance decisions_table : Table DecisionRow := {|
  rows := decisions; row_key := de_decision_id;
  with_rows l d := mkDb (cycles d) l (snapshots d) (shadows d) (outcomes d) (intents d) (orders d) (fills d) (positions d) (protections d) (events d) (reconciliations d) (incidents d) (controls d) (finalizations d) |}.
#[export] Instance snapshots_table : Table SnapshotRow := {|
  rows := snapshots; row_key := sn_snapshot_id;
  with_rows l d := mkDb (cycles d) (decisions d) l (shadows d) (outcomes d) (intents d) (orders d) (fills d) (positions d) (protections d) (events d) (reconciliations d) (incidents d) (controls d) (finalizations d) |}.
#[export] Instance shadows_table : Table ShadowRow := {|
  rows := shadows; row_key := sh_shadow_id;
  with_rows l d := mkDb (cycles d) (decisions d) (snapshots d) l (outcomes d) (intents d) (orders d) (fills d) (positions d) (protections d) (events d) (reconciliations d) (incidents d) (controls d) (finalizations d) |}.
#[export] Instance outcomes_table : Table OutcomeRow := {|
  rows := outcomes; row_key := so_outcome_id;
  with_rows l d := mkDb (cycles d) (decisions d) (snapshots d) (shadows d) l (intents d) (orders d) (fills d) (positions d) (protections d) (events d) (reconciliations d) (incidents d) (controls d) (finalizations d) |}.
#[export] Instance intents_table : Table IntentRow := {|
  rows := intents; row_key := it_intent_id;
  with_rows l d := mkDb (cycles d) (decisions d) (snapshots d) (shadows d) (outcomes d) l (orders d) (fills d) (positions d) (protections d) (events d) (reconciliations d) (incidents d) (controls d) (finalizations d) |}.
#[export] Instance orders_table : Table OrderRow := {|
  rows := orders; row_key := eo_order_record_id;
  with_rows l d := mkDb (cycles d) (decisions d) (snapshots d) (shadows d) (outcomes d) (intents d) l (fills d) (positions d) (protections d) (events d) (reconciliations d) (incidents d) (controls d) (finalizations d) |}.
#[export] Instance fills_table : Table FillRow := {|
  rows := fills; row_key := fl_fill_id;
  with_rows l d := mkDb (cycles d) (decisions d) (snapshots d) (shadows d) (outcomes d) (intents d) (orders d) l (positions d) (protections d) (events d) (reconciliations d) (incidents d) (controls d) (finalizations d) |}.
#[export] Instance positions_table : Table PositionRow := {|
  rows := positions; row_key := mp_position_id;
  with_rows l d := mkDb (cycles d) (decisions d) (snapshots d) (shadows d) (outcomes d) (intents d) (orders d) (fills d) l (protections d) (events d) (reconciliations d) (incidents d) (controls d) (finalizations d) |}.
#[export] Instance protections_table : Table ProtectionRow := {|
  rows := protections; row_key := pt_protection_id;
  with_rows l d := mkDb (cycles d) (decisions d) (snapshots d) (shadows d) (outcomes d) (intents d) (orders d) (fills d) (positions d) l (events d) (reconciliations d) (incidents d) (controls d) (finalizations d) |}.
#[export] Instance events_table : Table EventRow := {|
  rows := events; row_key := ev_event_id;
  with_rows l d := mkDb (cycles d) (decisions d) (snapshots d) (shadows d) (outcomes d) (intents d) (orders d) (fills d) (positions d) (protections d) l (reconciliations d) (incidents d) (controls d) (finalizations d) |}.
#[export] Instance reconciliations_table : Table ReconciliationRow := {|
  rows := reconciliations; row_key := rs_snapshot_id;
  with_rows l d := mkDb (cycles d) (decisions d) (snapshots d) (shadows d) (outcomes d) (intents d) (orders d) (fills d) (positions d) (protections d) (events d) l (incidents d) (controls d) (finalizations d) |}.
#[export] Instance incidents_table : Table IncidentRow := {|
  rows := incidents; row_key := ic_incident_id;
  with_rows l d := mkDb (cycles d) (decisions d) (snapshots d) (shadows d) (outcomes d) (intents d) (orders d) (fills d) (positions d) (protections d) (events d) (reconciliations d) l (controls d) (finalizations d) |}.
#[export] Instance controls_table : Table ControlRow := {|
  rows := controls; row_key := ct_scope;
  with_rows l d := mkDb (cycles d) (decisions d) (snapshots d) (shadows d) (outcomes d) (intents d) (orders d) (fills d) (positions d) (protections d) (events d) (reconciliations d) (incidents d) l (finalizations d) |}.
#[export] Instance finalizations_table : Table FinalizationRow := {|
  rows := finalizations; row_key := fz_finalization_id;
  with_rows l d := mkDb (cycles d) (decisions d) (snapshots d) (shadows d) (outcomes d) (intents d) (orders d) (fills d) (positions d) (protections d) (events d) (reconciliations d) (incidents d) (controls d) l |}.

(** ** Constraints *)

Definition is_terminal_position (s : V2PositionState) : bool := bool_decide (s ∈ [CLOSED; QUARANTINED]).
Definition position_open (p : PositionRow) : bool := negb (is_terminal_position (mp_state p)).

(** Values of a unique column (or tuple of columns); NULLs are distinct. *)
Definition unique {R K} `{EqDecision K} (column : R -> option K) (l : list R) : bool :=
  bool_decide (NoDup (omap column l)).
Definition unique_key {R} `{Table R} (d : Db) : bool := bool_decide (NoDup (map row_key (rows d))).

Definition direction_ok (s : string) : bool := String.eqb s "long" || String.eqb s "short".
Definition positive (x : Dec) : bool := (dzero <? x)%D.
Definition positive_or_null (x : option Dec) : bool := match x with Some x => positive x | None => true end.

Definition intent_ok (i : IntentRow) : bool := direction_ok (it_direction i).
Definition order_ok (o : OrderRow) : bool :=
  positive (eo_quantity o) && (0 <? eo_leverage o) && positive_or_null (eo_filled_quantity o)
  && positive_or_null (eo_average_fill_price o).
Definition fill_ok (f : FillRow) : bool := positive (fl_filled_quantity f) && positive (fl_fill_price f).
Definition position_ok (p : PositionRow) : bool :=
  direction_ok (mp_direction p) && positive (mp_quantity p) && positive (mp_entry_price p).
Definition protection_ok (p : ProtectionRow) : bool :=
  positive (pt_stop_loss_price p) && positive_or_null (pt_take_profit_price p)
  && (negb (bool_decide (pt_state p = PROTECTION_ACTIVE)) || ostr_truthy (pt_stop_exchange_order_id p)).
Definition reconciliation_ok (r : ReconciliationRow) : bool :=
  bool_decide (rs_status r ∈ ["HEALTHY"; "DEGRADED"; "UNAVAILABLE"; "RECOVERY_REQUIRED"; "QUARANTINED"]%string).
Definition incident_ok (i : IncidentRow) : bool :=
  bool_decide (ic_severity i ∈ ["CRITICAL"; "HIGH"; "MEDIUM"; "LOW"]%string).
Definition finalization_ok (f : FinalizationRow) : bool :=
  positive (fz_aggregate_quantity f) && positive (fz_allocated_quantity f).

Definition fill_identity (f : FillRow) : option (string * string) :=
  t ← fl_trade_id f; Some (fl_account_id f, t).
(** The partial index: one open position per symbol, direction and mode. *)
Definition open_slot (p : PositionRow) : option (string * string * V2ExecutionMode) :=
  if position_open p then Some (mp_symbol p, mp_direction p, mp_execution_mode p) else None.

Definition constraints_ok (d : Db) : bool :=
  (unique_key (R := CycleRow) d && unique_key (R := DecisionRow) d && unique_key (R := SnapshotRow) d
   && unique_key (R := ShadowRow) d && unique_key (R := OutcomeRow) d && unique_key (R := IntentRow) d
   && unique_key (R := OrderRow) d && unique_key (R := FillRow) d && unique_key (R := PositionRow) d
   && unique_key (R := ProtectionRow) d && unique_key (R := EventRow) d && unique_key (R := ReconciliationRow) d
   && unique_key (R := IncidentRow) d && unique_key (R := ControlRow) d && unique_key (R := FinalizationRow) d)
  && (unique (fun c => Some (cy_fencing_token c)) (cycles d)
      && unique (fun s => Some (sn_decision_id s)) (snapshots d)
      && unique (fun s => Some (sn_snapshot_hash s)) (snapshots d)
      && unique (fun s => Some (sh_snapshot_id s, sh_variant s)) (shadows d)
      && unique (fun s => Some (so_shadow_id s)) (outcomes d) && unique (fun s => Some (so_outcome_hash s)) (outcomes d)
      && unique (fun o => Some (eo_client_order_id o)) (orders d) && unique eo_exchange_order_id (orders d)
      && unique fill_identity (fills d)
      && unique (fun p => Some (mp_intent_id p)) (positions d) && unique open_slot (positions d)
      && unique (fun p => Some (pt_stop_client_order_id p)) (protections d)
      && unique pt_tp_client_order_id (protections d)
      && unique (fun f => Some (fz_adjudication_id f, fz_database_identity f, fz_position_id f)) (finalizations d))
  && (forallb intent_ok (intents d) && forallb order_ok (orders d) && forallb fill_ok (fills d)
      && forallb position_ok (positions d) && forallb protection_ok (protections d)
      && forallb reconciliation_ok (reconciliations d) && forallb incident_ok (incidents d)
      && forallb finalization_ok (finalizations d)).

(** ** Sessions *)

Class Host := { uuid4 : nat -> string; clock : nat -> datetime }.

(** What other connections see, what this session sees, and how many values the
    process has drawn from the host. *)
Record Session := mkSession { s_committed : Db; s_db : Db; s_draws : nat }.

Section session.
Context {H : Host}.

Definition on_db (f : Db -> Db) : SM Session unit :=
  smodify (fun s => mkSession (s_committed s) (f (s_db s)) (s_draws s)).
Definition read_db : SM Session Db := fun s => (Ok (s_db s), s).

Definition utc_now : SM Session datetime :=
  fun s => (Ok (clock (s_draws s)), mkSession (s_committed s) (s_db s) (S (s_draws s))).
(** [server_default=func.now()]: CURRENT_TIMESTAMP, in whole seconds. *)
Definition server_now : SM Session datetime :=
  fun s => let t := clock (s_draws s) in
  (Ok (t - t mod 1000000), mkSession (s_committed s) (s_db s) (S (s_draws s))).
Definition new_uuid : SM Session string :=
  fun s => (Ok (uuid4 (s_draws s)), mkSession (s_committed s) (s_db s) (S (s_draws s))).
(** [t or datetime.now(UTC)] *)
Definition or_now (t : option datetime) : SM Session datetime :=
  match t with Some t => sret t | None => utc_now end.

(** [session.flush()]: a violated constraint rolls the transaction back. *)
Definition flush : SM Session unit := fun s =>
  if constraints_ok (s_db s) then (Ok tt, s)
  else (Raise (IntegrityError "constraint"), mkSession (s_committed s) (s_committed s) (s_draws s)).

Definition commit : SM Session unit :=
  flush ;;; smodify (fun s => mkSession (s_db s) (s_db s) (s_draws s)).
Definition rollback : SM Session unit := smodify (fun s => mkSession (s_committed s) (s_committed s) (s_draws s)).

Section table.
Context {R : Type} `{Table R}.

Definition find_row (key : string) (d : Db) : option R := List.find (fun r => String.eqb (row_key r) key) (rows d).
Definition put_row (r : R) (d : Db) : Db :=
  with_rows (map (fun x => if String.eqb (row_key x) (row_key r) then r else x) (rows d)) d.
Definition insert_row (r : R) (d : Db) : Db := with_rows (rows d ++ [r]) d.

(** [session.get(Model, key)] *)
Definition get (key : string) : SM Session (option R) := fun s => (Ok (find_row key (s_db s)), s).
(** [session.scalars(select(Model).where(p))]: a query flushes first. *)
Definition select (p : R -> bool) : SM Session (list R) :=
  flush ;;; fun s => (Ok (bfilter p (rows (s_db s))), s).
(** [session.scalar(select(Model).where(p))] *)
Definition scalar (p : R -> bool) : SM Session (option R) := let! l := select p in sret (head l).
(** [session.add(row)] *)
Definition add (r : R) : SM Session unit := on_db (insert_row r).
(** Assignment to attributes of a loaded object: [r] is its new value. *)
Definition assign (r : R) : SM Session unit := on_db (put_row r).
End table.

(** [with get_session_factory()() as session: m]: closing discards what was not
    committed. *)
Definition with_session {A} (m : SM Session A) : SM Session A := fun s =>
  let '(r, s') := m (mkSession (s_committed s) (s_committed s) (s_draws s)) in
  (r, mkSession (s_committed s') (s_committed s') (s_draws s')).
End session.
