(* ===== verification/Repository.v ===== *)
(** * Repository: persistence with forced transitions

    [infrastructure/repository.py]: every operation of
    [AutomatedTradingRepository], over the sessions of [Database].  The evidence
    tables of forward snapshots are in [Evidence].  A
    [float(x)] that is stored keeps the decimal [x], and the text of a decimal in
    an event is a text of the same value. *)
From S2P Require Import Prelude PyDecimal PyValue State Receipts PortfolioRisk Database.
Local Open Scope Z_scope.
Local Open Scope py_scope.

(** ** Dictionaries and enumeration values *)

Definition dict_set (d : PyDict) (key : string) (v : PyVal) : PyDict :=
  if existsb (fun kv => String.eqb kv.1 key) d
  then map (fun kv => if String.eqb kv.1 key then (key, v) else kv) d
  else d ++ [(key, v)].
(** [{**d, k: v, ...}] *)
Definition dict_update (d items : PyDict) : PyDict := foldl (fun d kv => dict_set d kv.1 kv.2) d items.

Definition intent_state_value (s : V2IntentState) : string :=
  match s with
  | INTENT_CREATED => "INTENT_CREATED" | EXCHANGE_SUBMITTING => "EXCHANGE_SUBMITTING"
  | EXCHANGE_UNKNOWN => "EXCHANGE_UNKNOWN" | EXCHANGE_ACKNOWLEDGED => "EXCHANGE_ACKNOWLEDGED"
  | FILLED => "FILLED" | REJECTED => "REJECTED" | CANCELLED => "CANCELLED" | EXPIRED => "EXPIRED"
  end.
Definition position_state_value (s : V2PositionState) : string :=
  match s with
  | POSITION_PROJECTED => "POSITION_PROJECTED" | PROTECTED => "PROTECTED" | REDUCING => "REDUCING"
  | CLOSED => "CLOSED" | QUARANTINED => "QUARANTINED"
  end.
Definition protection_state_value (s : V2ProtectionState) : string :=
  match s with
  | PROTECTION_INTENT => "PROTECTION_INTENT" | PROTECTION_SUBMITTING => "PROTECTION_SUBMITTING"
  | PROTECTION_ACTIVE => "PROTECTION_ACTIVE" | PROTECTION_TRIGGERED => "PROTECTION_TRIGGERED"
  | PROTECTION_FILLED => "PROTECTION_FILLED" | PROTECTION_CANCELLED => "PROTECTION_CANCELLED"
  | PROTECTION_FAILED => "PROTECTION_FAILED" | PROTECTION_UNKNOWN => "PROTECTION_UNKNOWN"
  end.

(** The payload of a transition event. *)
Definition transition_payload (payload : PyDict) (from_state to_state : string) (version : Z) : PyDict :=
  dict_update payload [("from_state", VStr from_state); ("to_state", VStr to_state); ("version", VInt version)]%string.

(** The texts written for a reader (details, reasons) are not modelled. *)
Definition free_text : PyVal := VStr "".

Definition require {A} (o : option A) (tag : string) : SM Session A :=
  match o with Some a => sret a | None => sraise (ValueError tag) end.

(** ** Row updates *)

Definition it_moved (i : IntentRow) (state : V2IntentState) : IntentRow :=
  mkIntent (it_intent_id i) (it_cycle_id i) (it_decision_id i) (it_symbol i) (it_direction i) (it_candidate_key i)
    (it_candidate_type i) (it_execution_mode i) (it_decision_bar_timestamp i) (it_decision_funnel_id i)
    (it_initial_risk_usdt i) state (it_version i + 1).

Definition eo_identified (o : OrderRow) (exchange_order_id : string) (acknowledged_at : option datetime) : OrderRow :=
  mkOrder (eo_order_record_id o) (eo_intent_id o) (eo_client_order_id o) (Some exchange_order_id) (eo_quantity o)
    (eo_leverage o) (eo_submitted_at o) acknowledged_at (eo_filled_quantity o) (eo_average_fill_price o)
    (eo_total_fee o) (eo_fill_timestamp o) (eo_trade_ids o) (eo_created_at o).

Definition mp_moved (p : PositionRow) (state : V2PositionState) (protected_at closed_at : option datetime) : PositionRow :=
  mkPosition (mp_position_id p) (mp_intent_id p) (mp_order_record_id p) (mp_symbol p) (mp_direction p)
    (mp_execution_mode p) (mp_quantity p) (mp_entry_price p) (mp_entry_fee p) state (mp_version p + 1)
    (mp_projected_at p) protected_at closed_at (mp_realized_pnl p).

Definition mp_resized (p : PositionRow) (quantity entry_price entry_fee : Dec) (projected_at : datetime) : PositionRow :=
  mkPosition (mp_position_id p) (mp_intent_id p) (mp_order_record_id p) (mp_symbol p) (mp_direction p)
    (mp_execution_mode p) quantity entry_price entry_fee (mp_state p) (mp_version p) projected_at
    (mp_protected_at p) (mp_closed_at p) (mp_realized_pnl p).

Definition pt_moved (p : ProtectionRow) (state : V2ProtectionState) (activated_at : option datetime) : ProtectionRow :=
  mkProtection (pt_protection_id p) (pt_position_id p) (pt_stop_loss_price p) (pt_original_stop_loss_price p)
    (pt_take_profit_price p) (pt_stop_client_order_id p) (pt_tp_client_order_id p) (pt_stop_exchange_order_id p)
    (pt_tp_exchange_order_id p) state (pt_version p + 1) (pt_policy p) (pt_created_at p) activated_at.

Definition pt_identified (p : ProtectionRow) (stop_exchange_order_id tp_exchange_order_id : option string) : ProtectionRow :=
  mkProtection (pt_protection_id p) (pt_position_id p) (pt_stop_loss_price p) (pt_original_stop_loss_price p)
    (pt_take_profit_price p) (pt_stop_client_order_id p) (pt_tp_client_order_id p) stop_exchange_order_id
    tp_exchange_order_id (pt_state p) (pt_version p) (pt_policy p) (pt_created_at p) (pt_activated_at p).

Definition pt_tightened (p : ProtectionRow) (stop_loss_price : Dec) (client_id exchange_id : string) : ProtectionRow :=
  mkProtection (pt_protection_id p) (pt_position_id p) stop_loss_price (pt_original_stop_loss_price p)
    (pt_take_profit_price p) client_id (pt_tp_client_order_id p) (Some exchange_id) (pt_tp_exchange_order_id p)
    (pt_state p) (pt_version p + 1) (pt_policy p) (pt_created_at p) (pt_activated_at p).

Section repository.
Context {H : Host}.

(** ** Events *)

Definition append_event (aggregate_id : string) (aggregate_type : AggregateType) (event_type : string)
    (event_payload : PyDict) (occurred_at : datetime) : SM Session string :=
  let! event_id := new_uuid in
  add (mkEvent event_id aggregate_id aggregate_type event_type event_payload occurred_at) ;;;
  flush ;;;
  sret event_id.

(** ** Cycles, decisions, intents *)

Definition create_cycle (cycle_id symbol timeframe : string) (bar_timestamp : datetime)
    (execution_mode : V2ExecutionMode) (fencing_token : string) : SM Session unit :=
  let! started_at := server_now in
  add (mkCycle cycle_id symbol timeframe bar_timestamp execution_mode fencing_token started_at None None) ;;;
  flush.

Definition complete_cycle (cycle_id decision_terminal : string) (completed_at : datetime) : SM Session unit :=
  let! cycle := get (R := CycleRow) cycle_id in
  let! c := require cycle "cycle not found" in
  assign (mkCycle (cy_cycle_id c) (cy_symbol c) (cy_timeframe c) (cy_bar_timestamp c) (cy_execution_mode c)
            (cy_fencing_token c) (cy_started_at c) (Some completed_at) (Some decision_terminal)) ;;;
  flush.

Definition create_decision (decision_id cycle_id : string) (candidate_key terminal_reason : option string)
    (payload : PyDict) : SM Session unit :=
  let! created_at := server_now in
  add (mkDecision decision_id cycle_id candidate_key terminal_reason payload created_at) ;;;
  flush.

Definition create_intent (intent_id cycle_id symbol direction candidate_key : string)
    (candidate_type : V2CandidateType) (execution_mode : V2ExecutionMode) (decision_bar_timestamp : datetime)
    (decision_funnel_id : option string) (state : V2IntentState) (decision_id : option string)
    (initial_risk_usdt : option Dec) : SM Session unit :=
  sassert (match initial_risk_usdt with Some r => negb (r <=? dzero)%D | None => true end)
    (ValueError "initial_risk_usdt must be finite and positive") ;;;
  add (mkIntent intent_id cycle_id decision_id symbol direction candidate_key candidate_type execution_mode
         decision_bar_timestamp decision_funnel_id initial_risk_usdt state 0) ;;;
  flush.

Definition transition_intent (intent_id : string) (expected_current next_state : V2IntentState)
    (event_type : string) (payload : PyDict) (occurred_at : option datetime) : SM Session unit :=
  let! intent := get (R := IntentRow) intent_id in
  let! i := require intent "intent not found" in
  let current := it_state i in
  sassert (bool_decide (current = expected_current)) (ValueError "unexpected intent state") ;;;
  slift (validate_intent_transition current next_state) ;;;
  let i := it_moved i next_state in
  assign i ;;;
  let! t := or_now occurred_at in
  append_event intent_id AGG_INTENT event_type
    (transition_payload payload (intent_state_value current) (intent_state_value next_state) (it_version i)) t ;;;
  flush.

Definition order_of_intent (intent_id : string) (o : OrderRow) : bool := String.eqb (eo_intent_id o) intent_id.

Definition reconcile_intent_from_confirmed_fill (intent_id : string) : SM Session unit :=
  let! intent := get (R := IntentRow) intent_id in
  let! i := require intent "intent not found" in
  let! order := scalar (R := OrderRow) (order_of_intent intent_id) in
  let! exchange_order_id :=
    require (o ← order; x ← eo_exchange_order_id o; if str_truthy x then Some x else None)
      "confirmed exchange order identity is required" in
  let! fill := scalar (R := FillRow) (fun f => String.eqb (fl_intent_id f) intent_id
                                              && String.eqb (fl_exchange_order_id f) exchange_order_id) in
  let! f := require fill "confirmed exchange fill receipt is required" in
  let current := it_state i in
  if bool_decide (current = FILLED) then sret tt
  else
  sassert (bool_decide (current ∈ [EXCHANGE_ACKNOWLEDGED; CANCELLED; EXPIRED]))
    (ValueError "intent state cannot be reconciled from a fill") ;;;
  let i := it_moved i FILLED in
  assign i ;;;
  let! t := utc_now in
  append_event intent_id AGG_INTENT "ExchangeFillReconciled"
    [("from_state", VStr (intent_state_value current)); ("to_state", VStr "FILLED");
     ("exchange_order_id", VStr exchange_order_id);
     ("trade_id", match fl_trade_id f with Some t => VStr t | None => VNone end);
     ("fill_source", VStr (fl_fill_source f)); ("version", VInt (it_version i))]%string t ;;;
  flush.

(** ** Orders and fills *)

Definition save_order_submission (intent_id client_order_id : string) (quantity : Dec) (leverage : Z)
    (submitted_at : datetime) : SM Session string :=
  let! order_record_id := new_uuid in
  let! created_at := server_now in
  add (mkOrder order_record_id intent_id client_order_id None quantity leverage (Some submitted_at) None None None
         None None [] created_at) ;;;
  flush ;;;
  sret order_record_id.

Definition save_exchange_order_receipt (order_record_id exchange_order_id : string) (acknowledged_at : datetime) :
    SM Session unit :=
  let! order := get (R := OrderRow) order_record_id in
  let! o := require order "order record not found" in
  sassert (str_truthy exchange_order_id) (ValueError "exchange_order_id is required") ;;;
  assign (eo_identified o exchange_order_id (Some acknowledged_at)) ;;;
  flush.

Definition fill_of_order (order_record_id : string) (f : FillRow) : bool :=
  String.eqb (fl_exchange_order_record_id f) order_record_id.

Record FillAggregate := mkAggregate {
  ag_quantity : Dec; ag_average_fill_price : Dec; ag_total_fee : Dec; ag_trade_ids : list (option string);
  ag_exchange_order_id : string; ag_fill_timestamp : datetime }.

Definition fill_aggregate (f : FillRow) (fills : list FillRow) : FillAggregate :=
  let l := f :: fills in
  let total_qty := dsum (map fl_filled_quantity l) in
  let notional := dsum (map (fun f => fl_filled_quantity f * fl_fill_price f)%D l) in
  mkAggregate total_qty (if (dzero <? total_qty)%D then dquot notional total_qty else dzero)
    (dsum (map (fun f => default dzero (fl_commission f)) l)) (map fl_trade_id l) (fl_exchange_order_id f)
    (foldl Z.max (fl_exchange_event_time f) (map fl_exchange_event_time fills)).

Definition _aggregate_fills (order_record_id : string) : SM Session FillAggregate :=
  let! fills := select (R := FillRow) (fill_of_order order_record_id) in
  match fills with
  | [] => sraise (ValueError "no confirmed fills")
  | f :: fills => sret (fill_aggregate f fills)
  end.

Definition _refresh_order_aggregate_from_fills (order_record_id : string) : SM Session unit :=
  let! order := get (R := OrderRow) order_record_id in
  match order with
  | None => sret tt
  | Some o =>
      let! fills := select (R := FillRow) (fill_of_order order_record_id) in
      match fills with
      | [] => sret tt
      | _ =>
          let! agg := _aggregate_fills order_record_id in
          assign (mkOrder (eo_order_record_id o) (eo_intent_id o) (eo_client_order_id o)
            (if ostr_truthy (eo_exchange_order_id o) then eo_exchange_order_id o else Some (ag_exchange_order_id agg))
            (eo_quantity o) (eo_leverage o) (eo_submitted_at o) (eo_acknowledged_at o) (Some (ag_quantity agg))
            (Some (ag_average_fill_price agg)) (Some (ag_total_fee agg)) (Some (ag_fill_timestamp agg))
            (ag_trade_ids agg) (eo_created_at o))
      end
  end.

Definition save_exchange_fill_receipt (intent_id exchange_order_record_id account_id exchange_order_id : string)
    (trade_id : option string) (fill_source symbol side : string) (reduce_only : bool)
    (filled_quantity fill_price : Dec) (commission : option Dec) (commission_asset : option string)
    (exchange_event_time received_at : datetime) (raw_hash : string) : SM Session string :=
  let! order := get (R := OrderRow) exchange_order_record_id in
  let! o := require order "order record not found" in
  sassert (String.eqb (eo_intent_id o) intent_id) (ValueError "fill intent does not match order") ;;;
  sassert (negb (ostr_truthy (eo_exchange_order_id o) && negb (bool_decide (eo_exchange_order_id o = Some exchange_order_id))))
    (ValueError "fill exchange order does not match saved order") ;;;
  (if ostr_truthy (eo_exchange_order_id o) then sret tt
   else assign (eo_identified o exchange_order_id (eo_acknowledged_at o))) ;;;
  let! fill_id := new_uuid in
  add (mkFillRow fill_id intent_id exchange_order_record_id account_id exchange_order_id trade_id fill_source symbol
         side reduce_only filled_quantity fill_price commission commission_asset exchange_event_time received_at
         raw_hash) ;;;
  flush ;;;
  _refresh_order_aggregate_from_fills exchange_order_record_id ;;;
  flush ;;;
  sret fill_id.

Definition get_exchange_fill_by_trade (account_id trade_id : string) : SM Session (option FillRow) :=
  scalar (fun f => String.eqb (fl_account_id f) account_id && bool_decide (fl_trade_id f = Some trade_id)).

Definition save_order_level_fill_recovery (intent_id exchange_order_record_id account_id exchange_order_id symbol
    side : string) (reduce_only : bool) (filled_quantity fill_price : Dec) (exchange_event_time received_at : datetime) :
    SM Session string :=
  let! existing := scalar (R := FillRow) (fun f => fill_of_order exchange_order_record_id f
                                                  && String.eqb (fl_fill_source f) BINANCE_ORDER_STATUS_RECOVERY) in
  match existing with
  | Some f => sret (fl_fill_id f)
  | None =>
      save_exchange_fill_receipt intent_id exchange_order_record_id account_id exchange_order_id None
        BINANCE_ORDER_STATUS_RECOVERY symbol side reduce_only filled_quantity fill_price None None
        exchange_event_time received_at ("order-status:" +:+ exchange_order_id)
  end.

(** The loop over trade ids: an equal share each, the remainder to the last. *)
Fixpoint spread_fills (save : string -> Dec -> SM Session unit) (total per_qty allocated : Dec)
    (trade_ids : list string) : SM Session unit :=
  match trade_ids with
  | [] => sret tt
  | trade_id :: rest =>
      let qty := match rest with [] => (total - allocated)%D | _ => per_qty end in
      save trade_id qty ;;;
      spread_fills save total per_qty (allocated + qty)%D rest
  end.

(** [Decimal("0.00000001")] *)
Definition share (total : Dec) (n : nat) : res Dec := dquantize (dquot total (dint (Z.of_nat n))) (-8).

Definition save_fill_receipt (order_record_id : string) (receipt : FillReceipt) (account_id symbol side : string)
    (reduce_only : bool) : SM Session unit :=
  slift (assert_fill_receipt_valid receipt) ;;;
  let! order := get (R := OrderRow) order_record_id in
  let! o := require order "order record not found" in
  sassert (String.eqb (eo_intent_id o) (fr_intent_id receipt)) (ValueError "receipt intent does not match order") ;;;
  assign (eo_identified o (fr_exchange_order_id receipt) (eo_acknowledged_at o)) ;;;
  let n := length (fr_trade_ids receipt) in
  let! per_qty := slift (share (fr_filled_quantity receipt) n) in
  spread_fills (fun trade_id qty =>
    save_exchange_fill_receipt (fr_intent_id receipt) order_record_id account_id (fr_exchange_order_id receipt)
      (Some trade_id) BINANCE_USER_TRADE symbol side reduce_only qty (fr_average_fill_price receipt)
      (Some (dquot (fr_total_fee receipt) (dint (Z.of_nat n)))) (Some "USDT"%string) (fr_fill_timestamp receipt)
      (fr_fill_timestamp receipt) (fr_exchange_order_id receipt +:+ ":" +:+ trade_id)%string ;;; sret tt)
    (fr_filled_quantity receipt) per_qty dzero (fr_trade_ids receipt).

(** ** Positions *)

Definition open_position_in (symbol direction : string) (mode : V2ExecutionMode) (p : PositionRow) : bool :=
  String.eqb (mp_symbol p) symbol && String.eqb (mp_direction p) direction
  && bool_decide (mp_execution_mode p = mode) && position_open p.

Definition project_position_from_confirmed_fills (position_id intent_id order_record_id symbol direction : string)
    (execution_mode : V2ExecutionMode) (projected_at : datetime) (allow_existing_position_aggregation : bool) :
    SM Session unit :=
  let! order := get (R := OrderRow) order_record_id in
  let! o := require order "order record not found" in
  sassert (String.eqb (eo_intent_id o) intent_id) (ValueError "order intent mismatch") ;;;
  let! agg := _aggregate_fills order_record_id in
  sassert (ostr_truthy (eo_exchange_order_id o)) (ValueError "order has no exchange_order_id") ;;;
  let! existing := scalar (R := PositionRow) (open_position_in symbol direction execution_mode) in
  match existing with
  | Some p =>
      if allow_existing_position_aggregation then
        let total_quantity := (mp_quantity p + ag_quantity agg)%D in
        let! entry_price := slift (ddiv (mp_quantity p * mp_entry_price p + ag_quantity agg * ag_average_fill_price agg)%D
                                     total_quantity) in
        assign (mp_resized p total_quantity entry_price (mp_entry_fee p + ag_total_fee agg)%D projected_at) ;;;
        flush
      else
        add (mkPosition position_id intent_id order_record_id symbol direction execution_mode (ag_quantity agg)
               (ag_average_fill_price agg) (ag_total_fee agg) POSITION_PROJECTED 0 projected_at None None None) ;;;
        flush
  | None =>
      add (mkPosition position_id intent_id order_record_id symbol direction execution_mode (ag_quantity agg)
             (ag_average_fill_price agg) (ag_total_fee agg) POSITION_PROJECTED 0 projected_at None None None) ;;;
      flush
  end.

Definition reconcile_position_quantity_from_authoritative_snapshot (position_id : string) (quantity : Dec)
    (occurred_at : datetime) : SM Session unit :=
  sassert (negb (quantity <=? dzero)%D) (ValueError "authoritative position quantity must be positive") ;;;
  let! position := get (R := PositionRow) position_id in
  let! p := require position "position not found" in
  if (mp_quantity p =? quantity)%D then sret tt
  else
  assign (mp_resized p quantity (mp_entry_price p) (mp_entry_fee p) occurred_at) ;;;
  append_event position_id AGG_POSITION "PositionQuantityReconciledFromAuthoritativeSnapshot"
    [("from_quantity", VStr (dec_text (mp_quantity p))); ("to_quantity", VStr (dec_text quantity));
     ("source", VStr "binance_authoritative_snapshot")]%string occurred_at ;;;
  flush.

Definition transition_position (position_id : string) (expected_current next_state : V2PositionState)
    (event_type : string) (payload : PyDict) (occurred_at : option datetime) : SM Session unit :=
  let! position := get (R := PositionRow) position_id in
  let! p := require position "position not found" in
  let current := mp_state p in
  sassert (bool_decide (current = expected_current)) (ValueError "unexpected position state") ;;;
  slift (validate_position_transition current next_state) ;;;
  let! closed_at := if bool_decide (next_state = CLOSED) then let! t := or_now occurred_at in sret (Some t)
                    else sret (mp_closed_at p) in
  let! protected_at := if bool_decide (next_state = PROTECTED) then let! t := or_now occurred_at in sret (Some t)
                       else sret (mp_protected_at p) in
  let p := mp_moved p next_state protected_at closed_at in
  assign p ;;;
  let! t := or_now occurred_at in
  append_event position_id AGG_POSITION event_type
    (transition_payload payload (position_state_value current) (position_state_value next_state) (mp_version p)) t ;;;
  flush.

Definition project_position (position_id intent_id order_record_id symbol direction : string)
    (execution_mode : V2ExecutionMode) (fill_receipt : FillReceipt) (state : V2PositionState) (projected_at : datetime) :
    SM Session unit :=
  slift (assert_fill_receipt_valid fill_receipt) ;;;
  let! order := get (R := OrderRow) order_record_id in
  let! o := require order "order record not found" in
  sassert (ostr_truthy (eo_exchange_order_id o)) (ValueError "order has no exchange_order_id") ;;;
  let! existing := select (R := FillRow) (fill_of_order order_record_id) in
  sassert (is_nonempty existing) (ValueError "no confirmed fills") ;;;
  project_position_from_confirmed_fills position_id intent_id order_record_id symbol direction execution_mode
    projected_at false ;;;
  match state with
  | POSITION_PROJECTED => sret tt
  | CLOSED =>
      transition_position position_id POSITION_PROJECTED REDUCING "PositionReducingForCloseSeed" [] None ;;;
      transition_position position_id REDUCING CLOSED "PositionClosedSeed" [] None
  | _ => transition_position position_id POSITION_PROJECTED state "PositionProjectedThenTransitioned" [] None
  end.

Definition quantity_tolerance : Dec := mkDec 1 (-8).

Definition ostr_value (o : option string) : PyVal := match o with Some s => VStr s | None => VNone end.

Definition repair_quarantined_position_from_confirmed_exit (position_id exit_order_record_id : string)
    (occurred_at : datetime) (payload : PyDict) : SM Session unit :=
  let! position := get (R := PositionRow) position_id in
  let! p := require position "position not found" in
  sassert (bool_decide (mp_state p = QUARANTINED)) (ValueError "position is not QUARANTINED") ;;;
  let! order := get (R := OrderRow) exit_order_record_id in
  let! o := require (o ← order; if ostr_truthy (eo_exchange_order_id o) then Some o else None)
              "quarantine repair requires an acknowledged exit order" in
  let! fills := select (R := FillRow) (fill_of_order exit_order_record_id) in
  sassert (is_nonempty fills && forallb fl_reduce_only fills)
    (ValueError "quarantine repair requires persisted reduce-only fills") ;;;
  sassert (forallb (fun f => String.eqb (fl_symbol f) (mp_symbol p)) fills)
    (ValueError "quarantine repair fill symbol does not match position") ;;;
  let reduced_quantity := dsum (map fl_filled_quantity fills) in
  sassert (negb (reduced_quantity + quantity_tolerance <? mp_quantity p)%D)
    (ValueError "quarantine repair fill quantity is below projected quantity") ;;;
  let p' := mp_moved p CLOSED (mp_protected_at p) (Some occurred_at) in
  assign p' ;;;
  append_event position_id AGG_POSITION "QuarantinedProjectionCorrectedFromConfirmedExit"
    (dict_update payload [("exit_order_record_id", VStr exit_order_record_id);
       ("exchange_order_id", ostr_value (eo_exchange_order_id o));
       ("trade_ids", VList "" (map (fun f => ostr_value (fl_trade_id f)) fills));
       ("from_state", VStr "QUARANTINED"); ("to_state", VStr "CLOSED"); ("version", VInt (mp_version p'))]%string)
    occurred_at ;;;
  flush.

Definition finalize_quarantined_historical_attribution (position_id adjudication_id exchange_order_id exchange_trade_id
    manifest_hash evidence_hash database_identity : string) (aggregate_quantity allocated_quantity : Dec)
    (occurred_at : datetime) (operator_identity operator_reason : string) : SM Session unit :=
  let! position := get (R := PositionRow) position_id in
  let! p := require position "RECOVERY_FINALIZATION_INCOMPLETE" in
  let! existing := scalar (R := FinalizationRow) (fun f => String.eqb (fz_adjudication_id f) adjudication_id
                                                        && String.eqb (fz_position_id f) position_id) in
  match existing with
  | Some f =>
      sassert (String.eqb (fz_exchange_trade_id f) exchange_trade_id && (fz_allocated_quantity f =? allocated_quantity)%D)
        (ValueError "RECOVERY_FINALIZATION_CONFLICT")
  | None =>
      sassert (bool_decide (mp_state p = QUARANTINED)) (ValueError "RECOVERY_FINALIZATION_INCOMPLETE") ;;;
      sassert (mp_quantity p =? allocated_quantity)%D (ValueError "RECOVERY_FINALIZATION_INCOMPLETE") ;;;
      slift (validate_historical_attribution_transition (mp_state p) CLOSED) ;;;
      let p' := mp_moved p CLOSED (mp_protected_at p) (Some occurred_at) in
      assign p' ;;;
      append_event position_id AGG_POSITION "QuarantinedLifecycleHistoricallyAttributedExit"
        [("adjudication_id", VStr adjudication_id); ("exchange_order_id", VStr exchange_order_id);
         ("exchange_trade_id", VStr exchange_trade_id);
         ("aggregate_exchange_fill_quantity", VStr (dec_text aggregate_quantity));
         ("allocated_quantity", VStr (dec_text allocated_quantity)); ("operator_identity", VStr operator_identity);
         ("operator_reason", VStr operator_reason); ("from_state", VStr "QUARANTINED"); ("to_state", VStr "CLOSED");
         ("version", VInt (mp_version p'))]%string occurred_at ;;;
      let! finalization_id := new_uuid in
      add (mkFinalization finalization_id adjudication_id manifest_hash evidence_hash database_identity position_id
             exchange_order_id exchange_trade_id aggregate_quantity allocated_quantity operator_identity
             operator_reason occurred_at) ;;;
      flush
  end.

(** ** Protections *)

Definition save_protection (protection_id position_id : string) (stop_loss_price : Dec)
    (take_profit_price : option Dec) (stop_client_order_id : string) (tp_client_order_id : option string)
    (state : V2ProtectionState) (stop_exchange_order_id tp_exchange_order_id : option string)
    (original_stop_loss_price : option Dec) (policy : string) : SM Session unit :=
  sassert (bool_decide (state = PROTECTION_INTENT)) (ValueError "save_protection only accepts PROTECTION_INTENT") ;;;
  let! created_at := server_now in
  add (mkProtection protection_id position_id stop_loss_price
         (Some (default stop_loss_price original_stop_loss_price)) take_profit_price stop_client_order_id
         tp_client_order_id stop_exchange_order_id tp_exchange_order_id state 0 policy created_at None) ;;;
  flush.

Definition update_protection_stop (protection_id : string) (stop_loss_price : Dec)
    (stop_client_order_id stop_exchange_order_id : string) (occurred_at : option datetime) : SM Session unit :=
  let! protection := get (R := ProtectionRow) protection_id in
  let! p := require protection "protection not found" in
  let p := pt_tightened p stop_loss_price stop_client_order_id stop_exchange_order_id in
  assign p ;;;
  let! t := or_now occurred_at in
  append_event protection_id AGG_PROTECTION "ProfitProtectionStopTightened"
    [("stop_loss_price", VStr (dec_text stop_loss_price)); ("stop_exchange_order_id", VStr stop_exchange_order_id);
     ("version", VInt (pt_version p))]%string t ;;;
  flush.

Definition transition_protection (protection_id : string) (expected_current next_state : V2ProtectionState)
    (event_type : string) (payload : PyDict) (occurred_at : option datetime) : SM Session unit :=
  let! protection := get (R := ProtectionRow) protection_id in
  let! p := require protection "protection not found" in
  let current := pt_state p in
  sassert (bool_decide (current = expected_current)) (ValueError "unexpected protection state") ;;;
  slift (validate_protection_transition current next_state) ;;;
  (if bool_decide (next_state = PROTECTION_ACTIVE)
   then slift (assert_protection_active_requires_exchange_order_id (pt_stop_exchange_order_id p))
   else sret tt) ;;;
  let! activated_at := if bool_decide (next_state = PROTECTION_ACTIVE) then let! t := or_now occurred_at in sret (Some t)
                       else sret (pt_activated_at p) in
  let p := pt_moved p next_state activated_at in
  assign p ;;;
  let! t := or_now occurred_at in
  append_event protection_id AGG_PROTECTION event_type
    (transition_payload payload (protection_state_value current) (protection_state_value next_state) (pt_version p)) t ;;;
  flush.

Definition update_protection_active (protection_id : string) (receipt : ProtectionReceipt)
    (new_state : V2ProtectionState) (activated_at : datetime) : SM Session unit :=
  let! protection := get (R := ProtectionRow) protection_id in
  let! p := require protection "protection not found" in
  slift (assert_protection_active_requires_exchange_order_id (Some (pr_stop_exchange_order_id receipt))) ;;;
  assign (pt_identified p (Some (pr_stop_exchange_order_id receipt)) (pr_tp_exchange_order_id receipt)) ;;;
  flush ;;;
  let! current :=
    if bool_decide (pt_state p = PROTECTION_INTENT) then
      transition_protection protection_id PROTECTION_INTENT PROTECTION_SUBMITTING "ProtectionSubmitting" []
        (Some activated_at) ;;;
      sret PROTECTION_SUBMITTING
    else sret (pt_state p) in
  transition_protection protection_id current new_state "ProtectionActivated"
    [("stop_exchange_order_id", VStr (pr_stop_exchange_order_id receipt));
     ("tp_exchange_order_id", ostr_value (pr_tp_exchange_order_id receipt))]%string (Some activated_at).

(** ** Reconciliations, incidents, runtime control *)

Definition record_reconciliation (execution_mode : V2ExecutionMode)
    (exchange_positions exchange_open_orders local_positions discrepancies : PyDict) (status : string)
    (captured_at : datetime) (cycle_id : option string) : SM Session string :=
  let! snapshot_id := new_uuid in
  add (mkReconciliationRow snapshot_id cycle_id execution_mode exchange_positions exchange_open_orders local_positions
         discrepancies status captured_at) ;;;
  flush ;;;
  sret snapshot_id.

Definition record_incident (incident_type severity : string) (related_aggregate_id : option string)
    (description : string) (context : PyDict) (intent_id position_id : option string) : SM Session string :=
  let! incident_id := new_uuid in
  add (mkIncident incident_id incident_type severity related_aggregate_id intent_id position_id description context
         false None) ;;;
  flush ;;;
  sret incident_id.

Definition ic_resolve (resolved_at : datetime) (i : IncidentRow) : IncidentRow :=
  mkIncident (ic_incident_id i) (ic_incident_type i) (ic_severity i) (ic_related_aggregate_id i) (ic_intent_id i)
    (ic_position_id i) (ic_description i) (ic_context i) true (Some resolved_at).

Fixpoint resolve_all (resolved_at : datetime) (l : list IncidentRow) : SM Session unit :=
  match l with
  | [] => sret tt
  | i :: l => assign (ic_resolve resolved_at i) ;;; resolve_all resolved_at l
  end.

Definition resolve_reconciliation_incidents (resolved_at : datetime) : SM Session Z :=
  let! incidents := select (R := IncidentRow) (fun i => negb (ic_resolved i) &&
    bool_decide (ic_incident_type i ∈ ["LOCAL_GHOST_QUARANTINED"; "EXTERNAL_POSITION_QUARANTINED"]%string)) in
  resolve_all resolved_at incidents ;;;
  flush ;;;
  sret (Z.of_nat (length incidents)).

Definition get_runtime_control (scope : string) : SM Session ControlRow :=
  let! control := get (R := ControlRow) scope in
  match control with
  | Some c => sret c
  | None =>
      let! t := server_now in
      let c := mkControl scope false (Some "default_disabled_until_gate5"%string) (Some "system"%string) 0 t in
      add c ;;;
      flush ;;;
      sret c
  end.

Definition set_runtime_control (scope : string) (entry_enabled : bool) (reason updated_by : option string)
    (expected_version : option Z) : SM Session ControlRow :=
  let! c := get_runtime_control scope in
  sassert (match expected_version with Some v => ct_version c =? v | None => true end)
    (ValueError "runtime control version conflict") ;;;
  let! t := utc_now in
  let c := mkControl scope entry_enabled reason updated_by (ct_version c + 1) t in
  assign c ;;;
  flush ;;;
  sret c.

(** [begin_nested]: a failed insert rolls back to the savepoint, and the row of
    the concurrent writer is read again. *)
Definition ensure_runtime_control (scope : string) (entry_enabled : bool) (reason updated_by : option string) :
    SM Session ControlRow :=
  let! existing := get (R := ControlRow) scope in
  match existing with
  | Some c => sret c
  | None =>
      let! savepoint := read_db in
      let! t := server_now in
      let created := mkControl scope entry_enabled reason updated_by 0 t in
      stry (add created ;;; flush ;;; sret created)
        (fun e => match e with
         | IntegrityError _ =>
             Some (on_db (fun _ => savepoint) ;;;
                   let! concurrent := get (R := ControlRow) scope in
                   match concurrent with Some c => sret c | None => sraise e end)
         | _ => None
         end)
  end.

Definition control_matches (scope : string) (version : Z) (entry_enabled : bool) (reason : option string)
    (c : ControlRow) : bool :=
  String.eqb (ct_scope c) scope && (ct_version c =? version) && Bool.eqb (ct_entry_enabled c) entry_enabled
  && bool_decide (ct_reason c = reason).

(** One UPDATE statement with the observed owner in its WHERE clause. *)
Definition compare_and_set_runtime_control (scope : string) (expected_version : Z) (expected_entry_enabled : bool)
    (expected_reason : option string) (entry_enabled : bool) (reason updated_by : option string) : SM Session bool :=
  let matching := control_matches scope expected_version expected_entry_enabled expected_reason in
  let! t := utc_now in
  flush ;;;
  let! d := read_db in
  let rowcount := length (bfilter matching (controls d)) in
  on_db (with_rows (map (fun c => if matching c
    then mkControl (ct_scope c) entry_enabled reason updated_by (ct_version c + 1) t else c) (controls d))) ;;;
  flush ;;;
  sret (rowcount =? 1)%nat.

(** ** Queries *)

Definition active_position (s : V2PositionState) : bool := bool_decide (s ∈ [POSITION_PROJECTED; PROTECTED; REDUCING]).
Definition active_intent (s : V2IntentState) : bool :=
  bool_decide (s ∈ [INTENT_CREATED; EXCHANGE_SUBMITTING; EXCHANGE_UNKNOWN; EXCHANGE_ACKNOWLEDGED; FILLED]).
Definition is_exit_intent (i : IntentRow) : bool := String.prefix "exit:" (it_candidate_key i).

(** The exposure of a risk that is known and positive. *)
Definition exposure_of (symbol direction source : string) (risk : option Dec) : option RiskExposure :=
  r ← risk; if (r <=? dzero)%D then None else Some (mkExposure symbol direction r source).

Definition position_exposure (d : Db) (p : PositionRow) : option RiskExposure :=
  exposure_of (mp_symbol p) (mp_direction p) "position"
    (i ← find_row (R := IntentRow) (mp_intent_id p) d; it_initial_risk_usdt i).
Definition intent_exposure (i : IntentRow) : option RiskExposure :=
  exposure_of (it_symbol i) (it_direction i) "intent" (it_initial_risk_usdt i).

Definition has_position (ps : list PositionRow) (i : IntentRow) : bool :=
  existsb (fun p => String.eqb (mp_intent_id p) (it_intent_id i)) ps.
Definition in_mode (mode : V2ExecutionMode) (p : PositionRow) : bool := bool_decide (mp_execution_mode p = mode).

(** The intents the second loop does not skip. *)
Definition reserved_intents (mode : V2ExecutionMode) (active : list PositionRow) (d : Db) : list IntentRow :=
  let terminal := bfilter (fun p => in_mode mode p && is_terminal_position (mp_state p)) (positions d) in
  bfilter (fun i => bool_decide (it_execution_mode i = mode) && active_intent (it_state i)
                    && negb (has_position active i || has_position terminal i || is_exit_intent i)) (intents d).

Definition list_active_initial_risk_exposures (mode : V2ExecutionMode) : SM Session (list RiskExposure * bool) :=
  let! active := select (R := PositionRow) (fun p => in_mode mode p && active_position (mp_state p)) in
  let! d := read_db in
  let of_positions := map (position_exposure d) active in
  let of_intents := map intent_exposure (reserved_intents mode active d) in
  let found := of_positions ++ of_intents in
  sret (omap id found, existsb (fun o => bool_decide (o = None)) found).

Definition get_open_positions (mode : V2ExecutionMode) (symbol : option string) : SM Session (list PositionRow) :=
  select (fun p => in_mode mode p && position_open p &&
                   (negb (ostr_truthy symbol) || bool_decide (Some (mp_symbol p) = symbol))).

Definition list_exchange_unknown_intents (mode : V2ExecutionMode) : SM Session (list IntentRow) :=
  select (fun i => bool_decide (it_execution_mode i = mode) && bool_decide (it_state i = EXCHANGE_UNKNOWN)).

Definition get_position_by_id (position_id : string) : SM Session (option PositionRow) := get position_id.
End repository.
