(* ===== verification/Transactions.v ===== *)
(** * Transactions: reasoning about programs over sessions

    A program over a session commits nothing itself: it moves the tables the
    session sees along a preorder, or an exception leaves them rolled back.  The
    rules prove this command by command; [Ledger] and [ExchangeFirst] use them
    with their own preorders. *)
From S2P Require Import Prelude State Database Repository.
Local Open Scope Z_scope.
Local Open Scope py_scope.

Section moves.
Context {H : Host} (rel : Db -> Db -> Prop) `{!PreOrder rel}.

(** Run from [s], [m] commits nothing, and moves the session's tables along
    [rel] or leaves them rolled back to the committed ones. *)
Definition moves_at {A} (s : Session) (m : SM Session A) : Prop :=
  forall r s', m s = (r, s') -> s_committed s' = s_committed s /\
    (rel (s_db s) (s_db s') \/ ((exists e, r = Raise e) /\ s_db s' = s_committed s)).
Definition moves {A} (m : SM Session A) : Prop := forall s, moves_at s m.

(** Programs that only read. *)
Definition quiet {A} (m : SM Session A) : Prop :=
  forall s r s', m s = (r, s') -> s_committed s' = s_committed s /\
    (s_db s' = s_db s \/ ((exists e, r = Raise e) /\ s_db s' = s_committed s)).

Lemma quiet_bind {A B} (m : SM Session A) (f : A -> SM Session B) :
  quiet m -> (forall a, quiet (f a)) -> quiet (sbind m f).
Proof.
  intros Hm Hf s r s' [(a & s1 & H1%Hm & H2%Hf)|(e & H1%Hm & ->)]%sbind_inv; [|naive_solver].
  destruct H1 as [E1 [E|[[e ?] _]]], H2 as [E2 E3]; [|done]. rewrite E2, E1 in *. split; [done|]. by rewrite <- E.
Qed.
Lemma quiet_same {A} (m : SM Session A) :
  (forall s, s_committed (m s).2 = s_committed s /\ s_db (m s).2 = s_db s) -> quiet m.
Proof. intros Hm s r s' E. pose proof (Hm s) as [? ?]. rewrite E in *. auto. Qed.
Lemma quiet_flush : quiet flush.
Proof. intros s r s'. unfold flush. destruct (constraints_ok _); intros [= <- <-]; eauto. Qed.
Lemma quiet_select {R} `{Table R} (p : R -> bool) : quiet (select p).
Proof. apply quiet_bind; [apply quiet_flush|]. intros _. by apply quiet_same. Qed.
Lemma quiet_scalar {R} `{Table R} (p : R -> bool) : quiet (scalar p).
Proof. apply quiet_bind; [apply quiet_select|]. intros. by apply quiet_same. Qed.
Lemma quiet_assert b e : quiet (sassert b e).
Proof. apply quiet_same. by destruct b. Qed.
Lemma quiet_or_now o : quiet (or_now o).
Proof. apply quiet_same. by destruct o. Qed.
Lemma quiet_require {A} (o : option A) tag : quiet (require o tag).
Proof. apply quiet_same. by destruct o. Qed.
Lemma quiet_if {A} (b : bool) (m k : SM Session A) : quiet m -> quiet k -> quiet (if b then m else k).
Proof. by destruct b. Qed.

Lemma moves_ret {A} s (a : A) : moves_at s (sret a).
Proof. intros r s' [-> ->]%sret_inv. split; [done|by left]. Qed.
Lemma moves_raise {A} s e : moves_at s (sraise (A := A) e).
Proof. intros r s' [-> ->]%sraise_inv. split; [done|left; done]. Qed.
Lemma moves_bind {A B} s (m : SM Session A) (f : A -> SM Session B) :
  moves_at s m -> (forall a s1, m s = (Ok a, s1) -> moves_at s1 (f a)) -> moves_at s (sbind m f).
Proof.
  intros Hm Hf r s' [(a & s1 & H1 & H2)|(e & H1 & ->)]%sbind_inv.
  - apply Hm in H1 as Hs. destruct Hs as [Hc [Hs|[[e He] _]]]; [|done].
    apply (Hf a s1 H1) in H2 as [Hc2 [H2|H2]]; rewrite Hc in *; split; auto. left. by etrans.
  - apply Hm in H1 as [Hc [Hs|[_ Hs]]]; split; eauto.
Qed.
Lemma moves_assoc {A B C} s (m : SM Session A) (f : A -> SM Session B) (g : B -> SM Session C) :
  moves_at s (sbind (sbind m f) g) -> moves_at s (sbind m (fun a => sbind (f a) g)).
Proof. intros Hm r s' E. apply Hm. rewrite <- E. unfold sbind. by destruct (m s) as [[] ?]. Qed.
Lemma moves_get {A R} `{Table R} s key (f : option R -> SM Session A) :
  moves_at s (f (find_row key (s_db s))) -> moves_at s (sbind (get key) f).
Proof. intros Hf r s'. apply Hf. Qed.
Lemma moves_require {A R} s (o : option R) tag (f : R -> SM Session A) :
  (forall x, o = Some x -> moves_at s (f x)) -> moves_at s (sbind (require o tag) f).
Proof. intros Hf. destruct o as [x|]; [by apply Hf|]. intros r s'. apply moves_raise. Qed.
Lemma moves_validate {A} s (x : res unit) (k : unit -> SM Session A) :
  (x = Ok tt -> moves_at s (k tt)) -> moves_at s (sbind (slift x) k).
Proof. intros Hk. destruct x as [[]|e]; [by apply Hk|]. intros r s'. apply moves_raise. Qed.
Lemma moves_asserted {A} s b e (k : unit -> SM Session A) :
  (b = true -> moves_at s (k tt)) -> moves_at s (sbind (sassert b e) k).
Proof. intros Hk. destruct b; [by apply Hk|]. intros r s'. apply moves_raise. Qed.
Lemma moves_db s f : rel (s_db s) (f (s_db s)) -> moves_at s (on_db f).
Proof. intros E r s' [= <- <-]. split; [done|by left]. Qed.

Lemma quiet_moves {A} s (m : SM Session A) : quiet m -> moves_at s m.
Proof. intros Hm r s' E. apply Hm in E as [E [E1|E1]]; split; auto. left. by rewrite E1. Qed.
Lemma moves_quiet {A B} s (m : SM Session A) (f : A -> SM Session B) :
  quiet m -> (forall a s1, s_db s1 = s_db s -> moves_at s1 (f a)) -> moves_at s (sbind m f).
Proof.
  intros Hm Hf. apply moves_bind; [by apply quiet_moves|]. intros a s1 E. apply Hf.
  apply Hm in E as [_ [E|[[e ?] _]]]; done.
Qed.

(** [append_event] inserts a row, or rolls the transaction back. *)
Lemma append_event_inv s id ty name payload t r s' :
  append_event id ty name payload t s = (r, s') ->
  s_committed s' = s_committed s /\
  ((exists e, r = Ok e /\ s_db s' = insert_row (mkEvent e id ty name payload t) (s_db s)) \/
   ((exists e, r = Raise e) /\ s_db s' = s_committed s)).
Proof.
  unfold append_event, sbind, new_uuid, add, on_db, smodify, flush, sret. cbn [s_db s_committed s_draws].
  destruct (constraints_ok _); intros [= <- <-]; eauto 10.
Qed.

(** One movement: the change of the row and its event are one step. *)
Lemma moves_movement {R A} `{Table R} s (row : R) occurred_at id ty name payload (k : string -> SM Session A) :
  (forall event_id t, rel (s_db s) (insert_row (mkEvent event_id id ty name payload t) (put_row row (s_db s)))) ->
  (forall e s1, moves_at s1 (k e)) ->
  moves_at s (assign row ;;; let! t := or_now occurred_at in let! e := append_event id ty name payload t in k e).
Proof.
  intros Hstep Hk r s' Hrun.
  apply sbind_inv in Hrun as [(u & s1 & E1 & Hrun)|(e & E1 & ->)]; [|done]. injection E1 as _ <-.
  apply sbind_inv in Hrun as [(t & s2 & E2 & Hrun)|(e & E2 & ->)]; [|by destruct occurred_at].
  assert (s_db s2 = put_row row (s_db s) /\ s_committed s2 = s_committed s) as [Hd Hc].
  { destruct occurred_at; injection E2 as _ <-; done. }
  apply sbind_inv in Hrun as [(e & s3 & E3 & Hrun)|(e & E3 & ->)];
    apply append_event_inv in E3 as [Hc3 [(e' & ? & Hd3)|[[e' ?] Hd3]]]; simplify_eq.
  - apply Hk in Hrun as [Hc' Hrun]. rewrite Hc', Hc3, Hc in *. split; [done|].
    destruct Hrun as [Hrun|]; [left|by right]. etrans; [|exact Hrun]. rewrite Hd3, Hd. apply Hstep.
  - rewrite Hd3, Hc3, Hc. split; eauto.
Qed.
Lemma moves_movement_at {R A} `{Table R} s (row : R) id ty name payload t (k : string -> SM Session A) :
  (forall event_id t, rel (s_db s) (insert_row (mkEvent event_id id ty name payload t) (put_row row (s_db s)))) ->
  (forall e s1, moves_at s1 (k e)) ->
  moves_at s (assign row ;;; let! e := append_event id ty name payload t in k e).
Proof. intros Hs Hk. exact (moves_movement s row (Some t) id ty name payload k Hs Hk). Qed.
End moves.

Lemma moves_weaken {H : Host} (rel rel' : Db -> Db -> Prop) {A} s (m : SM Session A) :
  (forall d d', rel d d' -> rel' d d') -> moves_at rel s m -> moves_at rel' s m.
Proof. intros Hr Hm r s' E. destruct (Hm r s' E) as [Hc [Hs|Hs]]; split; auto. Qed.

(** ** Programs that also commit *)

Section advances.
Context {H : Host} (rel : Db -> Db -> Prop) `{!PreOrder rel}.

(** What the session sees is where [rel] takes the committed tables. *)
Definition ahead (s : Session) : Prop := rel (s_committed s) (s_db s).

(** Run from a session that is ahead, [m] leaves it ahead and moves the
    committed tables along [rel]. *)
Definition advances {A} (m : SM Session A) : Prop :=
  forall s r s', ahead s -> m s = (r, s') -> ahead s' /\ rel (s_committed s) (s_committed s').

Lemma moves_advance {A} (m : SM Session A) : moves rel m -> advances m.
Proof.
  intros Hm s r s' Ha E. destruct (Hm s r s' E) as [Hc [Hs|[_ Hs]]]; unfold ahead in *; rewrite ?Hs, Hc;
    (split; [|reflexivity]); [by etrans|reflexivity].
Qed.
Lemma quiet_advance {A} (m : SM Session A) : quiet m -> advances m.
Proof. intros Hm. apply moves_advance. intros s. by apply quiet_moves. Qed.
Lemma advances_bind {A B} (m : SM Session A) (f : A -> SM Session B) :
  advances m -> (forall a, advances (f a)) -> advances (sbind m f).
Proof.
  intros Hm Hf s r s' Ha [(a & s1 & H1 & H2)|(e & H1 & ->)]%sbind_inv; [|by eapply Hm].
  destruct (Hm s _ s1 Ha H1) as [Ha1 Hc1]. destruct (Hf a s1 r s' Ha1 H2) as [Ha' Hc']. split; [done|by etrans].
Qed.
Lemma advances_commit : advances commit.
Proof.
  intros s r s' Ha. unfold commit, sbind, flush, smodify, ahead in *.
  destruct (constraints_ok _); intros [= <- <-]; split; first [reflexivity|done].
Qed.
Lemma advances_rollback : advances rollback.
Proof. intros s r s' Ha [= <- <-]. unfold ahead. split; reflexivity. Qed.

(** A session of its own: what it committed stays. *)
Lemma advances_session {A} (m : SM Session A) s r s' :
  advances m -> with_session m s = (r, s') -> rel (s_committed s) (s_committed s').
Proof.
  intros Hm. unfold with_session. destruct (m _) as [r1 s1] eqn:E. intros [= <- <-].
  apply Hm in E as [_ Hc]; [exact Hc|]. unfold ahead. simpl. reflexivity.
Qed.
End advances.

(** A flush that returns changed nothing. *)
Lemma flush_ok s u s' : flush s = (Ok u, s') -> s' = s /\ constraints_ok (s_db s) = true.
Proof. unfold flush. destruct (constraints_ok _) eqn:E; [|done]. by intros [= _ <-]. Qed.
Lemma select_ok {R} `{Table R} (p : R -> bool) s l s' :
  select p s = (Ok l, s') -> s' = s /\ l = bfilter p (rows (s_db s)) /\ constraints_ok (s_db s) = true.
Proof.
  unfold select. intros [(u & s1 & [-> ?]%flush_ok & E)|(e & _ & E)]%sbind_inv; [|done]. by injection E as <- <-.
Qed.
Lemma scalar_ok {R} `{Table R} (p : R -> bool) s o s' :
  scalar p s = (Ok o, s') -> s' = s /\ o = head (bfilter p (rows (s_db s))) /\ constraints_ok (s_db s) = true.
Proof.
  unfold scalar. intros [(l & s1 & [-> [-> ?]]%select_ok & [[= ->] ->]%sret_inv)|(e & _ & E)]%sbind_inv; done.
Qed.

(** A row found by its key. *)
Lemma find_row_key {R} `{Table R} key d r : find_row key d = Some r -> row_key r = key.
Proof. intros [_ E]%find_some. by apply String.eqb_eq in E. Qed.
Lemma find_row_self {R} `{Table R} key d r : find_row key d = Some r -> find_row (row_key r) d = Some r.
Proof. intros E. by rewrite (find_row_key _ _ _ E). Qed.
Lemma find_row_elem {R} `{Table R} key d r : find_row key d = Some r -> r ∈ rows d.
Proof. intros [E _]%find_some. by apply list_elem_of_In. Qed.
Lemma find_row_unique {R} `{Table R} d r : NoDup (map row_key (rows d)) -> r ∈ rows d -> find_row (row_key r) d = Some r.
Proof.
  unfold find_row. induction (rows d) as [|x l IH]; intros Hn Hr; [by apply elem_of_nil in Hr|]. simpl in *.
  apply NoDup_cons in Hn as [Hx Hn]. destruct (String.eqb_spec (row_key x) (row_key r)) as [E|E].
  - apply elem_of_cons in Hr as [->|Hr]; [done|]. destruct Hx. rewrite E. by apply (list_elem_of_fmap_2 row_key).
  - apply elem_of_cons in Hr as [->|Hr]; [done|]. by apply IH.
Qed.
(** The primary keys of a table that satisfies its constraints are distinct. *)
Class UniqueKeys (R : Type) `{Table R} := unique_keys : forall d, constraints_ok d = true -> NoDup (map row_key (rows d)).

Ltac unique_keys_tac R :=
  intros d; unfold constraints_ok, unique_key; intros [[Hk _]%andb_true_iff _]%andb_true_iff;
  repeat match type of Hk with
  | (_ && bool_decide (NoDup (map row_key (rows (R := R) _))))%bool = true => apply andb_true_iff in Hk as [_ Hk]
  | (_ && _)%bool = true => apply andb_true_iff in Hk as [Hk _]
  end; by apply bool_decide_eq_true in Hk.

#[export] Instance snapshots_unique : UniqueKeys SnapshotRow.
Proof. unique_keys_tac SnapshotRow. Qed.
#[export] Instance shadows_unique : UniqueKeys ShadowRow.
Proof. unique_keys_tac ShadowRow. Qed.
#[export] Instance outcomes_unique : UniqueKeys OutcomeRow.
Proof. unique_keys_tac OutcomeRow. Qed.
#[export] Instance intents_unique : UniqueKeys IntentRow.
Proof. unique_keys_tac IntentRow. Qed.
#[export] Instance orders_unique : UniqueKeys OrderRow.
Proof. unique_keys_tac OrderRow. Qed.
#[export] Instance positions_unique : UniqueKeys PositionRow.
Proof. unique_keys_tac PositionRow. Qed.
#[export] Instance protections_unique : UniqueKeys ProtectionRow.
Proof. unique_keys_tac ProtectionRow. Qed.
#[export] Instance controls_unique : UniqueKeys ControlRow.
Proof. unique_keys_tac ControlRow. Qed.

(** A row that a query returns is the one found by its key. *)
Lemma selected_row {R} `{UniqueKeys R} d p r :
  constraints_ok d = true -> r ∈ bfilter p (rows d) -> find_row (row_key r) d = Some r /\ p r = true.
Proof. intros Hc [Hr Hp]%elem_of_bfilter. split; [|done]. by apply find_row_unique; [apply unique_keys|]. Qed.

(** A query flushes first, so the keys of what it returns are unique. *)
Lemma moves_scalar_position {H : Host} rel `{!PreOrder rel} {A} s (p : PositionRow -> bool)
    (f : option PositionRow -> SM Session A) :
  moves_at rel s (f None) ->
  (forall r, find_row (row_key r) (s_db s) = Some r -> p r = true -> moves_at rel s (f (Some r))) ->
  moves_at rel s (sbind (scalar p) f).
Proof.
  intros Hn Hf. apply moves_bind; [done|apply quiet_moves; [done|apply quiet_scalar]|].
  intros o s1 (-> & -> & Hc)%scalar_ok. destruct (head _) as [r|] eqn:Er; [|done].
  apply head_Some_elem_of, elem_of_bfilter in Er as [Er Hp].
  apply Hf; [|done]. apply find_row_unique; [|done]. by apply unique_keys.
Qed.

Ltac quiet_tac :=
  repeat first
    [ apply quiet_flush | apply quiet_select | apply quiet_scalar | apply quiet_assert | apply quiet_or_now | apply quiet_require
    | apply quiet_if | apply quiet_bind; [|intros] | apply quiet_same; by intros ].

(** Peel the commands of a program; [leaf] proves the changes of the tables.
    Facts about the tables carry over to the next state. *)
Ltac carry :=
  let a := fresh "a" in let s1 := fresh "s" in let Hs := fresh "Hs" in
  intros a s1 Hs;
  match type of Hs with
  | _ = s_db ?s =>
      repeat match goal with F : context [s_db s] |- _ => tryif constr_eq F Hs then fail else rewrite <- Hs in F end
  end; clear Hs.
Ltac move1 leaf :=
  first
    [ apply moves_get | apply moves_require; [exact _|intros ? ?]
    | apply moves_quiet; [exact _|solve [quiet_tac]|carry]
    | apply quiet_moves; [exact _|solve [quiet_tac]]
    | apply moves_db; solve [leaf]
    | match goal with |- moves_at _ _ (match ?x with _ => _ end) => destruct x eqn:? end
    | match goal with |- moves_at _ _ (sbind (match ?x with _ => _ end) _) => destruct x eqn:? end
    | apply moves_bind; [exact _| |intros ?a ?s _] ].
