(* ===== verification/Ledger.v ===== *)
(** * Ledger: the abstract specification of the repository

    The abstract state of the persisted facts is a ledger: the state and version
    of every intent, position and protection, and the log of their movements.
    Its steps are the only movements the domain allows.  Every operation of
    [Repository] refines it: whatever a run does, the ledger moves by its steps,
    or the transaction is rolled back; and the event table is the log. *)
From S2P Require Import Prelude PyDecimal PyValue State Receipts PortfolioRisk Database Repository Transactions.
From stdpp Require Import pretty.
Local Open Scope Z_scope.
Local Open Scope py_scope.

(** ** The abstract ledger *)

Inductive Entry :=
  | IntentMoved (id : string) (a b : V2IntentState) (version : Z)
  | PositionMoved (id : string) (a b : V2PositionState) (version : Z)
  | ProtectionMoved (id : string) (a b : V2ProtectionState) (version : Z)
  | ProtectionTightened (id : string) (version : Z).

Record Ledger := mkLedger {
  lg_intents : gmap string (V2IntentState * Z); lg_positions : gmap string (V2PositionState * Z);
  lg_protections : gmap string (V2ProtectionState * Z); lg_log : list Entry }.

Definition empty_ledger : Ledger := mkLedger ∅ ∅ ∅ [].

(** An intent whose outcome was guessed may be corrected by a confirmed fill. *)
Definition fill_corrects (a : V2IntentState) : Prop := a ∈ [EXCHANGE_ACKNOWLEDGED; CANCELLED; EXPIRED].

Inductive ledger_step : Ledger -> Ledger -> Prop :=
  | step_intent_created l id s :
      lg_intents l !! id = None ->
      ledger_step l (mkLedger (<[id := (s, 0)]> (lg_intents l)) (lg_positions l) (lg_protections l) (lg_log l))
  | step_intent_moved l id a b v :
      lg_intents l !! id = Some (a, v) -> intent_step a b \/ (fill_corrects a /\ b = FILLED) ->
      ledger_step l (mkLedger (<[id := (b, v + 1)]> (lg_intents l)) (lg_positions l) (lg_protections l)
                       (lg_log l ++ [IntentMoved id a b (v + 1)]))
  | step_position_projected l id :
      lg_positions l !! id = None ->
      ledger_step l (mkLedger (lg_intents l) (<[id := (POSITION_PROJECTED, 0)]> (lg_positions l)) (lg_protections l)
                       (lg_log l))
  | step_position_moved l id a b v :
      lg_positions l !! id = Some (a, v) -> position_step a b \/ (a = QUARANTINED /\ b = CLOSED) ->
      ledger_step l (mkLedger (lg_intents l) (<[id := (b, v + 1)]> (lg_positions l)) (lg_protections l)
                       (lg_log l ++ [PositionMoved id a b (v + 1)]))
  | step_protection_created l id :
      lg_protections l !! id = None ->
      ledger_step l (mkLedger (lg_intents l) (lg_positions l) (<[id := (PROTECTION_INTENT, 0)]> (lg_protections l))
                       (lg_log l))
  | step_protection_moved l id a b v :
      lg_protections l !! id = Some (a, v) -> protection_step a b ->
      ledger_step l (mkLedger (lg_intents l) (lg_positions l) (<[id := (b, v + 1)]> (lg_protections l))
                       (lg_log l ++ [ProtectionMoved id a b (v + 1)]))
  | step_protection_tightened l id a v :
      lg_protections l !! id = Some (a, v) ->
      ledger_step l (mkLedger (lg_intents l) (lg_positions l) (<[id := (a, v + 1)]> (lg_protections l))
                       (lg_log l ++ [ProtectionTightened id (v + 1)])).

(** ** The ledger of a database *)

Definition find_state {A} (value : A -> string) (all : list A) (v : PyVal) : option A :=
  match v with VStr s => List.find (fun a => String.eqb (value a) s) all | _ => None end.

Definition intent_states : list V2IntentState :=
  [INTENT_CREATED; EXCHANGE_SUBMITTING; EXCHANGE_UNKNOWN; EXCHANGE_ACKNOWLEDGED; FILLED; REJECTED; CANCELLED; EXPIRED].
Definition position_states : list V2PositionState := [POSITION_PROJECTED; PROTECTED; REDUCING; CLOSED; QUARANTINED].
Definition protection_states : list V2ProtectionState :=
  [PROTECTION_INTENT; PROTECTION_SUBMITTING; PROTECTION_ACTIVE; PROTECTION_TRIGGERED; PROTECTION_FILLED;
   PROTECTION_CANCELLED; PROTECTION_FAILED; PROTECTION_UNKNOWN].

Definition movement {A} (value : A -> string) (all : list A) (p : PyDict) : option (A * A * Z) :=
  match find_state value all (py_get p "from_state"), find_state value all (py_get p "to_state"), py_get p "version" with
  | Some a, Some b, VInt v => Some (a, b, v)
  | _, _, _ => None
  end.

(** What an event says about the lifecycle of its aggregate, if anything. *)
Definition entry_of (e : EventRow) : option Entry :=
  let id := ev_aggregate_id e in
  let p := ev_event_payload e in
  match ev_aggregate_type e with
  | AGG_INTENT => '(a, b, v) ← movement intent_state_value intent_states p; Some (IntentMoved id a b v)
  | AGG_POSITION => '(a, b, v) ← movement position_state_value position_states p; Some (PositionMoved id a b v)
  | AGG_PROTECTION =>
      match movement protection_state_value protection_states p with
      | Some (a, b, v) => Some (ProtectionMoved id a b v)
      | None => match py_get p "version" with VInt v => Some (ProtectionTightened id v) | _ => None end
      end
  end.

Definition lifecycles {R A} `{Table R} (state : R -> A * Z) (l : list R) : gmap string (A * Z) :=
  list_to_map (map (fun r => (row_key r, state r)) l).

Definition ledger_of (d : Db) : Ledger :=
  mkLedger (lifecycles (fun i => (it_state i, it_version i)) (intents d))
    (lifecycles (fun p => (mp_state p, mp_version p)) (positions d))
    (lifecycles (fun p => (pt_state p, pt_version p)) (protections d)) (omap entry_of (events d)).

(** ** Lookups and updates of the abstraction *)

Lemma find_last {A} (p : A -> bool) l x :
  List.find p (l ++ [x]) = match List.find p l with Some y => Some y | None => if p x then Some x else None end.
Proof. induction l as [|y l IH]; simpl; [done|]. by destruct (p y). Qed.

Section lifecycles.
Context {R A} {T : Table R} (state : R -> A * Z).

Lemma lifecycles_find l key :
  lifecycles state l !! key = state <$> List.find (fun r => String.eqb (row_key r) key) l.
Proof.
  induction l as [|r l IH]; [done|]. unfold lifecycles. simpl. destruct (String.eqb_spec (row_key r) key) as [->|H].
  - apply lookup_insert_eq.
  - rewrite lookup_insert_ne by done. apply IH.
Qed.

Lemma lifecycles_put (l : list R) r r0 :
  List.find (fun x => String.eqb (row_key x) (row_key r)) l = Some r0 ->
  lifecycles state (map (fun x => if String.eqb (row_key x) (row_key r) then r else x) l) =
  <[row_key r := state r]> (lifecycles state l).
Proof.
  intros H. apply map_eq. intros key. rewrite lifecycles_find.
  destruct (decide (key = row_key r)) as [->|Hk].
  - rewrite lookup_insert_eq. revert H. induction l as [|x l IH]; simpl; [done|].
    destruct (String.eqb (row_key x) (row_key r)) eqn:E; simpl; [intros _; by rewrite String.eqb_refl|rewrite E; auto].
  - rewrite lookup_insert_ne, lifecycles_find by done. clear H. f_equal. induction l as [|x l IH]; simpl; [done|].
    destruct (String.eqb_spec (row_key x) (row_key r)) as [E|E].
    + destruct (String.eqb_spec (row_key r) key); [congruence|]. rewrite E.
      by destruct (String.eqb_spec (row_key r) key).
    + by destruct (String.eqb_spec (row_key x) key).
Qed.

Lemma lifecycles_insert l r :
  lifecycles state (l ++ [r]) = lifecycles state l \/
  (lifecycles state l !! row_key r = None /\ lifecycles state (l ++ [r]) = <[row_key r := state r]> (lifecycles state l)).
Proof.
  destruct (lifecycles state l !! row_key r) as [v|] eqn:E; [left|right; split; [done|]]; apply map_eq; intros key;
    rewrite lifecycles_find in E; rewrite lifecycles_find, find_last.
  - rewrite lifecycles_find. destruct (List.find (fun x => String.eqb (row_key x) key) l) eqn:F; [done|].
    destruct (String.eqb_spec (row_key r) key) as [<-|]; [|done]. by rewrite F in E.
  - destruct (decide (row_key r = key)) as [<-|Hk].
    + rewrite lookup_insert_eq. apply fmap_None in E. rewrite E. by rewrite String.eqb_refl.
    + rewrite lookup_insert_ne by done. rewrite lifecycles_find. clear E. destruct (List.find _ l); [done|].
      by destruct (String.eqb_spec (row_key r) key).
Qed.
End lifecycles.

Lemma find_intent_state a : find_state intent_state_value intent_states (VStr (intent_state_value a)) = Some a.
Proof. by destruct a. Qed.
Lemma find_position_state a : find_state position_state_value position_states (VStr (position_state_value a)) = Some a.
Proof. by destruct a. Qed.
Lemma find_protection_state a :
  find_state protection_state_value protection_states (VStr (protection_state_value a)) = Some a.
Proof. by destruct a. Qed.

Lemma py_get_set d key v k : py_get (dict_set d key v) k = if String.eqb key k then v else py_get d k.
Proof.
  unfold dict_set. destruct (existsb _ d) eqn:E.
  - induction d as [|[k0 v0] d IH]; [done|]. simpl in E |- *. destruct (String.eqb_spec k0 key) as [->|Hk]; simpl.
    + destruct (String.eqb_spec key k); [done|]. clear IH E. induction d as [|[k1 v1] d IH]; [done|]. simpl.
      destruct (String.eqb_spec k1 key) as [->|]; simpl; [by destruct (String.eqb_spec key k)|]. by rewrite IH.
    + rewrite (IH E). destruct (String.eqb_spec k0 k), (String.eqb_spec key k); congruence.
  - induction d as [|[k0 v0] d IH]; simpl; [done|]. simpl in E. apply orb_false_iff in E as [E1 E2].
    rewrite (IH E2). apply String.eqb_neq in E1. destruct (String.eqb_spec k0 k), (String.eqb_spec key k); congruence.
Qed.

Lemma py_get_transition payload a b v :
  py_get (transition_payload payload a b v) "from_state" = VStr a /\
  py_get (transition_payload payload a b v) "to_state" = VStr b /\
  py_get (transition_payload payload a b v) "version" = VInt v.
Proof. unfold transition_payload, dict_update. simpl. by rewrite !py_get_set. Qed.

(** ** Database updates, abstractly *)

Section updates.
Implicit Types d : Db.

Definition moved_intent (id : string) (x : V2IntentState * Z) (l : Ledger) : Ledger :=
  mkLedger (<[id := x]> (lg_intents l)) (lg_positions l) (lg_protections l) (lg_log l).
Definition moved_position (id : string) (x : V2PositionState * Z) (l : Ledger) : Ledger :=
  mkLedger (lg_intents l) (<[id := x]> (lg_positions l)) (lg_protections l) (lg_log l).
Definition moved_protection (id : string) (x : V2ProtectionState * Z) (l : Ledger) : Ledger :=
  mkLedger (lg_intents l) (lg_positions l) (<[id := x]> (lg_protections l)) (lg_log l).
Definition logged (e : list Entry) (l : Ledger) : Ledger :=
  mkLedger (lg_intents l) (lg_positions l) (lg_protections l) (lg_log l ++ e).

Lemma ledger_intent d id i :
  find_row (R := IntentRow) id d = Some i -> lg_intents (ledger_of d) !! id = Some (it_state i, it_version i).
Proof. intros E. simpl. rewrite lifecycles_find. by setoid_rewrite E. Qed.
Lemma ledger_position d id p :
  find_row (R := PositionRow) id d = Some p -> lg_positions (ledger_of d) !! id = Some (mp_state p, mp_version p).
Proof. intros E. simpl. rewrite lifecycles_find. by setoid_rewrite E. Qed.
Lemma ledger_protection d id p :
  find_row (R := ProtectionRow) id d = Some p -> lg_protections (ledger_of d) !! id = Some (pt_state p, pt_version p).
Proof. intros E. simpl. rewrite lifecycles_find. by setoid_rewrite E. Qed.

Lemma ledger_put_intent d i i0 :
  find_row (R := IntentRow) (it_intent_id i) d = Some i0 ->
  ledger_of (put_row i d) = moved_intent (it_intent_id i) (it_state i, it_version i) (ledger_of d).
Proof. intros E. unfold ledger_of, moved_intent. simpl. f_equal. exact (lifecycles_put (fun i => (it_state i, it_version i)) _ i i0 E). Qed.
Lemma ledger_put_position d p p0 :
  find_row (R := PositionRow) (mp_position_id p) d = Some p0 ->
  ledger_of (put_row p d) = moved_position (mp_position_id p) (mp_state p, mp_version p) (ledger_of d).
Proof. intros E. unfold ledger_of, moved_position. simpl. f_equal. exact (lifecycles_put (fun p => (mp_state p, mp_version p)) _ p p0 E). Qed.
Lemma ledger_put_protection d p p0 :
  find_row (R := ProtectionRow) (pt_protection_id p) d = Some p0 ->
  ledger_of (put_row p d) = moved_protection (pt_protection_id p) (pt_state p, pt_version p) (ledger_of d).
Proof. intros E. unfold ledger_of, moved_protection. simpl. f_equal. exact (lifecycles_put (fun p => (pt_state p, pt_version p)) _ p p0 E). Qed.

Lemma ledger_insert_event d e : ledger_of (insert_row e d) = logged (option_list (entry_of e)) (ledger_of d).
Proof.
  unfold ledger_of, logged. simpl. f_equal. rewrite omap_app. simpl. by destruct (entry_of e).
Qed.
End updates.

(** ** Refinement *)

Definition ledger_rel (d d' : Db) : Prop := rtc ledger_step (ledger_of d) (ledger_of d').

#[export] Instance ledger_rel_preorder : PreOrder ledger_rel.
Proof. split; [intros d; apply rtc_refl|]. intros d1 d2 d3 H1 H2. unfold ledger_rel in *. by etrans. Qed.

Lemma ledger_rel_same d d' : ledger_of d' = ledger_of d -> ledger_rel d d'.
Proof. intros E. unfold ledger_rel. rewrite E. apply rtc_refl. Qed.
Lemma ledger_rel_once d d' : ledger_step (ledger_of d) (ledger_of d') -> ledger_rel d d'.
Proof. apply rtc_once. Qed.

Notation refines_at := (moves_at ledger_rel).
Notation refines := (moves ledger_rel).

(** A change of the tables that the ledger does not see. *)
Ltac unseen := apply ledger_rel_same; reflexivity.
Ltac refine1 := move1 unseen.
Ltac refine_all := repeat refine1.

(** ** The movements *)

(** The payload names the movement. *)
Definition names_movement (payload : PyDict) (a b : string) (v : Z) : Prop :=
  py_get payload "from_state" = VStr a /\ py_get payload "to_state" = VStr b /\ py_get payload "version" = VInt v.

Lemma names_transition payload a b v : names_movement (transition_payload payload a b v) a b v.
Proof. apply py_get_transition. Qed.

Lemma intent_movement d id i next name payload event_id t :
  find_row (R := IntentRow) id d = Some i ->
  intent_step (it_state i) next \/ (fill_corrects (it_state i) /\ next = FILLED) ->
  names_movement payload (intent_state_value (it_state i)) (intent_state_value next) (it_version i + 1) ->
  ledger_step (ledger_of d)
    (ledger_of (insert_row (mkEvent event_id id AGG_INTENT name payload t) (put_row (it_moved i next) d))).
Proof.
  intros Ei Hs (E1 & E2 & E3). pose proof (find_row_key _ _ _ Ei) as <-.
  rewrite ledger_insert_event, (ledger_put_intent _ (it_moved i next) i Ei). unfold entry_of.
  cbn [ev_aggregate_type ev_event_payload ev_aggregate_id]. unfold movement. rewrite E1, E2, E3, !find_intent_state.
  by apply (step_intent_moved (ledger_of d) _ (it_state i) next), Hs; apply ledger_intent.
Qed.

Lemma position_movement d id p next pa ca name payload event_id t :
  find_row (R := PositionRow) id d = Some p ->
  position_step (mp_state p) next \/ (mp_state p = QUARANTINED /\ next = CLOSED) ->
  names_movement payload (position_state_value (mp_state p)) (position_state_value next) (mp_version p + 1) ->
  ledger_step (ledger_of d)
    (ledger_of (insert_row (mkEvent event_id id AGG_POSITION name payload t) (put_row (mp_moved p next pa ca) d))).
Proof.
  intros Ep Hs (E1 & E2 & E3). pose proof (find_row_key _ _ _ Ep) as <-.
  rewrite ledger_insert_event, (ledger_put_position _ (mp_moved p next pa ca) p Ep). unfold entry_of.
  cbn [ev_aggregate_type ev_event_payload ev_aggregate_id]. unfold movement. rewrite E1, E2, E3, !find_position_state.
  by apply (step_position_moved (ledger_of d) _ (mp_state p) next), Hs; apply ledger_position.
Qed.

Lemma protection_movement d id p next a name payload event_id t :
  find_row (R := ProtectionRow) id d = Some p -> protection_step (pt_state p) next ->
  names_movement payload (protection_state_value (pt_state p)) (protection_state_value next) (pt_version p + 1) ->
  ledger_step (ledger_of d)
    (ledger_of (insert_row (mkEvent event_id id AGG_PROTECTION name payload t) (put_row (pt_moved p next a) d))).
Proof.
  intros Ep Hs (E1 & E2 & E3). pose proof (find_row_key _ _ _ Ep) as <-.
  rewrite ledger_insert_event, (ledger_put_protection _ (pt_moved p next a) p Ep). unfold entry_of.
  cbn [ev_aggregate_type ev_event_payload ev_aggregate_id]. unfold movement. rewrite E1, E2, E3, !find_protection_state.
  by apply (step_protection_moved (ledger_of d) _ (pt_state p) next), Hs; apply ledger_protection.
Qed.

Section operations.
Context {H : Host}.

Lemma refines_add_intent s i : it_version i = 0 -> refines_at s (add i).
Proof.
  intros E. unfold add. destruct (lifecycles_insert (fun i => (it_state i, it_version i)) (intents (s_db s)) i) as [E1|[E1 E2]].
  - apply moves_db, ledger_rel_same. unfold ledger_of. simpl. by rewrite E1.
  - apply moves_db, ledger_rel_once. unfold ledger_of at 2. simpl. rewrite E2, E. by apply (step_intent_created (ledger_of (s_db s))).
Qed.
Lemma refines_add_position s p : mp_state p = POSITION_PROJECTED -> mp_version p = 0 -> refines_at s (add p).
Proof.
  intros Es E. unfold add.
  destruct (lifecycles_insert (fun p => (mp_state p, mp_version p)) (positions (s_db s)) p) as [E1|[E1 E2]].
  - apply moves_db, ledger_rel_same. unfold ledger_of. simpl. by rewrite E1.
  - apply moves_db, ledger_rel_once. unfold ledger_of at 2. simpl. rewrite E2, E, Es.
    by apply (step_position_projected (ledger_of (s_db s))).
Qed.
Lemma refines_add_protection s p : pt_state p = PROTECTION_INTENT -> pt_version p = 0 -> refines_at s (add p).
Proof.
  intros Es E. unfold add.
  destruct (lifecycles_insert (fun p => (pt_state p, pt_version p)) (protections (s_db s)) p) as [E1|[E1 E2]].
  - apply moves_db, ledger_rel_same. unfold ledger_of. simpl. by rewrite E1.
  - apply moves_db, ledger_rel_once. unfold ledger_of at 2. simpl. rewrite E2, E, Es.
    by apply (step_protection_created (ledger_of (s_db s))).
Qed.

(** A new value of a row that keeps its state and version. *)
Lemma refines_assign_position s p p0 :
  find_row (mp_position_id p0) (s_db s) = Some p0 -> mp_position_id p = mp_position_id p0 ->
  mp_state p = mp_state p0 -> mp_version p = mp_version p0 -> refines_at s (assign p).
Proof.
  intros E0 Ek Es Ev. apply moves_db, ledger_rel_same. rewrite (ledger_put_position _ p p0) by (by rewrite Ek).
  unfold moved_position. rewrite insert_id; [done|]. rewrite Ek, Es, Ev. by apply ledger_position.
Qed.
Lemma refines_assign_protection s p p0 :
  find_row (pt_protection_id p0) (s_db s) = Some p0 -> pt_protection_id p = pt_protection_id p0 ->
  pt_state p = pt_state p0 -> pt_version p = pt_version p0 -> refines_at s (assign p).
Proof.
  intros E0 Ek Es Ev. apply moves_db, ledger_rel_same. rewrite (ledger_put_protection _ p p0) by (by rewrite Ek).
  unfold moved_protection. rewrite insert_id; [done|]. rewrite Ek, Es, Ev. by apply ledger_protection.
Qed.

(** An event that names no movement. *)
Lemma refines_append s id ty name payload t :
  (forall e, entry_of (mkEvent e id ty name payload t) = None) -> refines_at s (append_event id ty name payload t).
Proof.
  intros E. apply moves_quiet; [exact _|by apply quiet_same|]. intros event_id s1 _.
  apply moves_bind; [exact _| |intros; refine_all]. apply moves_db, ledger_rel_same. rewrite ledger_insert_event, E.
  unfold logged. simpl. by rewrite app_nil_r.
Qed.

Lemma create_cycle_refines a b c d e f : refines (create_cycle a b c d e f).
Proof. intros s. unfold create_cycle. refine_all. Qed.
Lemma complete_cycle_refines a b c : refines (complete_cycle a b c).
Proof. intros s. unfold complete_cycle. refine_all. Qed.
Lemma create_decision_refines a b c d e : refines (create_decision a b c d e).
Proof. intros s. unfold create_decision. refine_all. Qed.
Lemma create_intent_refines a b c d e f g h i j k l : refines (create_intent a b c d e f g h i j k l).
Proof. intros s. unfold create_intent. refine_all. by apply refines_add_intent. Qed.

Lemma transition_intent_refines a b c d e f : refines (transition_intent a b c d e f).
Proof.
  intros s. unfold transition_intent. refine1. refine1. refine1. apply moves_validate; [exact _|]. intros Hv.
  apply moves_movement; [exact _| |intros; refine_all]. intros. apply ledger_rel_once, intent_movement; [done|by left|].
  apply names_transition.
Qed.

Lemma reconcile_intent_refines a : refines (reconcile_intent_from_confirmed_fill a).
Proof.
  intros s. unfold reconcile_intent_from_confirmed_fill. refine1. refine1. refine1. refine1. refine1. refine1. refine1.
  { refine_all. }
  apply moves_asserted; [exact _|]. intros Hb%bool_decide_eq_true.
  apply (moves_movement _ _ _ None); [|intros; refine_all]. intros. apply ledger_rel_once, intent_movement; [done|by right|done].
Qed.

Lemma save_order_submission_refines a b c d e : refines (save_order_submission a b c d e).
Proof. intros s. unfold save_order_submission. refine_all. Qed.
Lemma save_exchange_order_receipt_refines a b c : refines (save_exchange_order_receipt a b c).
Proof. intros s. unfold save_exchange_order_receipt. refine_all. Qed.
Lemma refresh_refines a : refines (_refresh_order_aggregate_from_fills a).
Proof. intros s. unfold _refresh_order_aggregate_from_fills, _aggregate_fills. refine_all. Qed.
Lemma save_exchange_fill_receipt_refines a b c d e f g h i j k l m n o q :
  refines (save_exchange_fill_receipt a b c d e f g h i j k l m n o q).
Proof.
  intros s. unfold save_exchange_fill_receipt. repeat first [apply refresh_refines | refine1].
Qed.
Lemma get_exchange_fill_by_trade_refines a b : refines (get_exchange_fill_by_trade a b).
Proof. intros s. unfold get_exchange_fill_by_trade. refine_all. Qed.
Lemma save_order_level_fill_recovery_refines a b c d e f g h i j k :
  refines (save_order_level_fill_recovery a b c d e f g h i j k).
Proof.
  intros s. unfold save_order_level_fill_recovery. refine1. refine1; [refine_all|apply save_exchange_fill_receipt_refines].
Qed.
Lemma spread_fills_refines save total per l :
  (forall t q, refines (save t q)) -> forall allocated, refines (spread_fills save total per allocated l).
Proof.
  intros Hs. induction l as [|t l IH]; intros allocated s; [by apply moves_ret; exact _|]. cbn [spread_fills].
  apply moves_bind; [exact _|apply Hs|]. intros. apply IH.
Qed.
Lemma save_fill_receipt_refines a b c d e f : refines (save_fill_receipt a b c d e f).
Proof.
  intros s. unfold save_fill_receipt. repeat first [apply spread_fills_refines; intros ? ? ? | apply save_exchange_fill_receipt_refines | refine1].
Qed.
Lemma project_confirmed_refines a b c d e f g h : refines (project_position_from_confirmed_fills a b c d e f g h).
Proof.
  intros s. unfold project_position_from_confirmed_fills, _aggregate_fills.
  repeat first [by apply refines_add_position | by eapply refines_assign_position
    | apply moves_scalar_position; [exact _| |intros] | refine1].
Qed.

Lemma reconcile_position_quantity_refines a b c :
  refines (reconcile_position_quantity_from_authoritative_snapshot a b c).
Proof.
  intros s. unfold reconcile_position_quantity_from_authoritative_snapshot.
  do 3 refine1. refine1; [refine_all|]. apply moves_bind; [exact _| |].
  - match goal with E : find_row _ _ = Some ?p |- _ =>
      apply (refines_assign_position _ _ p); [exact (find_row_self _ _ _ E)|done..] end.
  - intros. apply moves_bind; [exact _|by apply refines_append|]. intros. refine_all.
Qed.

Lemma transition_position_refines a b c d e f : refines (transition_position a b c d e f).
Proof.
  intros s. unfold transition_position. do 3 refine1. apply moves_validate; [exact _|]. intros Hv. do 2 refine1.
  apply moves_movement; [exact _| |intros; refine_all]. intros. apply ledger_rel_once, position_movement; [done|by left|].
  apply names_transition.
Qed.

Lemma project_position_refines a b c d e f g h i : refines (project_position a b c d e f g h i).
Proof.
  intros s. unfold project_position.
  repeat first [apply project_confirmed_refines | apply transition_position_refines | refine1].
Qed.

Lemma repair_quarantined_refines a b c d : refines (repair_quarantined_position_from_confirmed_exit a b c d).
Proof.
  intros s. unfold repair_quarantined_position_from_confirmed_exit. refine1. refine1.
  apply moves_asserted; [exact _|]. intros Hq%bool_decide_eq_true. do 6 refine1.
  apply moves_movement_at; [exact _| |intros; refine_all]. intros. apply ledger_rel_once, position_movement; [done|by right|].
  rewrite Hq. unfold names_movement, dict_update. simpl. by rewrite !py_get_set.
Qed.

Lemma finalize_quarantined_refines a b c d e f g h i j k l :
  refines (finalize_quarantined_historical_attribution a b c d e f g h i j k l).
Proof.
  intros s. unfold finalize_quarantined_historical_attribution. do 3 refine1. refine1; [refine_all|].
  apply moves_asserted; [exact _|]. intros Hq%bool_decide_eq_true. do 2 refine1.
  apply moves_movement_at; [exact _| |intros; refine_all]. intros. apply ledger_rel_once, position_movement; [done|by right|].
  by rewrite Hq.
Qed.

Lemma save_protection_refines a b c d e f g h i j k : refines (save_protection a b c d e f g h i j k).
Proof.
  intros s. unfold save_protection. apply moves_asserted; [exact _|]. intros ->%bool_decide_eq_true.
  repeat first [by apply refines_add_protection | refine1].
Qed.

Lemma update_protection_stop_refines a b c d e : refines (update_protection_stop a b c d e).
Proof.
  intros s. unfold update_protection_stop. do 2 refine1. apply moves_movement; [exact _| |intros; refine_all]. intros.
  match goal with E : find_row _ _ = Some ?p |- _ => rename E into Ep; rename p into pr end.
  pose proof (find_row_key _ _ _ Ep) as Hk. change (pt_protection_id pr = a) in Hk. apply ledger_rel_once.
  rewrite ledger_insert_event, (ledger_put_protection _ _ pr) by (simpl; by rewrite Hk).
  simpl. rewrite Hk. apply (step_protection_tightened (ledger_of (s_db s))). by apply ledger_protection.
Qed.

Lemma transition_protection_refines a b c d e f : refines (transition_protection a b c d e f).
Proof.
  intros s. unfold transition_protection. do 3 refine1. apply moves_validate; [exact _|]. intros Hv.
  apply moves_quiet; [exact _|by apply quiet_if; apply quiet_same|carry]. refine1.
  apply moves_movement; [exact _| |intros; refine_all]. intros. apply ledger_rel_once, protection_movement; [done|done|].
  apply names_transition.
Qed.

Lemma update_protection_active_refines a b c d : refines (update_protection_active a b c d).
Proof.
  intros s. unfold update_protection_active. do 3 refine1. apply moves_bind; [exact _| |].
  { match goal with E : find_row _ _ = Some ?p |- _ =>
      apply (refines_assign_protection _ _ p); [exact (find_row_self _ _ _ E)|done..] end. }
  intros. repeat first [apply transition_protection_refines | refine1].
Qed.

Lemma record_reconciliation_refines a b c d e f g h : refines (record_reconciliation a b c d e f g h).
Proof. intros s. unfold record_reconciliation. refine_all. Qed.
Lemma record_incident_refines a b c d e f g : refines (record_incident a b c d e f g).
Proof. intros s. unfold record_incident. refine_all. Qed.
Lemma resolve_all_refines t l : refines (resolve_all t l).
Proof. induction l as [|i l IH]; intros s; cbn [resolve_all]; refine_all. apply IH. Qed.
Lemma resolve_incidents_refines t : refines (resolve_reconciliation_incidents t).
Proof.
  intros s. unfold resolve_reconciliation_incidents. refine1. apply moves_bind; [exact _|apply resolve_all_refines|].
  intros. refine_all.
Qed.
Lemma get_runtime_control_refines a : refines (get_runtime_control a).
Proof. intros s. unfold get_runtime_control. refine_all. Qed.
Lemma set_runtime_control_refines a b c d e : refines (set_runtime_control a b c d e).
Proof.
  intros s. unfold set_runtime_control. apply moves_bind; [exact _|apply get_runtime_control_refines|]. intros. refine_all.
Qed.
Lemma ensure_runtime_control_refines a b c d : refines (ensure_runtime_control a b c d).
Proof.
  intros s. unfold ensure_runtime_control. refine1. refine1; [refine_all|].
  intros r s'. unfold sbind, read_db, server_now, stry, add, on_db, smodify, flush, sret, sraise, get. cbn [s_db s_committed s_draws].
  destruct (constraints_ok _); cbn [s_db s_committed s_draws]; [|destruct (find_row _ _)]; intros [= <- <-]; split; try done; left; apply rtc_refl.
Qed.
Lemma compare_and_set_refines a b c d e f g : refines (compare_and_set_runtime_control a b c d e f g).
Proof. intros s. unfold compare_and_set_runtime_control. refine_all. Qed.
Lemma list_exposures_refines a : refines (list_active_initial_risk_exposures a).
Proof. intros s. unfold list_active_initial_risk_exposures. refine_all. Qed.
End operations.

(** ** The specification of the repository *)

Section specification.
Context {H : Host}.

(** The operations of [AutomatedTradingRepository]; those of [op_of false] do not write the
    switch of new entries, except that a missing row is created. *)
Inductive op_of : bool -> forall A : Type, SM Session A -> Prop :=
  | op_append_event {writes} a id name payload t :
      (forall e, entry_of (mkEvent e id a name payload t) = None) ->
      op_of writes string (append_event id a name payload t)
  | op_create_cycle {writes} a b c d e f : op_of writes unit (create_cycle a b c d e f)
  | op_complete_cycle {writes} a b c : op_of writes unit (complete_cycle a b c)
  | op_create_decision {writes} a b c d e : op_of writes unit (create_decision a b c d e)
  | op_create_intent {writes} a b c d e f g h i j k l : op_of writes unit (create_intent a b c d e f g h i j k l)
  | op_transition_intent {writes} a b c d e f : op_of writes unit (transition_intent a b c d e f)
  | op_reconcile_intent {writes} a : op_of writes unit (reconcile_intent_from_confirmed_fill a)
  | op_save_order_submission {writes} a b c d e : op_of writes string (save_order_submission a b c d e)
  | op_save_exchange_order_receipt {writes} a b c : op_of writes unit (save_exchange_order_receipt a b c)
  | op_save_exchange_fill_receipt {writes} a b c d e f g h i j k l m n o q :
      op_of writes string (save_exchange_fill_receipt a b c d e f g h i j k l m n o q)
  | op_get_exchange_fill_by_trade {writes} a b : op_of writes (option FillRow) (get_exchange_fill_by_trade a b)
  | op_save_order_level_fill_recovery {writes} a b c d e f g h i j k :
      op_of writes string (save_order_level_fill_recovery a b c d e f g h i j k)
  | op_save_fill_receipt {writes} a b c d e f : op_of writes unit (save_fill_receipt a b c d e f)
  | op_project_confirmed {writes} a b c d e f g h : op_of writes unit (project_position_from_confirmed_fills a b c d e f g h)
  | op_reconcile_quantity {writes} a b c :
      op_of writes unit (reconcile_position_quantity_from_authoritative_snapshot a b c)
  | op_transition_position {writes} a b c d e f : op_of writes unit (transition_position a b c d e f)
  | op_project_position {writes} a b c d e f g h i : op_of writes unit (project_position a b c d e f g h i)
  | op_repair_quarantined {writes} a b c d : op_of writes unit (repair_quarantined_position_from_confirmed_exit a b c d)
  | op_finalize_quarantined {writes} a b c d e f g h i j k l :
      op_of writes unit (finalize_quarantined_historical_attribution a b c d e f g h i j k l)
  | op_save_protection {writes} a b c d e f g h i j k : op_of writes unit (save_protection a b c d e f g h i j k)
  | op_update_protection_stop {writes} a b c d e : op_of writes unit (update_protection_stop a b c d e)
  | op_transition_protection {writes} a b c d e f : op_of writes unit (transition_protection a b c d e f)
  | op_update_protection_active {writes} a b c d : op_of writes unit (update_protection_active a b c d)
  | op_record_reconciliation {writes} a b c d e f g h : op_of writes string (record_reconciliation a b c d e f g h)
  | op_record_incident {writes} a b c d e f g : op_of writes string (record_incident a b c d e f g)
  | op_resolve_incidents {writes} t : op_of writes Z (resolve_reconciliation_incidents t)
  | op_get_runtime_control {writes} a : op_of writes ControlRow (get_runtime_control a)
  | op_set_runtime_control a b c d e : op_of true ControlRow (set_runtime_control a b c d e)
  | op_ensure_runtime_control {writes} a b c d : op_of writes ControlRow (ensure_runtime_control a b c d)
  | op_compare_and_set a b c d e f g : op_of true bool (compare_and_set_runtime_control a b c d e f g)
  | op_list_exposures {writes} a : op_of writes (list RiskExposure * bool) (list_active_initial_risk_exposures a)
  | op_get_open_positions {writes} a b : op_of writes (list PositionRow) (get_open_positions a b)
  | op_list_unknown {writes} a : op_of writes (list IntentRow) (list_exchange_unknown_intents a)
  | op_get_position {writes} a : op_of writes (option PositionRow) (get_position_by_id a).

(** All of them. *)
Notation repository_op := (op_of true).

Lemma repository_op_refines {writes} A (m : SM Session A) : op_of writes A m -> refines m.
Proof.
  destruct 1; intros s.
  - by apply refines_append.
  - apply create_cycle_refines.
  - apply complete_cycle_refines.
  - apply create_decision_refines.
  - apply create_intent_refines.
  - apply transition_intent_refines.
  - apply reconcile_intent_refines.
  - apply save_order_submission_refines.
  - apply save_exchange_order_receipt_refines.
  - apply save_exchange_fill_receipt_refines.
  - apply get_exchange_fill_by_trade_refines.
  - apply save_order_level_fill_recovery_refines.
  - apply save_fill_receipt_refines.
  - apply project_confirmed_refines.
  - apply reconcile_position_quantity_refines.
  - apply transition_position_refines.
  - apply project_position_refines.
  - apply repair_quarantined_refines.
  - apply finalize_quarantined_refines.
  - apply save_protection_refines.
  - apply update_protection_stop_refines.
  - apply transition_protection_refines.
  - apply update_protection_active_refines.
  - apply record_reconciliation_refines.
  - apply record_incident_refines.
  - apply resolve_incidents_refines.
  - apply get_runtime_control_refines.
  - apply set_runtime_control_refines.
  - apply ensure_runtime_control_refines.
  - apply compare_and_set_refines.
  - apply list_exposures_refines.
  - apply quiet_moves; [exact _|]. apply quiet_select.
  - apply quiet_moves; [exact _|]. apply quiet_select.
  - apply quiet_moves; [exact _|]. by apply quiet_same.
Qed.

(** What a session may do: an operation, however it ends; a commit; a rollback,
    which is also what closing a session does. *)
Inductive session_step : Session -> Session -> Prop :=
  | session_op A (m : SM Session A) s r s' : repository_op A m -> m s = (r, s') -> session_step s s'
  | session_commit s r s' : commit s = (r, s') -> session_step s s'
  | session_rollback s r s' : rollback s = (r, s') -> session_step s s'.

Lemma session_run_ahead rel `{!PreOrder rel} s s' :
  (forall A (m : SM Session A), repository_op A m -> moves rel m) ->
  rtc session_step s s' -> ahead rel s -> ahead rel s' /\ rel (s_committed s) (s_committed s').
Proof.
  intros Hops. induction 1 as [s|s s1 s' H1 _ IH]; intros Ha; [split; [done|reflexivity]|].
  assert (ahead rel s1 /\ rel (s_committed s) (s_committed s1)) as [Ha1 Hc1].
  { destruct H1 as [A m s r s1 Hop Hm|s r s1 Hm|s r s1 Hm].
    - eapply moves_advance; [exact _|by apply (Hops A m)|done|exact Hm].
    - by eapply advances_commit.
    - by eapply advances_rollback. }
  destruct (IH Ha1) as [Ha' Hc]. split; [done|]. by etrans.
Qed.

Definition lg (s : Session) : Ledger := ledger_of (s_db s).
Definition committed_lg (s : Session) : Ledger := ledger_of (s_committed s).

(** A run given by its calls. *)
Record Call := mkCall { call_type : Type; call_program : SM Session call_type; call_op : repository_op call_type call_program }.
Definition run_calls (l : list Call) (s : Session) : Session := foldl (fun s c => (call_program c s).2) s l.

Lemma run_calls_steps l s : rtc session_step s (run_calls l s).
Proof.
  revert s. induction l as [|c l IH]; intros s; [apply rtc_refl|]. eapply rtc_l; [|apply IH].
  eapply (session_op _ (call_program c)); [apply call_op|apply surjective_pairing].
Qed.
Lemma run_commit_steps s s1 : rtc session_step s s1 -> rtc session_step s (commit s1).2.
Proof. intros Hs. eapply rtc_r; [exact Hs|]. eapply session_commit, surjective_pairing. Qed.

(** C22. The repository implements the ledger. *)
Theorem repository_refines_ledger s s' :
  rtc ledger_step (committed_lg s) (lg s) -> rtc session_step s s' ->
  rtc ledger_step (committed_lg s) (committed_lg s') /\ rtc ledger_step (committed_lg s') (lg s').
Proof. intros Ha Hs. by destruct (session_run_ahead ledger_rel s s' repository_op_refines Hs Ha). Qed.
End specification.

(** ** The event table is the log of every lifecycle *)

(** A movement of one aggregate: its states when the entry names them, and the
    version it gives. *)
Definition Move (A : Type) : Type := option (A * A) * Z.

Definition intent_move (id : string) (e : Entry) : option (Move V2IntentState) :=
  match e with IntentMoved id' a b v => if String.eqb id' id then Some (Some (a, b), v) else None | _ => None end.
Definition position_move (id : string) (e : Entry) : option (Move V2PositionState) :=
  match e with PositionMoved id' a b v => if String.eqb id' id then Some (Some (a, b), v) else None | _ => None end.
Definition protection_move (id : string) (e : Entry) : option (Move V2ProtectionState) :=
  match e with
  | ProtectionMoved id' a b v => if String.eqb id' id then Some (Some (a, b), v) else None
  | ProtectionTightened id' v => if String.eqb id' id then Some (None, v) else None
  | _ => None
  end.

(** Replay of the moves of one aggregate: each continues where the previous one
    ended, and counts one version. *)
Definition replay1 {A} `{EqDecision A} (x : A * Z) (m : Move A) : option (A * Z) :=
  if m.2 =? x.2 + 1 then
    match m.1 with
    | Some (a, b) => if bool_decide (a = x.1) then Some (b, m.2) else None
    | None => Some (x.1, m.2)
    end
  else None.
Definition replay {A} `{EqDecision A} (x : A * Z) (l : list (Move A)) : option (A * Z) :=
  foldl (fun o m => x ← o; replay1 x m) (Some x) l.

Definition legal_entry (e : Entry) : Prop :=
  match e with
  | IntentMoved _ a b _ => intent_step a b \/ (fill_corrects a /\ b = FILLED)
  | PositionMoved _ a b _ => position_step a b \/ (a = QUARANTINED /\ b = CLOSED)
  | ProtectionMoved _ a b _ => protection_step a b
  | ProtectionTightened _ _ => True
  end.

Section replays.
Context {A : Type} `{EqDecision A}.

Lemma replay_app (x : A * Z) l m : replay x (l ++ [m]) = y ← replay x l; replay1 y m.
Proof. unfold replay. by rewrite foldl_app. Qed.

Lemma replay_version (x y : A * Z) l : replay x l = Some y -> y.2 = x.2 + Z.of_nat (length l).
Proof.
  revert y. induction l as [|m l IH] using rev_ind; intros y.
  - intros [= <-]. simpl. lia.
  - rewrite replay_app, length_app. destruct (replay x l) as [z|]; [|done]. simpl. intros E.
    specialize (IH z eq_refl). unfold replay1 in E. destruct (Z.eqb_spec m.2 (z.2 + 1)); [|done].
    assert (y.2 = m.2) as -> by (destruct m.1 as [[a b]|]; [case_bool_decide; [|done]|]; by injection E as <-). lia.
Qed.

Context (move : string -> Entry -> option (Move A)) (init : A -> Prop).

(** The table agrees with the log. *)
Definition faithful (m : gmap string (A * Z)) (log : list Entry) : Prop :=
  forall id, match m !! id with
    | None => omap (move id) log = []
    | Some x => exists a, init a /\ replay (a, 0) (omap (move id) log) = Some x
    end.

Lemma faithful_create m log id a : m !! id = None -> init a -> faithful m log -> faithful (<[id := (a, 0)]> m) log.
Proof.
  intros E Ha Hf id'. specialize (Hf id'). destruct (decide (id = id')) as [<-|Hne].
  - rewrite lookup_insert_eq. rewrite E in Hf. rewrite Hf. by exists a.
  - by rewrite lookup_insert_ne.
Qed.

Lemma faithful_other m log e : (forall id, move id e = None) -> faithful m log -> faithful m (log ++ [e]).
Proof.
  intros He Hf id. specialize (Hf id). rewrite omap_app. simpl. rewrite He, app_nil_r. done.
Qed.

Lemma faithful_move m log e id x y mv :
  m !! id = Some x -> (forall id', move id' e = if String.eqb id id' then Some mv else None) ->
  replay1 x mv = Some y -> faithful m log -> faithful (<[id := y]> m) (log ++ [e]).
Proof.
  intros E He Hr Hf id'. specialize (Hf id'). rewrite omap_app. simpl. rewrite He.
  destruct (String.eqb_spec id id') as [<-|Hne].
  - rewrite lookup_insert_eq. rewrite E in Hf. destruct Hf as (a & Ha & Hf). exists a. split; [done|].
    rewrite replay_app, Hf. simpl. done.
  - rewrite lookup_insert_ne by done. by rewrite app_nil_r.
Qed.
End replays.

Definition faithful_ledger (l : Ledger) : Prop :=
  faithful intent_move (fun _ => True) (lg_intents l) (lg_log l) /\
  faithful position_move (fun a => a = POSITION_PROJECTED) (lg_positions l) (lg_log l) /\
  faithful protection_move (fun a => a = PROTECTION_INTENT) (lg_protections l) (lg_log l) /\
  Forall legal_entry (lg_log l).

Lemma replay1_moved {A} `{EqDecision A} (a b : A) v : replay1 (a, v) (Some (a, b), v + 1) = Some (b, v + 1).
Proof. unfold replay1. simpl. by rewrite Z.eqb_refl, bool_decide_eq_true_2. Qed.

Lemma faithful_step l l' : ledger_step l l' -> faithful_ledger l -> faithful_ledger l'.
Proof.
  intros Hs (Hi & Hp & Ht & Hl). unfold faithful_ledger.
  destruct Hs as [l id s E|l id a b v E Hab|l id E|l id a b v E Hab|l id E|l id a b v E Hab|l id a v E]; simpl;
    rewrite ?Forall_app, ?Forall_singleton; repeat split; try done;
    try (by apply faithful_create); try (by apply faithful_other).
  - eapply faithful_move; [exact E|intros; reflexivity|apply replay1_moved|done].
  - eapply faithful_move; [exact E|intros; reflexivity|apply replay1_moved|done].
  - eapply faithful_move; [exact E|intros; reflexivity|apply replay1_moved|done].
  - eapply faithful_move; [exact E|intros; reflexivity| |done]. unfold replay1. simpl. by rewrite Z.eqb_refl.
Qed.

Lemma faithful_empty : faithful_ledger empty_ledger.
Proof. repeat split; try constructor; intros id; by rewrite lookup_empty. Qed.

(** ** What is settled stays settled *)

Definition settled_intent (a : V2IntentState) : Prop := a = FILLED \/ a = REJECTED.
Definition settled_protection (a : V2ProtectionState) : Prop := a = PROTECTION_FILLED \/ a = PROTECTION_CANCELLED.

(** The rows of [l] whose state satisfies [P] are in the same state in [l']. *)
Definition kept {A} (P : A -> Prop) (m m' : gmap string (A * Z)) : Prop :=
  forall id a v, m !! id = Some (a, v) -> exists b v', m' !! id = Some (b, v') /\ (P a -> b = a).

Lemma kept_refl {A} (P : A -> Prop) m : kept P m m.
Proof. intros id a v E. by exists a, v. Qed.
Lemma kept_trans {A} (P : A -> Prop) m1 m2 m3 : kept P m1 m2 -> kept P m2 m3 -> kept P m1 m3.
Proof.
  intros H1 H2 id a v E. destruct (H1 id a v E) as (b & v1 & E1 & Hb).
  destruct (H2 id b v1 E1) as (c & v2 & E2 & Hc). exists c, v2. split; [done|]. intros Ha.
  rewrite Hc; [by apply Hb|]. by rewrite Hb.
Qed.
Lemma kept_insert {A} (P : A -> Prop) m id b v :
  (forall a w, m !! id = Some (a, w) -> P a -> b = a) -> kept P m (<[id := (b, v)]> m).
Proof.
  intros Hb id' a w E. destruct (decide (id = id')) as [<-|Hne].
  - rewrite lookup_insert_eq. exists b, v. split; [done|]. by eapply Hb.
  - rewrite lookup_insert_ne by done. by exists a, w.
Qed.

Definition kept_ledger (l l' : Ledger) : Prop :=
  kept settled_intent (lg_intents l) (lg_intents l') /\
  kept (fun a => a = CLOSED) (lg_positions l) (lg_positions l') /\
  kept settled_protection (lg_protections l) (lg_protections l').

Lemma kept_ledger_step l l' : ledger_step l l' -> kept_ledger l l'.
Proof.
  intros Hs. unfold kept_ledger.
  destruct Hs as [l id s E|l id a b v E Hab|l id E|l id a b v E Hab|l id E|l id a b v E Hab|l id a v E]; simpl;
    repeat split; try apply kept_refl; apply kept_insert; intros a' w E'; rewrite E in E'; simplify_eq.
  - unfold fill_corrects in Hab. intros [-> | ->]; destruct Hab as [Hab|[Hab _]]; step_cases; done.
  - intros ->; destruct Hab as [Hab|[? _]]; step_cases; done.
  - intros [-> | ->]; step_cases; done.
  - done.
Qed.

Lemma kept_ledger_steps l l' : rtc ledger_step l l' -> kept_ledger l l'.
Proof.
  induction 1 as [l|l l1 l' H1%kept_ledger_step _ IH]; [repeat split; apply kept_refl|].
  destruct H1 as (? & ? & ?), IH as (? & ? & ?). repeat split; by eapply kept_trans.
Qed.

(** ** The claims *)

Section claims.
Context {H : Host}.

(** A session opened on an empty database. *)
Definition new_session : Session := mkSession empty_db empty_db 0.

Lemma new_session_ahead rel `{!PreOrder rel} : ahead rel new_session.
Proof. unfold ahead. reflexivity. Qed.

Lemma run_faithful s : rtc session_step new_session s -> faithful_ledger (committed_lg s) /\ faithful_ledger (lg s).
Proof.
  intros Hs. destruct (session_run_ahead ledger_rel _ _ repository_op_refines Hs (new_session_ahead _)) as [Ha Hc].
  assert (faithful_ledger (committed_lg s)) as Hf.
  { eapply (rtc_closed ledger_step faithful_ledger); [intros a b Hf Hab; by eapply faithful_step|exact Hc|].
    apply faithful_empty. }
  split; [done|]. eapply (rtc_closed ledger_step faithful_ledger); [intros a b Hf' Hab; by eapply faithful_step|exact Ha|done].
Qed.

(** The moves of an aggregate in the event table. *)
Definition moves_of {A} (move : string -> Entry -> option (Move A)) (id : string) (d : Db) : list (Move A) :=
  omap (move id) (omap entry_of (events d)).

(** A row of [d] is where the replay of its events ends. *)
Definition event_sourced (d : Db) : Prop :=
  (forall id i, find_row (R := IntentRow) id d = Some i -> exists a,
     replay (a, 0) (moves_of intent_move id d) = Some (it_state i, it_version i)) /\
  (forall id p, find_row (R := PositionRow) id d = Some p ->
     replay (POSITION_PROJECTED, 0) (moves_of position_move id d) = Some (mp_state p, mp_version p)) /\
  (forall id p, find_row (R := ProtectionRow) id d = Some p ->
     replay (PROTECTION_INTENT, 0) (moves_of protection_move id d) = Some (pt_state p, pt_version p)) /\
  Forall legal_entry (omap entry_of (events d)).

Lemma faithful_event_sourced d : faithful_ledger (ledger_of d) -> event_sourced d.
Proof.
  intros (Hi & Hp & Ht & Hl). repeat split; try done; intros id x E.
  - specialize (Hi id). rewrite (ledger_intent _ _ _ E) in Hi. destruct Hi as (a & _ & Hi). by exists a.
  - specialize (Hp id). rewrite (ledger_position _ _ _ E) in Hp. by destruct Hp as (a & -> & Hp).
  - specialize (Ht id). rewrite (ledger_protection _ _ _ E) in Ht. by destruct Ht as (a & -> & Ht).
Qed.

(** C23. Whatever a session does, the tables it sees and the committed ones are the
    replay of their event log, and every logged movement was legal. *)
Theorem tables_replay_their_events s :
  rtc session_step new_session s -> event_sourced (s_committed s) /\ event_sourced (s_db s).
Proof. intros [Hc Hd]%run_faithful. split; by apply faithful_event_sourced. Qed.

Lemma found_in_ledger d id :
  (forall a v, lg_intents (ledger_of d) !! id = Some (a, v) ->
     exists i, find_row (R := IntentRow) id d = Some i /\ it_state i = a) /\
  (forall a v, lg_positions (ledger_of d) !! id = Some (a, v) ->
     exists p, find_row (R := PositionRow) id d = Some p /\ mp_state p = a) /\
  (forall a v, lg_protections (ledger_of d) !! id = Some (a, v) ->
     exists p, find_row (R := ProtectionRow) id d = Some p /\ pt_state p = a).
Proof.
  repeat split; intros a v; simpl; rewrite lifecycles_find; intros (r & E & Er)%fmap_Some;
    injection Er as -> ->; by exists r.
Qed.

(** C25. A committed row stays, and once settled never changes its state again. *)
Theorem settled_rows_are_final s s' id :
  ahead ledger_rel s -> rtc session_step s s' ->
  (forall i, find_row (R := IntentRow) id (s_committed s) = Some i -> exists i',
     find_row (R := IntentRow) id (s_committed s') = Some i' /\ (settled_intent (it_state i) -> it_state i' = it_state i)) /\
  (forall p, find_row (R := PositionRow) id (s_committed s) = Some p -> exists p',
     find_row (R := PositionRow) id (s_committed s') = Some p' /\ (mp_state p = CLOSED -> mp_state p' = CLOSED)) /\
  (forall p, find_row (R := ProtectionRow) id (s_committed s) = Some p -> exists p',
     find_row (R := ProtectionRow) id (s_committed s') = Some p' /\
     (settled_protection (pt_state p) -> pt_state p' = pt_state p)).
Proof.
  intros Ha Hs. destruct (session_run_ahead ledger_rel s s' repository_op_refines Hs Ha) as [_ Hc]. apply kept_ledger_steps in Hc as (Hi & Hp & Ht).
  destruct (found_in_ledger (s_committed s') id) as (Fi & Fp & Ft). repeat split; intros r E.
  - destruct (Hi id _ _ (ledger_intent _ _ _ E)) as (b & v & [i' [E' <-]]%Fi & Hb). eauto.
  - destruct (Hp id _ _ (ledger_position _ _ _ E)) as (b & v & [p' [E' <-]]%Fp & Hb). exists p'. split; [done|].
    intros Hcl. rewrite <- Hcl. by apply Hb.
  - destruct (Ht id _ _ (ledger_protection _ _ _ E)) as (b & v & [p' [E' <-]]%Ft & Hb). eauto.
Qed.
End claims.

(** ** An entry, recorded *)

#[local] Instance demo_host : Host := {| uuid4 n := pretty n; clock n := Z.of_nat n * 1000000 |}.

(** An intent submitted, acknowledged and filled; its position projected. *)
Definition demo_entry : list Call := [
  mkCall _ _ (op_create_intent "i1" "c1" "BTCUSDT" "long" "k" PRIMARY LOCAL_PAPER 0 None INTENT_CREATED None
                (Some (dint 5)));
  mkCall _ _ (op_transition_intent "i1" INTENT_CREATED EXCHANGE_SUBMITTING "Submitting" [] None);
  mkCall _ _ (op_save_order_submission "i1" "cid" (dint 2) 3 10);
  mkCall _ _ (op_save_exchange_order_receipt "1" "ex-1" 11);
  mkCall _ _ (op_transition_intent "i1" EXCHANGE_SUBMITTING EXCHANGE_ACKNOWLEDGED "Acked" [] None);
  mkCall _ _ (op_save_exchange_fill_receipt "i1" "2" "a" "ex-1" (Some "t1") "BINANCE_USER_TRADE" "BTCUSDT" "BUY" false
                (dint 2) (dint 100) None None 12 12 "h");
  mkCall _ _ (op_transition_intent "i1" EXCHANGE_ACKNOWLEDGED FILLED "Filled" [] None);
  mkCall _ _ (op_project_confirmed "p1" "i1" "2" "BTCUSDT" "long" LOCAL_PAPER 13 false)]%string.
Definition demo_session : Session := run_calls demo_entry new_session.
Definition demo_committed : Session := (commit demo_session).2.
(** A correction of a settled intent is refused. *)
Definition demo_after : Session :=
  (commit (run_calls [mkCall _ _ (op_transition_intent "i1" FILLED CANCELLED "Cancelled" [] None)] demo_committed)).2.

Lemma demo_steps : rtc session_step new_session demo_session.
Proof. apply run_calls_steps. Qed.
Lemma demo_committed_steps : rtc session_step new_session demo_committed.
Proof. apply run_commit_steps, run_calls_steps. Qed.

Lemma repository_refines_ledger_witness :
  map it_state (intents (s_committed demo_committed)) = [FILLED] /\
  rtc ledger_step (committed_lg new_session) (committed_lg demo_committed).
Proof.
  split; [vm_compute; reflexivity|].
  exact (proj1 (repository_refines_ledger new_session demo_committed (rtc_refl _ _) demo_committed_steps)).
Defined.

Lemma tables_replay_their_events_witness :
  length (events (s_committed demo_committed)) = 3%nat /\ event_sourced (s_committed demo_committed).
Proof.
  split; [vm_compute; reflexivity|].
  exact (proj1 (tables_replay_their_events demo_committed demo_committed_steps)).
Defined.

Lemma settled_rows_are_final_witness :
  map it_state (intents (s_committed demo_after)) = [FILLED] /\
  exists i, find_row (R := IntentRow) "i1" (s_committed demo_after) = Some i /\ it_state i = FILLED.
Proof.
  assert (ahead ledger_rel demo_committed) as Ha by (unfold ahead; reflexivity).
  assert (rtc session_step demo_committed demo_after) as Hs by (apply run_commit_steps, run_calls_steps).
  split; [vm_compute; reflexivity|].
  destruct (find_row (R := IntentRow) "i1" (s_committed demo_committed)) as [i|] eqn:E; [|vm_compute in E; discriminate E].
  destruct (proj1 (settled_rows_are_final demo_committed demo_after "i1" Ha Hs) i E) as (i' & E' & Hi).
  exists i'. split; [exact E'|]. assert (it_state i = FILLED) as Hf by (vm_compute in E; injection E as <-; reflexivity).
  rewrite Hi, Hf; [reflexivity|]. rewrite Hf. left. reflexivity.
Defined.
