(* ===== verification/ExchangeFirst.v ===== *)
(** * ExchangeFirst: positions come from fills, and evidence is append-only

    The rule the repository is written for: a position is projected only from
    confirmed fills of its order, and fills and events are never changed or
    removed.  Proved for every operation of [Repository], in any order, through
    commits and rollbacks. *)
From S2P Require Import Prelude PyDecimal PyValue State Receipts PortfolioRisk Database Repository Transactions Ledger.
Local Open Scope Z_scope.
Local Open Scope py_scope.

Definition has_fill (order_record_id : string) (d : Db) : Prop :=
  exists f, f ∈ fills d /\ fl_exchange_order_record_id f = order_record_id.

(** Evidence grows; a position of the later tables was there, for the same
    order, or its order has a fill. *)
Record grows (d d' : Db) : Prop := {
  grows_fills : fills d `prefix_of` fills d';
  grows_events : events d `prefix_of` events d';
  grows_positions : forall p', p' ∈ positions d' ->
    (exists p, p ∈ positions d /\ mp_order_record_id p = mp_order_record_id p') \/ has_fill (mp_order_record_id p') d' }.

Lemma has_fill_prefix o d d' : fills d `prefix_of` fills d' -> has_fill o d -> has_fill o d'.
Proof. intros [l E] (f & Hf & Ho). exists f. split; [|done]. rewrite E. apply elem_of_app. by left. Qed.

#[export] Instance grows_preorder : PreOrder grows.
Proof.
  split.
  - intros d. split; [done|done|]. intros p Hp. left. by exists p.
  - intros d1 d2 d3 [Hf1 He1 Hp1] [Hf2 He2 Hp2]. split; [by etrans|by etrans|]. intros p3 H3.
    destruct (Hp2 p3 H3) as [(p2 & H2 & E2)|H2]; [|by right].
    destruct (Hp1 p2 H2) as [(p1 & H1 & E1)|H1]; [left; exists p1; split; congruence|right].
    rewrite <- E2. by eapply has_fill_prefix.
Qed.

Lemma grows_other d d' : fills d' = fills d -> events d' = events d -> positions d' = positions d -> grows d d'.
Proof. intros E1 E2 E3. split; rewrite ?E1, ?E2, ?E3; [done|done|]. intros p Hp. left. by exists p. Qed.
Lemma grows_event d (e : EventRow) : grows d (insert_row e d).
Proof. split; simpl; [done|by apply prefix_app_r|]. intros p Hp. left. by exists p. Qed.
Lemma grows_fill d (f : FillRow) : grows d (insert_row f d).
Proof. split; simpl; [by apply prefix_app_r|done|]. intros p Hp. left. by exists p. Qed.
Lemma grows_put_position d p p0 :
  p0 ∈ positions d -> mp_order_record_id p = mp_order_record_id p0 -> grows d (put_row p d).
Proof.
  intros H0 E. split; simpl; [done|done|]. intros p' (q & Eq & Hq)%list_elem_of_fmap. left.
  destruct (String.eqb _ _); subst p'; [by exists p0|by exists q].
Qed.
Lemma grows_add_position d p : has_fill (mp_order_record_id p) d -> grows d (insert_row p d).
Proof.
  intros Hf. split; simpl; [done|done|]. intros p' [Hp|Hp]%elem_of_app; [left; by exists p'|].
  apply list_elem_of_singleton in Hp as ->. by right.
Qed.

Section operations.
Context {H : Host}.

Notation growing := (moves grows).
Notation growing_at := (moves_at grows).

(** The aggregate of an order exists only when a fill of it does. *)
Lemma growing_aggregate {A} s o (f : FillAggregate -> SM Session A) :
  (forall agg, has_fill o (s_db s) -> growing_at s (f agg)) -> growing_at s (sbind (_aggregate_fills o) f).
Proof.
  intros Hf. apply moves_bind; [exact _| |].
  - apply quiet_moves; [exact _|]. apply quiet_bind; [apply quiet_select|]. intros []; by apply quiet_same.
  - intros agg s1 E. unfold _aggregate_fills in E.
    apply sbind_inv in E as [(l & s2 & (-> & -> & _)%select_ok & E)|(e & _ & E)]; [|done].
    destruct (bfilter _ _) as [|x l] eqn:El; [done|]. apply sret_inv in E as [_ ->]. apply Hf.
    assert (x ∈ bfilter (fill_of_order o) (fills (s_db s))) as [Hx Ex]%elem_of_bfilter by (change (fills (s_db s)) with (rows (R := FillRow) (s_db s)); rewrite El; left).
    exists x. split; [done|]. by apply String.eqb_eq in Ex.
Qed.

Ltac grown :=
  first [ apply grows_other; reflexivity | apply grows_event | apply grows_fill
        | match goal with F : find_row _ ?d = Some ?p |- _ =>
            apply (grows_put_position d _ p (find_row_elem (R := PositionRow) _ _ _ F)); reflexivity end
        | eapply grows_add_position; eassumption ].
Ltac grow1 :=
  first [ apply growing_aggregate; intros | apply moves_scalar_position; [exact _| |intros] | move1 grown ].
Ltac grow := repeat grow1.

Lemma append_event_grows a b c d e : growing (append_event a b c d e).
Proof. intros s. unfold append_event. grow. Qed.
Lemma save_exchange_fill_receipt_grows a b c d e f g h i j k l m n o q :
  growing (save_exchange_fill_receipt a b c d e f g h i j k l m n o q).
Proof. intros s. unfold save_exchange_fill_receipt, _refresh_order_aggregate_from_fills. grow. Qed.
Lemma spread_fills_grows save total per l :
  (forall t q, growing (save t q)) -> forall allocated, growing (spread_fills save total per allocated l).
Proof.
  intros Hs. induction l as [|t l IH]; intros allocated s; [by apply moves_ret; exact _|]. cbn [spread_fills].
  apply moves_bind; [exact _|apply Hs|]. intros. apply IH.
Qed.
Lemma save_fill_receipt_grows a b c d e f : growing (save_fill_receipt a b c d e f).
Proof.
  intros s. unfold save_fill_receipt.
  repeat first [apply spread_fills_grows; intros ? ? ? | apply save_exchange_fill_receipt_grows | grow1].
Qed.
Lemma project_confirmed_grows a b c d e f g h : growing (project_position_from_confirmed_fills a b c d e f g h).
Proof. intros s. unfold project_position_from_confirmed_fills. grow. Qed.
Lemma transition_position_grows a b c d e f : growing (transition_position a b c d e f).
Proof. intros s. unfold transition_position, append_event. grow. Qed.
Lemma transition_protection_grows a b c d e f : growing (transition_protection a b c d e f).
Proof. intros s. unfold transition_protection, append_event. grow. Qed.
Lemma resolve_all_grows t l : growing (resolve_all t l).
Proof. induction l as [|i l IH]; intros s; cbn [resolve_all]; grow. apply IH. Qed.
Lemma get_runtime_control_grows a : growing (get_runtime_control a).
Proof. intros s. unfold get_runtime_control. grow. Qed.
Lemma ensure_runtime_control_grows a b c d : growing (ensure_runtime_control a b c d).
Proof.
  intros s. unfold ensure_runtime_control. grow1. grow1; [grow|].
  intros r s'. unfold sbind, read_db, server_now, stry, add, on_db, smodify, flush, sret, sraise, get. cbn [s_db s_committed s_draws].
  destruct (constraints_ok _); cbn [s_db s_committed s_draws]; [|destruct (find_row _ _)]; intros [= <- <-];
    (split; [done|left]); grown || done.
Qed.

Lemma repository_op_grows {writes} A (m : SM Session A) : op_of writes A m -> growing m.
Proof.
  destruct 1; intros s.
  - apply append_event_grows.
  - unfold create_cycle. grow.
  - unfold complete_cycle. grow.
  - unfold create_decision. grow.
  - unfold create_intent. grow.
  - unfold transition_intent, append_event. grow.
  - unfold reconcile_intent_from_confirmed_fill, append_event. grow.
  - unfold save_order_submission. grow.
  - unfold save_exchange_order_receipt. grow.
  - apply save_exchange_fill_receipt_grows.
  - unfold get_exchange_fill_by_trade. grow.
  - unfold save_order_level_fill_recovery. repeat first [apply save_exchange_fill_receipt_grows | grow1].
  - apply save_fill_receipt_grows.
  - apply project_confirmed_grows.
  - unfold reconcile_position_quantity_from_authoritative_snapshot, append_event. grow.
  - apply transition_position_grows.
  - unfold project_position. repeat first [apply project_confirmed_grows | apply transition_position_grows | grow1].
  - unfold repair_quarantined_position_from_confirmed_exit, append_event. grow.
  - unfold finalize_quarantined_historical_attribution, append_event. grow.
  - unfold save_protection. grow.
  - unfold update_protection_stop, append_event. grow.
  - apply transition_protection_grows.
  - unfold update_protection_active. repeat first [apply transition_protection_grows | grow1].
  - unfold record_reconciliation. grow.
  - unfold record_incident. grow.
  - unfold resolve_reconciliation_incidents. repeat first [apply resolve_all_grows | grow1].
  - apply get_runtime_control_grows.
  - unfold set_runtime_control. repeat first [apply get_runtime_control_grows | grow1].
  - apply ensure_runtime_control_grows.
  - unfold compare_and_set_runtime_control. grow.
  - unfold list_active_initial_risk_exposures. grow.
  - unfold get_open_positions. grow.
  - unfold list_exchange_unknown_intents. grow.
  - unfold get_position_by_id. grow.
Qed.

(** C24. Every position that exists, committed or not, has a confirmed fill of its
    order; and committed evidence is never changed or removed. *)
Theorem positions_come_from_fills s s' :
  rtc session_step new_session s -> rtc session_step s s' ->
  (forall p, p ∈ positions (s_committed s) \/ p ∈ positions (s_db s) ->
     exists f, f ∈ fills (s_db s) /\ fl_exchange_order_record_id f = mp_order_record_id p) /\
  fills (s_committed s) `prefix_of` fills (s_committed s') /\
  events (s_committed s) `prefix_of` events (s_committed s').
Proof.
  intros H0 H1. destruct (session_run_ahead grows _ _ repository_op_grows H0 (new_session_ahead _)) as [Ha Hc].
  destruct (session_run_ahead grows _ _ repository_op_grows H1 Ha) as [_ [Hf He _]]. split; [|done].
  assert (forall p, p ∈ positions (s_committed s) -> has_fill (mp_order_record_id p) (s_committed s)) as Hbacked.
  { intros p Hp. destruct (grows_positions _ _ Hc p Hp) as [(p0 & H' & _)|]; [by apply elem_of_nil in H'|done]. }
  intros p [Hp|Hp].
  - eapply has_fill_prefix; [apply Ha|by apply Hbacked].
  - destruct (grows_positions _ _ Ha p Hp) as [(p0 & H' & <-)|]; [|done].
    eapply has_fill_prefix; [apply Ha|by apply Hbacked].
Qed.
End operations.

Lemma positions_come_from_fills_witness :
  map mp_position_id (positions (s_db demo_session)) = ["p1"]%string /\
  exists f, f ∈ fills (s_db demo_session) /\ fl_exchange_order_record_id f = "2"%string.
Proof.
  split; [vm_compute; reflexivity|].
  destruct (positions (s_db demo_session)) as [|p l] eqn:E; [vm_compute in E; discriminate E|].
  destruct (proj1 (positions_come_from_fills demo_session demo_session demo_steps (rtc_refl _ _)) p
    ltac:(right; rewrite E; left)) as (f & Hf & Ef). exists f. split; [exact Hf|]. rewrite Ef.
  vm_compute in E. injection E as <- <-. reflexivity.
Defined.
