(* ===== verification/RepositoryLaws.v ===== *)
(** * RepositoryLaws: what single operations of the repository guarantee

    The exposures of a mode count every active intent exactly once; the runtime
    control is swapped only by the writer that observed it; the order-level fill
    recovery records one fill however often it runs. *)
From S2P Require Import Prelude PyDecimal PyValue State Receipts PortfolioRisk Database Repository Transactions Ledger.
Local Open Scope Z_scope.
Local Open Scope py_scope.

(** ** Constraints, one by one *)

Lemma constraints_position_intents d : constraints_ok d = true -> NoDup (map mp_intent_id (positions d)).
Proof.
  unfold constraints_ok. intros [[_ Hk]%andb_true_iff _]%andb_true_iff.
  repeat match type of Hk with
  | (_ && unique (fun p => Some (mp_intent_id p)) _)%bool = true => apply andb_true_iff in Hk as [_ Hk]
  | (_ && _)%bool = true => apply andb_true_iff in Hk as [Hk _]
  end. apply bool_decide_eq_true in Hk. revert Hk.
  assert (omap (fun p => Some (mp_intent_id p)) (positions d) = map mp_intent_id (positions d)) as ->; [|done].
  induction (positions d) as [|p l IH]; [done|]. simpl. by f_equal.
Qed.

Lemma sublist_bfilter {A} (f : A -> bool) (l : list A) : sublist (bfilter f l) l.
Proof. induction l as [|x l IH]; simpl; [constructor|]. destruct (f x); by constructor. Qed.
Lemma NoDup_map_bfilter {A B} (g : A -> B) (f : A -> bool) (l : list A) : NoDup (map g l) -> NoDup (map g (bfilter f l)).
Proof. intros Hn. eapply sublist_NoDup; [exact Hn|]. apply (fmap_sublist g), sublist_bfilter. Qed.

(** ** Exposures *)

Section exposures.
Context {H : Host}.

(** The intents whose risk is open in a mode: active and not exits, and without
    a position that already ended. *)
Definition open_intents (mode : V2ExecutionMode) (d : Db) : list IntentRow :=
  bfilter (fun i => bool_decide (it_execution_mode i = mode) && active_intent (it_state i) && negb (is_exit_intent i)
    && negb (has_position (bfilter (fun p => in_mode mode p && is_terminal_position (mp_state p)) (positions d)) i))
    (intents d).
Definition open_positions_of (mode : V2ExecutionMode) (d : Db) : list PositionRow :=
  bfilter (fun p => in_mode mode p && active_position (mp_state p)) (positions d).

(** The intents an exposure is listed for: those of the open positions, then the
    reserved ones. *)
Definition exposed_intents (mode : V2ExecutionMode) (d : Db) : list string :=
  map mp_intent_id (open_positions_of mode d) ++ map it_intent_id (reserved_intents mode (open_positions_of mode d) d).

Lemma list_exposures_run mode s :
  constraints_ok (s_db s) = true ->
  let active := open_positions_of mode (s_db s) in
  let found := map (position_exposure (s_db s)) active ++ map intent_exposure (reserved_intents mode active (s_db s)) in
  list_active_initial_risk_exposures mode s = (Ok (omap id found, existsb (fun o => bool_decide (o = None)) found), s).
Proof.
  intros Hc. unfold list_active_initial_risk_exposures, select, flush, sbind. rewrite Hc. reflexivity.
Qed.

Lemma known_exposures found :
  existsb (fun o : option RiskExposure => bool_decide (o = None)) found = false -> length (omap id found) = length found.
Proof.
  induction found as [|o l IH]; simpl; [done|]. intros [Ho Hl]%orb_false_iff. destruct o; [|done]. simpl. f_equal. by apply IH.
Qed.

(** An open intent is listed exactly once, through its position or by itself;
    and when nothing is unknown every listed one contributes its exposure. *)
Theorem initial_risk_counted_exactly_once mode s :
  constraints_ok (s_db s) = true ->
  NoDup (exposed_intents mode (s_db s)) /\
  (forall i, i ∈ open_intents mode (s_db s) -> it_intent_id i ∈ exposed_intents mode (s_db s)) /\
  exists exposures unknown,
    list_active_initial_risk_exposures mode s = (Ok (exposures, unknown), s) /\
    (unknown = false -> length exposures = length (exposed_intents mode (s_db s))).
Proof.
  intros Hc. split; [|split].
  - apply NoDup_app. split; [by apply NoDup_map_bfilter, constraints_position_intents|]. split.
    + intros x (p & -> & Hp)%list_elem_of_fmap (i & E & Hi)%list_elem_of_fmap.
      apply elem_of_bfilter in Hi as [_ Hi]. split_bools.
      match goal with F : has_position (open_positions_of _ _) i = false |- _ => rename F into Hn end.
      apply (Bool.diff_false_true). rewrite <- Hn. apply existsb_exists. exists p. split; [by apply list_elem_of_In|].
      rewrite E. apply String.eqb_refl.
    + apply NoDup_map_bfilter. exact (unique_keys (R := IntentRow) _ Hc).
  - intros i [Hi Hb]%elem_of_bfilter. split_bools. apply elem_of_app.
    destruct (has_position (open_positions_of mode (s_db s)) i) eqn:Ep; [left|right].
    + apply existsb_exists in Ep as (p & Hp%list_elem_of_In & E%String.eqb_eq). rewrite <- E. by apply list_elem_of_fmap_2.
    + apply list_elem_of_fmap_2, elem_of_bfilter. split; [done|].
      repeat match goal with F : _ = true |- _ => rewrite F | F : _ = false |- _ => rewrite F end. done.
  - do 2 eexists. split; [by apply list_exposures_run|]. intros Hu%known_exposures. rewrite Hu.
    unfold exposed_intents. by rewrite !length_app, !length_map.
Qed.
End exposures.

(** ** Compare and set of the runtime control *)

Section control.
Context {H : Host}.

(** The swap as an atomic update of the table. *)
Definition swapped (matching : ControlRow -> bool) (entry_enabled : bool) (reason updated_by : option string)
    (t : datetime) (d : Db) : Db :=
  with_rows (map (fun c => if matching c then mkControl (ct_scope c) entry_enabled reason updated_by (ct_version c + 1) t
                           else c) (controls d)) d.

Lemma compare_and_set_run scope version enabled reason enabled' reason' by' s r s' :
  compare_and_set_runtime_control scope version enabled reason enabled' reason' by' s = (r, s') ->
  (exists e, r = Raise e) \/
  constraints_ok (s_db s) = true /\
  r = Ok (length (bfilter (control_matches scope version enabled reason) (controls (s_db s))) =? 1)%nat /\
  s_db s' = swapped (control_matches scope version enabled reason) enabled' reason' by' (clock (s_draws s)) (s_db s).
Proof.
  unfold compare_and_set_runtime_control, sbind, utc_now, flush, read_db, on_db, smodify, sret.
  cbn [s_db s_committed s_draws]. destruct (constraints_ok (s_db s)) eqn:Hc; cbn [s_db s_committed s_draws];
    [|intros [= <- <-]; eauto].
  match goal with |- context [constraints_ok ?d] => destruct (constraints_ok d) end; cbn [s_db s_committed s_draws];
    intros [= <- <-]; [right; split; [reflexivity|split; reflexivity]|left; eexists; reflexivity].
Qed.

(** At most one row has the key a test asks for. *)
Lemma bfilter_keyed {R} `{Table R} (p : R -> bool) key (l : list R) :
  (forall r, p r = true -> row_key r = key) -> NoDup (map row_key l) ->
  bfilter p l = match List.find (fun r => String.eqb (row_key r) key) l with
                | Some r => if p r then [r] else [] | None => [] end.
Proof.
  intros Hp. induction l as [|r l IH]; intros Hn; [done|]. cbn [map List.find] in *. apply NoDup_cons in Hn as [Hr Hn].
  specialize (IH Hn). change (bfilter p (r :: l)) with (if p r then r :: bfilter p l else bfilter p l). destruct (String.eqb_spec (row_key r) key) as [E|E].
  - assert (bfilter p l = []) as El.
    { destruct (bfilter p l) as [|x k] eqn:Ex; [done|]. destruct Hr.
      assert (x ∈ bfilter p l) as [Hx Hpx]%elem_of_bfilter by (rewrite Ex; left).
      rewrite E, <- (Hp x Hpx). by apply (list_elem_of_fmap_2 row_key). }
    rewrite El. by destruct (p r).
  - destruct (p r) eqn:Ep; [by apply Hp in Ep|]. exact IH.
Qed.

Definition observed (version : Z) (enabled : bool) (reason : option string) (c : ControlRow) : Prop :=
  ct_version c = version /\ ct_entry_enabled c = enabled /\ ct_reason c = reason.

Lemma control_matches_observed scope version enabled reason c :
  control_matches scope version enabled reason c = true <-> ct_scope c = scope /\ observed version enabled reason c.
Proof.
  unfold control_matches, observed. rewrite !andb_true_iff, String.eqb_eq, Z.eqb_eq, bool_decide_eq_true, eqb_true_iff.
  tauto.
Qed.

Lemma find_map_keyed {R} `{Table R} (g : R -> R) key (l : list R) :
  (forall r, row_key (g r) = row_key r) ->
  List.find (fun r => String.eqb (row_key r) key) (map g l) = g <$> List.find (fun r => String.eqb (row_key r) key) l.
Proof. intros Hg. induction l as [|r l IH]; simpl; [done|]. rewrite Hg. by destruct (String.eqb _ _). Qed.

Lemma map_none {A} (p : A -> bool) (g : A -> A) l : bfilter p l = [] -> map (fun x => if p x then g x else x) l = l.
Proof. induction l as [|x l IH]; simpl; [done|]. destruct (p x); [done|]. intros E. by rewrite IH. Qed.

(** What the call did, when it returned. *)
Lemma compare_and_set_cases scope version enabled reason enabled' reason' by' s b s' :
  compare_and_set_runtime_control scope version enabled reason enabled' reason' by' s = (Ok b, s') ->
  (b = true /\ exists c, find_row scope (s_db s) = Some c /\ observed version enabled reason c /\
     find_row scope (s_db s') = Some (mkControl scope enabled' reason' by' (version + 1) (clock (s_draws s)))) \/
  (b = false /\ controls (s_db s') = controls (s_db s) /\
     forall c, find_row scope (s_db s) = Some c -> ~ observed version enabled reason c).
Proof.
  intros Hrun. apply compare_and_set_run in Hrun as [[e ?]|(Hc & Eb & Hd)]; [done|]. injection Eb as ->.
  pose proof (bfilter_keyed (control_matches scope version enabled reason) scope (controls (s_db s))
    ltac:(intros c [? _]%control_matches_observed; done) (unique_keys (R := ControlRow) _ Hc)) as Hf.
  change (List.find (fun r => String.eqb (row_key r) scope) (controls (s_db s))) with
    (find_row (R := ControlRow) scope (s_db s)) in Hf. rewrite Hd. clear Hd.
  destruct (find_row scope (s_db s)) as [c|] eqn:Ec; [destruct (control_matches _ _ _ _ c) eqn:Em|]; rewrite Hf; simpl length.
  - left. split; [done|]. exists c. apply control_matches_observed in Em as Ho. destruct Ho as [Es Ho].
    split; [done|]. split; [done|].
    refine (eq_trans (find_map_keyed (R := ControlRow) _ scope (controls (s_db s)) _) _).
    { intros x. by destruct (control_matches _ _ _ _ x). }
    change (List.find _ (controls (s_db s))) with (find_row (R := ControlRow) scope (s_db s)).
    rewrite Ec. simpl. rewrite Em. destruct Ho as (<- & _). by rewrite Es.
  - right. split; [done|]. split; [by apply map_none|]. intros c' [= <-] Ho.
    apply find_row_key in Ec. rewrite (proj2 (control_matches_observed _ _ _ _ _) (conj Ec Ho)) in Em. done.
  - right. split; [done|]. split; [by apply map_none|]. done.
Qed.

(** The swap happens exactly when the row is still the observed one, and then
    no writer that observed the same version can swap it again. *)
Theorem runtime_control_swapped_once scope version enabled reason enabled1 reason1 by1 s b s1 :
  compare_and_set_runtime_control scope version enabled reason enabled1 reason1 by1 s = (Ok b, s1) ->
  (b = true <-> exists c, find_row scope (s_db s) = Some c /\ observed version enabled reason c) /\
  (b = false -> controls (s_db s1) = controls (s_db s)) /\
  (b = true -> forall other other_reason enabled2 reason2 by2 r s2,
     compare_and_set_runtime_control scope version other other_reason enabled2 reason2 by2 s1 = (r, s2) -> r <> Ok true).
Proof.
  intros Hrun. apply compare_and_set_cases in Hrun as [(-> & c & E & Ho & E1)|(-> & E1 & Hn)].
  - split; [split; eauto|]. split; [done|]. intros _ other other_reason enabled2 reason2 by2 r s2 Hrun2 ->.
    apply compare_and_set_cases in Hrun2 as [(_ & c2 & E2 & (Hv & _) & _)|(? & _)]; [|done].
    rewrite E1 in E2. injection E2 as <-. simpl in Hv. lia.
  - split; [split; [done|]|by split]. intros (c & E & Ho). by destruct (Hn c E).
Qed.
End control.

(** ** Recovery of an order-level fill *)

Section recovery.
Context {H : Host}.

Definition recovered_fill (order_record_id : string) (f : FillRow) : bool :=
  fill_of_order order_record_id f && String.eqb (fl_fill_source f) BINANCE_ORDER_STATUS_RECOVERY.

Definition same_fills (d d' : Db) : Prop := fills d' = fills d.
#[local] Instance same_fills_preorder : PreOrder same_fills.
Proof. split; [done|]. intros d1 d2 d3 E1 E2. unfold same_fills in *. congruence. Qed.

Lemma refresh_same_fills o : moves same_fills (_refresh_order_aggregate_from_fills o).
Proof.
  intros s. unfold _refresh_order_aggregate_from_fills, _aggregate_fills. repeat move1 ltac:(reflexivity).
Qed.
Lemma assign_order_same_fills s (o : OrderRow) : moves_at same_fills s (assign o).
Proof. by apply moves_db. Qed.

(** A recorded fill is the last row, under the returned identity. *)
Lemma save_exchange_fill_receipt_ok intent_id order_record_id account_id exchange_order_id trade_id source symbol side
    reduce_only quantity price commission asset event_time received_at raw_hash s id s1 :
  save_exchange_fill_receipt intent_id order_record_id account_id exchange_order_id trade_id source symbol side
    reduce_only quantity price commission asset event_time received_at raw_hash s = (Ok id, s1) ->
  constraints_ok (s_db s1) = true /\ exists f, fills (s_db s1) = fills (s_db s) ++ [f] /\
    fl_fill_id f = id /\ fl_exchange_order_record_id f = order_record_id /\ fl_fill_source f = source.
Proof.
  unfold save_exchange_fill_receipt. intros Hrun.
  apply sbind_inv in Hrun as [(o & s2 & E & Hrun)|(e & _ & E)]; [|done]. injection E as _ <-.
  apply sbind_inv in Hrun as [(o' & s2 & E & Hrun)|(e & _ & E)]; [|done].
  destruct o as [o|]; [|done]. injection E as _ <-.
  do 2 (apply sbind_inv in Hrun as [(? & s2 & [-> _]%sassert_inv & Hrun)|(e & _ & E)]; [|done]).
  apply sbind_inv in Hrun as [(? & s2 & E & Hrun)|(e & _ & E)]; [|done].
  assert (fills (s_db s2) = fills (s_db s)) as Hf.
  { destruct (ostr_truthy _); injection E as _ <-; reflexivity. }
  apply sbind_inv in Hrun as [(fid & s3 & E3 & Hrun)|(e & _ & E3)]; [|done]. injection E3 as <- <-.
  apply sbind_inv in Hrun as [(? & s3 & E3 & Hrun)|(e & _ & E3)]; [|done]. injection E3 as _ <-.
  apply sbind_inv in Hrun as [(? & s3 & [-> _]%flush_ok & Hrun)|(e & _ & E3)]; [|done].
  apply sbind_inv in Hrun as [(? & s3 & E3%refresh_same_fills & Hrun)|(e & _ & E3)]; [|done].
  apply sbind_inv in Hrun as [(? & s4 & [-> Hc]%flush_ok & Hrun)|(e & _ & E4)]; [|done].
  apply sret_inv in Hrun as [E4 ->]. injection E4 as ->. split; [done|].
  destruct E3 as [_ [E3|[[e ?] _]]]; [|done]. unfold same_fills in E3. rewrite E3. cbn [s_db].
  eexists. split; [exact (f_equal (fun l => l ++ [_]) Hf)|]. done.
Qed.

(** However often the recovery runs, one fill is recorded: a second run, with any
    quantity and price, returns the fill of the first and changes nothing. *)
Theorem order_level_recovery_idempotent intent_id order_record_id account_id exchange_order_id symbol side reduce_only
    quantity price event_time received_at quantity2 price2 event_time2 received_at2 s id s1 :
  save_order_level_fill_recovery intent_id order_record_id account_id exchange_order_id symbol side reduce_only
    quantity price event_time received_at s = (Ok id, s1) ->
  save_order_level_fill_recovery intent_id order_record_id account_id exchange_order_id symbol side
    reduce_only quantity2 price2 event_time2 received_at2 s1 = (Ok id, s1) /\
  (bfilter (recovered_fill order_record_id) (fills (s_db s)) = [] ->
   length (bfilter (recovered_fill order_record_id) (fills (s_db s1))) = 1%nat).
Proof.
  intros Hrun. assert (exists f l, bfilter (recovered_fill order_record_id) (fills (s_db s1)) = f :: l /\ fl_fill_id f = id /\
    constraints_ok (s_db s1) = true /\ (bfilter (recovered_fill order_record_id) (fills (s_db s)) = [] -> l = []))
    as (f & l & Ef & Ei & Hc & Hl).
  { apply sbind_inv in Hrun as [(o & s2 & (-> & -> & Hc)%scalar_ok & Hrun)|(e & _ & E)]; [|done].
    cbn [rows fills_table] in Hrun. fold (recovered_fill order_record_id) in Hrun.
    destruct (bfilter (recovered_fill order_record_id) (fills (s_db s))) as [|f l] eqn:E; simpl in Hrun.
    - apply save_exchange_fill_receipt_ok in Hrun as (Hc1 & f & Hf & Ei & Eo & Es). exists f, []. rewrite Hf.
      unfold bfilter in *. rewrite List.filter_app, E. simpl. unfold recovered_fill, fill_of_order.
      by rewrite Eo, Es, !String.eqb_refl.
    - apply sret_inv in Hrun as [Hi ->]. injection Hi as ->. exists f, l. rewrite E. done. }
  split; [|intros E; rewrite Ef, Hl by done; done].
  unfold save_order_level_fill_recovery, scalar, select, flush, sbind. rewrite Hc. simpl.
  fold (recovered_fill order_record_id). rewrite Ef. simpl. by rewrite Ei.
Qed.
End recovery.

(** ** The properties at a concrete session *)

#[local] Existing Instance demo_host.

Lemma initial_risk_counted_exactly_once_witness :
  constraints_ok (s_db demo_session) = true /\ NoDup (exposed_intents LOCAL_PAPER (s_db demo_session)) /\
  exposed_intents LOCAL_PAPER (s_db demo_session) = ["i1"]%string.
Proof.
  assert (constraints_ok (s_db demo_session) = true) as Hc by (vm_compute; reflexivity).
  split; [exact Hc|]. split; [|vm_compute; reflexivity].
  exact (proj1 (initial_risk_counted_exactly_once LOCAL_PAPER demo_session Hc)).
Defined.

(** The engine scope, as created, and two writers that observed version 0. *)
Definition demo_control : Session := (ensure_runtime_control "engine" false None None new_session).2.

Lemma runtime_control_swapped_once_witness :
  exists s1, compare_and_set_runtime_control "engine" 0 false None true (Some "a"%string) None demo_control = (Ok true, s1) /\
  (compare_and_set_runtime_control "engine" 0 false None true (Some "b"%string) None s1).1 <> Ok true.
Proof.
  destruct (compare_and_set_runtime_control "engine" 0 false None true (Some "a"%string) None demo_control) as [r s1] eqn:E.
  assert (r = Ok true) as -> by (vm_compute in E; injection E as <- _; reflexivity).
  exists s1. split; [reflexivity|].
  eapply (runtime_control_swapped_once _ _ _ _ _ _ _ _ _ _ E); [reflexivity|apply surjective_pairing].
Defined.

Definition demo_order : Session := run_calls (take 4 demo_entry) new_session.

Lemma order_level_recovery_idempotent_witness :
  exists s1, save_order_level_fill_recovery "i1" "2" "a" "ex-1" "BTCUSDT" "BUY" false (dint 2) (dint 100) 5 5 demo_order
    = (Ok "4"%string, s1) /\
  save_order_level_fill_recovery "i1" "2" "a" "ex-1" "BTCUSDT" "BUY" false (dint 2) (dint 100) 5 5 s1 = (Ok "4"%string, s1).
Proof.
  destruct (save_order_level_fill_recovery "i1" "2" "a" "ex-1" "BTCUSDT" "BUY" false (dint 2) (dint 100) 5 5 demo_order)
    as [r s1] eqn:E.
  assert (r = Ok "4"%string) as -> by (vm_compute in E; injection E as <- _; reflexivity).
  exists s1. split; [reflexivity|].
  exact (proj1 (order_level_recovery_idempotent _ _ _ _ _ _ _ _ _ _ _ (dint 2) (dint 100) 5 5 _ _ _ E)).
Defined.
