(* ===== verification/RecoveryExecutor.v ===== *)
(** * RecoveryExecutor: carrying out a recovery plan

    [application/recovery_executor.py] over the adapter interface and the
    sessions of [Database]: the world is the state of the adapter and the
    database.  Every database access is a session of its own that is closed
    before the next command.  The reason of an action is free text and not
    modelled; an error keeps its exception in place of its text. *)
From S2P Require Import Prelude PyDecimal PyValue State Receipts ClientOrderId Adapter Quantities Reconciliation Exit.
From S2P Require Import Protection Recovery AccountWriter BinanceAdapter Database Repository.
Local Open Scope Z_scope.
Local Open Scope py_scope.

Definition DEFAULT_STEP_SIZE : Dec := mkDec 1 (-3).

(** The fence of a Binance adapter: its capability, against the registry now. *)
Definition _recovery_writer_valid {W} {V : VenueClient W} (cap : option AccountWriterCapability) : SM (AState W) bool :=
  match cap with
  | None => sret false
  | Some c => let! o := observe_registry in sret (capability_is_current o.1.1 (Some c) o.2 o.1.2)
  end.

Record RecoveryExecutionResult := mkExecution {
  re_executed : list string; re_skipped : list string; re_errors : list (RecoveryActionType * string * PyExc) }.


Section executor.
Context {H : Host} {W : Type} {A : ExchangeAdapter W} (writer_valid : SM W bool).

Definition World : Type := W * Session.
Definition on_adapter {X} (m : SM W X) : SM World X := fun '(w, s) => let '(r, w') := m w in (r, (w', s)).
(** [with get_session_factory()() as session: m] *)
Definition on_database {X} (m : SM Session X) : SM World X := fun '(w, s) => let '(r, s') := with_session m s in (r, (w, s')).

Definition position_at (symbol direction : string) (snapshot : AuthoritativeAccountSnapshot) : option ExchangePositionSnapshot :=
  List.find (fun p => String.eqb (xp_symbol p) symbol && String.eqb (xp_direction p) direction) (as_positions snapshot).

Definition _execute_emergency_close (a : RecoveryAction) (snapshot : AuthoritativeAccountSnapshot)
    (local_state : option LocalStateView) (step_size : Dec) : SM World bool :=
  match (ls ← local_state; List.find (fun p => String.eqb (lp_position_id p) (ra_target_ref a)) (ls_positions ls)) with
  | None => sraise (ValueError "no local position for emergency close")
  | Some position =>
      let ex_pos := position_at (lp_symbol position) (lp_direction position) snapshot in
      let! valid := on_adapter writer_valid in
      let! decision := slift (evaluate_exit (lp_position_id position) (lp_symbol position) (lp_direction position)
        PROTECTION_FAILURE_EMERGENCY (lp_quantity position) ex_pos step_size 1 (Some valid) true) in
      if negb (exit_approved decision) then sret false
      else
      let! result := on_adapter (execute_reduce_only_exit decision
        (match ex_pos with Some p => xp_quantity p | None => lp_quantity position end) step_size []) in
      sret (negb (bool_decide (xr_status result ∈ [EXIT_NOT_ATTEMPTED; ALREADY_FLAT_RECONCILED])))
  end.

Definition symbol_context (a : RecoveryAction) : PyDict := [("symbol", ostr_value (ra_symbol a))]%string.

Definition _quarantine_local_position (a : RecoveryAction) : SM World bool :=
  on_database (
    let! position := get_position_by_id (ra_target_ref a) in
    match position with
    | None => sret false
    | Some p =>
        transition_position (ra_target_ref a) (mp_state p) QUARANTINED "PositionQuarantined" [("reason", free_text)]%string None ;;;
        record_incident "LOCAL_GHOST_QUARANTINED" "MEDIUM" (Some (ra_target_ref a)) "" (symbol_context a) None
          (Some (ra_target_ref a)) ;;;
        commit ;;;
        sret true
    end).

Definition _record_quarantine_incident (a : RecoveryAction) (incident_type : string) : SM World unit :=
  on_database (
    record_incident incident_type "MEDIUM" (Some (ra_target_ref a)) "" (symbol_context a) None None ;;;
    commit).

Definition _mark_intent_not_submitted (a : RecoveryAction) : SM World bool :=
  on_database (
    let! intent := get (R := IntentRow) (ra_target_ref a) in
    let! i := require intent "recovery intent not found" in
    let! known_order := scalar (R := OrderRow) (order_of_intent (ra_target_ref a)) in
    if ostr_truthy (o ← known_order; eo_exchange_order_id o) then sret false
    else
    let current := it_state i in
    if bool_decide (current ∈ [CANCELLED; REJECTED; EXPIRED]) then sret true
    else
    transition_intent (ra_target_ref a) current CANCELLED "RecoveryConfirmedNotSubmitted" [("reason", free_text)]%string None ;;;
    commit ;;;
    sret true).

Definition _resolve_unknown_intent (a : RecoveryAction) (local_state : option LocalStateView) : SM World bool :=
  match (ls ← local_state; List.find (fun i => String.eqb (li_intent_id i) (ra_target_ref a)) (ls_intents ls)) with
  | None => sraise (ValueError "no local pending-intent identity")
  | Some view =>
      let! receipt := on_adapter (query_order_by_client_id (li_symbol view) (li_client_order_id view)) in
      match receipt with
      | None => _mark_intent_not_submitted a
      | Some receipt =>
          on_database (
            let! intent := get (R := IntentRow) (ra_target_ref a) in
            let! order := scalar (R := OrderRow) (order_of_intent (ra_target_ref a)) in
            let! i := require intent "pending intent/order facts missing" in
            let! o := require order "pending intent/order facts missing" in
            save_exchange_order_receipt (eo_order_record_id o) (or_exchange_order_id receipt) (or_acknowledged_at receipt) ;;;
            let current := it_state i in
            (if bool_decide (current = EXCHANGE_ACKNOWLEDGED) then sret tt
             else transition_intent (ra_target_ref a) current EXCHANGE_ACKNOWLEDGED "RecoveryExchangeAcknowledged"
                    [("exchange_order_id", VStr (or_exchange_order_id receipt))]%string None) ;;;
            commit) ;;;
          sret true
      end
  end.

(** [order_by(created_at.desc()).limit(1)]: of equal times, the first inserted. *)
Fixpoint latest (best : ProtectionRow) (l : list ProtectionRow) : ProtectionRow :=
  match l with
  | [] => best
  | p :: l => latest (if pt_created_at best <? pt_created_at p then p else best) l
  end.
Definition latest_protection (position_id : string) : SM Session (option ProtectionRow) :=
  let! l := select (R := ProtectionRow) (fun p => String.eqb (pt_position_id p) position_id) in
  sret (match l with [] => None | p :: l => Some (latest p l) end).

(** The plan of a resubmission, or [None] where there is nothing to protect. *)
Definition resubmission_plan (a : RecoveryAction) (snapshot : AuthoritativeAccountSnapshot) :
    SM Session (option ProtectionPlan) :=
  let! position := get (R := PositionRow) (ra_target_ref a) in
  let! p := require position "protection recovery position not found" in
  let! previous := latest_protection (ra_target_ref a) in
  let! previous := require previous "no persisted protection prices" in
  match position_at (mp_symbol p) (mp_direction p) snapshot with
  | None => sret None
  | Some exchange_position =>
      if (xp_quantity exchange_position <=? dzero)%D then sret None
      else
      let revision := pt_version previous + 2 in
      let! stop_client_id := slift (stop_client_order_id (mp_position_id p) revision) in
      let! tp_client_id := match pt_take_profit_price previous with
                           | Some _ => let! i := slift (target_client_order_id (mp_position_id p) revision) in sret (Some i)
                           | None => sret None end in
      let! plan := slift (make_ProtectionPlan (mkPlan (mp_position_id p) (mp_symbol p) (mp_direction p)
        (xp_quantity exchange_position) (mp_entry_price p) (pt_stop_loss_price previous) (pt_take_profit_price previous)
        stop_client_id tp_client_id revision)) in
      sret (Some plan)
  end.

Definition record_resubmission (a : RecoveryAction) (plan : ProtectionPlan) (stop_exchange_order_id : string)
    (tp_exchange_order_id : option string) : SM Session unit :=
  let! previous := latest_protection (ra_target_ref a) in
  (match previous with
   | Some p => if bool_decide (pt_state p = PROTECTION_ACTIVE)
               then transition_protection (pt_protection_id p) PROTECTION_ACTIVE PROTECTION_CANCELLED
                      "ProtectionSupersededByRecovery" [("reason", free_text)]%string None
               else sret tt
   | None => sret tt
   end) ;;;
  let! protection_id := new_uuid in
  save_protection protection_id (ra_target_ref a) (pl_stop_price plan) (pl_take_profit_price plan)
    (pl_stop_client_order_id plan) (pl_tp_client_order_id plan) PROTECTION_INTENT None None None "P1" ;;;
  let! submission_timestamp := utc_now in
  let! receipt := slift (make_ProtectionReceipt (mkProtectionReceipt (ra_target_ref a) stop_exchange_order_id
                           tp_exchange_order_id submission_timestamp)) in
  let! activated_at := utc_now in
  update_protection_active protection_id receipt PROTECTION_ACTIVE activated_at ;;;
  commit.

Definition _resubmit_protection (a : RecoveryAction) (snapshot : AuthoritativeAccountSnapshot) : SM World bool :=
  let! plan := on_database (resubmission_plan a snapshot) in
  match plan with
  | None => sret false
  | Some plan =>
      let! result := on_adapter (ensure_protection plan 2) in
      match protection_is_active result, ps_stop_exchange_order_id result with
      | true, Some stop_id =>
          on_database (record_resubmission a plan stop_id (ps_tp_exchange_order_id result)) ;;;
          sret true
      | _, _ => _record_quarantine_incident a "PROTECTION_RECOVERY_FAILED" ;;; sret false
      end
  end.

Definition _execute_one (a : RecoveryAction) (snapshot : AuthoritativeAccountSnapshot)
    (local_state : option LocalStateView) (step_size : Dec) : SM World bool :=
  match ra_action_type a with
  | RECOVERY_EMERGENCY_CLOSE => _execute_emergency_close a snapshot local_state step_size
  | CANCEL_ORPHAN_PROTECTION_ORDER =>
      match ra_symbol a with
      | None => sraise (ValueError "symbol required to cancel orphan protection order")
      | Some symbol => on_adapter (cancel_order symbol (ra_target_ref a)) ;;; sret true
      end
  | QUARANTINE_LOCAL_GHOST_POSITION => _quarantine_local_position a
  | QUARANTINE_EXTERNAL_POSITION => _record_quarantine_incident a "EXTERNAL_POSITION_QUARANTINED" ;;; sret true
  | RESOLVE_UNKNOWN_INTENT_BY_CLIENT_ID => _resolve_unknown_intent a local_state
  | MARK_INTENT_NOT_SUBMITTED => _mark_intent_not_submitted a
  | RESUBMIT_PROTECTION => _resubmit_protection a snapshot
  | MANUAL_INTERVENTION_REQUIRED => _record_quarantine_incident a "MANUAL_INTERVENTION_REQUIRED" ;;; sret true
  end.

(** The loop: each action succeeds, is skipped, or its exception is noted. *)
Fixpoint execute_actions (actions : list RecoveryAction) (snapshot : AuthoritativeAccountSnapshot)
    (local_state : option LocalStateView) (step_size : Dec) (done : RecoveryExecutionResult) :
    SM World RecoveryExecutionResult :=
  match actions with
  | [] => sret done
  | a :: actions =>
      stry_else (_execute_one a snapshot local_state step_size)
        (fun e => Some (execute_actions actions snapshot local_state step_size
           (mkExecution (re_executed done) (re_skipped done)
              (re_errors done ++ [(ra_action_type a, ra_target_ref a, e)]))))
        (fun handled => execute_actions actions snapshot local_state step_size
           (if handled then mkExecution (re_executed done ++ [ra_target_ref a]) (re_skipped done) (re_errors done)
            else mkExecution (re_executed done) (re_skipped done ++ [ra_target_ref a]) (re_errors done)))
  end.

Definition execute_recovery_actions (actions : list RecoveryAction) (snapshot : AuthoritativeAccountSnapshot)
    (local_state : option LocalStateView) (step_size : Dec) : SM World RecoveryExecutionResult :=
  execute_actions actions snapshot local_state step_size (mkExecution [] [] []).
End executor.
