(* ===== verification/RecoveryRun.v ===== *)
(** * RecoveryRun: what executing a recovery plan guarantees

    Whatever plan [RecoveryExecutor] is given and whatever the venue and the
    database answer: every action is accounted for, nothing that reaches the
    venue adds risk or passes the fence, the tables move only as the ledger
    allows, and positions still come from fills. *)
From S2P Require Import Prelude PyDecimal PyValue State Receipts ClientOrderId Adapter Quantities Reconciliation Exit.
From S2P Require Import Protection Recovery PortfolioRisk AccountWriter BinanceAdapter Composition Database Repository.
From S2P Require Import Transactions Ledger ExchangeFirst RecoveryExecutor.
Local Open Scope Z_scope.
Local Open Scope py_scope.

Section executor.
Context {H : Host} {W : Type} {A : ExchangeAdapter W} (writer_valid : SM W bool).

(** The programs the executor runs on the adapter and on the database. *)
Inductive venue_program : forall X, SM W X -> Prop :=
  | vp_writer : venue_program bool writer_valid
  | vp_exit d q step : venue_program _ (execute_reduce_only_exit d q step [])
  | vp_protect plan : venue_program _ (ensure_protection plan 2)
  | vp_cancel symbol ref : venue_program _ (cancel_order symbol ref)
  | vp_query symbol id : venue_program _ (query_order_by_client_id symbol id).

Inductive database_program : forall X, SM Session X -> Prop :=
  | dp_program X (m : SM Session X) :
      (forall rel `{!PreOrder rel}, (forall B (n : SM Session B), op_of false B n -> moves rel n) -> advances rel m) ->
      database_program X m.

Section kept.
Context (P : W * Session -> Prop).
Context (Hvenue : forall X m, venue_program X m -> preserves P (on_adapter m)).
Context (Hdatabase : forall X m, database_program X m -> preserves P (on_database m)).

Lemma latest_quiet id : quiet (latest_protection id).
Proof. apply quiet_bind; [apply quiet_select|]. intros. by apply quiet_same. Qed.
Lemma get_position_quiet id : quiet (get_position_by_id id).
Proof. by apply quiet_same. Qed.

Ltac adv1 Hops :=
  lazymatch goal with
  | |- advances _ (sbind _ _) => apply advances_bind; [exact _| |intros ?]
  | |- advances _ commit => apply advances_commit; exact _
  | |- advances _ (match ?x with _ => _ end) => destruct x eqn:?
  | |- advances _ (latest_protection _) => apply quiet_advance; [exact _|apply latest_quiet]
  | |- advances _ (get_position_by_id _) => apply quiet_advance; [exact _|apply get_position_quiet]
  | |- advances _ (get _) => apply quiet_advance; [exact _|solve [quiet_tac]]
  | |- advances _ (scalar _) => apply quiet_advance; [exact _|apply quiet_scalar]
  | |- advances _ (require _ _) => apply quiet_advance; [exact _|apply quiet_require]
  | |- advances _ (sret _) => apply quiet_advance; [exact _|solve [quiet_tac]]
  | |- advances _ (sraise _) => apply quiet_advance; [exact _|solve [quiet_tac]]
  | |- advances _ (slift _) => apply quiet_advance; [exact _|solve [quiet_tac]]
  | |- advances _ new_uuid => apply quiet_advance; [exact _|solve [quiet_tac]]
  | |- advances _ utc_now => apply quiet_advance; [exact _|solve [quiet_tac]]
  | |- advances _ (transition_position _ _ _ _ _ _) => apply moves_advance; [exact _|apply Hops, op_transition_position]
  | |- advances _ (transition_intent _ _ _ _ _ _) => apply moves_advance; [exact _|apply Hops, op_transition_intent]
  | |- advances _ (transition_protection _ _ _ _ _ _) => apply moves_advance; [exact _|apply Hops, op_transition_protection]
  | |- advances _ (record_incident _ _ _ _ _ _ _) => apply moves_advance; [exact _|apply Hops, op_record_incident]
  | |- advances _ (save_exchange_order_receipt _ _ _) => apply moves_advance; [exact _|apply Hops, op_save_exchange_order_receipt]
  | |- advances _ (save_protection _ _ _ _ _ _ _ _ _ _ _) => apply moves_advance; [exact _|apply Hops, op_save_protection]
  | |- advances _ (update_protection_active _ _ _ _) => apply moves_advance; [exact _|apply Hops, op_update_protection_active]
  end.
(** A database program of the executor: operations of the repository, reads, a commit. *)
Ltac database_program :=
  apply Hdatabase; constructor; let rel := fresh in let Hrel := fresh in let Hops := fresh in
  intros rel Hrel Hops; repeat adv1 Hops.

Lemma quarantine_kept a : preserves P (_quarantine_local_position a).
Proof. unfold _quarantine_local_position. database_program. Qed.
Lemma incident_kept a t : preserves P (_record_quarantine_incident a t).
Proof. unfold _record_quarantine_incident. database_program. Qed.
Lemma mark_kept a : preserves P (_mark_intent_not_submitted a).
Proof. unfold _mark_intent_not_submitted. database_program. Qed.

Ltac executed :=
  repeat first
    [ apply preserves_ret | apply preserves_raise | apply preserves_lift | apply preserves_bind; [|intros ?]
    | apply quarantine_kept | apply incident_kept | apply mark_kept
    | match goal with
      | |- preserves _ (on_adapter _) => apply Hvenue; constructor
      | |- preserves _ (match ?x with _ => _ end) => destruct x eqn:?
      end ].

Lemma emergency_kept a snapshot ls step : preserves P (_execute_emergency_close writer_valid a snapshot ls step).
Proof. unfold _execute_emergency_close. executed. Qed.
Lemma resolve_kept a ls : preserves P (_resolve_unknown_intent a ls).
Proof.
  unfold _resolve_unknown_intent. destruct (_ ≫= _) as [view|]; [|executed].
  apply preserves_bind; [apply Hvenue; constructor|]. intros [receipt|]; [|apply mark_kept].
  apply preserves_bind; [database_program|intros; executed].
Qed.
Lemma resubmit_kept a snapshot : preserves P (_resubmit_protection a snapshot).
Proof.
  unfold _resubmit_protection. apply preserves_bind; [unfold resubmission_plan; database_program|].
  intros [plan|]; [|executed]. apply preserves_bind; [apply Hvenue; constructor|]. intros result.
  destruct (protection_is_active result), (ps_stop_exchange_order_id result); try by executed.
  apply preserves_bind; [unfold record_resubmission; database_program|intros; executed].
Qed.

Lemma execute_one_kept a snapshot ls step : preserves P (_execute_one writer_valid a snapshot ls step).
Proof.
  unfold _execute_one. destruct (ra_action_type a);
    first [apply emergency_kept|apply resolve_kept|apply resubmit_kept|executed].
Qed.

Lemma execution_kept actions snapshot ls step :
  preserves P (execute_recovery_actions writer_valid actions snapshot ls step).
Proof.
  unfold execute_recovery_actions. generalize (mkExecution [] [] []). induction actions as [|a l IH]; intros acc; cbn [execute_actions].
  { apply preserves_ret. }
  apply preserves_try_else; [apply execute_one_kept|intros e q [= <-]; apply IH|intros []; apply IH].
Qed.
End kept.
End executor.

(** ** Every action is accounted for *)

Section accounting.
Context {H : Host} {W : Type} {A : ExchangeAdapter W} (writer_valid : SM W bool).

(** The actions run one after the other, each on the world the one before it left, however
    that one ended. *)
Inductive ran_in_order snapshot ls step : list RecoveryAction -> W * Session -> list (res bool) -> W * Session -> Prop :=
  | ran_none w : ran_in_order snapshot ls step [] w [] w
  | ran_one a l w r w1 rs w2 :
      _execute_one writer_valid a snapshot ls step w = (r, w1) -> ran_in_order snapshot ls step l w1 rs w2 ->
      ran_in_order snapshot ls step (a :: l) w (r :: rs) w2.

(** What came of an action: it was executed, it was skipped, it raised. *)
Definition executed_of (x : RecoveryAction * res bool) : option string :=
  match x.2 with Ok true => Some (ra_target_ref x.1) | _ => None end.
Definition skipped_of (x : RecoveryAction * res bool) : option string :=
  match x.2 with Ok false => Some (ra_target_ref x.1) | _ => None end.
Definition error_of (x : RecoveryAction * res bool) : option (RecoveryActionType * string * PyExc) :=
  match x.2 with Raise e => Some (ra_action_type x.1, ra_target_ref x.1, e) | _ => None end.

Lemma execute_actions_answer actions snapshot ls step acc w : exists x w' outcomes,
  execute_actions writer_valid actions snapshot ls step acc w = (Ok x, w') /\
  ran_in_order snapshot ls step actions w outcomes w' /\
  re_executed x = re_executed acc ++ omap executed_of (zip actions outcomes) /\
  re_skipped x = re_skipped acc ++ omap skipped_of (zip actions outcomes) /\
  re_errors x = re_errors acc ++ omap error_of (zip actions outcomes).
Proof.
  revert acc w. induction actions as [|a l IH]; intros acc w; cbn [execute_actions].
  { exists acc, w, []. split_and!; [done|constructor|by rewrite app_nil_r ..]. }
  unfold stry_else. destruct (_execute_one _ _ _ _ _ w) as [[handled|e] w1] eqn:E1; [destruct handled|].
  all: edestruct IH as (x & w' & rs & E & Hr & H1 & H2 & H3); eexists x, w', (_ :: rs); split; [exact E|];
    split; [by econstructor|]; rewrite H1, H2, H3; cbn; rewrite <- ?app_assoc; by split_and!.
Qed.

(** C30. Execution of a plan always returns, and runs every action once, in the order of
    the plan and each after whatever the one before it did: the actions that answered
    true are reported as executed, those that answered false as skipped, and those that
    raised as errors with their exception, each list in the order of the plan. *)
Theorem recovery_answers_every_action actions snapshot ls step w : exists x w' outcomes,
  execute_recovery_actions writer_valid actions snapshot ls step w = (Ok x, w') /\
  ran_in_order snapshot ls step actions w outcomes w' /\
  re_executed x = omap executed_of (zip actions outcomes) /\
  re_skipped x = omap skipped_of (zip actions outcomes) /\
  re_errors x = omap error_of (zip actions outcomes).
Proof. apply (execute_actions_answer actions snapshot ls step (mkExecution [] [] [])). Qed.

(** ** The tables *)

Lemma executor_moves_tables rel `{!PreOrder rel} d0 :
  (forall B (n : SM Session B), op_of false B n -> moves rel n) ->
  forall actions snapshot ls step,
  preserves (fun w : W * Session => rel d0 (s_committed w.2)) (execute_recovery_actions writer_valid actions snapshot ls step).
Proof.
  intros Hops actions snapshot ls step. apply execution_kept.
  - intros X m _ [w s] r [w' s'] Hd. unfold on_adapter. destruct (m w). by intros [= <- <- <-].
  - intros X m [X' n Hn] [w s] r [w' s'] Hd. unfold on_database. destruct (with_session n s) as [r1 s1] eqn:E.
    intros [= <- <- <-]. simpl in *. etrans; [exact Hd|]. eapply (advances_session rel); [by apply Hn|exact E].
Qed.

(** Recovery moves the committed lifecycles only by legal steps of the ledger,
    never changes or removes evidence, and leaves no position without a fill. *)
Theorem recovery_keeps_the_ledger actions snapshot ls step w s r w' s' :
  execute_recovery_actions writer_valid actions snapshot ls step (w, s) = (r, (w', s')) ->
  rtc ledger_step (committed_lg s) (committed_lg s') /\ grows (s_committed s) (s_committed s').
Proof.
  intros E. split.
  - refine (executor_moves_tables ledger_rel (s_committed s) repository_op_refines actions snapshot ls step (w, s) r (w', s') _ E).
    unfold ledger_rel. reflexivity.
  - refine (executor_moves_tables grows (s_committed s) repository_op_grows actions snapshot ls step (w, s) r (w', s') _ E).
    reflexivity.
Qed.
End accounting.

(** ** At the venue *)

Section on_binance.
Context {H : Host} {W : Type} {V : VenueClient W} (cap : option AccountWriterCapability).
Notation St := (AState (W * list VenueEvent)).
#[local] Instance on_binance : ExchangeAdapter St := binance_adapter (V := recorded V) cap.
Notation execute := (execute_recovery_actions (_recovery_writer_valid (V := recorded V) cap)).

Lemma writer_probe_keeps (Q : list VenueEvent -> Prop) :
  (forall l e, Q l -> reduces_risk e = true -> Q (l ++ [e])) ->
  preserves (keeps_log (W := W) Q) (_recovery_writer_valid (V := recorded V) cap).
Proof.
  intros Hq. unfold _recovery_writer_valid. destruct cap; [|apply preserves_ret].
  apply preserves_bind; [by apply (observe_kept reduces_risk)|intros; apply preserves_ret].
Qed.

(** What the operations keep of the log, execution keeps. *)
Lemma execution_keeps_log (Q : list VenueEvent -> Prop) :
  derisking_keeps (keeps_log (W := W) Q) ->
  preserves (keeps_log (W := W) Q) (_recovery_writer_valid (V := recorded V) cap) ->
  (forall symbol id, preserves (keeps_log (W := W) Q) (query_order_by_client_id symbol id)) ->
  forall actions snapshot ls step, preserves (fun w : St * Session => keeps_log Q w.1) (execute actions snapshot ls step).
Proof.
  intros Hk Hw Hq actions snapshot ls step. apply execution_kept.
  - intros X m Hm [w s] r [w' s'] Hl. unfold on_adapter. destruct (m w) as [r1 w1] eqn:E. intros [= <- <- <-].
    assert (preserves (keeps_log Q) m) as Hp; [|by eapply Hp].
    destruct Hm; [exact Hw|by apply exit_keeps|by apply ensure_loop_keeps|apply (dk_cancel _ Hk)|apply Hq].
  - intros X m _ [w s] r [w' s'] Hl. unfold on_database. destruct (with_session m s). by intros [= <- <- <-].
Qed.

(** On Binance, whatever the plan: every order a recovery creates is reduce-only
    and it changes no leverage; and each of its mutations reaches the venue right
    after an observation of the registry in which this process holds the lease. *)
Theorem recovery_reduces_under_the_fence actions snapshot ls step :
  preserves (fun w : St * Session => Forall (fun e => reduces_risk e = true) (log w.1)) (execute actions snapshot ls step) /\
  preserves (fun w : St * Session => fenced cap (log w.1)) (execute actions snapshot ls step).
Proof.
  split.
  - assert (forall l e, Forall (fun e => reduces_risk e = true) l -> reduces_risk e = true ->
      Forall (fun e => reduces_risk e = true) (l ++ [e])) as Hq by (intros; apply Forall_app; by repeat constructor).
    apply (execution_keeps_log (Forall (fun e => reduces_risk e = true)));
      [by apply derisking_operations|by apply writer_probe_keeps|intros; by apply query_keeps].
  - apply (execution_keeps_log (fenced cap)).
    + by apply fenced_operations.
    + unfold _recovery_writer_valid. destruct cap as [c|] eqn:Ec; [|apply preserves_ret].
      apply preserves_bind; [|intros; apply preserves_ret].
      apply (observe_kept (fun e => negb (is_mutation e))); [|done].
      intros l e Hl He. apply fenced_snoc; [done|]. intros Hx. by rewrite Hx in He.
    + intros. by apply (adapter_operations_fenced cap).
Qed.
End on_binance.

(** ** Concrete runs *)

#[local] Existing Instance demo_host.
#[local] Existing Instance scripted.

(** The position of [demo_entry] under an active stop, and its account. *)
Definition demo_protected : Session := (commit (run_calls (demo_entry ++ [
  mkCall _ _ (op_save_protection "pr1" "p1" (dint 90) None "stop-1" None PROTECTION_INTENT None None None "P1");
  mkCall _ _ (op_update_protection_active "pr1" (mkProtectionReceipt "p1" "700" None 14) PROTECTION_ACTIVE 14);
  mkCall _ _ (op_transition_position "p1" POSITION_PROJECTED PROTECTED "Protected" [] None)]%string) new_session)).2.

Definition demo_account : AuthoritativeAccountSnapshot :=
  mkAccountSnapshot (dint 1000) (dint 1000) [mkExchangePosition "BTCUSDT" "long" (dint 2) (dint 100) (dint 100) dzero None] [] 20.

Definition resubmission : list RecoveryAction := [action RESUBMIT_PROTECTION "p1" (Some "BTCUSDT"%string)].
Definition accepting_script : Script := sample_protection_script (Ok (sample_order "701" "v2s", None)).

(** A recovery whose submissions the exchange accepts, with its calls. *)
Definition recover (s : Session) :=
  execute_recovery_actions (A := traced scripted) (sret true) resubmission demo_account None DEFAULT_STEP_SIZE
    ((accepting_script, []), s).
Definition recovered : Session := (recover demo_protected).2.2.

Lemma recovery_keeps_the_ledger_witness :
  map pt_state (protections (s_committed recovered)) = [PROTECTION_CANCELLED; PROTECTION_ACTIVE] /\
  rtc ledger_step (committed_lg demo_protected) (committed_lg recovered).
Proof.
  split; [vm_compute; reflexivity|].
  refine (proj1 (recovery_keeps_the_ledger (A := traced scripted) (sret true) resubmission demo_account None DEFAULT_STEP_SIZE
    (accepting_script, []) demo_protected (recover demo_protected).1 (recover demo_protected).2.1 recovered _)).
  unfold recovered, recover. by destruct (execute_recovery_actions _ _ _ _ _ _) as [r [w s]].
Defined.

(** The revision of a resubmission is two more than the version of the last
    protection row, and every row becomes active at version 2: the second
    recovery of a position reuses the client id of the first.  The exchange
    accepts the stop, the database refuses the row, and nothing is recorded. *)
Theorem second_resubmission_not_recorded :
  let '(r, ((_, calls), s)) := recover recovered in
  (exists c sym side q x, calls = [CallSubmitProtection c sym side q (Ok x)]) /\
  r = Ok (mkExecution [] [] [(RESUBMIT_PROTECTION, "p1"%string, IntegrityError "constraint")]) /\
  s_committed s = s_committed recovered.
Proof.
  destruct (recover recovered) as [r [[w calls] s]] eqn:E. vm_compute in E. injection E as <- <- <- <-.
  split; [by do 5 eexists|]. split; vm_compute; reflexivity.
Qed.

(** An exchange that refuses the first submission and accepts the second. *)
Definition flaky : ExchangeAdapter nat := {|
  submit_market_order _ _ _ := fun w => (Raise BinanceAdapterUnavailable, w);
  fetch_fills _ _ := fun w => (Ok [], w);
  submit_protection _ _ _ _ := fun w =>
    (match w with O => Raise ProtectionSubmissionError | S _ => Ok (sample_order "702" "v2s", None) end, S w);
  submit_reduce_only_exit _ _ _ := fun w => (Raise BinanceAdapterUnavailable, w);
  cancel_order _ _ := fun w => (Raise BinanceAdapterUnavailable, w);
  query_order_by_client_id _ _ := fun w => (Ok None, w);
  fetch_authoritative_snapshot := fun w => (Ok demo_account, w) |}.

Definition recover_flaky (s : Session) :=
  execute_recovery_actions (A := traced flaky) (sret true) resubmission demo_account None DEFAULT_STEP_SIZE ((O, []), s).

Definition accepted_stop_ids (calls : list AdapterCall) : list string :=
  omap (fun c => match c with CallSubmitProtection c _ _ _ (Ok _) => Some (sp_stop_client_order_id c) | _ => None end) calls.

(** When the ladder had to retry, the row records the client id of the first
    attempt, which the exchange refused, not that of the live stop. *)
Theorem retried_resubmission_records_refused_id :
  let '(r, ((_, calls), s)) := recover_flaky demo_protected in
  r = Ok (mkExecution ["p1"%string] [] []) /\
  exists live recorded, accepted_stop_ids calls = [live] /\
    map pt_stop_client_order_id (protections (s_committed s)) = ["stop-1"%string; recorded] /\ live <> recorded.
Proof.
  destruct (recover_flaky demo_protected) as [r [[w calls] s]] eqn:E. vm_compute in E. injection E as <- _ <- <-.
  split; [reflexivity|]. do 2 eexists. split; [vm_compute; reflexivity|]. split; [vm_compute; reflexivity|discriminate].
Qed.

(** The new row starts over: the stop that profit protection had raised becomes
    the original stop of the position. *)
Definition demo_tightened : Session :=
  (commit (run_calls [mkCall _ _ (op_update_protection_stop "pr1" (dint 95) "stop-2" "703" None)] demo_protected)).2.

Theorem resubmission_forgets_original_stop :
  map pt_original_stop_loss_price (protections (s_committed demo_tightened)) = [Some (dint 90)] /\
  map pt_original_stop_loss_price (protections (s_committed (recover demo_tightened).2.2)) =
    [Some (dint 90); Some (dint 95)].
Proof. split; vm_compute; reflexivity. Qed.
