(* ===== verification/LocalState.v ===== *)
(** * LocalState: what reconciliation reads

    [load_local_state_from_session] and [runtime_snapshot_from_value] of
    [application/reconciliation_service.py]: the local view is built from the
    tables of [Database] alone, the snapshot of the runtime API from its JSON.
    No write is pending between the queries of the loader, so they see one state
    of the tables. *)
From S2P Require Import Prelude PyDecimal PyValue State Receipts ClientOrderId Adapter FillNormalizer AccountWriter BinanceAdapter.
From S2P Require Import Quantities Reconciliation PortfolioRisk Database Repository Transactions Ledger.
From Stdlib Require Import Ascii.
Local Open Scope Z_scope.
Local Open Scope py_scope.

(** ** The local view *)

Definition orders_by_intent (d : Db) (intent_id : string) : option OrderRow :=
  List.find (order_of_intent intent_id) (reverse (orders d)).

(** The truthy values. *)
Definition texts (l : list (option string)) : gset string :=
  list_to_set (omap (fun o => o ≫= fun s => if str_truthy s then Some s else None) l).

Section position.
Context (d : Db) (p : PositionRow).

Definition position_order : option OrderRow := find_row (R := OrderRow) (mp_order_record_id p) d.
Definition position_fills : list FillRow := bfilter (fill_of_order (mp_order_record_id p)) (fills d).
Definition position_protections : list ProtectionRow :=
  bfilter (fun r => String.eqb (pt_position_id r) (mp_position_id p)) (protections d).
Definition active_protections : list ProtectionRow :=
  bfilter (fun r => bool_decide (pt_state r = PROTECTION_ACTIVE)) position_protections.

Definition position_known_ids : gset string :=
  match position_order with Some o => {[eo_client_order_id o]} | None => ∅ end
  ∪ list_to_set (map pt_stop_client_order_id position_protections)
  ∪ texts (map pt_tp_client_order_id position_protections).

Definition protection_exchange_ids : gset string :=
  texts (concat (map (fun r => [pt_stop_exchange_order_id r; pt_tp_exchange_order_id r]) position_protections)).

Definition position_claim_keys : gset string :=
  {[mp_position_id p]} ∪ {[mp_intent_id p]} ∪ {[mp_order_record_id p]}
  ∪ match position_order with
    | Some o => {[eo_client_order_id o]} ∪ texts [eo_exchange_order_id o]
    | None => ∅
    end
  ∪ texts (concat (map (fun f => [Some (fl_fill_id f); Some (fl_exchange_order_id f); fl_trade_id f]) position_fills))
  ∪ protection_exchange_ids.

Definition protection_refs (r : ProtectionRow) : list (string * string * string) :=
  match pt_stop_exchange_order_id r with
  | Some x => if str_truthy x then [(x, pt_stop_client_order_id r, "HARD_STOP"%string)] else []
  | None => [] end ++
  match pt_tp_exchange_order_id r, pt_tp_client_order_id r with
  | Some x, Some c => if str_truthy x && str_truthy c then [(x, c, "TAKE_PROFIT"%string)] else []
  | _, _ => [] end.

Definition position_view : LocalPositionView :=
  let active := last active_protections in
  mkLocalPosition (mp_position_id p) (mp_symbol p) (mp_direction p) (mp_quantity p) (mp_state p) position_claim_keys
    (is_nonempty active_protections) protection_exchange_ids (concat (map protection_refs position_protections))
    (mp_entry_price p)
    (a ← active; Some (match pt_original_stop_loss_price a with
                       | Some x => if dtruthy x then x else pt_stop_loss_price a
                       | None => pt_stop_loss_price a end))
    (pt_stop_loss_price <$> active) (pt_protection_id <$> active)
    (default "P1"%string (pt_policy <$> active)) (default 0 (pt_version <$> active)).

(** A position can be claimed once its order is acknowledged and filled. *)
Definition claimable : bool :=
  ostr_truthy (o ← position_order; eo_exchange_order_id o) && is_nonempty position_fills.
End position.

(** [refs[key] = refs.get(key, frozenset()) | keys] *)
Definition add_claim (d : Db) (refs : gmap string (gset string)) (p : PositionRow) : gmap string (gset string) :=
  if claimable d p then
    let key := position_key (mp_symbol p) (mp_direction p) in
    <[key := default ∅ (refs !! key) ∪ position_claim_keys d p]> refs
  else refs.

Definition pending_intent (s : V2IntentState) : bool :=
  bool_decide (s ∈ [EXCHANGE_SUBMITTING; EXCHANGE_UNKNOWN; EXCHANGE_ACKNOWLEDGED]).

Section intents.
Context (mode : V2ExecutionMode) (d : Db).

Definition mode_positions : list PositionRow := bfilter (in_mode mode) (positions d).
Definition projected_intents : gset string := list_to_set (map mp_intent_id mode_positions).
Definition quarantined_intents : gset string :=
  list_to_set (map mp_intent_id (bfilter (fun p => bool_decide (mp_state p = QUARANTINED)) mode_positions)).
Definition entry_filled_intents : gset string :=
  list_to_set (map fl_intent_id (bfilter (fun f => negb (fl_reduce_only f)) (fills d))).
Definition historical_gaps : gset string :=
  texts (map ic_intent_id (bfilter (fun i => String.eqb (ic_incident_type i) "HISTORICAL_LEDGER_GAP") (incidents d))).

Definition unprojected_fill (intent_id : string) : bool :=
  bool_decide (intent_id ∈ entry_filled_intents) && negb (bool_decide (intent_id ∈ projected_intents))
  && negb (bool_decide (intent_id ∈ historical_gaps)).

Definition intent_view (i : IntentRow) : option LocalIntentView :=
  let id := it_intent_id i in
  if pending_intent (it_state i) || unprojected_fill id || bool_decide (id ∈ quarantined_intents) then
    Some (mkLocalIntent id (it_symbol i) (default ""%string (eo_client_order_id <$> orders_by_intent d id)) (it_state i)
            (unprojected_fill id) (bool_decide (id ∈ quarantined_intents)))
  else None.

Definition mode_intents : list IntentRow := bfilter (fun i => bool_decide (it_execution_mode i = mode)) (intents d).
End intents.

Definition load_local_state_from_session {H : Host} (mode : V2ExecutionMode) (baseline : list (string * Dec)) :
    SM Session (LocalStateView * gmap string (gset string)) :=
  let! open_positions := get_open_positions mode None in
  let! d := read_db in
  sret (mkLocalState (map (position_view d) open_positions) (omap (intent_view mode d) (mode_intents mode d))
          (list_to_set (map eo_client_order_id (orders d)) ∪ ⋃ map (position_known_ids d) open_positions)
          baseline (historical_gaps d),
        foldl (add_claim d) ∅ open_positions).

(** ** The snapshot of the runtime API *)

(** [d.get(key)] for the first key whose value is neither None nor empty text. *)
Definition absent (v : PyVal) : bool := match v with VNone | VStr "" => true | _ => false end.
Fixpoint first_decimal (item : PyDict) (keys : list string) (d : Dec) : res Dec :=
  match keys with
  | [] => Ok d
  | k :: keys => if absent (py_get item k) then first_decimal item keys d else py_decimal (py_get item k)
  end.
(** [x.get(a) or x.get(b) or ... or d] *)
Definition first_truthy (item : PyDict) (keys : list string) (d : PyVal) : PyVal :=
  foldr (fun k v => py_or (py_get item k) v) d keys.

Definition runtime_symbol (item : PyDict) : string :=
  let raw := or_text (py_get item "symbol") "" in
  let raw := default raw (without_suffix ":USDT" raw) in
  match without_suffix "USDT" raw with
  | Some base => if contains_char "/" raw then raw else (base +:+ "/USDT")%string
  | None => raw
  end.

Fixpoint runtime_bool (item : PyDict) (keys : list string) : bool :=
  match keys with
  | [] => false
  | k :: keys =>
      match py_find item k with
      | None => runtime_bool item keys
      | Some (VBool b) => b
      | Some (VStr s) => bool_decide (str_lower (strip s) ∈ ["1"; "true"; "yes"; "y"]%string)
      | Some v => py_truthy v
      end
  end.

(** The elements of an iterated value; what is not a mapping is skipped. *)
Definition mappings_in (v : option PyVal) : res (list PyDict) :=
  match v with
  | None => Ok []
  | Some (VList _ l) => Ok (omap (fun x => match x with VDict _ d => Some d | _ => None end) l)
  | Some (VDict _ _) | Some (VStr _) => Ok []
  | Some _ => Raise (TypeError "not iterable")
  end.

Definition runtime_position (item : PyDict) : res (list ExchangePositionSnapshot) :=
  first_decimal item ["contracts"; "quantity"; "positionAmt"]%string dzero ≫= fun quantity =>
  if (quantity <=? dzero)%D then Ok []
  else
  let direction := str_lower (py_str (first_truthy item ["direction"; "side"]%string (VStr ""))) in
  if negb (direction_ok direction) then Ok []
  else
  first_decimal item ["entry_price"; "entryPrice"; "avgEntryPrice"]%string dzero ≫= fun entry_price =>
  first_decimal item ["mark_price"; "markPrice"]%string dzero ≫= fun mark_price =>
  first_decimal item ["unrealized_pnl"; "unrealizedPnl"; "unRealizedProfit"]%string dzero ≫= fun unrealized_pnl =>
  (if absent (py_get item "leverage") then Ok None else py_int (py_get item "leverage") ≫= fun z => Ok (Some z)) ≫= fun leverage =>
  Ok [mkExchangePosition (runtime_symbol item) direction quantity entry_price mark_price unrealized_pnl leverage].

Definition runtime_order (item : PyDict) : res (list ExchangeOrderSnapshot) :=
  let client := first_truthy item ["client_order_id"; "clientAlgoId"; "clientOrderId"]%string VNone in
  first_decimal item ["quantity"; "origQty"; "qty"; "algoQuantity"]%string dzero ≫= fun quantity =>
  (if forallb (fun k => absent (py_get item k)) ["price"; "stopPrice"; "triggerPrice"]%string then Ok None
   else first_decimal item ["price"; "stopPrice"; "triggerPrice"]%string dzero ≫= fun x => Ok (Some x)) ≫= fun price =>
  Ok [mkExchangeOrder (py_str (first_truthy item ["exchange_order_id"; "algoId"; "orderId"; "id"]%string (VStr "")))
        (if py_truthy client then Some (py_str client) else None) (runtime_symbol item)
        (str_lower (or_text (py_get item "side") ""))
        (str_lower (py_str (first_truthy item ["order_type"; "type"; "orderType"]%string (VStr "unknown"))))
        quantity price (str_lower (or_text (py_get item "status") "new")) (runtime_bool item ["reduce_only"; "reduceOnly"]%string)].

Definition runtime_snapshot_from_value (value : PyVal) (observed_at : datetime) : res AuthoritativeAccountSnapshot :=
  match value with
  | VDict _ value =>
      (mappings_in (py_find value "positions") ≫= collect runtime_position) ≫= fun positions =>
      (mappings_in (py_find value "open_orders") ≫= collect runtime_order) ≫= fun orders =>
      let account := match py_get value "account" with VDict _ d => d | _ => [] end in
      first_decimal account ["balance"; "wallet_balance"; "totalWalletBalance"]%string dzero ≫= fun balance =>
      first_decimal account ["equity"; "total_equity"; "totalMarginBalance"]%string dzero ≫= fun equity =>
      make_AuthoritativeAccountSnapshot (mkAccountSnapshot balance equity positions orders observed_at)
  | _ => Raise (ValueError "exchange snapshot must be an object")
  end.

(** ** The decoded snapshot *)

Lemma collect_forall {A B} (P : B -> Prop) (f : A -> res (list B)) l ys :
  (forall x y, f x = Ok y -> Forall P y) -> collect f l = Ok ys -> Forall P ys.
Proof.
  intros Hf. revert ys. induction l as [|x l IH]; intros ys; simpl; [intros [= <-]; constructor|].
  intros (y & Hy & (zs & Hz & [= <-])%res_bind_ok)%res_bind_ok. apply Forall_app. split; [by eapply Hf|by apply IH].
Qed.

Definition sound_position (p : ExchangePositionSnapshot) : Prop :=
  (xp_quantity p <=? dzero)%D = false /\ (xp_direction p = "long" \/ xp_direction p = "short")%string.

Lemma runtime_position_sound item l : runtime_position item = Ok l -> Forall sound_position l.
Proof.
  unfold runtime_position. intros (q & Hq & H)%res_bind_ok. destruct (q <=? dzero)%D eqn:Eq; [injection H as <-; constructor|].
  cbv zeta in H. destruct (negb (direction_ok _)) eqn:Ed; [injection H as <-; constructor|].
  repeat (apply res_bind_ok in H as (? & _ & H)). injection H as <-. constructor; [|constructor]. split; [done|].
  simpl. unfold direction_ok in Ed. apply negb_false_iff, orb_true_iff in Ed as [E%String.eqb_eq|E%String.eqb_eq]; auto.
Qed.

(** C31. Whatever the API returned, a snapshot that is produced lists only positions
    of positive quantity on a known side, and an equity that is not negative. *)
Theorem runtime_snapshot_is_sound value t s :
  runtime_snapshot_from_value value t = Ok s ->
  Forall (fun p => (xp_quantity p <=? dzero)%D = false /\ (xp_direction p = "long" \/ xp_direction p = "short")%string)
    (as_positions s) /\
  (as_equity s <? dzero)%D = false /\ as_snapshot_timestamp s = t.
Proof.
  unfold runtime_snapshot_from_value. destruct value; try done. intros H.
  apply res_bind_ok in H as (ps & Hps & H). apply res_bind_ok in H as (os & _ & H). cbv zeta in H.
  apply res_bind_ok in H as (b & _ & H). apply res_bind_ok in H as (e & _ & H).
  unfold make_AuthoritativeAccountSnapshot in H. inv_asserts. subst s. simpl in *. split_bools. split; [|done].
  apply res_bind_ok in Hps as (l & _ & Hps). revert Hps. apply collect_forall. apply runtime_position_sound.
Qed.

(** ** The claims *)

Section claims.
Context {H : Host} (mode : V2ExecutionMode) (baseline : list (string * Dec)).

Definition open_in_mode (d : Db) : list PositionRow := bfilter (fun p => in_mode mode p && position_open p) (positions d).

Lemma bfilter_ext {A} (f g : A -> bool) l : (forall x, f x = g x) -> bfilter f l = bfilter g l.
Proof. intros E. induction l as [|x l IH]; simpl; [done|]. rewrite E. by destruct (g x); [f_equal|]. Qed.

Lemma load_run s ls refs s' :
  load_local_state_from_session mode baseline s = (Ok (ls, refs), s') ->
  s' = s /\ ls_positions ls = map (position_view (s_db s)) (open_in_mode (s_db s)) /\
  refs = foldl (add_claim (s_db s)) ∅ (open_in_mode (s_db s)).
Proof.
  unfold load_local_state_from_session, get_open_positions. intros Hrun.
  apply sbind_inv in Hrun as [(l & s1 & (-> & -> & _)%select_ok & Hrun)|(e & _ & E)]; [|done].
  apply sbind_inv in Hrun as [(d & s1 & E & Hrun)|(e & _ & E)]; [|done]. injection E as <- <-.
  apply sret_inv in Hrun as [E ->]. injection E as -> ->. simpl.
  assert (bfilter (fun p => in_mode mode p && position_open p && (negb (ostr_truthy None) ||
    bool_decide (Some (mp_symbol p) = None))) (positions (s_db s)) = open_in_mode (s_db s)) as E.
  { apply bfilter_ext. intros p. simpl. apply andb_true_r. }
  by rewrite <- E.
Qed.

(** A claimed identity is one of a claimable position of that symbol and direction. *)
Lemma claim_refs_elem d l key x : x ∈ refs_of (foldl (add_claim d) ∅ l) key ->
  exists p, p ∈ l /\ claimable d p = true /\ position_key (mp_symbol p) (mp_direction p) = key /\ x ∈ position_claim_keys d p.
Proof.
  unfold refs_of. induction l as [|p l IH] using rev_ind.
  - simpl. rewrite lookup_empty. simpl. set_solver.
  - rewrite foldl_app. simpl. unfold add_claim at 1. destruct (claimable d p) eqn:Ep.
    + destruct (decide (position_key (mp_symbol p) (mp_direction p) = key)) as [<-|Hk].
      * rewrite lookup_insert_eq. simpl. intros [Hx|Hx]%elem_of_union; [|exists p; rewrite elem_of_app; repeat split; try done; right; left].
        apply IH in Hx as (q & Hq & ?). exists q. rewrite elem_of_app. auto.
      * rewrite lookup_insert_ne by done. intros Hx. apply IH in Hx as (q & Hq & ?). exists q. rewrite elem_of_app. auto.
    + intros Hx. apply IH in Hx as (q & Hq & ?). exists q. rewrite elem_of_app. auto.
Qed.

Lemma claimable_backed d p : claimable d p = true ->
  (exists o, find_row (mp_order_record_id p) d = Some o /\ ostr_truthy (eo_exchange_order_id o) = true) /\
  exists f, f ∈ fills d /\ fl_exchange_order_record_id f = mp_order_record_id p.
Proof.
  unfold claimable, position_order, position_fills. intros [Ho Hf]%andb_true_iff. split.
  - destruct (find_row _ _) as [o|]; [|done]. by exists o.
  - destruct (bfilter _ _) as [|f l] eqn:E; [done|]. exists f.
    assert (f ∈ bfilter (fill_of_order (mp_order_record_id p)) (fills d)) as [Hin Hm]%elem_of_bfilter by (rewrite E; left).
    split; [done|]. by apply String.eqb_eq in Hm.
Qed.

(** Two open positions share no identity. *)
Definition identities_distinct (d : Db) : Prop :=
  forall p q x, p ∈ open_in_mode d -> q ∈ open_in_mode d ->
    x ∈ position_claim_keys d p -> x ∈ position_claim_keys d q -> p = q.

(** The local position that reconciliation lets claim an exchange position is an
    open row of the same symbol and direction, whose order the exchange
    acknowledged and filled: nearness of symbol or quantity never claims. *)
Theorem loaded_claims_are_backed s ls refs s' p c :
  load_local_state_from_session mode baseline s = (Ok (ls, refs), s') ->
  identities_distinct (s_db s) ->
  claim_of ls refs p = Some c ->
  exists r, r ∈ positions (s_db s) /\ position_open r = true /\ mp_execution_mode r = mode /\
    c = position_view (s_db s) r /\ position_key (mp_symbol r) (mp_direction r) = exchange_key p /\
    (exists o, find_row (mp_order_record_id r) (s_db s) = Some o /\ ostr_truthy (eo_exchange_order_id o) = true) /\
    exists f, f ∈ fills (s_db s) /\ fl_exchange_order_record_id f = mp_order_record_id r.
Proof.
  intros (_ & Hls & ->)%load_run Hd Hc. unfold claim_of, _claim_exchange_position in Hc.
  case_bool_decide; [done|]. apply find_some in Hc as [Hin Hs]. rewrite Hls in Hin.
  apply list_elem_of_In, list_elem_of_fmap in Hin as (r & -> & Hr).
  unfold shares_identity in Hs. apply negb_true_iff, bool_decide_eq_false in Hs.
  apply set_choose_L in Hs as [x [Hx Hx']%elem_of_intersection]. simpl in Hx.
  apply claim_refs_elem in Hx' as (q & Hq & Hb & Hk & Hxq). assert (q = r) as -> by (by eapply Hd).
  exists r. apply elem_of_bfilter in Hr as [Hr [Hm Ho]%andb_true_iff]. apply bool_decide_eq_true in Hm.
  apply claimable_backed in Hb as [? ?]. done.
Qed.
End claims.

(** ** Evaluation *)

#[local] Existing Instance demo_host.

Definition demo_loaded : LocalStateView * gmap string (gset string) :=
  match (load_local_state_from_session LOCAL_PAPER [] demo_committed).1 with
  | Ok x => x | Raise _ => (mkLocalState [] [] ∅ [] ∅, ∅) end.

Definition demo_row : PositionRow :=
  Eval vm_compute in mkPosition "p1" "i1" "2" "BTCUSDT" "long" LOCAL_PAPER (dzero + dint 2)%D
    (dquot (dzero + dint 2 * dint 100) (dzero + dint 2))%D (dzero + dzero)%D POSITION_PROJECTED 0 13 None None None.
Lemma demo_positions : positions (s_db demo_committed) = [demo_row].
Proof. vm_compute. reflexivity. Qed.
Lemma demo_open : open_in_mode LOCAL_PAPER (s_db demo_committed) = [demo_row].
Proof. vm_compute. reflexivity. Qed.

Lemma loaded_claims_are_backed_witness :
  exists c r, claim_of demo_loaded.1 demo_loaded.2
    (mkExchangePosition "BTCUSDT" "long" (dint 2) (dint 100) (dint 100) dzero None) = Some c /\
  r ∈ positions (s_db demo_committed) /\ c = position_view (s_db demo_committed) r /\ mp_position_id r = "p1"%string.
Proof.
  assert (is_ok (load_local_state_from_session LOCAL_PAPER [] demo_committed).1 = true) as Hok by (vm_compute; reflexivity).
  assert (bool_decide (claim_of demo_loaded.1 demo_loaded.2
    (mkExchangePosition "BTCUSDT" "long" (dint 2) (dint 100) (dint 100) dzero None) = None) = false) as Hc by (vm_compute; reflexivity).
  destruct (claim_of demo_loaded.1 demo_loaded.2 (mkExchangePosition "BTCUSDT" "long" (dint 2) (dint 100) (dint 100) dzero None))
    as [c|] eqn:Ec; [clear Hc|discriminate Hc].
  assert (exists s', load_local_state_from_session LOCAL_PAPER [] demo_committed = (Ok (demo_loaded.1, demo_loaded.2), s')) as [s' El].
  { unfold demo_loaded. destruct (load_local_state_from_session LOCAL_PAPER [] demo_committed) as [[[ls refs]|e] s']; [|discriminate Hok].
    exists s'. reflexivity. }
  assert (identities_distinct LOCAL_PAPER (s_db demo_committed)) as Hd.
  { intros p q x Hp Hq _ _. rewrite demo_open in Hp, Hq.
    apply list_elem_of_singleton in Hp, Hq. rewrite Hp, Hq. reflexivity. }
  destruct (loaded_claims_are_backed LOCAL_PAPER [] demo_committed demo_loaded.1 demo_loaded.2 s' _ c El Hd Ec)
    as (r & Hr & _ & _ & Hv & _). exists c, r. split; [reflexivity|]. split; [exact Hr|]. split; [exact Hv|].
  rewrite demo_positions in Hr. apply list_elem_of_singleton in Hr. rewrite Hr. reflexivity.
Defined.

Definition demo_payload : PyVal := VDict "" [("positions", VList "" [VDict "" [("contracts", VFloat "0.5");
  ("symbol", VStr "BTCUSDT"); ("side", VStr "LONG")]; VNone; VDict "" [("contracts", VInt 0)]]);
  ("account", VDict "" [("balance", VStr "100.5"); ("equity", VStr "")])]%string.

Lemma runtime_snapshot_is_sound_witness :
  exists s, runtime_snapshot_from_value demo_payload 7 = Ok s /\ map xp_symbol (as_positions s) = ["BTC/USDT"]%string /\
    as_snapshot_timestamp s = 7.
Proof.
  destruct (runtime_snapshot_from_value demo_payload 7) as [s|e] eqn:E; [|vm_compute in E; discriminate E].
  exists s. split; [reflexivity|]. split; [vm_compute in E; injection E as <-; reflexivity|].
  exact (proj2 (proj2 (runtime_snapshot_is_sound demo_payload 7 s E))).
Defined.
