(* ===== verification/Sha1.v ===== *)
(** * Sha1: the [hashlib.sha1] digest and [uuid.uuid5]

    FIPS 180-4 on bytes, over the padding and word functions of [Sha256], and
    the name-based identifiers of the standard library built on it.  Nothing is
    claimed about collisions. *)
From S2P Require Import Prelude Sha256.
From Stdlib Require Import Ascii.
Local Open Scope Z_scope.

Definition rotl (n x : Z) : Z := w32 (Z.lor (Z.shiftl x n) (Z.shiftr x (32 - n))).

Record State5 := mkState5 { sa : Z; sb : Z; sc : Z; sd : Z; se : Z }.

Definition initial_state5 : State5 := mkState5 1732584193 4023233417 2562383102 271733878 3285377520.

Definition parity (x y z : Z) : Z := Z.lxor x (Z.lxor y z).

(** The function and constant of the round number [t]. *)
Definition round_function (t : Z) : (Z -> Z -> Z -> Z) * Z :=
  if t <? 20 then (ch, 1518500249)
  else if t <? 40 then (parity, 1859775393)
  else if t <? 60 then (maj, 2400959708)
  else (parity, 3395469782).

Definition round1 (h : State5) (tw : Z * Z) : State5 :=
  let '(f, k) := round_function tw.1 in
  mkState5 (add32 (rotl 5 (sa h)) (add32 (f (sb h) (sc h) (sd h)) (add32 (se h) (add32 k tw.2))))
    (sa h) (rotl 30 (sb h)) (sc h) (sd h).

(** The message schedule, kept most recent word first. *)
Fixpoint extend1 (n : nat) (rev_w : list Z) : list Z :=
  match n with
  | O => rev_w
  | S m =>
      let w i := nth i rev_w 0 in
      extend1 m (rotl 1 (Z.lxor (w 2%nat) (Z.lxor (w 7%nat) (Z.lxor (w 13%nat) (w 15%nat)))) :: rev_w)
  end.

Definition compress1 (h : State5) (block : list Z) : State5 :=
  let h' := foldl round1 h (zip (map Z.of_nat (seq 0 80)) (rev (extend1 64 (rev block)))) in
  mkState5 (add32 (sa h) (sa h')) (add32 (sb h) (sb h')) (add32 (sc h) (sc h')) (add32 (sd h) (sd h'))
    (add32 (se h) (se h')).

Definition sha1 (bytes : list Z) : State5 :=
  let ws := words_of (pad bytes) in
  foldl compress1 initial_state5 (blocks (List.length ws) ws).

Definition sha1_words (bytes : list Z) : list Z :=
  let h := sha1 bytes in [sa h; sb h; sc h; sd h; se h].

Example sha1_abc :
  string_of_list_ascii (mjoin (map hex_word (sha1_words (bytes_of "abc")))) =
  "a9993e364706816aba3e25717850c26c9cd0d89d"%string.
Proof. vm_compute. reflexivity. Qed.

(** ** [uuid.uuid5(uuid.NAMESPACE_URL, name)] *)

Definition NAMESPACE_URL : list Z := [107; 167; 184; 17; 157; 173; 17; 209; 128; 180; 0; 192; 79; 212; 48; 200].

(** The first 128 bits of the digest, with the version and variant bits set. *)
Definition uuid5_words (name : string) : list Z :=
  match sha1_words (NAMESPACE_URL ++ bytes_of name) with
  | a :: b :: c :: d :: _ =>
      [a; Z.lor (Z.land b 4294905855) 20480; Z.lor (Z.land c 1073741823) 2147483648; d]
  | _ => []
  end.

(** [str(uuid)]: hexadecimal digits in groups of 8, 4, 4, 4 and 12. *)
Definition uuid_text (hex : list ascii) : string :=
  let part i n := string_of_list_ascii (take n (drop i hex)) in
  (part 0%nat 8%nat +:+ "-" +:+ part 8%nat 4%nat +:+ "-" +:+ part 12%nat 4%nat +:+ "-" +:+ part 16%nat 4%nat
   +:+ "-" +:+ part 20%nat 12%nat)%string.

Definition uuid5_url (name : string) : string := uuid_text (mjoin (map hex_word (uuid5_words name))).

Example uuid5_url_exit :
  uuid5_url "automated-trading-v2:exit:v2x-abc" = "1638a626-43ee-5f69-a9d4-0c52df1648c1"%string.
Proof. vm_compute. reflexivity. Qed.

(** Every such identifier is 36 characters long. *)
Lemma length_uuid5_url name : String.length (uuid5_url name) = 36%nat.
Proof. reflexivity. Qed.
