(* ===== verification/Canonical.v ===== *)
(** * Canonical: the deterministic serialization behind content hashes

    [services/strategy_library/canonical.py] on JSON-shaped values: what
    [json.dumps(..., sort_keys=True, separators=(",", ":"))] writes, and the
    SHA-256 of its bytes.  Strings are UTF-8; a float is written by its [repr]. *)
From S2P Require Import Prelude PyDecimal PyValue Sha256.
From Stdlib Require Import Ascii.
From stdpp Require Import pretty.
Local Open Scope Z_scope.

(** ** Equality of values *)

Definition number_of (v : PyVal) : option PyNumber :=
  match v with
  | VBool b => Some (Finite (dint (Z.b2z b)))
  | VInt z => Some (Finite (dint z))
  | VFloat r => parse_decimal r
  | _ => None
  end.

(** Numbers compare by value, whatever their type. *)
Definition numbers_eqb (v w : PyVal) : bool :=
  match number_of v, number_of w with
  | Some (Finite x), Some (Finite y) => (x =? y)%D
  | Some NotFinite, Some NotFinite =>
      match v, w with VFloat r, VFloat r' => String.eqb r r' && negb (String.eqb r "nan") | _, _ => false end
  | _, _ => false
  end.

(** [v == w]: dictionaries regardless of the order of their keys. *)
Fixpoint py_eqb (v w : PyVal) : bool :=
  match v, w with
  | VNone, VNone => true
  | VStr s, VStr t => String.eqb s t
  | VList _ l, VList _ m =>
      (fix all2 l m := match l, m with
         | [], [] => true
         | x :: l, y :: m => py_eqb x y && all2 l m
         | _, _ => false end) l m
  | VDict _ d, VDict _ e =>
      (length d =? length e)%nat &&
      (fix all d := match d with
         | [] => true
         | (k, x) :: d => match py_find e k with Some y => py_eqb x y | None => false end && all d
         end) d
  | _, _ => numbers_eqb v w
  end.

(** ** Text *)

Definition quote : ascii := "034"%char.
Definition backslash : ascii := "092"%char.

Definition byte (c : ascii) : Z := Z.of_N (N_of_ascii c).
Definition char (z : Z) : ascii := ascii_of_N (Z.to_N z).

(** The code points of a UTF-8 text. *)
Fixpoint code_points (s : string) : list Z :=
  match s with
  | EmptyString => []
  | String a s1 =>
      if byte a <? 128 then byte a :: code_points s1
      else match s1 with
      | EmptyString => [byte a]
      | String b s2 =>
          if byte a <? 224 then (byte a mod 32 * 64 + byte b mod 64) :: code_points s2
          else match s2 with
          | EmptyString => [byte a; byte b]
          | String c s3 =>
              if byte a <? 240 then (byte a mod 16 * 4096 + byte b mod 64 * 64 + byte c mod 64) :: code_points s3
              else match s3 with
              | EmptyString => [byte a; byte b; byte c]
              | String d s4 =>
                  (byte a mod 8 * 262144 + byte b mod 64 * 4096 + byte c mod 64 * 64 + byte d mod 64) :: code_points s4
              end
          end
      end
  end.

Definition hex4 (u : Z) : string :=
  string_of_list_ascii (map (fun i => hex_digit (Z.land (Z.shiftr u (4 * i)) 15)) [3; 2; 1; 0]).

Definition unicode_escape (u : Z) : string := String backslash (String "u" (hex4 u)).
Definition escaped (c : ascii) : string := String backslash (String c EmptyString).

(** [ensure_ascii]: everything but printable ASCII is escaped. *)
Definition json_char (u : Z) : string :=
  if u =? 34 then escaped quote
  else if u =? 92 then escaped backslash
  else if u =? 10 then escaped "n"
  else if u =? 13 then escaped "r"
  else if u =? 9 then escaped "t"
  else if u =? 8 then escaped "b"
  else if u =? 12 then escaped "f"
  else if (32 <=? u) && (u <=? 126) then String (char u) EmptyString
  else if u <? 65536 then unicode_escape u
  else unicode_escape (55296 + (u - 65536) / 1024) +:+ unicode_escape (56320 + (u - 65536) mod 1024).

Definition concat_text (l : list string) : string := foldr append EmptyString l.

Definition json_string (s : string) : string :=
  String quote (concat_text (map json_char (code_points s)) +:+ String quote EmptyString).

Definition json_float (repr : string) : string :=
  if String.eqb repr "nan" then "NaN"
  else if String.eqb repr "inf" then "Infinity"
  else if String.eqb repr "-inf" then "-Infinity"
  else repr.

(** ** Serialization *)

Fixpoint joined (l : list string) : string :=
  match l with
  | [] => EmptyString
  | [s] => s
  | s :: l => s +:+ "," +:+ joined l
  end.

(** Sorting by key; bytes of UTF-8 order as code points do. *)
Fixpoint insert_key {A} (x : string * A) (l : list (string * A)) : list (string * A) :=
  match l with
  | [] => [x]
  | y :: l' => if String.leb x.1 y.1 then x :: l else y :: insert_key x l'
  end.
Definition sort_keys {A} (l : list (string * A)) : list (string * A) := foldr insert_key [] l.

Definition member (kv : string * string) : string := json_string kv.1 +:+ ":" +:+ kv.2.

Fixpoint dumps (v : PyVal) : string :=
  match v with
  | VNone => "null"
  | VBool b => if b then "true" else "false"
  | VInt z => pretty z
  | VFloat r => json_float r
  | VStr s => json_string s
  | VList _ l => "[" +:+ joined (map dumps l) +:+ "]"
  | VDict _ d => "{" +:+ joined (map member (sort_keys (map (fun kv => (kv.1, dumps kv.2)) d))) +:+ "}"
  end.

(** A list is tagged, so that it differs from every other container. *)
Fixpoint _normalize (v : PyVal) : PyVal :=
  match v with
  | VDict r d => VDict r (map (fun kv => (kv.1, _normalize kv.2)) d)
  | VList r l => VDict "" [("__type__", VStr "list"); ("items", VList r (map _normalize l))]%string
  | _ => v
  end.

Definition canonical_json (v : PyVal) : string := dumps (_normalize v).
Definition canonical_hash (v : PyVal) : string := hexdigest (canonical_json v).

Example canonical_example :
  let text := string_of_list_ascii (map ascii_of_N [120; 34; 92; 10; 195; 169; 240; 159; 152; 128; 127]%N) in
  canonical_hash (VDict "" [("b", VList "" [VInt 1; VStr text]);
                            ("a", VDict "" [("n", VNone); ("t", VBool true); ("f", VFloat "1.5")])]%string) =
  "b1eb5b686d74334ca736e12018e091bfa5201103a486bae321b542ae734744f0"%string.
Proof. vm_compute. reflexivity. Qed.
