(* ===== verification/Evidence.v ===== *)
(** * Evidence: the append-only forward evidence of the repository

    The snapshot, shadow and outcome operations of
    [infrastructure/repository.py] and [build_shadow_outcome] of
    [audit/forward_baseline.py].  A JSON column holds the dictionary written to
    it; the text of a decimal in an outcome is a text of the same value. *)
From S2P Require Import Prelude PyDecimal PyValue Canonical State Receipts Database Repository Transactions.
Local Open Scope Z_scope.
Local Open Scope py_scope.

Definition dict_eqb (a b : PyDict) : bool := py_eqb (VDict "" a) (VDict "" b).

Section evidence.
Context {H : Host}.

(** ** Operations *)

Definition append_forward_snapshot (snapshot_id cycle_id decision_id symbol : string) (decision_time : datetime)
    (snapshot_hash : string) (payload : PyDict) : SM Session SnapshotRow :=
  let! existing := get (R := SnapshotRow) snapshot_id in
  match existing with
  | Some r =>
      sassert (String.eqb (sn_snapshot_hash r) snapshot_hash && dict_eqb (sn_payload r) payload)
        (ValueError "FORWARD_SNAPSHOT_IMMUTABLE_VIOLATION") ;;;
      sret r
  | None =>
      let! existing_decision := scalar (R := SnapshotRow) (fun r => String.eqb (sn_decision_id r) decision_id) in
      match existing_decision with
      | Some r =>
          sassert (String.eqb (sn_snapshot_hash r) snapshot_hash)
            (ValueError "FORWARD_SNAPSHOT_DECISION_IMMUTABLE_VIOLATION") ;;;
          sret r
      | None =>
          let row := mkSnapshot snapshot_id cycle_id decision_id symbol decision_time snapshot_hash payload in
          add row ;;;
          flush ;;;
          sret row
      end
  end.

Definition shadow_of (snapshot_id variant : string) (r : ShadowRow) : bool :=
  String.eqb (sh_snapshot_id r) snapshot_id && String.eqb (sh_variant r) variant.

Definition append_shadow_record (snapshot_id : string) (record : PyDict) : SM Session ShadowRow :=
  let! variant := slift (py_item record "variant") in
  let variant := py_str variant in
  let payload_hash := canonical_hash (VDict "" record) in
  let! existing := scalar (R := ShadowRow) (shadow_of snapshot_id variant) in
  match existing with
  | Some r =>
      sassert (String.eqb (sh_payload_hash r) payload_hash && dict_eqb (sh_payload r) record)
        (ValueError "SHADOW_RECORD_IMMUTABLE_VIOLATION") ;;;
      sret r
  | None =>
      let! shadow_id := new_uuid in
      let! created_at := server_now in
      let row := mkShadow shadow_id snapshot_id variant payload_hash record created_at in
      add row ;;;
      flush ;;;
      sret row
  end.

Fixpoint append_shadow_records (snapshot_id : string) (records : list PyDict) : SM Session (list ShadowRow) :=
  match records with
  | [] => sret []
  | record :: records =>
      let! row := append_shadow_record snapshot_id record in
      let! rows := append_shadow_records snapshot_id records in
      sret (row :: rows)
  end.

Definition append_shadow_outcome (shadow_id : string) (payload : PyDict) : SM Session OutcomeRow :=
  let outcome_hash := canonical_hash (VDict "" payload) in
  let! existing := scalar (R := OutcomeRow) (fun r => String.eqb (so_shadow_id r) shadow_id) in
  match existing with
  | Some r =>
      sassert (String.eqb (so_outcome_hash r) outcome_hash && dict_eqb (so_payload r) payload)
        (ValueError "SHADOW_OUTCOME_IMMUTABLE_VIOLATION") ;;;
      sret r
  | None =>
      let! outcome_id := new_uuid in
      let row := mkOutcome outcome_id shadow_id outcome_hash payload in
      add row ;;;
      flush ;;;
      sret row
  end.

(** [order_by(column.asc())]: equal values in the order of insertion. *)
Fixpoint insert_by {R} (column : R -> Z) (x : R) (l : list R) : list R :=
  match l with
  | [] => [x]
  | y :: l' => if column x <=? column y then x :: l else y :: insert_by column x l'
  end.
Definition order_by {R} (column : R -> Z) (l : list R) : list R := foldr (insert_by column) [] l.

Definition limited {R} (limit : option nat) (l : list R) : list R :=
  match limit with Some n => take n l | None => l end.
Definition where_eq {R} (column : R -> string) (value : option string) (r : R) : bool :=
  match value with Some v => String.eqb (column r) v | None => true end.

Definition list_forward_snapshots (cycle_id symbol : option string) (limit : option nat) : SM Session (list SnapshotRow) :=
  let! l := select (R := SnapshotRow) (fun r => where_eq sn_cycle_id cycle_id r && where_eq sn_symbol symbol r) in
  sret (limited limit (order_by sn_decision_time l)).

Definition list_shadow_records (snapshot_id variant : option string) (limit : option nat) : SM Session (list ShadowRow) :=
  let! l := select (R := ShadowRow) (fun r => where_eq sh_snapshot_id snapshot_id r && where_eq sh_variant variant r) in
  sret (limited limit (order_by sh_created_at l)).
End evidence.

(** ** The outcome of a confirmed exit, in multiples of the initial risk *)

Definition gross_pnl_of (direction : string) (entry_price exit_price quantity : Dec) : Dec :=
  ((if String.eqb direction "long" then exit_price - entry_price else entry_price - exit_price) * quantity)%D.

Definition in_R (value risk_amount : Dec) : PyVal :=
  if (dzero <? risk_amount)%D then VStr (dec_text (dquot value risk_amount)) else VNone.

Definition build_shadow_outcome (snapshot : PyDict) (direction : string)
    (entry_price exit_price quantity commission funding : Dec) (exit_reason : string) : res PyDict :=
  py_mapping (py_or (py_get snapshot "trade_candidate_payload") (VDict "{}" [])) ≫= fun candidate =>
  py_decimal (py_or (py_get candidate "stop_distance") (VStr "0")) ≫= fun stop_distance =>
  let risk_amount := (stop_distance * quantity)%D in
  let gross_pnl := gross_pnl_of direction entry_price exit_price quantity in
  let net_pnl := (gross_pnl - commission + funding)%D in
  Ok [("exit_reason", VStr exit_reason); ("entry_price", VStr (dec_text entry_price));
      ("exit_price", VStr (dec_text exit_price)); ("quantity", VStr (dec_text quantity));
      ("gross_pnl", VStr (dec_text gross_pnl)); ("net_pnl", VStr (dec_text net_pnl));
      ("gross_R", in_R gross_pnl risk_amount); ("net_R", in_R net_pnl risk_amount);
      ("commission_R", in_R commission risk_amount); ("funding_R", in_R funding risk_amount);
      ("MFE_R", VNone); ("MAE_R", VNone); ("outcome_status", VStr "CLOSED")]%string.

(** ** Sealed evidence *)

Section sealed.
Context {H : Host}.

(** A row added by a flush that returned can be found by its key. *)
Lemma added_row {R} `{UniqueKeys R} (r : R) s u s' :
  rows (insert_row r (s_db s)) = rows (s_db s) ++ [r] ->
  (add r ;;; flush) s = (Ok u, s') -> find_row (row_key r) (s_db s') = Some r /\ s_db s' = insert_row r (s_db s).
Proof.
  intros Hrows E. apply sbind_inv in E as [([] & s1 & E1 & E)|(x & _ & ?)]; [|done]. injection E1 as <-.
  apply flush_ok in E as [-> Hc]. cbn [s_db] in *. split; [|done]. apply find_row_unique; [by apply unique_keys|].
  rewrite Hrows. apply elem_of_app. right. by left.
Qed.

(** What a later call with the id of a stored snapshot does. *)
Definition rewrite_snapshot (row : SnapshotRow) (snapshot_hash : string) (payload : PyDict) : res SnapshotRow :=
  if String.eqb (sn_snapshot_hash row) snapshot_hash && dict_eqb (sn_payload row) payload then Ok row
  else Raise (ValueError "FORWARD_SNAPSHOT_IMMUTABLE_VIOLATION").

Lemma append_existing_snapshot id cycle_id decision_id symbol t h p row s :
  find_row (R := SnapshotRow) id (s_db s) = Some row ->
  append_forward_snapshot id cycle_id decision_id symbol t h p s = (rewrite_snapshot row h p, s).
Proof.
  intros E. unfold append_forward_snapshot, rewrite_snapshot, sbind, get. rewrite E. unfold sassert. by destruct (_ && _).
Qed.

(** A decision snapshot is sealed by its hash: the call that returns it left the
    earlier snapshots in place, and from then on every call with its id returns
    it unchanged when hash and payload agree and raises otherwise, writing
    nothing either way. *)
Theorem snapshot_is_sealed id cycle_id decision_id symbol t h p s row s' :
  append_forward_snapshot id cycle_id decision_id symbol t h p s = (Ok row, s') ->
  sn_snapshot_hash row = h /\ (exists l, snapshots (s_db s') = snapshots (s_db s) ++ l) /\
  forall cycle_id' decision_id' symbol' t' h' p',
    append_forward_snapshot (sn_snapshot_id row) cycle_id' decision_id' symbol' t' h' p' s' = (rewrite_snapshot row h' p', s').
Proof.
  intros E.
  assert (find_row (R := SnapshotRow) (sn_snapshot_id row) (s_db s') = Some row /\ sn_snapshot_hash row = h /\
          exists l, snapshots (s_db s') = snapshots (s_db s) ++ l) as (Hf & Hh & Hl).
  2:{ split; [done|]. split; [done|]. intros. by apply append_existing_snapshot. }
  destruct (find_row (R := SnapshotRow) id (s_db s)) as [r|] eqn:Er.
  - rewrite (append_existing_snapshot _ _ _ _ _ _ _ _ _ Er) in E. injection E as E <-. unfold rewrite_snapshot in E.
    destruct (_ && _) eqn:Eb; [|done]. injection E as <-. apply andb_true_iff in Eb as [Eh%String.eqb_eq _].
    split; [exact (find_row_self _ _ _ Er)|]. split; [done|]. exists []. by rewrite app_nil_r.
  - unfold append_forward_snapshot in E.
    apply sbind_inv in E as [(x & s1 & E1 & E)|(x & _ & ?)]; [|done]. injection E1 as <- <-. rewrite Er in E.
    apply sbind_inv in E as [(o & s1 & (-> & -> & Hc)%scalar_ok & E)|(x & _ & ?)]; [|done].
    destruct (head _) as [r|] eqn:Eh.
    + apply sbind_inv in E as [([] & s1 & E1 & E)|(x & _ & ?)]; [|done].
      apply sassert_inv in E1 as [-> [[Hh%String.eqb_eq _]|[_ ?]]]; [|done]. apply sret_inv in E as [[= ->] ->].
      apply head_Some_elem_of in Eh. apply selected_row in Eh as [Ef _]; [|done]. split; [exact Ef|]. split; [done|].
      exists []. by rewrite app_nil_r.
    + set (row0 := mkSnapshot _ _ _ _ _ _ _) in E.
      apply sbind_inv in E as [(u & s1 & E1 & E)|(x & _ & ?)]; [|done].
      apply sbind_inv in E as [(u2 & s2 & E2 & E)|(x & _ & ?)]; [|done]. apply sret_inv in E as [[= ->] ->].
      destruct (added_row row0 s u2 s2) as [Ef Ed]; [done|by unfold sbind; rewrite E1|].
      split; [exact Ef|]. split; [done|]. rewrite Ed. by exists [row0].
Qed.
End sealed.

#[local] Instance evidence_host : Host := {| uuid4 n := pretty.pretty n; clock n := Z.of_nat n |}.

Lemma snapshot_is_sealed_witness :
  exists row s', append_forward_snapshot "s1" "c1" "d1" "BTC/USDT" 5 "h" [] (mkSession empty_db empty_db 0) = (Ok row, s') /\
    append_forward_snapshot "s1" "c1" "d1" "BTC/USDT" 5 "other" [] s' =
      (Raise (ValueError "FORWARD_SNAPSHOT_IMMUTABLE_VIOLATION"), s').
Proof.
  eexists. eexists. split; [vm_compute; reflexivity|].
  exact (proj2 (proj2 (snapshot_is_sealed "s1" "c1" "d1" "BTC/USDT" 5 "h" [] (mkSession empty_db empty_db 0)
    (mkSnapshot "s1" "c1" "d1" "BTC/USDT" 5 "h" []) _ eq_refl)) "c1"%string "d1"%string "BTC/USDT"%string 5
    "other"%string []).
Defined.
