(* ===== verification/FactPersistence.v ===== *)
(** * FactPersistence: the facts a cycle writes around its exchange calls

    [application/fact_persistence.py]: reservation of an entry before it is
    submitted, the exchange's answer, the confirmed fill with its position and
    protection, and the same for reduce-only exits; each in a session of its own
    that commits once. *)
From S2P Require Import Prelude PyDecimal PyValue State Sha1 ClientOrderId Receipts PortfolioRisk Funnel Adapter.
From S2P Require Import Quantities Reconciliation Entry Exit Protection Database Repository Evidence.
Local Open Scope Z_scope.
Local Open Scope py_scope.

Definition _exit_intent_id (client_order_id : string) : string :=
  uuid5_url ("automated-trading-v2:exit:" +:+ client_order_id).

Definition TESTNET_ACCOUNT : string := "binance_testnet".

Definition texts_value (l : list string) : PyVal := VList "" (map VStr l).

Section persistence.
Context {H : Host}.

(** ** Steps shared by several functions *)

Definition ensure_cycle (cycle_id symbol : string) (bar_timestamp : datetime) (mode : V2ExecutionMode)
    (fencing_token : string) : SM Session unit :=
  let! cycle := get (R := CycleRow) cycle_id in
  match cycle with
  | Some _ => sret tt
  | None => create_cycle cycle_id symbol "15m" bar_timestamp mode fencing_token
  end.

Definition ensure_decision (decision_id : option string) (cycle_id candidate_key : string) : SM Session unit :=
  match decision_id with
  | Some id =>
      if str_truthy id then
        let! decision := get (R := DecisionRow) id in
        match decision with
        | Some _ => sret tt
        | None => create_decision id cycle_id (Some candidate_key) None []
        end
      else sret tt
  | None => sret tt
  end.

Definition or_quantity (a b : Dec) : Dec := if dtruthy a then a else b.

(** The order of an intent, submitted now if it has none. *)
Definition ensure_order (intent_id client_order_id : string) (quantity : Dec) (leverage : Z)
    (submitted_at : option datetime) : SM Session string :=
  let! order := scalar (R := OrderRow) (order_of_intent intent_id) in
  match order with
  | Some o => sret (eo_order_record_id o)
  | None => let! t := or_now submitted_at in save_order_submission intent_id client_order_id quantity leverage t
  end.

Definition undetermined (s : V2IntentState) : bool := bool_decide (s ∈ [EXCHANGE_SUBMITTING; EXCHANGE_UNKNOWN]).

(** One trade of a receipt, unless it is already attributed to this order. *)
Definition attribute_fill (intent_id order_id exchange_order_id trade_id : string) (save : SM Session string) :
    SM Session unit :=
  let! existing := get_exchange_fill_by_trade TESTNET_ACCOUNT trade_id in
  match existing with
  | Some f =>
      sassert (String.eqb (fl_intent_id f) intent_id && String.eqb (fl_exchange_order_record_id f) order_id
               && String.eqb (fl_exchange_order_id f) exchange_order_id)
        (ValueError "exchange fill identity is already attributed to a different V2 order")
  | None => save ;;; sret tt
  end.

(** ** Entry *)

Inductive EntryRefusal :=
  | ENTRY_PAUSED
  | UNKNOWN_ACTIVE_INTENT_RISK
  | PORTFOLIO_RISK (reason : PortfolioReason).

(** The verdict on the portfolio budget, if it refuses. *)
Definition portfolio_refusal (account_equity : option Dec) (symbol direction : string) (initial_risk_usdt : Dec)
    (committed : list RiskExposure) (portfolio_risk_enforced : bool) (max_open_positions : Z) : option EntryRefusal :=
  match account_equity with
  | None => None
  | Some equity =>
      let verdict := evaluate_portfolio_risk equity symbol direction initial_risk_usdt committed
        MAX_TOTAL_INITIAL_RISK_FRACTION MAX_SAME_DIRECTION_CLUSTER_RISK_FRACTION max_open_positions in
      if portfolio_risk_blocks verdict (negb portfolio_risk_enforced) then PORTFOLIO_RISK <$> pr_reason_code verdict
      else None
  end.

Definition persist_entry_intent_before_submission (cycle_id : string) (decision_id : option string)
    (intent_id symbol direction candidate_key : string) (candidate_type : V2CandidateType)
    (execution_mode : V2ExecutionMode) (decision_bar_timestamp : datetime) (fencing_token : string)
    (initial_risk_usdt : Dec) (account_equity : option Dec) (portfolio_risk_enforced : bool)
    (max_open_positions : Z) : SM Session (option EntryRefusal) :=
  sassert (negb (initial_risk_usdt <=? dzero)%D) (ValueError "initial_risk_usdt must be finite and positive") ;;;
  with_session (
    let! control := get (R := ControlRow) "global" in
    if (match control with Some c => negb (ct_entry_enabled c) | None => false end) then
      rollback ;;; sret (Some ENTRY_PAUSED)
    else
    let! exposures := list_active_initial_risk_exposures execution_mode in
    let '(committed, has_unknown_active_risk) := exposures in
    if has_unknown_active_risk then rollback ;;; sret (Some UNKNOWN_ACTIVE_INTENT_RISK)
    else
    match portfolio_refusal account_equity symbol direction initial_risk_usdt committed portfolio_risk_enforced
            max_open_positions with
    | Some refusal => rollback ;;; sret (Some refusal)
    | None =>
        ensure_cycle cycle_id symbol decision_bar_timestamp execution_mode fencing_token ;;;
        ensure_decision decision_id cycle_id candidate_key ;;;
        let! intent := get (R := IntentRow) intent_id in
        (match intent with
         | Some _ => sret tt
         | None =>
             create_intent intent_id cycle_id symbol direction candidate_key candidate_type execution_mode
               decision_bar_timestamp None INTENT_CREATED decision_id (Some initial_risk_usdt) ;;;
             transition_intent intent_id INTENT_CREATED EXCHANGE_SUBMITTING "EntrySubmitting"
               [("client_order_identity", VStr "derived_from_intent_id")]%string None
         end) ;;;
        commit ;;;
        sret None
    end).

(** The fills of a rejected entry: an equal share each, the remainder to the last. *)
Definition save_entry_fills (intent : IntentRow) (order_record_id exchange_order_id : string)
    (r : EntryExecutionResult) (price : Dec) : SM Session unit :=
  let n := length (ex_trade_ids r) in
  let! per_qty := slift (share (ex_filled_quantity r) n) in
  spread_fills (fun trade_id quantity =>
    let! event_time := or_now (ex_fill_timestamp r) in
    let! received_at := utc_now in
    save_exchange_fill_receipt (it_intent_id intent) order_record_id TESTNET_ACCOUNT exchange_order_id (Some trade_id)
      BINANCE_USER_TRADE (it_symbol intent) (if String.eqb (it_direction intent) "long" then "BUY" else "SELL") false
      quantity price (Some (dquot (ex_total_fee r) (dint (Z.of_nat n)))) (Some "USDT"%string) event_time received_at
      (exchange_order_id +:+ ":" +:+ trade_id)%string ;;; sret tt)
    (ex_filled_quantity r) per_qty dzero (ex_trade_ids r).

Definition persist_entry_submission_result (intent_id : string) (leverage : Z) (r : EntryExecutionResult) :
    SM Session unit :=
  with_session (
    let! intent := get (R := IntentRow) intent_id in
    let! i := require intent "intent not found before exchange result" in
    let current := it_state i in
    (match ex_status r, ostr_truthy (ex_exchange_order_id r) with
     | UNKNOWN, _ =>
         transition_intent intent_id current EXCHANGE_UNKNOWN "EntryOutcomeUnknown"
           [("client_order_id", VStr (ex_client_order_id r))]%string None
     | ENTRY_REJECTED, true =>
         let exchange_order_id := default EmptyString (ex_exchange_order_id r) in
         let! order_record_id := ensure_order intent_id (ex_client_order_id r)
           (or_quantity (ex_requested_quantity r) (ex_filled_quantity r)) leverage (ex_fill_timestamp r) in
         let! acknowledged_at := or_now (ex_fill_timestamp r) in
         save_exchange_order_receipt order_record_id exchange_order_id acknowledged_at ;;;
         (match is_nonempty (ex_trade_ids r) && (dzero <? ex_filled_quantity r)%D, ex_average_fill_price r with
          | true, Some price => save_entry_fills i order_record_id exchange_order_id r price
          | _, _ => sret tt
          end) ;;;
         if undetermined current then
           transition_intent intent_id current EXCHANGE_ACKNOWLEDGED "EntryAcknowledgedWithMarginGuard"
             [("exchange_order_id", VStr exchange_order_id); ("trade_ids", texts_value (ex_trade_ids r));
              ("margin_guard_exchange_order_id", ostr_value (ex_guard_exchange_order_id r));
              ("margin_guard_client_order_id", ostr_value (ex_guard_client_order_id r)); ("detail", free_text)]%string None
         else sret tt
     | ENTRY_REJECTED, false =>
         transition_intent intent_id current REJECTED "EntryRejected" [("detail", free_text)]%string None
     | NOT_ATTEMPTED, _ =>
         transition_intent intent_id current CANCELLED "EntryCancelledBeforeSubmit" [("detail", free_text)]%string None
     | _, true =>
         let exchange_order_id := default EmptyString (ex_exchange_order_id r) in
         let! order_record_id := ensure_order intent_id (ex_client_order_id r) (ex_requested_quantity r) leverage None in
         let! acknowledged_at := utc_now in
         save_exchange_order_receipt order_record_id exchange_order_id acknowledged_at ;;;
         if undetermined current then
           transition_intent intent_id current EXCHANGE_ACKNOWLEDGED "EntryAcknowledged"
             [("exchange_order_id", VStr exchange_order_id)]%string None
         else sret tt
     | _, false => sret tt
     end) ;;;
    commit).

(** |average fill - stop| * filled quantity, where a stop is known. *)
Definition reconstruct_initial_risk (initial_risk_usdt stop_loss_price : option Dec) (r : EntryExecutionResult) :
    option Dec :=
  match initial_risk_usdt, stop_loss_price, ex_average_fill_price r with
  | None, Some stop, Some price => Some (dabs (price - stop) * ex_filled_quantity r)%D
  | _, _, _ => initial_risk_usdt
  end.

Definition it_risked (i : IntentRow) (risk : Dec) : IntentRow :=
  mkIntent (it_intent_id i) (it_cycle_id i) (it_decision_id i) (it_symbol i) (it_direction i) (it_candidate_key i)
    (it_candidate_type i) (it_execution_mode i) (it_decision_bar_timestamp i) (it_decision_funnel_id i)
    (Some risk) (it_state i) (it_version i).

(** The intent of a confirmed fill, created where it is missing. *)
Definition intent_of_fill (cycle_id : string) (decision_id : option string) (intent_id symbol direction candidate_key : string)
    (candidate_type : V2CandidateType) (mode : V2ExecutionMode) (decision_bar_timestamp : datetime)
    (risk : option Dec) (r : EntryExecutionResult) : SM Session V2IntentState :=
  let! intent := get (R := IntentRow) intent_id in
  match intent with
  | None =>
      create_intent intent_id cycle_id symbol direction candidate_key candidate_type mode decision_bar_timestamp None
        INTENT_CREATED decision_id risk ;;;
      transition_intent intent_id INTENT_CREATED EXCHANGE_SUBMITTING "Submitting" [] None ;;;
      let! intent := get (R := IntentRow) intent_id in
      let! i := require intent "intent was not durable after creation" in
      sret (it_state i)
  | Some i =>
      match it_initial_risk_usdt i, risk with
      | None, Some x =>
          assign (it_risked i x) ;;;
          let! t := or_now (ex_fill_timestamp r) in
          append_event intent_id AGG_INTENT "InitialRiskReconstructedFromAuthoritativeFillAndStop"
            [("initial_risk_usdt", VStr (dec_text x)); ("source", VStr "authoritative_fill_and_original_stop")]%string t ;;;
          flush ;;;
          sret (it_state i)
      | _, _ => sret (it_state i)
      end
  end.

(** The fill rows of a confirmed entry; a trade already stored is left alone. *)
Definition persist_entry_fills (intent_id order_id symbol direction : string) (r : EntryExecutionResult) : SM Session unit :=
  let exchange_order_id := default "None"%string (ex_exchange_order_id r) in
  let side := (if String.eqb direction "long" then "BUY" else "SELL")%string in
  let price := default dzero (ex_average_fill_price r) in
  if String.eqb (ex_fill_source r) BINANCE_ORDER_STATUS_RECOVERY then
    let! event_time := or_now (ex_fill_timestamp r) in
    let! received_at := utc_now in
    save_order_level_fill_recovery intent_id order_id TESTNET_ACCOUNT exchange_order_id symbol side false
      (ex_filled_quantity r) price event_time received_at ;;; sret tt
  else
    let n := Nat.max (length (ex_trade_ids r)) 1 in
    let! per_qty := slift (share (ex_filled_quantity r) n) in
    spread_fills (fun trade_id quantity =>
      attribute_fill intent_id order_id exchange_order_id trade_id (
        let! event_time := or_now (ex_fill_timestamp r) in
        let! received_at := utc_now in
        save_exchange_fill_receipt intent_id order_id TESTNET_ACCOUNT exchange_order_id (Some trade_id) BINANCE_USER_TRADE
          symbol side false quantity price (Some (dquot (ex_total_fee r) (dint (Z.of_nat n)))) (Some "USDT"%string)
          event_time received_at (exchange_order_id +:+ ":" +:+ trade_id)%string))
      (ex_filled_quantity r) per_qty dzero (ex_trade_ids r).

(** The protection row of the entry, active once its stop is at the exchange. *)
Definition persist_entry_protection (position_id : string) (protection : ProtectionResult) (stop_client_order_id : string)
    (tp_client_order_id : option string) (stop_loss_price : Dec) (take_profit_price : option Dec) : SM Session unit :=
  let! prot_id := new_uuid in
  save_protection prot_id position_id stop_loss_price
    (x ← take_profit_price; if dtruthy x then Some x else None) stop_client_order_id tp_client_order_id
    PROTECTION_INTENT None None None "P1" ;;;
  if protection_is_active protection && ostr_truthy (ps_stop_exchange_order_id protection) then
    transition_protection prot_id PROTECTION_INTENT PROTECTION_SUBMITTING "Submitting" [] None ;;;
    let! submission_timestamp := utc_now in
    let! receipt := slift (make_ProtectionReceipt (mkProtectionReceipt position_id
      (default EmptyString (ps_stop_exchange_order_id protection)) (ps_tp_exchange_order_id protection)
      submission_timestamp)) in
    let! activated_at := utc_now in
    update_protection_active prot_id receipt PROTECTION_ACTIVE activated_at ;;;
    let! position := get (R := PositionRow) position_id in
    match position with
    | Some p =>
        if bool_decide (mp_state p = POSITION_PROJECTED)
        then transition_position position_id POSITION_PROJECTED PROTECTED "Protected" [] None
        else sret tt
    | None => sret tt
    end
  else sret tt.

Definition persist_entry_and_protection (cycle_id : string) (decision_id : option string)
    (intent_id symbol direction candidate_key : string) (candidate_type : V2CandidateType)
    (execution_mode : V2ExecutionMode) (decision_bar_timestamp : datetime) (fencing_token : string) (leverage : Z)
    (r : EntryExecutionResult) (position_id : string) (protection_result : option ProtectionResult)
    (stop_loss_price take_profit_price : option Dec) (stop_client_order_id tp_client_order_id : option string)
    (initial_risk_usdt : option Dec) (project_position allow_existing_position_aggregation : bool) : SM Session unit :=
  let risk := reconstruct_initial_risk initial_risk_usdt stop_loss_price r in
  sassert (match risk with Some x => negb (x <=? dzero)%D | None => true end)
    (ValueError "initial_risk_usdt must be positive when reconstructable") ;;;
  if negb (position_projectable r) then sret tt
  else
  with_session (
    ensure_cycle cycle_id symbol decision_bar_timestamp execution_mode fencing_token ;;;
    ensure_decision decision_id cycle_id candidate_key ;;;
    let! current := intent_of_fill cycle_id decision_id intent_id symbol direction candidate_key candidate_type
      execution_mode decision_bar_timestamp risk r in
    (if undetermined current then
       transition_intent intent_id current EXCHANGE_ACKNOWLEDGED "Acked"
         [("exchange_order_id", ostr_value (ex_exchange_order_id r))]%string None
     else sret tt) ;;;
    let! order_id := ensure_order intent_id (ex_client_order_id r)
      (or_quantity (ex_requested_quantity r) (ex_filled_quantity r)) leverage (ex_fill_timestamp r) in
    let! acknowledged_at := or_now (ex_fill_timestamp r) in
    save_exchange_order_receipt order_id (default "None"%string (ex_exchange_order_id r)) acknowledged_at ;;;
    persist_entry_fills intent_id order_id symbol direction r ;;;
    reconcile_intent_from_confirmed_fill intent_id ;;;
    (if project_position then
       let! projected_at := utc_now in
       project_position_from_confirmed_fills position_id intent_id order_id symbol direction execution_mode projected_at
         allow_existing_position_aggregation
     else sret tt) ;;;
    (match protection_result, stop_client_order_id, stop_loss_price with
     | Some protection, Some stop_id, Some stop =>
         if str_truthy stop_id then
           persist_entry_protection position_id protection stop_id tp_client_order_id stop take_profit_price
         else sret tt
     | _, _, _ => sret tt
     end) ;;;
    commit).

(** ** Exit *)

Definition order_with_client_id (client_order_id : string) (o : OrderRow) : bool :=
  String.eqb (eo_client_order_id o) client_order_id.

(** The position of an exit with its entry intent and entry order. *)
Definition position_facts (position_id : string) : SM Session (PositionRow * IntentRow * OrderRow) :=
  let! position := get (R := PositionRow) position_id in
  let! p := require position "position not found" in
  let! entry_intent := get (R := IntentRow) (mp_intent_id p) in
  let! i := require entry_intent "entry intent not found" in
  let! entry_order := get (R := OrderRow) (mp_order_record_id p) in
  let! o := require entry_order "entry order not found" in
  sret (p, i, o).

Definition persist_exit_intent_before_submission (cycle_id position_id : string) (execution_mode : V2ExecutionMode)
    (reason : ExitReason) (client_order_id : string) (requested_quantity : Dec) (fencing_token : string)
    (submitted_at : datetime) : SM Session string :=
  sassert (negb (requested_quantity <=? dzero)%D) (ValueError "exit requested_quantity must be positive") ;;;
  let exit_intent_id := _exit_intent_id client_order_id in
  with_session (
    let! facts := position_facts position_id in
    let '(position, entry_intent, entry_order) := facts in
    ensure_cycle cycle_id (mp_symbol position) submitted_at execution_mode fencing_token ;;;
    let! intent := get (R := IntentRow) exit_intent_id in
    (match intent with
     | Some _ => sret tt
     | None =>
         create_intent exit_intent_id cycle_id (mp_symbol position) (mp_direction position)
           ("exit:" +:+ position_id +:+ ":" +:+ exit_reason_value reason) (it_candidate_type entry_intent) execution_mode
           submitted_at None INTENT_CREATED None None ;;;
         transition_intent exit_intent_id INTENT_CREATED EXCHANGE_SUBMITTING "ExitSubmitting"
           [("position_id", VStr position_id); ("reason", VStr (exit_reason_value reason)); ("reduce_only", VBool true);
            ("client_order_id", VStr client_order_id)]%string (Some submitted_at)
     end) ;;;
    let! order := scalar (R := OrderRow) (order_with_client_id client_order_id) in
    (match order with
     | None =>
         save_order_submission exit_intent_id client_order_id requested_quantity (eo_leverage entry_order) submitted_at ;;;
         sret tt
     | Some o => sassert (String.eqb (eo_intent_id o) exit_intent_id)
                   (ValueError "exit client order id belongs to another intent")
     end) ;;;
    commit) ;;;
  sret exit_intent_id.

Definition persist_exit_submission_result (position_id : string) (r : ExitExecutionResult) : SM Session unit :=
  let exit_intent_id := _exit_intent_id (xr_client_order_id r) in
  with_session (
    let! position := get (R := PositionRow) position_id in
    let! p := require position "position not found" in
    let! intent := get (R := IntentRow) exit_intent_id in
    let! i := require intent "exit intent not found before exchange result" in
    let! order := scalar (R := OrderRow) (order_with_client_id (xr_client_order_id r)) in
    let! o := require order "exit order not found before exchange result" in
    let current := it_state i in
    (match xr_status r with
     | EXIT_UNKNOWN =>
         if bool_decide (current = EXCHANGE_SUBMITTING) then
           transition_intent exit_intent_id current EXCHANGE_UNKNOWN "ExitOutcomeUnknown"
             [("client_order_id", VStr (xr_client_order_id r))]%string None
         else sret tt
     | EXIT_FAILED | EXIT_NOT_ATTEMPTED =>
         if undetermined current then
           transition_intent exit_intent_id current
             (if bool_decide (xr_status r = EXIT_FAILED) then REJECTED else CANCELLED) "ExitSubmissionFailed"
             [("detail", free_text)]%string None
         else sret tt
     | _ =>
         if ostr_truthy (xr_exchange_order_id r) then
           let exchange_order_id := default EmptyString (xr_exchange_order_id r) in
           let! acknowledged_at := or_now (xr_fill_timestamp r) in
           save_exchange_order_receipt (eo_order_record_id o) exchange_order_id acknowledged_at ;;;
           (if undetermined current then
              transition_intent exit_intent_id current EXCHANGE_ACKNOWLEDGED "ExitAcknowledged"
                [("exchange_order_id", VStr exchange_order_id)]%string None
            else sret tt) ;;;
           if bool_decide (mp_state p ∈ [POSITION_PROJECTED; PROTECTED]) then
             let! occurred_at := or_now (xr_fill_timestamp r) in
             transition_position position_id (mp_state p) REDUCING "PositionReducing"
               [("exit_intent_id", VStr exit_intent_id); ("exchange_order_id", VStr exchange_order_id)]%string
               (Some occurred_at)
           else sret tt
         else sret tt
     end) ;;;
    commit).

(** States of a protection from which it is cancelled with its position. *)
Definition cancellable (s : V2ProtectionState) : bool :=
  bool_decide (s ∈ [PROTECTION_INTENT; PROTECTION_SUBMITTING; PROTECTION_ACTIVE; PROTECTION_FAILED; PROTECTION_UNKNOWN]).

(** The position of a protection, joined to it. *)
Definition terminal_position_of (d : Db) (mode : V2ExecutionMode) (symbol : string) (r : ProtectionRow) : bool :=
  existsb (fun p => String.eqb (mp_position_id p) (pt_position_id r) && in_mode mode p && String.eqb (mp_symbol p) symbol
                    && is_terminal_position (mp_state p)) (positions d).

Definition exchange_ids_of (r : ProtectionRow) : list string :=
  omap (fun o => o ≫= fun x => if str_truthy x then Some x else None)
    [pt_stop_exchange_order_id r; pt_tp_exchange_order_id r].

Definition still_open (exchange_open_order_ids : list string) (r : ProtectionRow) : bool :=
  existsb (fun x => bool_decide (x ∈ exchange_open_order_ids)) (exchange_ids_of r).

Fixpoint cancel_stale (exchange_open_order_ids : list string) (observed_at : datetime) (l : list ProtectionRow)
    (changed : Z) : SM Session Z :=
  match l with
  | [] => sret changed
  | r :: l =>
      let! position := get (R := PositionRow) (pt_position_id r) in
      match position with
      | None => cancel_stale exchange_open_order_ids observed_at l changed
      | Some p =>
          if still_open exchange_open_order_ids r then cancel_stale exchange_open_order_ids observed_at l changed
          else
            transition_protection (pt_protection_id r) (pt_state r) PROTECTION_CANCELLED
              "ProtectionReconciledCancelledAfterPositionClosed"
              [("exchange_open_order_ids", texts_value exchange_open_order_ids);
               ("position_state", VStr (position_state_value (mp_state p)))]%string (Some observed_at) ;;;
            cancel_stale exchange_open_order_ids observed_at l (changed + 1)
      end
  end.

(** The set of open order ids is given as its sorted list. *)
Definition reconcile_closed_position_protections (execution_mode : V2ExecutionMode) (symbol : string)
    (exchange_open_order_ids : list string) (observed_at : datetime) : SM Session Z :=
  with_session (
    let! d := read_db in
    let! protections := select (R := ProtectionRow)
      (fun r => terminal_position_of d execution_mode symbol r && cancellable (pt_state r)) in
    let! changed := cancel_stale exchange_open_order_ids observed_at protections 0 in
    (if changed =? 0 then sret tt else commit) ;;;
    sret changed).

(** Does the position already carry exactly this receipt? *)
Definition exit_already_projected (position_id : string) (r : ExitExecutionResult) : SM Session bool :=
  let! position := get (R := PositionRow) position_id in
  let! p := require position "position not found" in
  if negb (bool_decide (mp_state p = CLOSED)) then sret false
  else
  let! existing_order := scalar (R := OrderRow) (order_with_client_id (xr_client_order_id r)) in
  let! same := match existing_order with
               | None => sret false
               | Some o =>
                   let! l := select (R := FillRow) (fill_of_order (eo_order_record_id o)) in
                   let existing_trade_ids := omap (fun f => t ← fl_trade_id f; if str_truthy t then Some t else None) l in
                   sret (bool_decide (eo_exchange_order_id o = xr_exchange_order_id r)
                         && bool_decide ((list_to_set existing_trade_ids : gset string) = list_to_set (xr_trade_ids r)))
               end in
  sassert same (ValueError "position is already CLOSED with a different exit receipt") ;;;
  sret true.

Definition mp_realized (p : PositionRow) (realized_pnl : Dec) : PositionRow :=
  mkPosition (mp_position_id p) (mp_intent_id p) (mp_order_record_id p) (mp_symbol p) (mp_direction p)
    (mp_execution_mode p) (mp_quantity p) (mp_entry_price p) (mp_entry_fee p) (mp_state p) (mp_version p)
    (mp_projected_at p) (mp_protected_at p) (mp_closed_at p) (Some realized_pnl).
Definition mp_reduced (p : PositionRow) (quantity : Dec) : PositionRow :=
  mkPosition (mp_position_id p) (mp_intent_id p) (mp_order_record_id p) (mp_symbol p) (mp_direction p)
    (mp_execution_mode p) quantity (mp_entry_price p) (mp_entry_fee p) (mp_state p) (mp_version p)
    (mp_projected_at p) (mp_protected_at p) (mp_closed_at p) (mp_realized_pnl p).

(** The receipt of an exit whose confirmation is complete. *)
Record ConfirmedExit := mkConfirmedExit {
  ce_client_order_id : string; ce_exchange_order_id : string; ce_trade_ids : list string; ce_reduced_quantity : Dec;
  ce_average_fill_price : Dec; ce_total_fee : Dec; ce_remaining_quantity : option Dec; ce_fill_timestamp : datetime;
  ce_closed : bool }.

Definition confirmed_exit (r : ExitExecutionResult) : option ConfirmedExit :=
  match xr_exchange_order_id r, xr_average_fill_price r, xr_fill_timestamp r with
  | Some x, Some price, Some t =>
      if str_truthy x && is_nonempty (xr_trade_ids r) && negb (xr_reduced_quantity r <=? dzero)%D then
        Some (mkConfirmedExit (xr_client_order_id r) x (xr_trade_ids r) (xr_reduced_quantity r) price (xr_total_fee r)
                (xr_remaining_quantity r) t (bool_decide (xr_status r = EXIT_CLOSED)))
      else None
  | _, _, _ => None
  end.

Definition save_exit_fills (position : PositionRow) (exit_intent_id exit_order_id : string) (c : ConfirmedExit) :
    SM Session unit :=
  let n := length (ce_trade_ids c) in
  let! per_qty := slift (share (ce_reduced_quantity c) n) in
  spread_fills (fun trade_id quantity =>
    attribute_fill exit_intent_id exit_order_id (ce_exchange_order_id c) trade_id (
      let! received_at := utc_now in
      save_exchange_fill_receipt exit_intent_id exit_order_id TESTNET_ACCOUNT (ce_exchange_order_id c) (Some trade_id)
        BINANCE_USER_TRADE (mp_symbol position) (if String.eqb (mp_direction position) "long" then "SELL" else "BUY") true
        quantity (ce_average_fill_price c) (Some (dquot (ce_total_fee c) (dint (Z.of_nat n)))) (Some "USDT"%string)
        (ce_fill_timestamp c) received_at (ce_exchange_order_id c +:+ ":" +:+ trade_id)%string))
    (ce_reduced_quantity c) per_qty dzero (ce_trade_ids c).

(** Where the position is after its reduction was recorded. *)
Definition record_reduction (position : PositionRow) (exit_intent_id exit_order_id : string) (reason : ExitReason)
    (c : ConfirmedExit) : SM Session V2PositionState :=
  match mp_state position with
  | QUARANTINED =>
      repair_quarantined_position_from_confirmed_exit (mp_position_id position) exit_order_id (ce_fill_timestamp c)
        [("exit_intent_id", VStr exit_intent_id); ("reason", VStr (exit_reason_value reason));
         ("repair", VStr "exact_exchange_exit_fill")]%string ;;;
      sret CLOSED
  | REDUCING => sret REDUCING
  | current =>
      transition_position (mp_position_id position) current REDUCING "PositionReducing"
        [("exit_intent_id", VStr exit_intent_id); ("exchange_order_id", VStr (ce_exchange_order_id c));
         ("reason", VStr (exit_reason_value reason))]%string (Some (ce_fill_timestamp c)) ;;;
      sret current
  end.

Definition append_outcomes (outcome : PyDict) : list ShadowRow -> SM Session unit :=
  fix go l := match l with
    | [] => sret tt
    | s :: l => append_shadow_outcome (sh_shadow_id s) (dict_set outcome "variant" (VStr (sh_variant s))) ;;; go l
    end.

(** The outcome of the trade for every shadow of its decision. *)
Definition backfill_outcomes (decision_id : option string) (position : PositionRow) (reason : ExitReason) (c : ConfirmedExit) :
    SM Session unit :=
  match decision_id with
  | Some id =>
      if str_truthy id then
        let! snapshot := scalar (R := SnapshotRow) (fun s => String.eqb (sn_decision_id s) id) in
        match snapshot with
        | None => sret tt
        | Some s =>
            let! outcome := slift (build_shadow_outcome (sn_payload s) (mp_direction position) (mp_entry_price position)
              (ce_average_fill_price c) (ce_reduced_quantity c) (mp_entry_fee position + ce_total_fee c)%D dzero
              (exit_reason_value reason)) in
            let! l := list_shadow_records (Some (sn_snapshot_id s)) None None in
            append_outcomes outcome l
        end
      else sret tt
  | None => sret tt
  end.

(** The attributes of the position as the session holds them. *)
Definition reload (position : PositionRow) : SM Session PositionRow :=
  let! p := get (R := PositionRow) (mp_position_id position) in
  sret (default position p).

(** The protections of a position after a confirmed exit. *)
Fixpoint settle_protections (c : ConfirmedExit) (protection_exchange_order_id : option string) (l : list ProtectionRow) :
    SM Session unit :=
  match l with
  | [] => sret tt
  | r :: l =>
      let trigger := ostr_or protection_exchange_order_id (ce_exchange_order_id c) in
      let matched_trigger := bool_decide (Some trigger ∈ [pt_stop_exchange_order_id r; pt_tp_exchange_order_id r]) in
      let! current :=
        if matched_trigger && bool_decide (pt_state r = PROTECTION_ACTIVE) then
          transition_protection (pt_protection_id r) (pt_state r) PROTECTION_TRIGGERED "ProtectionTriggered"
            [("exchange_order_id", VStr (ce_exchange_order_id c));
             ("protection_exchange_order_id", ostr_value protection_exchange_order_id)]%string (Some (ce_fill_timestamp c)) ;;;
          sret PROTECTION_TRIGGERED
        else sret (pt_state r) in
      (if matched_trigger && bool_decide (current = PROTECTION_TRIGGERED) then
         transition_protection (pt_protection_id r) current PROTECTION_FILLED "ProtectionFilled"
           [("trade_ids", texts_value (ce_trade_ids c))]%string (Some (ce_fill_timestamp c))
       else if ce_closed c && cancellable current then
         transition_protection (pt_protection_id r) current PROTECTION_CANCELLED "ProtectionCancelledAfterConfirmedExit"
           [("exit_exchange_order_id", VStr (ce_exchange_order_id c)); ("position_state", VStr "CLOSED")]%string
           (Some (ce_fill_timestamp c))
       else sret tt) ;;;
      settle_protections c protection_exchange_order_id l
  end.

(** Closing: the position, its result, and the outcomes of its shadows. *)
Definition close_position (position : PositionRow) (entry_intent : IntentRow) (exit_intent_id : string) (reason : ExitReason)
    (current : V2PositionState) (c : ConfirmedExit) : SM Session unit :=
  (if bool_decide (current = CLOSED) then sret tt
   else transition_position (mp_position_id position) REDUCING CLOSED "PositionClosed"
          [("exit_intent_id", VStr exit_intent_id); ("exchange_order_id", VStr (ce_exchange_order_id c));
           ("trade_ids", texts_value (ce_trade_ids c)); ("reason", VStr (exit_reason_value reason))]%string
          (Some (ce_fill_timestamp c))) ;;;
  let gross_pnl := gross_pnl_of (mp_direction position) (mp_entry_price position) (ce_average_fill_price c)
                     (ce_reduced_quantity c) in
  let! now := reload position in
  assign (mp_realized now (gross_pnl - mp_entry_fee position - ce_total_fee c)%D) ;;;
  backfill_outcomes (it_decision_id entry_intent) position reason c.

Definition persist_confirmed_exit (position_id : string) (reason : ExitReason) (c : ConfirmedExit)
    (protection_exchange_order_id : option string) : SM Session unit :=
  let! facts := position_facts position_id in
  let '(position, entry_intent, _) := facts in
  let exit_intent_id := _exit_intent_id (ce_client_order_id c) in
  let! exit_order := scalar (R := OrderRow) (order_with_client_id (ce_client_order_id c)) in
  let! o := require exit_order "exit order disappeared before fill persistence" in
  save_exit_fills position exit_intent_id (eo_order_record_id o) c ;;;
  transition_intent exit_intent_id EXCHANGE_ACKNOWLEDGED FILLED "ExitFilled"
    [("position_id", VStr position_id); ("trade_ids", texts_value (ce_trade_ids c)); ("reduce_only", VBool true)]%string None ;;;
  let! current := record_reduction position exit_intent_id (eo_order_record_id o) reason c in
  (if ce_closed c then close_position position entry_intent exit_intent_id reason current c
   else match ce_remaining_quantity c with
        | Some q => if (dzero <? q)%D then let! now := reload position in assign (mp_reduced now q) else sret tt
        | None => sret tt
        end) ;;;
  let! protections := select (R := ProtectionRow) (fun r => String.eqb (pt_position_id r) position_id) in
  settle_protections c protection_exchange_order_id protections ;;;
  commit.

Definition persist_exit_result (cycle_id position_id : string) (execution_mode : V2ExecutionMode) (reason : ExitReason)
    (r : ExitExecutionResult) (fencing_token : string) (protection_exchange_order_id : option string) : SM Session unit :=
  if negb (bool_decide (xr_status r ∈ [EXIT_CLOSED; PARTIALLY_REDUCED])) then sret tt
  else
  match confirmed_exit r with
  | None => sraise (ValueError "confirmed exit persistence requires order id, trade ids, quantity, price, and timestamp")
  | Some c =>
      let! projected := with_session (exit_already_projected position_id r) in
      if projected then sret tt
      else
      persist_exit_intent_before_submission cycle_id position_id execution_mode reason (xr_client_order_id r)
        (xr_reduced_quantity r) fencing_token (ce_fill_timestamp c) ;;;
      persist_exit_submission_result position_id r ;;;
      with_session (persist_confirmed_exit position_id reason c protection_exchange_order_id)
  end.

(** ** An entry closed by its margin guard *)

Definition fills_quantity (l : list (Dec * Dec)) : Dec := dsum (map fst l).
Definition fills_notional (l : list (Dec * Dec)) : Dec := dsum (map (fun f => f.1 * f.2)%D l).
Definition latest_time (l : list datetime) : datetime := match l with [] => 0 | t :: l => foldl Z.max t l end.

(** What the recovery reads in its first session. *)
Record GuardedEntry := mkGuardedEntry {
  ge_intent : IntentRow; ge_order : OrderRow; ge_cycle : CycleRow; ge_position : option PositionRow;
  ge_position_id : string; ge_result : EntryExecutionResult }.

Definition guard_position_id (intent_id : string) : string := uuid5_url ("automated-trading-v2:margin-guard:" +:+ intent_id).

(** The entry, rebuilt from its persisted fills. *)
Definition read_open_entry (i : IntentRow) (existing : option PositionRow) : SM Session GuardedEntry :=
  let intent_id := it_intent_id i in
  sassert (match existing with Some p => bool_decide (mp_state p = POSITION_PROJECTED) | None => true end)
    (ValueError "cannot replay a different lifecycle") ;;;
  let! order := scalar (R := OrderRow) (order_of_intent intent_id) in
  let! o := require (o ← order; if ostr_truthy (eo_exchange_order_id o) then Some o else None)
              "margin-guard recovery requires an acknowledged entry order" in
  let! entry_fills := select (R := FillRow) (fun f => String.eqb (fl_intent_id f) intent_id
    && fill_of_order (eo_order_record_id o) f && negb (fl_reduce_only f)) in
  sassert (is_nonempty entry_fills) (ValueError "margin-guard recovery requires persisted non-reduce-only entry fills") ;;;
  let! cycle := get (R := CycleRow) (it_cycle_id i) in
  let! c := require cycle "margin-guard recovery requires the original V2 cycle" in
  let amounts := map (fun f => (fl_filled_quantity f, fl_fill_price f)) entry_fills in
  let! average := slift (ddiv (fills_notional amounts) (fills_quantity amounts)) in
  sret (mkGuardedEntry i o c existing
    (match existing with Some p => mp_position_id p | None => guard_position_id intent_id end)
    (mkEntryResult ENTRY_FILLED FILLED (eo_client_order_id o) RC_OK (eo_exchange_order_id o)
       (omap (fun f => t ← fl_trade_id f; if str_truthy t then Some t else None) entry_fills)
       (fills_quantity amounts) (Some average) (dsum (map (fun f => default dzero (fl_commission f)) entry_fills))
       (Some (latest_time (map fl_exchange_event_time entry_fills))) BINANCE_USER_TRADE (eo_quantity o) None None)).

(** [inl] the id of a position that is already closed. *)
Definition read_guarded_entry (intent_id guard_client_order_id : string) : SM Session (string + GuardedEntry) :=
  let! intent := get (R := IntentRow) intent_id in
  let! i := require intent "margin-guard entry intent not found" in
  sassert (bool_decide (it_execution_mode i = BINANCE_TESTNET)) (ValueError "permitted only for BINANCE_TESTNET facts") ;;;
  let! expected := slift (exit_client_order_id ("margin-guard:" +:+ intent_id) 1) in
  sassert (String.eqb guard_client_order_id expected) (ValueError "margin-guard client order id does not match") ;;;
  let! existing := scalar (R := PositionRow) (fun p => String.eqb (mp_intent_id p) intent_id) in
  match existing with
  | Some p =>
      if bool_decide (mp_state p = CLOSED) then sret (inl (mp_position_id p))
      else let! e := read_open_entry i existing in sret (inr e)
  | None => let! e := read_open_entry i existing in sret (inr e)
  end.

(** The guard's fills as the exit that closes the position. *)
Definition guard_exit (guard_client_order_id guard_exchange_order_id : string) (guard_fills : list ExchangeFillReceipt)
    (entry_quantity : Dec) : res ExitExecutionResult :=
  let amounts := map (fun f => (ef_filled_quantity f, ef_fill_price f)) guard_fills in
  let guard_quantity := fills_quantity amounts in
  assert_or (negb (quantity_tolerance <? dabs (guard_quantity - entry_quantity))%D)
    (ValueError "margin-guard fill quantity does not exactly close entry quantity") ≫= fun _ =>
  ddiv (fills_notional amounts) guard_quantity ≫= fun average =>
  Ok (mkExitResult EXIT_CLOSED CLOSED guard_client_order_id (Some guard_exchange_order_id) (map ef_trade_id guard_fills)
        guard_quantity (Some average) (dsum (map ef_fee guard_fills)) (Some dzero)
        (Some (latest_time (map ef_fill_timestamp guard_fills))) []).

Definition recover_confirmed_margin_guard_lifecycle (intent_id guard_exchange_order_id guard_client_order_id : string)
    (guard_fills : list ExchangeFillReceipt) : SM Session string :=
  sassert (str_truthy guard_exchange_order_id && str_truthy guard_client_order_id)
    (ValueError "margin-guard recovery requires exact exchange and client order ids") ;;;
  sassert (is_nonempty guard_fills) (ValueError "margin-guard recovery requires confirmed reduce-only fill receipts") ;;;
  sassert (forallb (fun f => String.eqb (ef_exchange_order_id f) guard_exchange_order_id) guard_fills)
    (ValueError "margin-guard fill receipt does not match the exact guard order") ;;;
  sassert (forallb (fun f => negb (ef_filled_quantity f <=? dzero)%D) guard_fills)
    (ValueError "margin-guard recovery requires positive filled quantities") ;;;
  let! read := with_session (read_guarded_entry intent_id guard_client_order_id) in
  match read with
  | inl position_id => sret position_id
  | inr e =>
      let i := ge_intent e in
      (match ge_position e with
       | Some _ => sret tt
       | None =>
           persist_entry_and_protection (it_cycle_id i) (it_decision_id i) intent_id (it_symbol i) (it_direction i)
             (it_candidate_key i) (it_candidate_type i) (it_execution_mode i) (it_decision_bar_timestamp i)
             (cy_fencing_token (ge_cycle e)) (eo_leverage (ge_order e)) (ge_result e) (ge_position_id e) None None None
             None None (it_initial_risk_usdt i) true false
       end) ;;;
      let! r := slift (guard_exit guard_client_order_id guard_exchange_order_id guard_fills
                         (ex_filled_quantity (ge_result e))) in
      persist_exit_result (it_cycle_id i) (ge_position_id e) (it_execution_mode i) CANARY_MARGIN_CEILING r
        (cy_fencing_token (ge_cycle e)) None ;;;
      sret (ge_position_id e)
  end.
End persistence.
