(* ===== verification/FactLaws.v ===== *)
(** * FactLaws: what the fact programs keep

    Every function of [FactPersistence] is a sequence of sessions made of
    repository operations, appended evidence and three direct assignments (an
    intent's missing risk, a position's result, a reduced quantity).  Whatever
    they are given, the committed lifecycles move by steps of the ledger and
    positions keep coming from fills. *)
From S2P Require Import Prelude PyDecimal PyValue State ClientOrderId Receipts PortfolioRisk Adapter Quantities.
From S2P Require Import Entry Exit Protection Database Repository Transactions Ledger ExchangeFirst Canonical Evidence FactPersistence.
Local Open Scope Z_scope.
Local Open Scope py_scope.

(** ** Preorders the programs respect *)

(** The tables without the evidence. *)
Definition same_facts (d d' : Db) : Prop :=
  intents d' = intents d /\ positions d' = positions d /\ protections d' = protections d /\ fills d' = fills d /\
  events d' = events d /\ controls d' = controls d.

Class FactRel {H : Host} (rel : Db -> Db -> Prop) := {
  fact_preorder :: PreOrder rel;
  fact_ops : forall B (m : SM Session B), op_of false B m -> moves rel m;
  fact_evidence : forall d d', same_facts d d' -> rel d d';
  fact_intent : forall d i i', find_row (R := IntentRow) (it_intent_id i') d = Some i ->
    it_state i' = it_state i -> it_version i' = it_version i -> rel d (put_row i' d);
  fact_position : forall d p p', find_row (R := PositionRow) (mp_position_id p') d = Some p ->
    mp_state p' = mp_state p -> mp_version p' = mp_version p -> mp_order_record_id p' = mp_order_record_id p ->
    rel d (put_row p' d) }.

#[export] Instance ledger_fact_rel {H : Host} : FactRel ledger_rel.
Proof.
  constructor; [exact _|exact repository_op_refines|..].
  - intros d d' (E1 & E2 & E3 & _ & E5 & _). apply ledger_rel_same. unfold ledger_of. by rewrite E1, E2, E3, E5.
  - intros d i i' Ei Es Ev. apply ledger_rel_same. rewrite (ledger_put_intent _ _ _ Ei), Es, Ev.
    unfold moved_intent. rewrite insert_id; [by destruct (ledger_of d)|by apply ledger_intent].
  - intros d p p' Ep Es Ev _. apply ledger_rel_same. rewrite (ledger_put_position _ _ _ Ep), Es, Ev.
    unfold moved_position. rewrite insert_id; [by destruct (ledger_of d)|by apply ledger_position].
Qed.

#[export] Instance grows_fact_rel {H : Host} : FactRel grows.
Proof.
  constructor; [exact _|exact repository_op_grows|..].
  - intros d d' (_ & E2 & _ & E4 & E5 & _). by apply grows_other.
  - intros d i i' _ _ _. by apply grows_other.
  - intros d p p' Ep _ _ Eo. eapply grows_put_position; [exact (find_row_elem _ _ _ Ep)|done].
Qed.

Section programs.
Context {H : Host} (rel : Db -> Db -> Prop) `{!FactRel rel}.

(** ** Evidence and direct assignments *)

Ltac evidence := apply fact_evidence; repeat split.
Ltac facts := repeat move1 evidence.

Lemma append_forward_snapshot_moves a b c d e f g : moves rel (append_forward_snapshot a b c d e f g).
Proof. intros s. unfold append_forward_snapshot. facts. Qed.
Lemma append_shadow_record_moves a b : moves rel (append_shadow_record a b).
Proof. intros s. unfold append_shadow_record. facts. Qed.
Lemma append_shadow_records_moves a l : moves rel (append_shadow_records a l).
Proof.
  induction l as [|r l IH]; intros s; cbn [append_shadow_records]; [facts|].
  apply moves_bind; [exact _|apply append_shadow_record_moves|intros].
  apply moves_bind; [exact _|apply IH|intros]. facts.
Qed.
Lemma append_shadow_outcome_moves a b : moves rel (append_shadow_outcome a b).
Proof. intros s. unfold append_shadow_outcome. facts. Qed.
Lemma append_outcomes_moves o l : moves rel (append_outcomes o l).
Proof.
  induction l as [|r l IH]; intros s; [apply moves_ret; exact _|]. cbn [append_outcomes].
  apply moves_bind; [exact _|apply append_shadow_outcome_moves|intros; apply IH].
Qed.
Lemma backfill_outcomes_moves a p r c : moves rel (backfill_outcomes a p r c).
Proof.
  intros s. unfold backfill_outcomes, list_shadow_records.
  repeat first [apply append_outcomes_moves | move1 evidence].
Qed.

Lemma put_absent_position p d : find_row (R := PositionRow) (mp_position_id p) d = None -> put_row p d = d.
Proof.
  unfold find_row, put_row. intros E. destruct d. simpl in *. f_equal. revert E.
  match goal with |- context [map _ ?l] => induction l as [|x l IH] end; [done|]. simpl.
  destruct (String.eqb (mp_position_id x) (mp_position_id p)); [done|]. intros E. by rewrite IH.
Qed.

Lemma reload_assign_moves position (f : PositionRow -> PositionRow) :
  (forall p, mp_position_id (f p) = mp_position_id p /\ mp_state (f p) = mp_state p /\ mp_version (f p) = mp_version p /\
     mp_order_record_id (f p) = mp_order_record_id p) ->
  moves rel (let! now := reload position in assign (f now)).
Proof.
  intros Hf s r s' E. unfold reload, sbind, get, sret in E.
  destruct (find_row (mp_position_id position) (s_db s)) as [p|] eqn:Ep; simpl in E.
  - destruct (Hf p) as (E1 & E2 & E3 & E4). revert r s' E. apply moves_db.
    apply (fact_position _ p); [|done..]. rewrite E1. exact (find_row_self _ _ _ Ep).
  - destruct (Hf position) as (E1 & _). revert r s' E. apply moves_db. rewrite put_absent_position by (by rewrite E1).
    reflexivity.
Qed.

(** ** Programs of repository operations *)

Ltac op c := apply fact_ops, c.
Ltac fact1 :=
  lazymatch goal with
  | |- moves_at _ _ (append_event _ _ _ _ _) => op op_append_event; done
  | |- moves_at _ _ (create_cycle _ _ _ _ _ _) => op op_create_cycle
  | |- moves_at _ _ (create_decision _ _ _ _ _) => op op_create_decision
  | |- moves_at _ _ (create_intent _ _ _ _ _ _ _ _ _ _ _ _) => op op_create_intent
  | |- moves_at _ _ (transition_intent _ _ _ _ _ _) => op op_transition_intent
  | |- moves_at _ _ (reconcile_intent_from_confirmed_fill _) => op op_reconcile_intent
  | |- moves_at _ _ (save_order_submission _ _ _ _ _) => op op_save_order_submission
  | |- moves_at _ _ (save_exchange_order_receipt _ _ _) => op op_save_exchange_order_receipt
  | |- moves_at _ _ (save_exchange_fill_receipt _ _ _ _ _ _ _ _ _ _ _ _ _ _ _ _) => op op_save_exchange_fill_receipt
  | |- moves_at _ _ (get_exchange_fill_by_trade _ _) => op op_get_exchange_fill_by_trade
  | |- moves_at _ _ (save_order_level_fill_recovery _ _ _ _ _ _ _ _ _ _ _) => op op_save_order_level_fill_recovery
  | |- moves_at _ _ (project_position_from_confirmed_fills _ _ _ _ _ _ _ _) => op op_project_confirmed
  | |- moves_at _ _ (transition_position _ _ _ _ _ _) => op op_transition_position
  | |- moves_at _ _ (repair_quarantined_position_from_confirmed_exit _ _ _ _) => op op_repair_quarantined
  | |- moves_at _ _ (save_protection _ _ _ _ _ _ _ _ _ _ _) => op op_save_protection
  | |- moves_at _ _ (transition_protection _ _ _ _ _ _) => op op_transition_protection
  | |- moves_at _ _ (update_protection_active _ _ _ _) => op op_update_protection_active
  | |- moves_at _ _ (list_active_initial_risk_exposures _) => op op_list_exposures
  | |- moves_at _ _ (sbind (get _) _) => apply moves_get
  | |- moves_at _ _ (sbind (require _ _) _) => apply moves_require; [exact _|intros ? ?]
  | |- moves_at _ _ (sret _) => apply moves_ret; exact _
  | |- moves_at _ _ (sraise _) => apply moves_raise; exact _
  | |- moves_at _ _ (sbind (match ?x with _ => _ end) _) => destruct x eqn:?
  | |- moves_at _ _ (sbind _ _) => apply moves_bind; [exact _| |intros ? ? ?]
  | |- moves_at _ _ (match ?x with _ => _ end) => destruct x eqn:?
  | |- moves_at _ _ _ => apply quiet_moves; [exact _|solve [quiet_tac]]
  end.
Ltac run_facts := cbv zeta; repeat fact1.

Lemma ensure_cycle_moves a b c d e : moves rel (ensure_cycle a b c d e).
Proof. intros s. unfold ensure_cycle. run_facts. Qed.
Lemma ensure_decision_moves a b c : moves rel (ensure_decision a b c).
Proof. intros s. unfold ensure_decision. run_facts. Qed.
Lemma ensure_order_moves a b c d e : moves rel (ensure_order a b c d e).
Proof. intros s. unfold ensure_order. run_facts. Qed.
Lemma attribute_fill_moves a b c d save : moves rel save -> moves rel (attribute_fill a b c d save).
Proof. intros Hs s. unfold attribute_fill. repeat first [apply Hs | fact1]. Qed.
Lemma spread_fills_moves save total per l :
  (forall t q, moves rel (save t q)) -> forall allocated, moves rel (spread_fills save total per allocated l).
Proof.
  intros Hs. induction l as [|t l IH]; intros allocated s; [by apply moves_ret; exact _|]. cbn [spread_fills].
  apply moves_bind; [exact _|apply Hs|]. intros. apply IH.
Qed.

Lemma save_entry_fills_moves a b c d e : moves rel (save_entry_fills a b c d e).
Proof.
  intros s. unfold save_entry_fills. cbv zeta.
  apply moves_bind; [exact _|run_facts|intros]. apply spread_fills_moves. intros t q ?. run_facts.
Qed.
Lemma persist_entry_fills_moves a b c d e : moves rel (persist_entry_fills a b c d e).
Proof.
  intros s. unfold persist_entry_fills. cbv zeta. destruct (String.eqb _ _); [run_facts|].
  apply moves_bind; [exact _|run_facts|intros]. apply spread_fills_moves. intros t q.
  apply attribute_fill_moves. intros ?. run_facts.
Qed.
Lemma save_exit_fills_moves a b c d : moves rel (save_exit_fills a b c d).
Proof.
  intros s. unfold save_exit_fills. cbv zeta.
  apply moves_bind; [exact _|run_facts|intros]. apply spread_fills_moves. intros t q.
  apply attribute_fill_moves. intros ?. run_facts.
Qed.

Lemma intent_of_fill_moves a b c d e f g h i j k : moves rel (intent_of_fill a b c d e f g h i j k).
Proof.
  intros s. unfold intent_of_fill. apply moves_get. destruct (find_row c (s_db s)) as [x|] eqn:Ex; [|run_facts].
  destruct (it_initial_risk_usdt x); [run_facts|]. destruct j as [risk|]; [|run_facts].
  apply moves_bind; [exact _| |intros; run_facts]. apply moves_db, (fact_intent _ x); [|done..].
  exact (find_row_self _ _ _ Ex).
Qed.
Lemma persist_entry_protection_moves a b c d e f : moves rel (persist_entry_protection a b c d e f).
Proof. intros s. unfold persist_entry_protection. run_facts. Qed.
Lemma position_facts_moves a : moves rel (position_facts a).
Proof. intros s. unfold position_facts. run_facts. Qed.
Lemma cancel_stale_moves ids t l : forall n, moves rel (cancel_stale ids t l n).
Proof.
  induction l as [|r l IH]; intros n s; cbn [cancel_stale]; run_facts; apply IH.
Qed.
Lemma settle_protections_moves c x l : moves rel (settle_protections c x l).
Proof.
  induction l as [|r l IH]; intros s; cbn [settle_protections]; run_facts; apply IH.
Qed.
Lemma record_reduction_moves a b c d e : moves rel (record_reduction a b c d e).
Proof. intros s. unfold record_reduction. run_facts. Qed.
Lemma close_position_moves a b c d e f : moves rel (close_position a b c d e f).
Proof.
  intros s. unfold close_position. cbv zeta.
  apply moves_bind; [exact _|run_facts|intros].
  apply moves_assoc, moves_bind; [exact _| |intros; apply backfill_outcomes_moves].
  by apply reload_assign_moves.
Qed.
End programs.

(** ** Whole functions *)

(** The functions of the module. *)
Inductive fact_program {H : Host} : forall X : Type, SM Session X -> Prop :=
  | fact_entry_intent a b c d e f g h i j k l m n :
      fact_program _ (persist_entry_intent_before_submission a b c d e f g h i j k l m n)
  | fact_entry_result a b c : fact_program _ (persist_entry_submission_result a b c)
  | fact_entry a b c d e f g h i j k l m n o p q r s t u :
      fact_program _ (persist_entry_and_protection a b c d e f g h i j k l m n o p q r s t u)
  | fact_margin_guard a b c d : fact_program _ (recover_confirmed_margin_guard_lifecycle a b c d)
  | fact_exit_intent a b c d e f g h : fact_program _ (persist_exit_intent_before_submission a b c d e f g h)
  | fact_exit_result a b : fact_program _ (persist_exit_submission_result a b)
  | fact_stale_protections a b c d : fact_program _ (reconcile_closed_position_protections a b c d)
  | fact_exit a b c d e f g : fact_program _ (persist_exit_result a b c d e f g).

Section functions.
Context {H : Host} (rel : Db -> Db -> Prop) `{!FactRel rel} (d0 : Db).

Notation kept := (preserves (fun s : Session => rel d0 (s_committed s))).

Lemma session_kept {A} (m : SM Session A) : advances rel m -> kept (with_session m).
Proof. intros Hm s r s' Hs E. etrans; [exact Hs|]. by eapply (advances_session rel). Qed.

Ltac adv_moves L := apply moves_advance; [exact _|apply L].
Ltac adv_op c := apply moves_advance; [exact _|apply fact_ops, c].
Ltac adv1 :=
  lazymatch goal with
  | |- advances _ (sbind (reload _) _) =>
      apply moves_advance; [exact _|apply (reload_assign_moves rel); intros ?; repeat split]
  | |- advances _ (sbind _ _) => apply advances_bind; [exact _| |intros ?]
  | |- advances _ commit => apply advances_commit; exact _
  | |- advances _ rollback => apply advances_rollback; exact _
  | |- advances _ (match ?x with _ => _ end) => destruct x eqn:?
  | |- advances _ (ensure_cycle _ _ _ _ _) => adv_moves ensure_cycle_moves; exact _
  | |- advances _ (ensure_decision _ _ _) => adv_moves ensure_decision_moves; exact _
  | |- advances _ (ensure_order _ _ _ _ _) => adv_moves ensure_order_moves; exact _
  | |- advances _ (save_entry_fills _ _ _ _ _) => adv_moves save_entry_fills_moves; exact _
  | |- advances _ (persist_entry_fills _ _ _ _ _) => adv_moves persist_entry_fills_moves; exact _
  | |- advances _ (save_exit_fills _ _ _ _) => adv_moves save_exit_fills_moves; exact _
  | |- advances _ (intent_of_fill _ _ _ _ _ _ _ _ _ _ _) => adv_moves intent_of_fill_moves; exact _
  | |- advances _ (persist_entry_protection _ _ _ _ _ _) => adv_moves persist_entry_protection_moves; exact _
  | |- advances _ (position_facts _) => apply moves_advance; [exact _|apply (position_facts_moves rel)]
  | |- advances _ (cancel_stale _ _ _ _) => adv_moves cancel_stale_moves; exact _
  | |- advances _ (settle_protections _ _ _) => adv_moves settle_protections_moves; exact _
  | |- advances _ (record_reduction _ _ _ _ _) => adv_moves record_reduction_moves; exact _
  | |- advances _ (close_position _ _ _ _ _ _) => adv_moves close_position_moves; exact _
  | |- advances _ (create_intent _ _ _ _ _ _ _ _ _ _ _ _) => adv_op op_create_intent
  | |- advances _ (transition_intent _ _ _ _ _ _) => adv_op op_transition_intent
  | |- advances _ (transition_position _ _ _ _ _ _) => adv_op op_transition_position
  | |- advances _ (reconcile_intent_from_confirmed_fill _) => adv_op op_reconcile_intent
  | |- advances _ (save_order_submission _ _ _ _ _) => adv_op op_save_order_submission
  | |- advances _ (save_exchange_order_receipt _ _ _) => adv_op op_save_exchange_order_receipt
  | |- advances _ (project_position_from_confirmed_fills _ _ _ _ _ _ _ _) => adv_op op_project_confirmed
  | |- advances _ (list_active_initial_risk_exposures _) => adv_op op_list_exposures
  | |- advances _ _ => apply quiet_advance; [exact _|solve [quiet_tac]]
  end.
Ltac session := apply session_kept; cbv zeta; repeat adv1.
Ltac keep1 :=
  lazymatch goal with
  | |- preserves _ (sbind _ _) => apply preserves_bind; [|intros ?]
  | |- preserves _ (sret _) => apply preserves_ret
  | |- preserves _ (sraise _) => apply preserves_raise
  | |- preserves _ (slift _) => apply preserves_lift
  | |- preserves _ (sassert _ _) => apply preserves_assert
  | |- preserves _ (match ?x with _ => _ end) => destruct x eqn:?
  end.

Lemma entry_intent_kept a b c d e f g h i j k l m n :
  kept (persist_entry_intent_before_submission a b c d e f g h i j k l m n).
Proof. unfold persist_entry_intent_before_submission. repeat keep1; session. Qed.
Lemma entry_result_kept a b c : kept (persist_entry_submission_result a b c).
Proof. unfold persist_entry_submission_result. session. Qed.
Lemma entry_kept a b c d e f g h i j k l m n o p q r s t u :
  kept (persist_entry_and_protection a b c d e f g h i j k l m n o p q r s t u).
Proof. unfold persist_entry_and_protection. cbv zeta. repeat keep1; session. Qed.
Lemma exit_intent_kept a b c d e f g h : kept (persist_exit_intent_before_submission a b c d e f g h).
Proof. unfold persist_exit_intent_before_submission. cbv zeta. repeat keep1; session. Qed.
Lemma exit_submission_kept a b : kept (persist_exit_submission_result a b).
Proof. unfold persist_exit_submission_result. cbv zeta. session. Qed.
Lemma stale_protections_kept a b c d : kept (reconcile_closed_position_protections a b c d).
Proof. unfold reconcile_closed_position_protections. session. Qed.
Lemma exit_projected_quiet a b : quiet (exit_already_projected a b).
Proof.
  unfold exit_already_projected. apply quiet_bind; [quiet_tac|intros ?]. apply quiet_bind; [quiet_tac|intros p].
  apply quiet_if; [quiet_tac|]. apply quiet_bind; [quiet_tac|intros o].
  apply quiet_bind; [destruct o; quiet_tac|intros ?]. apply quiet_bind; [quiet_tac|intros; quiet_tac].
Qed.
Lemma exit_kept a b c d e f g : kept (persist_exit_result a b c d e f g).
Proof.
  unfold persist_exit_result. repeat keep1.
  - apply session_kept, quiet_advance; [exact _|apply exit_projected_quiet].
  - apply exit_intent_kept.
  - apply exit_submission_kept.
  - apply session_kept. unfold persist_confirmed_exit. cbv zeta. repeat adv1.
Qed.
Lemma guarded_entry_quiet a b : quiet (read_guarded_entry a b).
Proof.
  unfold read_guarded_entry, read_open_entry. cbv zeta.
  repeat first [ apply quiet_bind; [quiet_tac|intros ?]
               | match goal with |- quiet (match ?x with _ => _ end) => destruct x end | quiet_tac ].
  all: repeat first [ apply quiet_bind; [|intros ?] | progress quiet_tac ].
Qed.
Lemma margin_guard_kept a b c d : kept (recover_confirmed_margin_guard_lifecycle a b c d).
Proof.
  unfold recover_confirmed_margin_guard_lifecycle. cbv zeta. repeat keep1.
  - apply session_kept, quiet_advance; [exact _|apply guarded_entry_quiet].
  - apply entry_kept.
  - apply exit_kept.
Qed.

Lemma fact_program_kept X (m : SM Session X) : fact_program X m -> kept m.
Proof.
  destruct 1.
  - apply entry_intent_kept.
  - apply entry_result_kept.
  - apply entry_kept.
  - apply margin_guard_kept.
  - apply exit_intent_kept.
  - apply exit_submission_kept.
  - apply stale_protections_kept.
  - apply exit_kept.
Qed.
End functions.

(** ** Runs of fact programs *)

Section runs.
Context {H : Host}.

Inductive fact_step : Session -> Session -> Prop :=
  | fact_ran X (m : SM Session X) s r s' : fact_program X m -> m s = (r, s') -> fact_step s s'.

Lemma fact_run_kept rel `{!FactRel rel} s s' : rtc fact_step s s' -> rel (s_committed s) (s_committed s').
Proof.
  induction 1 as [s|s s1 s' [X m s0 r s1' Hp Hm] _ IH]; [reflexivity|]. etrans; [|exact IH].
  eapply (fact_program_kept rel); [exact Hp| |exact Hm]. reflexivity.
Qed.

(** C26. Whatever facts are persisted, and however often: every committed row is the
    replay of its logged movements, every committed position has a confirmed
    fill, and the lifecycles move on only by steps of the ledger. *)
Theorem facts_keep_the_ledger s s' :
  rtc fact_step new_session s -> rtc fact_step s s' ->
  event_sourced (s_committed s) /\
  (forall p, p ∈ positions (s_committed s) -> has_fill (mp_order_record_id p) (s_committed s)) /\
  rtc ledger_step (committed_lg s) (committed_lg s').
Proof.
  intros H0 H1. split; [|split].
  - apply faithful_event_sourced. eapply (rtc_closed ledger_step faithful_ledger);
      [intros a b Hf Hab; by eapply faithful_step|exact (fact_run_kept ledger_rel _ _ H0)|]. apply faithful_empty.
  - intros p Hp. destruct (grows_positions _ _ (fact_run_kept grows _ _ H0) p Hp) as [(p0 & H' & _)|]; [|done].
    by apply elem_of_nil in H'.
  - exact (fact_run_kept ledger_rel _ _ H1).
Qed.
End runs.

(** ** A trade, recorded *)

#[local] Existing Instance demo_host.

Definition demo_reserve : SM Session (option EntryRefusal) :=
  persist_entry_intent_before_submission "c1" None "i1" "BTC/USDT" "long" "k" PRIMARY BINANCE_TESTNET 0 "f1" (dint 5)
    (Some (dint 10000)) true 2.
Definition demo_fill : EntryExecutionResult :=
  mkEntryResult ENTRY_FILLED FILLED "cid" Funnel.RC_OK (Some "ex-1"%string) ["t1"; "t2"]%string (dint 2)
    (Some (dint 100)) (mkDec 4 (-1)) (Some 5) BINANCE_USER_TRADE (dint 2) None None.
Definition demo_protection : ProtectionResult :=
  mkProtectionResult PROT_ACTIVE PROTECTION_ACTIVE (Some "s-1"%string) None [] false 1.
Definition demo_enter : SM Session unit :=
  persist_entry_and_protection "c1" None "i1" "BTC/USDT" "long" "k" PRIMARY BINANCE_TESTNET 0 "f1" 3 demo_fill "p1"
    (Some demo_protection) (Some (dint 98)) None (Some "v2s"%string) None None true false.
Definition demo_exit_result : ExitExecutionResult :=
  mkExitResult EXIT_CLOSED CLOSED "v2x" (Some "ex-2"%string) ["t3"]%string (dint 2) (Some (dint 110)) (mkDec 5 (-1))
    (Some dzero) (Some 9) [].
Definition demo_leave : SM Session unit :=
  persist_exit_result "c2" "p1" BINANCE_TESTNET TAKE_PROFIT demo_exit_result "f2" None.


Definition demo_entered : Session := (demo_enter (demo_reserve new_session).2).2.
Definition demo_traded : Session := (demo_leave demo_entered).2.

Lemma fact_step_run {X} (m : SM Session X) s : fact_program X m -> rtc fact_step s (m s).2.
Proof. intros Hm. apply rtc_once. exact (fact_ran X m s (m s).1 (m s).2 Hm (surjective_pairing _)). Qed.

Lemma demo_entered_steps : rtc fact_step new_session demo_entered.
Proof.
  transitivity (demo_reserve new_session).2.
  - apply fact_step_run, fact_entry_intent.
  - unfold demo_entered. apply fact_step_run, fact_entry.
Qed.
Lemma demo_traded_steps : rtc fact_step demo_entered demo_traded.
Proof. unfold demo_traded. apply fact_step_run, fact_exit. Qed.

Lemma facts_keep_the_ledger_witness :
  map mp_state (positions (s_committed demo_entered)) = [PROTECTED] /\
  map mp_state (positions (s_committed demo_traded)) = [CLOSED] /\
  rtc ledger_step (committed_lg demo_entered) (committed_lg demo_traded).
Proof.
  split; [vm_compute; reflexivity|]. split; [vm_compute; reflexivity|].
  exact (proj2 (proj2 (facts_keep_the_ledger demo_entered demo_traded demo_entered_steps demo_traded_steps))).
Defined.
