(* ===== verification/SwitchLaws.v ===== *)
(** * SwitchLaws: who leaves the switch of new entries alone

    The row of the runtime control is written by [set_runtime_control] and
    [compare_and_set_runtime_control] only.  Every other operation of the repository,
    and with it everything a cycle and a pass do with the database, keeps the row. *)
From S2P Require Import Prelude PyDecimal PyValue State Receipts PortfolioRisk Quantities.
From S2P Require Import Database Repository Transactions Ledger ExchangeFirst Evidence FactPersistence FactLaws.
Local Open Scope Z_scope.

(** A row of the switch stays as it is. *)
Definition switch_kept (d d' : Db) : Prop :=
  forall c, find_row (R := ControlRow) "global" d = Some c -> find_row (R := ControlRow) "global" d' = Some c.

#[export] Instance switch_kept_preorder : PreOrder switch_kept.
Proof. split; [by intros d c|]. intros d1 d2 d3 H1 H2 c Hc. by apply H2, H1. Qed.

Lemma switch_other d d' : controls d' = controls d -> switch_kept d d'.
Proof. intros E c. unfold find_row. cbn. by rewrite E. Qed.
Lemma switch_insert (c : ControlRow) d : switch_kept d (insert_row c d).
Proof.
  intros c0. unfold find_row. cbn. generalize (controls d). induction l as [|x l IH]; [done|]. simpl.
  by destruct (String.eqb (ct_scope x) "global").
Qed.

Section operations.
Context {H : Host}.
Notation keeping := (moves switch_kept).

Lemma aggregate_quiet o : quiet (_aggregate_fills o).
Proof. apply quiet_bind; [apply quiet_select|]. intros []; by apply quiet_same. Qed.

Ltac unwritten := first [apply switch_other; reflexivity | apply switch_insert].
Ltac keep1 :=
  first [ apply moves_bind; [exact _|apply quiet_moves; [exact _|apply aggregate_quiet]|intros ?a ?s _]
        | apply moves_scalar_position; [exact _| |intros] | move1 unwritten ].
Ltac keep := repeat keep1.

Lemma append_event_keeps a b c d e : keeping (append_event a b c d e).
Proof. intros s. unfold append_event. keep. Qed.
Lemma save_exchange_fill_receipt_keeps a b c d e f g h i j k l m n o q :
  keeping (save_exchange_fill_receipt a b c d e f g h i j k l m n o q).
Proof. intros s. unfold save_exchange_fill_receipt, _refresh_order_aggregate_from_fills. keep. Qed.
Lemma spread_fills_keeps save total per l :
  (forall t q, keeping (save t q)) -> forall allocated, keeping (spread_fills save total per allocated l).
Proof.
  intros Hs. induction l as [|t l IH]; intros allocated s; [by apply moves_ret; exact _|]. cbn [spread_fills].
  apply moves_bind; [exact _|apply Hs|]. intros. apply IH.
Qed.
Lemma save_fill_receipt_keeps a b c d e f : keeping (save_fill_receipt a b c d e f).
Proof.
  intros s. unfold save_fill_receipt.
  repeat first [apply spread_fills_keeps; intros ? ? ? | apply save_exchange_fill_receipt_keeps | keep1].
Qed.
Lemma project_confirmed_keeps a b c d e f g h : keeping (project_position_from_confirmed_fills a b c d e f g h).
Proof. intros s. unfold project_position_from_confirmed_fills. keep. Qed.
Lemma transition_position_keeps a b c d e f : keeping (transition_position a b c d e f).
Proof. intros s. unfold transition_position, append_event. keep. Qed.
Lemma transition_protection_keeps a b c d e f : keeping (transition_protection a b c d e f).
Proof. intros s. unfold transition_protection, append_event. keep. Qed.
Lemma resolve_all_keeps t l : keeping (resolve_all t l).
Proof. induction l as [|i l IH]; intros s; cbn [resolve_all]; keep. apply IH. Qed.
Lemma ensure_runtime_control_keeps a b c d : keeping (ensure_runtime_control a b c d).
Proof.
  intros s. unfold ensure_runtime_control. keep1. keep1; [keep|].
  intros r s'. unfold sbind, read_db, server_now, stry, add, on_db, smodify, flush, sret, sraise, get. cbn [s_db s_committed s_draws].
  destruct (constraints_ok _); cbn [s_db s_committed s_draws]; [|destruct (find_row _ _)]; intros [= <- <-];
    (split; [done|left]); unwritten || done.
Qed.

(** No operation writes the switch, unless it may. *)
Lemma operation_keeps_switch A (m : SM Session A) : op_of false A m -> keeping m.
Proof.
  enough (forall writes, op_of writes A m -> writes = false -> keeping m) as Hall by (intros Hm; by apply (Hall false)).
  destruct 1; intros Hw s; try discriminate Hw.
  - apply append_event_keeps.
  - unfold create_cycle. keep.
  - unfold complete_cycle. keep.
  - unfold create_decision. keep.
  - unfold create_intent. keep.
  - unfold transition_intent, append_event. keep.
  - unfold reconcile_intent_from_confirmed_fill, append_event. keep.
  - unfold save_order_submission. keep.
  - unfold save_exchange_order_receipt. keep.
  - apply save_exchange_fill_receipt_keeps.
  - unfold get_exchange_fill_by_trade. keep.
  - unfold save_order_level_fill_recovery. repeat first [apply save_exchange_fill_receipt_keeps | keep1].
  - apply save_fill_receipt_keeps.
  - apply project_confirmed_keeps.
  - unfold reconcile_position_quantity_from_authoritative_snapshot, append_event. keep.
  - apply transition_position_keeps.
  - unfold project_position. repeat first [apply project_confirmed_keeps | apply transition_position_keeps | keep1].
  - unfold repair_quarantined_position_from_confirmed_exit, append_event. keep.
  - unfold finalize_quarantined_historical_attribution, append_event. keep.
  - unfold save_protection. keep.
  - unfold update_protection_stop, append_event. keep.
  - apply transition_protection_keeps.
  - unfold update_protection_active. repeat first [apply transition_protection_keeps | keep1].
  - unfold record_reconciliation. keep.
  - unfold record_incident. keep.
  - unfold resolve_reconciliation_incidents. repeat first [apply resolve_all_keeps | keep1].
  - unfold get_runtime_control. keep.
  - apply ensure_runtime_control_keeps.
  - unfold list_active_initial_risk_exposures. keep.
  - unfold get_open_positions. keep.
  - unfold list_exchange_unknown_intents. keep.
  - unfold get_position_by_id. keep.
Qed.
End operations.

(** What fact programs, cycles and passes do with the database keeps the switch. *)
#[export] Instance switch_fact_rel {H : Host} : FactRel switch_kept.
Proof.
  constructor; [exact _|exact operation_keeps_switch|..].
  - intros d d' (_ & _ & _ & _ & _ & E). by apply switch_other.
  - intros d i i' _ _ _. by apply switch_other.
  - intros d p p' _ _ _ _. by apply switch_other.
Qed.

(** Two relations at once. *)
Definition both (r1 r2 : Db -> Db -> Prop) (d d' : Db) : Prop := r1 d d' /\ r2 d d'.
#[export] Instance both_fact_rel {H : Host} r1 r2 `{!FactRel r1} `{!FactRel r2} : FactRel (both r1 r2).
Proof.
  constructor.
  - split; [by intros d; split|]. intros d1 d2 d3 [] []. split; by etrans.
  - intros B m Hm s r s' E. destruct (fact_ops (rel := r1) _ _ Hm _ _ _ E) as [Hc H1].
    destruct (fact_ops (rel := r2) _ _ Hm _ _ _ E) as [_ H2]. split; [done|].
    destruct H1 as [H1|H1]; [|by right]. destruct H2 as [H2|H2]; [by left|by right].
  - intros d d' E. split; by apply fact_evidence.
  - intros. split; by eapply fact_intent.
  - intros. split; by eapply fact_position.
Qed.
