(* ===== verification/FactRules.v ===== *)
(** * FactRules: what single fact programs guarantee

    A reservation is admitted against the committed book and becomes part of it;
    a confirmed exit is projected once; protections of ended positions are
    cancelled exactly when the exchange no longer holds their orders. *)
From S2P Require Import Prelude PyDecimal PyValue State ClientOrderId Receipts PortfolioRisk Adapter Quantities.
From S2P Require Import Entry Exit Protection Database Repository Transactions Ledger RepositoryLaws Canonical Evidence.
From S2P Require Import FactPersistence FactLaws.
Local Open Scope Z_scope.
Local Open Scope py_scope.

(** ** Reservation *)

(** The tables the risk book is read from. *)
Definition same_book (d d' : Db) : Prop :=
  intents d' = intents d /\ positions d' = positions d.
#[export] Instance same_book_preorder : PreOrder same_book.
Proof. split; [by intros d|]. intros d1 d2 d3 [E1 E2] [E3 E4]. split; congruence. Qed.

Section reservation.
Context {H : Host}.

Ltac book := repeat move1 ltac:(by split).
Lemma ensure_cycle_book a b c d e : moves same_book (ensure_cycle a b c d e).
Proof. intros s. unfold ensure_cycle, create_cycle. book. Qed.
Lemma ensure_decision_book a b c : moves same_book (ensure_decision a b c).
Proof. intros s. unfold ensure_decision, create_decision. book. Qed.

Lemma moves_ok {rel A} {m : SM Session A} {s a s'} :
  moves rel m -> m s = (Ok a, s') -> s_committed s' = s_committed s /\ rel (s_db s) (s_db s').
Proof. intros Hm E. destruct (Hm s _ _ E) as [Hc [Hs|[[e ?] _]]]; [done|done]. Qed.

Lemma create_intent_run a b c d e f g h i j k l s s' :
  create_intent a b c d e f g h i j k l s = (Ok tt, s') ->
  s' = mkSession (s_committed s) (insert_row (mkIntent a b k c d e f g h i l j 0) (s_db s)) (s_draws s).
Proof.
  unfold create_intent. intros E.
  apply sbind_inv in E as [([] & s1 & E1 & E)|(x & _ & E)]; [|done]. apply sassert_inv in E1 as [-> _].
  apply sbind_inv in E as [([] & s2 & E2 & E)|(x & _ & E)]; [|done]. injection E2 as <-.
  by apply flush_ok in E as [-> _].
Qed.

Lemma transition_intent_run id a b name payload t s s' :
  transition_intent id a b name payload t s = (Ok tt, s') ->
  exists i, find_row (R := IntentRow) id (s_db s) = Some i /\ s_committed s' = s_committed s /\
    same_book (put_row (it_moved i b) (s_db s)) (s_db s').
Proof.
  unfold transition_intent. intros E.
  apply sbind_inv in E as [(o & s1 & E10 & E)|(x & E10 & ?)]; [|done]. injection E10 as <- <-.
  apply sbind_inv in E as [(i & s2 & E20 & E)|(x & E20 & ?)]; [|done].
  destruct (find_row id (s_db s)) as [i0|] eqn:Ei; [|done]. injection E20 as <- <-.
  apply sbind_inv in E as [([] & s3 & E30 & E)|(x & E30 & ?)]; [|done]. apply sassert_inv in E30 as [-> _].
  apply sbind_inv in E as [([] & s4 & E40 & E)|(x & E40 & ?)]; [|done]. apply slift_inv in E40 as [_ ->].
  apply sbind_inv in E as [([] & s5 & E50 & E)|(x & E50 & ?)]; [|done]. injection E50 as <-.
  exists i0. split; [done|].
  assert (moves same_book (let! t := or_now t in append_event id AGG_INTENT name
    (transition_payload payload (intent_state_value (it_state i0)) (intent_state_value b) (it_version (it_moved i0 b))) t ;;; flush)) as Hm.
  { intros s2. unfold append_event. book. }
  destruct (moves_ok Hm E) as [Hc Hb]. by split.
Qed.

Lemma put_last (l : list IntentRow) key i0 i :
  it_intent_id i0 = key -> List.find (fun x => String.eqb (it_intent_id x) key) l = None ->
  map (fun x => if String.eqb (it_intent_id x) key then i else x) (l ++ [i0]) = l ++ [i].
Proof.
  intros <-. induction l as [|x l IH]; simpl; [by rewrite String.eqb_refl|].
  destruct (String.eqb (it_intent_id x) (it_intent_id i0)); [done|]. intros Hl. by rewrite IH.
Qed.

(** The book of a mode over the tables [d]. *)
Definition book_of (mode : V2ExecutionMode) (d : Db) : list (option RiskExposure) :=
  map (position_exposure d) (open_positions_of mode d)
  ++ map intent_exposure (reserved_intents mode (open_positions_of mode d) d).

Lemma book_known_positions mode d p :
  existsb (fun o => bool_decide (o = None)) (book_of mode d) = false -> p ∈ open_positions_of mode d ->
  is_Some (find_row (R := IntentRow) (mp_intent_id p) d).
Proof.
  intros Hk Hp. destruct (find_row (R := IntentRow) (mp_intent_id p) d) as [i|] eqn:E; [done|].
  exfalso. apply Bool.diff_false_true. rewrite <- Hk. apply existsb_exists. exists None. split; [|done].
  apply list_elem_of_In, elem_of_app. left. apply list_elem_of_fmap. exists p. split; [|done].
  unfold position_exposure. by rewrite E.
Qed.

(** One more reserved intent, after every other. *)
Lemma book_reserved mode d d' row :
  intents d' = intents d ++ [row] -> positions d' = positions d ->
  find_row (R := IntentRow) (it_intent_id row) d = None ->
  existsb (fun o => bool_decide (o = None)) (book_of mode d) = false ->
  (forall p, p ∈ positions d -> mp_intent_id p <> it_intent_id row) ->
  it_execution_mode row = mode -> active_intent (it_state row) = true -> is_exit_intent row = false ->
  book_of mode d' = book_of mode d ++ [intent_exposure row].
Proof.
  intros Ei Ep Hn Hk Hf Hm Ha Hx. unfold book_of. rewrite <- app_assoc.
  assert (open_positions_of mode d' = open_positions_of mode d) as Eo by (unfold open_positions_of; by rewrite Ep).
  rewrite Eo. f_equal.
  - apply map_ext_in. intros p Hp%list_elem_of_In. destruct (book_known_positions mode d p Hk Hp) as [i Hi].
    unfold position_exposure, find_row in *. simpl in *. rewrite Ei, find_last. by rewrite Hi.
  - unfold reserved_intents. rewrite Ep, Ei. unfold bfilter. rewrite List.filter_app. unfold bfilter in *.
    rewrite map_app. f_equal. cbn [List.filter].
    assert (forall l, (forall p, p ∈ l -> p ∈ positions d) -> has_position l row = false) as Hp.
    { intros l Hl. apply not_true_iff_false. intros (p & Hp%list_elem_of_In & E%String.eqb_eq)%existsb_exists.
      by apply (Hf p); [apply Hl|]. }
    rewrite !Hp, Ha, Hx; [by rewrite bool_decide_eq_true_2| |]; intros p [? _]%elem_of_bfilter; done.
Qed.

Lemma with_session_inv {A} (m : SM Session A) s r s' :
  with_session m s = (r, s') -> exists s1, m (mkSession (s_committed s) (s_committed s) (s_draws s)) = (r, s1) /\
    s' = mkSession (s_committed s1) (s_committed s1) (s_draws s1).
Proof. unfold with_session. destruct (m _) as [r1 s1]. intros [= <- <-]. by exists s1. Qed.

Lemma commit_ok s u s' : commit s = (Ok u, s') -> constraints_ok (s_db s) = true /\ s_committed s' = s_db s.
Proof.
  unfold commit. intros [(u1 & s1 & [-> Hc]%flush_ok & E)|(e & _ & E)]%sbind_inv; [|done]. injection E as _ <-. done.
Qed.

(** What a session that opens on committed tables reads as the book. *)
Definition read_book (mode : V2ExecutionMode) (s : Session) : res (list RiskExposure * bool) :=
  (with_session (list_active_initial_risk_exposures mode) s).1.

Lemma read_book_eq mode s :
  constraints_ok (s_committed s) = true ->
  read_book mode s = Ok (omap id (book_of mode (s_committed s)),
                         existsb (fun o => bool_decide (o = None)) (book_of mode (s_committed s))).
Proof. intros Hc. unfold read_book, with_session. by rewrite list_exposures_run. Qed.

Lemma exposure_positive symbol direction source r e :
  exposure_of symbol direction source r = Some e -> (0 <= dval (re_initial_risk_usdt e))%Q.
Proof.
  unfold exposure_of. destruct r as [r|]; [|done]. simpl. destruct (r <=? dzero)%D eqn:E; [done|]. intros [= <-]. simpl.
  apply dleb_false in E. rewrite (dval_zero 0) in E. lra.
Qed.
Lemma book_nonneg mode d : nonneg_risks (omap id (book_of mode d)).
Proof.
  apply Forall_forall. intros e (o & Ho & Eo)%list_elem_of_omap. simpl in Eo. subst o. unfold book_of in Ho.
  apply elem_of_app in Ho as [Ho|Ho]; apply list_elem_of_fmap in Ho as (x & Ex & _); symmetry in Ex;
    by eapply exposure_positive.
Qed.

(** A first reservation: the intent is one more row, already submitting. *)
Lemma reserve_run a b c d e f g h i k s s' :
  find_row (R := IntentRow) c (s_db s) = None ->
  (create_intent c a d e f g h i None INTENT_CREATED b (Some k) ;;;
   transition_intent c INTENT_CREATED EXCHANGE_SUBMITTING "EntrySubmitting"
     [("client_order_identity", VStr "derived_from_intent_id")]%string None) s = (Ok tt, s') ->
  intents (s_db s') = intents (s_db s) ++ [mkIntent c a b d e f g h i None (Some k) EXCHANGE_SUBMITTING 1] /\
  positions (s_db s') = positions (s_db s).
Proof.
  intros Hn E. apply sbind_inv in E as [([] & s1 & E1%create_intent_run & E2)|(x & _ & ?)]; [|done].
  apply transition_intent_run in E2 as (i0 & Ei & _ & [Hi Hp]). subst s1. simpl in *. split; [|done].
  unfold find_row in Ei, Hn. simpl in Ei, Hn. rewrite find_last, Hn in Ei. simpl in Ei. rewrite String.eqb_refl in Ei.
  injection Ei as <-. rewrite Hi. by rewrite (put_last _ c).
Qed.

Lemma reserved_exposure c a b d e f g h i k :
  (k <=? dzero)%D = false ->
  intent_exposure (mkIntent c a b d e f g h i None (Some k) EXCHANGE_SUBMITTING 1) = Some (mkExposure d e k "intent").
Proof. intros Hk. unfold intent_exposure, exposure_of. simpl. by rewrite Hk. Qed.

Lemma portfolio_admitted equity symbol direction risk committed max_open :
  portfolio_refusal (Some equity) symbol direction risk committed true max_open = None ->
  pr_allowed (evaluate_portfolio_risk equity symbol direction risk committed MAX_TOTAL_INITIAL_RISK_FRACTION
    MAX_SAME_DIRECTION_CLUSTER_RISK_FRACTION max_open) = true.
Proof.
  unfold portfolio_refusal, portfolio_risk_blocks. cbv zeta.
  unfold evaluate_portfolio_risk. repeat case_match; simplify_eq/=; done.
Qed.

(** The cap on open positions is enforced in the diagnostic mode too. *)
Lemma slot_admitted equity symbol direction risk committed enforced max_open :
  (0 < dval equity)%Q -> (risk <=? dzero)%D = false ->
  portfolio_refusal (Some equity) symbol direction risk committed enforced max_open = None ->
  open_count committed + 1 <= max_open.
Proof.
  intros He Hr. unfold portfolio_refusal. cbv zeta. unfold evaluate_portfolio_risk. fold (open_count committed).
  assert ((equity <=? dzero)%D = false) as ->.
  { apply not_true_iff_false. intros Hle%dleb_spec. rewrite (dval_zero 0) in Hle. lra. }
  rewrite Hr. destruct (Z.leb_spec max_open (open_count committed)); [|lia].
  unfold portfolio_risk_blocks. cbn. by rewrite orb_true_r.
Qed.

Lemma budget_of mode d symbol direction risk account_equity enforced max_open :
  (risk <=? dzero)%D = false ->
  portfolio_refusal account_equity symbol direction risk (omap id (book_of mode d)) enforced max_open = None ->
  let committed := omap id (book_of mode d) in
  forall equity, account_equity = Some equity ->
    ((0 < dval equity)%Q -> open_count committed + 1 <= max_open) /\
    (enforced = true ->
      (0 < dval equity)%Q /\
      (shrink (length committed + 2) * (exact_sum committed + dval risk) <= dval MAX_TOTAL_INITIAL_RISK_FRACTION * dval equity)%Q /\
      (shrink (length (cluster_of direction committed) + 2) *
         (exact_sum (cluster_of direction committed) + dval (cluster_share symbol risk)) <=
       dval MAX_SAME_DIRECTION_CLUSTER_RISK_FRACTION * dval equity)%Q).
Proof.
  intros Hr Hp committed equity ->. split; [intros He; by eapply slot_admitted|]. intros ->.
  apply portfolio_admitted in Hp. split; [exact (proj1 (proj1 (gate_allowed_iff _ _ _ _ _ _ _ _) Hp))|].
  by destruct (admitted_risk_within_budget _ _ _ _ _ _ _ _ (book_nonneg mode _) Hp) as (_ & _ & Ht & Hcl).
Qed.

End reservation.

(** ** A confirmed exit, projected once *)

Section exit.
Context {H : Host}.

Definition closed_in (position_id : string) (d : Db) : Prop :=
  exists p, find_row (R := PositionRow) position_id d = Some p /\ mp_state p = CLOSED.

Lemma closed_kept position_id d d' : ledger_rel d d' -> closed_in position_id d -> closed_in position_id d'.
Proof.
  intros (_ & Hp & _)%kept_ledger_steps (p & Ep & Es).
  destruct (Hp position_id _ _ (ledger_position _ _ _ Ep)) as (b & v & [p' [Ep' <-]]%found_in_ledger & Hb).
  exists p'. split; [done|]. rewrite <- Es. by apply Hb.
Qed.

Lemma find_put_position p p0 d :
  find_row (R := PositionRow) (mp_position_id p) d = Some p0 -> find_row (R := PositionRow) (mp_position_id p) (put_row p d) = Some p.
Proof.
  unfold find_row. simpl. induction (positions d) as [|x l IH]; [done|]. simpl.
  destruct (String.eqb (mp_position_id x) (mp_position_id p)) eqn:E; simpl; [by rewrite String.eqb_refl|].
  by rewrite E.
Qed.

(** The positions are left alone. *)
Definition same_positions (d d' : Db) : Prop := positions d' = positions d.
#[local] Instance same_positions_preorder : PreOrder same_positions.
Proof. split; [by intros d|]. unfold same_positions. intros d1 d2 d3 E1 E2. congruence. Qed.

(** After the row is assigned, only its event follows. *)
Lemma closed_movement position_id p pa ca (k : SM Session unit) s s' :
  find_row (R := PositionRow) position_id (s_db s) = Some p -> (forall s1, moves_at same_positions s1 k) ->
  (assign (mp_moved p CLOSED pa ca) ;;; k) s = (Ok tt, s') -> closed_in position_id (s_db s').
Proof.
  intros Ep Hk E. apply sbind_inv in E as [([] & s1 & E1 & E)|(x & _ & ?)]; [|done]. injection E1 as <-.
  destruct (Hk _ _ _ E) as [_ [Hs|[[e ?] _]]]; [|done]. exists (mp_moved p CLOSED pa ca). split; [|done].
  pose proof (find_row_key _ _ _ Ep) as Ek. simpl in Ek. subst position_id.
  pose proof (find_put_position (mp_moved p CLOSED pa ca) p _ Ep) as Ef. unfold find_row in *. simpl in *. by rewrite Hs.
Qed.

Ltac positions_kept := intros ?; unfold append_event; repeat move1 ltac:(reflexivity).

Lemma transition_closed position_id a name payload t s s' :
  transition_position position_id a CLOSED name payload t s = (Ok tt, s') -> closed_in position_id (s_db s').
Proof.
  unfold transition_position. intros E.
  apply sbind_inv in E as [(o & s1 & E1 & E)|(x & _ & ?)]; [|done]. injection E1 as <- <-.
  apply sbind_inv in E as [(p & s2 & E2 & E)|(x & _ & ?)]; [|done].
  destruct (find_row position_id (s_db s)) as [p0|] eqn:Ep; [|done]. injection E2 as <- <-.
  apply sbind_inv in E as [([] & s3 & E3 & E)|(x & _ & ?)]; [|done]. apply sassert_inv in E3 as [-> _].
  apply sbind_inv in E as [([] & s4 & E4 & E)|(x & _ & ?)]; [|done]. apply slift_inv in E4 as [_ ->].
  apply sbind_inv in E as [(ca & s5 & E5 & E)|(x & _ & ?)]; [|done].
  apply sbind_inv in E as [(pa & s6 & E6 & E)|(x & _ & ?)]; [|done].
  assert (s_db s6 = s_db s) as Hd.
  { revert E5 E6. cbn. unfold sbind. destruct t; cbn; intros [= <- <-] [= _ <-]; done. }
  rewrite <- Hd in Ep. revert E. apply closed_movement; [done|]. positions_kept.
Qed.

Lemma repair_closed position_id o t payload s s' :
  repair_quarantined_position_from_confirmed_exit position_id o t payload s = (Ok tt, s') -> closed_in position_id (s_db s').
Proof.
  unfold repair_quarantined_position_from_confirmed_exit. intros E.
  apply sbind_inv in E as [(x1 & s1 & E1 & E)|(x & _ & ?)]; [|done]. injection E1 as <- <-.
  apply sbind_inv in E as [(p & s2 & E2 & E)|(x & _ & ?)]; [|done].
  destruct (find_row position_id (s_db s)) as [p0|] eqn:Ep; [|done]. injection E2 as <- <-.
  apply sbind_inv in E as [([] & s3 & E3 & E)|(x & _ & ?)]; [|done]. apply sassert_inv in E3 as [-> _].
  apply sbind_inv in E as [(x2 & s4 & E4 & E)|(x & _ & ?)]; [|done]. injection E4 as _ <-.
  apply sbind_inv in E as [(o1 & s5 & E5 & E)|(x & _ & ?)]; [|done].
  destruct (x2 ≫= _) as [o2|]; [|done]. injection E5 as <- <-.
  apply sbind_inv in E as [(l & s6 & [-> _]%select_ok & E)|(x & _ & ?)]; [|done].
  apply sbind_inv in E as [([] & s7 & E7 & E)|(x & _ & ?)]; [|done]. apply sassert_inv in E7 as [-> _].
  apply sbind_inv in E as [([] & s8 & E8 & E)|(x & _ & ?)]; [|done]. apply sassert_inv in E8 as [-> _].
  apply sbind_inv in E as [([] & s9 & E9 & E)|(x & _ & ?)]; [|done]. apply sassert_inv in E9 as [-> _].
  revert E. apply closed_movement; [done|]. positions_kept.
Qed.

Lemma transition_position_legal position_id a b name payload t s s' :
  transition_position position_id a b name payload t s = (Ok tt, s') -> position_step a b.
Proof.
  unfold transition_position. intros E.
  apply sbind_inv in E as [(o & s1 & E1 & E)|(x & _ & ?)]; [|done]. injection E1 as <- <-.
  apply sbind_inv in E as [(p & s2 & E2 & E)|(x & _ & ?)]; [|done].
  apply sbind_inv in E as [([] & s3 & E3 & E)|(x & _ & ?)]; [|done].
  apply sassert_inv in E3 as [_ [[Ha%bool_decide_eq_true _]|[_ ?]]]; [|done].
  apply sbind_inv in E as [([] & s4 & E4 & E)|(x & _ & ?)]; [|done]. apply slift_inv in E4 as [Hv _].
  unfold position_step. by rewrite Ha in Hv.
Qed.

Lemma reduction_closed p eid oid reason c s s' :
  record_reduction p eid oid reason c s = (Ok CLOSED, s') -> closed_in (mp_position_id p) (s_db s').
Proof.
  unfold record_reduction. intros E. destruct (mp_state p); try (by apply sret_inv in E as [[=] _]);
    apply sbind_inv in E as [([] & s1 & E1 & [[=] ->]%sret_inv)|(x & _ & ?)]; try done.
  - by apply transition_position_legal in E1.
  - by apply repair_closed in E1.
Qed.

Lemma close_position_closed p i eid reason current c s s' :
  (current = CLOSED -> closed_in (mp_position_id p) (s_db s)) ->
  close_position p i eid reason current c s = (Ok tt, s') -> closed_in (mp_position_id p) (s_db s').
Proof.
  unfold close_position. cbv zeta. intros Hc E. apply sbind_inv in E as [([] & s1 & E1 & E)|(x & _ & ?)]; [|done].
  assert (closed_in (mp_position_id p) (s_db s1)) as H1.
  { case_bool_decide as Hcur; [apply sret_inv in E1 as [_ ->]; by apply Hc|]. by apply transition_closed in E1. }
  match type of E with ?m s1 = _ => assert (moves ledger_rel m) as Hm; [|exact (closed_kept _ _ _ (proj2 (moves_ok Hm E)) H1)] end.
  intros s2. apply moves_assoc, moves_bind; [exact _| |].
  - apply (reload_assign_moves ledger_rel). intros ?. repeat split.
  - intros. apply (backfill_outcomes_moves ledger_rel).
Qed.

Lemma position_facts_ok position_id s p i o s' :
  position_facts position_id s = (Ok (p, i, o), s') -> s' = s /\ find_row (R := PositionRow) position_id (s_db s) = Some p.
Proof.
  unfold position_facts, sbind, get, require, sret, sraise.
  destruct (find_row position_id (s_db s)) as [p0|]; [|done].
  destruct (find_row (mp_intent_id p0) (s_db s)); [|done].
  destruct (find_row (mp_order_record_id p0) (s_db s)); [|done]. by intros [= -> _ _ ->].
Qed.

Lemma confirmed_exit_closes position_id reason c prot s s' :
  ce_closed c = true -> persist_confirmed_exit position_id reason c prot s = (Ok tt, s') ->
  closed_in position_id (s_committed s').
Proof.
  unfold persist_confirmed_exit. intros Hc E.
  apply sbind_inv in E as [([[p i] o0] & s1 & [-> Ep]%position_facts_ok & E)|(err & _ & ?)]; [|done].
  rewrite <- (find_row_key _ _ _ Ep). clear Ep. cbv zeta in E.
  apply sbind_inv in E as [(eo & s1 & _ & E)|(err & _ & ?)]; [|done].
  apply sbind_inv in E as [(o & s2 & _ & E)|(err & _ & ?)]; [|done].
  apply sbind_inv in E as [(? & s3 & _ & E)|(err & _ & ?)]; [|done].
  apply sbind_inv in E as [(? & s4 & _ & E)|(err & _ & ?)]; [|done].
  apply sbind_inv in E as [(current & s5 & E5 & E)|(err & _ & ?)]; [|done]. rewrite Hc in E.
  apply sbind_inv in E as [([] & s6 & E6 & E)|(err & _ & ?)]; [|done].
  apply close_position_closed in E6; [|intros ->; by eapply reduction_closed].
  apply sbind_inv in E as [(l & s7 & [-> _]%select_ok & E)|(err & _ & ?)]; [|done].
  apply sbind_inv in E as [([] & s8 & E8 & E)|(err & _ & ?)]; [|done]. apply commit_ok in E as [_ ->].
  exact (closed_kept _ _ _ (proj2 (moves_ok (settle_protections_moves ledger_rel _ _ _) E8)) E6).
Qed.

(** The tables hold an order with the identities and trades of a receipt. *)
Definition stored_trade_ids (order_record_id : string) (d : Db) : gset string :=
  list_to_set (omap (fun f => t ← fl_trade_id f; if str_truthy t then Some t else None)
    (bfilter (fill_of_order order_record_id) (fills d))).
Definition holds_receipt (r : ExitExecutionResult) (d : Db) : Prop :=
  exists o, o ∈ orders d /\ eo_client_order_id o = xr_client_order_id r /\
    eo_exchange_order_id o = xr_exchange_order_id r /\
    stored_trade_ids (eo_order_record_id o) d = list_to_set (xr_trade_ids r).

Lemma projected_closed position_id r s b s' :
  exit_already_projected position_id r s = (Ok b, s') ->
  (b = true -> closed_in position_id (s_db s)) /\ (closed_in position_id (s_db s) -> b = true /\ holds_receipt r (s_db s)).
Proof.
  unfold exit_already_projected. intros E.
  apply sbind_inv in E as [(x1 & s1 & E1 & E)|(err & _ & ?)]; [|done]. injection E1 as <- <-.
  apply sbind_inv in E as [(p & s2 & E2 & E)|(err & _ & ?)]; [|done].
  destruct (find_row position_id (s_db s)) as [p0|] eqn:Ep; [|done]. injection E2 as <- <-.
  destruct (bool_decide_reflect (mp_state p0 = CLOSED)) as [Hcl|Hcl]; simpl in E.
  2:{ apply sret_inv in E as [[= ->] ->]. split; [done|]. intros (p1 & E1 & Hp1). congruence. }
  split; [by exists p0|intros _].
  apply sbind_inv in E as [(eo & s3 & (-> & -> & _)%scalar_ok & E)|(err & _ & ?)]; [|done].
  apply sbind_inv in E as [(same & s4 & E4 & E)|(err & _ & ?)]; [|done].
  apply sbind_inv in E as [([] & s5 & E5 & E)|(err & _ & ?)]; [|done].
  apply sret_inv in E as [[= ->] ->]. apply sassert_inv in E5 as [-> [[-> _]|[_ ?]]]; [|done]. split; [done|].
  destruct (head _) as [o|] eqn:Eo; [|by apply sret_inv in E4 as [[=] _]].
  apply head_Some_elem_of, elem_of_bfilter in Eo as [Ho Hc]. apply String.eqb_eq in Hc.
  apply sbind_inv in E4 as [(l & s6 & (-> & -> & _)%select_ok & E4)|(err & _ & ?)]; [|done].
  apply sret_inv in E4 as [E4 _]. injection E4 as E4. symmetry in E4. apply andb_true_iff in E4 as [E6 E7].
  apply bool_decide_eq_true in E6, E7. by exists o.
Qed.

(** When a confirmed exit that closes is persisted, its position is closed; and
    from then on no exit persisted for that position changes the tables: a
    replay of the stored receipt returns, any other confirmed receipt raises. *)
Theorem closed_exit_is_projected_once cycle_id position_id mode reason r token prot s s1 :
  persist_exit_result cycle_id position_id mode reason r token prot s = (Ok tt, s1) -> xr_status r = EXIT_CLOSED ->
  closed_in position_id (s_committed s1) /\
  forall cycle_id' mode' reason' r' token' prot' x s2,
    persist_exit_result cycle_id' position_id mode' reason' r' token' prot' s1 = (x, s2) ->
    s_committed s2 = s_committed s1 /\
    (xr_status r' ∈ [EXIT_CLOSED; PARTIALLY_REDUCED] -> x = Ok tt -> holds_receipt r' (s_committed s1)).
Proof.
  intros E Hst. assert (closed_in position_id (s_committed s1)) as Hcl.
  { unfold persist_exit_result in E. rewrite Hst in E. cbn [negb] in E.
    destruct (confirmed_exit r) as [c|] eqn:Ec; [|by apply sraise_inv in E as [? _]].
    assert (ce_closed c = true) as Hc.
    { unfold confirmed_exit in Ec. rewrite Hst in Ec. repeat case_match; simplify_eq/=; done. }
    apply sbind_inv in E as [(b & s2 & (s3 & E2 & ->)%with_session_inv & E)|(err & _ & ?)]; [|done].
    destruct b.
    - apply sret_inv in E as [_ ->]. pose proof (exit_projected_quiet _ _ _ _ _ E2) as [Hq _]. cbn [s_committed] in Hq |- *. rewrite Hq.
      by apply projected_closed in E2 as [Hp _]; apply Hp.
    - apply sbind_inv in E as [(? & s4 & _ & E)|(err & _ & ?)]; [|done].
      apply sbind_inv in E as [(? & s5 & _ & E)|(err & _ & ?)]; [|done].
      apply with_session_inv in E as (s6 & E & ->). by apply confirmed_exit_closes in E. }
  split; [done|]. clear E. intros cycle_id' mode' reason' r' token' prot' x s2 E. unfold persist_exit_result in E.
  destruct (negb _) eqn:Hs.
  { apply sret_inv in E as [-> ->]. split; [done|]. intros Hr _. apply negb_true_iff, bool_decide_eq_false in Hs. done. }
  destruct (confirmed_exit r') as [c|]; [|apply sraise_inv in E as [-> ->]; done].
  apply sbind_inv in E as [(b & s3 & (s4 & E3 & ->)%with_session_inv & E)|(err & (s4 & E3 & ->)%with_session_inv & ->)];
    pose proof (exit_projected_quiet _ _ _ _ _ E3) as [Hq _]; cbn in Hq; [|by cbn; rewrite Hq].
  apply projected_closed in E3 as [_ Hp]. destruct (Hp Hcl) as [-> Hr]. apply sret_inv in E as [-> ->]. cbn.
  by rewrite Hq.
Qed.
End exit.

(** ** Protections of ended positions *)

Section stale.
Context {H : Host}.

Definition protected_book (d d' : Db) : Prop := protections d' = protections d /\ positions d' = positions d.
#[local] Instance protected_book_preorder : PreOrder protected_book.
Proof. split; [by intros d|]. intros d1 d2 d3 [E1 E2] [E3 E4]. split; congruence. Qed.

Definition cancelled (p : ProtectionRow) : ProtectionRow := pt_moved p PROTECTION_CANCELLED (pt_activated_at p).

Lemma transition_cancelled id a name payload t s s' :
  transition_protection id a PROTECTION_CANCELLED name payload (Some t) s = (Ok tt, s') ->
  exists p, find_row (R := ProtectionRow) id (s_db s) = Some p /\ s_committed s' = s_committed s /\
    protected_book (put_row (cancelled p) (s_db s)) (s_db s').
Proof.
  unfold transition_protection. intros E.
  apply sbind_inv in E as [(o & s1 & E1 & E)|(x & _ & ?)]; [|done]. injection E1 as <- <-.
  apply sbind_inv in E as [(p & s2 & E2 & E)|(x & _ & ?)]; [|done].
  destruct (find_row id (s_db s)) as [p0|] eqn:Ep; [|done]. injection E2 as <- <-. exists p0. split; [done|].
  apply sbind_inv in E as [([] & s3 & E3 & E)|(x & _ & ?)]; [|done]. apply sassert_inv in E3 as [-> _].
  apply sbind_inv in E as [([] & s4 & E4 & E)|(x & _ & ?)]; [|done]. apply slift_inv in E4 as [_ ->].
  apply sbind_inv in E as [([] & s5 & E5 & E)|(x & _ & ?)]; [|done]. injection E5 as <-.
  apply sbind_inv in E as [(at_ & s6 & E6 & E)|(x & _ & ?)]; [|done]. injection E6 as <- <-.
  apply sbind_inv in E as [([] & s7 & E7 & E)|(x & _ & ?)]; [|done]. injection E7 as <-.
  match type of E with ?m _ = _ => assert (moves protected_book m) as Hm; [|exact (moves_ok Hm E)] end.
  intros s7. unfold append_event. repeat move1 ltac:(by split).
Qed.

Section cancel.
Context (ids : list string) (t : datetime).

(** The rows a run over [l] cancels. *)
Definition stale_in (l : list ProtectionRow) (x : ProtectionRow) : bool :=
  existsb (fun r => String.eqb (pt_protection_id r) (pt_protection_id x) && negb (still_open ids r)) l.
Definition cancel_in (l : list ProtectionRow) (x : ProtectionRow) : ProtectionRow :=
  if stale_in l x then cancelled x else x.

Lemma find_put_other r p d :
  pt_protection_id r <> pt_protection_id p ->
  find_row (R := ProtectionRow) (pt_protection_id r) (put_row p d) = find_row (R := ProtectionRow) (pt_protection_id r) d.
Proof.
  intros Hne. unfold find_row. simpl. induction (protections d) as [|x l IH]; [done|]. simpl.
  destruct (String.eqb_spec (pt_protection_id x) (pt_protection_id p)) as [E|E]; simpl; [|by rewrite IH].
  rewrite E. destruct (String.eqb_spec (pt_protection_id p) (pt_protection_id r)); [congruence|]. done.
Qed.

Lemma cancel_stale_run l : forall n m s s',
  cancel_stale ids t l n s = (Ok m, s') ->
  NoDup (map pt_protection_id l) ->
  (forall r, r ∈ l -> find_row (R := ProtectionRow) (pt_protection_id r) (s_db s) = Some r /\
     is_Some (find_row (R := PositionRow) (pt_position_id r) (s_db s))) ->
  NoDup (map pt_protection_id (protections (s_db s))) ->
  m = n + zcount (fun r => negb (still_open ids r)) l /\ s_committed s' = s_committed s /\
  protections (s_db s') = map (cancel_in l) (protections (s_db s)) /\ positions (s_db s') = positions (s_db s).
Proof.
  induction l as [|r l IH]; intros n m s s' E Hl Hf Hd; cbn [cancel_stale] in E.
  { apply sret_inv in E as [[= ->] ->]. split; [unfold zcount; simpl; lia|]. split; [done|]. split; [|done].
    symmetry. by apply map_id. }
  destruct (Hf r ltac:(left)) as [Er [p Ep]]. cbn [map] in Hl. apply NoDup_cons in Hl as [Hr Hl].
  apply sbind_inv in E as [(o & s1 & E1 & E)|(x & _ & ?)]; [|done]. injection E1 as <- <-. rewrite Ep in E.
  assert (forall x, stale_in (r :: l) x =
    (String.eqb (pt_protection_id r) (pt_protection_id x) && negb (still_open ids r)) || stale_in l x) as Hcons by done.
  rewrite zcount_cons. destruct (still_open ids r) eqn:Eo.
  - apply IH in E as (-> & Ec & E2 & E3); [|done|intros; apply Hf; by right|done].
    split; [simpl; lia|]. split; [done|]. split; [|done]. rewrite E2. apply map_ext. intros x. unfold cancel_in.
    by rewrite Hcons, andb_false_r.
  - apply sbind_inv in E as [([] & s1 & E1 & E)|(x & _ & ?)]; [|done].
    apply transition_cancelled in E1 as (p0 & Ep0 & Ec1 & [Hp1 Hq1]). rewrite Er in Ep0. injection Ep0 as <-.
    apply IH in E as (-> & Ec & E2 & E3); [|done| |].
    + split; [simpl; lia|]. split; [congruence|]. split; [|rewrite E3, Hq1; done].
      rewrite E2, Hp1. simpl. rewrite map_map. apply map_ext_in. intros x Hx. unfold cancel_in. rewrite Hcons, andb_true_r.
      destruct (String.eqb_spec (pt_protection_id x) (pt_protection_id r)) as [Ex|Ex].
      * assert (x = r) as ->.
        { apply list_elem_of_In in Hx. assert (find_row (R := ProtectionRow) (pt_protection_id x) (s_db s) = Some x) as Ef
            by exact (find_row_unique (s_db s) x Hd Hx). congruence. }
        assert (stale_in l (cancelled r) = false) as ->; [|by rewrite String.eqb_refl].
        apply not_true_iff_false. intros (y & Hy & [Ey _]%andb_true_iff)%existsb_exists. apply Hr. apply String.eqb_eq in Ey.
        simpl in Ey. rewrite <- Ey. by apply list_elem_of_fmap_2, list_elem_of_In.
      * destruct (String.eqb_spec (pt_protection_id r) (pt_protection_id x)); [congruence|done].
    + intros y Hy. destruct (Hf y ltac:(by right)) as [Ey [q Eq]].
      assert (pt_protection_id y <> pt_protection_id r) as Hne.
      { intros Ee. apply Hr. rewrite <- Ee. by apply list_elem_of_fmap_2. }
      split.
      * rewrite <- Ey, <- (find_put_other y (cancelled r) (s_db s)) by done. unfold find_row. simpl. by rewrite Hp1.
      * exists q. rewrite <- Eq. unfold find_row. simpl. by rewrite Hq1.
    + rewrite Hp1. simpl. rewrite map_map. erewrite map_ext; [exact Hd|]. intros x. cbn beta.
      destruct (String.eqb_spec (pt_protection_id x) (pt_protection_id r)) as [Ex|Ex]; [by rewrite Ex|done].
Qed.
End cancel.

(** An order id of a protection that the exchange lists as open. *)
Definition listed_open (ids : list string) (order_id : option string) : bool :=
  match order_id with Some x => str_truthy x && existsb (String.eqb x) ids | None => false end.

Lemma still_open_listed ids r :
  still_open ids r = listed_open ids (pt_stop_exchange_order_id r) || listed_open ids (pt_tp_exchange_order_id r).
Proof.
  assert (forall l, existsb (fun x => bool_decide (x ∈ ids)) l = existsb (fun x => existsb (String.eqb x) ids) l) as Hin.
  { induction l as [|x l IH]; [done|]. cbn [existsb]. rewrite IH. f_equal. apply eq_true_iff_eq.
    rewrite bool_decide_eq_true, existsb_exists, list_elem_of_In. split.
    - intros Hx. exists x. by rewrite String.eqb_refl.
    - by intros (y & Hy & ->%String.eqb_eq). }
  unfold still_open, exchange_ids_of, listed_open. rewrite Hin.
  destruct (pt_stop_exchange_order_id r) as [x|], (pt_tp_exchange_order_id r) as [y|]; simpl;
    repeat (destruct (str_truthy _); simpl); by rewrite ?orb_false_r.
Qed.

(** A protection is stale when its position of the mode and symbol has ended, it
    is not itself settled, and none of its orders is open at the exchange. *)
Definition stale (mode : V2ExecutionMode) (symbol : string) (ids : list string) (d : Db) (r : ProtectionRow) : bool :=
  terminal_position_of d mode symbol r && cancellable (pt_state r)
  && negb (listed_open ids (pt_stop_exchange_order_id r) || listed_open ids (pt_tp_exchange_order_id r)).

(** Reconciling the protections of ended positions cancels exactly the stale
    ones, counts them, and leaves every other protection and every position as
    it was. *)
Theorem stale_protections_cancelled_exactly mode symbol ids t s n s' :
  reconcile_closed_position_protections mode symbol ids t s = (Ok n, s') ->
  let d := s_committed s in
  protections (s_committed s') = map (fun r => if stale mode symbol ids d r then cancelled r else r) (protections d) /\
  n = zcount (stale mode symbol ids d) (protections d) /\ positions (s_committed s') = positions d.
Proof.
  unfold reconcile_closed_position_protections. intros (s1 & E & ->)%with_session_inv. cbv zeta.
  apply sbind_inv in E as [(d & s2 & E1 & E)|(x & _ & ?)]; [|done]. injection E1 as <- <-.
  apply sbind_inv in E as [(l & s2 & (-> & -> & Hc)%select_ok & E)|(x & _ & ?)]; [|done]. cbn [s_db] in *.
  set (d := s_committed s) in *. pose proof (unique_keys (R := ProtectionRow) _ Hc) as Hk. clear Hc. rename Hk into Hc.
  set (f := fun r => terminal_position_of d mode symbol r && cancellable (pt_state r)) in *.
  apply sbind_inv in E as [(m & s2 & E1 & E)|(x & _ & ?)]; [|done].
  apply cancel_stale_run in E1 as (Hm & Hcom & Hp & Hq); [| |intros r [Hr Hfr]%elem_of_bfilter; split|done].
  2:{ by apply NoDup_map_bfilter. }
  2:{ exact (find_row_unique (s_db (mkSession d d (s_draws s))) r Hc Hr). }
  2:{ unfold f in Hfr. apply andb_true_iff in Hfr as [(p & Hin & Hpp)%existsb_exists _].
      destruct (find_row (R := PositionRow) (pt_position_id r) _) eqn:Ef; [done|].
      apply (find_none _ _ Ef) in Hin. simpl in Hin. split_bools. by rewrite Hin in *. }
  cbn [s_db s_committed] in *. change (rows (R := ProtectionRow) d) with (protections d) in *.
  assert (map (cancel_in ids (bfilter f (protections d))) (protections d)
          = map (fun r => if stale mode symbol ids d r then cancelled r else r) (protections d)) as Hmap.
  { apply map_ext_in. intros r Hr%list_elem_of_In. unfold cancel_in.
    assert (stale_in ids (bfilter f (protections d)) r = stale mode symbol ids d r) as ->; [|done].
    apply eq_true_iff_eq. unfold stale_in, stale. rewrite <- still_open_listed. fold (f r). rewrite existsb_exists. split.
    - intros (y & [Hy Hfy]%list_elem_of_In%elem_of_bfilter & [Ey Ho]%andb_true_iff). apply String.eqb_eq in Ey.
      assert (y = r) as ->; [|by rewrite Hfy, Ho].
      pose proof (find_row_unique (R := ProtectionRow) d y Hc Hy) as E2.
      pose proof (find_row_unique (R := ProtectionRow) d r Hc Hr) as E3. simpl in E2, E3. congruence.
    - intros [Hfr Ho]%andb_true_iff. exists r. split; [by apply list_elem_of_In, elem_of_bfilter|].
      by rewrite String.eqb_refl, Ho. }
  rewrite Hmap in Hp. clear Hmap.
  assert (zcount (fun r => negb (still_open ids r)) (bfilter f (protections d)) = zcount (stale mode symbol ids d) (protections d)) as Hz.
  { clear. induction (protections d) as [|r l IH]; [done|]. rewrite zcount_cons, <- IH. unfold stale. rewrite <- still_open_listed. fold (f r).
    change (bfilter f (r :: l)) with (if f r then r :: bfilter f l else bfilter f l).
    destruct (f r); [by rewrite zcount_cons|done]. }
  rewrite Hz in Hm. simpl in Hm. destruct (Z.eqb_spec m 0) as [H0|H0].
  - apply sbind_inv in E as [(? & s3 & E1 & E)|(x & _ & ?)]; [|done]. apply sret_inv in E1 as [_ ->].
    apply sret_inv in E as [[= ->] ->]. cbn. rewrite Hcom. split; [|done].
    symmetry. rewrite <- (map_id (protections d)) at 2. apply map_ext_in. intros r Hr%list_elem_of_In. destruct (stale mode symbol ids d r) eqn:Es; [|done].
    assert (r ∈ bfilter (stale mode symbol ids d) (protections d)) as Hin by (by apply elem_of_bfilter).
    rewrite Hm in H0. unfold zcount in H0. destruct (bfilter (stale mode symbol ids d) (protections d)); [by apply elem_of_nil in Hin|done].
  - apply sbind_inv in E as [(? & s3 & E1 & E)|(x & _ & ?)]; [|done]. apply commit_ok in E1 as [_ Hs3].
    apply sret_inv in E as [[= ->] ->]. cbn. rewrite Hs3. done.
Qed.
End stale.
