(* ===== verification/FactCases.v ===== *)
(** * FactCases: the fact programs on concrete trades

    Instances of the guarantees of [FactRules], and runs that show where the
    recorded facts differ from what the source says about them. *)
From S2P Require Import Prelude PyDecimal PyValue State ClientOrderId Receipts PortfolioRisk Adapter Quantities.
From S2P Require Import Entry Exit Protection Database Repository Transactions Ledger RepositoryLaws Canonical Evidence.
From S2P Require Import FactPersistence FactLaws FactRules.
Local Open Scope Z_scope.
Local Open Scope py_scope.

#[local] Existing Instance demo_host.

Lemma run_pair {A B} (run : A * B) a : run.1 = a -> run = (a, run.2).
Proof. destruct run. simpl. by intros ->. Qed.


Notation leave := (persist_exit_result "c2" "p1" BINANCE_TESTNET TAKE_PROFIT demo_exit_result "f2" None).
Notation left_run := (leave demo_entered).

Lemma left_returns : left_run.1 = Ok tt.
Proof. vm_compute. reflexivity. Qed.

Lemma closed_exit_is_projected_once_witness :
  closed_in "p1" (s_committed left_run.2) /\ s_committed (leave left_run.2).2 = s_committed left_run.2.
Proof.
  destruct (closed_exit_is_projected_once "c2" "p1" BINANCE_TESTNET TAKE_PROFIT demo_exit_result "f2" None demo_entered
    left_run.2 (run_pair left_run (Ok tt) left_returns) eq_refl) as [Hc Hr].
  split; [exact Hc|].
  destruct (Hr "c2"%string BINANCE_TESTNET TAKE_PROFIT demo_exit_result "f2"%string None (leave left_run.2).1
    (leave left_run.2).2 (surjective_pairing _)) as [E _]. exact E.
Defined.

(** The position quarantined with its protection still recorded as active. *)
Definition demo_quarantined : Session :=
  (commit (run_calls [mkCall _ _ (op_transition_position "p1" PROTECTED QUARANTINED "Quarantined" [] None)]
             demo_entered)).2.
Notation cleaned := (reconcile_closed_position_protections BINANCE_TESTNET "BTC/USDT" ["s-9"]%string 50 demo_quarantined).

Lemma cleaned_count : cleaned.1 = Ok 1.
Proof. vm_compute. reflexivity. Qed.

Lemma stale_protections_cancelled_exactly_witness :
  map pt_state (protections (s_committed demo_quarantined)) = [PROTECTION_ACTIVE] /\
  1 = zcount (stale BINANCE_TESTNET "BTC/USDT" ["s-9"]%string (s_committed demo_quarantined))
        (protections (s_committed demo_quarantined)).
Proof.
  split; [vm_compute; reflexivity|].
  destruct (stale_protections_cancelled_exactly BINANCE_TESTNET "BTC/USDT" ["s-9"]%string 50 demo_quarantined 1 cleaned.2
    (run_pair cleaned (Ok 1) cleaned_count)) as (_ & E & _).
  exact E.
Defined.

(** ** The open position cap does not see reservations *)

Definition reserve_one (symbol intent_id token : string) : SM Session (option EntryRefusal) :=
  persist_entry_intent_before_submission token None intent_id symbol "long" "k" PRIMARY BINANCE_TESTNET 0 token (dint 5)
    (Some (dint 10000)) true MAX_OPEN_POSITIONS.

(** Three entries in flight are all admitted under a cap of two positions. *)
Theorem open_position_cap_ignores_reservations :
  let s1 := reserve_one "BTC/USDT" "i1" "f1" new_session in
  let s2 := reserve_one "ETH/USDT" "i2" "f2" s1.2 in
  let s3 := reserve_one "SOL/USDT" "i3" "f3" s2.2 in
  (s1.1, s2.1, s3.1) = (Ok None, Ok None, Ok None) /\ MAX_OPEN_POSITIONS = 2 /\
  map it_state (intents (s_committed s3.2)) = [EXCHANGE_SUBMITTING; EXCHANGE_SUBMITTING; EXCHANGE_SUBMITTING].
Proof. vm_compute. repeat split. Qed.

(** ** A trade is stored as an equal share of its order *)

(** Both trades get half of the quantity and the average price of the order. *)
Theorem trades_stored_as_equal_shares :
  map (fun f => (fl_trade_id f, fl_fill_source f, (fl_filled_quantity f =? dint 1)%D, (fl_fill_price f =? dint 100)%D))
    (fills (s_committed demo_entered)) =
  [(Some "t1", BINANCE_USER_TRADE, true, true); (Some "t2", BINANCE_USER_TRADE, true, true)]%string.
Proof. vm_compute. reflexivity. Qed.

(** ** The result of a position reduced in parts *)

Definition reduce_half : ExitExecutionResult :=
  mkExitResult PARTIALLY_REDUCED REDUCING "v2x" (Some "ex-2"%string) ["t3"]%string (dint 1) (Some (dint 110)) dzero
    (Some (dint 1)) (Some 9) [].
Definition close_half : ExitExecutionResult :=
  mkExitResult EXIT_CLOSED CLOSED "v2y" (Some "ex-3"%string) ["t4"]%string (dint 1) (Some (dint 110)) dzero
    (Some dzero) (Some 10) [].
Definition reduced_in_parts : Session :=
  (persist_exit_result "c3" "p1" BINANCE_TESTNET TAKE_PROFIT close_half "f3" None
    (persist_exit_result "c2" "p1" BINANCE_TESTNET TAKE_PROFIT reduce_half "f2" None demo_entered).2).2.

(** Bought 2 at 100 for a fee of 0.4 and sold 1 and 1 at 110: the trade earned
    19.6, the position records 9.6. *)
Theorem partial_reduction_result_lost :
  map (fun p => (mp_state p, match mp_realized_pnl p with Some x => (x =? mkDec 96 (-1))%D | None => false end))
    (positions (s_committed reduced_in_parts)) = [(CLOSED, true)].
Proof. vm_compute. reflexivity. Qed.

(** ** The margin guard of an entry known only from its order status *)

Definition status_fill : EntryExecutionResult :=
  mkEntryResult ENTRY_FILLED FILLED "cid" Funnel.RC_OK (Some "ex-1"%string) [] (dint 2)
    (Some (dint 100)) dzero (Some 5) BINANCE_ORDER_STATUS_RECOVERY (dint 2) None None.
Definition status_entered : Session :=
  (persist_entry_and_protection "c1" None "i1" "BTC/USDT" "long" "k" PRIMARY BINANCE_TESTNET 0 "f1" 3 status_fill "p1"
     None None None None None None false false (demo_reserve new_session).2).2.
Definition guard_fill : ExchangeFillReceipt := mkFill "g-1" "t9" (dint 2) (dint 99) dzero 9.
Definition guard_client_id : string :=
  match exit_client_order_id "margin-guard:i1" 1 with Ok x => x | Raise _ => EmptyString end.

(** The entry is persisted, but its recovery finds no trade ids, projects no
    position and then fails for the missing position. *)
Theorem order_level_entry_guard_not_recovered :
  map it_state (intents (s_committed status_entered)) = [FILLED] /\ length (fills (s_committed status_entered)) = 1%nat /\
  (recover_confirmed_margin_guard_lifecycle "i1" "g-1" guard_client_id [guard_fill] status_entered).1 =
  Raise (ValueError "position not found").
Proof. vm_compute. repeat split. Qed.

(** The same guard closes an entry that was stored with its trade ids. *)
Definition trades_entered : Session :=
  (persist_entry_and_protection "c1" None "i1" "BTC/USDT" "long" "k" PRIMARY BINANCE_TESTNET 0 "f1" 3 demo_fill "p1"
     None None None None None None false false (demo_reserve new_session).2).2.
Example guard_recovered :
  let run := recover_confirmed_margin_guard_lifecycle "i1" "g-1" guard_client_id [guard_fill] trades_entered in
  run.1 = Ok (guard_position_id "i1") /\ map mp_state (positions (s_committed run.2)) = [CLOSED].
Proof. vm_compute. repeat split. Qed.

(** ** Equal outcomes of two shadows *)

(** The outcome hash is unique in the table but names no trade: the second equal
    outcome is refused, and with it the exit that carries it. *)
Theorem equal_outcomes_collide :
  let s := (append_shadow_outcome "sh1" [("outcome_status", VStr "CLOSED")]%string new_session).2 in
  length (outcomes (s_db s)) = 1%nat /\
  (append_shadow_outcome "sh2" [("outcome_status", VStr "CLOSED")]%string s).1 = Raise (IntegrityError "constraint").
Proof. vm_compute. repeat split. Qed.
