(* ===== verification/Indicators.v ===== *)
(** * Indicators: the decimal indicators of the sampling lane

    The bar views and indicator helpers of [application/decision_service.py],
    over 28-digit decimals, with the range of the RSI and of the average true
    range.  Every period the service passes is positive. *)
From S2P Require Import Prelude PyDecimal Receipts Candidates.
From Stdlib Require Import QArith Qabs Lqa.
Local Open Scope Z_scope.

Record BarView := mkBar {
  bar_timestamp : datetime; bar_open : Dec; bar_high : Dec; bar_low : Dec; bar_close : Dec; bar_volume : Dec }.

(** Closed bars, oldest first. *)
Record TimeframeView := mkTimeframe { tf_timeframe : string; tf_bars : list BarView }.

Definition last_closed (t : TimeframeView) : option BarView := last (tf_bars t).

Definition _closes (bars : list BarView) : list Dec := map bar_close bars.

Definition of_nat (n : nat) : Dec := dint (Z.of_nat n).

(** [l[-n:]] for a positive [n]. *)
Definition last_n {A} (n : nat) (l : list A) : list A := drop (length l - n) l.

(** [zip(l[-n - 1 : -1], l[-n:])] where [l] has more than [n] elements. *)
Definition steps {A} (n : nat) (l : list A) : list (A * A) :=
  let w := last_n (S n) l in zip (removelast w) (tail w).

Definition ema_step (multiplier current value : Dec) : Dec := ((value - current) * multiplier + current)%D.

Definition ema (values : list Dec) (period : nat) : option Dec :=
  if (length values <? period)%nat then None
  else
    let multiplier := dquot (dint 2) (of_nat (S period)) in
    let current := dquot (dsum (take period values)) (of_nat period) in
    Some (foldl (ema_step multiplier) current (drop period values)).

Definition gain_loss (acc : Dec * Dec) (p : Dec * Dec) : Dec * Dec :=
  let delta := (p.2 - p.1)%D in
  if (dzero <=? delta)%D then ((acc.1 + delta)%D, acc.2) else (acc.1, (acc.2 + dneg delta)%D).

Definition rsi_of (gains losses : Dec) (period : nat) : Dec :=
  if (losses =? dzero)%D then dint 100
  else
    let rs := dquot (dquot gains (of_nat period)) (dquot losses (of_nat period)) in
    (dint 100 - dquot (dint 100) (dint 1 + rs))%D.

Definition rsi (values : list Dec) (period : nat) : option Dec :=
  if (length values <? S period)%nat then None
  else
    let '(gains, losses) := foldl gain_loss (dzero, dzero) (steps period values) in
    Some (rsi_of gains losses period).

(** The series of MACD lines over every prefix of at least [slow] values. *)
Definition macd_line (fast slow : nat) (window : list Dec) : option Dec :=
  match ema window fast, ema window slow with
  | Some fast_ema, Some slow_ema => Some (fast_ema - slow_ema)%D
  | _, _ => None
  end.

Definition macd_histogram (values : list Dec) (fast slow signal : nat) : option Dec :=
  if (length values <? slow + signal)%nat then None
  else
    macd_series ← mapM (fun end_ => macd_line fast slow (take end_ values)) (seq slow (length values + 1 - slow));
    signal_line ← ema macd_series signal;
    latest ← last macd_series;
    Some (latest - signal_line)%D.

Definition true_range (p : BarView * BarView) : Dec :=
  let '(previous, current) := p in
  dmax (dmax (bar_high current - bar_low current) (dabs (bar_high current - bar_close previous)))
    (dabs (bar_low current - bar_close previous))%D.

Definition atr (bars : list BarView) (period : nat) : option Dec :=
  if (length bars <? S period)%nat then None
  else Some (dquot (dsum (map true_range (steps period bars))) (of_nat period)).

(** ** Ranges *)

Lemma of_nat_val n : (dval (of_nat n) == inject_Z (Z.of_nat n))%Q.
Proof. apply dval_dint. Qed.

Lemma of_nat_pos n : (0 < n)%nat -> (0 < dval (of_nat n))%Q.
Proof. intros H. rewrite of_nat_val. change 0%Q with (inject_Z 0). rewrite <- Zlt_Qlt. lia. Qed.

Lemma dquot_nonneg x y : (0 <= dval x)%Q -> (0 < dval y)%Q -> (0 <= dval (dquot x y))%Q.
Proof.
  intros Hx Hy. eapply rounds_ge_bound; [apply fits_zero| |apply dquot_rounds; lra].
  unfold Qdiv. apply Qmult_le_0_compat; [done|]. apply Qlt_le_weak, Qinv_lt_0_compat. done.
Qed.

Lemma dneg_nonneg x : (dval x <= 0)%Q -> (0 <= dval (dneg x))%Q.
Proof. intros H. eapply rounds_ge_bound; [apply fits_zero| |apply dneg_rounds]. lra. Qed.

Definition pair_nonneg (p : Dec * Dec) : Prop := (0 <= dval p.1)%Q /\ (0 <= dval p.2)%Q.

Lemma gain_loss_nonneg acc p : pair_nonneg acc -> pair_nonneg (gain_loss acc p).
Proof.
  intros [H1 H2]. unfold gain_loss. destruct (dzero <=? p.2 - p.1)%D eqn:E; split; simpl; try done.
  - apply dleb_spec in E. rewrite dval_dzero in E. by apply dadd_nonneg.
  - apply dleb_false in E. rewrite dval_dzero in E. apply dadd_nonneg; [done|]. apply dneg_nonneg. lra.
Qed.

Lemma gains_nonneg l acc : pair_nonneg acc -> pair_nonneg (foldl gain_loss acc l).
Proof. revert acc; induction l; simpl; auto using gain_loss_nonneg. Qed.

Lemma dval_100 : (dval (dint 100) == 100)%Q.
Proof. apply dval_dint. Qed.

Lemma rsi_of_range gains losses period :
  pair_nonneg (gains, losses) -> (0 < period)%nat ->
  (0 <= dval (rsi_of gains losses period) <= 100)%Q.
Proof.
  intros [Hg Hl] Hp. simpl in *. unfold rsi_of. destruct (losses =? dzero)%D eqn:E.
  { rewrite dval_100. split; discriminate. }
  apply deqb_false in E. rewrite dval_dzero in E. pose proof (of_nat_pos _ Hp) as Hn.
  assert (0 < dval (dquot losses (of_nat period)))%Q as Hal by (apply dquot_pos; [lra|done]).
  pose proof (dquot_nonneg _ _ (dquot_nonneg _ _ Hg Hn) Hal) as Hrs. cbv zeta. set (rs := dquot (dquot gains _) _) in *.
  assert (1 <= dval (dint 1 + rs)%D)%Q as H1.
  { eapply Qle_trans; [|apply dadd_ge_l; [apply fits_small; discriminate|done]]. rewrite dval_dint. apply Qle_refl. }
  assert (0 <= dval (dquot (dint 100) (dint 1 + rs)) <= 100)%Q as [Hlo Hhi].
  { split; [apply dquot_nonneg; [rewrite dval_100; discriminate|lra]|].
    eapply rounds_le_bound; [| |apply dquot_rounds; lra].
    - rewrite <- dval_100. apply fits_small. discriminate.
    - rewrite dval_100. apply Qle_shift_div_r; lra. }
  split.
  - eapply rounds_ge_bound; [apply fits_zero| |apply dsub_rounds]. rewrite dval_100. lra.
  - eapply rounds_le_bound; [| |apply dsub_rounds].
    + rewrite <- dval_100. apply fits_small. discriminate.
    + rewrite dval_100. lra.
Qed.

Lemma rsi_range values period r : (0 < period)%nat -> rsi values period = Some r -> (0 <= dval r <= 100)%Q.
Proof.
  intros Hp. unfold rsi. destruct (_ <? _)%nat; [done|].
  pose proof (gains_nonneg (steps period values) (dzero, dzero)) as H.
  destruct (foldl gain_loss _ _) as [g l]. intros [= <-]. apply rsi_of_range; [|done].
  apply H. split; simpl; rewrite dval_dzero; apply Qle_refl.
Qed.

Lemma dsum_from_nonneg l acc : (0 <= dval acc)%Q -> Forall (fun x => 0 <= dval x)%Q l -> (0 <= dval (foldl dadd acc l))%Q.
Proof.
  revert acc. induction l as [|x l IH]; intros acc Ha Hl; [done|]. apply Forall_cons in Hl as [Hx Hl].
  simpl. apply IH; [|done]. by apply dadd_nonneg.
Qed.

Lemma true_range_nonneg p : (0 <= dval (true_range p))%Q.
Proof. destruct p as [a b]. unfold true_range. eapply Qle_trans; [apply dabs_nonneg|apply dmax_ge_r]. Qed.

Lemma atr_nonneg bars period a : (0 < period)%nat -> atr bars period = Some a -> (0 <= dval a)%Q.
Proof.
  intros Hp. unfold atr. destruct (_ <? _)%nat; [done|]. intros [= <-].
  apply dquot_nonneg; [|by apply of_nat_pos]. unfold dsum. apply dsum_from_nonneg; [by rewrite dval_dzero|].
  apply Forall_fmap, Forall_forall. intros p _. apply true_range_nonneg.
Qed.

(** An indicator is known exactly when enough values are. *)
Lemma ema_known values period : is_Some (ema values period) <-> (period <= length values)%nat.
Proof.
  unfold ema. destruct (Nat.ltb_spec (length values) period); split; intros Hk; try lia;
    [by destruct Hk|done].
Qed.

Lemma rsi_known values period : is_Some (rsi values period) <-> (S period <= length values)%nat.
Proof.
  unfold rsi. destruct (Nat.ltb_spec (length values) (S period)); split; intros Hk; try lia;
    [by destruct Hk|]. by destruct (foldl gain_loss _ _).
Qed.

Lemma atr_known bars period : is_Some (atr bars period) <-> (S period <= length bars)%nat.
Proof.
  unfold atr. destruct (Nat.ltb_spec (length bars) (S period)); split; intros Hk; try lia;
    [by destruct Hk|done].
Qed.

Lemma macd_histogram_known values fast slow signal :
  (fast <= slow)%nat -> (0 < slow)%nat -> (0 < signal)%nat ->
  is_Some (macd_histogram values fast slow signal) <-> (slow + signal <= length values)%nat.
Proof.
  intros Hfs Hs Hsig. unfold macd_histogram. destruct (Nat.ltb_spec (length values) (slow + signal)) as [|Hlen].
  { split; [by intros [? ?]|lia]. }
  split; [done|]. intros _.
  assert (exists series, mapM (fun e => macd_line fast slow (take e values)) (seq slow (length values + 1 - slow)) = Some series /\
            length series = (length values + 1 - slow)%nat) as (series & -> & Hl).
  { destruct (mapM _ _) as [series|] eqn:E.
    - exists series. split; [done|]. apply length_mapM in E. by rewrite length_seq in E.
    - exfalso. apply mapM_None in E. apply Exists_exists in E as (e & He & Hn). apply elem_of_seq in He.
      unfold macd_line in Hn.
      destruct (ema_known (take e values) fast) as [_ [f Hf]]; [rewrite length_take; lia|].
      destruct (ema_known (take e values) slow) as [_ [g Hg]]; [rewrite length_take; lia|].
      by rewrite Hf, Hg in Hn. }
  cbn. destruct (ema_known series signal) as [_ [x Hx]]; [lia|]. rewrite Hx. cbn.
  destruct (last series) as [y|] eqn:El; [done|]. apply last_None in El. subst. simpl in Hl. lia.
Qed.
