(* ===== verification/Decision.v ===== *)
(** * Decision: from closed bars to at most one candidate

    [application/decision_service.py]: the entry rules of the sampling lane and
    the evaluation of one closed decision bar, which walks the funnel's stages
    and ends in one terminal outcome.  The metrics attached to stages are text
    and are left out; each stage's clock reading, the fresh ids and the meta
    label predictor are arguments. *)
From S2P Require Import Prelude PyDecimal State Receipts Candidates Funnel Indicators.
Local Open Scope Z_scope.
Local Open Scope py_scope.

Definition DEFAULT_MAX_ENTRY_DRIFT_BPS : Dec := dint 20.
Definition DEFAULT_CANDIDATE_TTL_SECONDS : Z := 75.

Record SignalEvaluation := mkSignal {
  se_side : option CandidateSide; se_confidence : Dec; se_reason_code : option DecisionReasonCode }.

Definition no_side (reason : DecisionReasonCode) : SignalEvaluation := mkSignal None dzero (Some reason).
Definition side_found (side : CandidateSide) : SignalEvaluation := mkSignal (Some side) (mkDec 55 (-2)) None.

Definition between (lo x hi : Dec) : bool := (lo <=? x)%D && (x <=? hi)%D.

Definition long_ok (close ema50 hist rsi14 : Dec) : bool :=
  (ema50 <? close)%D && (dzero <? hist)%D && between (dint 50) rsi14 (dint 72).
Definition short_ok (close ema50 hist rsi14 : Dec) : bool :=
  (close <? ema50)%D && (hist <? dzero)%D && between (dint 28) rsi14 (dint 50).

(** Why neither side triggered. *)
Definition no_signal_reason (close ema50 hist rsi14 : Dec) : DecisionReasonCode :=
  if ((ema50 <? close)%D && (hist <=? dzero)%D) || ((close <? ema50)%D && (dzero <=? hist)%D)
  then RC_MACD_DIRECTION_MISMATCH
  else if (dint 72 <? rsi14)%D || (rsi14 <? dint 28)%D then RC_RSI_OUTSIDE_RANGE
  else RC_NO_ENTRY_SIGNAL.

Definition evaluate_sampling_signal (entry : TimeframeView) : SignalEvaluation :=
  let bars := tf_bars entry in
  match last_closed entry with
  | None => no_side RC_NO_ENTRY_SIGNAL
  | Some last =>
      let closes := _closes bars in
      match ema closes 50, macd_histogram closes 12 26 9, rsi closes 14, atr bars 14 with
      | Some ema50, Some hist, Some rsi14, Some atr14 =>
          let close := bar_close last in
          if (atr14 <=? dzero)%D then no_side RC_ATR_NOT_POSITIVE
          else if long_ok close ema50 hist rsi14 then side_found LONG
          else if short_ok close ema50 hist rsi14 then side_found SHORT
          else no_side (no_signal_reason close ema50 hist rsi14)
      | _, _, _, _ => no_side RC_INSUFFICIENT_HISTORY
      end
  end.

(** max(1.2 * ATR14, reference_price * 0.0035) *)
Definition sampling_stop_distance (atr14 reference_price : Dec) : Dec :=
  dmax (mkDec 12 (-1) * atr14)%D (reference_price * mkDec 35 (-4))%D.

Definition sampling_trend_aligned (side : CandidateSide) (timeframe : TimeframeView) : bool :=
  let closes := _closes (tf_bars timeframe) in
  match ema closes 20, ema closes 50, last_closed timeframe with
  | Some fast, Some slow, Some last =>
      match side with
      | LONG => (slow <? bar_close last)%D && (slow <=? fast)%D
      | SHORT => (bar_close last <? slow)%D && (fast <=? slow)%D
      end
  | _, _, _ => false
  end.

(** ** One evaluation *)

Record DecisionContext := mkContext {
  dx_cycle_id : string; dx_symbol : string; dx_lane : CandidateLane; dx_strategy_id : string;
  dx_strategy_version : string; dx_entry_timeframe : TimeframeView; dx_direction_timeframe : option TimeframeView;
  dx_state_timeframe : option TimeframeView; dx_strict_sampling_alignment : bool; dx_sampling_confirmation_bars : Z;
  dx_now : datetime; dx_data_stale_after_seconds : Z; dx_already_evaluated_bars : list datetime;
  dx_max_entry_drift_bps : Dec; dx_candidate_ttl_seconds : Z; dx_meta_label_min_win_rate : option Dec;
  dx_meta_label_predictor : option (TradeCandidate -> res Dec); dx_manifest_eligible : bool;
  dx_manifest_reason : option DecisionReasonCode; dx_candidate_id : string }.

Record DecisionOutcome := mkOutcome {
  do_cycle_id : string; do_symbol : string; do_lane : CandidateLane; do_terminal_stage : FunnelStage;
  do_reason_code : DecisionReasonCode; do_funnel : DecisionFunnelRecord; do_candidate : option TradeCandidate }.

Definition has_candidate (o : DecisionOutcome) : bool := bool_decide (is_Some (do_candidate o)).

Definition _candidate_type_for_lane (lane : CandidateLane) : V2CandidateType :=
  if bool_decide (lane = TESTNET_SAMPLING) then SAMPLING else PRIMARY.

(** [datetime] is in microseconds. *)
Definition seconds (n : Z) : Z := n * 1000000.

Section evaluation.
(** The builder's clock at the record of each stage. *)
Context (clock : FunnelStage -> datetime).

Definition passed (stage : FunnelStage) : SM DecisionFunnelBuilder unit :=
  record stage OC_PASSED RC_OK (clock stage) ;;; sret tt.
Definition skipped (stage : FunnelStage) (reason : DecisionReasonCode) : SM DecisionFunnelBuilder unit :=
  record stage OC_SKIPPED reason (clock stage) ;;; sret tt.

Definition finish (x : DecisionContext) (stage : FunnelStage) (reason : DecisionReasonCode)
    (candidate : option TradeCandidate) : SM DecisionFunnelBuilder DecisionOutcome :=
  let! funnel := build stage reason in
  sret (mkOutcome (dx_cycle_id x) (dx_symbol x) (dx_lane x) stage reason funnel candidate).

Definition _terminate (x : DecisionContext) (stage : FunnelStage) (reason : DecisionReasonCode)
    (outcome : StageOutcome) : SM DecisionFunnelBuilder DecisionOutcome :=
  record stage outcome reason (clock stage) ;;;
  finish x stage reason None.

(** Every one of the bars before the last [n] gives the same side. *)
Definition confirmed (x : DecisionContext) (side : CandidateSide) (confirmations : Z) : bool :=
  let bars := tf_bars (dx_entry_timeframe x) in
  forallb (fun offset =>
      let confirmation := evaluate_sampling_signal
        (mkTimeframe (tf_timeframe (dx_entry_timeframe x)) (take (length bars - offset) bars)) in
      bool_decide (se_side confirmation = Some side))
    (seq 1 (Z.to_nat confirmations)).

Definition evaluation_of (x : DecisionContext) : SignalEvaluation := evaluate_sampling_signal (dx_entry_timeframe x).

(** The side of the entry, or why there is none. *)
Definition entry_signal (x : DecisionContext) (evaluation : SignalEvaluation) : DecisionReasonCode + CandidateSide :=
  match se_side evaluation with
  | None => inl (default RC_NO_ENTRY_SIGNAL (se_reason_code evaluation))
  | Some side =>
      if dx_strict_sampling_alignment x then
        match dx_direction_timeframe x, dx_state_timeframe x with
        | Some direction, Some state =>
            if negb (sampling_trend_aligned side direction && sampling_trend_aligned side state)
            then inl RC_MULTI_TIMEFRAME_DISAGREEMENT
            else if negb (confirmed x side (Z.max (dx_sampling_confirmation_bars x) 0))
            then inl RC_MULTI_TIMEFRAME_DISAGREEMENT
            else inr side
        | _, _ => inl RC_MULTI_TIMEFRAME_DISAGREEMENT
        end
      else inr side
  end.

(** The candidate of a signal, as passed to its constructor. *)
Definition candidate_of (x : DecisionContext) (last_bar : BarView) (atr14 : Dec) (evaluation : SignalEvaluation)
    (side : CandidateSide) : TradeCandidate :=
  let reference_price := bar_close last_bar in
  let stop_distance := sampling_stop_distance atr14 reference_price in
  mkCandidate (dx_candidate_id x) (dx_cycle_id x) (dx_strategy_id x) (dx_strategy_version x)
    (lane_value (dx_lane x)) (_candidate_type_for_lane (dx_lane x)) (dx_symbol x) (side_value side)
    (bar_timestamp last_bar) reference_price (se_confidence evaluation)
    stop_distance (Some (mkDec 15 (-1) * stop_distance)%D) (dx_max_entry_drift_bps x)
    (dx_now x + seconds (dx_candidate_ttl_seconds x)) (bool_decide (dx_lane x = TESTNET_SAMPLING)).

(** META_LABEL_EVALUATED and MANIFEST_EVALUATED. *)
Definition manifest_stage (x : DecisionContext) (candidate : TradeCandidate) : SM DecisionFunnelBuilder DecisionOutcome :=
  if negb (dx_manifest_eligible x) then
    _terminate x ST_MANIFEST_EVALUATED (default RC_MANIFEST_NOT_ELIGIBLE (dx_manifest_reason x)) OC_REJECTED
  else
  passed ST_MANIFEST_EVALUATED ;;;
  finish x ST_MANIFEST_EVALUATED RC_CANDIDATE_READY (Some candidate).

Definition label_stages (x : DecisionContext) (candidate : TradeCandidate) : SM DecisionFunnelBuilder DecisionOutcome :=
  match dx_meta_label_predictor x, dx_meta_label_min_win_rate x with
  | Some predictor, Some min_win_rate =>
      let! predicted := slift (predictor candidate) in
      if (predicted <? min_win_rate)%D then
        _terminate x ST_META_LABEL_EVALUATED RC_META_LABEL_BET_SKIPPED OC_REJECTED
      else
      passed ST_META_LABEL_EVALUATED ;;;
      manifest_stage x candidate
  | _, _ =>
      skipped ST_META_LABEL_EVALUATED RC_META_LABEL_NOT_CONFIGURED ;;;
      manifest_stage x candidate
  end.

(** REGIME_EVALUATED to CANDIDATE_CREATED. *)
Definition signal_stages (x : DecisionContext) (last_bar : BarView) : SM DecisionFunnelBuilder DecisionOutcome :=
  match atr (tf_bars (dx_entry_timeframe x)) 14 with
  | None => _terminate x ST_REGIME_EVALUATED RC_INSUFFICIENT_HISTORY OC_REJECTED
  | Some atr14 =>
      if (atr14 <=? dzero)%D then _terminate x ST_REGIME_EVALUATED RC_ATR_NOT_POSITIVE OC_REJECTED
      else
      passed ST_REGIME_EVALUATED ;;;
      let evaluation := evaluation_of x in
      match entry_signal x evaluation with
      | inl reason => _terminate x ST_ENTRY_SIGNAL_EVALUATED reason OC_REJECTED
      | inr side =>
          passed ST_ENTRY_SIGNAL_EVALUATED ;;;
          let! candidate := slift (make_TradeCandidate (candidate_of x last_bar atr14 evaluation side)) in
          smodify (set_candidate (tc_candidate_id candidate)) ;;;
          passed ST_CANDIDATE_CREATED ;;;
          label_stages x candidate
      end
  end.

(** TIMEFRAMES_ALIGNED *)
Definition alignment_stages (x : DecisionContext) (last_bar : BarView) : SM DecisionFunnelBuilder DecisionOutcome :=
  if dx_strict_sampling_alignment x
     && (bool_decide (dx_direction_timeframe x = None) || bool_decide (dx_state_timeframe x = None)) then
    _terminate x ST_TIMEFRAMES_ALIGNED RC_NO_MARKET_DATA OC_REJECTED
  else
  match dx_direction_timeframe x with
  | Some direction =>
      match last_closed direction with
      | None => _terminate x ST_TIMEFRAMES_ALIGNED RC_NO_MARKET_DATA OC_REJECTED
      | Some _ => passed ST_TIMEFRAMES_ALIGNED ;;; signal_stages x last_bar
      end
  | None => skipped ST_TIMEFRAMES_ALIGNED RC_SINGLE_TIMEFRAME_LANE ;;; signal_stages x last_bar
  end.

(** The evaluation on its new builder. *)
Definition evaluate_stages (x : DecisionContext) : SM DecisionFunnelBuilder DecisionOutcome :=
  passed ST_CYCLE_STARTED ;;;
  match last_closed (dx_entry_timeframe x) with
  | None => _terminate x ST_DATA_AVAILABLE RC_NO_MARKET_DATA OC_REJECTED
  | Some last_bar =>
      passed ST_DATA_AVAILABLE ;;;
      smodify (set_decision_bar (bar_timestamp last_bar)) ;;;
      if bool_decide (bar_timestamp last_bar ∈ dx_already_evaluated_bars x) then
        _terminate x ST_CANDLE_CLOSED RC_DUPLICATE_DECISION OC_SKIPPED
      else
      passed ST_CANDLE_CLOSED ;;;
      if seconds (dx_data_stale_after_seconds x) <? dx_now x - bar_timestamp last_bar then
        _terminate x ST_DATA_FRESH RC_MARKET_DATA_STALE OC_REJECTED
      else
      passed ST_DATA_FRESH ;;;
      alignment_stages x last_bar
  end.

Definition evaluate_symbol (x : DecisionContext) (funnel_id : string) (created_at : datetime) : res DecisionOutcome :=
  (evaluate_stages x (build_funnel_record (dx_cycle_id x) (dx_symbol x) (lane_value (dx_lane x)) (dx_strategy_id x)
    (dx_strategy_version x) None funnel_id created_at)).1.

End evaluation.
