(* ===== verification/DecisionLaws.v ===== *)
(** * DecisionLaws: every evaluated bar is answered, and a candidate has reasons

    The walk through the funnel's stages is followed by a small logic of
    builders; the two theorems read off which record every evaluation leaves and
    exactly when it ends in a candidate. *)
From S2P Require Import Prelude PyDecimal State Receipts Candidates Funnel Indicators Decision.
Local Open Scope Z_scope.
Local Open Scope py_scope.

(** ** The answer of an evaluation *)

(** The funnel holds every stage up to the terminal one, each once and in order;
    the earlier ones let the evaluation go on, and the last one says how it ended. *)
Definition goes_on (r : FunnelStageRecord) : Prop := sr_outcome r = OC_PASSED \/ sr_outcome r = OC_SKIPPED.

Record answered (o : DecisionOutcome) : Prop := {
  an_stages : exists k l r, all_stages !! k = Some (do_terminal_stage o) /\ fu_stages (do_funnel o) = l ++ [r] /\
    map sr_stage (l ++ [r]) = take (S k) all_stages /\ Forall goes_on l /\
    match do_candidate o with
    | Some c => sr_outcome r = OC_PASSED /\ do_terminal_stage o = ST_MANIFEST_EVALUATED /\
                do_reason_code o = RC_CANDIDATE_READY /\ fu_candidate_id (do_funnel o) = Some (tc_candidate_id c)
    | None => outcome_is_terminal (sr_outcome r) = true /\ sr_reason_code r = do_reason_code o
    end;
  an_stage : fu_terminal_stage (do_funnel o) = do_terminal_stage o;
  an_reason : fu_reason_code (do_funnel o) = do_reason_code o }.

(** ** What an evaluation decides *)

(** The reference: the candidate of a context, or that there is none, or the
    exception of the two places that may raise. *)
Definition labelled (x : DecisionContext) (c : TradeCandidate) : res (option TradeCandidate) :=
  let allowed := if dx_manifest_eligible x then Some c else None in
  match dx_meta_label_predictor x, dx_meta_label_min_win_rate x with
  | Some predictor, Some min_win_rate =>
      predictor c ≫= fun predicted => Ok (if (predicted <? min_win_rate)%D then None else allowed)
  | _, _ => Ok allowed
  end.

Definition timeframes_present (x : DecisionContext) : bool :=
  (negb (dx_strict_sampling_alignment x)
   || (bool_decide (is_Some (dx_direction_timeframe x)) && bool_decide (is_Some (dx_state_timeframe x))))
  && match dx_direction_timeframe x with Some t => bool_decide (is_Some (last_closed t)) | None => true end.

Definition decision (x : DecisionContext) : res (option TradeCandidate) :=
  let evaluation := evaluation_of x in
  match last_closed (dx_entry_timeframe x), atr (tf_bars (dx_entry_timeframe x)) 14, entry_signal x evaluation with
  | Some last_bar, Some atr14, inr side =>
      if bool_decide (bar_timestamp last_bar ∉ dx_already_evaluated_bars x)
         && (dx_now x - bar_timestamp last_bar <=? seconds (dx_data_stale_after_seconds x))
         && timeframes_present x && (dzero <? atr14)%D
      then make_TradeCandidate (candidate_of x last_bar atr14 evaluation side) ≫= labelled x
      else Ok None
  | _, _, _ => Ok None
  end.

(** ** Following the builder *)

Section follow.
Context (clock : FunnelStage -> datetime).

(** [k] stages recorded, none of them terminal for the evaluation. *)
Definition walked (k : nat) (candidate_id : option string) (b : DecisionFunnelBuilder) : Prop :=
  fb_built b = false /\ map sr_stage (fb_stages b) = take k all_stages /\ Forall goes_on (fb_stages b) /\
  fb_candidate_id b = candidate_id.

Definition agrees (a : res DecisionOutcome) (r : res (option TradeCandidate)) : Prop :=
  match a, r with
  | Ok o, Ok c => answered o /\ do_candidate o = c
  | Raise e, Raise e' => e = e'
  | _, _ => False
  end.

Definition follows (k : nat) (id : option string) (m : SM DecisionFunnelBuilder DecisionOutcome)
    (r : res (option TradeCandidate)) : Prop :=
  forall b, walked k id b -> agrees (m b).1 r.

Lemma record_open s o rc t b : fb_built b = false ->
  record s o rc t b = (Ok (mkStageRecord s o rc t), with_stages b (fb_stages b ++ [mkStageRecord s o rc t])).
Proof. intros H. unfold record, sbind, sget, sassert, smodify, sret. by rewrite H. Qed.

Lemma walked_stage k id b s o rc t :
  walked k id b -> all_stages !! k = Some s -> goes_on (mkStageRecord s o rc t) ->
  walked (S k) id (with_stages b (fb_stages b ++ [mkStageRecord s o rc t])).
Proof.
  intros (Hb & Hs & Hg & Hc) Hk Ho. split_and!; [done| | |done]; cbn [fb_stages with_stages].
  - by rewrite map_app, Hs, (take_S_r _ _ _ Hk).
  - apply Forall_app_2; [done|]. by apply Forall_singleton.
Qed.

Lemma follows_passed k id s m r :
  all_stages !! k = Some s -> follows (S k) id m r -> follows k id (passed clock s ;;; m) r.
Proof.
  intros Hk Hm b Hb. unfold passed, sbind, sret. rewrite record_open by apply Hb. apply Hm, walked_stage; [done..|by left].
Qed.

Lemma follows_skipped k id s reason m r :
  all_stages !! k = Some s -> follows (S k) id m r -> follows k id (skipped clock s reason ;;; m) r.
Proof.
  intros Hk Hm b Hb. unfold skipped, sbind, sret. rewrite record_open by apply Hb. apply Hm, walked_stage; [done..|by right].
Qed.

Lemma follows_bar k id t m r : follows k id m r -> follows k id (smodify (set_decision_bar t) ;;; m) r.
Proof. intros Hm b Hb. apply Hm, Hb. Qed.

Lemma follows_candidate k id i m r : follows k (Some i) m r -> follows k id (smodify (set_candidate i) ;;; m) r.
Proof. intros Hm b (? & ? & ? & _). apply Hm. by split_and!. Qed.

Lemma follows_lift {A} k id (a : res A) (m : A -> SM DecisionFunnelBuilder DecisionOutcome) f :
  (forall y, a = Ok y -> follows k id (m y) (f y)) -> follows k id (let! y := slift a in m y) (a ≫= f).
Proof. intros H b Hb. unfold sbind, slift. destruct a as [y|e]; [by apply H|done]. Qed.

Lemma build_open s rc b : fb_built b = false -> fb_stages b <> [] ->
  build s rc b = (Ok (mkFunnelRecord (fb_funnel_id b) (fb_cycle_id b) (fb_symbol b) (fb_lane b) (fb_strategy_id b)
    (fb_strategy_version b) s rc (fb_stages b) (fb_bar_timestamp b) (fb_candidate_id b) (fb_created_at b)), set_built b).
Proof.
  intros H Hn. unfold build, sbind, sget, sassert, smodify, sret. rewrite H. by destruct (fb_stages b).
Qed.

Lemma follows_terminate k id x s reason o :
  all_stages !! k = Some s -> outcome_is_terminal o = true -> follows k id (_terminate clock x s reason o) (Ok None).
Proof.
  intros Hk Ho b (Hb & Hs & Hg & Hc). unfold _terminate, finish, sbind. rewrite record_open by done.
  rewrite build_open; [|done|simpl; by destruct (fb_stages b)]. simpl. split; [|done]. constructor; [|done..].
  exists k, (fb_stages b), (mkStageRecord s o reason (clock s)). split_and!; try done.
  rewrite map_app, Hs. by rewrite (take_S_r _ _ _ Hk).
Qed.

Lemma follows_ready x c :
  follows 9 (Some (tc_candidate_id c))
    (passed clock ST_MANIFEST_EVALUATED ;;; finish x ST_MANIFEST_EVALUATED RC_CANDIDATE_READY (Some c)) (Ok (Some c)).
Proof.
  intros b (Hb & Hs & Hg & Hc). unfold passed, finish, sbind, sret. rewrite record_open by done.
  rewrite build_open; [|done|simpl; by destruct (fb_stages b)]. simpl. split; [|done]. constructor; [|done..].
  exists 9%nat, (fb_stages b), (mkStageRecord ST_MANIFEST_EVALUATED OC_PASSED RC_OK (clock ST_MANIFEST_EVALUATED)).
  split_and!; try done. by rewrite map_app, Hs.
Qed.

Lemma manifest_follows x c :
  follows 9 (Some (tc_candidate_id c)) (manifest_stage clock x c)
    (Ok (if dx_manifest_eligible x then Some c else None)).
Proof.
  unfold manifest_stage. destruct (dx_manifest_eligible x); simpl.
  - apply follows_ready.
  - by apply follows_terminate.
Qed.

Lemma label_follows x c : follows 8 (Some (tc_candidate_id c)) (label_stages clock x c) (labelled x c).
Proof.
  unfold label_stages, labelled.
  destruct (dx_meta_label_predictor x) as [predictor|], (dx_meta_label_min_win_rate x) as [rate|];
    try (apply follows_skipped; [done|]; apply manifest_follows).
  apply follows_lift. intros p _. destruct (p <? rate)%D; [by apply follows_terminate|].
  apply follows_passed; [done|]. apply manifest_follows.
Qed.

(** The decision from the regime on. *)
Definition signalled (x : DecisionContext) (last_bar : BarView) : res (option TradeCandidate) :=
  let evaluation := evaluation_of x in
  match atr (tf_bars (dx_entry_timeframe x)) 14, entry_signal x evaluation with
  | Some atr14, inr side =>
      if (dzero <? atr14)%D then make_TradeCandidate (candidate_of x last_bar atr14 evaluation side) ≫= labelled x else Ok None
  | _, _ => Ok None
  end.

Lemma signal_follows id x last_bar : follows 5 id (signal_stages clock x last_bar) (signalled x last_bar).
Proof.
  unfold signal_stages, signalled. cbv zeta. destruct (atr _ 14) as [a|]; [|by apply follows_terminate].
  destruct (a <=? dzero)%D eqn:E.
  - apply dleb_spec, dltb_false in E. rewrite E. destruct (entry_signal x (evaluation_of x)); by apply follows_terminate.
  - apply dleb_false, dltb_spec in E. rewrite E. apply follows_passed; [done|].
    destruct (entry_signal x (evaluation_of x)) as [reason|side]; [by apply follows_terminate|].
    apply follows_passed; [done|]. apply follows_lift. intros c _.
    apply follows_candidate, follows_passed; [done|]. apply label_follows.
Qed.

Lemma alignment_follows id x last_bar :
  follows 4 id (alignment_stages clock x last_bar) (if timeframes_present x then signalled x last_bar else Ok None).
Proof.
  unfold alignment_stages, timeframes_present.
  destruct (dx_strict_sampling_alignment x), (dx_direction_timeframe x) as [d|], (dx_state_timeframe x) as [s|]; simpl;
    try (by apply follows_terminate); try (destruct (last_closed d); simpl; [|by apply follows_terminate]);
    first [apply follows_passed; [done|apply signal_follows] | apply follows_skipped; [done|apply signal_follows]].
Qed.

Lemma evaluation_follows x : follows 0 None (evaluate_stages clock x) (decision x).
Proof.
  unfold evaluate_stages, decision. cbv zeta. apply follows_passed; [done|].
  destruct (last_closed (dx_entry_timeframe x)) as [bar|]; [|by apply follows_terminate].
  apply follows_passed, follows_bar; [done|].
  pose proof (alignment_follows None x bar) as H. unfold signalled in H. cbv zeta in H.
  destruct (decide (bar_timestamp bar ∈ dx_already_evaluated_bars x)) as [Hd|Hd].
  { rewrite bool_decide_eq_true_2, bool_decide_eq_false_2 by naive_solver.
    destruct (atr _ _), (entry_signal x (evaluation_of x)); by apply follows_terminate. }
  rewrite bool_decide_eq_false_2, bool_decide_eq_true_2 by done. apply follows_passed; [done|].
  destruct (Z.ltb_spec (seconds (dx_data_stale_after_seconds x)) (dx_now x - bar_timestamp bar)) as [Hs|Hs].
  { rewrite (proj2 (Z.leb_gt _ _)) by done. destruct (atr _ _), (entry_signal x (evaluation_of x)); by apply follows_terminate. }
  rewrite (proj2 (Z.leb_le _ _)) by done. apply follows_passed; [done|]. simpl.
  destruct (timeframes_present x); [|destruct (atr _ _), (entry_signal x (evaluation_of x)); exact H]. exact H.
Qed.

End follow.

(** ** The entry rules *)

(** The sampling lane's rule, on exact values of the computed indicators. *)
Definition signals (t : TimeframeView) (side : CandidateSide) : Prop :=
  exists last ema50 hist rsi14 atr14,
    last_closed t = Some last /\ ema (_closes (tf_bars t)) 50 = Some ema50 /\
    macd_histogram (_closes (tf_bars t)) 12 26 9 = Some hist /\ rsi (_closes (tf_bars t)) 14 = Some rsi14 /\
    atr (tf_bars t) 14 = Some atr14 /\ (0 < dval atr14)%Q /\
    match side with
    | LONG => (dval ema50 < dval (bar_close last) /\ 0 < dval hist /\ 50 <= dval rsi14 <= 72)%Q
    | SHORT => (dval (bar_close last) < dval ema50 /\ dval hist < 0 /\ 28 <= dval rsi14 <= 50)%Q
    end.

Lemma between_spec lo x hi : between (dint lo) x (dint hi) = true <-> (inject_Z lo <= dval x <= inject_Z hi)%Q.
Proof. unfold between. rewrite andb_true_iff, !dleb_spec, !dval_dint. done. Qed.

Lemma long_ok_spec close e h r :
  long_ok close e h r = true <-> (dval e < dval close /\ 0 < dval h /\ 50 <= dval r <= 72)%Q.
Proof. unfold long_ok. rewrite !andb_true_iff, !dltb_spec, dval_dzero, between_spec. tauto. Qed.

Lemma short_ok_spec close e h r :
  short_ok close e h r = true <-> (dval close < dval e /\ dval h < 0 /\ 28 <= dval r <= 50)%Q.
Proof. unfold short_ok. rewrite !andb_true_iff, !dltb_spec, dval_dzero, between_spec. tauto. Qed.

(** The two rules exclude each other. *)
Lemma not_both close e h r : long_ok close e h r = true -> short_ok close e h r = true -> False.
Proof.
  rewrite long_ok_spec, short_ok_spec. intros (H & _) (H' & _). exact (Qlt_irrefl _ (Qlt_trans _ _ _ H H')).
Qed.

Lemma signal_iff t side : se_side (evaluate_sampling_signal t) = Some side <-> signals t side.
Proof.
  unfold evaluate_sampling_signal, signals. split.
  - destruct (last_closed t) as [last|]; [|done].
    destruct (ema _ 50) as [e|], (macd_histogram _ _ _ _) as [h|], (rsi _ 14) as [r|], (atr _ 14) as [a|]; try done.
    destruct (a <=? dzero)%D eqn:Ea; [done|]. apply dleb_false in Ea. rewrite dval_dzero in Ea. intros H.
    exists last, e, h, r, a. split_and!; try done.
    destruct (long_ok _ _ _ _) eqn:El; [injection H as <-; by apply long_ok_spec|].
    destruct (short_ok _ _ _ _) eqn:Es; [injection H as <-; by apply short_ok_spec|done].
  - intros (last & e & h & r & a & -> & -> & -> & -> & -> & Ha & Hs).
    assert ((a <=? dzero)%D = false) as -> by (apply dleb_false; by rewrite dval_dzero).
    destruct side.
    + apply long_ok_spec in Hs. by rewrite Hs.
    + apply short_ok_spec in Hs. rewrite Hs.
      destruct (long_ok _ _ _ _) eqn:El; [|done]. destruct (not_both _ _ _ _ El Hs).
Qed.

(** The trend of a higher timeframe agrees with the side. *)
Definition trending (side : CandidateSide) (t : TimeframeView) : Prop :=
  exists last fast slow, last_closed t = Some last /\ ema (_closes (tf_bars t)) 20 = Some fast /\
    ema (_closes (tf_bars t)) 50 = Some slow /\
    match side with
    | LONG => (dval slow < dval (bar_close last) /\ dval slow <= dval fast)%Q
    | SHORT => (dval (bar_close last) < dval slow /\ dval fast <= dval slow)%Q
    end.

Lemma trending_iff side t : sampling_trend_aligned side t = true <-> trending side t.
Proof.
  unfold sampling_trend_aligned, trending. split.
  - destruct (ema _ 20) as [f|], (ema _ 50) as [s|], (last_closed t) as [l|]; try done.
    intros H. exists l, f, s. split_and!; try done. destruct side; rewrite andb_true_iff, dltb_spec, dleb_spec in H; done.
  - intros (l & f & s & -> & -> & -> & H). destruct side; by rewrite andb_true_iff, dltb_spec, dleb_spec.
Qed.

Definition older_bars (t : TimeframeView) (offset : nat) : TimeframeView :=
  mkTimeframe (tf_timeframe t) (take (length (tf_bars t) - offset) (tf_bars t)).

Lemma confirmed_iff x side n :
  confirmed x side n = true <->
  forall offset, 1 <= Z.of_nat offset <= n -> signals (older_bars (dx_entry_timeframe x) offset) side.
Proof.
  unfold confirmed. rewrite forallb_forall. split.
  - intros H i Hi. apply signal_iff. specialize (H i). rewrite bool_decide_eq_true in H. apply H.
    apply in_seq. lia.
  - intros H i Hi. apply in_seq in Hi. apply bool_decide_eq_true, signal_iff, H. lia.
Qed.

(** The entry signal of a context, with its alignment and confirmations. *)
Definition entry_agreed (x : DecisionContext) (side : CandidateSide) : Prop :=
  signals (dx_entry_timeframe x) side /\
  (dx_strict_sampling_alignment x = true ->
    exists direction state, dx_direction_timeframe x = Some direction /\ dx_state_timeframe x = Some state /\
      trending side direction /\ trending side state /\
      forall offset, 1 <= Z.of_nat offset <= dx_sampling_confirmation_bars x ->
        signals (older_bars (dx_entry_timeframe x) offset) side).

Lemma entry_signal_iff x side : entry_signal x (evaluation_of x) = inr side <-> entry_agreed x side.
Proof.
  unfold entry_signal, evaluation_of, entry_agreed. rewrite <- signal_iff. split.
  - destruct (se_side _) as [side'|]; [|done]. destruct (dx_strict_sampling_alignment x).
    + destruct (dx_direction_timeframe x) as [d|], (dx_state_timeframe x) as [s|]; try done.
      destruct (_ && _) eqn:Ea; [|done]. destruct (confirmed _ _ _) eqn:Ec; [|done]. simpl. intros [= <-].
      apply andb_true_iff in Ea as [Hd Hs]. split; [done|]. intros _. exists d, s.
      rewrite <- !trending_iff. split_and!; try done. intros i Hi.
      refine (proj1 (confirmed_iff _ _ _) Ec i _). lia.
    + intros [= <-]. done.
  - intros [-> H]. destruct (dx_strict_sampling_alignment x); [|done].
    destruct (H eq_refl) as (d & s & -> & -> & Hd & Hs & Hc). apply trending_iff in Hd, Hs. rewrite Hd, Hs. simpl.
    assert (confirmed x side (Z.max (dx_sampling_confirmation_bars x) 0) = true) as ->; [|done].
    apply confirmed_iff. intros i Hi. apply Hc. lia.
Qed.

(** ** The two theorems *)

(** [c] is the candidate of [x], and nothing stands in its way. *)
Record ready (x : DecisionContext) (c : TradeCandidate) : Prop := {
  rd_candidate : exists last_bar atr14 side,
    last_closed (dx_entry_timeframe x) = Some last_bar /\
    bar_timestamp last_bar ∉ dx_already_evaluated_bars x /\
    dx_now x - bar_timestamp last_bar <= seconds (dx_data_stale_after_seconds x) /\
    atr (tf_bars (dx_entry_timeframe x)) 14 = Some atr14 /\
    entry_agreed x side /\ c = candidate_of x last_bar atr14 (evaluation_of x) side /\ candidate_wf c;
  rd_direction : forall t, dx_direction_timeframe x = Some t -> tf_bars t <> [];
  rd_label : forall predictor rate, dx_meta_label_predictor x = Some predictor ->
    dx_meta_label_min_win_rate x = Some rate -> exists p, predictor c = Ok p /\ (dval rate <= dval p)%Q;
  rd_manifest : dx_manifest_eligible x = true }.

Lemma labelled_iff x c c' : labelled x c = Ok (Some c') <->
  c' = c /\ dx_manifest_eligible x = true /\
  forall predictor rate, dx_meta_label_predictor x = Some predictor -> dx_meta_label_min_win_rate x = Some rate ->
    exists p, predictor c = Ok p /\ (dval rate <= dval p)%Q.
Proof.
  unfold labelled. destruct (dx_meta_label_predictor x) as [f|], (dx_meta_label_min_win_rate x) as [rate|];
    try (destruct (dx_manifest_eligible x); naive_solver).
  destruct (f c) as [p|e] eqn:Ef; cbn;
    [|split; [done|intros (_ & _ & H); destruct (H _ _ eq_refl eq_refl) as (q & Hq & _); congruence]].
  destruct (p <? rate)%D eqn:Ep.
  - apply dltb_spec in Ep. split; [done|]. intros (_ & _ & H). destruct (H _ _ eq_refl eq_refl) as (q & Hq & Hle).
    rewrite Ef in Hq. injection Hq as <-. destruct (Qlt_not_le _ _ Ep Hle).
  - apply dltb_false in Ep. destruct (dx_manifest_eligible x); naive_solver.
Qed.

Lemma last_closed_some t : is_Some (last_closed t) <-> tf_bars t <> [].
Proof. unfold last_closed. rewrite <- not_eq_None_Some, last_None. done. Qed.

Lemma timeframes_present_iff x :
  timeframes_present x = true <->
  (dx_strict_sampling_alignment x = true -> is_Some (dx_direction_timeframe x) /\ is_Some (dx_state_timeframe x)) /\
  (forall t, dx_direction_timeframe x = Some t -> tf_bars t <> []).
Proof.
  unfold timeframes_present. rewrite andb_true_iff, orb_true_iff, negb_true_iff, andb_true_iff, !bool_decide_eq_true.
  assert (match dx_direction_timeframe x with Some t => bool_decide (is_Some (last_closed t)) | None => true end = true
          <-> forall t, dx_direction_timeframe x = Some t -> tf_bars t <> []) as ->.
  { destruct (dx_direction_timeframe x) as [t|]; [rewrite bool_decide_eq_true, last_closed_some|]; naive_solver. }
  destruct (dx_strict_sampling_alignment x); naive_solver.
Qed.

Lemma entry_agreed_atr x side atr14 :
  entry_agreed x side -> atr (tf_bars (dx_entry_timeframe x)) 14 = Some atr14 -> (0 < dval atr14)%Q.
Proof. intros [(l & e & h & r & a & _ & _ & _ & _ & Ha & Hpos & _) _] E. rewrite E in Ha. by injection Ha as ->. Qed.

Lemma decision_ready x c : decision x = Ok (Some c) <-> ready x c.
Proof.
  unfold decision. cbv zeta. split.
  - destruct (last_closed _) as [bar|] eqn:El, (atr (tf_bars (dx_entry_timeframe x)) 14) as [a|] eqn:Ea, (entry_signal x (evaluation_of x)) as [|side] eqn:Es; try done.
    destruct (_ && _) eqn:Eb; [|done]. split_bools. intros Hc.
    destruct (make_TradeCandidate _) as [c'|] eqn:Ec; [|done]. cbn in Hc.
    destruct (proj2 (proj2 (make_TradeCandidate_spec _)) _ Ec) as [-> Hwf].
    apply labelled_iff in Hc as (-> & Hm & Hl). apply entry_signal_iff in Es.
    match goal with Hp : timeframes_present x = true |- _ => apply timeframes_present_iff in Hp as [_ Hp] end.
    constructor; try done. exists bar, a, side. rewrite bool_decide_eq_true in *. split_and!; try done. by apply Z.leb_le.
  - intros [(bar & a & side & -> & Hd & Hf & Ha & Hs & -> & Hwf) Ht Hl Hm]. rewrite Ha.
    pose proof (entry_agreed_atr _ _ _ Hs Ha) as Hpos. pose proof Hs as Hs'. apply entry_signal_iff in Hs'. rewrite Hs'.
    assert (timeframes_present x = true) as ->.
    { apply timeframes_present_iff. split; [|done]. intros Hst.
      destruct (proj2 Hs Hst) as (d & s & -> & -> & _). eauto. }
    rewrite bool_decide_eq_true_2, (proj2 (Z.leb_le _ _)) by done.
    assert ((dzero <? a)%D = true) as -> by (apply dltb_spec; by rewrite dval_dzero).
    cbn [andb]. rewrite (proj1 (make_TradeCandidate_spec _) Hwf). by apply labelled_iff.
Qed.

Lemma evaluation_agrees clock x id t : agrees (evaluate_symbol clock x id t) (decision x).
Proof. apply (evaluation_follows clock x). by split_and!. Qed.

Lemma evaluated_ready clock x id t o c : evaluate_symbol clock x id t = Ok o -> do_candidate o = Some c -> ready x c.
Proof.
  intros E Ho. apply decision_ready. pose proof (evaluation_agrees clock x id t) as H. rewrite E in H. unfold agrees in H.
  destruct (decision x) as [d|]; [|done]. destruct H as [_ <-]. by rewrite Ho.
Qed.
Lemma ready_symbol x c : ready x c -> tc_symbol c = dx_symbol x.
Proof. by intros [(bar & a & side & _ & _ & _ & _ & _ & -> & _) _ _ _]. Qed.

(** C19. Every evaluation of a decision bar is answered: its funnel holds each stage
    up to the terminal one exactly once and in order, only the last of them
    ends the evaluation, and its reason is the reason of the outcome.  The only
    exceptions that escape are those of the candidate's constructor and of the
    meta label predictor. *)
Theorem every_bar_is_answered clock x id t :
  match evaluate_symbol clock x id t with
  | Ok o => answered o
  | Raise e =>
      exists last_bar atr14 side, entry_agreed x side /\ last_closed (dx_entry_timeframe x) = Some last_bar /\
        let c := candidate_of x last_bar atr14 (evaluation_of x) side in
        (~ candidate_wf c /\ exists why, e = ValueError why) \/
        (exists predictor, dx_meta_label_predictor x = Some predictor /\ predictor c = Raise e)
  end.
Proof.
  pose proof (evaluation_agrees clock x id t) as H. destruct (evaluate_symbol clock x id t) as [o|e]; unfold agrees in H.
  { destruct (decision x); by destruct H. }
  destruct (decision x) as [|e'] eqn:E; [done|]. subst e'. unfold decision in E. cbv zeta in E.
  destruct (last_closed _) as [bar|], (atr (tf_bars (dx_entry_timeframe x)) 14) as [a|], (entry_signal x (evaluation_of x)) as [|side] eqn:Es; try done.
  destruct (_ && _); [|done]. apply entry_signal_iff in Es. exists bar, a, side. split_and!; [done..|].
  destruct (make_TradeCandidate _) as [c|e'] eqn:Ec; cbn in E.
  - destruct (proj2 (proj2 (make_TradeCandidate_spec _)) _ Ec) as [-> _]. right. unfold labelled in E.
    destruct (dx_meta_label_predictor x) as [f|], (dx_meta_label_min_win_rate x); try done.
    exists f. split; [done|]. destruct (f _); [done|]. by injection E as ->.
  - left. injection E as ->. split; [|by eapply make_TradeCandidate_raises].
    intros Hwf. by rewrite (proj1 (make_TradeCandidate_spec _) Hwf) in Ec.
Qed.

(** C20. An evaluation ends in a candidate exactly when the last closed bar is new
    and fresh, the entry rule holds on it with every alignment and confirmation
    the lane asks for, the candidate is well formed, its predicted win rate
    suffices and the manifest is eligible; and then it is that candidate. *)
Theorem candidate_created_iff clock x id t c :
  (exists o, evaluate_symbol clock x id t = Ok o /\ do_candidate o = Some c) <-> ready x c.
Proof.
  rewrite <- decision_ready. pose proof (evaluation_agrees clock x id t) as H. unfold agrees in H.
  destruct (evaluate_symbol clock x id t) as [o|e], (decision x) as [d|e']; try done; [|naive_solver].
  destruct H as [_ Hd]. split; [intros (o' & [= <-] & Ho); congruence|intros [= ->]; eauto].
Qed.

(** ** Where the evaluation is not what it says *)

(** A clock behind the bar by the candidate's time to live passes the freshness
    check with a negative age: the candidate would expire before its bar closed,
    and the constructor's exception escapes instead of an answer. *)
Theorem candidate_construction_escapes clock x id t last_bar atr14 side :
  last_closed (dx_entry_timeframe x) = Some last_bar -> bar_timestamp last_bar ∉ dx_already_evaluated_bars x ->
  atr (tf_bars (dx_entry_timeframe x)) 14 = Some atr14 -> entry_agreed x side -> timeframes_present x = true ->
  0 <= dx_data_stale_after_seconds x -> 0 <= dx_candidate_ttl_seconds x ->
  dx_now x + seconds (dx_candidate_ttl_seconds x) <= bar_timestamp last_bar ->
  exists why, evaluate_symbol clock x id t = Raise (ValueError why).
Proof.
  intros El Hd Ha Hs Ht Hst Hl Hn. pose proof (entry_agreed_atr _ _ _ Hs Ha) as Hpos. apply entry_signal_iff in Hs.
  assert (exists why, decision x = Raise (ValueError why)) as [why E].
  { unfold decision. cbv zeta. rewrite El, Ha, Hs, bool_decide_eq_true_2, Ht by done.
    assert (dx_now x - bar_timestamp last_bar <=? seconds (dx_data_stale_after_seconds x) = true) as ->
      by (apply Z.leb_le; unfold seconds in *; lia).
    assert ((dzero <? atr14)%D = true) as -> by (by apply dltb_spec). simpl.
    destruct (make_TradeCandidate _) as [c|e] eqn:Ec; simpl.
    - apply make_TradeCandidate_spec in Ec as [-> [_ _ _ _ _ _ He _]]. simpl in He. exfalso. lia.
    - apply make_TradeCandidate_raises in Ec as [why ->]. by exists why. }
  pose proof (evaluation_agrees clock x id t) as H. rewrite E in H. exists why.
  destruct (evaluate_symbol clock x id t); simpl in H; [done|by subst].
Qed.

(** A context of the shadow lane has no candidate: its type would be PRIMARY,
    which the constructor refuses in that lane. *)
Theorem shadow_lane_has_no_candidate x c : dx_lane x = SHADOW_LANE -> ~ ready x c.
Proof.
  intros Hl [(bar & a & side & _ & _ & _ & _ & _ & -> & Hwf) _ _ _]. pose proof (wf_lane _ Hwf) as H.
  unfold tc_lane, candidate_of, _candidate_type_for_lane in H. simpl in H. rewrite Hl in H. by destruct H.
Qed.
