(* ===== verification/Cycle.v ===== *)
(** * Cycle: the data of one trading cycle, its sizing and its local reads

    The first part of [application/cycle_service.py], with the canary contract
    of [shared/models/risk.py]: the request and the result of a cycle, the
    policies that depend on them, the notional an entry may have, and the reads
    of the database around a cycle.  Error messages are tags; the funnel payload
    keeps its stages and the fields that say what the cycle was authorized to
    do, not its diagnostics. *)
From S2P Require Import Prelude PyDecimal PyValue State Receipts Candidates PortfolioRisk RuntimeLock Adapter Reconciliation.
From S2P Require Import Funnel Indicators Decision Entry Exit Database Repository LocalState Recovery RecoveryExecutor Canonical.
Local Open Scope Z_scope.
Local Open Scope py_scope.

(** ** The canary contract *)

Definition TESTNET_CANARY_SYMBOLS : list string := ["BTC/USDT"; "ETH/USDT"; "SOL/USDT"; "XRP/USDT"; "BNB/USDT"]%string.
Definition CANARY_STRATEGY_ID : string := "testnet_sampling_v2".
Definition CANARY_RISK_PER_TRADE : Dec := mkDec 1 (-2).
Definition CANARY_MAX_LEVERAGE : Z := 30.
Definition CANARY_MAX_MARGIN_FRACTION : Dec := mkDec 5 (-3).
Definition CANARY_MAX_SYMBOL_EXPOSURE : Dec := mkDec 1 (-2).
Definition CANARY_MAX_OPEN_POSITIONS : Z := 2.
Definition CANARY_MAX_TOTAL_EXPOSURE : Dec := mkDec 2 (-2).
Definition CANARY_MAX_NOTIONAL_USDT : Dec := mkDec 500 (-1).

Inductive EntryAuthority := AUTH_PRODUCTION | AUTH_TESTNET_FORWARD | AUTH_TESTNET_CANARY | AUTH_NONE.
#[export] Instance EntryAuthority_eq_dec : EqDecision EntryAuthority.
Proof. solve_decision. Defined.

Definition authority_value (a : EntryAuthority) : string :=
  match a with
  | AUTH_PRODUCTION => "PRODUCTION" | AUTH_TESTNET_FORWARD => "TESTNET_FORWARD"
  | AUTH_TESTNET_CANARY => "TESTNET_CANARY" | AUTH_NONE => "NONE"
  end.

(** ** Requests and results *)

(** How much an entry may cost. *)
Record SizingLimits := mkSizing {
  sz_risk_per_trade : Dec; sz_max_leverage : Z; sz_max_margin_fraction : Dec; sz_order_notional_usdt : option Dec;
  sz_max_position_fraction : Dec; sz_max_open_positions : option Z; sz_max_total_exposure : Dec }.

Record CycleRequest := mkCycleRequest {
  cq_cycle_id : string; cq_symbol : string; cq_entry_timeframe : TimeframeView; cq_execution_mode : V2ExecutionMode;
  cq_engine_activation : EngineActivation; cq_fencing_token : string; cq_now : datetime;
  cq_direction_timeframe : option TimeframeView; cq_state_timeframe : option TimeframeView; cq_sizing : SizingLimits;
  cq_open_position_symbols : gset string; cq_already_evaluated_bars : list datetime; cq_entry_data_ready : bool;
  cq_entry_data_reason : option string; cq_entry_kill_switch_active : bool; cq_daily_trade_limit_reached : bool;
  cq_symbol_cooldown_active : bool; cq_authoritative_snapshot : option AuthoritativeAccountSnapshot;
  cq_forced_exit_reason : option ExitReason; cq_persist_facts : bool; cq_decision_id : option string;
  cq_sampling_fallback_enabled : bool; cq_sampling_strategy_version : string; cq_strict_sampling_alignment : bool;
  cq_sampling_confirmation_bars : Z; cq_entry_authority : EntryAuthority; cq_entry_authority_reason : string;
  cq_production_candidate : option TradeCandidate; cq_production_authorized : bool;
  cq_production_decision_reason : string; cq_production_strategy : option string; cq_r2_cost_gate_enabled : bool;
  cq_funding_bps : option Dec; cq_funding_status : string }.

Definition reconcile_existing_positions (q : CycleRequest) : bool :=
  cq_persist_facts q || bool_decide (cq_engine_activation q = SHADOW).

(** [replace(request, ...)] with other limits. *)
Definition with_sizing (q : CycleRequest) (sizing : SizingLimits) : CycleRequest :=
  mkCycleRequest (cq_cycle_id q) (cq_symbol q) (cq_entry_timeframe q) (cq_execution_mode q) (cq_engine_activation q)
    (cq_fencing_token q) (cq_now q) (cq_direction_timeframe q) (cq_state_timeframe q) sizing
    (cq_open_position_symbols q) (cq_already_evaluated_bars q) (cq_entry_data_ready q) (cq_entry_data_reason q)
    (cq_entry_kill_switch_active q) (cq_daily_trade_limit_reached q) (cq_symbol_cooldown_active q)
    (cq_authoritative_snapshot q) (cq_forced_exit_reason q) (cq_persist_facts q) (cq_decision_id q)
    (cq_sampling_fallback_enabled q) (cq_sampling_strategy_version q) (cq_strict_sampling_alignment q)
    (cq_sampling_confirmation_bars q) (cq_entry_authority q) (cq_entry_authority_reason q)
    (cq_production_candidate q) (cq_production_authorized q) (cq_production_decision_reason q)
    (cq_production_strategy q) (cq_r2_cost_gate_enabled q) (cq_funding_bps q) (cq_funding_status q).

Definition CANARY_SIZING : SizingLimits :=
  mkSizing CANARY_RISK_PER_TRADE CANARY_MAX_LEVERAGE CANARY_MAX_MARGIN_FRACTION (Some CANARY_MAX_NOTIONAL_USDT)
    CANARY_MAX_SYMBOL_EXPOSURE (Some CANARY_MAX_OPEN_POSITIONS) CANARY_MAX_TOTAL_EXPOSURE.

(** The canary contract replaces the limits of a canary request. *)
Definition canary_request (q : CycleRequest) : CycleRequest :=
  if bool_decide (cq_execution_mode q = BINANCE_TESTNET) && bool_decide (cq_entry_authority q = AUTH_TESTNET_CANARY)
     && bool_decide (cq_symbol q ∈ TESTNET_CANARY_SYMBOLS)
  then with_sizing q CANARY_SIZING else q.

Record StageEntry := mkStageEntry { st_stage : string; st_outcome : string; st_reason_code : string }.

Record FunnelPayload := mkPayload {
  fy_lane : string; fy_strategy_id : option string; fy_terminal_stage : string; fy_terminal_outcome : option string;
  fy_reason_code : string; fy_execution_policy : string; fy_entry_authority : string; fy_entry_authorized : bool;
  fy_trading_state : string; fy_execution_blocker : option string; fy_promotion_eligible : bool;
  fy_stages : list StageEntry; fy_candidate_key : option string; fy_strategy_terminal_reason : option string;
  fy_system_failure_reason : option string; fy_entry_bar_retryable : bool }.

Record CycleResult := mkCycleResult {
  cr_entry_submitted : bool; cr_position_projected : bool; cr_protection_active : bool; cr_exit_submitted : bool;
  cr_reconciliation_status : ReconciliationStatus; cr_funnel_payload : option FunnelPayload;
  cr_decision_outcome : option DecisionOutcome; cr_errors : list string; cr_entry_blocked_by_runtime_control : bool;
  cr_terminal_exit_projection_incomplete : bool }.

Definition new_result : CycleResult := mkCycleResult false false false false UNAVAILABLE None None [] false false.

Definition entry_submitted_is (b : bool) (r : CycleResult) : CycleResult :=
  mkCycleResult b (cr_position_projected r) (cr_protection_active r) (cr_exit_submitted r) (cr_reconciliation_status r)
    (cr_funnel_payload r) (cr_decision_outcome r) (cr_errors r) (cr_entry_blocked_by_runtime_control r)
    (cr_terminal_exit_projection_incomplete r).
Definition position_projected_is (b : bool) (r : CycleResult) : CycleResult :=
  mkCycleResult (cr_entry_submitted r) b (cr_protection_active r) (cr_exit_submitted r) (cr_reconciliation_status r)
    (cr_funnel_payload r) (cr_decision_outcome r) (cr_errors r) (cr_entry_blocked_by_runtime_control r)
    (cr_terminal_exit_projection_incomplete r).
Definition protection_active_is (b : bool) (r : CycleResult) : CycleResult :=
  mkCycleResult (cr_entry_submitted r) (cr_position_projected r) b (cr_exit_submitted r) (cr_reconciliation_status r)
    (cr_funnel_payload r) (cr_decision_outcome r) (cr_errors r) (cr_entry_blocked_by_runtime_control r)
    (cr_terminal_exit_projection_incomplete r).
Definition exit_submitted_is (b : bool) (r : CycleResult) : CycleResult :=
  mkCycleResult (cr_entry_submitted r) (cr_position_projected r) (cr_protection_active r) b (cr_reconciliation_status r)
    (cr_funnel_payload r) (cr_decision_outcome r) (cr_errors r) (cr_entry_blocked_by_runtime_control r)
    (cr_terminal_exit_projection_incomplete r).
Definition reconciliation_is (s : ReconciliationStatus) (r : CycleResult) : CycleResult :=
  mkCycleResult (cr_entry_submitted r) (cr_position_projected r) (cr_protection_active r) (cr_exit_submitted r) s
    (cr_funnel_payload r) (cr_decision_outcome r) (cr_errors r) (cr_entry_blocked_by_runtime_control r)
    (cr_terminal_exit_projection_incomplete r).
Definition payload_is (p : FunnelPayload) (r : CycleResult) : CycleResult :=
  mkCycleResult (cr_entry_submitted r) (cr_position_projected r) (cr_protection_active r) (cr_exit_submitted r)
    (cr_reconciliation_status r) (Some p) (cr_decision_outcome r) (cr_errors r)
    (cr_entry_blocked_by_runtime_control r) (cr_terminal_exit_projection_incomplete r).
Definition decision_is (o : DecisionOutcome) (r : CycleResult) : CycleResult :=
  mkCycleResult (cr_entry_submitted r) (cr_position_projected r) (cr_protection_active r) (cr_exit_submitted r)
    (cr_reconciliation_status r) (cr_funnel_payload r) (Some o) (cr_errors r)
    (cr_entry_blocked_by_runtime_control r) (cr_terminal_exit_projection_incomplete r).
Definition record_error (tag : string) (r : CycleResult) : CycleResult :=
  mkCycleResult (cr_entry_submitted r) (cr_position_projected r) (cr_protection_active r) (cr_exit_submitted r)
    (cr_reconciliation_status r) (cr_funnel_payload r) (cr_decision_outcome r) (cr_errors r ++ [tag])
    (cr_entry_blocked_by_runtime_control r) (cr_terminal_exit_projection_incomplete r).
Definition blocked_by_runtime_control (r : CycleResult) : CycleResult :=
  mkCycleResult (cr_entry_submitted r) (cr_position_projected r) (cr_protection_active r) (cr_exit_submitted r)
    (cr_reconciliation_status r) (cr_funnel_payload r) (cr_decision_outcome r) (cr_errors r) true
    (cr_terminal_exit_projection_incomplete r).
Definition projection_incomplete (r : CycleResult) : CycleResult :=
  mkCycleResult (cr_entry_submitted r) (cr_position_projected r) (cr_protection_active r) (cr_exit_submitted r)
    (cr_reconciliation_status r) (cr_funnel_payload r) (cr_decision_outcome r) (cr_errors r)
    (cr_entry_blocked_by_runtime_control r) true.

(** ** Funnel payloads *)

(** The values of the reason codes and stages. *)
Definition reason_value (r : DecisionReasonCode) : string :=
  match r with
  | RC_OK => "OK" | RC_CANDIDATE_READY => "CANDIDATE_READY" | RC_ENTRY_INTENT_CREATED => "ENTRY_INTENT_CREATED"
  | RC_NO_MARKET_DATA => "NO_MARKET_DATA" | RC_NO_CLOSED_CANDLE => "NO_CLOSED_CANDLE"
  | RC_DUPLICATE_DECISION => "DUPLICATE_DECISION" | RC_MARKET_DATA_STALE => "MARKET_DATA_STALE"
  | RC_INSUFFICIENT_HISTORY => "INSUFFICIENT_HISTORY" | RC_SINGLE_TIMEFRAME_LANE => "SINGLE_TIMEFRAME_LANE"
  | RC_FOUR_HOUR_DIRECTION_CONFLICT => "FOUR_HOUR_DIRECTION_CONFLICT"
  | RC_MULTI_TIMEFRAME_DISAGREEMENT => "MULTI_TIMEFRAME_DISAGREEMENT"
  | RC_ONE_HOUR_REGIME_RANGE => "ONE_HOUR_REGIME_RANGE" | RC_REGIME_NOT_ELIGIBLE => "REGIME_NOT_ELIGIBLE"
  | RC_NO_ENTRY_SIGNAL => "NO_ENTRY_SIGNAL" | RC_RSI_OUTSIDE_RANGE => "RSI_OUTSIDE_RANGE"
  | RC_MACD_DIRECTION_MISMATCH => "MACD_DIRECTION_MISMATCH"
  | RC_EMA_DIRECTION_MISMATCH => "EMA_DIRECTION_MISMATCH" | RC_ATR_NOT_POSITIVE => "ATR_NOT_POSITIVE"
  | RC_SIGNAL_CONFIDENCE_BELOW_THRESHOLD => "SIGNAL_CONFIDENCE_BELOW_THRESHOLD"
  | RC_CANDIDATE_EXPIRED => "CANDIDATE_EXPIRED"
  | RC_CANDIDATE_CONSTRUCTION_FAILED => "CANDIDATE_CONSTRUCTION_FAILED"
  | RC_SYMBOL_NOT_IN_EXECUTION_UNIVERSE => "SYMBOL_NOT_IN_EXECUTION_UNIVERSE"
  | RC_META_LABEL_BET_SKIPPED => "META_LABEL_BET_SKIPPED"
  | RC_META_LABEL_NOT_CONFIGURED => "META_LABEL_NOT_CONFIGURED"
  | RC_MANIFEST_NOT_ELIGIBLE => "MANIFEST_NOT_ELIGIBLE" | RC_MANIFEST_UNAVAILABLE => "MANIFEST_UNAVAILABLE"
  | RC_NO_AUTHORIZED_PRODUCTION_STRATEGY => "NO_AUTHORIZED_PRODUCTION_STRATEGY"
  | RC_NET_EDGE_AFTER_COST_NEGATIVE => "NET_EDGE_AFTER_COST_NEGATIVE"
  | RC_NO_TRADE_COST_INEFFICIENT => "NO_TRADE_COST_INEFFICIENT"
  | RC_RECONCILIATION_UNAVAILABLE => "RECONCILIATION_UNAVAILABLE"
  | RC_RECONCILIATION_DEGRADED => "RECONCILIATION_DEGRADED" | RC_RECOVERY_REQUIRED => "RECOVERY_REQUIRED"
  | RC_UNMANAGED_EXTERNAL_POSITION => "UNMANAGED_EXTERNAL_POSITION"
  | RC_MANUAL_POSITION_DIRECTION_CONFLICT => "MANUAL_POSITION_DIRECTION_CONFLICT"
  | RC_RISK_LIMIT_EXCEEDED => "RISK_LIMIT_EXCEEDED" | RC_ENTRY_KILL_SWITCH_ACTIVE => "ENTRY_KILL_SWITCH_ACTIVE"
  | RC_POSITION_ALREADY_OPEN => "POSITION_ALREADY_OPEN"
  | RC_DAILY_TRADE_LIMIT_REACHED => "DAILY_TRADE_LIMIT_REACHED"
  | RC_SYMBOL_COOLDOWN_ACTIVE => "SYMBOL_COOLDOWN_ACTIVE"
  | RC_AI_PROVIDER_UNAVAILABLE => "AI_PROVIDER_UNAVAILABLE" | RC_AI_ADVISORY_VETO => "AI_ADVISORY_VETO"
  | RC_AI_REVIEW_DISABLED => "AI_REVIEW_DISABLED" | RC_PRICE_DRIFT_EXCEEDED => "PRICE_DRIFT_EXCEEDED"
  | RC_SHADOW_MODE_NO_SUBMIT => "SHADOW_MODE_NO_SUBMIT" | RC_EXCHANGE_UNAVAILABLE => "EXCHANGE_UNAVAILABLE"
  | RC_EXCHANGE_REJECTED => "EXCHANGE_REJECTED" | RC_EXCHANGE_UNKNOWN => "EXCHANGE_UNKNOWN"
  | RC_PROTECTION_FAILED => "PROTECTION_FAILED" | RC_INTERNAL_ERROR => "INTERNAL_ERROR"
  end.
Definition stage_value (s : FunnelStage) : string :=
  match s with
  | ST_CYCLE_STARTED => "CYCLE_STARTED" | ST_DATA_AVAILABLE => "DATA_AVAILABLE"
  | ST_CANDLE_CLOSED => "CANDLE_CLOSED" | ST_DATA_FRESH => "DATA_FRESH"
  | ST_TIMEFRAMES_ALIGNED => "TIMEFRAMES_ALIGNED" | ST_REGIME_EVALUATED => "REGIME_EVALUATED"
  | ST_ENTRY_SIGNAL_EVALUATED => "ENTRY_SIGNAL_EVALUATED" | ST_CANDIDATE_CREATED => "CANDIDATE_CREATED"
  | ST_META_LABEL_EVALUATED => "META_LABEL_EVALUATED" | ST_MANIFEST_EVALUATED => "MANIFEST_EVALUATED"
  | ST_RECONCILIATION_HEALTHY => "RECONCILIATION_HEALTHY" | ST_RISK_APPROVED => "RISK_APPROVED"
  | ST_AI_REVIEWED => "AI_REVIEWED" | ST_PRICE_DRIFT_APPROVED => "PRICE_DRIFT_APPROVED"
  | ST_INTENT_CREATED => "INTENT_CREATED" | ST_EXCHANGE_SUBMITTED => "EXCHANGE_SUBMITTED"
  | ST_EXCHANGE_FILLED => "EXCHANGE_FILLED" | ST_POSITION_PROJECTED => "POSITION_PROJECTED"
  | ST_PROTECTION_CONFIRMED => "PROTECTION_CONFIRMED"
  end.

Definition payload_reason (reason : string) (p : FunnelPayload) : FunnelPayload :=
  mkPayload (fy_lane p) (fy_strategy_id p) (fy_terminal_stage p) (fy_terminal_outcome p) reason (fy_execution_policy p)
    (fy_entry_authority p) (fy_entry_authorized p) (fy_trading_state p) (fy_execution_blocker p)
    (fy_promotion_eligible p) (fy_stages p) (fy_candidate_key p)
    (fy_strategy_terminal_reason p) (fy_system_failure_reason p) (fy_entry_bar_retryable p).
Definition payload_policy (policy : string) (p : FunnelPayload) : FunnelPayload :=
  mkPayload (fy_lane p) (fy_strategy_id p) (fy_terminal_stage p) (fy_terminal_outcome p) (fy_reason_code p) policy
    (fy_entry_authority p) (fy_entry_authorized p) (fy_trading_state p) (fy_execution_blocker p)
    (fy_promotion_eligible p) (fy_stages p) (fy_candidate_key p)
    (fy_strategy_terminal_reason p) (fy_system_failure_reason p) (fy_entry_bar_retryable p).
Definition recon_status_value (s : ReconciliationStatus) : string :=
  match s with
  | HEALTHY => "HEALTHY" | DEGRADED => "DEGRADED" | RECOVERY_REQUIRED => "RECOVERY_REQUIRED" | UNAVAILABLE => "UNAVAILABLE"
  end.

Definition _append_funnel_stage (stage outcome reason_code : string) (update_terminal : bool) (p : FunnelPayload) :
    FunnelPayload :=
  let stages := fy_stages p ++ [mkStageEntry stage outcome reason_code] in
  if update_terminal then
    mkPayload (fy_lane p) (fy_strategy_id p) stage (Some outcome) reason_code (fy_execution_policy p)
      (fy_entry_authority p) (fy_entry_authorized p) (fy_trading_state p) (fy_execution_blocker p)
      (fy_promotion_eligible p) stages (fy_candidate_key p)
      (fy_strategy_terminal_reason p) (fy_system_failure_reason p) (fy_entry_bar_retryable p)
  else
    mkPayload (fy_lane p) (fy_strategy_id p) (fy_terminal_stage p) (fy_terminal_outcome p) (fy_reason_code p)
      (fy_execution_policy p) (fy_entry_authority p) (fy_entry_authorized p) (fy_trading_state p)
      (fy_execution_blocker p) (fy_promotion_eligible p) stages (fy_candidate_key p)
      (fy_strategy_terminal_reason p) (fy_system_failure_reason p) (fy_entry_bar_retryable p).

(** An appended stage of a result that has a payload. *)
Definition with_payload (f : FunnelPayload -> FunnelPayload) (r : CycleResult) : CycleResult :=
  match cr_funnel_payload r with Some p => payload_is (f p) r | None => r end.
Definition add_stage (stage outcome reason_code : string) : CycleResult -> CycleResult :=
  with_payload (_append_funnel_stage stage outcome reason_code true).

Definition paused_payload (p : FunnelPayload) : FunnelPayload :=
  _append_funnel_stage "ENTRY_SUBMISSION_AUTHORIZED" "REJECTED" "ENTRY_KILL_SWITCH_ACTIVE" false
    (mkPayload (fy_lane p) (fy_strategy_id p) (fy_terminal_stage p) (fy_terminal_outcome p) (fy_reason_code p)
       "MANAGEMENT_ONLY" (fy_entry_authority p) false "MANAGEMENT_ONLY" (Some "ENTRY_KILL_SWITCH_ACTIVE"%string)
       (fy_promotion_eligible p) (fy_stages p) (fy_candidate_key p)
       (Some (ostr_or (fy_strategy_terminal_reason p) (fy_reason_code p))) (fy_system_failure_reason p)
       (fy_entry_bar_retryable p)).

Definition _apply_runtime_entry_pause (entry_enabled : bool) (r : CycleResult) : CycleResult :=
  if entry_enabled then r else with_payload paused_payload (blocked_by_runtime_control r).

(** ** Policies *)

Inductive R2CostGatePolicy := R2_DISABLED | R2_DIAGNOSTIC | R2_BLOCKING.
#[export] Instance R2CostGatePolicy_eq_dec : EqDecision R2CostGatePolicy.
Proof. solve_decision. Defined.

Definition _is_testnet_canary_sampling (q : CycleRequest) (candidate : option TradeCandidate) : bool :=
  bool_decide (cq_execution_mode q = BINANCE_TESTNET) && bool_decide (cq_entry_authority q = AUTH_TESTNET_CANARY)
  && bool_decide (cq_symbol q ∈ TESTNET_CANARY_SYMBOLS)
  && match candidate with
     | None => true
     | Some c => is_lane (tc_lane c) TESTNET_SAMPLING && String.eqb (tc_strategy_id c) CANARY_STRATEGY_ID
     end.

Definition _resolve_r2_cost_gate_policy (q : CycleRequest) (candidate : TradeCandidate) : R2CostGatePolicy :=
  if negb (cq_r2_cost_gate_enabled q) then R2_DISABLED
  else if bool_decide (cq_entry_authority q = AUTH_TESTNET_CANARY) && is_lane (tc_lane candidate) TESTNET_SAMPLING
          && String.eqb (tc_strategy_id candidate) CANARY_STRATEGY_ID
  then R2_DIAGNOSTIC
  else R2_BLOCKING.

Definition _sampling_execution_allowed (q : CycleRequest) (candidate : TradeCandidate) : bool :=
  bool_decide (cq_entry_authority q = AUTH_TESTNET_CANARY) && bool_decide (cq_execution_mode q = BINANCE_TESTNET)
  && bool_decide (cq_engine_activation q = ACTIVE) && cq_sampling_fallback_enabled q
  && is_lane (tc_lane candidate) TESTNET_SAMPLING && tc_non_promotable candidate.

(** ** Sizing *)

(** [min(a, b, ...)]: the first of the smallest. *)
Definition dmin_all (d : Dec) (l : list Dec) : Dec := foldl dmin d l.

(** [a or b] of an optional notional. *)
Definition notional_or (notional : option Dec) (d : Dec) : Dec :=
  match notional with Some x => if dtruthy x then x else d | None => d end.

Definition committed_notional (snapshot : AuthoritativeAccountSnapshot) : Dec :=
  dsum (map (fun p => dabs (xp_quantity p) * xp_mark_price p)%D (as_positions snapshot)).

Definition sizing_equity (snapshot : AuthoritativeAccountSnapshot) : Dec := dmax (as_equity snapshot) (dint 1).
Definition margin_budget (s : SizingLimits) (equity : Dec) : Dec :=
  (equity * sz_max_margin_fraction s * dint (sz_max_leverage s))%D.
Definition margin_capacity (s : SizingLimits) (equity : Dec) : Dec := (equity * dint (sz_max_leverage s))%D.

Definition canary_notional (s : SizingLimits) (snapshot : AuthoritativeAccountSnapshot) : Dec :=
  let equity := sizing_equity snapshot in
  let exposure_ceiling :=
    if (sz_max_position_fraction s =? mkDec 150 (-2))%D then (equity * CANARY_MAX_SYMBOL_EXPOSURE)%D
    else (equity * sz_max_position_fraction s)%D in
  let total_exposure_fraction :=
    if (sz_max_total_exposure s =? mkDec 750 (-2))%D then CANARY_MAX_TOTAL_EXPOSURE else sz_max_total_exposure s in
  let total_exposure_ceiling := (equity * total_exposure_fraction)%D in
  let remaining_total_exposure := dmax (total_exposure_ceiling - committed_notional snapshot)%D dzero in
  let target_notional :=
    dmin (notional_or (sz_order_notional_usdt s) (margin_budget s equity)) CANARY_MAX_NOTIONAL_USDT in
  dmin_all target_notional
    [exposure_ceiling; remaining_total_exposure; margin_budget s equity; margin_capacity s equity].

(** The stop distance as a fraction of the price, where both are usable. *)
Definition stop_fraction_of (stop_distance reference_price : option Dec) : option Dec :=
  match stop_distance, reference_price with
  | Some d, Some p => if (dzero <? p)%D && (dzero <? d)%D then Some (dquot d p) else None
  | _, _ => None
  end.

(** The notional of an entry; despite its name it is not a quantity yet. *)
Definition _calculate_quantity (q : CycleRequest) (snapshot : AuthoritativeAccountSnapshot)
    (stop_distance reference_price : option Dec) (candidate : option TradeCandidate) : Dec :=
  let s := cq_sizing q in
  let equity := sizing_equity snapshot in
  let exposure_ceiling := (equity * sz_max_position_fraction s)%D in
  let ceilings := [exposure_ceiling; margin_budget s equity; margin_capacity s equity] in
  if _is_testnet_canary_sampling q candidate then canary_notional s snapshot
  else match sz_order_notional_usdt s with
  | Some notional => dmin_all notional ceilings
  | None =>
      let risk_budget := (equity * sz_risk_per_trade s)%D in
      match stop_fraction_of stop_distance reference_price with
      | Some f => if (f <=? dzero)%D then dmin_all risk_budget ceilings else dmin_all (dquot risk_budget f) ceilings
      | None => dmin_all risk_budget ceilings
      end
  end.

Definition _candidate_initial_risk_usdt (quantity : Dec) (stop_distance : option Dec) : Dec :=
  match stop_distance with
  | Some d => if (quantity <=? dzero)%D || (d <=? dzero)%D then dzero else (quantity * d)%D
  | None => dzero
  end.
