(* ===== verification/CycleSteps.v ===== *)
(** * CycleSteps: what a cycle does before and around its entry

    The functions of [application/cycle_service.py] that
    [run_automated_trading_cycle] calls, over an adapter and the sessions of
    [Database].  A cycle's state is the adapter's world, the database, and the
    [CycleResult] it mutates; an exception keeps what was done before it. *)
From S2P Require Import Prelude PyDecimal PyValue State ClientOrderId Receipts Candidates PortfolioRisk RiskControls.
From S2P Require Import RuntimeLock Funnel Adapter AccountWriter Quantities Reconciliation Entry Exit Protection Recovery.
From S2P Require Import BinanceAdapter Database Repository RecoveryExecutor LocalState Canonical Evidence FactPersistence Cycle.
Local Open Scope Z_scope.
Local Open Scope py_scope.

(** ** The adapter of a cycle *)

(** What a cycle calls beyond [ExchangeAdapter]; the optional operations are
    looked up with [hasattr]. *)
Class CycleAdapter (W : Type) := {
  cycle_exchange :: ExchangeAdapter W;
  market_snapshot : string -> SM W PreSubmitMarketSnapshot;
  stop_replacement : option (string -> string -> Dec -> Dec -> string -> SM W ExchangeOrderReceipt);
  filled_order_by_id : option (string -> string -> SM W (option ExchangeOrderReceipt));
  account_writer_valid : SM W bool }.

Definition binance_cycle_adapter {W} {V : VenueClient W} (cap : option AccountWriterCapability) :
    CycleAdapter (AState W) := {|
  cycle_exchange := binance_adapter cap;
  market_snapshot := fetch_market_snapshot;
  stop_replacement := Some (submit_stop_replacement cap);
  filled_order_by_id := Some query_filled_order_by_id;
  account_writer_valid := _recovery_writer_valid cap |}.

(** What the process is configured with, and the advisory review: its status, or
    the exception it raised; [review_skip] is the record that it was skipped. *)
Class CycleHost := {
  host_values :: Host;
  allow_unmanaged_positions : string;
  external_baseline_json : string;
  json_loads : string -> res PyVal;
  execution_baseline_keys : gset string;
  trade_review : CycleRequest -> TradeCandidate -> res string;
  review_skip : CycleRequest -> string -> res unit }.

Section baseline.
Context {H : CycleHost}.

Fixpoint baseline_of (payload : PyDict) : res (list (string * Dec)) :=
  match payload with
  | [] => Ok []
  | (key, value) :: payload =>
      assert_or (bool_decide (key ∈ execution_baseline_keys))
        (ValueError "external baseline key is outside execution scope") ≫= fun _ =>
      py_decimal value ≫= fun quantity =>
      assert_or (negb (quantity <=? dzero)%D) (ValueError "external baseline quantity must be positive") ≫= fun _ =>
      baseline_of payload ≫= fun rest => Ok ((key, quantity) :: rest)
  end.

Definition _load_external_baseline_positions : res (list (string * Dec)) :=
  if negb (String.eqb (str_lower allow_unmanaged_positions) "true") then Ok []
  else
  let raw := strip external_baseline_json in
  if negb (str_truthy raw) then Raise (ValueError "V2_EXTERNAL_BASELINE_JSON is required")
  else
  json_loads raw ≫= fun payload =>
  match payload with
  | VDict _ d => baseline_of d
  | _ => Raise (ValueError "V2_EXTERNAL_BASELINE_JSON must be a JSON object")
  end.
End baseline.

(** ** The order of queries *)

(** [order_by(key.desc())]: of equal keys, the first inserted first. *)
Section order.
Context {R : Type} (key : R -> datetime).
Fixpoint insert_newest (x : R) (l : list R) : list R :=
  match l with
  | [] => [x]
  | y :: l' => if key y <=? key x then x :: l else y :: insert_newest x l'
  end.
Definition newest_first (l : list R) : list R := foldr insert_newest [] l.
End order.

(** [sorted(...)] of texts. *)
Definition sorted_texts (l : list string) : list string := map fst (sort_keys (map (fun s => (s, tt)) l)).

(** ** Exits rebuilt from fills *)

Definition all_exit_reasons : list ExitReason :=
  [HARD_STOP; TAKE_PROFIT; TIME_EXIT; STRATEGY_INVALIDATION; OPPOSITE_SIGNAL_CLOSE; PROTECTION_FAILURE_EMERGENCY;
   CANARY_MARGIN_CEILING; MANUAL_REDUCE_ONLY].
(** [ExitReason(value)] *)
Definition exit_reason_of_value (value : string) : res ExitReason :=
  match List.find (fun r => String.eqb (exit_reason_value r) value) all_exit_reasons with
  | Some r => Ok r
  | None => Raise (ValueError "not a valid ExitReason")
  end.

Definition fill_amounts (fills : list ExchangeFillReceipt) : list (Dec * Dec) :=
  map (fun f => (ef_filled_quantity f, ef_fill_price f)) fills.
Definition filled_total (fills : list ExchangeFillReceipt) : Dec := fills_quantity (fill_amounts fills).
Definition fees_total (fills : list ExchangeFillReceipt) : Dec := dsum (map ef_fee fills).
Definition last_fill_time (fills : list ExchangeFillReceipt) : datetime := latest_time (map ef_fill_timestamp fills).

(** The closed exit that a sequence of fills of one order amounts to. *)
Definition closed_exit (client_order_id exchange_order_id : string) (fills : list ExchangeFillReceipt)
    (average : option Dec) : ExitExecutionResult :=
  mkExitResult EXIT_CLOSED CLOSED client_order_id (Some exchange_order_id) (map ef_trade_id fills) (filled_total fills)
    average (fees_total fills) (Some dzero) (if is_nonempty fills then Some (last_fill_time fills) else None) [].

Section steps.
Context {H : CycleHost} {W : Type} {A : CycleAdapter W}.

Notation World := (World (W := W)).
Definition CS : Type := World * CycleResult.

Definition in_world {X} (m : SM World X) : SM CS X := fun '(w, r) => let '(x, w') := m w in (x, (w', r)).
Definition note (f : CycleResult -> CycleResult) : SM CS unit := fun '(w, r) => (Ok tt, (w, f r)).
Definition result_now : SM CS CycleResult := fun '(w, r) => (Ok r, (w, r)).
Definition failing (tag : string) : SM CS unit := note (record_error tag).

(** A program that opens its own sessions. *)
Definition on_store {X} (m : SM Session X) : SM World X := fun '(w, s) => let '(r, s') := m s in (r, (w, s')).
(** [with get_session_factory()() as session: m], where [m] also calls the venue. *)
Definition in_session {X} (m : SM World X) : SM World X := fun '(w, s) =>
  let '(r, (w', s')) := m (w, mkSession (s_committed s) (s_committed s) (s_draws s)) in
  (r, (w', mkSession (s_committed s') (s_committed s') (s_draws s'))).

Definition at_venue {X} (m : SM W X) : SM CS X := in_world (on_adapter m).
Definition in_store {X} (m : SM Session X) : SM CS X := in_world (on_store m).

(** ** Reads *)

Definition _runtime_entry_enabled : SM Session bool :=
  stry (with_session (let! control := get_runtime_control "global" in sret (ct_entry_enabled control)))
    (fun _ => Some (sret false)).

Definition _fetch_step_size (symbol : string) : SM W Dec :=
  stry (let! market := market_snapshot symbol in sret (ms_step_size market)) (fun _ => Some (sret (mkDec 1 (-3)))).

Definition _account_writer_valid_for_adapter (mode : V2ExecutionMode) : SM W bool :=
  if bool_decide (mode = BINANCE_TESTNET) then account_writer_valid else sret true.

Definition ClaimRefs : Type := gmap string (gset string).
Definition empty_local_state : LocalStateView := mkLocalState [] [] ∅ [] ∅.

(** [None] is the status UNAVAILABLE. *)
Definition _build_local_state (mode : V2ExecutionMode) (fail_closed : bool) :
    SM Session (option (LocalStateView * ClaimRefs)) :=
  stry (let! baseline := slift _load_external_baseline_positions in
        let! loaded := with_session (load_local_state_from_session mode baseline) in
        sret (Some loaded))
    (fun _ => Some (sret (if fail_closed then None else Some (empty_local_state, ∅)))).

(** ** Portfolio risk *)

(** The decision, or that an active intent has no known risk. *)
Definition _evaluate_durable_portfolio_risk (q : CycleRequest) (candidate : TradeCandidate)
    (snapshot : AuthoritativeAccountSnapshot) (initial_risk_usdt : Dec) (max_open_positions : option Z)
    (max_total_fraction : option Dec) : SM Session (option PortfolioRiskDecision) :=
  let! exposures := with_session (list_active_initial_risk_exposures (cq_execution_mode q)) in
  let '(committed, has_unknown_active_risk) := exposures in
  if has_unknown_active_risk then sret None
  else sret (Some (evaluate_portfolio_risk (as_equity snapshot) (cq_symbol q) (tc_direction candidate) initial_risk_usdt
    committed (default MAX_TOTAL_INITIAL_RISK_FRACTION max_total_fraction) MAX_SAME_DIRECTION_CLUSTER_RISK_FRACTION
    (default MAX_OPEN_POSITIONS max_open_positions))).

(** ** The reconciliation fact *)

Definition optional_text (o : option Dec) : PyVal := match o with Some d => VStr (dec_text d) | None => VNone end.
Definition rows_value (key : string) (l : list PyDict) : PyDict := [(key, VList "" (map (VDict "") l))].

Definition exchange_position_fact (quarantined : list string) (p : ExchangePositionSnapshot) : PyDict :=
  [("symbol", VStr (xp_symbol p)); ("direction", VStr (xp_direction p)); ("quantity", VStr (dec_text (xp_quantity p)));
   ("entry_price", VStr (dec_text (xp_entry_price p))); ("mark_price", VStr (dec_text (xp_mark_price p)));
   ("unrealized_pnl", VStr (dec_text (xp_unrealized_pnl p)));
   ("leverage", match xp_leverage p with Some z => VInt z | None => VNone end);
   ("ownership", VStr (if bool_decide (exchange_key p ∈ quarantined) then "EXTERNAL_QUARANTINED" else "MANAGED_V2"))]%string.

Definition exchange_order_fact (o : ExchangeOrderSnapshot) : PyDict :=
  [("exchange_order_id", VStr (xo_exchange_order_id o)); ("client_order_id", ostr_value (xo_client_order_id o));
   ("symbol", VStr (xo_symbol o)); ("side", VStr (xo_side o)); ("order_type", VStr (xo_order_type o));
   ("quantity", VStr (dec_text (xo_quantity o))); ("price", optional_text (xo_price o)); ("status", VStr (xo_status o));
   ("reduce_only", VBool (xo_reduce_only o))]%string.

Definition local_position_fact (p : LocalPositionView) : PyDict :=
  [("position_id", VStr (lp_position_id p)); ("symbol", VStr (lp_symbol p)); ("direction", VStr (lp_direction p));
   ("quantity", VStr (dec_text (lp_quantity p))); ("state", VStr (position_state_value (lp_state p)));
   ("has_active_protection", VBool (lp_has_active_protection p))]%string.

Definition discrepancy_fact (d : Discrepancy) : PyDict :=
  [("code", VStr (code_value (d_code d))); ("symbol", ostr_value (d_symbol d)); ("detail", free_text);
   ("local_position_id", ostr_value (d_local_position_id d)); ("exchange_ref", ostr_value (d_exchange_ref d))]%string.

Definition _persist_reconciliation_fact (q : CycleRequest) (snapshot : AuthoritativeAccountSnapshot)
    (local_state : LocalStateView) (recon : ReconciliationResult) : SM Session unit :=
  let captured_at := default (cq_now q) (rc_reconciled_at recon) in
  with_session (
    record_reconciliation (cq_execution_mode q)
      (rows_value "positions" (map (exchange_position_fact (rc_quarantine_candidates recon)) (as_positions snapshot)))
      (rows_value "open_orders" (map exchange_order_fact (as_pending_orders snapshot)))
      (rows_value "positions" (map local_position_fact (ls_positions local_state)))
      (rows_value "mismatches" (map discrepancy_fact (rc_discrepancies recon)) ++
       [("entry_blocked_symbols", texts_value (sorted_texts (elements (rc_entry_blocked_symbols recon))))]%string)
      (recon_status_value (rc_status recon)) captured_at (Some (cq_cycle_id q)) ;;;
    (if bool_decide (rc_status recon = HEALTHY) then resolve_reconciliation_incidents captured_at ;;; sret tt
     else sret tt) ;;;
    commit).
End steps.
