(* ===== verification/CycleRecovery.v ===== *)
(** * CycleRecovery: what a cycle repairs before it may enter

    The recoveries of [application/cycle_service.py]: exits whose fills were not
    recorded, protections that filled, a margin guard that closed its entry, and
    the tightening of stops.  Each works from exact order identities and the
    exchange's fills. *)
From S2P Require Import Prelude PyDecimal PyValue State ClientOrderId Receipts Candidates RiskControls RuntimeLock Adapter Quantities.
From S2P Require Import Reconciliation Entry Exit Protection Database Repository RecoveryExecutor LocalState.
From S2P Require Import FactPersistence Cycle CycleSteps.
From Stdlib Require Import Ascii.
Local Open Scope Z_scope.
Local Open Scope py_scope.

(** The text after the last colon: [key.rsplit(":", 1)[-1]]. *)
Definition after_last_colon (s : string) : string :=
  match rsplit_colon s with
  | Some p => String.substring (String.length p + 1) (String.length s) s
  | None => s
  end.

Section recovery.
Context {H : CycleHost} {W : Type} {A : CycleAdapter W}.
Notation World := (RecoveryExecutor.World (W := W)).
Notation CS := (CycleSteps.CS (W := W)).

(** ** Exits of which the fills are missing *)

(** An order that may have closed a position: its client id, its exchange id
    where it is known, and the reason of the exit. *)
Definition ExitAttempt : Type := string * option string * ExitReason.

Definition attempt_reason (candidate_key : string) : ExitReason :=
  match exit_reason_of_value (after_last_colon candidate_key) with Ok r => r | Raise _ => MANUAL_REDUCE_ONLY end.

(** The orders of the exit intents of a position, newest first; the pattern of
    the query is the prefix of the intents' keys. *)
Definition persisted_attempts (d : Db) (position_id : string) : list ExitAttempt :=
  let of_position i := String.prefix ("exit:" +:+ position_id +:+ ":") (it_candidate_key i) in
  let pairs := concat (map (fun i => map (fun o => (i, o)) (bfilter (order_of_intent (it_intent_id i)) (orders d)))
                         (bfilter of_position (intents d))) in
  map (fun io => (eo_client_order_id io.2, eo_exchange_order_id io.2, attempt_reason (it_candidate_key io.1)))
    (newest_first (fun io => eo_created_at io.2) pairs).

Definition gap_positions (q : CycleRequest) (d : Db) : list PositionRow :=
  take 20 (newest_first mp_projected_at (bfilter (fun p => String.eqb (mp_symbol p) (cq_symbol q)
    && bool_decide (mp_execution_mode p = cq_execution_mode q) && bool_decide (mp_state p ∈ [REDUCING; QUARANTINED]))
    (positions d))).

(** The three derived client ids that no persisted order has. *)
Fixpoint derived_attempts (position_id : string) (known : list string) (attempts : list Z) : res (list ExitAttempt) :=
  match attempts with
  | [] => Ok []
  | n :: attempts =>
      exit_client_order_id position_id n ≫= fun client_order_id =>
      derived_attempts position_id known attempts ≫= fun rest =>
      Ok (if bool_decide (client_order_id ∈ known) then rest
          else (client_order_id, None, if 1 <? n then PROTECTION_FAILURE_EMERGENCY else MANUAL_REDUCE_ONLY) :: rest)
  end.

(** The exchange id of the order that carries a client id, if it could close [p]. *)
Definition matching_order (p : PositionRow) (client_order_id : string) : SM W (option string) :=
  let! receipt := query_order_by_client_id (mp_symbol p) client_order_id in
  sret (r ← receipt;
    if negb (String.eqb (or_client_order_id r) client_order_id) then None
    else if negb (String.eqb (str_lower (or_side r)) (if String.eqb (mp_direction p) "long" then "sell" else "buy")) then None
    else if (Adapter.or_quantity r <? mp_quantity p)%D then None
    else Some (or_exchange_order_id r)).

Definition attempt_exchange_id (p : PositionRow) (a : ExitAttempt) : SM W (option string) :=
  match a.1.2 with
  | Some x => if str_truthy x then sret (Some x) else matching_order p a.1.1
  | None => matching_order p a.1.1
  end.

(** One attempt: is the position closed by it? *)
Definition recover_attempt (q : CycleRequest) (p : PositionRow) (a : ExitAttempt) : SM CS bool :=
  let! exchange_order_id := at_venue (attempt_exchange_id p a) in
  match exchange_order_id with
  | None => sret false
  | Some exchange_order_id =>
      let! fills := at_venue (fetch_fills (mp_symbol p) exchange_order_id) in
      if negb (is_nonempty fills) then sret false
      else if (filled_total fills <? mp_quantity p)%D then sret false
      else
      let! average := slift (ddiv (fills_notional (fill_amounts fills)) (filled_total fills)) in
      in_store (persist_exit_result (cq_cycle_id q) (mp_position_id p) (cq_execution_mode q) a.2
        (closed_exit a.1.1 exchange_order_id fills (Some average)) (cq_fencing_token q) None) ;;;
      note (exit_submitted_is true) ;;;
      sret true
  end.

(** The attempts in order, until one closed the position. *)
Fixpoint recover_attempts (q : CycleRequest) (p : PositionRow) (l : list ExitAttempt) : SM CS bool :=
  match l with
  | [] => sret false
  | a :: l => let! closed := recover_attempt q p a in if closed then sret true else recover_attempts q p l
  end.

Fixpoint recover_positions (q : CycleRequest) (snapshot : AuthoritativeAccountSnapshot)
    (l : list (PositionRow * list ExitAttempt)) (changed : bool) : SM CS bool :=
  match l with
  | [] => sret changed
  | (p, persisted) :: l =>
      if bool_decide (position_key (mp_symbol p) (mp_direction p) ∈ map exchange_key (as_positions snapshot))
      then recover_positions q snapshot l changed
      else
      let! derived := slift (derived_attempts (mp_position_id p) (map (fun a => a.1.1) persisted) [1; 2; 3]) in
      let! closed := recover_attempts q p (persisted ++ derived) in
      recover_positions q snapshot l (changed || closed)
  end.

Definition _recover_confirmed_v2_exit_gaps (q : CycleRequest) (snapshot : AuthoritativeAccountSnapshot) : SM CS bool :=
  if negb (reconcile_existing_positions q) then sret false
  else
  let! gaps := in_store (with_session (
    let! d := read_db in
    sret (map (fun p => (p, persisted_attempts d (mp_position_id p))) (gap_positions q d)))) in
  recover_positions q snapshot gaps false.

(** ** Protections that filled *)

Definition refs_ids (refs : list (string * string * string)) : gset string := list_to_set (map (fun r => r.1.1) refs).

(** A quarantined position as the loop sees it, if its protection has an order. *)
Definition quarantined_view (p : PositionRow) (r : ProtectionRow) : option LocalPositionView :=
  let refs := protection_refs r in
  if is_nonempty refs then
    Some (mkLocalPosition (mp_position_id p) (mp_symbol p) (mp_direction p) (mp_quantity p) (mp_state p) ∅ true
            (refs_ids refs) refs dzero None None None "P1" 0)
  else None.

Definition quarantined_rows (q : CycleRequest) (d : Db) : list (PositionRow * ProtectionRow) :=
  concat (map (fun p => map (fun r => (p, r)) (bfilter (fun r => String.eqb (pt_position_id r) (mp_position_id p)
      && bool_decide (pt_state r ∈ [PROTECTION_ACTIVE; PROTECTION_TRIGGERED; PROTECTION_UNKNOWN])) (protections d)))
    (bfilter (fun p => bool_decide (mp_execution_mode p = cq_execution_mode q) && bool_decide (mp_state p = QUARANTINED))
      (positions d))).

(** The local positions and, after them, the quarantined ones not among them. *)
Definition add_quarantined (views : list LocalPositionView) (row : PositionRow * ProtectionRow) : list LocalPositionView :=
  if bool_decide (mp_position_id row.1 ∈ map lp_position_id views) then views
  else match quarantined_view row.1 row.2 with Some v => views ++ [v] | None => views end.

(** A protection order whose fills cover the position. *)
Definition ConfirmedFill : Type := string * string * ExitReason * list ExchangeFillReceipt.

(** The first such order of the references; [None] is a failed lookup. *)
Fixpoint confirmed_fill (p : LocalPositionView) (refs : list (string * string * string)) : SM CS (option (option ConfirmedFill)) :=
  match refs with
  | [] => sret (Some None)
  | (exchange_order_id, client_order_id, reason_value) :: refs =>
      stry_else (at_venue (fetch_fills (lp_symbol p) exchange_order_id))
        (fun _ => Some (
           note projection_incomplete ;;; failing "protection fill lookup failed" ;;; sret None))
        (fun fills =>
           if negb (is_nonempty fills) || (filled_total fills <? lp_quantity p)%D then confirmed_fill p refs
           else
           let! reason := slift (exit_reason_of_value reason_value) in
           sret (Some (Some (exchange_order_id, client_order_id, reason, fills))))
  end.

(** The one exchange order that all fills are of. *)
Definition single_order (fills : list ExchangeFillReceipt) : option string :=
  match fills with
  | [] => None
  | f :: l => if forallb (fun g => String.eqb (ef_exchange_order_id g) (ef_exchange_order_id f)) l
              then Some (ef_exchange_order_id f) else None
  end.

Fixpoint cancel_siblings (symbol : string) (ids : list string) : SM CS unit :=
  match ids with
  | [] => sret tt
  | id :: ids =>
      stry (at_venue (cancel_order symbol id) ;;; sret tt) (fun _ => Some (sret tt)) ;;;
      cancel_siblings symbol ids
  end.

(** The exit of a position whose protection filled; [false] ends the projection. *)
Definition project_exit (q : CycleRequest) (p : LocalPositionView) (confirmed : ConfirmedFill) (actual : string) : SM CS bool :=
  let '(protection_order, client_order_id, reason, fills) := confirmed in
  let total := filled_total fills in
  let average := if (dzero <? total)%D then Some (dquot (fills_notional (fill_amounts fills)) total) else None in
  stry_else (in_store (persist_exit_result (cq_cycle_id q) (lp_position_id p) (cq_execution_mode q) reason
               (closed_exit client_order_id actual fills average) (cq_fencing_token q) (Some protection_order)))
    (fun _ => Some (
       note projection_incomplete ;;; failing "protection exit persistence failed" ;;; sret false))
    (fun _ =>
       cancel_siblings (lp_symbol p) (elements (lp_protection_exchange_order_ids p ∖ {[protection_order]})) ;;;
       note (exit_submitted_is true) ;;;
       sret true).

Definition skips_projection (snapshot : AuthoritativeAccountSnapshot) (p : LocalPositionView) : bool :=
  bool_decide (lp_state p = CLOSED)
  || (negb (bool_decide (lp_state p = QUARANTINED))
      && bool_decide (position_key (lp_symbol p) (lp_direction p) ∈ map exchange_key (as_positions snapshot))).

Fixpoint project_positions (q : CycleRequest) (snapshot : AuthoritativeAccountSnapshot) (l : list LocalPositionView)
    (changed : bool) : SM CS bool :=
  match l with
  | [] => sret changed
  | p :: l =>
      if skips_projection snapshot p then project_positions q snapshot l changed
      else
      let! found := confirmed_fill p (lp_protection_order_refs p) in
      match found with
      | None => sret changed
      | Some None => project_positions q snapshot l changed
      | Some (Some confirmed) =>
          match single_order confirmed.2 with
          | None =>
              failing "protection fills span multiple exchange orders" ;;;
              project_positions q snapshot l changed
          | Some actual =>
              let! projected := project_exit q p confirmed actual in
              if projected then project_positions q snapshot l true else sret changed
          end
      end
  end.

Definition _project_confirmed_protection_exits (q : CycleRequest) (snapshot : AuthoritativeAccountSnapshot)
    (local_state : LocalStateView) : SM CS bool :=
  let! quarantined := in_store (with_session (let! d := read_db in sret (quarantined_rows q d))) in
  project_positions q snapshot (foldl add_quarantined (ls_positions local_state) quarantined) false.

(** ** The margin guard *)

Definition _recover_confirmed_margin_guard_lifecycle (q : CycleRequest) (intent_id : string)
    (entry_result : EntryExecutionResult) : SM CS bool :=
  match ex_guard_exchange_order_id entry_result, ex_guard_client_order_id entry_result with
  | Some guard_order, Some guard_client =>
      if negb (str_truthy guard_order && str_truthy guard_client) then sret false
      else
      stry_else (at_venue (fetch_fills (cq_symbol q) guard_order))
        (fun _ => Some (failing "margin-guard fill recovery deferred" ;;; sret false))
        (fun guard_fills =>
           if negb (is_nonempty guard_fills) then failing "margin-guard fill recovery deferred" ;;; sret false
           else
           stry_else (in_store (recover_confirmed_margin_guard_lifecycle intent_id guard_order guard_client guard_fills))
             (fun _ => Some (failing "margin-guard lifecycle recovery failed" ;;; sret false))
             (fun _ => note (position_projected_is true) ;;; note (exit_submitted_is true) ;;; sret true))
  | _, _ => sret false
  end.

(** ** Profit protection *)

(** The stop that P1 asks for, on the grid of [tick_size], if it is tighter. *)
Definition tightened_stop (p : LocalPositionView) (original current mark_price tick_size : Dec) : res (option Dec) :=
  p1_profit_protection (lp_direction p) (lp_entry_price p) original mark_price ≫= fun p1 =>
  shadow_profit_protection "P2" (lp_direction p) (lp_entry_price p) original mark_price ≫= fun _ =>
  shadow_profit_protection "P3" (lp_direction p) (lp_entry_price p) original mark_price ≫= fun _ =>
  match pp_stop_price p1 with
  | None => Ok None
  | Some stop =>
      let long := String.eqb (lp_direction p) "long" in
      if negb (if long then (current <? stop)%D else (stop <? current)%D) then Ok None
      else
      ddiv stop tick_size ≫= fun ticks =>
      Ok (Some (to_integral_value (if long then ROUND_CEILING else ROUND_FLOOR) ticks * tick_size)%D)
  end.

Definition hard_stop_ref (p : LocalPositionView) : option (string * string * string) :=
  List.find (fun r => String.eqb r.2 (exit_reason_value HARD_STOP)) (lp_protection_order_refs p).

Definition replace_stop (q : CycleRequest) (p : LocalPositionView) (safe_stop : Dec) : SM World unit :=
  match hard_stop_ref p, stop_replacement with
  | Some old_stop, Some submit =>
      let! client_id := slift (stop_client_order_id (lp_position_id p) (Z.max (lp_protection_version p + 1) 1)) in
      let! receipt := on_adapter (submit (lp_symbol p)
        (if String.eqb (lp_direction p) "long" then "sell" else "buy")%string (lp_quantity p) safe_stop client_id) in
      on_adapter (cancel_order (lp_symbol p) old_stop.1.1) ;;;
      on_store (update_protection_stop (default EmptyString (lp_protection_id p)) safe_stop client_id
        (or_exchange_order_id receipt) (Some (cq_now q)))
  | _, _ => sret tt
  end.

Definition protect_profit (q : CycleRequest) (snapshot : AuthoritativeAccountSnapshot) (tick_size : Dec)
    (p : LocalPositionView) : SM World unit :=
  if negb (String.eqb (lp_symbol p) (cq_symbol q)) || bool_decide (lp_state p ∈ [CLOSED; QUARANTINED]) then sret tt
  else
  match position_at (lp_symbol p) (lp_direction p) snapshot, lp_original_stop_price p, lp_current_stop_price p with
  | Some exchange_position, Some original, Some current =>
      let! stop := slift (tightened_stop p original current (xp_mark_price exchange_position) tick_size) in
      match stop with
      | Some safe_stop => replace_stop q p safe_stop
      | None => sret tt
      end
  | _, _, _ => sret tt
  end.

Fixpoint protect_all (q : CycleRequest) (snapshot : AuthoritativeAccountSnapshot) (tick_size : Dec)
    (l : list LocalPositionView) : SM World unit :=
  match l with
  | [] => sret tt
  | p :: l => protect_profit q snapshot tick_size p ;;; protect_all q snapshot tick_size l
  end.

(** One session holds the updates of all positions and commits at the end. *)
Definition _apply_profit_protection (q : CycleRequest) (snapshot : AuthoritativeAccountSnapshot)
    (local_state : LocalStateView) (tick_size : Dec) : SM CS unit :=
  if negb (cq_persist_facts q) || negb (bool_decide (cq_engine_activation q = ACTIVE)) then sret tt
  else in_world (in_session (
    protect_all q snapshot tick_size (ls_positions local_state) ;;;
    on_store commit)).
End recovery.
