(* ===== verification/EntryGap.v ===== *)
(** * EntryGap: entries whose fills are missing

    [_recover_confirmed_v2_entry_gap] of [application/cycle_service.py]: a
    decision whose payload names an intent, its client order id and an exchange
    order, and for which no position exists.  The payload is what the database
    stored, so it is read as untyped JSON. *)
From S2P Require Import Prelude PyDecimal PyValue State ClientOrderId Receipts Candidates RuntimeLock Funnel Adapter.
From S2P Require Import BinanceAdapter Reconciliation Entry Protection Database Repository RecoveryExecutor LocalState.
From S2P Require Import FactPersistence Cycle CycleSteps.
Local Open Scope Z_scope.
Local Open Scope py_scope.

(** ** Reading the payload *)

(** [v.get(key)] of a value that may not be a mapping. *)
Definition value_get (v : PyVal) (key : string) : res PyVal := py_mapping v ≫= fun d => Ok (py_get d key).
(** [v or {}] *)
Definition or_empty (v : PyVal) : PyVal := py_or v (VDict "{}" []).
(** [a or b], where [b] is only read if needed. *)
Definition or_else (a b : res PyVal) : res PyVal := a ≫= fun x => if py_truthy x then Ok x else b.

(** The last stage of a name, and its metrics. *)
Definition stage_metrics (stages : list PyDict) (name : string) : PyVal :=
  or_empty (match last (bfilter (fun item => String.eqb (py_str (py_get item "stage")) name) stages) with
            | Some item => py_get item "metrics"
            | None => VNone
            end).

(** A value of the stored candidate, or else of a stage's metrics. *)
Definition candidate_value (payload : PyDict) (metrics : PyVal) (key metric : string) : res PyVal :=
  or_else (value_get (or_empty (py_get payload "candidate")) key) (value_get metrics metric).

Record GapIdentity := mkGapIdentity { gi_intent_id : string; gi_client_order_id : string; gi_exchange_order_id : string }.

(** The identities of a decision's entry; [None] where one is missing or wrong. *)
Definition gap_identity (stages : list PyDict) : res (option GapIdentity) :=
  value_get (stage_metrics stages "INTENT_CREATED") "intent_id" ≫= fun intent =>
  value_get (stage_metrics stages "EXCHANGE_SUBMITTED") "client_order_id" ≫= fun client =>
  value_get (stage_metrics stages "EXCHANGE_SUBMITTED") "exchange_order_id" ≫= fun exchange =>
  let intent_id := or_text intent "" in
  let client_order_id := or_text client "" in
  let exchange_order_id := or_text exchange "" in
  if negb (str_truthy intent_id) || negb (str_truthy client_order_id) || negb (str_truthy exchange_order_id) then Ok None
  else if negb (is_v2_client_order_id client_order_id) then Ok None
  else
  entry_client_order_id intent_id 1 ≫= fun expected =>
  Ok (if String.eqb expected client_order_id
      then Some (mkGapIdentity intent_id client_order_id exchange_order_id) else None).

Definition gap_side (payload : PyDict) (stages : list PyDict) : res string :=
  or_else (value_get (stage_metrics stages "CANDIDATE_CREATED") "side")
    (or_else (value_get (stage_metrics stages "ENTRY_SIGNAL_EVALUATED") "side")
       (value_get (or_empty (py_get payload "candidate")) "side")) ≫= fun v =>
  Ok (or_text v "").
Definition side_direction (side : string) : string :=
  if String.eqb side "LONG" then "long" else if String.eqb side "SHORT" then "short" else "".

(** The candidate, rebuilt; [None] if its geometry is not stored. *)
Definition gap_candidate (payload : PyDict) (stages : list PyDict) (cycle : CycleRow) (symbol side : string) :
    res (option TradeCandidate) :=
  let created := stage_metrics stages "CANDIDATE_CREATED" in
  candidate_value payload created "stop_distance" "stop_distance" ≫= fun stop_distance =>
  candidate_value payload created "take_profit_distance" "take_profit_distance" ≫= fun take_profit_distance =>
  candidate_value payload (stage_metrics stages "ENTRY_SIGNAL_EVALUATED") "signal_reference_price" "close" ≫= fun price =>
  candidate_value payload created "candidate_id" "candidate_id" ≫= fun candidate_id =>
  if negb (py_truthy stop_distance && py_truthy price && py_truthy candidate_id) then Ok None
  else
  let stored := or_empty (py_get payload "candidate") in
  value_get stored "lane" ≫= fun lane =>
  value_get stored "confidence" ≫= fun confidence =>
  candidate_value payload (stage_metrics stages "PRICE_DRIFT_APPROVED") "max_entry_drift_bps" "drift_ceiling_bps" ≫= fun drift =>
  py_decimal price ≫= fun signal_reference_price =>
  py_decimal (py_or confidence (VStr "0.5")) ≫= fun confidence =>
  py_decimal stop_distance ≫= fun stop_distance =>
  (if py_is_none take_profit_distance then Ok None else py_decimal take_profit_distance ≫= fun d => Ok (Some d)) ≫= fun tp =>
  py_decimal (py_or drift (VStr "20")) ≫= fun drift =>
  make_TradeCandidate (mkCandidate (py_str candidate_id) (cy_cycle_id cycle)
    (or_text (py_get payload "strategy_id") "testnet_sampling_v2") (or_text (py_get payload "strategy_version") "1.0.0")
    (py_str (py_or lane (py_or (py_get payload "lane") (VStr (lane_value TESTNET_SAMPLING))))) SAMPLING symbol side
    (cy_bar_timestamp cycle) signal_reference_price confidence stop_distance tp drift
    (cy_bar_timestamp cycle + 86400 * 1000000) true) ≫= fun c =>
  Ok (Some c).

(** ** What the exchange says of the order *)

Record GapFill := mkGapFill {
  gf_quantity : Dec; gf_price : Dec; gf_fee : Dec; gf_time : datetime; gf_trade_ids : list string; gf_source : string }.

Section gap.
Context {H : CycleHost} {W : Type} {A : CycleAdapter W}.
Notation CS := (CycleSteps.CS (W := W)).

(** [adapter.query_filled_order_by_id(...)] where the adapter has it. *)
Definition order_status (symbol exchange_order_id : string) : SM W (option ExchangeOrderReceipt) :=
  match filled_order_by_id with Some query => query symbol exchange_order_id | None => sret None end.

(** The trades of the order, or its status; [None] if they do not identify it or
    exceed the position. *)
Definition gap_fill (symbol direction : string) (g : GapIdentity) (p : ExchangePositionSnapshot) : SM W (option GapFill) :=
  let! fills := fetch_fills symbol (gi_exchange_order_id g) in
  if is_nonempty fills then
    let total := filled_total fills in
    if (total <=? dzero)%D || (xp_quantity p <? total)%D then sret None
    else
    let! average := slift (ddiv (fills_notional (fill_amounts fills)) total) in
    sret (Some (mkGapFill total average (fees_total fills) (last_fill_time fills) (map ef_trade_id fills) BINANCE_USER_TRADE))
  else
    let! status := order_status symbol (gi_exchange_order_id g) in
    sret (s ← status; price ← or_price s;
      if String.eqb (or_client_order_id s) (gi_client_order_id g) && String.eqb (or_status s) "filled"
         && String.eqb (or_side s) (if String.eqb direction "long" then "buy" else "sell")
         && negb (xp_quantity p <? Adapter.or_quantity s)%D && negb (price <=? dzero)%D
      then Some (mkGapFill (Adapter.or_quantity s) price dzero (or_acknowledged_at s) [] BINANCE_ORDER_STATUS_RECOVERY)
      else None).

(** ** An order that filled and whose position is gone *)

Definition entry_fill_of (o : OrderRow) (exchange_order_id : string) (f : FillRow) : bool :=
  fill_of_order (eo_order_record_id o) f && String.eqb (fl_exchange_order_id f) exchange_order_id
  && negb (fl_reduce_only f).

(** The order and the intent of the gap with the fill already stored, if all are. *)
Definition stored_entry (g : GapIdentity) : SM Session (option (OrderRow * IntentRow * option FillRow)) :=
  let! order := scalar (R := OrderRow) (order_of_intent (gi_intent_id g)) in
  let! intent := get (R := IntentRow) (gi_intent_id g) in
  match order, intent with
  | Some o, Some i =>
      let! fill := scalar (R := FillRow) (entry_fill_of o (gi_exchange_order_id g)) in
      sret (Some (o, i, fill))
  | _, _ => sret None
  end.

Definition already_terminal (stored : option (OrderRow * IntentRow * option FillRow)) : bool :=
  match stored with Some (_, i, Some _) => bool_decide (it_state i = FILLED) | _ => false end.

Definition confirms_fill (g : GapIdentity) (s : ExchangeOrderReceipt) : option Dec :=
  if String.eqb (or_client_order_id s) (gi_client_order_id g) && String.eqb (or_status s) "filled"
     && (dzero <? Adapter.or_quantity s)%D
  then or_price s else None.

(** The fill is stored and the acknowledged intent cancelled. *)
Definition record_flat_fill (symbol : string) (g : GapIdentity) (s : ExchangeOrderReceipt) (price : Dec) : SM Session bool :=
  with_session (
    let! stored := stored_entry g in
    match stored with
    | None => sret false
    | Some (o, i, fill) =>
        (match fill with
         | Some _ => sret tt
         | None =>
             let! received_at := utc_now in
             save_order_level_fill_recovery (gi_intent_id g) (eo_order_record_id o) TESTNET_ACCOUNT
               (gi_exchange_order_id g) symbol (str_upper (or_side s)) false (Adapter.or_quantity s) price
               (or_acknowledged_at s) received_at ;;; sret tt
         end) ;;;
        (if bool_decide (it_state i = EXCHANGE_ACKNOWLEDGED) then
           transition_intent (gi_intent_id g) EXCHANGE_ACKNOWLEDGED CANCELLED "RecoveryConfirmedFlatAfterFill"
             [("reason", free_text); ("exchange_order_id", VStr (gi_exchange_order_id g))]%string None
         else sret tt) ;;;
        commit ;;;
        sret true
    end).

Definition recover_flat_gap (symbol : string) (g : GapIdentity) : SM CS bool :=
  let! skip := match filled_order_by_id with
               | Some _ => let! stored := in_store (with_session (stored_entry g)) in sret (already_terminal stored)
               | None => sret false
               end in
  if (skip : bool) then sret false
  else
  let! status := at_venue (order_status symbol (gi_exchange_order_id g)) in
  match (s ← status; price ← confirms_fill g s; Some (s, price)) with
  | Some (s, price) => in_store (record_flat_fill symbol g s price)
  | None => sret false
  end.

(** ** An order whose position is at the exchange *)

(** The open position of the symbol and direction, and the highest revision its
    protections used. *)
Definition existing_position (q : CycleRequest) (direction : string) : SM Session (option PositionRow * Z) :=
  let! position := scalar (R := PositionRow) (open_position_in (cq_symbol q) direction (cq_execution_mode q)) in
  match position with
  | None => sret (None, 0)
  | Some p =>
      let! l := select (R := ProtectionRow) (fun r => String.eqb (pt_position_id r) (mp_position_id p)) in
      sret (Some p, Z.max (Z.of_nat (length l)) (foldr Z.max 0 (map pt_version l)))
  end.

Definition gap_result (g : GapIdentity) (f : GapFill) : EntryExecutionResult :=
  mkEntryResult ENTRY_FILLED FILLED (gi_client_order_id g) RC_OK (Some (gi_exchange_order_id g)) (gf_trade_ids f)
    (gf_quantity f) (Some (gf_price f)) (gf_fee f) (Some (gf_time f)) (gf_source f) dzero None None.

(** The protection of a newly projected position; [None] if it could not be activated. *)
Definition protect_gap (position_id : string) (c : TradeCandidate) (f : GapFill) (quantity tick_size : Dec) (attempt : Z) :
    SM CS (option (ProtectionPlan * ProtectionResult)) :=
  let! plan := slift (build_protection_plan position_id c (gf_price f) quantity tick_size attempt) in
  let! protection := at_venue (ensure_protection plan 2) in
  if protection_is_active protection then sret (Some (plan, protection))
  else failing "confirmed V2 entry recovery could not activate protection" ;;; sret None.

Definition persist_gap (q : CycleRequest) (decision : DecisionRow) (cycle : CycleRow) (c : TradeCandidate)
    (g : GapIdentity) (f : GapFill) (direction position_id : string)
    (protected : option (ProtectionPlan * ProtectionResult)) (project aggregate : bool) : SM CS unit :=
  let plan := fst <$> protected in
  in_store (persist_entry_and_protection (cy_cycle_id cycle) (Some (de_decision_id decision)) (gi_intent_id g)
    (cq_symbol q) direction (tc_strategy_id c) SAMPLING (cq_execution_mode q) (cy_bar_timestamp cycle)
    (cq_fencing_token q) (sz_max_leverage (cq_sizing q)) (gap_result g f) position_id (snd <$> protected)
    (pl_stop_price <$> plan) (plan ≫= pl_take_profit_price) (pl_stop_client_order_id <$> plan)
    (plan ≫= pl_tp_client_order_id)
    ((fun x => gf_quantity f * dabs (gf_price f - pl_stop_price x))%D <$> plan) project aggregate) ;;;
  note (position_projected_is true) ;;;
  note (protection_active_is (match protected with Some (_, r) => protection_is_active r | None => false end)).

(** [false]: the whole recovery returns. *)
Definition recover_open_gap (q : CycleRequest) (decision : DecisionRow) (cycle : CycleRow) (c : TradeCandidate)
    (g : GapIdentity) (f : GapFill) (direction : string) (p : ExchangePositionSnapshot) : SM CS bool :=
  let! market := at_venue (market_snapshot (cq_symbol q)) in
  let! existing := in_store (with_session (existing_position q direction)) in
  let '(position, version) := existing in
  let! position_id := match position with Some r => sret (mp_position_id r) | None => in_store new_uuid end in
  let existing_quantity := match position with Some r => mp_quantity r | None => dzero end in
  if match position with None => true | Some _ => (existing_quantity <? xp_quantity p)%D end then
    let quantity := match position with Some _ => xp_quantity p | None => gf_quantity f end in
    let! protected := protect_gap position_id c f quantity (ms_tick_size market) (version + 1) in
    match protected with
    | None => sret false
    | Some x =>
        persist_gap q decision cycle c g f direction position_id (Some x) true (bool_decide (is_Some position)) ;;;
        sret true
    end
  else
    (if (xp_quantity p <? existing_quantity)%D then
       in_store (with_session (
         reconcile_position_quantity_from_authoritative_snapshot position_id (xp_quantity p) (gf_time f) ;;; commit))
     else sret tt) ;;;
    persist_gap q decision cycle c g f direction position_id None false true ;;;
    sret true.

(** ** The loop *)

Inductive GapOutcome := GAP_SKIPPED | GAP_RECOVERED | GAP_STOPPED.

Definition recover_gap (q : CycleRequest) (snapshot : AuthoritativeAccountSnapshot) (decision : DecisionRow)
    (cycle : CycleRow) : SM CS GapOutcome :=
  let payload := de_payload decision in
  let! stages := slift (mappings_in (py_find payload "stages")) in
  let! identity := slift (gap_identity stages) in
  match identity with
  | None => sret GAP_SKIPPED
  | Some g =>
      let! taken := in_store (with_session (scalar (R := PositionRow) (fun p => String.eqb (mp_intent_id p) (gi_intent_id g)))) in
      match taken with
      | Some _ => sret GAP_SKIPPED
      | None =>
          let! side := slift (gap_side payload stages) in
          let direction := side_direction side in
          match position_at (cq_symbol q) direction snapshot with
          | None =>
              let! recovered := recover_flat_gap (cq_symbol q) g in
              sret (if (recovered : bool) then GAP_RECOVERED else GAP_SKIPPED)
          | Some p =>
              let! fill := at_venue (gap_fill (cq_symbol q) direction g p) in
              match fill with
              | None => sret GAP_SKIPPED
              | Some f =>
                  let! candidate := slift (gap_candidate payload stages cycle (cq_symbol q) side) in
                  match candidate with
                  | None => failing "P0_PROTECTION_RECOVERY_BLOCKED_GEOMETRY" ;;; sret GAP_STOPPED
                  | Some c =>
                      let! recovered := recover_open_gap q decision cycle c g f direction p in
                      sret (if (recovered : bool) then GAP_RECOVERED else GAP_STOPPED)
                  end
              end
          end
      end
  end.

Fixpoint recover_gaps (q : CycleRequest) (snapshot : AuthoritativeAccountSnapshot) (l : list (DecisionRow * CycleRow))
    (recovered_any : bool) : SM CS bool :=
  match l with
  | [] => sret recovered_any
  | (decision, cycle) :: l =>
      let! outcome := recover_gap q snapshot decision cycle in
      match outcome with
      | GAP_SKIPPED => recover_gaps q snapshot l recovered_any
      | GAP_RECOVERED => recover_gaps q snapshot l true
      | GAP_STOPPED => sret false
      end
  end.

(** The last twenty decisions of the symbol that ended in OK, with their cycles. *)
Definition entry_decisions (q : CycleRequest) (d : Db) : list (DecisionRow * CycleRow) :=
  let of_request c := String.eqb (cy_symbol c) (cq_symbol q) && bool_decide (cy_execution_mode c = cq_execution_mode q) in
  take 20 (newest_first (fun x => de_created_at x.1)
    (omap (fun x => c ← find_row (R := CycleRow) (de_cycle_id x) d; if of_request c then Some (x, c) else None)
       (bfilter (fun x => bool_decide (de_terminal_reason x = Some "OK"%string)) (decisions d)))).

Definition _recover_confirmed_v2_entry_gap (q : CycleRequest) (snapshot : AuthoritativeAccountSnapshot) : SM CS bool :=
  if negb (cq_persist_facts q) then sret false
  else
  let! rows := in_store (with_session (let! d := read_db in sret (entry_decisions q d))) in
  recover_gaps q snapshot rows false.
End gap.
