(* ===== verification/CycleRun.v ===== *)
(** * CycleRun: one trading cycle

    [run_automated_trading_cycle] of [application/cycle_service.py], in the order
    of the source: converge the local facts on the exchange, reconcile and
    recover, protect and exit what is open, decide, and enter.  [None] and
    [false] stand for the early returns. *)
From S2P Require Import Prelude PyDecimal PyValue State ClientOrderId Receipts Candidates PortfolioRisk RiskControls.
From S2P Require Import RuntimeLock Funnel Adapter Quantities Reconciliation Entry Exit Protection Recovery Indicators.
From S2P Require Import Database Repository RecoveryExecutor LocalState FactPersistence Decision Cycle CycleSteps.
From S2P Require Import CycleRecovery EntryGap.
Local Open Scope Z_scope.
Local Open Scope py_scope.

(** ** The payloads of the funnel *)

Section payloads.
Context (q : CycleRequest).

Definition authority_policy : string :=
  match cq_entry_authority q with
  | AUTH_TESTNET_CANARY => "AUTHORIZED_TESTNET_CANARY"
  | AUTH_TESTNET_FORWARD => "AUTHORIZED_TESTNET_FORWARD"
  | _ => "AUTHORIZED_PRODUCTION"
  end.

Definition not_ready_payload : FunnelPayload :=
  mkPayload "PRODUCTION" None "ENTRY_DATA_NOT_READY" None (ostr_or (cq_entry_data_reason q) "ENTRY_DATA_NOT_READY")
    "ENTRY_DATA_PENDING" (authority_value (cq_entry_authority q)) false "ENTRY_DATA_PENDING" None false [] None None
    (Some (ostr_or (cq_entry_data_reason q) "ENTRY_DATA_NOT_READY")) true.

Definition unauthorized_payload (reason : string) (blocker : option string) : FunnelPayload :=
  mkPayload "PRODUCTION" (Some "production_strategy_pending"%string) "RISK_APPROVED" None reason "ENTRY_PAUSED"
    (authority_value AUTH_NONE) false "ENTRY_BLOCKED" blocker false [] None None None false.

Definition no_signal_payload (o : DecisionOutcome) : FunnelPayload :=
  mkPayload "TESTNET_SAMPLING" (Some CANARY_STRATEGY_ID) (stage_value (do_terminal_stage o)) None
    (reason_value (do_reason_code o)) "AUTHORIZED_TESTNET_CANARY" (authority_value AUTH_TESTNET_CANARY) true
    "TRADING_READY" None false [] None None None false.

Definition no_candidate_payload : FunnelPayload :=
  mkPayload "PRODUCTION" (Some (ostr_or (cq_production_strategy q) "production_strategy")) "MANIFEST_EVALUATED" None
    (cq_production_decision_reason q) authority_policy (authority_value (cq_entry_authority q)) true "TRADING_READY" None
    (negb (bool_decide (cq_entry_authority q = AUTH_TESTNET_FORWARD))) [] None None None false.

Definition candidate_payload (c : TradeCandidate) : FunnelPayload :=
  mkPayload "PRODUCTION" (Some (tc_strategy_id c)) "MANIFEST_EVALUATED" None "CANDIDATE_READY" authority_policy
    (authority_value (cq_entry_authority q)) true "TRADING_READY" None
    (bool_decide (cq_entry_authority q = AUTH_PRODUCTION) && negb (tc_non_promotable c)) []
    (Some (tc_strategy_id c)) None None false.
End payloads.

(** ** What the gates are given *)

Definition refusal_value (r : EntryRefusal) : string :=
  match r with
  | ENTRY_PAUSED => "ENTRY_PAUSED"
  | UNKNOWN_ACTIVE_INTENT_RISK => "UNKNOWN_ACTIVE_INTENT_RISK"
  | PORTFOLIO_RISK PORTFOLIO_EQUITY_UNAVAILABLE => "PORTFOLIO_EQUITY_UNAVAILABLE"
  | PORTFOLIO_RISK PORTFOLIO_RISK_UNMEASURABLE => "PORTFOLIO_RISK_UNMEASURABLE"
  | PORTFOLIO_RISK MAX_OPEN_EXPOSURES => "MAX_OPEN_EXPOSURES"
  | PORTFOLIO_RISK PORTFOLIO_TOTAL_RISK_LIMIT => "PORTFOLIO_TOTAL_RISK_LIMIT"
  | PORTFOLIO_RISK CRYPTO_CLUSTER_RISK_LIMIT => "CRYPTO_CLUSTER_RISK_LIMIT"
  end.

Definition sampling_context (q : CycleRequest) (candidate_id : string) : DecisionContext :=
  mkContext (cq_cycle_id q) (cq_symbol q) TESTNET_SAMPLING CANARY_STRATEGY_ID (cq_sampling_strategy_version q)
    (cq_entry_timeframe q) (cq_direction_timeframe q) (cq_state_timeframe q) (cq_strict_sampling_alignment q)
    (cq_sampling_confirmation_bars q) (cq_now q) 120 (cq_already_evaluated_bars q) DEFAULT_MAX_ENTRY_DRIFT_BPS
    DEFAULT_CANDIDATE_TTL_SECONDS None None true None candidate_id.

Definition tradable (p : LocalPositionView) : bool := negb (bool_decide (lp_state p ∈ [CLOSED; QUARANTINED])).

Definition entry_runtime_of (q : CycleRequest) (local_state : LocalStateView) (recon : ReconciliationResult)
    (entry_enabled : bool) : EntryRuntimeContext :=
  mkRuntime (cq_engine_activation q) (cq_execution_mode q) (rc_status recon) (rc_entry_blocked_symbols recon)
    (cq_entry_kill_switch_active q || negb entry_enabled) false
    (cq_open_position_symbols q ∪ list_to_set (map lp_symbol (bfilter tradable (ls_positions local_state))))
    (cq_symbol_cooldown_active q) (cq_daily_trade_limit_reached q) true None None true false (Some (cq_now q)).

(** [replace(entry_runtime, theoretical_net_payoff=...)] *)
Definition with_net_payoff (payoff : Dec) (r : EntryRuntimeContext) : EntryRuntimeContext :=
  mkRuntime (rt_engine_activation r) (rt_execution_mode r) (rt_reconciliation_status r) (rt_entry_blocked_symbols r)
    (rt_entry_kill_switch_active r) (rt_recovery_entry_blocked r) (rt_open_position_symbols r)
    (rt_symbol_cooldown_active r) (rt_daily_trade_limit_reached r) (rt_manifest_eligible r)
    (rt_net_edge_after_cost_bps r) (Some payoff) (rt_risk_budget_available r) (rt_ai_advisory_veto r) (rt_now r).

(** The sides on which an operator's own position may be extended. *)
Definition baseline_directions (q : CycleRequest) (local_state : LocalStateView) : list string :=
  omap (fun kv => if String.prefix (cq_symbol q +:+ ":") kv.1 && (dzero <? kv.2)%D then Some (after_last_colon kv.1) else None)
    (ls_external_baseline local_state).

Definition canary_open_positions (q : CycleRequest) : Z :=
  match sz_max_open_positions (cq_sizing q) with
  | Some n => if n =? 0 then CANARY_MAX_OPEN_POSITIONS else n
  | None => CANARY_MAX_OPEN_POSITIONS
  end.
Definition open_positions_limit (q : CycleRequest) (canary : bool) : Z :=
  if canary then canary_open_positions q else MAX_OPEN_POSITIONS.
Definition total_risk_limit (q : CycleRequest) (canary : bool) : option Dec :=
  let limit := sz_max_total_exposure (cq_sizing q) in
  if canary then Some (if (limit =? mkDec 750 (-2))%D then CANARY_MAX_TOTAL_EXPOSURE else limit) else None.

Definition decision_bar_time (q : CycleRequest) : datetime :=
  match last_closed (cq_entry_timeframe q) with Some b => bar_timestamp b | None => cq_now q end.

Section run.
Context {H : CycleHost} {W : Type} {A : CycleAdapter W} (q : CycleRequest).
Notation CS := (CycleSteps.CS (W := W)).

(** ** Convergence on the exchange *)

Definition clean_protections (snapshot : AuthoritativeAccountSnapshot) : SM CS unit :=
  let open_orders := list_to_set (map xo_exchange_order_id (as_pending_orders snapshot)) : gset string in
  if reconcile_existing_positions q then
    stry (in_store (reconcile_closed_position_protections (cq_execution_mode q) (cq_symbol q)
            (sorted_texts (elements open_orders)) (as_snapshot_timestamp snapshot)) ;;; sret tt)
      (fun _ => Some (failing "closed protection reconciliation failed"))
  else sret tt.

Definition recover_exits (snapshot : AuthoritativeAccountSnapshot) : SM CS unit :=
  stry (_recover_confirmed_v2_exit_gaps q snapshot ;;; sret tt)
    (fun _ => Some (note projection_incomplete ;;; failing "confirmed V2 exit recovery failed")).

Definition LocalLoad : Type := option (LocalStateView * ClaimRefs).
Definition local_load (fail_closed : bool) : SM CS LocalLoad := in_store (_build_local_state (cq_execution_mode q) fail_closed).

(** A recovered entry is read again, with the account. *)
Definition recover_entries (snapshot : AuthoritativeAccountSnapshot) (load : LocalLoad) :
    SM CS (AuthoritativeAccountSnapshot * LocalLoad) :=
  if cq_persist_facts q && bool_decide (is_Some load) then
    let! recovered := stry (_recover_confirmed_v2_entry_gap q snapshot)
                        (fun _ => Some (failing "confirmed V2 entry recovery failed" ;;; sret false)) in
    if (recovered : bool) then
      let! snapshot := at_venue fetch_authoritative_snapshot in
      let! load := local_load true in
      sret (snapshot, load)
    else sret (snapshot, load)
  else sret (snapshot, load).

Definition unavailable_snapshot (tag : string) : SM CS unit := failing tag ;;; note (reconciliation_is UNAVAILABLE).

Definition project_exits (snapshot : AuthoritativeAccountSnapshot) (load : LocalLoad) :
    SM CS (option (AuthoritativeAccountSnapshot * LocalLoad)) :=
  let! changed := match load with
                  | Some (state, _) =>
                      if reconcile_existing_positions q then _project_confirmed_protection_exits q snapshot state
                      else sret false
                  | None => sret false
                  end in
  if (changed : bool) then
    stry_else (at_venue fetch_authoritative_snapshot)
      (fun _ => Some (unavailable_snapshot "post-exit snapshot fetch failed" ;;; sret None))
      (fun snapshot => let! load := local_load true in sret (Some (snapshot, load)))
  else sret (Some (snapshot, load)).

Definition authoritative_snapshot : SM CS (option AuthoritativeAccountSnapshot) :=
  match cq_authoritative_snapshot q with
  | Some s => sret (Some s)
  | None => stry_else (at_venue fetch_authoritative_snapshot)
              (fun _ => Some (unavailable_snapshot "snapshot fetch failed" ;;; sret None)) (fun s => sret (Some s))
  end.

(** The account and the local state; [None] where a snapshot could not be read. *)
Definition converge : SM CS (option (AuthoritativeAccountSnapshot * LocalLoad)) :=
  let! snapshot := authoritative_snapshot in
  match snapshot with
  | None => sret None
  | Some snapshot =>
      clean_protections snapshot ;;;
      recover_exits snapshot ;;;
      let! load := local_load (cq_persist_facts q) in
      let! entries := recover_entries snapshot load in
      project_exits entries.1 entries.2
  end.

(** ** Reconciliation and recovery *)

Definition pending_views (local_state : LocalStateView) : list PendingIntentView :=
  map (fun i => mkPendingIntent (li_intent_id i) (li_symbol i) (li_client_order_id i) (li_state i)) (ls_intents local_state).

(** While a terminal exit may be unread, no ghost is quarantined. *)
Definition undeferred (incomplete : bool) (actions : list RecoveryAction) : list RecoveryAction :=
  if incomplete then bfilter (fun a => negb (is_type_of QUARANTINE_LOCAL_GHOST_POSITION a)) actions else actions.

Definition recover (snapshot : AuthoritativeAccountSnapshot) (local_state : LocalStateView) (recon : ReconciliationResult) :
    SM CS unit :=
  if bool_decide (rc_status recon = HEALTHY) then sret tt
  else
  let recovery := recover_pending_state (Some snapshot) recon (Some local_state) (pending_views local_state) [] None in
  let! r := result_now in
  let actions := undeferred (cr_terminal_exit_projection_incomplete r) (rr_actions recovery) in
  if is_nonempty actions then
    let! step_size := at_venue (_fetch_step_size (cq_symbol q)) in
    let! execution := in_world (execute_recovery_actions account_writer_valid actions snapshot (Some local_state) step_size) in
    if is_nonempty (re_errors execution) then failing "recovery execution errors" else sret tt
  else sret tt.

(** The local state, its reconciliation, and whether the entry is blocked by it. *)
Definition reconcile_cycle (snapshot : AuthoritativeAccountSnapshot) (load : LocalLoad) :
    SM CS (LocalStateView * ReconciliationResult * bool) :=
  match load with
  | None =>
      failing "LOCAL_STATE_UNAVAILABLE" ;;;
      note (reconciliation_is UNAVAILABLE) ;;;
      let! recon := slift (reconcile (Some snapshot) empty_local_state None (Some (cq_now q)) ∅) in
      sret (empty_local_state, recon, true)
  | Some (local_state, refs) =>
      let! recon := slift (reconcile (Some snapshot) local_state None (Some (cq_now q)) refs) in
      note (reconciliation_is (rc_status recon)) ;;;
      let! blocked := (if reconcile_existing_positions q then
                         stry (in_store (_persist_reconciliation_fact q snapshot local_state recon) ;;; sret false)
                           (fun _ => Some (failing "reconciliation persistence failed" ;;;
                                           note (reconciliation_is UNAVAILABLE) ;;; sret true))
                       else sret false) in
      recover snapshot local_state recon ;;;
      sret (local_state, recon, blocked)
  end.

(** ** Protection and exits *)

Definition protect_profits (snapshot : AuthoritativeAccountSnapshot) (local_state : LocalStateView) (step_size : Dec) :
    SM CS unit :=
  stry (_apply_profit_protection q snapshot local_state step_size)
    (fun _ => Some (failing "profit protection update failed")).

(** The order of an approved exit, between its intent and its outcome. *)
Definition submit_exit (p : LocalPositionView) (ex_pos : option ExchangePositionSnapshot) (reason : ExitReason)
    (decision : ExitDecision) (step_size : Dec) : SM CS unit :=
  let! result := at_venue (execute_reduce_only_exit decision
    (match ex_pos with Some x => xp_quantity x | None => lp_quantity p end) step_size []) in
  (if bool_decide (xr_status result ∈ [EXIT_NOT_ATTEMPTED; ALREADY_FLAT_RECONCILED]) then sret tt
   else note (exit_submitted_is true)) ;;;
  if cq_persist_facts q then
    stry (in_store (persist_exit_submission_result (lp_position_id p) result))
      (fun _ => Some (failing "exit submission persistence failed")) ;;;
    if bool_decide (xr_status result ∈ [EXIT_CLOSED; PARTIALLY_REDUCED]) then
      stry (in_store (persist_exit_result (cq_cycle_id q) (lp_position_id p) (cq_execution_mode q) reason result
                        (cq_fencing_token q) None))
        (fun _ => Some (failing "exit fill persistence failed"))
    else sret tt
  else sret tt.

Definition exit_position (snapshot : AuthoritativeAccountSnapshot) (step_size : Dec) (p : LocalPositionView) : SM CS unit :=
  if negb (String.eqb (lp_symbol p) (cq_symbol q)) || negb (tradable p) then sret tt
  else
  let ex_pos := position_at (cq_symbol q) (lp_direction p) snapshot in
  let already_flat := match ex_pos with None => true | Some x => (xp_quantity x <=? dzero)%D end in
  if negb already_flat && bool_decide (cq_forced_exit_reason q = None) then sret tt
  else
  let reason := default HARD_STOP (cq_forced_exit_reason q) in
  let! valid := at_venue (_account_writer_valid_for_adapter (cq_execution_mode q)) in
  let! decision := slift (evaluate_exit (lp_position_id p) (lp_symbol p) (lp_direction p) reason (lp_quantity p) ex_pos
    step_size 1 (Some valid) true) in
  if negb (exit_approved decision) then sret tt
  else if cq_persist_facts q then
    stry_else (in_store (persist_exit_intent_before_submission (cq_cycle_id q) (lp_position_id p) (cq_execution_mode q)
                 reason (xd_client_order_id decision) (xd_quantity decision) (cq_fencing_token q) (cq_now q)))
      (fun _ => Some (failing "exit pre-submission persistence failed"))
      (fun _ => submit_exit p ex_pos reason decision step_size)
  else submit_exit p ex_pos reason decision step_size.

Fixpoint exit_positions (snapshot : AuthoritativeAccountSnapshot) (step_size : Dec) (l : list LocalPositionView) : SM CS unit :=
  match l with
  | [] => sret tt
  | p :: l => exit_position snapshot step_size p ;;; exit_positions snapshot step_size l
  end.

Definition manage_positions (snapshot : AuthoritativeAccountSnapshot) (local_state : LocalStateView) : SM CS unit :=
  let! step_size := at_venue (_fetch_step_size (cq_symbol q)) in
  protect_profits snapshot local_state step_size ;;;
  exit_positions snapshot step_size (ls_positions local_state).

(** ** The candidate *)

(** The host's values are drawn by index: the funnel's id and time, the
    candidate's id, one time for each stage. *)
Definition decide_sampling : SM CS DecisionOutcome := in_store (fun s =>
  let n := s_draws s in
  (evaluate_symbol (fun stage => clock (n + 3 + Z.to_nat (order stage))%nat) (sampling_context q (uuid4 (n + 2)))
     (uuid4 n) (clock (n + 1)),
   mkSession (s_committed s) (s_db s) (n + 3 + length all_stages))).

Definition finish_without_entry (entry_enabled : bool) (p : FunnelPayload) : SM CS (option TradeCandidate) :=
  note (payload_is p) ;;;
  note (_apply_runtime_entry_pause entry_enabled) ;;;
  sret None.

(** May a supplied candidate be traded under the production authority? *)
Definition production_candidate_ok (c : TradeCandidate) : bool :=
  cq_production_authorized q && is_lane (tc_lane c) PRODUCTION && is_type (tc_candidate_type c) PRIMARY
  && negb (tc_non_promotable c).

Definition choose_production (entry_enabled : bool) : SM CS (option TradeCandidate) :=
  let unauthorized := finish_without_entry entry_enabled
    (unauthorized_payload (reason_value RC_NO_AUTHORIZED_PRODUCTION_STRATEGY) None) in
  match cq_production_candidate q with
  | None =>
      if bool_decide (cq_entry_authority q ∈ [AUTH_PRODUCTION; AUTH_TESTNET_FORWARD]) && cq_production_authorized q
      then finish_without_entry entry_enabled (no_candidate_payload q)
      else unauthorized
  | Some c => if production_candidate_ok c then sret (Some c) else unauthorized
  end.

Definition choose_sampling (entry_enabled : bool) : SM CS (option TradeCandidate) :=
  let! sampling := decide_sampling in
  note (decision_is sampling) ;;;
  match do_candidate sampling with
  | None => finish_without_entry entry_enabled (no_signal_payload sampling)
  | Some c =>
      sassert (_sampling_execution_allowed q c) (OtherException "RuntimeError") ;;;
      sret (Some c)
  end.

Definition paused_reason : string :=
  if cq_production_authorized q then cq_production_decision_reason q
  else if str_truthy (cq_entry_authority_reason q) then cq_entry_authority_reason q
  else reason_value RC_NO_AUTHORIZED_PRODUCTION_STRATEGY.

(** The candidate of the cycle, or its terminal payload. *)
Definition choose_candidate (entry_enabled : bool) : SM CS (option TradeCandidate) :=
  if negb (cq_entry_data_ready q) then note (payload_is (not_ready_payload q)) ;;; sret None
  else match cq_entry_authority q with
  | AUTH_NONE =>
      let! sampling := decide_sampling in
      note (decision_is sampling) ;;;
      finish_without_entry entry_enabled (unauthorized_payload paused_reason (Some paused_reason))
  | AUTH_TESTNET_CANARY => choose_sampling entry_enabled
  | _ => choose_production entry_enabled
  end.
End run.
