(* ===== verification/CycleEntry.v ===== *)
(** * CycleEntry: the entry of one cycle

    The rest of [run_automated_trading_cycle] of [application/cycle_service.py]:
    the gates of a chosen candidate, its sizing, the reservation of its intent,
    the submission, and the protection of what was filled; then the cycle as a
    whole. *)
From S2P Require Import Prelude PyDecimal PyValue State ClientOrderId Receipts Candidates PortfolioRisk RiskControls.
From S2P Require Import RuntimeLock Funnel Adapter Quantities Reconciliation Entry Exit Protection Database Repository.
From S2P Require Import RecoveryExecutor LocalState FactPersistence Cycle CycleSteps CycleRecovery EntryGap CycleRun.
Local Open Scope Z_scope.
Local Open Scope py_scope.

Section entry.
Context {H : CycleHost} {W : Type} {A : CycleAdapter W} (q : CycleRequest).
Notation CS := (CycleSteps.CS (W := W)).

Definition stage (name outcome reason : string) : SM CS unit := note (add_stage name outcome reason).
Definition set_reason (reason : string) : SM CS unit := note (with_payload (payload_reason reason)).

(** ** Gates *)

(** Is the candidate still to be traded? *)
Definition candidate_stage (local_state : LocalStateView) (entry_enabled : bool) (c : TradeCandidate) : SM CS bool :=
  note (payload_is (candidate_payload q c)) ;;;
  note (_apply_runtime_entry_pause entry_enabled) ;;;
  if tc_non_promotable c && negb (bool_decide (cq_entry_authority q = AUTH_TESTNET_CANARY)) then
    note (with_payload (payload_policy "DECISION_TRACE_ONLY")) ;;; sret false
  else
  let directions := baseline_directions q local_state in
  if is_nonempty directions && negb (bool_decide (tc_direction c ∈ directions)) then
    stage "RISK_APPROVED" "REJECTED" (reason_value RC_MANUAL_POSITION_DIRECTION_CONFLICT) ;;; sret false
  else sret true.

Definition reconciliation_stage (recon : ReconciliationResult) (blocked_local : bool) : SM CS unit :=
  if bool_decide (rc_status recon = HEALTHY) && negb blocked_local then stage "RECONCILIATION_HEALTHY" "PASSED" "OK"
  else stage "RECONCILIATION_HEALTHY" "REJECTED"
         (if bool_decide (rc_status recon = UNAVAILABLE) then "RECONCILIATION_UNAVAILABLE"
          else recon_status_value (rc_status recon)).

Definition risk_stage (c : TradeCandidate) (runtime : EntryRuntimeContext) : SM CS bool :=
  let! gate := slift (evaluate_entry c runtime None) in
  if gate_approved gate then stage "RISK_APPROVED" "PASSED" "OK" ;;; sret true
  else
    stage "RISK_APPROVED" "REJECTED" (reason_value (eg_reason_code gate)) ;;;
    (if cq_persist_facts q then
       stry (slift (review_skip q ("RISK_BLOCKED:" +:+ reason_value (eg_reason_code gate))))
         (fun _ => Some (failing "AI skip persistence failed"))
     else sret tt) ;;;
    note (with_payload (_append_funnel_stage "AI_REVIEWED" "SKIPPED" "AI_REVIEW_DISABLED" false)) ;;;
    sret false.

(** The review is advisory: whatever it answers, the cycle goes on. *)
Definition review_stage (c : TradeCandidate) : SM CS unit :=
  let! status := (if cq_persist_facts q then
                    stry (slift (trade_review q c)) (fun _ => Some (failing "AI trade review failed" ;;; sret "error"%string))
                  else sret "skipped"%string) in
  if String.eqb status "passed" then stage "AI_REVIEWED" "PASSED" "OK"
  else stage "AI_REVIEWED" "SKIPPED" "AI_PROVIDER_UNAVAILABLE".

Definition market_stage : SM CS (option PreSubmitMarketSnapshot) :=
  stry_else (at_venue (market_snapshot (cq_symbol q)))
    (fun _ => Some (
       failing "market snapshot fetch failed" ;;;
       stage "PRICE_DRIFT_APPROVED" "ERROR" "EXCHANGE_UNAVAILABLE" ;;; sret None))
    (fun m => sret (Some m)).

Definition funding_unavailable_reason : option string :=
  let status := match cq_funding_bps q with Some _ => cq_funding_status q | None => "MISSING"%string end in
  if String.eqb status "MISSING" then Some "FUNDING_RATE_UNAVAILABLE"%string
  else if String.eqb status "STALE" then Some "FUNDING_RATE_STALE"%string
  else None.

(** The runtime with the payoff of the cost gate, where that gate may block. *)
Definition cost_stage (c : TradeCandidate) (market : PreSubmitMarketSnapshot) (runtime : EntryRuntimeContext) :
    SM CS (option EntryRuntimeContext) :=
  let blocking := bool_decide (_resolve_r2_cost_gate_policy q c = R2_BLOCKING) in
  match funding_unavailable_reason, cq_funding_bps q with
  | Some reason, _ =>
      if blocking then stage "PRICE_DRIFT_APPROVED" "REJECTED" reason ;;; sret None else sret (Some runtime)
  | None, Some raw_funding_bps =>
      let! funding := slift (resolve_effective_funding_bps raw_funding_bps (tc_side c)) in
      let! cost := slift (calculate_cost_gate (ms_current_price market) (tc_stop_distance c) (tc_take_profit_distance c)
        DEFAULT_TAKER_FEE_BPS (Some funding) None DEFAULT_ROUND_TRIP_SLIPPAGE_BPS R2_MIN_THEORETICAL_NET_PAYOFF) in
      sret (Some (if blocking then with_net_payoff (cg_theoretical_net_payoff cost) runtime else runtime))
  | None, None => sret (Some runtime)
  end.

Definition drift_stage (c : TradeCandidate) (market : PreSubmitMarketSnapshot) (runtime : EntryRuntimeContext) :
    SM CS (option EntryGateResult) :=
  let! gate := slift (evaluate_entry c runtime (Some market)) in
  if gate_approved gate then stage "PRICE_DRIFT_APPROVED" "PASSED" "OK" ;;; sret (Some gate)
  else stage "PRICE_DRIFT_APPROVED" "REJECTED" (reason_value (eg_reason_code gate)) ;;; sret None.

(** ** Sizing and risk *)

Definition entry_quantity (snapshot : AuthoritativeAccountSnapshot) (market : PreSubmitMarketSnapshot) (c : TradeCandidate) :
    res Dec :=
  let notional := _calculate_quantity q snapshot (Some (tc_stop_distance c)) (Some (ms_current_price market)) (Some c) in
  ddiv notional (ms_current_price market) ≫= fun x => round_quantity_to_step x (ms_step_size market).

(** The durable budget: its decision with the reason to refuse, if any. *)
Definition portfolio_verdict (snapshot : AuthoritativeAccountSnapshot) (c : TradeCandidate) (risk : Dec) (canary : bool) :
    SM CS (option PortfolioRiskDecision * option string) :=
  stry (let! d := in_store (_evaluate_durable_portfolio_risk q c snapshot risk (Some (open_positions_limit q canary))
                              (total_risk_limit q canary)) in
        sret (match d with
              | Some d => (Some d, (fun r => refusal_value (PORTFOLIO_RISK r)) <$> pr_reason_code d)
              | None => (None, Some (refusal_value UNKNOWN_ACTIVE_INTENT_RISK))
              end))
    (fun _ => Some (failing "portfolio risk evaluation failed" ;;; sret (None, Some "PORTFOLIO_RISK_UNAVAILABLE"%string))).

Definition portfolio_passed (reason : option string) : SM CS bool :=
  match reason with
  | None => stage "PORTFOLIO_RISK_APPROVED" "PASSED" "OK" ;;; sret true
  | Some r => stage "PORTFOLIO_RISK_APPROVED" "REJECTED" r ;;; set_reason r ;;; sret false
  end.
Definition portfolio_stopped (outcome reason : string) : SM CS bool :=
  set_reason reason ;;; stage "PORTFOLIO_RISK_APPROVED" outcome reason ;;; sret false.

Definition portfolio_stage (snapshot : AuthoritativeAccountSnapshot) (c : TradeCandidate) (risk : Dec) (canary : bool) :
    SM CS bool :=
  if negb (cq_persist_facts q) then portfolio_passed None
  else
  let! verdict := portfolio_verdict snapshot c risk canary in
  match verdict with
  | (None, Some reason) => portfolio_stopped "ERROR" reason
  | (Some d, reason) =>
      if portfolio_risk_blocks d canary then portfolio_stopped "REJECTED" (default EmptyString reason)
      else portfolio_passed (if canary then None else reason)
  | (None, None) => portfolio_passed None
  end.

(** ** The intent *)

(** The intent is durable and reserved before the exchange hears of it. *)
Definition reserve_stage (intent_id : string) (snapshot : AuthoritativeAccountSnapshot) (c : TradeCandidate) (risk : Dec)
    (canary : bool) : SM CS bool :=
  stage "INTENT_CREATED" "PASSED" (reason_value RC_ENTRY_INTENT_CREATED) ;;;
  if negb (cq_persist_facts q) then sret true
  else
  stry_else (in_store (persist_entry_intent_before_submission (cq_cycle_id q) (cq_decision_id q) intent_id (cq_symbol q)
      (tc_direction c) (tc_strategy_id c) (tc_candidate_type c) (cq_execution_mode q) (decision_bar_time q)
      (cq_fencing_token q) risk (Some (as_equity snapshot)) (negb canary) (open_positions_limit q canary)))
    (fun _ => Some (
       failing "intent persistence failed before exchange submission" ;;;
       stage "INTENT_DURABLE" "ERROR" "LOCAL_STATE_UNAVAILABLE" ;;; sret false))
    (fun refusal => match refusal with
     | Some r => set_reason (refusal_value r) ;;; sret false
     | None => sret true
     end).

(** The kill switch is read again; the source does so twice in a row. *)
Definition authorized_now : SM CS bool :=
  if negb (cq_persist_facts q) then sret true
  else
  let! enabled := in_store _runtime_entry_enabled in
  if (enabled : bool) then sret true
  else
    note blocked_by_runtime_control ;;;
    stage "ENTRY_SUBMISSION_AUTHORIZED" "REJECTED" (reason_value RC_ENTRY_KILL_SWITCH_ACTIVE) ;;;
    sret false.

(** ** The submission *)

Definition submit_entry (intent_id : string) (snapshot : AuthoritativeAccountSnapshot) (market : PreSubmitMarketSnapshot)
    (c : TradeCandidate) (gate : EntryGateResult) (quantity : Dec) (canary : bool) : SM CS EntryExecutionResult :=
  let leverage := sz_max_leverage (cq_sizing q) in
  let! r := at_venue (execute_entry c gate market intent_id quantity leverage (cq_engine_activation q)
    (if canary then Some (as_equity snapshot) else None)
    (if canary then Some (sz_max_margin_fraction (cq_sizing q)) else None) canary) in
  (if cq_persist_facts q then
     stry (in_store (persist_entry_submission_result intent_id leverage r))
       (fun _ => Some (failing "exchange acknowledgement persistence failed"))
   else sret tt) ;;;
  note (entry_submitted_is (negb (bool_decide (ex_status r ∈ [NOT_ATTEMPTED; SHADOW_REHEARSED])))) ;;;
  stage "EXCHANGE_SUBMITTED" (if ostr_truthy (ex_exchange_order_id r) then "PASSED" else "REJECTED")
    (reason_value (ex_reason_code r)) ;;;
  sret r.

Definition guard_stages (intent_id : string) (r : EntryExecutionResult) : SM CS unit :=
  let! closed := (if cq_persist_facts q then _recover_confirmed_margin_guard_lifecycle q intent_id r else sret false) in
  if (closed : bool) then
    stage "EXCHANGE_FILLED" "PASSED" "OK" ;;;
    stage "POSITION_PROJECTED" "PASSED" "OK" ;;;
    stage "EXIT_FILLED" "PASSED" "CANARY_MARGIN_CEILING" ;;;
    stage "POSITION_CLOSED" "PASSED" "CANARY_MARGIN_CEILING"
  else sret tt.

(** What is known of the protection when its submission ended or failed. *)
Definition protect_entry (position_id : string) (c : TradeCandidate) (market : PreSubmitMarketSnapshot)
    (r : EntryExecutionResult) : SM CS (option ProtectionPlan * option ProtectionResult) :=
  stry_else (slift (build_protection_plan position_id c (default dzero (ex_average_fill_price r)) (ex_filled_quantity r)
               (ms_tick_size market) 1))
    (fun _ => Some (failing "protection error" ;;; sret (None, None)))
    (fun plan =>
       stry_else (at_venue (ensure_protection plan 2))
         (fun _ => Some (failing "protection error" ;;; sret (Some plan, None)))
         (fun protection =>
            note (protection_active_is (protection_is_active protection)) ;;;
            (if protection_is_active protection then sret tt else failing "protection failed") ;;;
            sret (Some plan, Some protection))).

Definition project_entry (intent_id : string) (market : PreSubmitMarketSnapshot) (c : TradeCandidate) (risk : Dec)
    (r : EntryExecutionResult) : SM CS unit :=
  stage "EXCHANGE_FILLED" "PASSED" "OK" ;;;
  note (position_projected_is true) ;;;
  stage "POSITION_PROJECTED" "PASSED" "OK" ;;;
  let! position_id := in_store new_uuid in
  let! x := protect_entry position_id c market r in
  let plan := x.1 in
  (if cq_persist_facts q then
     stry (in_store (persist_entry_and_protection (cq_cycle_id q) (cq_decision_id q) intent_id (cq_symbol q)
         (tc_direction c) (tc_strategy_id c) (tc_candidate_type c) (cq_execution_mode q) (decision_bar_time q)
         (cq_fencing_token q) (sz_max_leverage (cq_sizing q)) r position_id x.2 (pl_stop_price <$> plan)
         (plan ≫= pl_take_profit_price) (pl_stop_client_order_id <$> plan) (plan ≫= pl_tp_client_order_id) (Some risk)
         true false))
       (fun _ => Some (failing "fact persistence failed"))
   else sret tt) ;;;
  let! result := result_now in
  if cr_protection_active result then stage "PROTECTION_CONFIRMED" "PASSED" "OK"
  else stage "PROTECTION_CONFIRMED" "ERROR" "PROTECTION_FAILED".

(** The submission of a reserved intent and what follows from its result. *)
Definition execute_reserved (intent_id : string) (snapshot : AuthoritativeAccountSnapshot) (market : PreSubmitMarketSnapshot)
    (c : TradeCandidate) (gate : EntryGateResult) (quantity risk : Dec) (canary : bool) : SM CS unit :=
  let! r := submit_entry intent_id snapshot market c gate quantity canary in
  if ostr_truthy (ex_guard_exchange_order_id r) && ostr_truthy (ex_guard_client_order_id r) then guard_stages intent_id r
  else if negb (position_projectable r) then sret tt
  else project_entry intent_id market c risk r.

(** ** The whole *)

(** From the sizing of an approved candidate to the end of the cycle. *)
Definition size_and_submit (snapshot : AuthoritativeAccountSnapshot) (market : PreSubmitMarketSnapshot) (c : TradeCandidate)
    (gate : EntryGateResult) : SM CS unit :=
  let canary := _is_testnet_canary_sampling q (Some c) in
  let! quantity := slift (entry_quantity snapshot market c) in
  let risk := _candidate_initial_risk_usdt quantity (Some (tc_stop_distance c)) in
  let! approved := portfolio_stage snapshot c risk canary in
  if negb approved then sret tt
  else
  let! intent_id := in_store new_uuid in
  let! reserved := reserve_stage intent_id snapshot c risk canary in
  if negb reserved then sret tt
  else
  let! first := authorized_now in
  if negb first then sret tt
  else
  let! second := authorized_now in
  if negb second then sret tt
  else execute_reserved intent_id snapshot market c gate quantity risk canary.

(** The gates of a candidate at the market. *)
Definition market_gates (c : TradeCandidate) (runtime : EntryRuntimeContext) :
    SM CS (option (PreSubmitMarketSnapshot * EntryGateResult)) :=
  review_stage c ;;;
  let! market := market_stage in
  match market with
  | None => sret None
  | Some m =>
      let! runtime := cost_stage c m runtime in
      match runtime with
      | None => sret None
      | Some runtime => let! gate := drift_stage c m runtime in sret (gate ≫= fun g => Some (m, g))
      end
  end.

Definition enter (snapshot : AuthoritativeAccountSnapshot) (local_state : LocalStateView) (recon : ReconciliationResult)
    (blocked_local entry_enabled : bool) (c : TradeCandidate) : SM CS unit :=
  let! continued := candidate_stage local_state entry_enabled c in
  if negb continued then sret tt
  else
  reconciliation_stage recon blocked_local ;;;
  let runtime := entry_runtime_of q local_state recon entry_enabled in
  let! approved := risk_stage c runtime in
  if negb approved then sret tt
  else
  let! gates := market_gates c runtime in
  match gates with
  | None => sret tt
  | Some (market, gate) => size_and_submit snapshot market c gate
  end.

Definition cycle_body : SM CS unit :=
  let! entry_enabled := (if cq_persist_facts q then in_store _runtime_entry_enabled else sret true) in
  let! converged := converge q in
  match converged with
  | None => sret tt
  | Some (snapshot, load) =>
      let! x := reconcile_cycle q snapshot load in
      let '(local_state, recon, blocked_local) := x in
      manage_positions q snapshot local_state ;;;
      let! candidate := choose_candidate q entry_enabled in
      match candidate with
      | None => sret tt
      | Some c => enter snapshot local_state recon blocked_local entry_enabled c
      end
  end.
End entry.

Section cycle.
Context {H : CycleHost} {W : Type} {A : CycleAdapter W}.

Definition run_automated_trading_cycle (request : CycleRequest) : SM (RecoveryExecutor.World (W := W)) CycleResult := fun w =>
  let '(x, (w', result)) := cycle_body (canary_request request) (w, new_result) in
  (x ≫= fun _ => Ok result, w').
End cycle.
