(* ===== verification/CycleLaws.v ===== *)
(** * CycleLaws: what a whole cycle keeps

    A cycle is, apart from the submission of its entry, made of programs of two
    kinds: operations of the adapter that do not open exposure, and programs that
    move the committed tables as the repository may.  Whatever both keep is kept
    by the cycle; the theorems are instances. *)
From S2P Require Import Prelude PyDecimal PyValue State ClientOrderId Receipts Candidates PortfolioRisk RiskControls.
From S2P Require Import RuntimeLock Funnel Adapter Quantities Reconciliation Entry Exit Protection Recovery AccountWriter.
From S2P Require Import BinanceAdapter Composition Database Repository Transactions Ledger ExchangeFirst RecoveryExecutor.
From S2P Require Import RecoveryRun LocalState Canonical Evidence FactPersistence FactLaws Cycle CycleSteps CycleRecovery.
From S2P Require Import EntryGap CycleRun CycleEntry.
Local Open Scope Z_scope.
Local Open Scope py_scope.

(** ** The two kinds of programs *)

(** What the operations that do not open exposure keep. *)
Section managing.
Context {W : Type} {A : CycleAdapter W} (P : W -> Prop).
Record managing_keeps : Prop := {
  mk_derisking : derisking_keeps P;
  mk_query : forall symbol id, preserves P (query_order_by_client_id symbol id);
  mk_writer : preserves P account_writer_valid;
  mk_market : forall symbol, preserves P (market_snapshot symbol);
  mk_replace : forall f, stop_replacement = Some f -> forall a b c d e, preserves P (f a b c d e);
  mk_status : forall f, filled_order_by_id = Some f -> forall a b, preserves P (f a b) }.
End managing.

Section kept.
Context {H : CycleHost} {W : Type} {A : CycleAdapter W} (rel : Db -> Db -> Prop) `{!FactRel rel}.
Notation World := (RecoveryExecutor.World (W := W)).
Notation CS := (CycleSteps.CS (W := W)).
Context (P : World -> Prop).
Context (Hup : forall w s s', P (w, s) -> rel (s_committed s) (s_committed s') -> P (w, s')).
Context (Hv : forall s, managing_keeps (fun w => P (w, s))).

Notation kept := (preserves (fun cs : CS => P cs.1)).

(** Programs of the database, and what they may do to the committed tables. *)
Definition moving {X} (m : SM Session X) : Prop := forall d0, preserves (fun s => rel d0 (s_committed s)) m.

Lemma moving_fact {X} (m : SM Session X) : fact_program X m -> moving m.
Proof. intros Hm d0. by apply fact_program_kept. Qed.
Lemma moving_session {X} (m : SM Session X) : advances rel m -> moving (with_session m).
Proof. intros Hm d0. by apply session_kept. Qed.
Lemma moving_same {X} (m : SM Session X) : (forall s, s_committed (m s).2 = s_committed s) -> moving m.
Proof. intros Hm d0 s r s' Hs E. pose proof (Hm s) as Hc. rewrite E in Hc. simpl in Hc. by rewrite Hc. Qed.

Lemma world_kept {X} (m : SM World X) : preserves P m -> kept (in_world m).
Proof. intros Hm [w x] r [w' x'] Hs. unfold in_world. destruct (m w) as [y w1] eqn:E. intros [= <- <- <-]. by eapply Hm. Qed.
Lemma adapter_kept {X} (m : SM W X) : (forall s, preserves (fun w => P (w, s)) m) -> preserves P (on_adapter m).
Proof. intros Hm [w s] r [w' s'] Hs. unfold on_adapter. destruct (m w) as [y w1] eqn:E. intros [= <- <- <-]. by eapply Hm. Qed.
Lemma on_store_kept {X} (m : SM Session X) : moving m -> preserves P (on_store m).
Proof.
  intros Hm [w s] r [w' s'] Hs. unfold on_store. destruct (m s) as [y s1] eqn:E. intros [= <- <- <-].
  eapply Hup; [exact Hs|]. eapply Hm; [|exact E]. reflexivity.
Qed.
Lemma venue_kept {X} (m : SM W X) : (forall s, preserves (fun w => P (w, s)) m) -> kept (at_venue m).
Proof. intros. by apply world_kept, adapter_kept. Qed.
Lemma store_kept {X} (m : SM Session X) : moving m -> kept (in_store m).
Proof. intros. by apply world_kept, on_store_kept. Qed.
Lemma note_kept f : kept (note f).
Proof. by intros [w x] r [w' x'] Hs [= <- <- <-]. Qed.
Lemma result_now_kept : kept result_now.
Proof. by intros [w x] r [w' x'] Hs [= <- <- <-]. Qed.

Ltac kept1 :=
  lazymatch goal with
  | |- preserves _ (sret _) => apply preserves_ret
  | |- preserves _ (sraise _) => apply preserves_raise
  | |- preserves _ (slift _) => apply preserves_lift
  | |- preserves _ (sassert _ _) => apply preserves_assert
  | |- preserves _ (note _) => apply note_kept
  | |- preserves _ (failing _) => apply note_kept
  | |- preserves _ (stage _ _ _) => apply note_kept
  | |- preserves _ (set_reason _) => apply note_kept
  | |- preserves _ result_now => apply result_now_kept
  | |- preserves _ (sbind _ _) => apply preserves_bind; [|intros ?]
  | |- preserves _ (stry _ _) => apply preserves_try; [|intros ? ? [= <-]]
  | |- preserves _ (stry_else _ _ _) => apply preserves_try_else; [|intros ? ? [= <-]|intros ?]
  | |- preserves _ (match ?x with _ => _ end) => destruct x eqn:?
  end.
Ltac steps := cbv zeta; repeat kept1.

(** The operations of the adapter. *)
Ltac venue1 :=
  let st := fresh "st" in apply venue_kept; intros st;
  lazymatch goal with
  | |- preserves _ (fetch_fills _ _) => apply (dk_fills _ (mk_derisking _ (Hv st)))
  | |- preserves _ (cancel_order _ _) => apply (dk_cancel _ (mk_derisking _ (Hv st)))
  | |- preserves _ fetch_authoritative_snapshot => apply (dk_snapshot _ (mk_derisking _ (Hv st)))
  | |- preserves _ (execute_reduce_only_exit _ _ _ _) => apply exit_keeps, Hv
  | |- preserves _ (ensure_protection _ _) => apply ensure_loop_keeps, Hv
  | |- preserves _ (market_snapshot _) => apply (mk_market _ (Hv st))
  | |- preserves _ (_fetch_step_size _) => unfold _fetch_step_size; steps; apply (mk_market _ (Hv st))
  | |- preserves _ (_account_writer_valid_for_adapter _) => unfold _account_writer_valid_for_adapter; steps; apply (mk_writer _ (Hv st))
  end.

(** Reads, and programs made of operations of the repository. *)
Ltac adv1 :=
  lazymatch goal with
  | |- advances _ (sbind _ _) => apply advances_bind; [exact _| |intros ?]
  | |- advances _ commit => apply advances_commit; exact _
  | |- advances _ (match ?x with _ => _ end) => destruct x eqn:?
  | |- advances _ (get_runtime_control _) => apply moves_advance; [exact _|apply fact_ops, op_get_runtime_control]
  | |- advances _ (list_active_initial_risk_exposures _) => apply moves_advance; [exact _|apply fact_ops, op_list_exposures]
  | |- advances _ (record_reconciliation _ _ _ _ _ _ _ _) => apply moves_advance; [exact _|apply fact_ops, op_record_reconciliation]
  | |- advances _ (resolve_reconciliation_incidents _) => apply moves_advance; [exact _|apply fact_ops, op_resolve_incidents]
  | |- advances _ (transition_intent _ _ _ _ _ _) => apply moves_advance; [exact _|apply fact_ops, op_transition_intent]
  | |- advances _ (save_order_level_fill_recovery _ _ _ _ _ _ _ _ _ _ _) =>
      apply moves_advance; [exact _|apply fact_ops, op_save_order_level_fill_recovery]
  | |- advances _ (reconcile_position_quantity_from_authoritative_snapshot _ _ _) =>
      apply moves_advance; [exact _|apply fact_ops, op_reconcile_quantity]
  | |- advances _ _ => apply quiet_advance; [exact _|solve [quiet_tac]]
  end.
Ltac session := apply store_kept, moving_session; cbv zeta; repeat adv1.
Ltac fact c := apply store_kept, moving_fact, c.

Lemma draw_kept : kept (in_store new_uuid).
Proof. by apply store_kept, moving_same. Qed.
Lemma enabled_kept : kept (in_store _runtime_entry_enabled).
Proof.
  apply store_kept. intros d0. unfold _runtime_entry_enabled. apply preserves_try; [|intros ? ? [= <-]; apply preserves_ret].
  apply moving_session. repeat adv1.
Qed.
Lemma load_quiet mode baseline : quiet (load_local_state_from_session mode baseline).
Proof. unfold load_local_state_from_session, get_open_positions. quiet_tac. Qed.
Lemma local_load_kept q b : kept (local_load q b).
Proof.
  apply store_kept. intros d0. unfold _build_local_state. apply preserves_try; [|intros ? ? [= <-]; apply preserves_ret].
  apply preserves_bind; [apply preserves_lift|intros baseline]. apply preserves_bind; [|intros; apply preserves_ret].
  apply moving_session, quiet_advance; [exact _|apply load_quiet].
Qed.

(** ** Convergence *)

Lemma clean_kept q snapshot : kept (clean_protections q snapshot).
Proof. unfold clean_protections. steps. fact fact_stale_protections. Qed.

Lemma attempt_kept q p a : kept (recover_attempt q p a).
Proof.
  unfold recover_attempt. steps; [|venue1|fact fact_exit].
  apply venue_kept. intros s. unfold attempt_exchange_id, matching_order. steps; apply (mk_query _ (Hv s)).
Qed.
Lemma attempts_kept q p l : kept (recover_attempts q p l).
Proof. induction l as [|a l IH]; cbn [recover_attempts]; steps; [apply attempt_kept|done]. Qed.
Lemma recover_positions_kept q snapshot l b : kept (recover_positions q snapshot l b).
Proof.
  revert b. induction l as [|[p a] l IH]; intros b; cbn [recover_positions]; steps; auto using attempts_kept.
Qed.
Lemma exit_gaps_kept q snapshot : kept (_recover_confirmed_v2_exit_gaps q snapshot).
Proof. unfold _recover_confirmed_v2_exit_gaps. steps; [session|apply recover_positions_kept]. Qed.

Lemma confirmed_fill_kept p refs : kept (confirmed_fill p refs).
Proof. induction refs as [|[[x c] v] refs IH]; cbn [confirmed_fill]; steps; [venue1|done]. Qed.
Lemma siblings_kept symbol ids : kept (cancel_siblings symbol ids).
Proof. induction ids as [|x ids IH]; cbn [cancel_siblings]; steps; [venue1|done]. Qed.
Lemma project_exit_kept q p c x : kept (project_exit q p c x).
Proof. unfold project_exit. destruct c as [[[o i] r] fills]. steps; [fact fact_exit|apply siblings_kept]. Qed.
Lemma project_positions_kept q snapshot l b : kept (project_positions q snapshot l b).
Proof.
  revert b. induction l as [|p l IH]; intros b; cbn [project_positions]; steps;
    first [apply confirmed_fill_kept|apply project_exit_kept|apply IH].
Qed.
Lemma project_protections_kept q snapshot ls : kept (_project_confirmed_protection_exits q snapshot ls).
Proof. unfold _project_confirmed_protection_exits. steps; [session|apply project_positions_kept]. Qed.

(** ** Entry gaps *)

Lemma stored_entry_quiet g : quiet (stored_entry g).
Proof.
  unfold stored_entry. apply quiet_bind; [quiet_tac|intros o]. apply quiet_bind; [quiet_tac|intros i].
  destruct o, i; quiet_tac.
Qed.
Lemma existing_quiet q d : quiet (existing_position q d).
Proof. unfold existing_position. apply quiet_bind; [quiet_tac|intros o]. destruct o; quiet_tac. Qed.

Lemma flat_fill_kept symbol g s price : kept (in_store (record_flat_fill symbol g s price)).
Proof.
  apply store_kept, moving_session. apply advances_bind; [exact _|apply quiet_advance; [exact _|apply stored_entry_quiet]|intros x].
  repeat adv1.
Qed.
Lemma status_kept s symbol x : preserves (fun w => P (w, s)) (order_status symbol x).
Proof. unfold order_status. destruct filled_order_by_id eqn:E; [by apply (mk_status _ (Hv s))|apply preserves_ret]. Qed.
Lemma flat_gap_kept symbol g : kept (recover_flat_gap symbol g).
Proof.
  unfold recover_flat_gap. steps; [|apply venue_kept; intros; apply status_kept|apply flat_fill_kept].
  apply store_kept, moving_session, quiet_advance; [exact _|apply stored_entry_quiet].
Qed.
Lemma gap_fill_kept symbol d g p : kept (at_venue (gap_fill symbol d g p)).
Proof.
  apply venue_kept. intros s. unfold gap_fill. steps; [apply (dk_fills _ (mk_derisking _ (Hv s)))|apply status_kept].
Qed.
Lemma protect_gap_kept a b c d e f : kept (protect_gap a b c d e f).
Proof. unfold protect_gap. steps. venue1. Qed.
Lemma persist_gap_kept a b c d e f g h i j k : kept (persist_gap a b c d e f g h i j k).
Proof. unfold persist_gap. steps; fact fact_entry. Qed.
Lemma open_gap_kept a b c d e f g h : kept (recover_open_gap a b c d e f g h).
Proof.
  unfold recover_open_gap. steps;
    first [venue1|apply draw_kept|apply protect_gap_kept|apply persist_gap_kept|idtac].
  - apply store_kept, moving_session, quiet_advance; [exact _|apply existing_quiet].
  - session.
Qed.
Lemma gap_kept q snapshot d c : kept (recover_gap q snapshot d c).
Proof.
  unfold recover_gap. steps; first [session; fail|apply gap_fill_kept|apply flat_gap_kept|apply open_gap_kept|idtac].
Qed.
Lemma gaps_kept q snapshot l b : kept (recover_gaps q snapshot l b).
Proof. revert b. induction l as [|[d c] l IH]; intros b; cbn [recover_gaps]; steps; auto using gap_kept. Qed.
Lemma entry_gap_kept q snapshot : kept (_recover_confirmed_v2_entry_gap q snapshot).
Proof. unfold _recover_confirmed_v2_entry_gap. steps; [session|apply gaps_kept]. Qed.

Lemma converge_kept q : kept (converge q).
Proof.
  unfold converge, authoritative_snapshot, recover_exits, recover_entries, project_exits, unavailable_snapshot. steps;
    first [venue1|apply clean_kept|apply exit_gaps_kept|apply local_load_kept|apply entry_gap_kept|apply project_protections_kept].
Qed.

(** ** Reconciliation, recovery, protection, exits *)

Lemma fact_recorded_kept q snapshot ls recon : kept (in_store (_persist_reconciliation_fact q snapshot ls recon)).
Proof. unfold _persist_reconciliation_fact. session. Qed.

Lemma recovery_venue X (m : SM W X) s : venue_program account_writer_valid X m -> preserves (fun w => P (w, s)) m.
Proof.
  destruct 1; [apply (mk_writer _ (Hv s))|apply exit_keeps, Hv|apply ensure_loop_keeps, Hv
              |apply (dk_cancel _ (mk_derisking _ (Hv s)))|apply (mk_query _ (Hv s))].
Qed.
Lemma execution_world_kept actions snapshot ls step :
  preserves P (execute_recovery_actions account_writer_valid actions snapshot ls step).
Proof.
  apply execution_kept.
  - intros X m Hm. apply adapter_kept. intros s. by apply recovery_venue.
  - intros X m [X' n Hn]. apply (on_store_kept (with_session n)), moving_session. apply Hn; [exact _|]. intros. by apply fact_ops.
Qed.
Lemma recover_kept q snapshot ls recon : kept (recover q snapshot ls recon).
Proof. unfold recover. steps; [venue1|apply world_kept, execution_world_kept]. Qed.
Lemma reconcile_kept q snapshot load : kept (reconcile_cycle q snapshot load).
Proof. unfold reconcile_cycle. steps; first [apply fact_recorded_kept|apply recover_kept]. Qed.

(** A session that spans calls of the adapter. *)
Notation spanning := (fun w : World => P w /\ ahead rel w.2).
Lemma in_session_kept {X} (m : SM World X) : preserves spanning m -> preserves P (in_session m).
Proof.
  intros Hm [w s] r [w' s'] Hs. unfold in_session. destruct (m _) as [x [w1 s1]] eqn:E. intros [= <- <- <-].
  apply Hm in E as [Hp _]; [eapply Hup; [exact Hp|]; reflexivity|]. split.
  - eapply Hup; [exact Hs|]. reflexivity.
  - unfold ahead. reflexivity.
Qed.
Lemma spanning_store {X} (m : SM Session X) : advances rel m -> preserves spanning (on_store m).
Proof.
  intros Hm [w s] r [w' s'] [Hs Ha]. unfold on_store. destruct (m s) as [x s1] eqn:E. intros [= <- <- <-].
  apply Hm in E as [Ha' Hc]; [|exact Ha]. split; [by eapply Hup|exact Ha'].
Qed.
Lemma spanning_adapter {X} (m : SM W X) : (forall s, preserves (fun w => P (w, s)) m) -> preserves spanning (on_adapter m).
Proof.
  intros Hm [w s] r [w' s'] [Hs Ha]. unfold on_adapter. destruct (m w) as [x w1] eqn:E. intros [= <- <- <-].
  split; [by eapply Hm|exact Ha].
Qed.
Lemma replace_stop_kept q p stop : preserves spanning (replace_stop q p stop).
Proof.
  unfold replace_stop. steps.
  - apply spanning_adapter. intros s1. by apply (mk_replace _ (Hv s1)).
  - apply spanning_adapter. intros s1. apply (dk_cancel _ (mk_derisking _ (Hv s1))).
  - apply spanning_store, moves_advance; [exact _|apply fact_ops, op_update_protection_stop].
Qed.
Lemma profit_kept q snapshot ls tick : kept (_apply_profit_protection q snapshot ls tick).
Proof.
  unfold _apply_profit_protection. steps. apply world_kept, in_session_kept. steps;
    [|apply spanning_store, advances_commit; exact _].
  generalize (ls_positions ls). intros l. induction l as [|p l IH]; cbn [protect_all]; steps; [|exact IH].
  unfold protect_profit. steps. apply replace_stop_kept.
Qed.
Lemma submit_exit_kept q p x reason d step : kept (submit_exit q p x reason d step).
Proof. unfold submit_exit. steps; first [venue1|fact fact_exit_result|fact fact_exit]. Qed.
Lemma exits_kept q snapshot step l : kept (exit_positions q snapshot step l).
Proof.
  induction l as [|p l IH]; cbn [exit_positions]; steps; [|exact IH]. unfold exit_position. steps;
    first [venue1|apply submit_exit_kept|fact fact_exit_intent].
Qed.
Lemma manage_kept q snapshot ls : kept (manage_positions q snapshot ls).
Proof.
  unfold manage_positions, protect_profits. steps; [venue1|apply profit_kept|apply exits_kept].
Qed.

(** ** The entry, but for its submission *)

Lemma decide_kept q : kept (decide_sampling q).
Proof. by apply store_kept, moving_same. Qed.
Lemma choose_kept q enabled : kept (choose_candidate q enabled).
Proof.
  unfold choose_candidate, choose_sampling, choose_production, finish_without_entry. steps; apply decide_kept.
Qed.
Lemma candidate_stage_kept q ls enabled c : kept (candidate_stage q ls enabled c).
Proof. unfold candidate_stage. steps. Qed.
Lemma reconciliation_stage_kept recon b : kept (reconciliation_stage recon b).
Proof. unfold reconciliation_stage. steps. Qed.
Lemma risk_stage_kept q c runtime : kept (risk_stage q c runtime).
Proof. unfold risk_stage. steps. Qed.
Lemma market_gates_kept q c runtime : kept (market_gates q c runtime).
Proof.
  unfold market_gates, review_stage, market_stage, cost_stage, drift_stage. steps; venue1.
Qed.
Lemma portfolio_kept q snapshot c risk canary : kept (portfolio_stage q snapshot c risk canary).
Proof.
  unfold portfolio_stage, portfolio_verdict, portfolio_passed, portfolio_stopped. steps.
  apply store_kept. intros d0. unfold _evaluate_durable_portfolio_risk. steps. apply moving_session. repeat adv1.
Qed.
Lemma reserve_kept q intent_id snapshot c risk canary : kept (reserve_stage q intent_id snapshot c risk canary).
Proof. unfold reserve_stage. steps. fact fact_entry_intent. Qed.
Lemma authorized_kept q : kept (authorized_now q).
Proof. unfold authorized_now. steps. apply enabled_kept. Qed.
Lemma guard_stages_kept q intent_id r : kept (guard_stages q intent_id r).
Proof.
  unfold guard_stages, _recover_confirmed_margin_guard_lifecycle. steps; first [venue1|fact fact_margin_guard].
Qed.
Lemma project_entry_kept q intent_id market c risk r : kept (project_entry q intent_id market c risk r).
Proof.
  unfold project_entry, protect_entry. steps; first [apply draw_kept|venue1|fact fact_entry].
Qed.
(** What a submission records of its result. *)
Lemma submission_recorded_kept q intent_id leverage r : kept (
  (if cq_persist_facts q then
     stry (in_store (persist_entry_submission_result intent_id leverage r))
       (fun _ => Some (failing "exchange acknowledgement persistence failed"))
   else sret tt) ;;;
  note (entry_submitted_is (negb (bool_decide (ex_status r ∈ [NOT_ATTEMPTED; SHADOW_REHEARSED])))) ;;;
  stage "EXCHANGE_SUBMITTED" (if ostr_truthy (ex_exchange_order_id r) then "PASSED" else "REJECTED")
    (reason_value (ex_reason_code r)) ;;;
  sret r).
Proof. steps; fact fact_entry_result. Qed.
End kept.
