(* ===== verification/CycleSafety.v ===== *)
(** * CycleSafety: when a cycle may open exposure

    The theorems on [run_automated_trading_cycle]: what it does to the facts, and
    under which authority an order of it can open a position. *)
From S2P Require Import Prelude PyDecimal PyValue State ClientOrderId Receipts Candidates PortfolioRisk RiskControls.
From S2P Require Import RuntimeLock Funnel Adapter Quantities Reconciliation Entry Exit Protection Recovery AccountWriter.
From S2P Require Import BinanceAdapter Composition Database Repository Transactions Ledger ExchangeFirst RecoveryExecutor.
From S2P Require Import RecoveryRun LocalState Canonical Evidence FactPersistence FactLaws FactRules Cycle CycleSteps.
From S2P Require Import Indicators Decision DecisionLaws CycleRecovery EntryGap CycleRun CycleEntry CycleLaws.
Local Open Scope Z_scope.
Local Open Scope py_scope.

(** ** What is durable when an entry is submitted *)

Section durable.
Context {H : CycleHost}.

Definition intent_durable (intent_id : string) (s : Session) : Prop := is_Some (lg_intents (committed_lg s) !! intent_id).
Definition entries_enabled (s : Session) : Prop :=
  exists c, find_row (R := ControlRow) "global" (s_committed s) = Some c /\ ct_entry_enabled c = true.

Lemma durable_row intent_id s i : find_row (R := IntentRow) intent_id (s_committed s) = Some i -> intent_durable intent_id s.
Proof. intros Ei. unfold intent_durable, committed_lg. erewrite ledger_intent; [by eexists|exact Ei]. Qed.

Lemma ledger_step_intents l l' intent_id : ledger_step l l' -> is_Some (lg_intents l !! intent_id) -> is_Some (lg_intents l' !! intent_id).
Proof.
  destruct 1; simpl; try done; intros Hs; (destruct (decide (id = intent_id)) as [->|Hn];
    [rewrite lookup_insert_eq; by eexists|by rewrite lookup_insert_ne]).
Qed.
Lemma durable_kept intent_id s s' : ledger_rel (s_committed s) (s_committed s') -> intent_durable intent_id s -> intent_durable intent_id s'.
Proof. unfold intent_durable, committed_lg, ledger_rel. induction 1; [done|]. intros Hs. by eapply IHrtc, ledger_step_intents. Qed.

Lemma durable_same intent_id s s' : s_committed s' = s_committed s -> intent_durable intent_id s -> intent_durable intent_id s'.
Proof. unfold intent_durable, committed_lg. by intros ->. Qed.

Lemma reservation_durable a b intent_id d e f g h i j k l m n s s' :
  persist_entry_intent_before_submission a b intent_id d e f g h i j k l m n s = (Ok None, s') -> intent_durable intent_id s'.
Proof.
  unfold persist_entry_intent_before_submission. intros E.
  apply sbind_inv in E as [([] & s0 & E0 & E)|(x & _ & ?)]; [|done]. apply sassert_inv in E0 as [-> [[Hr _]|[_ ?]]]; [|done].
  apply negb_true_iff in Hr.
  apply with_session_inv in E as (s1 & E & ->).
  apply sbind_inv in E as [(control & s2 & E0 & E)|(x & _ & ?)]; [|done]. injection E0 as _ <-.
  destruct (match control with Some c => _ | None => _ end); [by inv_run|].
  apply sbind_inv in E as [([committed unknown] & s2 & _ & E)|(x & _ & ?)]; [|done].
  destruct unknown; [by inv_run|]. destruct (portfolio_refusal _ _ _ _ _ _ _); [by inv_run|].
  apply sbind_inv in E as [([] & s3 & _ & E)|(x & _ & ?)]; [|done].
  apply sbind_inv in E as [([] & s4 & _ & E)|(x & _ & ?)]; [|done].
  apply sbind_inv in E as [(o & s5 & E0 & E)|(x & _ & ?)]; [|done]. injection E0 as Eo <-.
  apply sbind_inv in E as [([] & s5 & E0 & E)|(x & _ & ?)]; [|done].
  apply sbind_inv in E as [([] & s6 & [_ Ec]%commit_ok & E)|(x & _ & ?)]; [|done]. apply sret_inv in E as [_ ->].
  assert (exists row, find_row (R := IntentRow) intent_id (s_db s5) = Some row) as [row Ew].
  { destruct o as [row|]; [apply sret_inv in E0 as [_ ->]; by exists row|].
    apply reserve_run in E0 as [Hi _]; [|done]. unfold find_row in *. simpl in *.
    rewrite Hi, find_last, Eo. simpl. rewrite String.eqb_refl. eexists. reflexivity. }
  apply (durable_row _ _ row). cbn [s_committed]. by rewrite Ec.
Qed.

Lemma enabled_run s b s' : _runtime_entry_enabled s = (Ok b, s') ->
  s_committed s' = s_committed s /\ (b = true -> entries_enabled s').
Proof.
  unfold _runtime_entry_enabled. intros E.
  assert (moves ledger_rel (let! control := get_runtime_control "global" in sret (ct_entry_enabled control))) as Hm.
  { intros s0. apply moves_bind; [exact _|apply (repository_op_refines (writes := true)), op_get_runtime_control|intros; apply moves_ret; exact _]. }
  apply stry_inv in E as [(x & E & [= <-])|(e & s1 & E & E2)].
  - apply with_session_inv in E as (s1 & E & ->). pose proof (Hm _ _ _ E) as [Hc _]. simpl in *. split; [done|]. intros ->.
    unfold get_runtime_control in E. apply sbind_inv in E as [(c & s2 & E1 & E)|(e & E1 & ?)]; [|done].
    apply sret_inv in E as [[= Eb] ->]. apply sbind_inv in E1 as [(o & s3 & E0 & E1)|(e & E0 & ?)]; [|done].
    injection E0 as <- <-. cbn [s_db] in E1. destruct (find_row _ _) as [c0|] eqn:Ef.
    + apply sret_inv in E1 as [[= ->] ->]. exists c0. cbn [s_committed]. done.
    + exfalso. apply sbind_inv in E1 as [(t & s4 & E0 & E1)|(e & E0 & ?)]; [|done]. cbv zeta in E1.
      apply sbind_inv in E1 as [(? & s5 & _ & E1)|(e & _ & ?)]; [|done].
      apply sbind_inv in E1 as [(? & s6 & _ & E1)|(e & _ & ?)]; [|done]. apply sret_inv in E1 as [[= ->] _]. done.
  - apply sret_inv in E2 as [[= ->] ->]. apply with_session_inv in E as (s2 & E & ->). pose proof (Hm _ _ _ E) as [Hc _].
    simpl in *. done.
Qed.
End durable.

(** ** Which candidate a cycle may enter *)

(** Without an authority none; under the canary's one that the request's own views of its
    symbol make; else the supplied one, if it is authorized, of the production lane,
    primary and promotable. *)
Definition enterable {H : Host} (q : CycleRequest) (c : TradeCandidate) : Prop :=
  match cq_entry_authority q with
  | AUTH_NONE => False
  | AUTH_TESTNET_CANARY => exists id, ready (sampling_context q id) c
  | _ => cq_production_candidate q = Some c /\ cq_production_authorized q = true /\ tc_lane c = Some PRODUCTION /\
         tc_candidate_type c = PRIMARY /\ tc_non_promotable c = false
  end.

Lemma sampled_symbol {H : Host} q c : cq_entry_authority q = AUTH_TESTNET_CANARY -> enterable q c -> tc_symbol c = cq_symbol q.
Proof. unfold enterable. intros ->. intros [id Hc]. exact (ready_symbol _ _ Hc). Qed.

(** ** The cycle, before and after its submission *)

Section cycle.
Context {H : CycleHost} {W : Type} {A : CycleAdapter W} (q : CycleRequest).
Notation World := (RecoveryExecutor.World (W := W)).
Notation CS := (CycleSteps.CS (W := W)).
Context (rel : Db -> Db -> Prop) `{!FactRel rel} (P R : World -> Prop) (s0 : Session).
Context (HP : forall w s s', P (w, s) -> rel (s_committed s) (s_committed s') -> P (w, s')).
Context (HR : forall w s s', R (w, s) -> rel (s_committed s) (s_committed s') -> R (w, s')).
Context (HPv : forall s, managing_keeps (fun w => P (w, s))) (HRv : forall s, managing_keeps (fun w => R (w, s))).
Context (HPR : forall w, P w -> R w).

(** What is the case whenever an entry for [c] is submitted, in a cycle begun at [s0]. *)
Record submittable (c : TradeCandidate) (intent_id : string) (gate : EntryGateResult) (s : Session) : Prop := {
  sb_ready : cq_entry_data_ready q = true;
  sb_candidate : enterable q c;
  sb_gate : gate_approved gate = true;
  sb_durable : cq_persist_facts q = true -> intent_durable intent_id s;
  sb_enabled : cq_persist_facts q = true -> entries_enabled s0 /\ entries_enabled s }.

Context (Hsubmit : forall c gate market intent_id quantity me mf en w s r w',
  P (w, s) -> submittable c intent_id gate s ->
  execute_entry c gate market intent_id quantity (sz_max_leverage (cq_sizing q)) (cq_engine_activation q) me mf en w = (r, w') ->
  R (w', s)).

Notation keptP := (preserves (fun cs : CS => P cs.1)).
Notation keptR := (preserves (fun cs : CS => R cs.1)).
Definition takes_at {X} (cs : CS) (m : SM CS X) : Prop := P cs.1 -> forall r cs', m cs = (r, cs') -> R cs'.1.

Lemma takes_kept {X} cs (m : SM CS X) : keptP m -> takes_at cs m.
Proof. intros Hm Hp r cs' E. by eapply HPR, Hm. Qed.
Lemma takes_seq {X Y} cs (m : SM CS X) (f : X -> SM CS Y) :
  keptP m -> (forall a cs1, m cs = (Ok a, cs1) -> takes_at cs1 (f a)) -> takes_at cs (sbind m f).
Proof.
  intros Hm Hf Hp r cs' [(a & cs1 & E & E2)|(e & E & ->)]%sbind_inv.
  - eapply Hf; [exact E| |exact E2]. by eapply Hm.
  - by eapply HPR, Hm.
Qed.

Lemma submit_takes intent_id snapshot market c gate quantity risk canary cs :
  submittable c intent_id gate cs.1.2 ->
  takes_at cs (execute_reserved q intent_id snapshot market c gate quantity risk canary).
Proof.
  intros Hsub Hp r cs' E. unfold execute_reserved, submit_entry in E. cbv zeta in E.
  set (me := if canary then Some (as_equity snapshot) else _) in E.
  set (mf := if canary then Some (sz_max_margin_fraction _) else _) in E.
  destruct cs as [[w s] result]. simpl in *.
  assert (forall x y, at_venue (execute_entry c gate market intent_id quantity (sz_max_leverage (cq_sizing q))
    (cq_engine_activation q) me mf canary) ((w, s), result) = (x, y) -> R y.1) as Hfirst.
  { intros x y. unfold at_venue, in_world, on_adapter. destruct (execute_entry _ _ _ _ _ _ _ _ _ _ w) as [z w1] eqn:Ex.
    intros [= <- <-]. simpl. by eapply Hsubmit. }
  apply sbind_inv in E as [(x & cs1 & E1 & E2)|(e & E1 & ->)].
  - assert (R cs1.1) as Hr.
    { apply sbind_inv in E1 as [(y & cs2 & E0 & E1)|(e & E0 & ?)]; [|done]. apply Hfirst in E0.
      revert E1. by apply (submission_recorded_kept rel R HR). }
    revert E2. apply (fun G : keptR _ => G cs1 r cs' Hr).
    destruct (_ && _); [apply (guard_stages_kept rel R HR HRv)|]. destruct (negb _); [apply preserves_ret|].
    apply (project_entry_kept rel R HR HRv).
  - apply sbind_inv in E1 as [(y & cs2 & E0 & E1)|(e' & E0 & ?)].
    + apply Hfirst in E0. revert E1. by apply (submission_recorded_kept rel R HR).
    + by eapply Hfirst.
Qed.
Lemma in_store_run {X} (m : SM Session X) (cs : CS) r cs' :
  in_store m cs = (r, cs') -> m cs.1.2 = (r, cs'.1.2) /\ cs'.1.1 = cs.1.1.
Proof.
  destruct cs as [[w s] x]. unfold in_store, in_world, on_store. destruct (m s) as [y s1] eqn:E. by intros [= <- <-].
Qed.
Lemma note_run f (cs : CS) r cs' : note f cs = (r, cs') -> cs'.1 = cs.1.
Proof. destruct cs. by intros [= <- <-]. Qed.

Lemma reserve_durable intent_id snapshot c risk canary (cs cs' : CS) :
  reserve_stage q intent_id snapshot c risk canary cs = (Ok true, cs') -> cq_persist_facts q = true ->
  intent_durable intent_id cs'.1.2.
Proof.
  unfold reserve_stage. intros E Hp. rewrite Hp in E.
  apply sbind_inv in E as [(x & cs1 & _ & E)|(e & _ & ?)]; [|done]. simpl in E.
  apply stry_else_inv in E as [(o & cs2 & E1 & E)|(e & cs2 & _ & E)].
  - destruct o; [by apply sbind_inv in E as [(? & ? & _ & ?)|(? & _ & ?)]|]. apply sret_inv in E as [_ ->].
    apply in_store_run in E1 as [E1 _]. by eapply reservation_durable.
  - apply sbind_inv in E as [(? & ? & _ & E)|(? & _ & ?)]; [|done].
    by apply sbind_inv in E as [(? & ? & _ & ?)|(? & _ & ?)].
Qed.
Lemma authorized_run (cs cs' : CS) : authorized_now q cs = (Ok true, cs') ->
  s_committed cs'.1.2 = s_committed cs.1.2 /\ (cq_persist_facts q = true -> entries_enabled cs'.1.2).
Proof.
  unfold authorized_now. destruct (cq_persist_facts q); simpl.
  - intros [(b & cs1 & E1 & E)|(e & _ & ?)]%sbind_inv; [|done]. apply in_store_run in E1 as [[Hc Hb]%enabled_run _].
    destruct b; [apply sret_inv in E as [_ ->]; auto|].
    apply sbind_inv in E as [(? & ? & _ & E)|(? & _ & ?)]; [|done].
    by apply sbind_inv in E as [(? & ? & _ & ?)|(? & _ & ?)].
  - by intros [_ ->]%sret_inv.
Qed.

Lemma size_takes snapshot market c gate cs :
  cq_entry_data_ready q = true -> enterable q c -> gate_approved gate = true ->
  (cq_persist_facts q = true -> entries_enabled s0) -> takes_at cs (size_and_submit q snapshot market c gate).
Proof.
  intros Hd Ha Hg H0. unfold size_and_submit. cbv zeta. apply takes_seq; [apply preserves_lift|intros quantity cs1 _].
  apply takes_seq; [apply (portfolio_kept rel P HP)|intros approved cs2 _].
  destruct approved; [|apply takes_kept, preserves_ret].
  apply takes_seq; [apply (draw_kept rel P HP)|intros intent_id cs3 _].
  apply takes_seq; [apply (reserve_kept rel P HP)|intros reserved cs4 E4].
  destruct reserved; [|apply takes_kept, preserves_ret].
  apply takes_seq; [apply (authorized_kept rel P HP)|intros first cs5 E5].
  destruct first; [|apply takes_kept, preserves_ret].
  apply takes_seq; [apply (authorized_kept rel P HP)|intros second cs6 E6].
  destruct second; [|apply takes_kept, preserves_ret].
  apply authorized_run in E5 as [Hc5 _]. apply authorized_run in E6 as [Hc6 He].
  apply submit_takes. constructor; auto. intros Hp.
  eapply durable_same; [etrans; [exact Hc6|exact Hc5]|]. by eapply reserve_durable.
Qed.

Lemma gates_approved c runtime (cs : CS) m gate cs' :
  market_gates q c runtime cs = (Ok (Some (m, gate)), cs') -> gate_approved gate = true.
Proof.
  unfold market_gates, drift_stage. intros E.
  apply sbind_inv in E as [(? & ? & _ & E)|(? & _ & ?)]; [|done].
  apply sbind_inv in E as [(o & ? & _ & E)|(? & _ & ?)]; [|done]. destruct o as [m0|]; [|by apply sret_inv in E as [? _]].
  apply sbind_inv in E as [(o & ? & _ & E)|(? & _ & ?)]; [|done]. destruct o as [rt|]; [|by apply sret_inv in E as [? _]].
  apply sbind_inv in E as [(o & ? & E1 & E)|(? & _ & ?)]; [|done]. apply sret_inv in E as [[= Eo] _].
  destruct o as [g|]; [|done]. injection Eo as <- <-.
  apply sbind_inv in E1 as [(g1 & ? & _ & E1)|(? & _ & ?)]; [|done]. destruct (gate_approved g1) eqn:Eg.
  - apply sbind_inv in E1 as [(? & ? & _ & E1)|(? & _ & ?)]; [|done]. by apply sret_inv in E1 as [[= <-] _].
  - apply sbind_inv in E1 as [(? & ? & _ & E1)|(? & _ & ?)]; [|done]. by apply sret_inv in E1 as [? _].
Qed.

Lemma risk_approved c ls recon enabled (cs : CS) cs' :
  risk_stage q c (entry_runtime_of q ls recon enabled) cs = (Ok true, cs') -> enabled = true.
Proof.
  unfold risk_stage. intros E. apply sbind_inv in E as [(g & ? & E1 & E)|(? & _ & ?)]; [|done].
  apply slift_inv in E1 as [Eg ->]. destruct (gate_approved g) eqn:Ha.
  - destruct enabled; [done|exfalso]. unfold evaluate_entry in Eg. simpl in Eg.
    assert (RC_ENTRY_KILL_SWITCH_ACTIVE ∈ static_blocks c (entry_runtime_of q ls recon false) ++ []) as Hin.
    { unfold static_blocks. simpl. rewrite orb_true_r. rewrite !elem_of_app. left. right. right. left. by left. }
    destruct (_ ++ []) as [|b l]; [by apply elem_of_nil in Hin|]. injection Eg as ->. done.
  - repeat (apply sbind_inv in E as [(? & ? & _ & E)|(? & _ & ?)]; [|done]). by apply sret_inv in E as [? _].
Qed.

Lemma enter_takes snapshot ls recon blocked enabled c cs :
  cq_entry_data_ready q = true -> enterable q c ->
  (cq_persist_facts q = true -> enabled = true -> entries_enabled s0) ->
  takes_at cs (enter q snapshot ls recon blocked enabled c).
Proof.
  intros Hd Ha He. unfold enter. cbv zeta.
  apply takes_seq; [apply candidate_stage_kept|intros continued cs1 _].
  destruct continued; [|apply takes_kept, preserves_ret].
  apply takes_seq; [apply reconciliation_stage_kept|intros _ cs2 _].
  apply takes_seq; [apply risk_stage_kept|intros approved cs3 E3].
  destruct approved; [|apply takes_kept, preserves_ret].
  apply takes_seq; [apply (market_gates_kept P HPv)|intros gates cs4 E4].
  destruct gates as [[m gate]|]; [|apply takes_kept, preserves_ret].
  apply size_takes; [done|done|by eapply gates_approved|]. intros Hp. apply He; [done|]. by eapply risk_approved.
Qed.

Lemma unfinished enabled p (cs : CS) o cs' : finish_without_entry enabled p cs = (Ok o, cs') -> o = None.
Proof.
  unfold finish_without_entry. intros E. do 2 (apply sbind_inv in E as [(? & ? & _ & E)|(? & _ & ?)]; [|done]).
  by apply sret_inv in E as [[= ->] _].
Qed.
Lemma chosen_production enabled (cs : CS) c cs' : choose_production q enabled cs = (Ok (Some c), cs') ->
  cq_production_candidate q = Some c /\ cq_production_authorized q = true /\ tc_lane c = Some PRODUCTION /\
  tc_candidate_type c = PRIMARY /\ tc_non_promotable c = false.
Proof.
  unfold choose_production. destruct (cq_production_candidate q) as [c0|] eqn:Ec.
  - destruct (production_candidate_ok q c0) eqn:Ok0; [|by intros ?%unfinished]. intros [[= <-] _]%sret_inv.
    unfold production_candidate_ok, is_lane, is_type in Ok0. rewrite !andb_true_iff, !bool_decide_eq_true, negb_true_iff in Ok0. tauto.
  - by destruct (_ && _); intros ?%unfinished.
Qed.
Lemma chosen_sampling enabled (cs : CS) c cs' : choose_sampling q enabled cs = (Ok (Some c), cs') ->
  exists id, ready (sampling_context q id) c.
Proof.
  unfold choose_sampling. intros [(o & cs1 & E1 & E)|(? & _ & ?)]%sbind_inv; [|done].
  apply in_store_run in E1 as [E1 _]. unfold decide_sampling in E1. injection E1 as E1 _.
  apply sbind_inv in E as [(? & ? & _ & E)|(? & _ & ?)]; [|done].
  destruct (do_candidate o) as [c0|] eqn:Ec; [|by apply unfinished in E].
  apply sbind_inv in E as [(? & ? & _ & E)|(? & _ & ?)]; [|done]. apply sret_inv in E as [[= ->] _].
  eexists. eapply evaluated_ready; [exact E1|exact Ec].
Qed.
Lemma chosen_enterable enabled (cs : CS) c cs' : choose_candidate q enabled cs = (Ok (Some c), cs') ->
  cq_entry_data_ready q = true /\ enterable q c.
Proof.
  unfold choose_candidate, enterable. intros E. destruct (cq_entry_data_ready q); simpl in E.
  - split; [done|]. destruct (cq_entry_authority q); [by eapply chosen_production..|by eapply chosen_sampling|].
    repeat (apply sbind_inv in E as [(? & ? & _ & E)|(? & _ & ?)]; [|done]). by apply sret_inv in E as [? _].
  - apply sbind_inv in E as [(? & ? & _ & E)|(? & _ & ?)]; [|done]. by apply sret_inv in E as [? _].
Qed.

Lemma body_takes (cs : CS) : cs.1.2 = s0 -> takes_at cs (cycle_body q).
Proof.
  intros H0. unfold cycle_body.
  apply takes_seq; [destruct (cq_persist_facts q); [apply (enabled_kept rel P HP)|apply preserves_ret]|intros enabled cs1 E1].
  assert (cq_persist_facts q = true -> enabled = true -> entries_enabled s0) as He.
  { intros Hp ->. rewrite Hp in E1. apply in_store_run in E1 as [[Hc Hb]%enabled_run _]. rewrite <- H0.
    destruct (Hb eq_refl) as (c & Ec & ?). exists c. split; [|done]. by rewrite <- Hc. }
  apply takes_seq; [apply (converge_kept rel P HP HPv)|intros converged cs2 _].
  destruct converged as [[snapshot load]|]; [|apply takes_kept, preserves_ret].
  apply takes_seq; [apply (reconcile_kept rel P HP HPv)|intros [[ls recon] blocked] cs3 _].
  apply takes_seq; [apply (manage_kept rel P HP HPv)|intros _ cs4 _].
  apply takes_seq; [apply (choose_kept rel P HP)|intros candidate cs5 E5].
  destruct candidate as [c|]; [|apply takes_kept, preserves_ret].
  apply chosen_enterable in E5 as [Hd Hc]. by apply enter_takes.
Qed.
End cycle.

(** A cycle takes what its managing operations keep to what its submission gives. *)
Lemma cycle_takes {H : CycleHost} {W : Type} {A : CycleAdapter W} (request : CycleRequest)
    rel `{!FactRel rel} (P R : RecoveryExecutor.World (W := W) -> Prop) (s0 : Session) :
  (forall w s s', P (w, s) -> rel (s_committed s) (s_committed s') -> P (w, s')) ->
  (forall w s s', R (w, s) -> rel (s_committed s) (s_committed s') -> R (w, s')) ->
  (forall s, managing_keeps (fun w => P (w, s))) -> (forall s, managing_keeps (fun w => R (w, s))) ->
  (forall w, P w -> R w) ->
  let q := canary_request request in
  (forall c gate market intent_id quantity me mf en w s r w', P (w, s) -> submittable q s0 c intent_id gate s ->
     execute_entry c gate market intent_id quantity (sz_max_leverage (cq_sizing q)) (cq_engine_activation q) me mf en w = (r, w') ->
     R (w', s)) ->
  forall w r w', P (w, s0) -> run_automated_trading_cycle request (w, s0) = (r, w') -> R w'.
Proof.
  intros HP HR HPv HRv HPR q Hs w r w' Hp. unfold run_automated_trading_cycle. fold q.
  destruct (cycle_body q ((w, s0), new_result)) as [x [w1 result]] eqn:E. intros Er.
  setoid_rewrite E in Er. injection Er as _ <-.
  by apply (body_takes q rel P R s0 HP HR HPv HRv HPR Hs) in E.
Qed.

(** ** The facts *)

Section facts.
Context {H : CycleHost} {W : Type} {A : CycleAdapter W}.

Lemma managing_trivial (P : Prop) : managing_keeps (fun _ : W => P).
Proof. assert (forall X (m : SM W X), preserves (fun _ => P) m) by (by intros X m s r s'). by repeat split. Qed.

Lemma cycle_moves_tables rel `{!FactRel rel} request w s r w' :
  run_automated_trading_cycle request (w, s) = (r, w') -> rel (s_committed s) (s_committed w'.2).
Proof.
  apply (cycle_takes request rel (fun w => rel (s_committed s) (s_committed w.2)) (fun w => rel (s_committed s) (s_committed w.2)));
    try done; simpl; try (by intros; etrans); try (intros; apply managing_trivial).
Qed.

(** Whatever the exchange and the database answer, and however it ends, a cycle
    moves the committed lifecycles only by legal steps of the ledger, never
    changes or removes evidence, and leaves no position without a fill. *)
Theorem cycle_keeps_the_ledger request w s r w' s' :
  run_automated_trading_cycle request (w, s) = (r, (w', s')) ->
  rtc ledger_step (committed_lg s) (committed_lg s') /\ grows (s_committed s) (s_committed s').
Proof. intros E. split; [exact (cycle_moves_tables ledger_rel _ _ _ _ _ E)|exact (cycle_moves_tables grows _ _ _ _ _ E)]. Qed.
End facts.
