(* ===== verification/CycleVenue.v ===== *)
(** * CycleVenue: what a cycle does at Binance

    [run_automated_trading_cycle] over the Binance adapter, whose client records
    what is asked of it: the theorems are about every sequence of answers of the
    venue and of the registry of account writers. *)
From S2P Require Import Prelude PyDecimal PyValue State ClientOrderId Receipts Candidates PortfolioRisk RiskControls.
From S2P Require Import RuntimeLock Funnel Adapter Quantities Reconciliation Entry Exit Protection Recovery AccountWriter.
From S2P Require Import BinanceAdapter Composition Database Repository Transactions Ledger ExchangeFirst RecoveryExecutor.
From S2P Require Import RecoveryRun LocalState FactPersistence FactLaws Cycle CycleSteps CycleRecovery EntryGap CycleRun.
From S2P Require Import CycleEntry CycleLaws CycleSafety.
Local Open Scope Z_scope.
Local Open Scope py_scope.

(** ** The adapter *)

Section on_binance.
Context {H : CycleHost} {W : Type} {V : VenueClient W} (cap : option AccountWriterCapability).
Notation St := (AState (W * list VenueEvent)).
#[local] Instance on_binance : CycleAdapter St := binance_cycle_adapter (V := recorded V) cap.

(** Operations that do not open exposure add only events that reduce risk. *)
Section reducing.
Context (Q : list VenueEvent -> Prop) (Hsnoc : forall l e, Q l -> reduces_risk e = true -> Q (l ++ [e])).

Ltac reads :=
  repeat first
    [ apply preserves_ret | apply preserves_raise | apply preserves_lift | apply preserves_assert
    | apply (event_kept reduces_risk _ Hsnoc); by intros ? | apply (now_kept Q)
    | apply (guarded_kept cap reduces_risk _ Hsnoc); [done|]
    | apply preserves_bind; [|intros ?]
    | apply preserves_try; [|intros ? ? ?; simplify_eq]
    | match goal with |- preserves _ (match ?x with _ => _ end) => destruct x eqn:? end
    | match goal with H : match ?e with _ => _ end = Some ?k |- preserves _ ?k => destruct e; simplify_eq end ].

Lemma managing_reduces : managing_keeps (keeps_log (W := W) Q).
Proof.
  assert (forall {X} (m : SM St X), preserves (keeps_log Q) m ->
    preserves (keeps_log Q) (sbind (_ensure_gateway (V := recorded V)) (fun _ => m))) as G.
  { intros X m Hm. apply preserves_bind; [by apply (gateway_kept reduces_risk)|done]. }
  split.
  - by apply derisking_operations.
  - intros. by apply query_keeps.
  - by apply writer_probe_keeps.
  - intros. apply G. unfold or_unavailable, payload_mapping. cbn. unfold record_read. reads.
  - intros f [= <-] *. apply G. unfold or_unavailable_unless_fenced, create_and_receipt, payload_mapping. cbn. reads.
  - intros f [= <-] *. apply G. unfold or_unavailable. cbn. unfold record_read. reads.
Qed.
End reducing.

Lemma managing_fenced : managing_keeps (keeps_log (W := W) (fenced cap)).
Proof.
  destruct (adapter_operations_fenced (V := V) cap) as (_ & _ & _ & Hr & _ & _ & Hq & _ & Hf & Hm).
  split; [by apply fenced_operations|done| |done|by intros ? [= <-]|by intros ? [= <-]].
  cbn. unfold _recovery_writer_valid. destruct cap as [c|] eqn:Ec; [|apply preserves_ret].
  apply preserves_bind; [|intros; apply preserves_ret].
  apply (observe_kept (fun e => negb (is_mutation e))); [|done].
  intros l e Hl He. apply fenced_snoc; [done|]. intros Hx. by rewrite Hx in He.
Qed.

(** ** Every mutation is fenced, and one order at most opens *)

Lemma cycle_fenced request w s r w' :
  fenced cap (log w) -> run_automated_trading_cycle request (w, s) = (r, w') -> fenced cap (log w'.1).
Proof.
  apply (cycle_takes request ledger_rel (fun w => keeps_log (fenced cap) w.1) (fun w => keeps_log (fenced cap) w.1) s);
    try done; try (intros; apply managing_fenced).
  intros c gate market intent_id quantity me mf en w0 s0 r0 w0' Hl _ E.
  destruct (fenced_operations (V := V) cap) as [Hk Hs].
  eapply (entry_sends_once _ (keeps_log (fenced cap))); [exact Hk|exact (fun _ h => h)| |exact Hl|exact E].
  intros. by eapply Hs.
Qed.

Lemma cycle_exposes_once n k request w s r w' : exposes_at_most n k (log w) ->
  run_automated_trading_cycle request (w, s) = (r, w') -> exposes_at_most (n + 1) (k + 1) (log w'.1).
Proof.
  intros Hl. apply (cycle_takes request ledger_rel (fun w => exposed n k w.1) (fun w => exposed (n + 1) (k + 1) w.1) s);
    try done; try (intros; apply managing_reduces, exposes_snoc).
  - intros w0. apply exposed_weaken; lia.
  - intros c gate market intent_id quantity me mf en w0 s0 r0 w0' Hw _ E.
    eapply (entry_sends_once (exposed (n + 1) (k + 1)) (exposed n k)); [by apply derisking_operations, exposes_snoc|
      intros st; apply exposed_weaken; lia| |exact Hw|exact E].
    intros command st r1 st' _ _. apply (submission_exposes_once cap n k).
Qed.

(** C16. Every order, cancellation and leverage change of a cycle reaches the venue under
    the lease of the account, and a cycle creates at most one order that can open
    a position and sets the leverage at most once. *)
Theorem cycle_is_fenced_and_opens_once request b w s r b' w' l s' :
  run_automated_trading_cycle request ((b, (w, [])), s) = (r, ((b', (w', l)), s')) ->
  fenced cap l /\ zcount opens l <= 1 /\ zcount sets_leverage l <= 1.
Proof.
  intros E. split.
  - apply (cycle_fenced _ _ _ _ _) in E; [exact E|]. intros pre e post He. by destruct pre.
  - by apply (cycle_exposes_once 0 0 _ _ _ _ _) in E.
Qed.
(** ** Under which authority it opens *)

(** The leverage or the order is one for this candidate. *)
Definition opens_for (c : TradeCandidate) (e : VenueEvent) : Prop :=
  match e with
  | EvSetLeverage _ symbol _ => symbol = tc_symbol c
  | EvCreateOrder rq _ => rq_symbol rq = tc_symbol c /\ rq_side rq = order_side c
  | _ => False
  end.

(** An event that does not open exposure, or that the request and the facts allow. *)
Definition sanctioned (q : CycleRequest) (s0 s : Session) (e : VenueEvent) : Prop :=
  reduces_risk e = false ->
    (cq_engine_activation q = ACTIVE /\ cq_entry_data_ready q = true) /\
    (exists c, enterable q c /\ opens_for c e) /\
    (cq_persist_facts q = true -> entries_enabled s0) /\
    forall rq accepted, e = EvCreateOrder rq accepted -> exists intent_id,
      entry_client_order_id intent_id 1 = Ok (rq_client_order_id rq) /\
      (cq_persist_facts q = true -> intent_durable intent_id s).

(** The log is [l0] and then such events only. *)
Definition sanctioned_since (l0 : list VenueEvent) (q : CycleRequest) (s0 s : Session) (l : list VenueEvent) : Prop :=
  exists l1, l = l0 ++ l1 /\ Forall (sanctioned q s0 s) l1.
Definition all_sanctioned (l0 : list VenueEvent) (q : CycleRequest) (s0 s : Session) : St -> Prop :=
  keeps_log (sanctioned_since l0 q s0 s).

Lemma sanctioned_snoc l0 q s0 s l e :
  sanctioned_since l0 q s0 s l -> sanctioned q s0 s e -> sanctioned_since l0 q s0 s (l ++ [e]).
Proof.
  intros (l1 & -> & Hl) He. exists (l1 ++ [e]). rewrite app_assoc. split; [done|]. apply Forall_app. split; [done|].
  by apply Forall_singleton.
Qed.
Lemma sanctioned_reducing l0 q s0 s l e :
  sanctioned_since l0 q s0 s l -> reduces_risk e = true -> sanctioned_since l0 q s0 s (l ++ [e]).
Proof. intros Hl He. apply sanctioned_snoc; [done|]. intros E. by rewrite E in He. Qed.

(** The events of a submission: an observation, reads, a leverage, its one order. *)
Definition of_submission (client_order_id symbol side : string) (e : VenueEvent) : bool :=
  match e with
  | EvCreateOrder rq _ => String.eqb (rq_client_order_id rq) client_order_id && String.eqb (rq_symbol rq) symbol
                          && String.eqb (rq_side rq) side
  | EvSetLeverage _ venue_symbol _ => String.eqb venue_symbol symbol
  | e => reduces_risk e
  end.

Lemma submission_sanctioned l0 q s0 s c gate intent_id command :
  entry_client_order_id intent_id 1 = Ok (se_client_order_id command) -> cq_engine_activation q = ACTIVE ->
  submittable q s0 c intent_id gate s ->
  preserves (all_sanctioned l0 q s0 s) (submit_market_order command (tc_symbol c) (order_side c)).
Proof.
  intros Hid Ha Hs. set (submitted := of_submission (se_client_order_id command) (tc_symbol c) (order_side c)).
  assert (forall l e, sanctioned_since l0 q s0 s l -> submitted e = true -> sanctioned_since l0 q s0 s (l ++ [e])) as Hsnoc.
  { intros l e Hl He. apply sanctioned_snoc; [done|]. intros Hn. split; [split; [done|apply Hs]|].
    subst submitted. destruct e as [|lev sym ok|rq ok| |]; cbn in He, Hn; try done; split_bools.
    - apply String.eqb_eq in He as ->. split; [exists c; split; [apply Hs|done]|]. split; [intros Hp; by apply Hs|done].
    - rewrite !String.eqb_eq in *. split; [exists c; split; [apply Hs|done]|]. split; [intros Hp; by apply Hs|].
      intros rq' ok' [= <- <-]. exists intent_id. split; [congruence|apply Hs]. }
  cbn. unfold binance_submit_market_order, or_unavailable_unless_fenced, create_and_receipt, payload_mapping. cbn.
  apply preserves_bind; [by apply (gateway_kept submitted)|intros _].
  repeat first
    [ apply preserves_raise | apply preserves_lift
    | apply (event_kept submitted _ Hsnoc); intros ?; simpl; first [done|by rewrite ?String.eqb_refl]
    | apply now_kept | apply (guarded_kept cap submitted _ Hsnoc); [done|]
    | apply preserves_bind; [|intros ?] | apply preserves_try; [|intros ? ? ?; simplify_eq]
    | match goal with H : match ?e with _ => _ end = Some ?k |- preserves _ ?k => destruct e; simplify_eq end ].
Qed.

Lemma sanctioned_later l0 q s0 w s s' :
  all_sanctioned l0 q s0 s w -> ledger_rel (s_committed s) (s_committed s') -> all_sanctioned l0 q s0 s' w.
Proof.
  intros (l1 & El & Hl) Hr. exists l1. split; [done|]. eapply Forall_impl; [exact Hl|]. intros e He Hn.
  destruct (He Hn) as (H1 & H2 & H3 & H4). split_and!; [apply H1..|done|done|]. intros rq ok E.
  destruct (H4 rq ok E) as (id & Hid & Hd). exists id. split; [done|]. intros Hp. eapply durable_kept; [exact Hr|by apply Hd].
Qed.

Lemma canary_request_kept request : let q := canary_request request in
  cq_engine_activation q = cq_engine_activation request /\ cq_entry_data_ready q = cq_entry_data_ready request /\
  cq_persist_facts q = cq_persist_facts request /\ forall c, enterable q c = enterable request c.
Proof. unfold canary_request. by destruct (_ && _). Qed.

Lemma cycle_sanctioned request w s r w' : run_automated_trading_cycle request (w, s) = (r, w') ->
  all_sanctioned (log w) (canary_request request) s w'.2 w'.1.
Proof.
  set (l0 := log w). set (q := canary_request request).
  apply (cycle_takes request ledger_rel (fun w => all_sanctioned l0 q s w.2 w.1) (fun w => all_sanctioned l0 q s w.2 w.1) s).
  - intros w0 s1 s2. apply sanctioned_later.
  - intros w0 s1 s2. apply sanctioned_later.
  - intros s1. exact (managing_reduces _ (sanctioned_reducing l0 q s s1)).
  - intros s1. exact (managing_reduces _ (sanctioned_reducing l0 q s s1)).
  - done.
  - intros c gate market intent_id quantity me mf en w0 s1 r0 w0' Hw Hs E. cbn [fst snd] in *.
    eapply (entry_sends_once (all_sanctioned l0 q s s1) (all_sanctioned l0 q s s1)); [| |  |exact Hw|exact E].
    + apply derisking_operations, sanctioned_reducing.
    + done.
    + intros command st r1 st' Hid Ha Hst Ex. by eapply submission_sanctioned.
  - exists []. by rewrite app_nil_r.
Qed.

End on_binance.
