(* ===== verification/CycleCases.v ===== *)
(** * CycleCases: concrete cycles

    A venue that fills what it accepts, and the cycles of a request on it: the
    theorems of [CycleSafety] and [CycleVenue] at these runs, and what particular
    runs show. *)
From S2P Require Import Prelude PyDecimal PyValue State ClientOrderId Receipts Candidates PortfolioRisk RiskControls.
From S2P Require Import RuntimeLock Funnel Adapter Quantities Reconciliation Entry Exit Protection Recovery AccountWriter.
From S2P Require Import BinanceAdapter Composition Indicators Database Repository Transactions Ledger ExchangeFirst.
From S2P Require Import RecoveryExecutor RecoveryRun LocalState FactPersistence FactLaws Cycle CycleSteps CycleRecovery.
From S2P Require Import EntryGap CycleRun CycleEntry CycleLaws CycleSafety CycleVenue.
Local Open Scope Z_scope.
Local Open Scope py_scope.

#[local] Existing Instance demo_host.
#[export] Instance demo_cycle_host : CycleHost := {|
  host_values := demo_host;
  allow_unmanaged_positions := "false";
  external_baseline_json := "";
  json_loads _ := Raise (ValueError "no JSON");
  execution_baseline_keys := ∅;
  trade_review _ _ := Ok "passed"%string;
  review_skip _ _ := Ok tt |}.

(** An account of 10000 USDT at a venue that fills the market order 987, reports
    the position at a mark price, and keeps the stops it is sent. *)
Record SpotVenue := mkSpotVenue { sv_mark : string; sv_orders : list OrderRequest }.

Definition venue_balance : PyVal :=
  VDict "" [("USDT", VDict "" [("free", VFloat "10000.0"); ("total", VFloat "10000.0")])]%string.
Definition venue_market : PyVal :=
  VDict "" [("precision", VDict "" [("price", VFloat "0.1"); ("amount", VFloat "0.0001")]);
            ("limits", VDict "" [("cost", VDict "" [("min", VFloat "5.0")])])]%string.
Definition venue_trades : PyVal :=
  VList "" [VDict "" [("id", VStr "t-1"); ("order", VStr "987"); ("symbol", VStr "BTC/USDT"); ("side", VStr "buy");
    ("amount", VFloat "0.0078"); ("price", VFloat "64000.03"); ("timestamp", VInt 200);
    ("fee", VDict "" [("currency", VStr "USDT"); ("cost", VFloat "0.2")])]]%string.
Definition venue_positions (w : SpotVenue) : PyVal :=
  VList "" (if existsb (fun rq => negb (rq_reduce_only rq)) (sv_orders w) then
    [VDict "" [("contracts", VFloat "0.0078"); ("symbol", VStr "BTC/USDT:USDT"); ("side", VStr "long");
      ("entryPrice", VFloat "64000.03"); ("markPrice", VStr (sv_mark w)); ("unrealizedPnl", VFloat "0.0")]%string] else []).
Definition venue_order_id (rq : OrderRequest) : string :=
  if negb (rq_reduce_only rq) then "987" else if String.eqb (rq_type rq) "market" then "990" else rq_client_order_id rq.
Definition venue_open_orders (w : SpotVenue) : PyVal :=
  VList "[]" (omap (fun rq => if String.eqb (rq_type rq) "market" then None else
    Some (VDict "" [("id", VStr (venue_order_id rq)); ("clientOrderId", VStr (rq_client_order_id rq));
      ("symbol", VStr "BTC/USDT"); ("side", VStr (rq_side rq)); ("type", VStr (rq_type rq)); ("amount", VFloat "0.0078");
      ("status", VStr "open"); ("reduceOnly", VBool true)]%string)) (sv_orders w)).

Definition spot_client : VenueClient SpotVenue := {|
  vc_credentials w := (Ok true, w);
  vc_connect w := (Ok false, w);
  vc_observe w := ("/r"%string, (run_history demo_registry demo_history).1, 310, w);
  vc_now w := (310, w);
  vc_fetch_balance w := (Ok venue_balance, w);
  vc_fetch_positions w := (Ok (venue_positions w), w);
  vc_fetch_open_orders _ w := (Ok (venue_open_orders w), w);
  vc_open_algo_orders := None;
  vc_fetch_ticker _ w := (Ok (VDict "" [("last", VFloat "64000.0")]%string), w);
  vc_market _ w := (Ok venue_market, w);
  vc_set_leverage _ _ w := (Ok VNone, w);
  vc_create_order rq w :=
    (Ok (VDict "" [("id", VStr (venue_order_id rq)); ("status", VStr "open")]%string),
     mkSpotVenue (sv_mark w) (sv_orders w ++ [rq]));
  vc_get_order _ _ w := (Raise (OtherException "offline"), w);
  vc_fetch_closed_orders _ w := (Ok (VList "[]" []), w);
  vc_fetch_my_trades _ id w := (Ok (if String.eqb id "987" then venue_trades else VList "[]" []), w);
  vc_get_algo_order := None;
  vc_cancel_order id _ w :=
    (Ok (VDict "" [("id", VStr id); ("side", VStr "sell"); ("type", VStr "stop"); ("amount", VFloat "0.0078");
                   ("status", VStr "canceled")]%string),
     mkSpotVenue (sv_mark w) (bfilter (fun rq => negb (String.eqb (venue_order_id rq) id)) (sv_orders w)));
  vc_cancel_algo_order := None |}.

Definition trend_candidate : TradeCandidate :=
  mkCandidate "cand-1" "cycle-1" "trend" "1.0" "PRODUCTION" PRIMARY "BTC/USDT" "LONG" 0
    (dint 64000) (mkDec 55 (-2)) (dint 320) (Some (dint 960)) (dint 20) 75000000 false.

Definition demo_request (activation : EngineActivation) (forced : option ExitReason) (persist : bool) : CycleRequest :=
  mkCycleRequest "cycle-1" "BTC/USDT" (mkTimeframe "15m" []) BINANCE_TESTNET activation "fence-1" 100 None None
    (mkSizing (mkDec 1 (-2)) 10 (mkDec 5 (-2)) (Some (dint 500)) (mkDec 150 (-2)) None (mkDec 750 (-2)))
    ∅ [] true None false false false None forced persist (Some "decision-1"%string) false "2.0.0" false 0
    AUTH_PRODUCTION "OK" (Some trend_candidate) true "OK" (Some "trend"%string) false None "FRESH".

(** A database in which entries are enabled. *)
Definition enabled_session : Session :=
  (commit (set_runtime_control "global" true None None None new_session).2).2.

Definition Venue : Type := AState (SpotVenue * list VenueEvent).
#[export] Instance demo_venue : CycleAdapter Venue := binance_cycle_adapter (V := recorded spot_client) (Some cap_b).

Definition venue_at (mark : string) (orders : list OrderRequest) : Venue := (false, (mkSpotVenue mark orders, [])).
Definition orders_sent (w : Venue) : list OrderRequest := sv_orders w.2.1.
Definition opened (w : Venue) : list OrderRequest := bfilter (fun rq => negb (rq_reduce_only rq)) (orders_sent w).

(** A first cycle enters and protects. *)
Definition entered : res CycleResult * (Venue * Session) :=
  run_automated_trading_cycle (demo_request ACTIVE None true) (venue_at "64000.0" [], enabled_session).
(** The next cycle sees a profit and replaces the stop. *)
Definition protected : res CycleResult * (Venue * Session) :=
  run_automated_trading_cycle (demo_request ACTIVE None true)
    (venue_at "64400.0" (orders_sent entered.2.1), entered.2.2).

(** A cycle in SHADOW mode that persists nothing, with a forced exit. *)
Definition reduced : res CycleResult * (Venue * Session) :=
  run_automated_trading_cycle (demo_request SHADOW (Some MANUAL_REDUCE_ONLY) false)
    (venue_at "64400.0" (orders_sent entered.2.1), entered.2.2).

(** A host whose baseline of unmanaged positions is asked for and missing. *)
Definition unreadable_host : CycleHost := {|
  host_values := demo_host;
  allow_unmanaged_positions := "True";
  external_baseline_json := " ";
  json_loads _ := Raise (ValueError "no JSON");
  execution_baseline_keys := ∅;
  trade_review _ _ := Ok "passed"%string;
  review_skip _ _ := Ok tt |}.
Definition entered_blind : res CycleResult * (Venue * Session) :=
  run_automated_trading_cycle (H := unreadable_host) (demo_request ACTIVE None true) (venue_at "64000.0" [], enabled_session).

Definition errors_of (r : res CycleResult) : list string := match r with Ok x => cr_errors x | Raise _ => [] end.

(** ** What the first cycle does *)

Definition opening_id : string := "A2E-8ffeffc805c222b49ce2-1".
Lemma entered_opens : map rq_client_order_id (opened entered.2.1) = [opening_id].
Proof. vm_compute. reflexivity. Qed.
Lemma entered_places_both : length (orders_sent entered.2.1) = 3%nat /\ errors_of entered.1 = [].
Proof. vm_compute. done. Qed.
Lemma entered_protects : map mp_state (positions (s_committed entered.2.2)) = [PROTECTED].
Proof. vm_compute. reflexivity. Qed.
Lemma entered_run : run_automated_trading_cycle (demo_request ACTIVE None true) (venue_at "64000.0" [], enabled_session) =
  (entered.1, ((entered.2.1.1, (entered.2.1.2.1, entered.2.1.2.2)), entered.2.2)).
Proof. unfold entered. by destruct (run_automated_trading_cycle _ _) as [r [[b [w l]] s]]. Qed.

(** The acceptance of an order that opens exposure. *)
Definition accepted_opening (e : VenueEvent) : bool :=
  match e with EvCreateOrder rq ok => negb (rq_reduce_only rq) && ok | _ => false end.
Lemma entered_opening : exists rq, EvCreateOrder rq true ∈ entered.2.1.2.2 /\ rq_reduce_only rq = false.
Proof.
  assert (existsb accepted_opening entered.2.1.2.2 = true) as He by (vm_compute; reflexivity).
  apply existsb_exists in He as (e & Hin%list_elem_of_In & He). destruct e as [|?|rq [] | |]; try done.
  - exists rq. split; [exact Hin|]. simpl in He. by destruct (rq_reduce_only rq).
  - simpl in He. by rewrite andb_false_r in He.
Qed.

(** ** The theorems at this cycle *)

Lemma cycle_keeps_the_ledger_witness :
  map mp_state (positions (s_committed entered.2.2)) = [PROTECTED] /\
  rtc ledger_step (committed_lg enabled_session) (committed_lg entered.2.2).
Proof.
  split; [exact entered_protects|]. exact (proj1 (cycle_keeps_the_ledger _ _ _ _ _ _ entered_run)).
Defined.

Lemma cycle_is_fenced_and_opens_once_witness :
  map rq_client_order_id (opened entered.2.1) = [opening_id] /\ fenced (Some cap_b) entered.2.1.2.2 /\
  zcount opens entered.2.1.2.2 <= 1.
Proof.
  split; [exact entered_opens|].
  destruct (cycle_is_fenced_and_opens_once (V := spot_client) (Some cap_b) _ _ _ _ _ _ _ _ _ entered_run) as (Hf & Ho & _).
  exact (conj Hf Ho).
Defined.


(** ** What other cycles show *)

(** The new stop is on the grid of the quantity step, [0.0001], which the cycle
    gives to [_apply_profit_protection] as the tick; the venue's tick is [0.1]. *)
Theorem profit_stop_off_the_price_grid : exists rq p,
  rq ∈ orders_sent protected.2.1 /\ rq_type rq = "stop_market"%string /\ rq_stop_price rq = Some p /\
  (dval p == 64128002 # 1000)%Q /\ forall n, ~ (dval p == inject_Z n * (1 # 10))%Q.
Proof.
  assert (omap rq_stop_price (bfilter (fun rq => String.eqb (rq_type rq) "stop_market") (orders_sent protected.2.1)) =
    [mkDec 6412800200000000000000000000 (-23)]) as E by (vm_compute; reflexivity).
  destruct (bfilter _ _) as [|rq l] eqn:El; [done|].
  assert (rq ∈ orders_sent protected.2.1 /\ rq_type rq = "stop_market"%string) as [Hin Ht].
  { assert (rq ∈ rq :: l) as Hl by left. rewrite <- El in Hl. apply elem_of_bfilter in Hl as [Hl Hin].
    split; [done|by apply String.eqb_eq]. }
  destruct (rq_stop_price rq) as [p|] eqn:Ep; [|exfalso; revert El; vm_compute; intros [= <- _]; done].
  simpl in E. rewrite Ep in E. simpl in E. injection E as -> _.
  exists rq, (mkDec 6412800200000000000000000000 (-23)). split_and!; [done|done|done|reflexivity|].
  intros n Hn. assert (64128002 # 1000 == inject_Z n * (1 # 10))%Q as Hq by (rewrite <- Hn; reflexivity).
  unfold Qeq in Hq. simpl in Hq. lia.
Qed.

(** A forced exit is sent to the exchange in SHADOW mode, by a cycle with
    [persist_facts] off; no table records the exit. *)
Theorem shadow_cycle_sends_forced_exit :
  match last (orders_sent reduced.2.1) with
  | Some rq => rq_type rq = "market"%string /\ rq_reduce_only rq = true
  | None => False
  end /\
  length (orders_sent reduced.2.1) = S (length (orders_sent entered.2.1)) /\
  events (s_committed reduced.2.2) = events (s_committed entered.2.2).
Proof. split_and!; [vm_compute; done|vm_compute; reflexivity|vm_compute; reflexivity]. Qed.

(** A local state that cannot be read is an error of the cycle, and does not stop its entry. *)
Theorem unreadable_local_state_does_not_block :
  errors_of entered_blind.1 = ["LOCAL_STATE_UNAVAILABLE"]%string /\ length (opened entered_blind.2.1) = 1%nat.
Proof. vm_compute. done. Qed.

(** The process dies between the submission of an entry and the record of its
    order: the intent is reserved, the exchange has filled its order. *)
Definition lost_submission : Session :=
  (persist_entry_intent_before_submission "cycle-0" None "3" "BTC/USDT" "long" "trend" PRIMARY BINANCE_TESTNET 0 "fence-0"
     (dint 5) (Some (dint 10000)) true 2 enabled_session).2.
Definition restarted : res CycleResult * (Venue * Session) :=
  run_automated_trading_cycle (demo_request SHADOW None true)
    (venue_at "64000.0" (bfilter (fun rq => negb (rq_reduce_only rq)) (orders_sent entered.2.1)), lost_submission).

(** The next cycle cancels the intent, although the order at the exchange has the
    client id that is derived from the intent; the position belongs to nobody. *)
Theorem lost_submission_is_cancelled :
  map it_state (intents (s_committed lost_submission)) = [EXCHANGE_SUBMITTING] /\
  entry_client_order_id "3" 1 = Ok opening_id /\ map rq_client_order_id (opened restarted.2.1) = [opening_id] /\
  map it_state (intents (s_committed restarted.2.2)) = [CANCELLED] /\ positions (s_committed restarted.2.2) = [] /\
  map ic_incident_type (incidents (s_committed restarted.2.2)) = ["EXTERNAL_POSITION_QUARANTINED"]%string.
Proof. split_and!; vm_compute; reflexivity. Qed.
