(* ===== verification/RecoveryProgress.v ===== *)
(** * RecoveryProgress: an unknown intent does not stay unknown

    [_resolve_unknown_intent] asks the exchange for the order of an intent whose
    submission was never answered, as often as the planner returns to it.  The
    theorem says that the first answer settles the intent. *)
From S2P Require Import Prelude PyDecimal PyValue State ClientOrderId Adapter Reconciliation Recovery Database Repository.
From S2P Require Import Transactions Ledger FactPersistence FactLaws RecoveryExecutor.
Local Open Scope Z_scope.
Local Open Scope py_scope.

(** ** A transition that must succeed *)

Section run.
Context {H : Host}.

Lemma map_put_keys {R} (key : R -> string) r l :
  map key (map (fun x => if String.eqb (key x) (key r) then r else x) l) = map key l.
Proof.
  rewrite map_map. apply map_ext. intros x. destruct (String.eqb_spec (key x) (key r)); congruence.
Qed.
Lemma forallb_put {R} (key : R -> string) (p : R -> bool) r l :
  p r = true -> forallb p l = true -> forallb p (map (fun x => if String.eqb (key x) (key r) then r else x) l) = true.
Proof.
  intros Hr. rewrite !forallb_forall. intros Hl x (y & <- & Hy)%in_map_iff. destruct (String.eqb _ _); auto.
Qed.
Lemma find_put_intent (r : IntentRow) (d : Db) key :
  is_Some (find_row (R := IntentRow) key d) -> it_intent_id r = key -> find_row key (put_row r d) = Some r.
Proof.
  unfold find_row, put_row. simpl. intros [x Hx] <-. revert Hx. induction (intents d) as [|y l IH]; [done|]. simpl.
  destruct (String.eqb (it_intent_id y) (it_intent_id r)) eqn:E; simpl; [by rewrite String.eqb_refl|]. by rewrite E.
Qed.

Lemma moved_constraints (d : Db) (i : IntentRow) next e :
  constraints_ok d = true -> find_row (it_intent_id i) d = Some i -> ev_event_id e ∉ map ev_event_id (events d) ->
  constraints_ok (insert_row e (put_row (it_moved i next) d)) = true.
Proof.
  intros Hc Hi He. rewrite <- Hc. unfold constraints_ok.
  assert (unique_key (R := EventRow) d = true) as Hev.
  { revert Hc. unfold constraints_ok. rewrite !andb_true_iff. tauto. }
  assert (forallb intent_ok (intents d) = true) as Hin.
  { revert Hc. unfold constraints_ok. rewrite !andb_true_iff. tauto. }
  assert (unique_key (R := IntentRow) (insert_row e (put_row (it_moved i next) d)) = unique_key (R := IntentRow) d) as ->.
  { unfold unique_key. apply bool_decide_ext.
    change (NoDup (map it_intent_id (map (fun x => if String.eqb (it_intent_id x) (it_intent_id (it_moved i next))
      then it_moved i next else x) (intents d))) <-> NoDup (map it_intent_id (intents d))).
    by rewrite map_put_keys. }
  assert (unique_key (R := EventRow) (insert_row e (put_row (it_moved i next) d)) = unique_key (R := EventRow) d) as ->.
  { rewrite Hev. unfold unique_key in *. apply bool_decide_eq_true in Hev. apply bool_decide_eq_true. simpl in *.
    rewrite map_app. apply NoDup_app. split; [done|]. split; [|apply NoDup_singleton].
    intros x Hx Hx2. apply list_elem_of_singleton in Hx2 as ->. done. }
  assert (forallb intent_ok (intents (insert_row e (put_row (it_moved i next) d))) = forallb intent_ok (intents d)) as ->;
    [|reflexivity].
  rewrite Hin. apply (forallb_put it_intent_id intent_ok (it_moved i next) (intents d)); [|done].
  rewrite forallb_forall in Hin. apply find_some in Hi as [Hi _]. apply (Hin i Hi).
Qed.

Lemma unique_put {R K} `{EqDecision K} (key : R -> string) (column : R -> option K) r x l :
  NoDup (map key l) -> column r = Some x -> x ∉ omap column l -> NoDup (omap column l) ->
  NoDup (omap column (map (fun y => if String.eqb (key y) (key r) then r else y) l)).
Proof.
  intros Hk Hr. induction l as [|y l IH]; [done|]. apply NoDup_cons in Hk as [Hy Hk]. simpl.
  destruct (String.eqb_spec (key y) (key r)) as [E|E].
  - assert (map (fun y => if String.eqb (key y) (key r) then r else y) l = l) as ->.
    { rewrite <- (map_id l) at 2. apply map_ext_in. intros z Hz. destruct (String.eqb_spec (key z) (key r)) as [Ez|]; [|done].
      destruct Hy. rewrite E, <- Ez. apply list_elem_of_In. by apply in_map. }
    rewrite Hr. destruct (column y); intros Hx Hn.
    + apply NoDup_cons in Hn as [_ Hn]. apply NoDup_cons. split; [|done]. intros Hin. apply Hx. by right.
    + by apply NoDup_cons.
  - destruct (column y) as [k|]; [|by apply IH]. intros Hx Hn. apply NoDup_cons in Hn as [Hkl Hn].
    assert (x ∉ omap column l) as Hxl by (intros Hin; apply Hx; by right).
    apply NoDup_cons. split; [|by apply IH]. intros Hin. apply list_elem_of_omap in Hin as (z & Hz & Ec).
    apply list_elem_of_In, in_map_iff in Hz as (z0 & Ez & Hz0). destruct (String.eqb _ _).
    + subst z. rewrite Hr in Ec. injection Ec as ->. apply Hx. left.
    + subst z. apply Hkl. apply list_elem_of_omap. exists z0. split; [by apply list_elem_of_In|done].
Qed.

Lemma same_column {R K} (key : R -> string) (column : R -> option K) r l :
  (forall y, In y l -> key y = key r -> column y = column r) ->
  omap column (map (fun y => if String.eqb (key y) (key r) then r else y) l) = omap column l.
Proof.
  induction l as [|y l IH]; [done|]. intros Hs.
  assert (forall z, In z l -> key z = key r -> column z = column r) as Hl by (intros; apply Hs; [by right|done]).
  apply IH in Hl. pose proof (Hs y (or_introl eq_refl)) as Hy.
  assert (column (if String.eqb (key y) (key r) then r else y) = column y) as E.
  { destruct (String.eqb_spec (key y) (key r)) as [E|]; [by rewrite Hy|done]. }
  simpl. rewrite E. destruct (column y); [by f_equal|done].
Qed.

Lemma identified_constraints (d : Db) (o : OrderRow) x t :
  constraints_ok d = true -> find_row (eo_order_record_id o) d = Some o ->
  Some x ∉ map eo_exchange_order_id (orders d) -> constraints_ok (put_row (eo_identified o x t) d) = true.
Proof.
  intros Hc Ho Hx. rewrite <- Hc. unfold constraints_ok.
  assert (NoDup (map row_key (rows (R := OrderRow) d))) as Hkeys by (by apply unique_keys).
  assert (unique eo_exchange_order_id (orders d) = true /\ forallb order_ok (orders d) = true) as [Hu Hok].
  { revert Hc. unfold constraints_ok. rewrite !andb_true_iff. tauto. }
  set (o' := eo_identified o x t).
  set (put := map (fun y => if String.eqb (eo_order_record_id y) (eo_order_record_id o') then o' else y) (orders d)).
  assert (find_row (R := OrderRow) (eo_order_record_id o) d = Some o -> order_ok o' = true) as Hoo.
  { intros [Hin _]%find_some. rewrite forallb_forall in Hok. exact (Hok o Hin). }
  assert (unique_key (R := OrderRow) (put_row o' d) = unique_key (R := OrderRow) d) as ->.
  { unfold unique_key. apply bool_decide_ext. change (NoDup (map eo_order_record_id put) <-> NoDup (map eo_order_record_id (orders d))).
    unfold put. by rewrite map_put_keys. }
  assert (unique (fun o => Some (eo_client_order_id o)) (orders (put_row o' d)) = unique (fun o => Some (eo_client_order_id o)) (orders d)) as ->.
  { unfold unique. apply bool_decide_ext. change (orders (put_row o' d)) with put.
    assert (omap (fun o => Some (eo_client_order_id o)) put = omap (fun o => Some (eo_client_order_id o)) (orders d)) as ->; [|done].
    apply (same_column eo_order_record_id (fun o => Some (eo_client_order_id o))). intros y Hy Ey.
    pose proof (find_row_unique (R := OrderRow) d y Hkeys ltac:(by apply list_elem_of_In)) as E1.
    simpl in E1, Ey. rewrite Ey, Ho in E1. by injection E1 as ->. }
  assert (unique eo_exchange_order_id (orders (put_row o' d)) = unique eo_exchange_order_id (orders d)) as ->.
  { rewrite Hu. unfold unique in *. apply bool_decide_eq_true in Hu. apply bool_decide_eq_true.
    apply (unique_put eo_order_record_id eo_exchange_order_id o' x); [done|done| |done].
    intros (o1 & Ho1 & E1)%list_elem_of_omap. apply Hx. rewrite <- E1. by apply list_elem_of_fmap_2. }
  assert (forallb order_ok (orders (put_row o' d)) = forallb order_ok (orders d)) as ->; [|reflexivity].
  rewrite Hok. apply (forallb_put eo_order_record_id order_ok o' (orders d)); [by apply Hoo|done].
Qed.

(** The host draws no event id twice. *)
Definition fresh_events (s : Session) : Prop :=
  forall n, (s_draws s <= n)%nat -> uuid4 n ∉ map ev_event_id (events (s_db s)).

Lemma transition_intent_succeeds i next name payload (s : Session) :
  constraints_ok (s_db s) = true -> fresh_events s -> find_row (it_intent_id i) (s_db s) = Some i ->
  validate_intent_transition (it_state i) next = Ok tt ->
  exists s', transition_intent (it_intent_id i) (it_state i) next name payload None s = (Ok tt, s') /\
    constraints_ok (s_db s') = true /\ find_row (it_intent_id i) (s_db s') = Some (it_moved i next) /\
    orders (s_db s') = orders (s_db s).
Proof.
  intros Hc Hf Hi Hv.
  set (e := mkEvent (uuid4 (S (s_draws s))) (it_intent_id i) AGG_INTENT name
    (transition_payload payload (intent_state_value (it_state i)) (intent_state_value next) (it_version (it_moved i next)))
    (clock (s_draws s))).
  pose proof (moved_constraints (s_db s) i next e Hc Hi (Hf (S (s_draws s)) ltac:(lia))) as Hm.
  exists (mkSession (s_committed s) (insert_row e (put_row (it_moved i next) (s_db s))) (S (S (s_draws s)))).
  split; [|split; [exact Hm|split; [exact (find_put_intent (it_moved i next) (s_db s) (it_intent_id i) (ex_intro _ i Hi) eq_refl)|done]]].
  unfold transition_intent, append_event, flush.
  cbn -[constraints_ok insert_row put_row find_row validate_intent_transition bool_decide transition_payload it_moved].
  rewrite Hi.
  cbn -[constraints_ok insert_row put_row find_row validate_intent_transition bool_decide transition_payload it_moved].
  rewrite bool_decide_eq_true_2 by done.
  cbn -[constraints_ok insert_row put_row find_row validate_intent_transition transition_payload it_moved]. rewrite Hv.
  unfold sbind, new_uuid, add, on_db, smodify, sret. cbn -[constraints_ok insert_row put_row transition_payload it_moved]. fold e. rewrite Hm.
  cbn -[constraints_ok insert_row put_row transition_payload it_moved]. by rewrite Hm.
Qed.
End run.

(** ** The recovery action *)

Section progress.
Context {H : Host} {W : Type} {A : ExchangeAdapter W}.
Notation World := (RecoveryExecutor.World (W := W)).
Context (a : RecoveryAction) (local_state : LocalStateView) (view : LocalIntentView).
Context (Hview : List.find (fun i => String.eqb (li_intent_id i) (ra_target_ref a)) (ls_intents local_state) = Some view).

(** No longer unknown: known not to have been submitted, or acknowledged under the
    id that the exchange gave. *)
Definition settled (intent_id : string) (d : Db) : Prop :=
  exists i, find_row (R := IntentRow) intent_id d = Some i /\
    (it_state i = CANCELLED \/
     it_state i = EXCHANGE_ACKNOWLEDGED /\ exists o x, o ∈ orders d /\ eo_intent_id o = intent_id /\ eo_exchange_order_id o = Some x).

(** The committed facts of an unknown intent: submitting or unknown, with an order
    whose exchange id is not known, in a database whose next event ids are new. *)
Record unresolved (intent_id : string) (s : Session) : Prop := {
  un_constraints : constraints_ok (s_committed s) = true;
  un_fresh : forall n, (s_draws s <= n)%nat -> uuid4 n ∉ map ev_event_id (events (s_committed s));
  un_row : exists i, find_row (R := IntentRow) intent_id (s_committed s) = Some i /\ it_state i ∈ [EXCHANGE_SUBMITTING; EXCHANGE_UNKNOWN];
  un_order : exists o, head (bfilter (order_of_intent intent_id) (orders (s_committed s))) = Some o /\
    eo_exchange_order_id o = None }.

(** An order id that the exchange may give: not empty, and of no order yet. *)
Definition new_order_id (x : string) (s : Session) : Prop :=
  str_truthy x = true /\ Some x ∉ map eo_exchange_order_id (orders (s_committed s)).

Lemma scalar_order id s {X} (f : option OrderRow -> SM Session X) :
  constraints_ok (s_db s) = true ->
  sbind (scalar (order_of_intent id)) f s = f (head (bfilter (order_of_intent id) (orders (s_db s)))) s.
Proof. intros Hc. unfold scalar, select, sbind, flush, sret. cbn -[constraints_ok]. by rewrite Hc. Qed.

Lemma not_submitted_settles (w : W) (s : Session) : unresolved (ra_target_ref a) s ->
  exists s', _mark_intent_not_submitted a (w, s) = (Ok true, (w, s')) /\ settled (ra_target_ref a) (s_committed s').
Proof.
  intros [Hc Hf (i & Hi & Hn) (o & Ho & Hx)]. set (id := ra_target_ref a) in *.
  set (s0 := mkSession (s_committed s) (s_committed s) (s_draws s)).
  pose proof (find_row_key _ _ _ Hi) as Hk. simpl in Hk.
  unfold _mark_intent_not_submitted, on_database, with_session. fold id s0.
  unfold get at 1, sbind at 1. cbn -[find_row sbind scalar]. rewrite Hi. unfold require, sbind at 1.
  cbn -[find_row sbind scalar]. rewrite scalar_order by done. cbn [s_db s0]. rewrite Ho.
  change (Some o ≫= (fun o => eo_exchange_order_id o)) with (eo_exchange_order_id o). rewrite Hx. cbn [ostr_truthy].
  destruct (bool_decide (it_state i ∈ [CANCELLED; REJECTED; EXPIRED])) eqn:Et.
  { exfalso. apply elem_of_cons in Hn as [Es|[Es|Hn]%elem_of_cons]; [by rewrite Es in Et..|by apply elem_of_nil in Hn]. }
  assert (validate_intent_transition (it_state i) CANCELLED = Ok tt) as Hv.
  { apply elem_of_cons in Hn as [->|[->|Hn]%elem_of_cons]; [reflexivity|reflexivity|by apply elem_of_nil in Hn]. }
  rewrite <- Hk in Hi.
  destruct (transition_intent_succeeds i CANCELLED "RecoveryConfirmedNotSubmitted" [("reason", free_text)]%string s0
    Hc Hf Hi Hv) as (s1 & E1 & Hc1 & Hi1 & _).
  rewrite Hk in E1, Hi1. unfold sbind at 1. rewrite E1. unfold commit, sbind, flush, smodify, sret. rewrite Hc1.
  eexists. split; [reflexivity|]. exists (it_moved i CANCELLED). split; [exact Hi1|]. by left.
Qed.

Lemma acknowledged_settles (w w' : W) (s : Session) receipt :
  unresolved (ra_target_ref a) s -> new_order_id (or_exchange_order_id receipt) s ->
  query_order_by_client_id (li_symbol view) (li_client_order_id view) w = (Ok (Some receipt), w') ->
  exists s', _resolve_unknown_intent a (Some local_state) (w, s) = (Ok true, (w', s')) /\
    settled (ra_target_ref a) (s_committed s').
Proof.
  intros [Hc Hf (i & Hi & Hn) (o & Ho & Hx)] [Ht Hnew] Eq. set (id := ra_target_ref a) in *.
  set (s0 := mkSession (s_committed s) (s_committed s) (s_draws s)).
  pose proof (find_row_key _ _ _ Hi) as Hk. simpl in Hk.
  assert (order_of_intent id o = true /\ o ∈ orders (s_committed s)) as [Hoid Hoin].
  { apply head_Some_elem_of, elem_of_bfilter in Ho as [? ?]. auto. }
  assert (find_row (R := OrderRow) (eo_order_record_id o) (s_committed s) = Some o) as Hof.
  { exact (find_row_unique (R := OrderRow) (s_committed s) o (unique_keys _ Hc) Hoin). }
  set (o' := eo_identified o (or_exchange_order_id receipt) (Some (or_acknowledged_at receipt))).
  pose proof (identified_constraints (s_committed s) o _ (Some (or_acknowledged_at receipt)) Hc Hof Hnew) as Hc1. fold o' in Hc1.
  set (s1 := mkSession (s_committed s) (put_row o' (s_committed s)) (s_draws s)).
  assert (save_exchange_order_receipt (eo_order_record_id o) (or_exchange_order_id receipt) (or_acknowledged_at receipt) s0 =
    (Ok tt, s1)) as Es.
  { unfold save_exchange_order_receipt, get, sbind at 1. cbn -[find_row sbind constraints_ok]. rewrite Hof.
    unfold require, sassert, assign, on_db, smodify, sbind, flush, sret. rewrite Ht.
    cbn -[constraints_ok put_row eo_identified]. fold o'. by rewrite Hc1. }
  assert (validate_intent_transition (it_state i) EXCHANGE_ACKNOWLEDGED = Ok tt /\ it_state i <> EXCHANGE_ACKNOWLEDGED) as [Hv Hna].
  { apply elem_of_cons in Hn as [->|[->|Hn]%elem_of_cons]; [done|done|by apply elem_of_nil in Hn]. }
  rewrite <- Hk in Hi.
  destruct (transition_intent_succeeds i EXCHANGE_ACKNOWLEDGED "RecoveryExchangeAcknowledged"
    [("exchange_order_id", VStr (or_exchange_order_id receipt))]%string s1 Hc1 Hf Hi Hv) as (s2 & E2 & Hc2 & Hi2 & Horders).
  rewrite Hk in E2, Hi2, Hi.
  assert ((ls ← Some local_state; List.find (fun i => String.eqb (li_intent_id i) id) (ls_intents ls)) = Some view) as Hv2 by exact Hview.
  unfold _resolve_unknown_intent. fold id. rewrite Hv2. unfold sbind at 1, on_adapter. rewrite Eq.
  unfold on_database, with_session, sbind at 1. fold id s0. unfold get at 1, sbind at 1. cbn [s_db s0]. rewrite Hi.
  rewrite scalar_order by done. cbn [s_db s0]. rewrite Ho.
  unfold require, sbind at 1. cbn -[sbind save_exchange_order_receipt transition_intent bool_decide commit].
  unfold sbind at 1. cbn -[sbind save_exchange_order_receipt transition_intent bool_decide commit].
  unfold sbind at 1. rewrite Es. rewrite bool_decide_eq_false_2 by done. unfold sbind at 1. rewrite E2.
  unfold commit, sbind, flush, smodify, sret. rewrite Hc2.
  eexists. split; [reflexivity|]. exists (it_moved i EXCHANGE_ACKNOWLEDGED). split; [exact Hi2|]. right. split; [done|].
  exists o', (or_exchange_order_id receipt). cbn [s_committed]. rewrite Horders. split_and!; [|by apply String.eqb_eq|done].
  change (orders (s_db s1)) with (map (fun y => if String.eqb (eo_order_record_id y) (eo_order_record_id o') then o' else y) (orders (s_committed s))).
  apply list_elem_of_fmap. exists o. split; [|done]. simpl. by rewrite String.eqb_refl.
Qed.

Lemma resolving (w : W) (s : Session) :
  _resolve_unknown_intent a (Some local_state) (w, s) =
  match query_order_by_client_id (li_symbol view) (li_client_order_id view) w with
  | (Ok None, w') => _mark_intent_not_submitted a (w', s)
  | (Ok (Some _), _) => _resolve_unknown_intent a (Some local_state) (w, s)
  | (Raise e, w') => (Raise e, (w', s))
  end.
Proof.
  assert ((ls ← Some local_state; List.find (fun i => String.eqb (li_intent_id i) (ra_target_ref a)) (ls_intents ls)) = Some view)
    as Hv by exact Hview.
  destruct (query_order_by_client_id _ _ w) as [[[receipt|]|e] w'] eqn:Eq; [done| |];
    unfold _resolve_unknown_intent; rewrite Hv; unfold sbind at 1, on_adapter; by rewrite Eq.
Qed.

(** [n] cycles that execute the action. *)
Fixpoint attempted (n : nat) (w : World) : World :=
  match n with O => w | S n => attempted n (_resolve_unknown_intent a (Some local_state) w).2 end.

(** Within [n] queries the exchange answers: it has no such order, or the order
    with an id that no order has yet.  Until then its reads fail. *)
Fixpoint answered (s : Session) (n : nat) (w : W) : Prop :=
  match n with
  | O => False
  | S n =>
      match query_order_by_client_id (li_symbol view) (li_client_order_id view) w with
      | (Ok None, _) => True
      | (Ok (Some receipt), _) => new_order_id (or_exchange_order_id receipt) s
      | (Raise _, w') => answered s n w'
      end
  end.

(** C21. An intent whose submission was never answered does not stay unknown: if the
    exchange answers one of the queries of [n] recoveries, after at most [n]
    recoveries the intent is committed as cancelled, or as acknowledged with the
    exchange's order id; failing reads only delay it. *)
Theorem unknown_intent_is_settled n (w : W) (s : Session) :
  unresolved (ra_target_ref a) s -> answered s n w ->
  exists k, (k <= n)%nat /\ settled (ra_target_ref a) (s_committed (attempted k (w, s)).2).
Proof.
  intros Hun. revert w. induction n as [|n IH]; intros w; [done|]. simpl.
  destruct (query_order_by_client_id _ _ w) as [[[receipt|]|e] w'] eqn:Eq; intros Ha.
  - destruct (acknowledged_settles w w' s receipt Hun Ha Eq) as (s' & E & Hs). exists 1%nat. split; [lia|].
    cbn [attempted]. by rewrite E.
  - destruct (not_submitted_settles w' s Hun) as (s' & E & Hs). exists 1%nat. split; [lia|].
    cbn [attempted]. rewrite resolving, Eq. by rewrite E.
  - destruct (IH w' Ha) as (k & Hk & Hs). exists (S k). split; [lia|].
    cbn [attempted]. by rewrite resolving, Eq.
Qed.
End progress.

(** ** An intent that is asked for twice *)

#[local] Existing Instance demo_host.

(** An exchange whose queries answer in turn. *)
Definition Answers : Type := list (res (option ExchangeOrderReceipt)).
#[local] Instance answering : ExchangeAdapter Answers := {|
  submit_market_order _ _ _ w := (Raise BinanceAdapterUnavailable, w);
  fetch_fills _ _ w := (Raise BinanceAdapterUnavailable, w);
  submit_protection _ _ _ _ w := (Raise BinanceAdapterUnavailable, w);
  submit_reduce_only_exit _ _ _ w := (Raise BinanceAdapterUnavailable, w);
  cancel_order _ _ w := (Raise BinanceAdapterUnavailable, w);
  query_order_by_client_id _ _ w := (default (Ok None) (head w), tail w);
  fetch_authoritative_snapshot w := (Raise BinanceAdapterUnavailable, w) |}.

Definition late_order : ExchangeOrderReceipt :=
  mkOrderReceipt "987" "cid" "BTCUSDT" "buy" "market" (dint 2) None "closed" 50 false.
Definition late_answers : Answers := [Raise BinanceAdapterUnavailable; Ok (Some late_order)].
Definition unknown_view : LocalIntentView := mkLocalIntent "i1" "BTC/USDT" "cid" EXCHANGE_SUBMITTING false false.
Definition unknown_state : LocalStateView := mkLocalState [] [unknown_view] ∅ [] ∅.
Definition unknown_action : RecoveryAction := action RESOLVE_UNKNOWN_INTENT_BY_CLIENT_ID "i1" (Some "BTC/USDT"%string).
(** A submission that was recorded, and never answered. *)
Definition submitting : Session := (commit (run_calls (take 3 demo_entry) new_session)).2.

Lemma submitting_ids : map ev_event_id (events (s_committed submitting)) = [pretty 1%nat].
Proof. vm_compute. reflexivity. Qed.
Lemma submitting_draws : (2 <=? s_draws submitting)%nat = true.
Proof. vm_compute. reflexivity. Qed.
Lemma submitting_fresh n : (s_draws submitting <= n)%nat -> uuid4 n ∉ map ev_event_id (events (s_committed submitting)).
Proof.
  intros Hn. rewrite submitting_ids. intros E%list_elem_of_singleton. simpl in E. apply (inj pretty) in E.
  pose proof submitting_draws as Hd. apply Nat.leb_le in Hd. lia.
Qed.

Lemma unknown_intent_is_settled_witness :
  map it_state (intents (s_committed submitting)) = [EXCHANGE_SUBMITTING] /\
  exists k, (k <= 3)%nat /\ settled "i1" (s_committed (attempted unknown_action unknown_state k (late_answers, submitting)).2).
Proof.
  split; [vm_compute; reflexivity|].
  refine (unknown_intent_is_settled unknown_action unknown_state unknown_view eq_refl 3 late_answers submitting _ _).
  - split; [vm_compute; reflexivity|exact submitting_fresh| |].
    + eexists. split; [vm_compute; reflexivity|left].
    + eexists. split; [vm_compute; reflexivity|reflexivity].
  - split; [reflexivity|]. vm_compute. intros E%list_elem_of_singleton. discriminate.
Defined.
