(* ===== verification/Sizing.v ===== *)
(** * Sizing: how much an entry may buy

    Bounds of [_calculate_quantity] and of the quantity a cycle sends: every
    ceiling of the request holds up to the rounding of three decimal operations,
    and the loss at the stop is the risk budget. *)
From S2P Require Import Prelude PyDecimal PyValue State ClientOrderId Receipts Candidates PortfolioRisk RiskControls.
From S2P Require Import RuntimeLock Funnel Adapter Quantities Reconciliation Entry Exit Protection Recovery AccountWriter.
From S2P Require Import BinanceAdapter Composition Indicators Decision Database Repository Transactions Ledger ExchangeFirst.
From S2P Require Import RecoveryExecutor RecoveryRun LocalState FactPersistence FactLaws Cycle CycleSteps CycleRecovery.
From S2P Require Import EntryGap CycleRun CycleEntry CycleLaws CycleSafety CycleVenue CycleCases.
From Stdlib Require Import QArith Lqa.
Local Open Scope Z_scope.
Local Open Scope py_scope.

(** ** The notional *)

(** What the positions of the account leave of the canary's total exposure. *)
Definition canary_remaining (s : SizingLimits) (snapshot : AuthoritativeAccountSnapshot) : Dec :=
  let fraction := if (sz_max_total_exposure s =? mkDec 750 (-2))%D then CANARY_MAX_TOTAL_EXPOSURE else sz_max_total_exposure s in
  dmax (sizing_equity snapshot * fraction - committed_notional snapshot)%D dzero.

(** The exposure a canary may have in its symbol. *)
Definition canary_exposure (s : SizingLimits) (snapshot : AuthoritativeAccountSnapshot) : Dec :=
  let fraction := if (sz_max_position_fraction s =? mkDec 150 (-2))%D then CANARY_MAX_SYMBOL_EXPOSURE
    else sz_max_position_fraction s in
  (sizing_equity snapshot * fraction)%D.

(** The ceilings of an entry, as the documentation of [_calculate_quantity] lists them: the
    margin, the exposure of the symbol and the notional that the operator pinned; for
    a canary also 50 USDT and what is left of the total exposure.  A canary whose
    pinned notional is zero is sized as if none were pinned. *)
Definition ceilings (q : CycleRequest) (snapshot : AuthoritativeAccountSnapshot) (c : TradeCandidate) : list Dec :=
  let s := cq_sizing q in
  let equity := sizing_equity snapshot in
  [margin_budget s equity; margin_capacity s equity] ++
  (if _is_testnet_canary_sampling q (Some c)
   then [CANARY_MAX_NOTIONAL_USDT; canary_exposure s snapshot; canary_remaining s snapshot] ++
        filter (fun d => dtruthy d = true) (option_list (sz_order_notional_usdt s))
   else (equity * sz_max_position_fraction s)%D :: option_list (sz_order_notional_usdt s)).

Lemma dmin_all_le d l : (dval (dmin_all d l) <= dval d)%Q /\ forall x, x ∈ l -> (dval (dmin_all d l) <= dval x)%Q.
Proof.
  unfold dmin_all. revert d. induction l as [|y l IH]; intros d; simpl; [split; [lra|intros x Hx; by apply elem_of_nil in Hx]|].
  destruct (IH (dmin d y)) as [H1 H2]. pose proof (dmin_le_l d y). pose proof (dmin_le_r d y). split; [lra|].
  intros x [->|Hx]%elem_of_cons; [lra|by apply H2].
Qed.
Lemma dmin_all_head d l : (dval (dmin_all d l) <= dval d)%Q.
Proof. exact (proj1 (dmin_all_le d l)). Qed.
Lemma dmin_all_in d l x : x ∈ l -> (dval (dmin_all d l) <= dval x)%Q.
Proof. apply (proj2 (dmin_all_le d l)). Qed.

Ltac pick_in := solve [by left | right; pick_in].

Lemma canary_exposure_eq s snapshot :
  canary_exposure s snapshot = if (sz_max_position_fraction s =? mkDec 150 (-2))%D
    then (sizing_equity snapshot * CANARY_MAX_SYMBOL_EXPOSURE)%D else (sizing_equity snapshot * sz_max_position_fraction s)%D.
Proof. unfold canary_exposure. by destruct (_ =? _)%D. Qed.

Lemma canary_within_ceilings s snapshot x :
  x ∈ [margin_budget s (sizing_equity snapshot); margin_capacity s (sizing_equity snapshot); CANARY_MAX_NOTIONAL_USDT;
       canary_exposure s snapshot; canary_remaining s snapshot] ++
      filter (fun d => dtruthy d = true) (option_list (sz_order_notional_usdt s)) ->
  (dval (canary_notional s snapshot) <= dval x)%Q.
Proof.
  unfold canary_notional. cbv zeta. rewrite <- canary_exposure_eq.
  intros [Hx|[Ht Hx]%list_elem_of_filter]%elem_of_app.
  - revert Hx. intros [->|[->|[->|[->|[->|Hx]%elem_of_cons]%elem_of_cons]%elem_of_cons]%elem_of_cons]%elem_of_cons.
    1,2,4,5: apply dmin_all_in; pick_in.
    + eapply Qle_trans; [apply dmin_all_head|apply dmin_le_r].
    + by apply elem_of_nil in Hx.
  - eapply Qle_trans; [apply dmin_all_head|]. eapply Qle_trans; [apply dmin_le_l|].
    destruct (sz_order_notional_usdt s) as [n|]; [|by apply elem_of_nil in Hx].
    apply list_elem_of_singleton in Hx as ->. simpl. rewrite Ht. apply Qle_refl.
Qed.

Lemma notional_within_ceilings q snapshot stop price c x :
  x ∈ ceilings q snapshot c -> (dval (_calculate_quantity q snapshot stop price (Some c)) <= dval x)%Q.
Proof.
  unfold ceilings, _calculate_quantity. cbv zeta. destruct (_is_testnet_canary_sampling q (Some c)); cbn [app].
  - apply canary_within_ceilings.
  - set (l := [_; _; _]). intros Hx. destruct (sz_order_notional_usdt (cq_sizing q)) as [n|]; simpl in Hx.
    + revert Hx. intros [->|[->|[->|[->|Hx]%elem_of_cons]%elem_of_cons]%elem_of_cons]%elem_of_cons;
        [apply dmin_all_in; pick_in ..|apply dmin_all_head|by apply elem_of_nil in Hx].
    + assert (x ∈ l) as Hl.
      { revert Hx. intros [->|[->|[->|Hx]%elem_of_cons]%elem_of_cons]%elem_of_cons; [pick_in ..|by apply elem_of_nil in Hx]. }
      destruct (stop_fraction_of _ _) as [f|]; [destruct (f <=? dzero)%D|]; by apply dmin_all_in.
Qed.

(** ** The quantity *)

Lemma to_integral_down_nonpos d : (dval d <= 0)%Q -> (dval (to_integral_value ROUND_DOWN d) <= 0)%Q.
Proof.
  intros Hd. unfold to_integral_value. destruct (Z.leb_spec 0 (dexp d)); [done|].
  assert (Z.quot (coef d) (10 ^ (- dexp d)) <= 0) as Hz; [|].
  2: { eapply Qle_trans; [apply Qle_lteq; right; apply dval_dint|]. change 0%Q with (inject_Z 0). by rewrite <- Zle_Qle. }
  pose proof (p10_pos (dexp d)).
  assert (coef d <= 0) as Hc.
  { rewrite Zle_Qle. unfold dval in Hd. change (inject_Z 0) with 0%Q. nra. }
  pose proof (Z.quot_pos (- coef d) (10 ^ (- dexp d)) ltac:(lia) ltac:(apply pow10_pos; lia)) as Hq.
  rewrite Z.quot_opp_l in Hq by (pose proof (pow10_pos (- dexp d)); lia). lia.
Qed.

Lemma grow_3 : (grow 3 == (1 + uround) * ((1 + uround) * (1 + uround)))%Q.
Proof. rewrite !grow_S. unfold grow. simpl. ring. Qed.

Lemma three_roundings G N p s x t z n :
  (1 <= G)%Q -> (0 < p)%Q -> (0 < s)%Q -> (z <= t)%Q ->
  (x <= G * (N / p))%Q -> (t <= G * (x / s))%Q -> (n <= G * (z * s))%Q -> (n * p <= G * (G * (G * N)))%Q.
Proof.
  intros HG Hp Hs Hz Hx Ht Hn.
  assert (forall a b k, (0 <= k)%Q -> (a <= b)%Q -> (k * a <= k * b)%Q) as L.
  { intros a b k Hk Hab. rewrite !(Qmult_comm k). by apply Qmult_le_compat_r. }
  assert (x * p <= G * N)%Q as H1.
  { assert (x * p <= G * (N / p) * p)%Q by (apply Qmult_le_compat_r; lra).
    assert (G * (N / p) * p == G * N)%Q by (field; lra). lra. }
  assert (z * s <= G * x)%Q as H2.
  { assert (z * s <= G * (x / s) * s)%Q by (apply Qmult_le_compat_r; lra).
    assert (G * (x / s) * s == G * x)%Q by (field; lra). lra. }
  pose proof (L _ _ G ltac:(lra) H2) as H3. pose proof (L _ _ G ltac:(lra) H1) as H4.
  pose proof (L _ _ G ltac:(lra) H4) as H5.
  assert (n * p <= G * (G * x) * p)%Q as H6 by (apply Qmult_le_compat_r; lra).
  assert (G * (G * x) * p == G * (G * (x * p)))%Q by ring. lra.
Qed.

(** A notional, bought at a price, on the grid of the step. *)
Lemma bought_value notional price step x n :
  (0 < dval price)%Q -> ddiv notional price = Ok x -> floor_to_step x step = Ok n ->
  ((0 <= dval notional)%Q -> (dval n * dval price <= grow 3 * dval notional)%Q) /\
  ((dval notional <= 0)%Q -> (dval n <= 0)%Q).
Proof.
  intros Hp Ex En. pose proof (floor_to_step_ok_step _ _ _ En) as Hs. apply ddiv_ok in Ex as [Hn0 ->].
  unfold floor_to_step in En. destruct (assert_or _ _); [|done]. injection En as <-.
  set (x := dquot notional price) in *. set (t := dquot x step). set (z := to_integral_value ROUND_DOWN t).
  pose proof (dquot_rounds notional price ltac:(lra)) as Rx. fold x in Rx.
  pose proof (dquot_rounds x step ltac:(lra)) as Rt. fold t in Rt. pose proof (dmul_rounds z step) as Rn.
  pose proof uround_bounds as [Hu _]. split; intros Hn.
  - assert (0 <= dval notional / dval price)%Q as Hq by (apply Qle_shift_div_l; lra).
    pose proof (rounds_grow _ _ Hq Rx) as Gx. assert (0 <= dval x)%Q as Hx.
    { eapply rounds_mono; [exact Hq|apply fits_rounds, fits_zero|exact Rx]. }
    assert (0 <= dval x / dval step)%Q as Hq2 by (apply Qle_shift_div_l; lra).
    pose proof (rounds_grow _ _ Hq2 Rt) as Gt. assert (0 <= dval t)%Q as Ht.
    { eapply rounds_mono; [exact Hq2|apply fits_rounds, fits_zero|exact Rt]. }
    assert (dval z <= dval t /\ 0 <= dval z)%Q as [Hz Hz0].
    { unfold z. rewrite to_integral_down_nonneg by done. destruct (to_integral_floor t) as (k & -> & Hk & Hk2). split; [done|].
      assert (0 < inject_Z k + 1)%Q as Hk3 by lra. change 1%Q with (inject_Z 1) in Hk3. rewrite <- inject_Z_plus in Hk3.
      change 0%Q with (inject_Z 0) in *. rewrite <- Zlt_Qlt in Hk3. rewrite <- Zle_Qle. lia. }
    assert (0 <= dval z * dval step)%Q as Hq3 by (apply Qmult_le_0_compat; lra).
    pose proof (rounds_grow _ _ Hq3 Rn) as Gn. cbv beta in Gn.
    rewrite grow_3. assert (1 <= 1 + uround)%Q as HG by lra. revert HG Gx Gt Gn. generalize (1 + uround)%Q. intros G HG Gx Gt Gn.
    pose proof (three_roundings G _ _ _ _ _ _ _ HG Hp Hs Hz Gx Gt Gn) as H3. lra.
  - assert (dval notional / dval price <= 0)%Q as Hq by (apply Qle_shift_div_r; lra).
    assert (dval x <= 0)%Q as Hx by (eapply rounds_mono; [exact Hq|exact Rx|apply fits_rounds, fits_zero]).
    assert (dval x / dval step <= 0)%Q as Hq2 by (apply Qle_shift_div_r; lra).
    assert (dval t <= 0)%Q as Ht by (eapply rounds_mono; [exact Hq2|exact Rt|apply fits_rounds, fits_zero]).
    apply to_integral_down_nonpos in Ht. fold z in Ht.
    eapply rounds_mono; [|exact Rn|apply fits_rounds, fits_zero]. nra.
Qed.

Lemma entry_bought q snapshot market c n :
  (0 < dval (ms_current_price market))%Q -> entry_quantity q snapshot market c = Ok n ->
  let notional := _calculate_quantity q snapshot (Some (tc_stop_distance c)) (Some (ms_current_price market)) (Some c) in
  (dval n * dval (ms_current_price market) <= 0)%Q \/
  (0 <= dval notional /\ dval n * dval (ms_current_price market) <= grow 3 * dval notional)%Q.
Proof.
  intros Hp E notional. unfold entry_quantity in E. fold notional in E. destruct (ddiv notional _) as [x|] eqn:Ex; [|done].
  destruct (bought_value _ _ _ _ _ Hp Ex E) as [H1 H2]. destruct (Qlt_le_dec (dval notional) 0) as [Hn|Hn].
  - left. assert (dval n <= 0)%Q as H0 by (apply H2; lra).
    assert (dval n * dval (ms_current_price market) <= 0 * dval (ms_current_price market))%Q by (apply Qmult_le_compat_r; lra). lra.
  - right. auto.
Qed.

(** C17. What an entry buys is worth, at the price it was sized for, at most the margin
    budget, the margin capacity, the exposure of its symbol and the notional that the
    operator pinned; a canary also at most 50 USDT, one percent of the equity where the
    request has the default fraction, and what the positions leave of the total
    exposure; up to the rounding of three decimal operations. *)
Theorem entry_within_ceilings q snapshot market c n x :
  (0 < dval (ms_current_price market))%Q -> entry_quantity q snapshot market c = Ok n ->
  x ∈ ceilings q snapshot c -> (0 <= dval x)%Q ->
  (dval n * dval (ms_current_price market) <= grow 3 * dval x)%Q.
Proof.
  intros Hp E Hx H0. pose proof (grow_ge_1 3) as Hg.
  assert (0 <= grow 3 * dval x)%Q as Hpos by (apply Qmult_le_0_compat; lra).
  destruct (entry_bought _ _ _ _ _ Hp E) as [Hn|[_ Hn]]; [lra|].
  eapply Qle_trans; [exact Hn|]. rewrite !(Qmult_comm (grow 3)).
  apply Qmult_le_compat_r; [by apply notional_within_ceilings|lra].
Qed.

(** The notional that a risk budget allows: the loss at the stop is the budget. *)
Lemma risk_notional q snapshot c price :
  _is_testnet_canary_sampling q (Some c) = false -> sz_order_notional_usdt (cq_sizing q) = None ->
  (0 < dval price)%Q -> (0 < dval (tc_stop_distance c))%Q ->
  (dval (_calculate_quantity q snapshot (Some (tc_stop_distance c)) (Some price) (Some c)) <=
   dval (dquot (sizing_equity snapshot * sz_risk_per_trade (cq_sizing q))%D (dquot (tc_stop_distance c) price)))%Q.
Proof.
  intros Hc Hn Hp Hd. unfold _calculate_quantity. cbv zeta. rewrite Hc, Hn. unfold stop_fraction_of.
  assert ((dzero <? price)%D && (dzero <? tc_stop_distance c)%D = true) as ->.
  { apply andb_true_iff. split; apply dltb_spec; change (dval dzero) with (0 * 1)%Q; lra. }
  pose proof (dquot_pos _ _ Hd Hp) as Hf.
  destruct (dquot (tc_stop_distance c) price <=? dzero)%D eqn:E; [|apply dmin_all_head].
  apply dleb_spec in E. change (dval dzero) with (0 * 1)%Q in E. exfalso. lra.
Qed.

Lemma risk_chain G u n p d rb f N :
  (1 <= G)%Q -> (0 <= u)%Q -> (0 < p)%Q -> (0 < d)%Q -> (0 < f)%Q -> (0 <= rb)%Q -> (0 <= n)%Q ->
  (u * (d / p) <= f)%Q -> (N <= G * (rb / f))%Q -> (n * p <= G * (G * (G * N)))%Q ->
  (n * d * u <= G * (G * (G * (G * rb))))%Q.
Proof.
  intros HG Hu Hp Hd Hf Hr Hn Huf HN Hnp.
  assert (forall a b k, (0 <= k)%Q -> (a <= b)%Q -> (k * a <= k * b)%Q) as L.
  { intros a b k Hk Hab. rewrite !(Qmult_comm k). by apply Qmult_le_compat_r. }
  assert (u * d <= f * p)%Q as H1.
  { assert (u * (d / p) * p <= f * p)%Q by (apply Qmult_le_compat_r; lra).
    assert (u * (d / p) * p == u * d)%Q by (field; lra). lra. }
  assert (N * f <= G * rb)%Q as H2.
  { assert (N * f <= G * (rb / f) * f)%Q by (apply Qmult_le_compat_r; lra).
    assert (G * (rb / f) * f == G * rb)%Q by (field; lra). lra. }
  pose proof (L _ _ n Hn H1) as H3.
  assert (n * p * f <= G * (G * (G * N)) * f)%Q as H4 by (apply Qmult_le_compat_r; lra).
  assert (G * (G * (G * N)) * f == G * (G * (G * (N * f))))%Q as H5 by ring.
  pose proof (L _ _ G ltac:(lra) H2) as H6. pose proof (L _ _ G ltac:(lra) H6) as H7. pose proof (L _ _ G ltac:(lra) H7) as H8.
  assert (n * d * u == n * (u * d))%Q as H9 by ring. assert (n * (f * p) == n * p * f)%Q as H10 by ring. lra.
Qed.

Lemma grow_4 : (grow 4 == (1 + uround) * ((1 + uround) * ((1 + uround) * (1 + uround))))%Q.
Proof. rewrite !grow_S. unfold grow. simpl. ring. Qed.

(** C18. The entries sized by risk are those outside the canary for which the operator has
    pinned no notional: what such an entry loses if its stop is hit is at most the
    risk budget, the equity times [risk_per_trade], up to the rounding of the decimal
    operations.  A pinned notional and the canary's are not bound by that budget. *)
Theorem entry_loss_within_risk_budget q snapshot market c n :
  let budget := (sizing_equity snapshot * sz_risk_per_trade (cq_sizing q))%D in
  _is_testnet_canary_sampling q (Some c) = false -> sz_order_notional_usdt (cq_sizing q) = None ->
  (0 < dval (ms_current_price market))%Q -> (0 < dval (tc_stop_distance c))%Q -> (0 <= dval budget)%Q ->
  entry_quantity q snapshot market c = Ok n ->
  (dval n * dval (tc_stop_distance c) * (1 - uround) <= grow 4 * dval budget)%Q.
Proof.
  intros budget Hc Hn Hp Hd Hr E. pose proof (risk_notional q snapshot c _ Hc Hn Hp Hd) as Hl.
  pose proof uround_bounds as [Hu Hu1]. pose proof (grow_ge_1 4) as Hg.
  assert (0 <= grow 4 * dval budget)%Q as Hpos by (apply Qmult_le_0_compat; lra).
  set (p := ms_current_price market) in *. set (d := tc_stop_distance c) in *. set (f := dquot d p) in *.
  assert (~ (dval p == 0)%Q) as Hp0 by lra. pose proof (dquot_rounds d p Hp0) as Rf. fold f in Rf.
  assert (0 < dval f)%Q as Hf by (by apply dquot_pos). assert (~ (dval f == 0)%Q) as Hf0 by lra.
  pose proof (dquot_rounds budget f Hf0) as Rv.
  assert (0 <= dval d / dval p)%Q as Hdp by (apply Qle_shift_div_l; lra).
  assert (0 <= dval budget / dval f)%Q as Hbf by (apply Qle_shift_div_l; lra).
  pose proof (rounds_shrink _ _ Hdp Rf) as Sf. pose proof (rounds_grow _ _ Hbf Rv) as Gv.
  assert (forall x, (x <= 0)%Q -> (x * dval d * (1 - uround) <= 0)%Q) as Hneg.
  { intros x Hx. assert (x * dval d <= 0 * dval d)%Q as H1 by (apply Qmult_le_compat_r; lra).
    assert (x * dval d * (1 - uround) <= 0 * (1 - uround))%Q by (apply Qmult_le_compat_r; lra). lra. }
  destruct (Qlt_le_dec 0 (dval n)) as [Hn0|Hn0]; [|pose proof (Hneg _ Hn0); lra].
  destruct (entry_bought _ _ _ _ _ Hp E) as [H0|[_ Hb]]; fold p d in H0 || fold p d in Hb.
  - exfalso. assert (0 < dval n * dval p)%Q by (by apply Qmult_lt_0_compat). lra.
  - rewrite grow_3 in Hb. rewrite grow_4. assert (1 <= 1 + uround)%Q as HG by lra. revert HG Gv Hb.
    assert (0 <= 1 - uround)%Q as H1u by lra. revert H1u Sf. generalize (1 + uround)%Q (1 - uround)%Q. intros G u Hu0 Sf HG Gv Hb.
    assert (dval (_calculate_quantity q snapshot (Some d) (Some p) (Some c)) <= G * (dval budget / dval f))%Q as HN by exact (Qle_trans _ _ _ Hl Gv).
    assert (0 <= dval n)%Q as Hn1 by lra. set (N := dval (_calculate_quantity _ _ _ _ _)) in *.
    assert (dval n * dval p <= G * (G * (G * N)))%Q as Hb2.
    { eapply Qle_trans; [exact Hb|]. apply Qle_lteq. right. ring. }
    eapply Qle_trans; [exact (risk_chain G u _ _ _ _ _ _ HG Hu0 Hp Hd Hf Hr Hn1 Sf HN Hb2)|].
    apply Qle_lteq. right. ring.
Qed.

(** ** Particular entries *)

Definition sizing_account : AuthoritativeAccountSnapshot := mkAccountSnapshot (dint 10000) (dint 10000) [] [] 100.
Definition sizing_market : PreSubmitMarketSnapshot :=
  mkMarketSnapshot "BTC/USDT" (dint 64000) dzero 100 (mkDec 1 (-1)) (mkDec 1 (-4)) (dint 5).
Definition fixed_request : CycleRequest := demo_request ACTIVE None true.
(** One percent of the equity at risk. *)
Definition risk_request : CycleRequest :=
  with_sizing fixed_request (mkSizing (mkDec 1 (-2)) 10 (mkDec 5 (-1)) None (mkDec 150 (-2)) None (mkDec 750 (-2))).

Definition sized (q : CycleRequest) : Dec :=
  match entry_quantity q sizing_account sizing_market trend_candidate with Ok n => n | Raise _ => dzero end.
Lemma sized_ok q : (exists n, entry_quantity q sizing_account sizing_market trend_candidate = Ok n) ->
  entry_quantity q sizing_account sizing_market trend_candidate = Ok (sized q).
Proof. unfold sized. by intros [n ->]. Qed.
Lemma fixed_sized : entry_quantity fixed_request sizing_account sizing_market trend_candidate = Ok (sized fixed_request).
Proof. apply sized_ok. eexists. vm_compute. reflexivity. Qed.
Lemma risk_sized : entry_quantity risk_request sizing_account sizing_market trend_candidate = Ok (sized risk_request).
Proof. apply sized_ok. eexists. vm_compute. reflexivity. Qed.

(** A canary of an account with 2000 USDT, which may have 20 USDT in its symbol. *)
Definition small_account : AuthoritativeAccountSnapshot := mkAccountSnapshot (dint 2000) (dint 2000) [] [] 100.
Definition canary_cycle : CycleRequest :=
  mkCycleRequest "cycle-1" "BTC/USDT" (mkTimeframe "15m" []) BINANCE_TESTNET ACTIVE "fence-1" 100 None None
    (mkSizing (mkDec 1 (-2)) 10 (mkDec 5 (-2)) (Some (dint 500)) (mkDec 150 (-2)) None (mkDec 750 (-2)))
    ∅ [] true None false false false None None true (Some "decision-1"%string) true "2.0.0" false 0
    AUTH_TESTNET_CANARY "OK" None false "NONE" None false None "FRESH".
Definition canary_candidate : TradeCandidate :=
  mkCandidate "cand-1" "cycle-1" CANARY_STRATEGY_ID "1.0" "TESTNET_SAMPLING" SAMPLING "BTC/USDT" "LONG" 0
    (dint 64000) (mkDec 55 (-2)) (dint 320) (Some (dint 480)) (dint 20) 75000000 true.
Definition canary_bought : res Dec := entry_quantity canary_cycle small_account sizing_market canary_candidate.
Lemma canary_sized : canary_bought = Ok (match canary_bought with Ok n => n | Raise _ => dzero end).
Proof. vm_compute. reflexivity. Qed.
Lemma canary_bound : canary_exposure (cq_sizing canary_cycle) small_account ∈ ceilings canary_cycle small_account canary_candidate.
Proof. pick_in. Qed.

(** 0.0078 BTC for a notional of 500 USDT, and 0.0003 BTC for the canary's 20 USDT. *)
Lemma entry_within_ceilings_witness :
  deqb (sized fixed_request) (mkDec 78 (-4)) = true /\
  (dval (sized fixed_request) * dval (dint 64000) <= grow 3 * dval (dint 500))%Q /\
  option_map (deqb (mkDec 3 (-4))) (match canary_bought with Ok n => Some n | Raise _ => None end) = Some true /\
  (dval (match canary_bought with Ok n => n | Raise _ => dzero end) * dval (dint 64000) <=
   grow 3 * dval (canary_exposure (cq_sizing canary_cycle) small_account))%Q.
Proof.
  split; [vm_compute; reflexivity|]. split; [|split; [vm_compute; reflexivity|]].
  - refine (entry_within_ceilings fixed_request sizing_account sizing_market trend_candidate (sized fixed_request) (dint 500)
      _ fixed_sized _ _); [reflexivity|pick_in|discriminate].
  - refine (entry_within_ceilings canary_cycle small_account sizing_market canary_candidate _ _ _ canary_sized canary_bound _);
      [reflexivity|vm_compute; discriminate].
Defined.

(** The loss at the stop, of the 100 USDT at risk. *)
Definition risk_budget : Dec := (sizing_equity sizing_account * sz_risk_per_trade (cq_sizing risk_request))%D.
Lemma budget_nonneg : (0 <= dval risk_budget)%Q.
Proof. vm_compute. discriminate. Qed.

Lemma entry_loss_within_risk_budget_witness :
  deqb risk_budget (dint 100) = true /\
  (dval (sized risk_request) * dval (tc_stop_distance trend_candidate) * (1 - uround) <= grow 4 * dval risk_budget)%Q.
Proof.
  split; [vm_compute; reflexivity|].
  apply (entry_loss_within_risk_budget risk_request sizing_account sizing_market trend_candidate (sized risk_request));
    [reflexivity|reflexivity|reflexivity|reflexivity|exact budget_nonneg|exact risk_sized].
Defined.
