(* ===== verification/HistoricalLedger.v ===== *)
(** * HistoricalLedger: gaps of the ledger that no evidence can fill

    [application/historical_ledger.py]: the record of an old Testnet entry whose
    terminal fill cannot be attributed.  It invents nothing: it adds one resolved
    incident, after which the entry no longer blocks current exposure.  Times in
    the context of the incident are text and left out. *)
From S2P Require Import Prelude PyDecimal PyValue State ClientOrderId Receipts Canonical Database Repository Transactions Ledger.
From S2P Require Import LocalState FactPersistence CycleSteps RecoveryProgress.
Local Open Scope Z_scope.
Local Open Scope py_scope.

Inductive HistoricalEvidenceSource := V2_SQLITE | LOCAL_LOGS | PROJECT_EVIDENCE | GIT_HISTORY | BINANCE_TESTNET_HISTORY.
#[export] Instance HistoricalEvidenceSource_eq_dec : EqDecision HistoricalEvidenceSource.
Proof. solve_decision. Defined.

Definition source_value (s : HistoricalEvidenceSource) : string :=
  match s with
  | V2_SQLITE => "V2_SQLITE" | LOCAL_LOGS => "LOCAL_LOGS" | PROJECT_EVIDENCE => "PROJECT_EVIDENCE"
  | GIT_HISTORY => "GIT_HISTORY" | BINANCE_TESTNET_HISTORY => "BINANCE_TESTNET_HISTORY"
  end.

Definition _REQUIRED_SOURCES : list HistoricalEvidenceSource :=
  [V2_SQLITE; LOCAL_LOGS; PROJECT_EVIDENCE; GIT_HISTORY; BINANCE_TESTNET_HISTORY].
Definition _INCIDENT_TYPE : string := "HISTORICAL_LEDGER_GAP".

Record HistoricalLedgerGapResolution := mkGapResolution {
  gr_incident_id : string; gr_case_id : string; gr_created : bool; gr_strategy_performance_eligible : bool }.

(** What the caller found out before it asks for the record. *)
Record CutoverEvidence := mkCutover {
  ce_current_flat_symbols : gset string; ce_current_open_order_ids : gset string; ce_active_protection_ids : gset string;
  ce_sources_checked : list HistoricalEvidenceSource; ce_cutover_epoch : string; ce_writer_started_at : datetime;
  ce_resolution_reason : string; ce_last_known_exchange_evidence : list (string * string); ce_observed_at : datetime }.

Definition entry_fill_of_intent (intent_id : string) (f : FillRow) : bool :=
  String.eqb (fl_intent_id f) intent_id && negb (fl_reduce_only f).
Definition position_of_intent (intent_id : string) (p : PositionRow) : bool := String.eqb (mp_intent_id p) intent_id.
Definition gap_of_intent (intent_id : string) (i : IncidentRow) : bool :=
  String.eqb (ic_incident_type i) _INCIDENT_TYPE && bool_decide (ic_intent_id i = Some intent_id).
Definition active_protection_of (positions : list PositionRow) (intent_id : string) (r : ProtectionRow) : bool :=
  bool_decide (pt_state r = PROTECTION_ACTIVE) &&
  existsb (fun p => position_of_intent intent_id p && String.eqb (mp_position_id p) (pt_position_id r)) positions.

Definition sources_complete (checked : list HistoricalEvidenceSource) : bool :=
  forallb (fun s => bool_decide (s ∈ checked)) _REQUIRED_SOURCES.

Definition set_value (s : gset string) : PyVal := texts_value (sorted_texts (elements s)).

Definition gap_context (case_id : string) (i : IntentRow) (entry_fills : list FillRow) (e : CutoverEvidence) : PyDict :=
  [("case_id", VStr case_id); ("position_id", VNone);
   ("entry_identity", VDict ""
      [("intent_id", VStr (it_intent_id i)); ("symbol", VStr (it_symbol i)); ("direction", VStr (it_direction i));
       ("entry_trade_ids", texts_value (bfilter str_truthy (omap fl_trade_id entry_fills)));
       ("entry_exchange_order_ids", set_value (list_to_set (map fl_exchange_order_id entry_fills)))]);
   ("last_known_exchange_evidence", VDict "" (map (fun kv => (kv.1, VStr kv.2)) (ce_last_known_exchange_evidence e)));
   ("current_flat_snapshot", VDict "" [("flat_symbols", set_value (ce_current_flat_symbols e))]);
   ("current_open_order_ids", set_value (ce_current_open_order_ids e));
   ("active_protection_ids", set_value (ce_active_protection_ids e)); ("exhaustive_search_timestamp", free_text);
   ("sources_checked", texts_value (sorted_texts (map source_value (remove_dups (ce_sources_checked e)))));
   ("cutover_epoch", VStr (ce_cutover_epoch e)); ("writer_started_at", free_text);
   ("resolution_reason", VStr (ce_resolution_reason e)); ("resolution", VStr "HISTORICAL_LEDGER_GAP");
   ("realized_pnl", VStr "UNKNOWN"); ("strategy_performance_eligible", VBool false);
   ("current_exposure_blocker", VBool false)]%string.

Section record.
Context {H : Host}.

Definition record_historical_ledger_gap (intent_id : string) (e : CutoverEvidence) : SM Session HistoricalLedgerGapResolution :=
  let! intent := get (R := IntentRow) intent_id in
  let! i := require intent "historical ledger gap intent not found" in
  sassert (bool_decide (it_execution_mode i = BINANCE_TESTNET)) (ValueError "permitted only for BINANCE_TESTNET") ;;;
  sassert (bool_decide (it_symbol i ∈ ce_current_flat_symbols e)) (ValueError "requires a current flat symbol snapshot") ;;;
  sassert (bool_decide (ce_current_open_order_ids e = ∅)) (ValueError "requires no linked current exchange orders") ;;;
  sassert (bool_decide (ce_active_protection_ids e = ∅)) (ValueError "requires no linked active protections") ;;;
  sassert (str_truthy (ce_cutover_epoch e) && str_truthy (ce_resolution_reason e))
    (ValueError "requires an epoch and explicit resolution reason") ;;;
  sassert (sources_complete (ce_sources_checked e)) (ValueError "requires exhaustive evidence sources") ;;;
  let! entry_fills := select (R := FillRow) (entry_fill_of_intent intent_id) in
  sassert (is_nonempty entry_fills) (ValueError "requires a confirmed non-reduce-only entry fill") ;;;
  sassert (latest_time (map fl_exchange_event_time entry_fills) <? ce_writer_started_at e)
    (ValueError "requires the writer startup to post-date the legacy episode") ;;;
  let! position := scalar (R := PositionRow) (position_of_intent intent_id) in
  sassert (bool_decide (position = None)) (ValueError "only for unprojected entry lifecycles") ;;;
  let! d := read_db in
  let! active := scalar (R := ProtectionRow) (active_protection_of (positions d) intent_id) in
  sassert (bool_decide (active = None)) (ValueError "refuses an entry with active local protection") ;;;
  let! existing := scalar (R := IncidentRow) (gap_of_intent intent_id) in
  let case_id := ("HIST-V2-ENTRY-" +:+ str_take 8 intent_id)%string in
  match existing with
  | Some x => sret (mkGapResolution (ic_incident_id x) case_id false false)
  | None =>
      let! incident_id := record_incident _INCIDENT_TYPE "MEDIUM" (Some intent_id) "" (gap_context case_id i entry_fills e)
                            (Some intent_id) None in
      let! incident := get (R := IncidentRow) incident_id in
      match incident with
      | None => sraise (RuntimeError "historical ledger incident was not durable")
      | Some x =>
          assign (ic_resolve (ce_observed_at e) x) ;;;
          flush ;;;
          sret (mkGapResolution incident_id case_id true false)
      end
  end.
End record.

(** ** What a cutover needs *)

Section laws.
Context {H : Host} (intent_id : string) (e : CutoverEvidence).

Record cutover_allowed (d : Db) (i : IntentRow) : Prop := {
  co_row : find_row (R := IntentRow) intent_id d = Some i;
  co_mode : it_execution_mode i = BINANCE_TESTNET;
  co_flat : it_symbol i ∈ ce_current_flat_symbols e;
  co_orders : ce_current_open_order_ids e = ∅;
  co_protections : ce_active_protection_ids e = ∅;
  co_words : ce_cutover_epoch e <> ""%string /\ ce_resolution_reason e <> ""%string;
  co_sources : forall source, source ∈ ce_sources_checked e;
  co_filled : exists f, f ∈ fills d /\ fl_intent_id f = intent_id /\ fl_reduce_only f = false;
  co_before : forall f, f ∈ fills d -> fl_intent_id f = intent_id -> fl_reduce_only f = false ->
    fl_exchange_event_time f < ce_writer_started_at e;
  co_unprojected : forall p, p ∈ positions d -> mp_intent_id p <> intent_id }.

Lemma latest_time_lt l t : l <> [] -> (latest_time l < t <-> forall x, x ∈ l -> x < t).
Proof.
  destruct l as [|y l]; [done|]. intros _. simpl. revert y. induction l as [|z l IH]; intros y; simpl.
  - split; [intros Hy x ->%list_elem_of_singleton; done|intros Hx; apply Hx; left].
  - rewrite IH. split.
    + intros Hx x [->|[->|Hin]%elem_of_cons]%elem_of_cons.
      * assert (Z.max y z < t) by (apply Hx; left). lia.
      * assert (Z.max y z < t) by (apply Hx; left). lia.
      * apply Hx. by right.
    + intros Hx x [->|Hin]%elem_of_cons; [|apply Hx; right; by right].
      assert (y < t) by (apply Hx; left). assert (z < t) by (apply Hx; right; left). lia.
Qed.

Lemma sources_complete_iff l : sources_complete l = true <-> forall source, source ∈ l.
Proof.
  unfold sources_complete. rewrite forallb_forall. split.
  - intros Hl source. apply (bool_decide_eq_true (source ∈ l)), Hl. by destruct source; simpl; auto 10.
  - intros Hl source _. by apply bool_decide_eq_true.
Qed.

(** The program up to its answer, run on tables that satisfy their constraints. *)
Lemma scalar_now {R} `{Table R} {X} (p : R -> bool) (f : option R -> SM Session X) s :
  constraints_ok (s_db s) = true -> sbind (scalar p) f s = f (head (bfilter p (rows (s_db s)))) s.
Proof. intros Hc. unfold scalar, select, sbind, flush, sret. cbn -[constraints_ok]. by rewrite Hc. Qed.
Lemma select_now {R} `{Table R} {X} (p : R -> bool) (f : list R -> SM Session X) s :
  constraints_ok (s_db s) = true -> sbind (select p) f s = f (bfilter p (rows (s_db s))) s.
Proof. intros Hc. unfold select, sbind, flush. cbn -[constraints_ok]. by rewrite Hc. Qed.

Definition case_id : string := ("HIST-V2-ENTRY-" +:+ str_take 8 intent_id)%string.

(** The incident as it is first inserted, and as it is left. *)
Definition opened_gap (d : Db) (i : IntentRow) (incident_id : string) : IncidentRow :=
  mkIncident incident_id _INCIDENT_TYPE "MEDIUM" (Some intent_id) (Some intent_id) None ""
    (gap_context case_id i (bfilter (entry_fill_of_intent intent_id) (fills d)) e) false None.
Definition gap_row (d : Db) (i : IntentRow) (incident_id : string) : IncidentRow :=
  ic_resolve (ce_observed_at e) (opened_gap d i incident_id).

Lemma inserted_constraints (d : Db) (x : IncidentRow) :
  constraints_ok d = true -> ic_incident_id x ∉ map ic_incident_id (incidents d) -> incident_ok x = true ->
  constraints_ok (insert_row x d) = true.
Proof.
  intros Hc Hx Hok. rewrite <- Hc. unfold constraints_ok.
  assert (unique_key (R := IncidentRow) d = true /\ forallb incident_ok (incidents d) = true) as [Hu Hin].
  { revert Hc. unfold constraints_ok. rewrite !andb_true_iff. tauto. }
  assert (unique_key (R := IncidentRow) (insert_row x d) = unique_key (R := IncidentRow) d) as ->.
  { rewrite Hu. unfold unique_key in *. apply bool_decide_eq_true in Hu. apply bool_decide_eq_true. simpl in *.
    rewrite map_app. apply NoDup_app. split; [done|]. split; [|apply NoDup_singleton].
    intros y Hy Hy2. apply list_elem_of_singleton in Hy2 as ->. done. }
  assert (forallb incident_ok (incidents (insert_row x d)) = forallb incident_ok (incidents d)) as ->; [|reflexivity].
  simpl. rewrite forallb_app, Hin. simpl. by rewrite Hok.
Qed.

Lemma resolved_over_opened (d : Db) (x y : IncidentRow) :
  ic_incident_id x ∉ map ic_incident_id (incidents d) -> ic_incident_id y = ic_incident_id x ->
  put_row y (insert_row x d) = insert_row y d.
Proof.
  intros Hx Hy. unfold put_row, insert_row. cbn [rows with_rows incidents_table incidents row_key]. f_equal.
  rewrite map_app. f_equal.
  - rewrite <- (map_id (incidents d)) at 2. apply map_ext_in. intros z Hz.
    destruct (String.eqb_spec (ic_incident_id z) (ic_incident_id y)) as [E|]; [|done].
    destruct Hx. rewrite <- Hy, <- E. by apply list_elem_of_In, in_map.
  - simpl. by rewrite Hy, String.eqb_refl.
Qed.
Lemma find_inserted (d : Db) (x : IncidentRow) :
  ic_incident_id x ∉ map ic_incident_id (incidents d) -> find_row (ic_incident_id x) (insert_row x d) = Some x.
Proof.
  unfold find_row, insert_row. cbn [rows with_rows incidents_table incidents row_key]. induction (incidents d) as [|y l IH]; simpl.
  - by rewrite String.eqb_refl.
  - intros Hx. apply not_elem_of_cons in Hx as [Hxy Hx]. rewrite (proj2 (String.eqb_neq _ _)) by congruence. auto.
Qed.

(** What the program answers once the evidence is sufficient. *)
Definition gap_answer (s : Session) (i : IntentRow) : res HistoricalLedgerGapResolution * Session :=
  match head (bfilter (gap_of_intent intent_id) (incidents (s_db s))) with
  | Some x => (Ok (mkGapResolution (ic_incident_id x) case_id false false), s)
  | None =>
      (Ok (mkGapResolution (uuid4 (s_draws s)) case_id true false),
       mkSession (s_committed s) (insert_row (gap_row (s_db s) i (uuid4 (s_draws s))) (s_db s)) (S (s_draws s)))
  end.

Definition fresh_incident (s : Session) : Prop := uuid4 (s_draws s) ∉ map ic_incident_id (incidents (s_db s)).

Lemma sassert_now {X} b ex (f : unit -> SM Session X) s : sbind (sassert b ex) f s = if b then f tt s else (Raise ex, s).
Proof. by destruct b. Qed.

Lemma head_none_bfilter {X} (p : X -> bool) l : head (bfilter p l) = None <-> forall x, x ∈ l -> p x = false.
Proof.
  destruct (bfilter p l) as [|y l'] eqn:E; simpl.
  - split; [|done]. intros _ x Hx. destruct (p x) eqn:Ep; [|done].
    assert (x ∈ bfilter p l) as Hin by (by apply elem_of_bfilter). rewrite E in Hin. by apply not_elem_of_nil in Hin.
  - split; [done|]. intros Hx. assert (y ∈ bfilter p l) as Hin by (rewrite E; left). apply elem_of_bfilter in Hin as [Hin Hp].
    by rewrite Hx in Hp.
Qed.

(** The conditions as the program computes them. *)
Lemma cutover_guards (d : Db) i : cutover_allowed d i <->
  find_row intent_id d = Some i /\ bool_decide (it_execution_mode i = BINANCE_TESTNET) = true /\
  bool_decide (it_symbol i ∈ ce_current_flat_symbols e) = true /\ bool_decide (ce_current_open_order_ids e = ∅) = true /\
  bool_decide (ce_active_protection_ids e = ∅) = true /\
  str_truthy (ce_cutover_epoch e) && str_truthy (ce_resolution_reason e) = true /\
  sources_complete (ce_sources_checked e) = true /\
  is_nonempty (bfilter (entry_fill_of_intent intent_id) (fills d)) = true /\
  (latest_time (map fl_exchange_event_time (bfilter (entry_fill_of_intent intent_id) (fills d))) <? ce_writer_started_at e) = true /\
  bool_decide (head (bfilter (position_of_intent intent_id) (positions d)) = None) = true.
Proof.
  rewrite !bool_decide_eq_true, sources_complete_iff, Z.ltb_lt, andb_true_iff.
  set (l := bfilter (entry_fill_of_intent intent_id) (fills d)).
  assert (forall f, f ∈ l <-> f ∈ fills d /\ fl_intent_id f = intent_id /\ fl_reduce_only f = false) as Hl.
  { intros f. unfold l, entry_fill_of_intent. rewrite elem_of_bfilter, andb_true_iff, String.eqb_eq, negb_true_iff. tauto. }
  assert ((exists f, f ∈ fills d /\ fl_intent_id f = intent_id /\ fl_reduce_only f = false) <-> is_nonempty l = true) as Hne.
  { setoid_rewrite <- Hl. destruct l as [|f l']; simpl; split; try done; [by intros (f & ?%not_elem_of_nil)|].
    intros _. exists f. left. }
  assert (is_nonempty l = true -> (latest_time (map fl_exchange_event_time l) < ce_writer_started_at e <->
    forall f, f ∈ fills d -> fl_intent_id f = intent_id -> fl_reduce_only f = false ->
      fl_exchange_event_time f < ce_writer_started_at e)) as Hlt.
  { intros Hn. rewrite latest_time_lt by (by destruct l). split.
    - intros Hx f H1 H2 H3. apply Hx. apply (list_elem_of_fmap_2 fl_exchange_event_time), Hl. done.
    - intros Hx x (f & -> & (H1 & H2 & H3)%Hl)%list_elem_of_fmap. by apply Hx. }
  assert ((forall p, p ∈ positions d -> mp_intent_id p <> intent_id) <->
    head (bfilter (position_of_intent intent_id) (positions d)) = None) as Hp.
  { rewrite head_none_bfilter. unfold position_of_intent. by setoid_rewrite String.eqb_neq. }
  assert (forall t, t <> ""%string <-> str_truthy t = true) as Ht by (intros []; simpl; split; congruence).
  split.
  - intros []. rewrite <- Hp, <- Hne, Hlt, <- !Ht by (by apply Hne). tauto.
  - rewrite <- Hp, <- !Ht. intros (? & ? & ? & ? & ? & ? & ? & Hn & Hb & ?). rewrite (Hlt Hn) in Hb.
    apply Hne in Hn. by constructor.
Qed.

Lemma no_position_no_protection (d : Db) :
  head (bfilter (position_of_intent intent_id) (positions d)) = None ->
  bfilter (active_protection_of (positions d) intent_id) (protections d) = [].
Proof.
  rewrite head_none_bfilter. intros Hno. destruct (bfilter _ (protections d)) as [|r l] eqn:E; [done|].
  assert (r ∈ bfilter (active_protection_of (positions d) intent_id) (protections d)) as Hr by (rewrite E; left).
  apply elem_of_bfilter in Hr as [_ Hr]. unfold active_protection_of in Hr.
  apply andb_true_iff in Hr as [_ (p & Hp & [Hq _]%andb_true_iff)%existsb_exists].
  rewrite Hno in Hq by (by apply list_elem_of_In). done.
Qed.

Lemma head_bfilter_snoc {X} (p : X -> bool) l x : head (bfilter p l) = None -> p x = true -> head (bfilter p (l ++ [x])) = Some x.
Proof.
  intros Hl Hx. induction l as [|y l IH]; simpl in *; [by rewrite Hx|]. destruct (p y); [done|]. by apply IH.
Qed.

Lemma record_gap_answer (s : Session) i :
  constraints_ok (s_db s) = true ->
  fresh_incident s \/ is_Some (head (bfilter (gap_of_intent intent_id) (incidents (s_db s)))) ->
  cutover_allowed (s_db s) i -> record_historical_ledger_gap intent_id e s = gap_answer s i.
Proof.
  intros Hc Hf (Hi & Hm & Hs & Ho & Hp & Hw & Hsrc & Hfill & Hbefore & Hpos)%cutover_guards.
  unfold record_historical_ledger_gap. unfold sbind at 1, get at 1. rewrite Hi. unfold require at 1.
  unfold sbind at 1, sret at 1.
  rewrite sassert_now, Hm, sassert_now, Hs, sassert_now, Ho, sassert_now, Hp, sassert_now, Hw, sassert_now, Hsrc.
  rewrite select_now by done. cbn [rows fills_table]. rewrite sassert_now, Hfill, sassert_now, Hbefore.
  rewrite scalar_now by done. cbn [rows positions_table]. rewrite sassert_now, Hpos.
  unfold sbind at 1, read_db at 1. rewrite scalar_now by done. cbn [rows protections_table].
  rewrite no_position_no_protection by (by apply bool_decide_eq_true in Hpos). cbn [head].
  rewrite sassert_now, bool_decide_eq_true_2 by done. rewrite scalar_now by done. cbn [rows incidents_table].
  unfold gap_answer. destruct (head (bfilter (gap_of_intent intent_id) (incidents (s_db s)))) as [x|]; [done|]. destruct Hf as [Hf|[x [=]]].
  unfold record_incident, flush, sbind, new_uuid, add, on_db, smodify, sret, get, assign. cbn [s_db s_committed s_draws].
  fold case_id. fold (opened_gap (s_db s) i (uuid4 (s_draws s))).
  assert (forall x, ic_incident_id x = uuid4 (s_draws s) -> incident_ok x = true ->
    constraints_ok (insert_row x (s_db s)) = true) as Hok.
  { intros x Hx. apply inserted_constraints; [done|by rewrite Hx]. }
  rewrite Hok by done. cbn [s_db s_committed s_draws].
  pose proof (find_inserted (s_db s) (opened_gap (s_db s) i (uuid4 (s_draws s))) Hf) as Hfind.
  cbn [opened_gap ic_incident_id] in Hfind. rewrite Hfind. cbn [s_db s_committed s_draws].
  unfold on_db, smodify. cbn [s_db s_committed s_draws]. fold (gap_row (s_db s) i (uuid4 (s_draws s))).
  rewrite resolved_over_opened by done. by rewrite Hok.
Qed.

Lemma record_gap_refused (s : Session) :
  constraints_ok (s_db s) = true -> (forall i, ~ cutover_allowed (s_db s) i) ->
  exists x, record_historical_ledger_gap intent_id e s = (Raise x, s).
Proof.
  intros Hc Hno. unfold record_historical_ledger_gap.
  unfold sbind at 1, get at 1. unfold require at 1.
  destruct (find_row intent_id (s_db s)) as [i|] eqn:Ei; [|by eexists].
  specialize (Hno i). rewrite cutover_guards in Hno.
  unfold sbind at 1, sret at 1.
  do 6 (rewrite sassert_now; destruct (_ : bool) eqn:?E at 1; [|by eexists]).
  rewrite select_now by done. cbn [rows fills_table].
  do 2 (rewrite sassert_now; destruct (_ : bool) eqn:?E at 1; [|by eexists]).
  rewrite scalar_now by done. cbn [rows positions_table]. rewrite sassert_now.
  destruct (bool_decide (head _ = None)) eqn:?E; [|by eexists]. by destruct Hno.
Qed.

Lemma cutover_or_not (d : Db) : (exists i, cutover_allowed d i) \/ (forall i, ~ cutover_allowed d i).
Proof.
  setoid_rewrite cutover_guards. destruct (find_row intent_id d) as [i|]; [|right; by intros i []].
  match goal with |- (exists i0, Some i = Some i0 /\ @?P i0) \/ _ =>
    assert (Decision (P i)) as [Hi|Hi] by (cbv beta; apply _) end.
  - left. by exists i.
  - right. intros i0 [[= <-] Hi0]. by apply Hi.
Qed.

Lemma gap_of_gap_row d i id : gap_of_intent intent_id (gap_row d i id) = true.
Proof. unfold gap_of_intent, gap_row. simpl. by rewrite bool_decide_eq_true_2. Qed.
Lemma cutover_after_gap (d : Db) i (x : IncidentRow) : cutover_allowed d i -> cutover_allowed (insert_row x d) i.
Proof. by intros []. Qed.
Lemma gap_is_not_a_blocker (d : Db) (x : IncidentRow) mode : intent_id <> ""%string ->
  x ∈ incidents d -> gap_of_intent intent_id x = true -> unprojected_fill mode d intent_id = false.
Proof.
  intros Hne Hin [Hty Hid%bool_decide_eq_true]%andb_true_iff. unfold unprojected_fill.
  rewrite (bool_decide_eq_true_2 (intent_id ∈ historical_gaps d)), andb_false_r; [done|].
  unfold historical_gaps, texts. apply elem_of_list_to_set, list_elem_of_omap. exists (Some intent_id). split.
  - rewrite <- Hid. by apply list_elem_of_fmap_2, elem_of_bfilter.
  - destruct intent_id; done.
Qed.
End laws.

Section gap.
Context {H : Host}.

Lemma recorded_gap_unblocks (intent_id : string) (e : CutoverEvidence) (s s' : Session) r
  (Hc : constraints_ok (s_db s) = true) (Hf : fresh_incident s) (Hid : intent_id <> ""%string)
  (Hr : record_historical_ledger_gap intent_id e s = (Ok r, s')) :
  (exists l, s_db s' = with_rows (incidents (s_db s) ++ l) (s_db s)) /\
  (forall mode, unprojected_fill mode (s_db s') intent_id = false) /\
  exists r2, record_historical_ledger_gap intent_id e s' = (Ok r2, s') /\ gr_created r2 = false /\
    gr_incident_id r2 = gr_incident_id r.
Proof.
  destruct (cutover_or_not intent_id e (s_db s)) as [[i Hi]|Hno].
  2: { destruct (record_gap_refused intent_id e s Hc Hno) as [x E]. by rewrite E in Hr. }
  rewrite (record_gap_answer intent_id e s i Hc (or_introl Hf) Hi) in Hr. unfold gap_answer in Hr.
  destruct (head (bfilter (gap_of_intent intent_id) (incidents (s_db s)))) as [x|] eqn:Ex; injection Hr as <- <-.
  - assert (x ∈ bfilter (gap_of_intent intent_id) (incidents (s_db s))) as [Hin Hx]%elem_of_bfilter.
    { destruct (bfilter _ _); [done|]. injection Ex as ->. left. }
    split; [exists []; by rewrite app_nil_r; destruct (s_db s)|]. split; [intros mode; by apply gap_is_not_a_blocker with x|].
    rewrite (record_gap_answer intent_id e s i Hc (or_introl Hf) Hi). unfold gap_answer. rewrite Ex. by eexists.
  - set (g := gap_row intent_id e (s_db s) i (uuid4 (s_draws s))). cbn [s_db].
    split; [by exists [g]|]. split.
    { intros mode. apply gap_is_not_a_blocker with g; [done| |apply gap_of_gap_row].
      apply elem_of_app. right. by left. }
    assert (head (bfilter (gap_of_intent intent_id) (incidents (s_db s) ++ [g])) = Some g) as Eg.
    { apply head_bfilter_snoc; [done|apply gap_of_gap_row]. }
    rewrite (record_gap_answer intent_id e _ i); cbn [s_db].
    + unfold gap_answer. cbn [s_db incidents]. rewrite Eg. by eexists.
    + by apply inserted_constraints.
    + right. cbn [s_db incidents]. rewrite Eg. by eexists.
    + by apply cutover_after_gap.
Qed.

(** A gap is recorded exactly when the whole contract of a cutover holds.  A
    refusal changes nothing.  A success changes only the table of incidents, after it
    the entry no longer counts as an unprojected fill in any mode, and asking again
    finds the same incident and changes nothing. *)
Theorem gap_recorded_iff_cutover (intent_id : string) (e : CutoverEvidence) (s : Session)
  (Hc : constraints_ok (s_db s) = true) (Hf : fresh_incident s) (Hid : intent_id <> ""%string) :
  ((exists r s', record_historical_ledger_gap intent_id e s = (Ok r, s')) <-> exists i, cutover_allowed intent_id e (s_db s) i) /\
  match record_historical_ledger_gap intent_id e s with
  | (Raise _, s') => s' = s
  | (Ok r, s') =>
      (exists l, s_db s' = with_rows (incidents (s_db s) ++ l) (s_db s)) /\
      (forall mode, unprojected_fill mode (s_db s') intent_id = false) /\
      exists r2, record_historical_ledger_gap intent_id e s' = (Ok r2, s') /\ gr_created r2 = false /\
        gr_incident_id r2 = gr_incident_id r
  end.
Proof.
  destruct (cutover_or_not intent_id e (s_db s)) as [[i Hi]|Hno].
  - destruct (record_historical_ledger_gap intent_id e s) as [[r|x] s'] eqn:E.
    + split; [split; [by exists i|by do 2 eexists]|]. by eapply recorded_gap_unblocks.
    + rewrite (record_gap_answer intent_id e s i Hc (or_introl Hf) Hi) in E. unfold gap_answer in E. by destruct (head _).
  - destruct (record_gap_refused intent_id e s Hc Hno) as [x ->]. split; [split|done].
    + by intros (? & ? & ?).
    + intros [i Hi]. by destruct (Hno i).
Qed.
End gap.

(** ** An old entry whose position was never projected *)

Local Open Scope string_scope.
#[local] Instance gap_host : Host := {| uuid4 n := pretty.pretty n; clock n := Z.of_nat n * 1000000 |}.

Definition old_intent : IntentRow :=
  mkIntent "intent-0001" "c1" None "BTCUSDT" "long" "k" PRIMARY BINANCE_TESTNET 0 None None FILLED 3.
Definition old_fill : FillRow :=
  mkFillRow "f1" "intent-0001" "1" "a" "ex-1" (Some "t1") "BINANCE_USER_TRADE" "BTCUSDT" "BUY" false (dint 2) (dint 100)
    None None 12 12 "h".
Definition old_db : Db := mkDb [] [] [] [] [] [old_intent] [] [old_fill] [] [] [] [] [] [] [].
Definition old_session : Session := mkSession old_db old_db 7.
Definition exhaustive_evidence : CutoverEvidence :=
  mkCutover {["BTCUSDT"]} ∅ ∅ _REQUIRED_SOURCES "epoch-2" 100 "terminal fill unavailable" [] 200.

Lemma gap_recorded_iff_cutover_witness :
  unprojected_fill BINANCE_TESTNET old_db "intent-0001" = true /\
  (exists i, cutover_allowed "intent-0001" exhaustive_evidence old_db i) /\
  exists s', (record_historical_ledger_gap "intent-0001" exhaustive_evidence old_session).2 = s' /\
    map ic_resolved (incidents (s_db s')) = [true] /\ unprojected_fill BINANCE_TESTNET (s_db s') "intent-0001" = false.
Proof.
  pose proof (gap_recorded_iff_cutover "intent-0001" exhaustive_evidence old_session ltac:(vm_compute; reflexivity)
    ltac:(vm_compute; intros E%not_elem_of_nil; exact E) ltac:(discriminate)) as [Hiff Hrun].
  split; [vm_compute; reflexivity|]. split; [apply Hiff; vm_compute; do 2 eexists; reflexivity|].
  eexists. split; [reflexivity|]. split; [vm_compute; reflexivity|].
  destruct (record_historical_ledger_gap "intent-0001" exhaustive_evidence old_session) as [[r|x] s'] eqn:E.
  - exact (proj1 (proj2 Hrun) BINANCE_TESTNET).
  - exfalso. vm_compute in E. discriminate E.
Defined.
