(* ===== verification/RiskTiers.v ===== *)
(** * RiskTiers: caps of leverage and notional by symbol

    [services/execution/risk_tiers.py], the settings of tiers of
    [shared/models/workflow.py] and the names of symbols of
    [services/data/universe.py].  A float is the decimal of its [repr]; the one
    product of floats is a parameter.  A persisted profile is JSON, so a tier is a
    mapping, null, or something else; of a mapping the model keeps the known keys
    and whether there are others. *)
From S2P Require Import Prelude PyDecimal PyValue.
From Stdlib Require Import Ascii.
Local Open Scope Z_scope.

(** The product of two floats. *)
Class Floats := { float_mul : Dec -> Dec -> Dec }.

(** ** Names of symbols *)

(** [s.replace(pat, "")]: [skip] characters are still part of a removed [pat]. *)
Fixpoint remove_all (pat : string) (skip : nat) (s : string) : string :=
  match s with
  | EmptyString => EmptyString
  | String c s' =>
      match skip with
      | S k => remove_all pat k s'
      | O => if String.prefix pat s then remove_all pat (pred (String.length pat)) s' else String c (remove_all pat 0 s')
      end
  end.

Definition canonical_market_symbol (symbol : string) : string := remove_all ":USDT" 0 symbol.

Definition FIXED_TOP20_ASSETS : list (string * string) :=
  [("BTC/USDT", "BTCUSDT"); ("ETH/USDT", "ETHUSDT"); ("SOL/USDT", "SOLUSDT"); ("XRP/USDT", "XRPUSDT");
   ("BNB/USDT", "BNBUSDT"); ("DOGE/USDT", "DOGEUSDT"); ("ADA/USDT", "ADAUSDT"); ("LINK/USDT", "LINKUSDT");
   ("AVAX/USDT", "AVAXUSDT"); ("TRX/USDT", "TRXUSDT")]%string.
Definition CONTRACT_SYMBOL_ALIASES : list (string * string) := [("PEPE/USDT", "1000PEPEUSDT")]%string.
Definition EXCHANGE_TO_PLATFORM_SYMBOL : list (string * string) :=
  map (fun a => (a.2, a.1)) (FIXED_TOP20_ASSETS ++ CONTRACT_SYMBOL_ALIASES).

(** [d.get(key)] *)
Fixpoint lookup_key {A} (key : string) (l : list (string * A)) : option A :=
  match l with
  | [] => None
  | (k, a) :: l => if String.eqb k key then Some a else lookup_key key l
  end.

Definition exchange_to_platform_symbol (symbol : string) : string :=
  let raw := str_upper symbol in
  if contains_char "/" raw then canonical_market_symbol raw
  else match lookup_key raw EXCHANGE_TO_PLATFORM_SYMBOL with
       | Some platform => platform
       | None => match without_suffix "USDT" raw with Some base => (base +:+ "/USDT")%string | None => raw end
       end.

Definition _normalize_symbol (symbol : string) : string := remove_all ":USDT" 0 (exchange_to_platform_symbol symbol).

(** ** Ceilings *)

Definition MAX_DIRECTIONAL_LEVERAGE : Dec := mkDec 500 (-1).
Definition MAX_DIRECTIONAL_POSITION_FRACTION : Dec := mkDec 25 (-1).

(** [max(1.0, min(ceiling, value))]: Python's [max] and [min] keep the first of equals. *)
Definition cap_directional_leverage (value : Dec) : Dec := dmax (mkDec 10 (-1)) (dmin MAX_DIRECTIONAL_LEVERAGE value).
Definition cap_directional_position_fraction (value : Dec) : Dec :=
  dmax (mkDec 1 (-2)) (dmin MAX_DIRECTIONAL_POSITION_FRACTION value).

(** ** Settings of tiers *)

Record AssetRiskTierSettings := mkAssetTier {
  at_tier : string; at_symbols : list string; at_leverage : Dec; at_max_position_fraction : Dec;
  at_risk_per_trade : option Dec; at_max_leverage : option Dec; at_max_margin_fraction : option Dec }.
Record VolatilityRiskTierSettings := mkVolTier {
  vt_tier : string; vt_symbols : list string; vt_multiplier : Dec; vt_no_new_entry : bool }.

(** What a persisted tier says; an absent key is [None]. *)
Record AssetTierPayload := mkAssetPayload {
  tp_tier : option string; tp_symbols : list string; tp_leverage : option Dec; tp_max_position_fraction : option Dec;
  tp_risk_per_trade : option Dec; tp_max_leverage : option Dec; tp_max_margin_fraction : option Dec; tp_other_keys : bool }.
Record VolTierPayload := mkVolPayload {
  vp_tier : option string; vp_symbols : list string; vp_multiplier : option Dec; vp_no_new_entry : bool; vp_other_keys : bool }.

(** A value of a mapping of tiers. *)
Inductive RawTier (P : Type) := RAW_NULL | RAW_OTHER | RAW_MAPPING (payload : P).
Arguments RAW_NULL {P}. Arguments RAW_OTHER {P}. Arguments RAW_MAPPING {P} payload.
Definition Tiers (P : Type) : Type := list (string * RawTier P).

Definition in_bounds (lo : Dec) (strict : bool) (hi x : Dec) : bool :=
  (if strict then dltb lo x else dleb lo x) && dleb x hi.
Definition absent_or (p : Dec -> bool) (x : option Dec) : bool := match x with Some x => p x | None => true end.

(** [AssetRiskTierSettings.model_validate]: the bounds of its fields; text is stripped. *)
Definition validate_asset_tier (t : AssetRiskTierSettings) (other_keys : bool) : res AssetRiskTierSettings :=
  if negb other_keys && in_bounds (dint 1) false (dint 125) (at_leverage t)
     && in_bounds dzero true (dint 5) (at_max_position_fraction t)
     && absent_or (in_bounds dzero true (mkDec 1 (-1))) (at_risk_per_trade t)
     && absent_or (in_bounds (dint 1) false (dint 125)) (at_max_leverage t)
     && absent_or (in_bounds dzero true (dint 1)) (at_max_margin_fraction t)
  then Ok (mkAssetTier (strip (at_tier t)) (map strip (at_symbols t)) (at_leverage t) (at_max_position_fraction t)
             (at_risk_per_trade t) (at_max_leverage t) (at_max_margin_fraction t))
  else Raise (ValueError "ValidationError").
Definition validate_vol_tier (t : VolatilityRiskTierSettings) (other_keys : bool) : res VolatilityRiskTierSettings :=
  if negb other_keys && in_bounds dzero true (dint 1) (vt_multiplier t)
  then Ok (mkVolTier (strip (vt_tier t)) (map strip (vt_symbols t)) (vt_multiplier t) (vt_no_new_entry t))
  else Raise (ValueError "ValidationError").

Definition CORE_SYMBOLS : list string := ["BTC/USDT"; "ETH/USDT"; "SOL/USDT"]%string.
Definition VOLATILITY_TIER_NAMES : list string := ["vol_low"; "vol_mid"; "vol_high"]%string.

(** The same leverage and fraction for every tier of volatility. *)
Definition VOLATILITY_TIER_DEFAULT : Dec * Dec := (mkDec 500 (-1), mkDec 250 (-2)).

Definition default_asset_risk_tiers : Tiers AssetTierPayload :=
  let tier name symbols := RAW_MAPPING (mkAssetPayload (Some name) symbols (Some MAX_DIRECTIONAL_LEVERAGE)
                             (Some MAX_DIRECTIONAL_POSITION_FRACTION) None None None false) in
  [("core", tier "core" CORE_SYMBOLS); ("standard", tier "standard" [])]%string.

(** ** The tier of a symbol *)

Definition hidden (name : string) : bool := String.prefix "_" name.

Fixpoint has_dynamic (names : list string) (tiers : Tiers AssetTierPayload) : res bool :=
  match names with
  | [] => Ok false
  | name :: names =>
      match lookup_key name tiers with
      | None | Some RAW_NULL => has_dynamic names tiers
      | Some RAW_OTHER => Raise (TypeError "dict()")
      | Some (RAW_MAPPING p) => if is_nonempty (tp_symbols p) then Ok true else has_dynamic names tiers
      end
  end.
Definition _has_dynamic_volatility_tiers (tiers : Tiers AssetTierPayload) : res bool :=
  has_dynamic VOLATILITY_TIER_NAMES tiers.

Section tiers.
Context {F : Floats}.

(** The tier a payload describes, the older fields derived from the newer; [None]
    when a field is missing and the payload is passed over. *)
Definition derived_tier (tier_name : string) (p : AssetTierPayload) : res (option AssetRiskTierSettings) :=
  let leverage := match tp_leverage p with Some l => Some l | None => tp_max_leverage p end in
  fraction ← match tp_max_position_fraction p, tp_max_margin_fraction p with
             | Some f, _ => Ok (Some f)
             | None, Some m => match leverage with
                               | Some l => Ok (Some (float_mul m l))
                               | None => Raise (KeyError "leverage")
                               end
             | None, None => Ok None
             end;
  match leverage, fraction with
  | Some l, Some f =>
      t ← validate_asset_tier (mkAssetTier (default tier_name (tp_tier p)) (tp_symbols p) (cap_directional_leverage l)
            (cap_directional_position_fraction f) (tp_risk_per_trade p) (tp_max_leverage p) (tp_max_margin_fraction p))
            (tp_other_keys p);
      Ok (Some t)
  | _, _ => Ok None
  end.

Definition names_symbol (normalized : string) (symbols : list string) : bool :=
  existsb (fun item => String.eqb (_normalize_symbol item) normalized) symbols.
Definition catches_all (t : AssetRiskTierSettings) : bool :=
  bool_decide (at_tier t ∈ ["standard"; "vol_mid"]%string) || negb (is_nonempty (at_symbols t)).

(** The first tier that names the symbol, or the last that catches all. *)
Fixpoint lookup_tier (normalized : string) (configured : Tiers AssetTierPayload) (names : list string)
    (fallback : option AssetRiskTierSettings) : res (option AssetRiskTierSettings) :=
  match names with
  | [] => Ok fallback
  | name :: names =>
      match lookup_key name configured with
      | Some (RAW_MAPPING p) =>
          tier ← derived_tier name p;
          match tier with
          | None => lookup_tier normalized configured names fallback
          | Some t =>
              if names_symbol normalized (at_symbols t) then Ok (Some t)
              else lookup_tier normalized configured names (if catches_all t then Some t else fallback)
          end
      | _ => lookup_tier normalized configured names fallback
      end
  end.

(** The middle tier of volatility, when only such tiers exist and none fits. *)
Definition middle_tier (configured : Tiers AssetTierPayload) : res AssetRiskTierSettings :=
  match lookup_key "vol_mid"%string configured with
  | Some RAW_OTHER => Raise (TypeError "dict()")
  | Some (RAW_MAPPING p) =>
      validate_asset_tier (mkAssetTier (default "vol_mid"%string (tp_tier p)) (tp_symbols p)
        (cap_directional_leverage (default VOLATILITY_TIER_DEFAULT.1 (tp_leverage p)))
        (cap_directional_position_fraction (default VOLATILITY_TIER_DEFAULT.2 (tp_max_position_fraction p)))
        (tp_risk_per_trade p) (tp_max_leverage p) (tp_max_margin_fraction p)) (tp_other_keys p)
  | Some RAW_NULL | None =>
      validate_asset_tier (mkAssetTier "vol_mid" [] (cap_directional_leverage VOLATILITY_TIER_DEFAULT.1)
        (cap_directional_position_fraction VOLATILITY_TIER_DEFAULT.2) None None None) false
  end.

Definition resolve_asset_risk_tier (symbol : string) (tiers : Tiers AssetTierPayload) : res AssetRiskTierSettings :=
  let source := match tiers with [] => default_asset_risk_tiers | _ => tiers end in
  let configured := bfilter (fun kv => negb (hidden kv.1)) source in
  dynamic ← _has_dynamic_volatility_tiers configured;
  let names := map fst configured in
  let lookup_names := if (dynamic : bool) then VOLATILITY_TIER_NAMES
                      else bfilter (fun n => negb (bool_decide (n ∈ VOLATILITY_TIER_NAMES))) names in
  let lookup_names := if is_nonempty lookup_names then lookup_names else names in
  found ← lookup_tier (_normalize_symbol symbol) configured lookup_names None;
  match found with
  | Some t => Ok t
  | None => if dynamic then middle_tier configured
            else validate_asset_tier (mkAssetTier "standard" [] MAX_DIRECTIONAL_LEVERAGE MAX_DIRECTIONAL_POSITION_FRACTION
                   None None None) false
  end.
End tiers.

(** ** Volatility *)

Fixpoint volatility_of (normalized : string) (tiers : Tiers VolTierPayload) : res (Dec * bool) :=
  match tiers with
  | [] => Ok (dint 1, false)
  | (name, raw) :: tiers =>
      match raw with
      | RAW_MAPPING p =>
          if hidden name then volatility_of normalized tiers
          else
            tier ← validate_vol_tier (mkVolTier (default name (vp_tier p)) (vp_symbols p)
                     (default (mkDec 10 (-1)) (vp_multiplier p)) (vp_no_new_entry p)) (vp_other_keys p);
            if names_symbol normalized (vt_symbols tier) then Ok (dmin (vt_multiplier tier) (dint 1), vt_no_new_entry tier)
            else volatility_of normalized tiers
      | _ => volatility_of normalized tiers
      end
  end.
Definition resolve_volatility_adjustment (symbol : string) (tiers : Tiers VolTierPayload) : res (Dec * bool) :=
  volatility_of (_normalize_symbol symbol) tiers.

(** [sorted(items, key=value)]: a stable sort. *)
Fixpoint insert_by_value (x : string * Dec) (l : list (string * Dec)) : list (string * Dec) :=
  match l with
  | [] => [x]
  | y :: l => if dltb x.2 y.2 then x :: y :: l else y :: insert_by_value x l
  end.
Definition sort_by_value (l : list (string * Dec)) : list (string * Dec) := foldl (fun acc x => insert_by_value x acc) [] l.

Record Buckets := mkBuckets { bk_low : list string; bk_mid : list string; bk_high : list string }.

Definition classify_symbols_by_atr_pct (symbol_atr_pct : list (string * Dec)) : Buckets :=
  let ordered := map fst (sort_by_value (map (fun sv => (_normalize_symbol sv.1, sv.2)) symbol_atr_pct)) in
  match ordered with
  | [] => mkBuckets [] [] []
  | [a] => mkBuckets [] [a] []
  | [a; b] => mkBuckets [a] [] [b]
  | _ =>
      let n := length ordered in
      let low_end := Nat.max 1 (n / 3) in
      let high_start := (n - Nat.max 1 (n / 3))%nat in
      mkBuckets (take low_end ordered) (drop low_end (take high_start ordered)) (drop high_start ordered)
  end.

Definition VOLATILITY_LOW : Dec := mkDec 10 (-1).
Definition VOLATILITY_MID : Dec := mkDec 75 (-2).
Definition VOLATILITY_HIGH : Dec := mkDec 5 (-1).
Definition VOLATILITY_SHOCK : Dec := mkDec 25 (-2).

(** [VolatilityRiskTierSettings(...).model_dump(mode="json")] *)
Definition built_tier (name : string) (symbols : list string) (multiplier : Dec) (no_new_entry : bool) :
    res (string * RawTier VolTierPayload) :=
  t ← validate_vol_tier (mkVolTier name symbols multiplier no_new_entry) false;
  Ok (name, RAW_MAPPING (mkVolPayload (Some (vt_tier t)) (vt_symbols t) (Some (vt_multiplier t)) (vt_no_new_entry t) false)).

Definition missing_symbols (symbol_atr_pct : list (string * Dec)) (required_symbols : list string) : list string :=
  bfilter (fun s => negb (bool_decide (s ∈ map (fun sv => _normalize_symbol sv.1) symbol_atr_pct)))
    (map _normalize_symbol required_symbols).

Definition build_volatility_risk_tiers (symbol_atr_pct : list (string * Dec)) (required_symbols : list string) :
    res (Tiers VolTierPayload) :=
  let b := classify_symbols_by_atr_pct symbol_atr_pct in
  low ← built_tier "low" (bk_low b) VOLATILITY_LOW false;
  mid ← built_tier "mid" (bk_mid b) VOLATILITY_MID false;
  high ← built_tier "high" (bk_high b) VOLATILITY_HIGH false;
  shock ← built_tier "shock" (missing_symbols symbol_atr_pct required_symbols) VOLATILITY_SHOCK true;
  Ok [low; mid; high; shock].
