(* ===== verification/OperatorProfile.v ===== *)
(** * OperatorProfile: the limits one operator profile gives a symbol

    [application/operator_profile.py], the runtime limits of
    [shared/models/risk.py] and the authority of an entry
    ([application/production_strategy.py]).  A profile is JSON whose numbers are
    numbers; an absent key is [None]. *)
From S2P Require Import Prelude PyDecimal PyValue State Receipts Candidates Cycle RiskTiers.
Local Open Scope Z_scope.

(** ** Who may open exposure *)

Record EntryAuthorityResolution := mkAuthority {
  ea_authority : EntryAuthority; ea_reason : string; ea_active_strategy_id : option string; ea_promotion_eligible : bool }.
Definition NO_AUTHORIZED_PRODUCTION_STRATEGY : string := "NO_AUTHORIZED_PRODUCTION_STRATEGY".

Definition resolve_entry_authority (production_authorized : bool) (production_strategy_id : option string)
    (forward_authorized : bool) (forward_strategy_id : option string) (execution_mode : V2ExecutionMode)
    (operator_testnet_canary_enabled explicit_testnet_canary : bool) : EntryAuthorityResolution :=
  let testnet := bool_decide (execution_mode = BINANCE_TESTNET) in
  if production_authorized then mkAuthority AUTH_PRODUCTION "production_approved" production_strategy_id true
  else if testnet && forward_authorized then
    mkAuthority AUTH_TESTNET_FORWARD "testnet_forward_authorized" forward_strategy_id false
  else if testnet && operator_testnet_canary_enabled && explicit_testnet_canary then
    mkAuthority AUTH_TESTNET_CANARY "testnet_canary_enabled" (Some "testnet_sampling_v2") false
  else mkAuthority AUTH_NONE NO_AUTHORIZED_PRODUCTION_STRATEGY None false.

(** ** Profiles and settings *)

Definition PAPER_RISK_PER_TRADE : Dec := mkDec 1 (-1).
Definition PAPER_MAX_MARGIN_FRACTION : Dec := mkDec 5 (-2).
Definition PAPER_MAX_SYMBOL_EXPOSURE : Dec := mkDec 15 (-1).
Definition PAPER_MAX_TOTAL_EXPOSURE : Dec := mkDec 75 (-1).
Definition PAPER_MAX_OPEN_POSITIONS : Z := 5.
Definition PAPER_MAX_LEVERAGE : Dec := mkDec 300 (-1).

(** [op_order_notional_usdt] tells an absent key from a null; the tiers are
    [None] when their key is absent or not a mapping. *)
Record ExecutionProfile := mkProfile {
  op_asset_risk_tiers : option (Tiers AssetTierPayload); op_max_symbol_exposure : option Dec; op_max_leverage : option Dec;
  op_order_notional_usdt : option (option Dec); op_risk_per_trade : option Dec; op_max_margin_fraction : option Dec;
  op_max_open_positions : option Z; op_max_total_exposure : option Dec; op_sampling_fallback_enabled : bool;
  op_volatility_risk_tiers : option (Tiers VolTierPayload) }.
Definition no_profile : ExecutionProfile := mkProfile None None None None None None None None false None.

Record V2ExecutionSettings := mkSettings {
  vs_risk_per_trade : Dec; vs_max_leverage : Z; vs_max_margin_fraction : Dec; vs_order_notional_usdt : option Dec;
  vs_max_position_fraction : Dec; vs_max_open_positions : Z; vs_max_total_exposure : Dec;
  vs_sampling_fallback_enabled : bool; vs_volatility_multiplier : Dec; vs_volatility_no_new_entry : bool;
  vs_tier_recommended_leverage : option Z; vs_tier_would_reduce : bool; vs_tier_enforced : bool;
  vs_volatility_enforced : bool; vs_canary_contract_applied : bool }.

(** [int(d)] *)
Definition int_of (d : Dec) : Z := if 0 <=? dexp d then coef d * 10 ^ dexp d else Z.quot (coef d) (10 ^ (- dexp d)).
(** [min(x, y)] unless [y] is None. *)
Definition min_present (x : Dec) (y : option Dec) : Dec := match y with Some y => dmin x y | None => x end.

(** The limits before volatility: risk, leverage, margin, position. *)
Record Envelope := mkEnvelope { ev_risk : Dec; ev_leverage : Dec; ev_margin : Dec; ev_position : Dec }.

Definition profile_exposure (p : ExecutionProfile) : Dec :=
  cap_directional_position_fraction (default PAPER_MAX_SYMBOL_EXPOSURE (op_max_symbol_exposure p)).
Definition profile_risk (p : ExecutionProfile) : Dec := default PAPER_RISK_PER_TRADE (op_risk_per_trade p).
Definition profile_margin (p : ExecutionProfile) : Dec :=
  dmin (default PAPER_MAX_MARGIN_FRACTION (op_max_margin_fraction p)) (mkDec 5 (-2)).

Section settings.
Context {F : Floats}.

Definition profile_envelope (p : ExecutionProfile) : Envelope :=
  mkEnvelope (profile_risk p) (cap_directional_leverage (default PAPER_MAX_LEVERAGE (op_max_leverage p)))
    (profile_margin p) (profile_exposure p).

Definition tier_envelope (p : ExecutionProfile) (tier : AssetRiskTierSettings) : Envelope :=
  let leverage := min_present (at_leverage tier) (cap_directional_leverage <$> op_max_leverage p) in
  mkEnvelope (min_present (profile_risk p) (at_risk_per_trade tier))
    (min_present leverage (cap_directional_leverage <$> at_max_leverage tier))
    (min_present (profile_margin p) (at_max_margin_fraction tier))
    (dmin (at_max_position_fraction tier) (profile_exposure p)).

Definition base_envelope (symbol : string) (p : ExecutionProfile) : res Envelope :=
  match op_asset_risk_tiers p with
  | Some ((_ :: _) as tiers) => tier ← resolve_asset_risk_tier symbol tiers; Ok (tier_envelope p tier)
  | _ => Ok (profile_envelope p)
  end.

(** Volatility scales the limits down. *)
Definition scaled (multiplier : Dec) (e : Envelope) : Envelope :=
  if dltb multiplier (dint 1) then
    mkEnvelope (dmul (ev_risk e) multiplier)
      (dmax (dint 1) (to_integral_value ROUND_DOWN (dmul (ev_leverage e) multiplier)))
      (dmul (ev_margin e) multiplier) (dmul (ev_position e) multiplier)
  else e.

Definition order_notional (p : ExecutionProfile) : res (option Dec) :=
  match op_order_notional_usdt p with
  | None => Ok None
  | Some None => Raise (OtherException "InvalidOperation")
  | Some (Some x) => Ok (Some x)
  end.

Definition resolve_v2_execution_settings (symbol : string) (execution_profile : option ExecutionProfile) :
    res V2ExecutionSettings :=
  let p := default no_profile execution_profile in
  base ← base_envelope symbol p;
  notional ← order_notional p;
  volatility ← resolve_volatility_adjustment symbol (default [] (op_volatility_risk_tiers p));
  let e := scaled volatility.1 base in
  Ok (mkSettings (ev_risk e) (int_of (ev_leverage e)) (ev_margin e) notional (ev_position e)
        (default PAPER_MAX_OPEN_POSITIONS (op_max_open_positions p))
        (default PAPER_MAX_TOTAL_EXPOSURE (op_max_total_exposure p)) (op_sampling_fallback_enabled p)
        volatility.1 volatility.2 (Some (int_of (ev_leverage base))) false true true false).

(** ** The canary contract *)

Definition apply_testnet_canary_runtime_contract (s : V2ExecutionSettings) (symbol : string)
    (execution_mode : V2ExecutionMode) (entry_authority : EntryAuthority) (candidate_lane : option CandidateLane) :
    V2ExecutionSettings :=
  if bool_decide (execution_mode = BINANCE_TESTNET) && bool_decide (entry_authority = AUTH_TESTNET_CANARY)
     && bool_decide (symbol ∈ TESTNET_CANARY_SYMBOLS)
     && match candidate_lane with Some lane => bool_decide (lane = TESTNET_SAMPLING) | None => true end
  then mkSettings CANARY_RISK_PER_TRADE CANARY_MAX_LEVERAGE CANARY_MAX_MARGIN_FRACTION (Some CANARY_MAX_NOTIONAL_USDT)
         CANARY_MAX_SYMBOL_EXPOSURE CANARY_MAX_OPEN_POSITIONS CANARY_MAX_TOTAL_EXPOSURE (vs_sampling_fallback_enabled s)
         (vs_volatility_multiplier s) (vs_volatility_no_new_entry s) (vs_tier_recommended_leverage s)
         match vs_tier_recommended_leverage s with Some l => l <? CANARY_MAX_LEVERAGE | None => false end
         false false true
  else s.

(** The limits and the kill switch of a [CycleRequest] of the scheduler entry. *)
Definition requested_sizing (s : V2ExecutionSettings) (entry_authority : EntryAuthority) : SizingLimits :=
  mkSizing (vs_risk_per_trade s) (vs_max_leverage s) (vs_max_margin_fraction s) (vs_order_notional_usdt s)
    (vs_max_position_fraction s)
    (if bool_decide (entry_authority = AUTH_TESTNET_CANARY) then Some (vs_max_open_positions s) else None)
    (vs_max_total_exposure s).
Definition requested_kill_switch (s : V2ExecutionSettings) : bool :=
  vs_volatility_no_new_entry s && vs_volatility_enforced s.
End settings.
