(* ===== verification/OperatorLaws.v ===== *)
(** * OperatorLaws: what a profile, its tiers and volatility may do to the limits *)
From S2P Require Import Prelude PyDecimal PyValue State Receipts Candidates Cycle RiskTiers OperatorProfile.
From Stdlib Require Import QArith Lqa.
From stdpp Require Import sorting.
Local Open Scope Z_scope.

(** ** Truncation *)

Lemma int_of_down d : (dval (to_integral_value ROUND_DOWN d) == inject_Z (int_of d))%Q.
Proof.
  unfold to_integral_value, int_of. destruct (Z.leb_spec 0 (dexp d)); [|apply dval_dint].
  unfold dval. by rewrite inject_Z_mult, p10_inject.
Qed.
Lemma int_of_spec d : (0 <= dval d)%Q -> (inject_Z (int_of d) <= dval d)%Q /\ (dval d < inject_Z (int_of d) + 1)%Q.
Proof.
  intros Hd. destruct (to_integral_floor d) as (z & Hz & Hz1 & Hz2).
  rewrite <- (to_integral_down_nonneg d Hd), int_of_down in Hz. by rewrite Hz.
Qed.
Lemma int_of_mono d d' : (0 <= dval d)%Q -> (dval d <= dval d')%Q -> int_of d <= int_of d'.
Proof.
  intros Hd Hle. destruct (int_of_spec d Hd), (int_of_spec d' ltac:(lra)).
  enough (int_of d < int_of d' + 1) by lia. rewrite Zlt_Qlt, inject_Z_plus. change (inject_Z 1) with 1%Q. lra.
Qed.
Lemma int_of_dint n : int_of (dint n) = n.
Proof. unfold int_of. simpl. lia. Qed.

Lemma dmax_lub a b c : (dval a <= c)%Q -> (dval b <= c)%Q -> (dval (dmax a b) <= c)%Q.
Proof. destruct (dmax_cases a b) as [->| ->]; auto. Qed.
Lemma dmin_glb a b c : (c <= dval a)%Q -> (c <= dval b)%Q -> (c <= dval (dmin a b))%Q.
Proof. destruct (dmin_cases a b) as [->| ->]; auto. Qed.
Lemma min_present_le x y : (dval (min_present x y) <= dval x)%Q.
Proof. destruct y; [apply dmin_le_l|apply Qle_refl]. Qed.
Lemma min_present_glb x y c : (c <= dval x)%Q -> (forall z, y = Some z -> (c <= dval z)%Q) -> (c <= dval (min_present x y))%Q.
Proof. intros Hx Hy. destruct y as [z|]; [|done]. apply dmin_glb; auto. Qed.

(** Scaling down never passes a representable bound. *)
Lemma scaled_le x m b :
  fits b -> (0 <= b)%Q -> (0 < dval m)%Q -> (dval m <= 1)%Q -> (dval x <= b)%Q -> (dval (dmul x m) <= b)%Q.
Proof. intros Hf Hb Hm Hm1 Hx. eapply rounds_le_bound; [done| |apply dmul_rounds]. nra. Qed.

(** ** Tiers *)

Lemma cap_leverage_bounds x : (1 <= dval (cap_directional_leverage x))%Q /\ (dval (cap_directional_leverage x) <= 50)%Q.
Proof.
  unfold cap_directional_leverage. split; [eapply Qle_trans; [|apply dmax_ge_l]; vm_compute; discriminate|].
  apply dmax_lub; [vm_compute; discriminate|]. eapply Qle_trans; [apply dmin_le_l|]. vm_compute. discriminate.
Qed.
Lemma cap_fraction_bounds x :
  (1 # 100 <= dval (cap_directional_position_fraction x))%Q /\ (dval (cap_directional_position_fraction x) <= 5 # 2)%Q.
Proof.
  unfold cap_directional_position_fraction. split; [eapply Qle_trans; [|apply dmax_ge_l]; vm_compute; discriminate|].
  apply dmax_lub; [vm_compute; discriminate|]. eapply Qle_trans; [apply dmin_le_l|]. vm_compute. discriminate.
Qed.

Definition tier_bounded (t : AssetRiskTierSettings) : Prop :=
  (1 <= dval (at_leverage t))%Q /\ (dval (at_leverage t) <= 50)%Q /\
  (1 # 100 <= dval (at_max_position_fraction t))%Q /\ (dval (at_max_position_fraction t) <= 5 # 2)%Q.

Lemma validate_asset_tier_keeps t b t' : validate_asset_tier t b = Ok t' -> tier_bounded t -> tier_bounded t'.
Proof. unfold validate_asset_tier. destruct (_ && _); [|done]. by intros [= <-]. Qed.
Lemma capped_tier_bounded name symbols l f a b c :
  tier_bounded (mkAssetTier name symbols (cap_directional_leverage l) (cap_directional_position_fraction f) a b c).
Proof. pose proof (cap_leverage_bounds l). pose proof (cap_fraction_bounds f). unfold tier_bounded. simpl. tauto. Qed.

Section tiers.
Context {F : Floats}.

Lemma derived_tier_bounded name p t : derived_tier name p = Ok (Some t) -> tier_bounded t.
Proof.
  unfold derived_tier. destruct (match tp_max_position_fraction p with Some _ => _ | None => _ end) as [[f|]|]; simpl; [| |done].
  - destruct (match tp_leverage p with Some _ => _ | None => _ end) as [l|]; [|done].
    destruct (validate_asset_tier _ _) eqn:E; simpl; [|done]. intros [= <-].
    eapply validate_asset_tier_keeps; [exact E|apply capped_tier_bounded].
  - by destruct (match tp_leverage p with Some _ => _ | None => _ end).
Qed.
Lemma lookup_tier_bounded s configured names fallback t :
  (forall t, fallback = Some t -> tier_bounded t) -> lookup_tier s configured names fallback = Ok (Some t) -> tier_bounded t.
Proof.
  revert fallback. induction names as [|name names IH]; intros fallback Hf; simpl; [intros [= ->]; auto|].
  destruct (lookup_key name configured) as [[| |p]|]; eauto.
  destruct (derived_tier name p) as [[u|]|] eqn:E; simpl; [|eauto|done]. apply derived_tier_bounded in E.
  destruct (names_symbol s (at_symbols u)); [by intros [= <-]|]. apply IH. destruct (catches_all u); [by intros ? [= <-]|done].
Qed.
Lemma middle_tier_bounded configured t : middle_tier configured = Ok t -> tier_bounded t.
Proof.
  unfold middle_tier. destruct (lookup_key _ configured) as [[| |p]|]; [|done| |].
  all: intros E; eapply validate_asset_tier_keeps; [exact E|]; apply capped_tier_bounded.
Qed.
Lemma resolved_tier_bounded symbol tiers t : resolve_asset_risk_tier symbol tiers = Ok t -> tier_bounded t.
Proof.
  unfold resolve_asset_risk_tier. destruct (_has_dynamic_volatility_tiers _) as [dynamic|]; simpl; [|done].
  destruct (lookup_tier _ _ _ _) as [[u|]|] eqn:E; simpl; [| |done].
  - intros [= <-]. eapply (lookup_tier_bounded _ _ _ None); [done|exact E].
  - destruct dynamic; [apply middle_tier_bounded|]. intros Ev. eapply validate_asset_tier_keeps; [exact Ev|].
    unfold tier_bounded. vm_compute. repeat split; discriminate.
Qed.
End tiers.

Lemma validate_vol_tier_bounds t b t' : validate_vol_tier t b = Ok t' -> (0 < dval (vt_multiplier t'))%Q /\ (dval (vt_multiplier t') <= 1)%Q.
Proof.
  unfold validate_vol_tier. destruct (_ && _) eqn:E; [|done]. intros [= <-].
  apply andb_true_iff in E as [_ [H1%dltb_spec H2%dleb_spec]%andb_true_iff]. done.
Qed.
Lemma volatility_bounds symbol tiers m b :
  resolve_volatility_adjustment symbol tiers = Ok (m, b) -> (0 < dval m)%Q /\ (dval m <= 1)%Q.
Proof.
  unfold resolve_volatility_adjustment. generalize (_normalize_symbol symbol) as s. intros s.
  induction tiers as [|[name [| |p]] tiers IH]; simpl; auto.
  - intros [= <- _]. split; vm_compute; [reflexivity|discriminate].
  - destruct (hidden name); [done|]. destruct (validate_vol_tier _ _) as [t|] eqn:E; simpl; [|done].
    destruct (names_symbol _ _); [|done]. intros [= <- _]. apply validate_vol_tier_bounds in E as [H0 H1]. split.
    + destruct (dmin_cases (vt_multiplier t) (dint 1)) as [->| ->]; [done|reflexivity].
    + eapply Qle_trans; [apply dmin_le_l|done].
Qed.

(** ** The limits of a symbol *)

Section limits.
Context {F : Floats}.

(** The profile without its tiers: what it allows every symbol. *)
Definition profile_wide (p : ExecutionProfile) : ExecutionProfile :=
  mkProfile None (op_max_symbol_exposure p) (op_max_leverage p) (op_order_notional_usdt p) (op_risk_per_trade p)
    (op_max_margin_fraction p) (op_max_open_positions p) (op_max_total_exposure p) (op_sampling_fallback_enabled p) None.

(** A profile of floats: its fractions are not negative and have at most 28 digits. *)
Definition plain (x : Dec) : Prop := (0 <= dval x)%Q /\ fits (dval x).
Record plain_profile (p : ExecutionProfile) : Prop := {
  pp_risk : plain (profile_risk p); pp_margin : plain (profile_margin p); pp_exposure : plain (profile_exposure p);
  pp_leverage : exists x, op_max_leverage p = Some x /\ plain (cap_directional_leverage x) }.

(** One envelope within another. *)
Definition within (e b : Envelope) : Prop :=
  (dval (ev_risk e) <= dval (ev_risk b))%Q /\ (dval (ev_leverage e) <= dval (ev_leverage b))%Q /\
  (dval (ev_margin e) <= dval (ev_margin b))%Q /\ (dval (ev_position e) <= dval (ev_position b))%Q.

Lemma tier_envelope_within p t x : op_max_leverage p = Some x -> within (tier_envelope p t) (profile_envelope p).
Proof.
  intros Hx. unfold within, tier_envelope, profile_envelope. rewrite Hx. cbn. split; [apply min_present_le|]. split.
  - eapply Qle_trans; [apply min_present_le|apply dmin_le_r].
  - split; [apply min_present_le|apply dmin_le_r].
Qed.

Lemma profile_margin_bound p : (dval (profile_margin p) <= 1 # 20)%Q.
Proof. eapply Qle_trans; [apply dmin_le_r|]. vm_compute. discriminate. Qed.
Lemma profile_envelope_bounds p :
  (1 <= dval (ev_leverage (profile_envelope p)))%Q /\ (dval (ev_leverage (profile_envelope p)) <= 50)%Q /\
  (dval (ev_margin (profile_envelope p)) <= 1 # 20)%Q /\
  (dval (ev_position (profile_envelope p)) <= 5 # 2)%Q.
Proof.
  cbn. destruct (cap_leverage_bounds (default PAPER_MAX_LEVERAGE (op_max_leverage p))) as [H1 H2].
  split; [done|]. split; [done|]. split; [apply profile_margin_bound|apply cap_fraction_bounds].
Qed.
Lemma tier_envelope_bounds p t : tier_bounded t ->
  (1 <= dval (ev_leverage (tier_envelope p t)))%Q /\ (dval (ev_leverage (tier_envelope p t)) <= 50)%Q /\
  (dval (ev_margin (tier_envelope p t)) <= 1 # 20)%Q /\
  (dval (ev_position (tier_envelope p t)) <= 5 # 2)%Q.
Proof.
  intros (H1 & H2 & H3 & H4). cbn. split.
  - apply min_present_glb; [apply min_present_glb; [done|]|].
    all: intros z Hz; apply fmap_Some in Hz as (y & _ & ->); apply cap_leverage_bounds.
  - split; [|split].
    + eapply Qle_trans; [apply min_present_le|]. eapply Qle_trans; [apply min_present_le|done].
    + eapply Qle_trans; [apply min_present_le|apply profile_margin_bound].
    + eapply Qle_trans; [apply dmin_le_l|done].
Qed.
Lemma base_envelope_bounds symbol p e : base_envelope symbol p = Ok e ->
  (1 <= dval (ev_leverage e))%Q /\ (dval (ev_leverage e) <= 50)%Q /\
  (dval (ev_margin e) <= 1 # 20)%Q /\ (dval (ev_position e) <= 5 # 2)%Q.
Proof.
  unfold base_envelope. destruct (op_asset_risk_tiers p) as [[|kv l]|].
  1, 3: intros [= <-]; apply profile_envelope_bounds.
  destruct (resolve_asset_risk_tier symbol (kv :: l)) as [t|] eqn:E; simpl; [|done]. intros [= <-].
  apply tier_envelope_bounds. by eapply resolved_tier_bounded.
Qed.
Lemma base_envelope_within symbol p e x :
  op_max_leverage p = Some x -> base_envelope symbol p = Ok e -> within e (profile_envelope p).
Proof.
  intros Hx. assert (within (profile_envelope p) (profile_envelope p)) as Hr by (repeat split; apply Qle_refl).
  unfold base_envelope. destruct (op_asset_risk_tiers p) as [[|kv l]|].
  1, 3: by intros [= <-].
  destruct (resolve_asset_risk_tier symbol (kv :: l)) as [t|]; simpl; [|done]. intros [= <-]. by eapply tier_envelope_within.
Qed.

(** Scaling: a limit stays under every plain bound, leverage stays at least one. *)
Lemma scaled_leverage m e b :
  (0 < dval m)%Q -> (dval m <= 1)%Q -> (1 <= dval (ev_leverage e))%Q -> fits b -> (dval (ev_leverage e) <= b)%Q ->
  (1 <= dval (ev_leverage (scaled m e)))%Q /\ (dval (ev_leverage (scaled m e)) <= b)%Q.
Proof.
  intros Hm Hm1 Hl Hf Hb. unfold scaled. destruct (dltb m (dint 1)); cbn [ev_leverage]; [|done]. split.
  - eapply Qle_trans; [|apply dmax_ge_l]. vm_compute. discriminate.
  - assert (0 <= dval (dmul (ev_leverage e) m))%Q as H0 by (apply dmul_nonneg; lra). apply dmax_lub.
    + eapply Qle_trans; [|exact Hb]. exact Hl.
    + rewrite int_of_down. eapply Qle_trans; [apply int_of_spec, H0|]. apply scaled_le; [done|lra|done..].
Qed.
Lemma scaled_limit (get : Envelope -> Dec) m e b
  (Hget : get (scaled m e) = if dltb m (dint 1) then dmul (get e) m else get e) :
  (0 < dval m)%Q -> (dval m <= 1)%Q -> fits b -> (0 <= b)%Q -> (dval (get e) <= b)%Q -> (dval (get (scaled m e)) <= b)%Q.
Proof. intros Hm Hm1 Hf Hb Hx. rewrite Hget. destruct (dltb m (dint 1)); [by apply scaled_le|done]. Qed.

Lemma resolve_inv symbol p s : resolve_v2_execution_settings symbol (Some p) = Ok s ->
  exists base volatility, base_envelope symbol p = Ok base /\ (0 < dval volatility)%Q /\ (dval volatility <= 1)%Q /\
    vs_risk_per_trade s = ev_risk (scaled volatility base) /\ vs_max_leverage s = int_of (ev_leverage (scaled volatility base)) /\
    vs_max_margin_fraction s = ev_margin (scaled volatility base) /\
    vs_max_position_fraction s = ev_position (scaled volatility base).
Proof.
  unfold resolve_v2_execution_settings. simpl. destruct (base_envelope symbol p) as [e|]; simpl; [|done].
  destruct (order_notional p) as [n|]; simpl; [|done].
  destruct (resolve_volatility_adjustment _ _) as [[m b]|] eqn:Ev; simpl; [|done]. intros [= <-]. exists e, m.
  apply volatility_bounds in Ev as [H0 H1]. done.
Qed.
Lemma resolve_wide symbol p s : resolve_v2_execution_settings symbol (Some (profile_wide p)) = Ok s ->
  vs_risk_per_trade s = ev_risk (profile_envelope p) /\ vs_max_leverage s = int_of (ev_leverage (profile_envelope p)) /\
  vs_max_margin_fraction s = ev_margin (profile_envelope p) /\ vs_max_position_fraction s = ev_position (profile_envelope p).
Proof.
  unfold resolve_v2_execution_settings. simpl. destruct (order_notional (profile_wide p)) as [n|]; simpl; [|done].
  by intros [= <-].
Qed.

(** C29. Whatever an operator saved, the limits of a symbol stay within 50x leverage, 5%
    of margin and 2.5 times the equity.  If the profile names its leverage and its
    numbers are those of floats, tiers and volatility only tighten what the profile
    allows every symbol: risk, leverage, margin and position. *)
Theorem limits_only_tighten (symbol : string) (p : ExecutionProfile) (s : V2ExecutionSettings)
  (Hs : resolve_v2_execution_settings symbol (Some p) = Ok s) :
  (1 <= vs_max_leverage s <= 50 /\ (dval (vs_max_margin_fraction s) <= 1 # 20)%Q /\
   (dval (vs_max_position_fraction s) <= 5 # 2)%Q) /\
  (plain_profile p -> forall s0, resolve_v2_execution_settings symbol (Some (profile_wide p)) = Ok s0 ->
   (dval (vs_risk_per_trade s) <= dval (vs_risk_per_trade s0))%Q /\ vs_max_leverage s <= vs_max_leverage s0 /\
   (dval (vs_max_margin_fraction s) <= dval (vs_max_margin_fraction s0))%Q /\
   (dval (vs_max_position_fraction s) <= dval (vs_max_position_fraction s0))%Q).
Proof.
  apply resolve_inv in Hs as (base & m & Hbase & Hm0 & Hm1 & -> & -> & -> & ->).
  destruct (base_envelope_bounds symbol p base Hbase) as (Hl1 & Hl50 & Hmargin & Hpos).
  assert (fits 50 /\ fits (1 # 20) /\ fits (5 # 2)) as (Hf50 & Hf20 & Hf2).
  { split; [exists 50, 0|split; [exists 5, (-2)|exists 25, (-1)]]; split; by vm_compute. }
  split; [split; [|split]|].
  - destruct (scaled_leverage m base 50 Hm0 Hm1 Hl1 Hf50 Hl50) as [H1 H2]. split.
    + rewrite <- (int_of_dint 1). apply int_of_mono; [by vm_compute|exact H1].
    + rewrite <- (int_of_dint 50). apply int_of_mono; [lra|exact H2].
  - apply (scaled_limit ev_margin); [unfold scaled; by destruct (dltb _ _)|done..].
  - apply (scaled_limit ev_position); [unfold scaled; by destruct (dltb _ _)|done..].
  - intros [[Hr0 Hrf] [Hg0 Hgf] [He0 Hef] (x & Hx & Hx0 & Hxf)] s0 (-> & -> & -> & ->)%resolve_wide.
    destruct (base_envelope_within symbol p base x Hx Hbase) as (Hwr & Hwl & Hwm & Hwp).
    split; [|split; [|split]].
    + apply (scaled_limit ev_risk); [unfold scaled; by destruct (dltb _ _)|done..].
    + assert (fits (dval (ev_leverage (profile_envelope p)))) as Hfl by (cbn; by rewrite Hx).
      destruct (scaled_leverage m base _ Hm0 Hm1 Hl1 Hfl Hwl) as [H1 H2]. apply int_of_mono; [lra|exact H2].
    + apply (scaled_limit ev_margin); [unfold scaled; by destruct (dltb _ _)|done..].
    + apply (scaled_limit ev_position); [unfold scaled; by destruct (dltb _ _)|done..].
Qed.
End limits.

(** ** The canary contract, applied twice *)

(** The cycle replaces the limits of a canary request again; a request of the
    scheduler already carries them. *)
Lemma canary_contract_agrees (q : CycleRequest) (s : V2ExecutionSettings) :
  cq_sizing q = requested_sizing (apply_testnet_canary_runtime_contract s (cq_symbol q) (cq_execution_mode q)
                  (cq_entry_authority q) (Some TESTNET_SAMPLING)) (cq_entry_authority q) ->
  canary_request q = q.
Proof.
  unfold canary_request, apply_testnet_canary_runtime_contract. intros Hs.
  rewrite (bool_decide_eq_true_2 (TESTNET_SAMPLING = TESTNET_SAMPLING)), andb_true_r in Hs by done.
  destruct (_ && _) eqn:E; [|done].
  apply andb_true_iff in E as [[_ Ha%bool_decide_eq_true]%andb_true_iff _].
  destruct q. cbn in *. unfold requested_sizing in Hs. rewrite Ha in Hs. cbn in Hs. rewrite Hs. unfold with_sizing. cbn.
  by rewrite Ha.
Qed.

(** ** Volatility by terciles *)

Lemma insert_by_value_perm x l : insert_by_value x l ≡ₚ x :: l.
Proof. induction l as [|y l IH]; simpl; [done|]. destruct (dltb _ _); [done|]. rewrite IH. apply perm_swap. Qed.
Lemma sort_by_value_perm l : sort_by_value l ≡ₚ l.
Proof.
  unfold sort_by_value. rewrite <- (app_nil_r l) at 2. generalize (@nil (string * Dec)) as acc.
  induction l as [|x l IH]; intros acc; simpl; [done|]. rewrite IH, insert_by_value_perm. symmetry. apply Permutation_middle.
Qed.
Definition not_after (x y : string * Dec) : Prop := (dval x.2 <= dval y.2)%Q.
Lemma insert_by_value_sorted x l : StronglySorted not_after l -> StronglySorted not_after (insert_by_value x l).
Proof.
  induction 1 as [|y l Hl IH Hy]; simpl; [by repeat constructor|]. destruct (dltb x.2 y.2) eqn:E.
  - apply dltb_spec in E. constructor; [by constructor|]. constructor; [unfold not_after; lra|].
    eapply Forall_impl; [exact Hy|]. intros z Hz. unfold not_after in *. simpl in *. lra.
  - apply dltb_false in E. constructor; [exact IH|]. rewrite insert_by_value_perm. by constructor.
Qed.
Lemma sort_by_value_sorted l : StronglySorted not_after (sort_by_value l).
Proof.
  unfold sort_by_value. assert (StronglySorted not_after []) as H0 by constructor. revert H0.
  generalize (@nil (string * Dec)) as acc. induction l as [|x l IH]; intros acc Ha; simpl; [done|].
  by apply IH, insert_by_value_sorted.
Qed.

Lemma three_parts {A} (l : list A) a b : (a <= b)%nat -> take a l ++ drop a (take b l) ++ drop b l = l.
Proof.
  intros Hab. rewrite app_assoc. replace (take a l) with (take a (take b l)) by (rewrite take_take; f_equal; lia).
  by rewrite take_drop, take_drop.
Qed.

(** The buckets are the symbols in order of volatility, cut in three; the outer two
    hold the same number. *)
Lemma buckets_partition atr :
  let b := classify_symbols_by_atr_pct atr in
  exists l, l ≡ₚ map (fun sv => (_normalize_symbol sv.1, sv.2)) atr /\ StronglySorted not_after l /\
    bk_low b ++ bk_mid b ++ bk_high b = map fst l /\ length (bk_low b) = length (bk_high b).
Proof.
  unfold classify_symbols_by_atr_pct. set (l := sort_by_value _).
  assert (l ≡ₚ map (fun sv => (_normalize_symbol sv.1, sv.2)) atr /\ StronglySorted not_after l) as [Hp Hsorted].
  { split; [apply sort_by_value_perm|apply sort_by_value_sorted]. }
  exists l. split; [done|]. split; [done|]. destruct (map fst l) as [|a [|b [|c m]]] eqn:E; [done..|].
  rewrite <- E. set (n := length (map fst l)). assert (3 <= n)%nat as Hn by (unfold n; rewrite E; simpl; lia).
  assert (2 * Nat.max 1 (n / 3) <= n)%nat as Hthird.
  { pose proof (Nat.Div0.mul_div_le n 3). lia. }
  split; [apply three_parts; lia|]. cbn [bk_low bk_high]. rewrite length_take, length_drop. fold n. lia.
Qed.

(** A name the tiers keep: stripping and normalizing it again changes nothing. *)
Definition stable_symbol (s : string) : Prop :=
  strip (_normalize_symbol s) = _normalize_symbol s /\ _normalize_symbol (_normalize_symbol s) = _normalize_symbol s.

Lemma names_stable n l : (forall x, x ∈ l -> exists s, x = _normalize_symbol s /\ stable_symbol s) ->
  names_symbol n (map strip (map strip l)) = bool_decide (n ∈ l).
Proof.
  induction l as [|x l IH]; intros Hl; [by rewrite bool_decide_eq_false_2 by apply not_elem_of_nil|].
  destruct (Hl x ltac:(left)) as (s & -> & Hs & Hn). specialize (IH ltac:(intros y Hy; apply Hl; by right)).
  unfold names_symbol in *. simpl. rewrite IH, !Hs, Hn. apply Bool.eq_iff_eq_true.
  rewrite orb_true_iff, String.eqb_eq, !bool_decide_eq_true, elem_of_cons. naive_solver.
Qed.

(** A built tier, as the profile keeps it. *)
Definition kept_tier (name : string) (symbols : list string) (m : Dec) (b : bool) : string * RawTier VolTierPayload :=
  (name, RAW_MAPPING (mkVolPayload (Some (strip name)) (map strip symbols) (Some m) b false)).
Lemma built_tier_ok name symbols m b :
  in_bounds dzero true (dint 1) m = true -> built_tier name symbols m b = Ok (kept_tier name symbols m b).
Proof. intros Hm. unfold built_tier, validate_vol_tier. simpl. by rewrite Hm. Qed.

(** One step of the search through built tiers. *)
Lemma volatility_step n name symbols m b tiers :
  hidden name = false -> in_bounds dzero true (dint 1) m = true ->
  (forall x, x ∈ symbols -> exists s, x = _normalize_symbol s /\ stable_symbol s) ->
  volatility_of n (kept_tier name symbols m b :: tiers) =
    if bool_decide (n ∈ symbols) then Ok (dmin m (dint 1), b) else volatility_of n tiers.
Proof. intros Hh Hm Hs. simpl. rewrite Hh. unfold validate_vol_tier. simpl. rewrite Hm. simpl. by rewrite names_stable. Qed.

Section shock.
Context (atr : list (string * Dec)) (required : list string).
Context (Hstable : forall s, s ∈ map fst atr \/ s ∈ required -> stable_symbol s).

Definition scored (s : string) : Prop := _normalize_symbol s ∈ map (fun sv => _normalize_symbol sv.1) atr.
Definition kept_tiers : Tiers VolTierPayload :=
  let b := classify_symbols_by_atr_pct atr in
  [kept_tier "low" (bk_low b) VOLATILITY_LOW false; kept_tier "mid" (bk_mid b) VOLATILITY_MID false;
   kept_tier "high" (bk_high b) VOLATILITY_HIGH false;
   kept_tier "shock" (missing_symbols atr required) VOLATILITY_SHOCK true].

Lemma build_kept : build_volatility_risk_tiers atr required = Ok kept_tiers.
Proof. unfold build_volatility_risk_tiers. by rewrite !built_tier_ok by (vm_compute; reflexivity). Qed.

Lemma in_buckets x : let b := classify_symbols_by_atr_pct atr in
  x ∈ bk_low b \/ x ∈ bk_mid b \/ x ∈ bk_high b <-> x ∈ map (fun sv => _normalize_symbol sv.1) atr.
Proof.
  destruct (buckets_partition atr) as (l & Hperm & _ & Hparts & _). cbv zeta.
  rewrite <- !elem_of_app, Hparts, Hperm, map_map. done.
Qed.

Lemma resolve_built_tiers s : resolve_volatility_adjustment s kept_tiers =
  let b := classify_symbols_by_atr_pct atr in
  if bool_decide (_normalize_symbol s ∈ bk_low b) then Ok (VOLATILITY_LOW, false)
  else if bool_decide (_normalize_symbol s ∈ bk_mid b) then Ok (VOLATILITY_MID, false)
  else if bool_decide (_normalize_symbol s ∈ bk_high b) then Ok (VOLATILITY_HIGH, false)
  else if bool_decide (_normalize_symbol s ∈ missing_symbols atr required) then Ok (VOLATILITY_SHOCK, true)
  else Ok (dint 1, false).
Proof.
  assert (forall x, x ∈ map (fun sv => _normalize_symbol sv.1) atr -> exists s, x = _normalize_symbol s /\ stable_symbol s) as Hs.
  { intros x (sv & -> & Hsv)%list_elem_of_fmap. exists sv.1. split; [done|]. apply Hstable. left. by apply list_elem_of_fmap_2. }
  unfold resolve_volatility_adjustment, kept_tiers. cbv zeta.
  assert (forall x, x ∈ missing_symbols atr required -> exists s, x = _normalize_symbol s /\ stable_symbol s) as Hm.
  { intros x [(r & -> & Hr)%list_elem_of_fmap _]%elem_of_bfilter. exists r. split; [done|]. apply Hstable. by right. }
  do 3 (rewrite volatility_step; [|reflexivity|reflexivity|intros x Hx; apply Hs, in_buckets; tauto]).
  rewrite volatility_step; [|reflexivity|reflexivity|exact Hm]. reflexivity.
Qed.
End shock.

Section kill.
Context {F : Floats}.

Lemma settings_keep_volatility symbol p st m b tiers :
  op_volatility_risk_tiers p = Some tiers -> resolve_volatility_adjustment symbol tiers = Ok (m, b) ->
  resolve_v2_execution_settings symbol (Some p) = Ok st -> requested_kill_switch st = b.
Proof.
  unfold resolve_v2_execution_settings. simpl. intros -> Hv. destruct (base_envelope symbol p); simpl; [|done].
  destruct (order_notional p); simpl; [|done]. rewrite Hv. simpl. intros [= <-]. unfold requested_kill_switch. simpl. by destruct b.
Qed.

(** The tiers built from scores of volatility are always valid.  A symbol with a
    score is scaled as its tercile and may be entered; a required symbol without one
    keeps a quarter of its limits, and the settings of any profile with these tiers
    raise the kill switch of its entries. *)
Theorem unknown_volatility_blocks_entry (atr : list (string * Dec)) (required : list string)
  (Hstable : forall s, s ∈ map fst atr \/ s ∈ required -> stable_symbol s) :
  exists tiers, build_volatility_risk_tiers atr required = Ok tiers /\
    forall s, (scored atr s -> exists m, resolve_volatility_adjustment s tiers = Ok (m, false) /\
        m ∈ [VOLATILITY_LOW; VOLATILITY_MID; VOLATILITY_HIGH]) /\
      (s ∈ required -> ~ scored atr s -> resolve_volatility_adjustment s tiers = Ok (VOLATILITY_SHOCK, true) /\
        forall p st, op_volatility_risk_tiers p = Some tiers -> resolve_v2_execution_settings s (Some p) = Ok st ->
          requested_kill_switch st = true).
Proof.
  exists (kept_tiers atr required). split; [apply build_kept|]. intros s. pose proof (in_buckets atr (_normalize_symbol s)) as Hin.
  cbv zeta in Hin. split.
  - intros Hs%Hin. rewrite (resolve_built_tiers atr required Hstable s). cbv zeta.
    case_bool_decide; [eexists; split; [reflexivity|left]|]. case_bool_decide; [eexists; split; [reflexivity|right; left]|].
    case_bool_decide; [eexists; split; [reflexivity|right; right; left]|]. tauto.
  - intros Hr Hs. assert (resolve_volatility_adjustment s (kept_tiers atr required) = Ok (VOLATILITY_SHOCK, true)) as Hshock.
    { rewrite (resolve_built_tiers atr required Hstable s). cbv zeta. unfold scored in Hs.
      do 3 (rewrite bool_decide_eq_false_2 by tauto). rewrite bool_decide_eq_true_2; [done|].
      apply elem_of_bfilter. split; [by apply list_elem_of_fmap_2|]. by rewrite bool_decide_eq_false_2. }
    split; [exact Hshock|]. intros p st Hp. by eapply settings_keep_volatility.
Qed.
End kill.

(** ** Particular profiles *)

#[local] Instance exact_floats : Floats := {| float_mul := dmul |}.
Local Open Scope string_scope.

(** A tier of the symbol and a volatile market under a profile that names its leverage. *)
Definition btc_tier : AssetTierPayload :=
  mkAssetPayload (Some "symbol_btc") ["BTC/USDT"] None None (Some (mkDec 5 (-3))) (Some (mkDec 200 (-1)))
    (Some (mkDec 20 (-3))) false.
Definition volatile_tier : VolTierPayload := mkVolPayload (Some "high") ["BTC/USDT"] (Some (mkDec 5 (-1))) false false.
Definition operator_profile : ExecutionProfile :=
  mkProfile (Some [("symbol_btc", RAW_MAPPING btc_tier)]) (Some (mkDec 15 (-1))) (Some (mkDec 300 (-1))) None
    (Some (mkDec 1 (-2))) (Some (mkDec 5 (-2))) (Some 5) None false (Some [("high", RAW_MAPPING volatile_tier)]).

Lemma operator_profile_plain : plain_profile operator_profile.
Proof.
  split; [..|eexists; split; [reflexivity|]].
  all: split; [vm_compute; discriminate|apply fits_small; vm_compute; discriminate].
Qed.
Lemma limits_only_tighten_witness :
  exists s s0, resolve_v2_execution_settings "BTCUSDT" (Some operator_profile) = Ok s /\
    resolve_v2_execution_settings "BTCUSDT" (Some (profile_wide operator_profile)) = Ok s0 /\
    vs_max_leverage s = 10 /\ vs_max_leverage s0 = 30 /\ vs_max_leverage s <= vs_max_leverage s0 /\
    (dval (vs_risk_per_trade s) <= dval (vs_risk_per_trade s0))%Q.
Proof.
  eexists _, _. split; [vm_compute; reflexivity|]. split; [vm_compute; reflexivity|].
  split; [reflexivity|]. split; [reflexivity|].
  refine (let H := proj2 (limits_only_tighten "BTCUSDT" operator_profile _ _) operator_profile_plain _ _ in
          conj (proj1 (proj2 H)) (proj1 H)); vm_compute; reflexivity.
Defined.

Lemma unknown_volatility_blocks_entry_witness :
  exists tiers, build_volatility_risk_tiers [("BTC/USDT", mkDec 2 (-2))] ["BTC/USDT"; "ETHUSDT"] = Ok tiers /\
    resolve_volatility_adjustment "ETHUSDT" tiers = Ok (VOLATILITY_SHOCK, true).
Proof.
  destruct (unknown_volatility_blocks_entry [("BTC/USDT", mkDec 2 (-2))] ["BTC/USDT"; "ETHUSDT"]) as (tiers & Hb & Ht).
  - intros s [Hs|Hs].
    + apply list_elem_of_singleton in Hs as ->. vm_compute. split; reflexivity.
    + apply elem_of_cons in Hs as [->|Hs]; [vm_compute; split; reflexivity|]. apply list_elem_of_singleton in Hs as ->.
      vm_compute. split; reflexivity.
  - exists tiers. split; [exact Hb|]. refine (proj1 (proj2 (Ht "ETHUSDT") _ _)); [right; left|].
    intros E. vm_compute in E. apply list_elem_of_singleton in E. discriminate E.
Defined.

(** A tier raises the leverage of a profile that does not name its own: the default
    is 30, the tier may say 50. *)
Definition unstated_leverage : ExecutionProfile :=
  mkProfile (Some default_asset_risk_tiers) None None None None None None None false None.
Theorem tier_raises_unstated_leverage :
  exists s s0, resolve_v2_execution_settings "BTC/USDT" (Some unstated_leverage) = Ok s /\
    resolve_v2_execution_settings "BTC/USDT" (Some (profile_wide unstated_leverage)) = Ok s0 /\
    vs_max_leverage s = 50 /\ vs_max_leverage s0 = 30.
Proof. do 2 eexists. split; [vm_compute; reflexivity|]. split; [vm_compute; reflexivity|]. split; reflexivity. Qed.

(** A profile saved without a fixed notional keeps the key with a null, and no
    symbol has settings. *)
Theorem blank_notional_has_no_settings {F : Floats} (symbol : string) (p : ExecutionProfile) :
  op_order_notional_usdt p = Some None -> forall s, resolve_v2_execution_settings symbol (Some p) <> Ok s.
Proof.
  intros Hp s. unfold resolve_v2_execution_settings. simpl. unfold order_notional. rewrite Hp.
  by destruct (base_envelope symbol p).
Qed.
