(* ===== verification/SchedulerCoordination.v ===== *)
(** * SchedulerCoordination: leadership leases and slot claims

    [services/execution/scheduler_coordination.py] over the tables
    [scheduler_leases] and [scheduler_cycles] of [services/strategy_library/models.py].
    A method of the coordinator is a session that reads a row and then writes under
    a condition; a read and a write are separate steps here, and a method is their
    composition when nothing happens in between.  Whether a local process lives, the
    clock and fresh ids are arguments. *)
From S2P Require Import Prelude PyValue State Receipts Sha256.
Local Open Scope Z_scope.

(** ** Tables *)

Record SchedulerLease := mkLease {
  sl_lease_name : string; sl_owner_id : string; sl_hostname : string; sl_process_id : Z; sl_acquired_at : datetime;
  sl_heartbeat_at : datetime; sl_expires_at : datetime; sl_fencing_token : Z }.

#[export] Instance SchedulerLease_eq_dec : EqDecision SchedulerLease.
Proof. solve_decision. Defined.

Record SchedulerCycle := mkSchedulerCycle {
  sc_scheduler_cycle_id : string; sc_job_name : string; sc_scheduled_for : datetime; sc_scheduler_instance_id : string;
  sc_cycle_source : string; sc_run_mode : string; sc_deployment_sha : option string; sc_hostname : string;
  sc_process_id : Z; sc_status : string; sc_started_at : datetime; sc_completed_at : option datetime;
  sc_failure_reason : option string; sc_fencing_token : option Z }.

(** Both tables; leases by their primary key. *)
Record Coordination := mkCoordination { leases : gmap string SchedulerLease; scheduler_cycles : list SchedulerCycle }.
Definition with_leases (l : gmap string SchedulerLease) (d : Coordination) : Coordination :=
  mkCoordination l (scheduler_cycles d).
Definition with_cycles (l : list SchedulerCycle) (d : Coordination) : Coordination := mkCoordination (leases d) l.

(** One scheduler process: who it is, and which local processes live. *)
Record Coordinator := mkCoordinator {
  co_instance_id : string; co_hostname : string; co_process_id : Z; co_deployment_sha : option string;
  co_probe : Z -> bool }.
(** What the coordinator remembers is its token of each lease: [gmap string Z]. *)

Section coordinator.
Context (self : Coordinator).

Definition _local_pid_is_alive (pid : Z) : bool := (0 <? pid) && co_probe self pid.

(** ** Leases *)

(** [int(lease.fencing_token or 1)] *)
Definition stored_token (l : SchedulerLease) : Z := if sl_fencing_token l =? 0 then 1 else sl_fencing_token l.
Definition own (l : SchedulerLease) : bool := String.eqb (sl_owner_id l) (co_instance_id self).

Definition dead_local_owner (l : SchedulerLease) : bool :=
  negb (own l) && String.eqb (sl_hostname l) (co_hostname self) && negb (sl_process_id l =? co_process_id self)
  && negb (_local_pid_is_alive (sl_process_id l)).

Definition taken_over (l : SchedulerLease) (observed_at : datetime) : bool :=
  negb (own l) || (sl_expires_at l <=? observed_at) || dead_local_owner l.

Definition held_lease (lease_name : string) (observed_at ttl token : Z) : SchedulerLease :=
  mkLease lease_name (co_instance_id self) (co_hostname self) (co_process_id self) observed_at observed_at
    (observed_at + ttl) token.

(** The first update: the lease of a dead local owner, if it still is that owner's, ends now. *)
Definition expire_dead (read current : SchedulerLease) (observed_at : datetime) : SchedulerLease :=
  if dead_local_owner read && String.eqb (sl_owner_id current) (sl_owner_id read)
     && (sl_process_id current =? sl_process_id read) && String.eqb (sl_hostname current) (co_hostname self)
  then mkLease (sl_lease_name current) (sl_owner_id current) (sl_hostname current) (sl_process_id current)
         (sl_acquired_at current) (sl_heartbeat_at current) observed_at (sl_fencing_token current)
  else current.

(** The refusal before any write: another token of the own lease. *)
Definition token_mismatch (l : SchedulerLease) (fencing_token : option Z) : bool :=
  own l && match fencing_token with Some t => negb (sl_fencing_token l =? t) | None => false end.

(** What follows the read of the lease, on the table as it is then. *)
Definition acquire_write (lease_name : string) (observed_at ttl : Z) (fencing_token : option Z)
    (read : option SchedulerLease) (d : Coordination) : bool * option Z * Coordination :=
  match read with
  | None =>
      match leases d !! lease_name with
      | Some _ => (false, None, d)
      | None => (true, Some 1, with_leases (<[lease_name := held_lease lease_name observed_at ttl 1]> (leases d)) d)
      end
  | Some l =>
      if token_mismatch l fencing_token then (false, None, d)
      else
      let next_token := stored_token l + (if taken_over l observed_at then 1 else 0) in
      match leases d !! lease_name with
      | None => (false, None, d)
      | Some current =>
          let current := expire_dead l current observed_at in
          if own current || (sl_expires_at current <=? observed_at) then
            (true, Some next_token,
             with_leases (<[lease_name := held_lease lease_name observed_at ttl next_token]> (leases d)) d)
          else (false, None, with_leases (<[lease_name := current]> (leases d)) d)
      end
  end.

Definition acquire_or_renew_lease (lease_name : string) (observed_at ttl : Z) (fencing_token : option Z)
    (d : Coordination) (tokens : gmap string Z) : bool * Coordination * gmap string Z :=
  let '(acquired, token, d) := acquire_write lease_name observed_at ttl fencing_token (leases d !! lease_name) d in
  (acquired, d, match token with Some t => <[lease_name := t]> tokens | None => tokens end).

Definition fencing_token (lease_name : string) (d : Coordination) (tokens : gmap string Z) : option Z * gmap string Z :=
  match leases d !! lease_name with
  | Some l => (Some (sl_fencing_token l), <[lease_name := sl_fencing_token l]> tokens)
  | None => (None, tokens)
  end.

(** [fencing_token or self._fencing_tokens.get(lease_name)]: a zero is no token. *)
Definition token_or (fencing_token : option Z) (tokens : gmap string Z) (lease_name : string) : option Z :=
  match fencing_token with Some 0 | None => tokens !! lease_name | Some t => Some t end.

Definition release_lease (lease_name : string) (fencing_token : option Z) (now : datetime) (d : Coordination)
    (tokens : gmap string Z) : Coordination :=
  match token_or fencing_token tokens lease_name, leases d !! lease_name with
  | Some token, Some l =>
      if own l && (sl_fencing_token l =? token) then
        with_leases (<[lease_name := mkLease (sl_lease_name l) (sl_owner_id l) (sl_hostname l) (sl_process_id l)
                                       (sl_acquired_at l) (sl_heartbeat_at l) now (sl_fencing_token l)]> (leases d)) d
      else d
  | _, _ => d
  end.

Definition validate_fence (lease_name owner_id : string) (fencing_token : Z) (now : datetime) (d : Coordination) : bool :=
  match leases d !! lease_name with
  | Some l => String.eqb (sl_owner_id l) owner_id && (sl_fencing_token l =? fencing_token) && (now <? sl_expires_at l)
  | None => false
  end.

(** ** Claims of slots *)

Record CycleClaim := mkClaim { cc_claimed : bool; cc_scheduler_cycle_id : option string }.
Definition not_claimed : CycleClaim := mkClaim false None.

Definition same_slot (job_name : string) (scheduled_for : datetime) (c : SchedulerCycle) : bool :=
  String.eqb (sc_job_name c) job_name && (sc_scheduled_for c =? scheduled_for).

Definition claimed_row (cycle_id job_name : string) (scheduled_for : datetime) (cycle_source run_mode : string)
    (token : option Z) (failure_reason : option string) (started_at : datetime) : SchedulerCycle :=
  mkSchedulerCycle cycle_id job_name scheduled_for (co_instance_id self) cycle_source run_mode (co_deployment_sha self)
    (co_hostname self) (co_process_id self) "claimed" started_at None failure_reason token.

Definition dead_local_claim (c : SchedulerCycle) : bool :=
  String.eqb (sc_status c) "claimed" && String.eqb (sc_hostname c) (co_hostname self)
  && negb (String.eqb (sc_scheduler_instance_id c) (co_instance_id self))
  && negb (sc_process_id c =? co_process_id self) && negb (_local_pid_is_alive (sc_process_id c)).

Definition put_cycle (r : SchedulerCycle) (d : Coordination) : Coordination :=
  with_cycles (map (fun c => if String.eqb (sc_scheduler_cycle_id c) (sc_scheduler_cycle_id r) then r else c)
                 (scheduler_cycles d)) d.

(** The insertion, and what follows the unique constraint it violates.  [new_id] is
    the id of the row; [started_at] the clock. *)
Definition claim_cycle (job_name : string) (scheduled_for : datetime) (cycle_source run_mode : string)
    (fencing_token : option Z) (new_id : string) (started_at : datetime) (d : Coordination) (tokens : gmap string Z) :
    CycleClaim * Coordination :=
  let token := token_or fencing_token tokens "paper_runtime_cycle" in
  match bfilter (same_slot job_name scheduled_for) (scheduler_cycles d) with
  | [] => (mkClaim true (Some new_id),
           with_cycles (scheduler_cycles d ++
             [claimed_row new_id job_name scheduled_for cycle_source run_mode token None started_at]) d)
  | existing :: _ =>
      if dead_local_claim existing then
        (mkClaim true (Some (sc_scheduler_cycle_id existing)),
         put_cycle (claimed_row (sc_scheduler_cycle_id existing) (sc_job_name existing) (sc_scheduled_for existing)
           cycle_source run_mode token (Some "reclaimed_from_dead_local_owner"%string) started_at) d)
      else (not_claimed, d)
  end.
End coordinator.

Definition finished (status : string) (failure_reason : option string) (now : datetime) (c : SchedulerCycle) : SchedulerCycle :=
  mkSchedulerCycle (sc_scheduler_cycle_id c) (sc_job_name c) (sc_scheduled_for c) (sc_scheduler_instance_id c)
    (sc_cycle_source c) (sc_run_mode c) (sc_deployment_sha c) (sc_hostname c) (sc_process_id c) status (sc_started_at c)
    (Some now) failure_reason (sc_fencing_token c).

Definition finish_cycle (cycle_id status : string) (failure_reason : option string) (now : datetime) (d : Coordination) :
    Coordination :=
  with_cycles (map (fun c => if String.eqb (sc_scheduler_cycle_id c) cycle_id then finished status failure_reason now c else c)
                 (scheduler_cycles d)) d.

Definition supervisor_lease_name (database_url execution_mode : string) : string :=
  ("automated_trading_supervisor:" +:+ hexdigest (strip database_url +:+ "|" +:+ strip execution_mode))%string.

(** ** Histories *)

(** A method between its read and its write. *)
Record Pending := mkPending {
  pd_self : Coordinator; pd_lease : string; pd_observed_at : datetime; pd_ttl : Z; pd_token : option Z;
  pd_read : option SchedulerLease }.

(** Who was given which token of which lease. *)
Record Grant := mkGrant { gt_lease : string; gt_owner : string; gt_token : Z }.

Record Run := mkRun { rn_db : Coordination; rn_now : datetime; rn_pending : list Pending; rn_grants : list Grant }.

Definition busy (self : Coordinator) (r : Run) : Prop :=
  exists p, p ∈ rn_pending r /\ co_instance_id (pd_self p) = co_instance_id self.

(** What a write may rely on: it comes before the lease it would write has ended, and
    an owner found dead has not written since. *)
Record sound_write (p : Pending) (r : Run) : Prop := {
  sw_prompt : rn_now r < pd_observed_at p + pd_ttl p;
  sw_dead : forall l c, pd_read p = Some l -> dead_local_owner (pd_self p) l = true -> leases (rn_db r) !! pd_lease p = Some c ->
    sl_owner_id c = sl_owner_id l -> c = l }.

(** One instance runs one method at a time; every reading of the clock is later than
    the last. *)
Inductive run_step : Run -> Run -> Prop :=
  | step_read self lease_name ttl token t r :
      rn_now r < t -> ~ busy self r ->
      run_step r (mkRun (rn_db r) t (mkPending self lease_name t ttl token (leases (rn_db r) !! lease_name) :: rn_pending r)
                    (rn_grants r))
  | step_write l1 p l2 acquired token d r :
      rn_pending r = l1 ++ p :: l2 -> sound_write p r ->
      acquire_write (pd_self p) (pd_lease p) (pd_observed_at p) (pd_ttl p) (pd_token p) (pd_read p) (rn_db r) = (acquired, token, d) ->
      run_step r (mkRun d (rn_now r) (l1 ++ l2)
                    (match token with Some k => mkGrant (pd_lease p) (co_instance_id (pd_self p)) k :: rn_grants r
                                    | None => rn_grants r end))
  | step_release self lease_name token tokens t r :
      rn_now r < t -> ~ busy self r ->
      run_step r (mkRun (release_lease self lease_name token t (rn_db r) tokens) t (rn_pending r) (rn_grants r)).

(** A lease as a pending method may find it: unchanged, or taken by another since. *)
Definition found (p : Pending) (read current : SchedulerLease) : Prop :=
  current = read \/
  (sl_fencing_token read <= sl_fencing_token current /\ pd_observed_at p < sl_expires_at current /\
   sl_owner_id current <> co_instance_id (pd_self p)).

Record good_run (r : Run) : Prop := {
  gr_tokens : forall n l, leases (rn_db r) !! n = Some l -> 1 <= sl_fencing_token l;
  gr_single : NoDup (map (fun p => co_instance_id (pd_self p)) (rn_pending r));
  gr_past : forall p, p ∈ rn_pending r -> pd_observed_at p <= rn_now r;
  gr_found : forall p l, p ∈ rn_pending r -> pd_read p = Some l ->
    exists c, leases (rn_db r) !! pd_lease p = Some c /\ found p l c;
  gr_current : forall g, g ∈ rn_grants r -> exists c, leases (rn_db r) !! gt_lease g = Some c /\
    gt_token g <= sl_fencing_token c /\ (gt_token g = sl_fencing_token c -> sl_owner_id c = gt_owner g);
  gr_owned : forall g1 g2, g1 ∈ rn_grants r -> g2 ∈ rn_grants r -> gt_lease g1 = gt_lease g2 -> gt_token g1 = gt_token g2 ->
    gt_owner g1 = gt_owner g2 }.

(** What a write does when it may rely on [sound_write]. *)
Inductive write_effect (p : Pending) (d : Coordination) : option Z -> Coordination -> Prop :=
  | effect_none : write_effect p d None d
  | effect_first : leases d !! pd_lease p = None ->
      write_effect p d (Some 1) (with_leases (<[pd_lease p := held_lease (pd_self p) (pd_lease p) (pd_observed_at p) (pd_ttl p) 1]> (leases d)) d)
  | effect_held c k : leases d !! pd_lease p = Some c -> pd_read p = Some c ->
      (k = sl_fencing_token c /\ own (pd_self p) c = true) \/ k = sl_fencing_token c + 1 ->
      write_effect p d (Some k) (with_leases (<[pd_lease p := held_lease (pd_self p) (pd_lease p) (pd_observed_at p) (pd_ttl p) k]> (leases d)) d).

Lemma same_lease (d : Coordination) n c : leases d !! n = Some c -> with_leases (<[n := c]> (leases d)) d = d.
Proof. intros Hc. unfold with_leases. rewrite insert_id by done. by destruct d. Qed.

Lemma write_has_effect p r acquired token d :
  good_run r -> p ∈ rn_pending r -> sound_write p r ->
  acquire_write (pd_self p) (pd_lease p) (pd_observed_at p) (pd_ttl p) (pd_token p) (pd_read p) (rn_db r) = (acquired, token, d) ->
  write_effect p (rn_db r) token d.
Proof.
  intros Hg Hp [_ Hdead]. unfold acquire_write. destruct (pd_read p) as [l|] eqn:El.
  - destruct (gr_found r Hg p l Hp El) as (c & Hc & Hf). rewrite Hc.
    destruct (token_mismatch (pd_self p) l (pd_token p)); [intros [= <- <- <-]; constructor|].
    destruct (decide (c = l)) as [->|Hcl]; [|destruct Hf as [->|(Htok & Hexp & Hown)]; [done|]].
    + assert (stored_token l = sl_fencing_token l) as ->.
      { pose proof (gr_tokens r Hg _ _ Hc). unfold stored_token. destruct (Z.eqb_spec (sl_fencing_token l) 0); [lia|done]. }
      destruct (own (pd_self p) (expire_dead (pd_self p) l l (pd_observed_at p)) || _) eqn:E; intros [= <- <- <-].
      * apply effect_held with l; [done..|]. destruct (taken_over (pd_self p) l (pd_observed_at p)) eqn:Et; [by right|left].
        split; [lia|]. unfold taken_over in Et. by destruct (own (pd_self p) l).
      * assert (expire_dead (pd_self p) l l (pd_observed_at p) = l) as ->; [|by rewrite same_lease; [constructor|]].
        unfold expire_dead in *. destruct (_ && _); [|done]. simpl in E. rewrite Z.leb_refl, orb_true_r in E. done.
    + assert (expire_dead (pd_self p) l c (pd_observed_at p) = c) as ->.
      { unfold expire_dead. destruct (dead_local_owner (pd_self p) l && String.eqb (sl_owner_id c) (sl_owner_id l)) eqn:E; [|done].
        apply andb_true_iff in E as [E1 E2%String.eqb_eq]. by destruct Hcl, (Hdead l c eq_refl E1 Hc E2). }
      assert (own (pd_self p) c = false) as -> by (by apply String.eqb_neq). simpl.
      destruct (Z.leb_spec (sl_expires_at c) (pd_observed_at p)); [lia|]. intros [= <- <- <-]. rewrite same_lease by done. constructor.
  - destruct (leases (rn_db r) !! pd_lease p) eqn:E; intros [= <- <- <-]; constructor. done.
Qed.

(** Another pending method still finds a lease as [found] says after a write. *)
Lemma found_after_write p q r token d l :
  good_run r -> p ∈ rn_pending r -> q ∈ rn_pending r -> co_instance_id (pd_self q) <> co_instance_id (pd_self p) ->
  rn_now r < pd_observed_at p + pd_ttl p -> write_effect p (rn_db r) token d -> pd_read q = Some l ->
  exists c, leases d !! pd_lease q = Some c /\ found q l c.
Proof.
  intros Hg Hp Hq Hne Hprompt Hw Hl. destruct (gr_found r Hg q l Hq Hl) as (c & Hc & Hf).
  pose proof (gr_past r Hg q Hq) as Hpast.
  assert (forall k, pd_lease p = pd_lease q -> sl_fencing_token c <= k ->
    found q l (held_lease (pd_self p) (pd_lease p) (pd_observed_at p) (pd_ttl p) k)) as Hnew.
  { intros k _ Hk. right. simpl. split; [destruct Hf as [->|(? & _)]; lia|]. split; [lia|congruence]. }
  destruct Hw as [|Hnone|c' k Hc' Hread Hk]; [by exists c| |]; simpl.
  - destruct (decide (pd_lease p = pd_lease q)) as [E|E]; [congruence|]. rewrite lookup_insert_ne by done. by exists c.
  - destruct (decide (pd_lease p = pd_lease q)) as [E|E].
    + rewrite E, lookup_insert_eq. eexists. split; [reflexivity|]. rewrite <- E. apply Hnew; [done|].
      rewrite E, Hc in Hc'. injection Hc' as <-. lia.
    + rewrite lookup_insert_ne by done. by exists c.
Qed.

Lemma other_instance (l1 l2 : list Pending) p q :
  NoDup (map (fun p => co_instance_id (pd_self p)) (l1 ++ p :: l2)) -> q ∈ l1 ++ l2 ->
  co_instance_id (pd_self q) <> co_instance_id (pd_self p).
Proof.
  rewrite map_app. simpl. intros Hn Hq E. rewrite <- Permutation_middle in Hn. apply NoDup_cons in Hn as [Hn _].
  apply Hn. rewrite <- E, <- map_app. by apply (list_elem_of_fmap_2 (fun p => co_instance_id (pd_self p))).
Qed.

Lemma grants_after_write p r token d g :
  good_run r -> write_effect p (rn_db r) token d -> g ∈ rn_grants r ->
  exists c, leases d !! gt_lease g = Some c /\ gt_token g <= sl_fencing_token c /\
    (gt_token g = sl_fencing_token c -> sl_owner_id c = gt_owner g).
Proof.
  intros Hg Hw Hin. destruct (gr_current r Hg g Hin) as (c & Hc & Hle & Howner).
  destruct Hw as [|Hnone|c' k Hc' Hread Hk]; [by exists c| |]; simpl.
  - destruct (decide (pd_lease p = gt_lease g)) as [E|E]; [congruence|]. rewrite lookup_insert_ne by done. by exists c.
  - destruct (decide (pd_lease p = gt_lease g)) as [E|E]; [|rewrite lookup_insert_ne by done; by exists c].
    rewrite E, lookup_insert_eq. rewrite E, Hc in Hc'. injection Hc' as <-. eexists. split; [reflexivity|]. simpl.
    destruct Hk as [[-> Hown%String.eqb_eq]| -> ]; [|split; [|intros ?]; lia]. split; [done|]. intros Ek. rewrite <- Hown. auto.
Qed.

Lemma grant_is_new p r k d g :
  good_run r -> write_effect p (rn_db r) (Some k) d -> g ∈ rn_grants r -> gt_lease g = pd_lease p -> gt_token g = k ->
  gt_owner g = co_instance_id (pd_self p).
Proof.
  intros Hg Hw Hin El Ek. destruct (gr_current r Hg g Hin) as (c & Hc & Hle & Howner). rewrite El in Hc.
  inversion Hw as [|Hnone|c' k' Hc' Hread Hk]; subst; [congruence|]. rewrite Hc in Hc'. injection Hc' as <-.
  destruct Hk as [[Ek Hown%String.eqb_eq]|Ek]; [|lia]. rewrite <- Hown. symmetry. auto.
Qed.

(** A release moves the end of the own lease to now, and nothing else. *)
Lemma release_effect self n token tokens t d m c : leases d !! m = Some c ->
  exists c', leases (release_lease self n token t d tokens) !! m = Some c' /\ sl_fencing_token c' = sl_fencing_token c /\
    sl_owner_id c' = sl_owner_id c /\ (c' = c \/ (sl_owner_id c = co_instance_id self /\ sl_expires_at c' = t)).
Proof.
  intros Hc. unfold release_lease. destruct (token_or token tokens n) as [k|]; [|by eauto 10].
  destruct (leases d !! n) as [l|] eqn:El; [|by eauto 10]. destruct (own self l && _) eqn:E; [|by eauto 10]. simpl.
  destruct (decide (n = m)) as [->|Hn]; [|rewrite lookup_insert_ne by done; by eauto 10].
  rewrite lookup_insert_eq. rewrite Hc in El. injection El as <-. apply andb_true_iff in E as [Eo%String.eqb_eq _].
  eexists. split; [reflexivity|]. simpl. auto.
Qed.
Lemma release_back self n token tokens t d m c : leases (release_lease self n token t d tokens) !! m = Some c ->
  exists c0, leases d !! m = Some c0 /\ sl_fencing_token c = sl_fencing_token c0.
Proof.
  unfold release_lease. destruct (token_or token tokens n) as [k|]; [|by eauto].
  destruct (leases d !! n) as [l|] eqn:El; [|by eauto]. destruct (own self l && _) eqn:E; [|by eauto]. simpl.
  destruct (decide (n = m)) as [->|Hn]; [rewrite lookup_insert_eq; intros [= <-]; by eauto|].
  rewrite lookup_insert_ne by done. by eauto.
Qed.

Lemma good_run_step r r' : run_step r r' -> good_run r -> good_run r'.
Proof.
  intros Hs Hg. destruct Hs as [self n ttl token t r Ht Hbusy|l1 p l2 acquired token d r Hp Hsw Ha|self n token tokens t r Ht Hbusy].
  - destruct Hg as [H1 H2 H3 H4 H5 H6]. split; cbn [rn_db rn_now rn_pending rn_grants]; auto.
    + simpl. apply NoDup_cons. split; [|done]. intros (p & Ep & Hp)%list_elem_of_fmap. apply Hbusy. by exists p.
    + intros p [->|Hp]%elem_of_cons; simpl; [lia|]. specialize (H3 p Hp). lia.
    + intros p l [->|Hp]%elem_of_cons; simpl; [|by apply H4]. intros E. exists l. split; [done|by left].
  - assert (p ∈ rn_pending r) as Hin by (rewrite Hp; apply elem_of_app; right; left).
    pose proof (write_has_effect p r acquired token d Hg Hin Hsw Ha) as Hw. pose proof Hg as [H1 H2 H3 H4 H5 H6].
    assert (forall q, q ∈ l1 ++ l2 -> q ∈ rn_pending r) as Hsub by (intros q; rewrite Hp, !elem_of_app, elem_of_cons; tauto).
    assert (forall q, q ∈ l1 ++ l2 -> co_instance_id (pd_self q) <> co_instance_id (pd_self p)) as Hother.
    { intros q Hq. apply (other_instance l1 l2); [by rewrite <- Hp|done]. }
    split; cbn [rn_db rn_now rn_pending rn_grants].
    + intros m c. inversion Hw as [|Hnone|c' k Hc' Hread Hk]; subst; [by apply H1| |]; simpl.
      all: destruct (decide (pd_lease p = m)) as [<-|E]; [rewrite lookup_insert_eq; intros [= <-]; simpl|rewrite lookup_insert_ne by done; by apply H1].
      * lia.
      * pose proof (H1 _ _ Hc'). lia.
    + rewrite Hp, map_app in H2. simpl in H2. rewrite <- Permutation_middle, <- map_app in H2. by apply NoDup_cons in H2 as [_ H2].
    + auto.
    + intros q l Hq Hl. apply (found_after_write p q r token d l Hg Hin (Hsub q Hq) (Hother q Hq) (sw_prompt p r Hsw) Hw Hl).
    + intros g Hg'. assert (g ∈ rn_grants r \/ exists k, token = Some k /\ g = mkGrant (pd_lease p) (co_instance_id (pd_self p)) k) as [Hold|(k & -> & ->)].
      { destruct token as [k|]; [|by left]. apply elem_of_cons in Hg' as [->|?]; [right; by exists k|by left]. }
      * by apply (grants_after_write p r token d).
      * simpl. inversion Hw as [|Hnone|c' k' Hc' Hread Hk]; subst; simpl; rewrite lookup_insert_eq; eexists; (split; [reflexivity|]); simpl; done || (split; [lia|done]).
    + assert (forall g k, g ∈ rn_grants r -> token = Some k -> gt_lease g = pd_lease p -> gt_token g = k ->
        gt_owner g = co_instance_id (pd_self p)) as Hnew.
      { intros g k Hgr ->. by apply (grant_is_new p r k d g Hg Hw). }
      destruct token as [k|]; [|done]. intros g1 g2 [->|Hg1]%elem_of_cons [->|Hg2]%elem_of_cons; simpl; [done| | |by apply H6].
      * intros El Ek. symmetry. by apply (Hnew g2 k).
      * intros El Ek. by apply (Hnew g1 k).
  - destruct Hg as [H1 H2 H3 H4 H5 H6]. split; cbn [rn_db rn_now rn_pending rn_grants]; auto.
    + intros m c (c0 & Hc0 & ->)%release_back. by apply (H1 m).
    + intros p Hp. specialize (H3 p Hp). lia.
    + intros p l Hp Hl. destruct (H4 p l Hp Hl) as (c & Hc & Hf).
      destruct (release_effect self n token tokens t _ _ _ Hc) as (c' & Hc' & Etok & Eown & Hcase). exists c'. split; [done|].
      destruct Hcase as [->|[Hself Hexp]]; [done|]. right. rewrite Etok, Hexp, Eown.
      assert (sl_owner_id c <> co_instance_id (pd_self p)) as Hnot by (rewrite Hself; intros E; apply Hbusy; exists p; done).
      specialize (H3 p Hp). destruct Hf as [->|(? & ? & ?)]; split; try lia; split; try lia; done.
    + intros g Hg. destruct (H5 g Hg) as (c & Hc & Hle & Ho).
      destruct (release_effect self n token tokens t _ _ _ Hc) as (c' & Hc' & Etok & Eown & _). exists c'. rewrite Etok, Eown. done.
Qed.

Lemma tokens_step r r' n c : good_run r -> run_step r r' -> leases (rn_db r) !! n = Some c ->
  exists c', leases (rn_db r') !! n = Some c' /\ sl_fencing_token c <= sl_fencing_token c' /\
    (sl_fencing_token c = sl_fencing_token c' -> sl_owner_id c = sl_owner_id c').
Proof.
  intros Hg Hs Hc. destruct Hs as [self m ttl token t r Ht Hbusy|l1 p l2 acquired token d r Hp Hsw Ha|self m token tokens t r Ht Hbusy];
    cbn [rn_db].
  - exists c. split; [done|]. split; [lia|done].
  - assert (p ∈ rn_pending r) as Hin by (rewrite Hp; apply elem_of_app; right; left).
    pose proof (write_has_effect p r acquired token d Hg Hin Hsw Ha) as Hw.
    destruct Hw as [|Hnone|c' k Hc' Hread Hk]; [exists c; split; [done|split; [lia|done]]| |]; simpl.
    + destruct (decide (pd_lease p = n)) as [<-|E]; [congruence|]. rewrite lookup_insert_ne by done.
      exists c. split; [done|split; [lia|done]].
    + destruct (decide (pd_lease p = n)) as [<-|E]; [|rewrite lookup_insert_ne by done; exists c; split; [done|split; [lia|done]]].
      rewrite Hc in Hc'. injection Hc' as <-. rewrite lookup_insert_eq. eexists. split; [reflexivity|]. simpl.
      destruct Hk as [[-> Hown%String.eqb_eq]| -> ]; [split; [lia|done]|split; lia].
  - destruct (release_effect self m token tokens t _ _ _ Hc) as (c' & Hc' & Etok & Eown & _). exists c'. rewrite Etok, Eown.
    split; [done|]. split; [lia|done].
Qed.

Lemma good_runs r r' : rtc run_step r r' -> good_run r -> good_run r'.
Proof. induction 1; [done|]. intros Hg. eauto using good_run_step. Qed.
Lemma tokens_runs r r' n c : rtc run_step r r' -> good_run r -> leases (rn_db r) !! n = Some c ->
  exists c', leases (rn_db r') !! n = Some c' /\ sl_fencing_token c <= sl_fencing_token c' /\
    (sl_fencing_token c = sl_fencing_token c' -> sl_owner_id c = sl_owner_id c').
Proof.
  intros Hs. revert c. induction Hs as [r|r r1 r2 Hs Hrest IH]; intros c Hg Hc.
  - exists c. split; [done|split; [lia|done]].
  - destruct (tokens_step r r1 n c Hg Hs Hc) as (c1 & Hc1 & Hle1 & Ho1).
    destruct (IH c1 (good_run_step r r1 Hs Hg) Hc1) as (c2 & Hc2 & Hle2 & Ho2). exists c2. split; [done|]. split; [lia|].
    intros E. rewrite Ho1, Ho2; [done|lia..].
Qed.

(** A table before anything runs. *)
Definition started (d : Coordination) (now : datetime) : Run := mkRun d now [] [].
Definition positive_tokens (d : Coordination) : Prop := forall n l, leases d !! n = Some l -> 1 <= sl_fencing_token l.
Lemma started_good d now : positive_tokens d -> good_run (started d now).
Proof.
  intros Hd. split; cbn; [exact Hd|constructor|..].
  all: intros ? *; intros; exfalso; by eapply not_elem_of_nil.
Qed.


(** ** Slots *)

Definition slot_of (c : SchedulerCycle) : string * datetime := (sc_job_name c, sc_scheduled_for c).
(** [uq_scheduler_job_slot] *)
Definition slots_unique (d : Coordination) : Prop := NoDup (map slot_of (scheduler_cycles d)).

Lemma same_slot_spec job t c : same_slot job t c = true <-> slot_of c = (job, t).
Proof. unfold same_slot, slot_of. rewrite andb_true_iff, String.eqb_eq, Z.eqb_eq. split; [by intros [-> ->]|by intros [= -> ->]]. Qed.

Lemma put_cycle_slots r d : (forall c, c ∈ scheduler_cycles d -> sc_scheduler_cycle_id c = sc_scheduler_cycle_id r -> slot_of c = slot_of r) ->
  map slot_of (scheduler_cycles (put_cycle r d)) = map slot_of (scheduler_cycles d).
Proof.
  intros Hr. simpl. rewrite map_map. apply map_ext_in. intros c Hc.
  destruct (String.eqb_spec (sc_scheduler_cycle_id c) (sc_scheduler_cycle_id r)) as [E|]; [|done].
  symmetry. apply Hr; [by apply list_elem_of_In|done].
Qed.

Lemma slot_rows d job t c rest : slots_unique d -> bfilter (same_slot job t) (scheduler_cycles d) = c :: rest -> rest = [].
Proof.
  unfold slots_unique. revert c rest. induction (scheduler_cycles d) as [|x l IH]; intros c rest Hn; [done|]. apply NoDup_cons in Hn as [Hx Hn].
  simpl. destruct (same_slot job t x) eqn:E; [|by apply IH]. intros [= <- Hrest]. destruct rest as [|y rest]; [done|].
  assert (y ∈ bfilter (same_slot job t) l) as [Hy Hs]%elem_of_bfilter by (rewrite Hrest; left).
  destruct Hx. apply same_slot_spec in E, Hs. rewrite E, <- Hs. by apply list_elem_of_fmap_2.
Qed.

(** A scheduler that finds the holder of a claim alive, or lives elsewhere. *)
Definition respects (other self : Coordinator) : Prop :=
  co_hostname self = co_hostname other -> co_process_id self = co_process_id other \/ _local_pid_is_alive other (co_process_id self) = true.

Lemma respects_claim other self id job t source mode token reason started :
  respects other self -> dead_local_claim other (claimed_row self id job t source mode token reason started) = false.
Proof.
  intros Hr. unfold dead_local_claim. simpl. destruct (String.eqb_spec (co_hostname self) (co_hostname other)) as [E|]; [|done].
  destruct (Hr E) as [->| ->]; simpl; [rewrite Z.eqb_refl|]; simpl; by rewrite ?andb_false_r.
Qed.

Lemma only_row d job t row : slots_unique d -> row ∈ scheduler_cycles d -> slot_of row = (job, t) ->
  bfilter (same_slot job t) (scheduler_cycles d) = [row].
Proof.
  intros Hu Hrow Hs%same_slot_spec. assert (row ∈ bfilter (same_slot job t) (scheduler_cycles d)) as Hin by (by apply elem_of_bfilter).
  destruct (bfilter _ _) as [|x rest] eqn:E; [by apply not_elem_of_nil in Hin|].
  pose proof (slot_rows d job t x rest Hu E) as ->. by apply list_elem_of_singleton in Hin as ->.
Qed.

(** The row of a slot after a claim of it. *)
Lemma claimed_slot self job t source mode token id started d tokens c d' :
  slots_unique d -> NoDup (map sc_scheduler_cycle_id (scheduler_cycles d)) ->
  claim_cycle self job t source mode token id started d tokens = (c, d') -> cc_claimed c = true ->
  slots_unique d' /\ exists id' reason,
    bfilter (same_slot job t) (scheduler_cycles d') =
      [claimed_row self id' job t source mode (token_or token tokens "paper_runtime_cycle") reason started] /\
    cc_scheduler_cycle_id c = Some id'.
Proof.
  intros Hu Hids. unfold claim_cycle. set (k := token_or token tokens "paper_runtime_cycle").
  destruct (bfilter _ _) as [|x rest] eqn:E.
  - intros [= <- <-] _. set (row := claimed_row self id job t source mode k None started).
    assert (slots_unique (with_cycles (scheduler_cycles d ++ [row]) d)) as Hu'.
    { unfold slots_unique. simpl. rewrite map_app. apply NoDup_app. split; [done|]. split; [|apply NoDup_singleton].
      intros sl (y & -> & Hy)%list_elem_of_fmap Hsl%list_elem_of_singleton.
      assert (y ∈ bfilter (same_slot job t) (scheduler_cycles d)) as Hin by (apply elem_of_bfilter; split; [done|by apply same_slot_spec]).
      rewrite E in Hin. by apply not_elem_of_nil in Hin. }
    split; [done|]. exists id, None. split; [|done]. apply only_row; [done| |done]. apply elem_of_app. right. by left.
  - pose proof (slot_rows d job t x rest Hu E) as ->.
    assert (x ∈ scheduler_cycles d /\ slot_of x = (job, t)) as [Hx Hslot].
    { assert (x ∈ bfilter (same_slot job t) (scheduler_cycles d)) as [? ?%same_slot_spec]%elem_of_bfilter by (rewrite E; left). done. }
    destruct (dead_local_claim self x); [|by intros [= <- <-]]. intros [= <- <-] _. injection Hslot as <- <-.
    set (row := claimed_row self (sc_scheduler_cycle_id x) (sc_job_name x) (sc_scheduled_for x) source mode k
      (Some "reclaimed_from_dead_local_owner"%string) started).
    assert (slots_unique (put_cycle row d)) as Hu'.
    { unfold slots_unique. rewrite put_cycle_slots; [done|]. intros y Hy Ey.
      enough (y = x) as -> by done. apply list_elem_of_lookup in Hy as [i Hi], Hx as [j Hj]. assert (i = j) as ->; [|congruence].
      eapply NoDup_lookup; [exact Hids|..]; rewrite list_lookup_fmap, ?Hi, ?Hj; simpl; by rewrite ?Ey. }
    split; [done|]. exists (sc_scheduler_cycle_id x), (Some "reclaimed_from_dead_local_owner"%string). split; [|done].
    apply only_row; [done| |done]. simpl. apply list_elem_of_fmap. exists x. split; [|done]. by rewrite String.eqb_refl.
Qed.

(** A slot is claimed exactly when nobody claimed it or the process of its claim is
    dead on this host.  After a claim the slot has one row, in the name of the claimant,
    and every scheduler that finds the claimant alive or lives on another host is
    refused, whatever it asks with, and changes nothing. *)
Theorem slot_claimed_once (self : Coordinator) (job : string) (t : datetime) (source mode : string) (token : option Z)
  (id : string) (started : datetime) (d : Coordination) (tokens : gmap string Z)
  (Hu : slots_unique d) (Hids : NoDup (map sc_scheduler_cycle_id (scheduler_cycles d))) :
  let '(c, d') := claim_cycle self job t source mode token id started d tokens in
  (cc_claimed c = true <-> forall row, row ∈ scheduler_cycles d -> slot_of row = (job, t) -> dead_local_claim self row = true) /\
  slots_unique d' /\
  (cc_claimed c = true -> (exists row, bfilter (same_slot job t) (scheduler_cycles d') = [row] /\
      sc_scheduler_instance_id row = co_instance_id self) /\
    forall other source' mode' token' id' started' tokens', respects other self ->
      claim_cycle other job t source' mode' token' id' started' d' tokens' = (not_claimed, d')).
Proof.
  destruct (claim_cycle self job t source mode token id started d tokens) as [c d'] eqn:E. split; [|split].
  - unfold claim_cycle in E. split.
    + intros Hc row Hrow Hslot. rewrite (only_row d job t row Hu Hrow Hslot) in E.
      destruct (dead_local_claim self row); [done|]. by injection E as <- _.
    + intros Hall. destruct (bfilter _ _) as [|x rest] eqn:Eb; [by injection E as <- _|].
      assert (x ∈ bfilter (same_slot job t) (scheduler_cycles d)) as [Hx Hs%same_slot_spec]%elem_of_bfilter by (rewrite Eb; left).
      rewrite (Hall x Hx Hs) in E. by injection E as <- _.
  - destruct (cc_claimed c) eqn:Hc; [by apply (claimed_slot self job t source mode token id started d tokens c)|].
    unfold claim_cycle in E. destruct (bfilter _ _); [injection E as <- _; done|].
    destruct (dead_local_claim _ _); [injection E as <- _; done|]. by injection E as _ <-.
  - intros Hc. destruct (claimed_slot self job t source mode token id started d tokens c d' Hu Hids E Hc) as (_ & id' & reason & Eb & _).
    split; [by eexists|]. intros other source' mode' token' id2 started' tokens' Hr. unfold claim_cycle. rewrite Eb.
    by rewrite respects_claim.
Qed.

(** ** Particular histories *)

Local Open Scope string_scope.
Definition scheduler_a : Coordinator := mkCoordinator "a" "host" 1 None (fun _ => true).
Definition scheduler_b : Coordinator := mkCoordinator "b" "host" 2 None (fun _ => true).
Definition no_leases : Coordination := mkCoordination ∅ [].

(** [a] takes the lease and lets it go, [b] takes it over. *)
Definition lease_a : SchedulerLease := held_lease scheduler_a "writer" 1 90 1.
Definition after_a : Coordination := with_leases {["writer" := lease_a]} no_leases.
Definition handed_over : Coordination :=
  (acquire_write scheduler_b "writer" 100 90 None (Some lease_a) after_a).2.
Definition handover : Run :=
  mkRun handed_over 100 [] [mkGrant "writer" "b" 2; mkGrant "writer" "a" 1].

Lemma handover_run : rtc run_step (started no_leases 0) handover.
Proof.
  eapply rtc_l.
  { apply (step_read scheduler_a "writer" 90 None 1); [done|]. intros (p & Hp & _). by apply not_elem_of_nil in Hp. }
  eapply rtc_l.
  { eapply (step_write []); [reflexivity| |reflexivity]. split; [done|]. intros l c [=]. }
  eapply rtc_l.
  { apply (step_read scheduler_b "writer" 90 None 100); [done|]. intros (p & Hp & _). by apply not_elem_of_nil in Hp. }
  eapply rtc_l.
  { eapply (step_write []); [reflexivity| |reflexivity]. split; [done|]. intros l c Hl _ Hc _.
    assert (Some c = Some l) as [= ->]; [|done]. rewrite <- Hl, <- Hc. reflexivity. }
  exact (rtc_refl _ handover).
Qed.


Lemma slot_claimed_once_witness :
  let '(c, d') := claim_cycle scheduler_a "job" 60 "s" "m" None "cycle-1" 61 no_leases ∅ in
  cc_claimed c = true /\ claim_cycle scheduler_b "job" 60 "s" "m" None "cycle-2" 62 d' ∅ = (not_claimed, d').
Proof.
  pose proof (slot_claimed_once scheduler_a "job" 60 "s" "m" None "cycle-1" 61 no_leases ∅) as Hc.
  destruct (claim_cycle scheduler_a "job" 60 "s" "m" None "cycle-1" 61 no_leases ∅) as [c d'] eqn:E.
  assert (cc_claimed c = true) as Ec by (vm_compute in E; injection E as <- <-; reflexivity). split; [exact Ec|].
  refine (proj2 (proj2 (proj2 (Hc _ _)) Ec) scheduler_b "s" "m" None "cycle-2" 62 ∅ _).
  - apply NoDup_nil. exact I.
  - apply NoDup_nil. exact I.
  - intros _. right. reflexivity.
Defined.

(** A write that comes after its own lease has ended gives a token out twice. *)
Theorem late_write_reuses_token :
  exists d1 d2, acquire_write scheduler_b "writer" 100 90 None (Some lease_a) after_a = (true, Some 2, d1) /\
    acquire_write (mkCoordinator "c" "host" 3 None (fun _ => true)) "writer" 200 90 None (Some lease_a) d1 = (true, Some 2, d2).
Proof. do 2 eexists. split; vm_compute; reflexivity. Qed.

(** Leases are taken at the time of the exchange and released at the time of the
    host: on a host whose clock is ahead, a released lease is refused to the next
    scheduler until the exchange catches up. *)
Theorem released_lease_outlives_release (self other : Coordinator) (lease_name : string) (exchange_time ttl host_time later : Z) :
  co_instance_id self <> co_instance_id other -> (co_hostname self = co_hostname other -> _local_pid_is_alive other (co_process_id self) = true) ->
  later < host_time ->
  let '(_, d, tokens) := acquire_or_renew_lease self lease_name exchange_time ttl None (mkCoordination ∅ []) ∅ in
  let d := release_lease self lease_name None host_time d tokens in
  (acquire_or_renew_lease other lease_name later ttl None d ∅).1.1 = false.
Proof.
  intros Hid Halive Hlt. unfold acquire_or_renew_lease, acquire_write. simpl. rewrite lookup_empty.
  unfold release_lease, token_or. simpl. rewrite !lookup_insert_eq. unfold own. simpl. rewrite String.eqb_refl. simpl.
  rewrite lookup_insert_eq. unfold token_mismatch, own. simpl.
  rewrite (proj2 (String.eqb_neq (co_instance_id self) (co_instance_id other))) by done. simpl.
  assert (dead_local_owner other (mkLease lease_name (co_instance_id self) (co_hostname self) (co_process_id self) exchange_time
    exchange_time host_time 1) = false) as Hdead.
  { unfold dead_local_owner, own. simpl. destruct (String.eqb_spec (co_hostname self) (co_hostname other)) as [E|]; [|by rewrite ?andb_false_r].
    rewrite (Halive E). by rewrite andb_false_r. }
  unfold expire_dead. rewrite Hdead. simpl.
  rewrite (proj2 (String.eqb_neq (co_instance_id self) (co_instance_id other))) by done. simpl.
  by rewrite (proj2 (Z.leb_gt host_time later)).
Qed.
