(* ===== verification/SchedulerSteps.v ===== *)
(** * SchedulerSteps: what a scheduler pass reads and writes

    The functions of [services/execution/v2_scheduler_entry.py] around
    [run_automated_trading_cycle]: time slots, market data readiness, funding, the
    reasons of a decision, the rows of cycles and decisions, the operator's snapshot
    ([services/execution/natural_testnet_mode.py] and the execution universe of
    [services/data/universe.py] included).  Market data, the strategies, the
    operator's store, the evidence builders and the adapter's constructor are the
    class [PassHost]; the texts of errors and times are left out. *)
From S2P Require Import Prelude PyDecimal PyValue State ClientOrderId Receipts Candidates RuntimeLock Reconciliation Indicators.
From S2P Require Import Database Repository Evidence RecoveryExecutor Cycle CycleSteps RiskTiers OperatorProfile.
Local Open Scope Z_scope.
Local Open Scope py_scope.

(** ** Time *)

Definition second : Z := 1000000.
Definition V2_CYCLE_TIMEFRAME : string := "15m".
Definition ACTIVE_CONFIG_SNAPSHOT_CAPTURE_FAILED : string := "ACTIVE_CONFIG_SNAPSHOT_CAPTURE_FAILED".
Definition FUNDING_FRESHNESS_TOLERANCE_SECONDS : Z := 90.

Definition TIMEFRAME_TO_SECONDS (timeframe : string) : option Z :=
  if String.eqb timeframe "1m" then Some 60 else if String.eqb timeframe "5m" then Some 300
  else if String.eqb timeframe "15m" then Some 900 else if String.eqb timeframe "1h" then Some 3600
  else if String.eqb timeframe "4h" then Some 14400 else if String.eqb timeframe "1d" then Some 86400 else None.

(** Intervals are whole microseconds. *)
Definition _slot_start (observed_at : datetime) (interval : Z) : datetime := Z.quot observed_at interval * interval.

Definition _latest_closed_timestamp (now : datetime) (seconds : Z) : datetime :=
  let timestamp := now / second in (timestamp - timestamp mod seconds) * second.

(** ** Which jobs, which process *)

Definition resolve_scheduler_v2_jobs (config : EngineActivationConfig) : gset string :=
  (if allow_legacy_writer config then {["paper_runtime_cycle"; "paper_observation_cycle"]} else ∅)
  ∪ (if bool_decide (v2_activation config = DISABLED) then ∅ else {["automated_trading_v2_cycle"]}).

Definition NATURAL_TESTNET_ENV : string := "V2_NATURAL_E2E_ENABLED".
Definition _is_true (value : option string) : bool := String.eqb (str_lower (strip (default ""%string value))) "true".
Definition natural_testnet_mode_requested (environ : gmap string string) : bool :=
  _is_true (environ !! NATURAL_TESTNET_ENV) && _is_true (environ !! "BINANCE_USE_TESTNET"%string)
  && negb (_is_true (environ !! "LIVE_TRADING_ENABLED"%string)).

Definition mode_value (m : V2ExecutionMode) : string :=
  match m with BINANCE_TESTNET => "BINANCE_TESTNET" | LOCAL_PAPER => "LOCAL_PAPER" end.

(** The ceiling on what a manifest may put into automatic execution. *)
Definition _LAYER1_AUTOMATED_EXECUTION_CEILING : list string := ["BTC/USDT"; "ETH/USDT"]%string.
(** [Some scope] is a valid manifest's. *)
Definition _configured_automatic_execution_symbols (manifest_scope : option (list string)) : list string :=
  match manifest_scope with
  | Some scope => if forallb (fun s => bool_decide (s ∈ _LAYER1_AUTOMATED_EXECUTION_CEILING)) scope then scope else []
  | None => []
  end.

(** ** Market data *)

(** Rows carry the time they opened at, views the time they closed at. *)
Definition closed_at (seconds : Z) (row : BarView) : datetime := bar_timestamp row + seconds * second.
Definition _load_v2_entry_timeframe (timeframe : string) (observed_at : datetime) (rows : res (list BarView)) : res TimeframeView :=
  rows ← rows;
  match TIMEFRAME_TO_SECONDS timeframe with
  | None => Raise (ValueError "Unsupported V2 decision timeframe")
  | Some seconds =>
      Ok (mkTimeframe timeframe
            (map (fun row => mkBar (closed_at seconds row) (bar_open row) (bar_high row) (bar_low row) (bar_close row) (bar_volume row))
               (bfilter (fun row => closed_at seconds row <=? observed_at) rows)))
  end.

Record ReadinessDetail := mkDetail { rd_timeframe : string; rd_expected_closed_at : datetime; rd_actual_closed_at : option datetime }.

Definition readiness_detail (now : datetime) (timeframe : string) (seconds : Z) (view : option TimeframeView) : ReadinessDetail :=
  mkDetail timeframe (_latest_closed_timestamp now seconds) (v ← view; bar_timestamp <$> last_closed v).
Definition behind (d : ReadinessDetail) : bool :=
  match rd_actual_closed_at d with Some actual => actual <? rd_expected_closed_at d | None => true end.

(** Readiness, its reason, the details and the missing timeframes. *)
Definition _entry_data_readiness (now : datetime) (entry : TimeframeView) (direction state : option TimeframeView) :
    bool * option string * (list ReadinessDetail * list string) :=
  let details := [readiness_detail now "15m" 900 (Some entry); readiness_detail now "1h" 3600 direction;
                  readiness_detail now "4h" 14400 state] in
  let missing := map rd_timeframe (bfilter behind details) in
  if is_nonempty missing then (false, Some "ENTRY_DATA_NOT_READY"%string, (details, missing)) else (true, None, (details, [])).

Record MarketExtras := mkExtras { mx_funding_rate : option Dec; mx_timestamp : option datetime }.
Record FundingObservation := mkFunding {
  fo_raw_funding_bps : option Dec; fo_observed_at : option datetime; fo_age_seconds : option Z; fo_status : string }.
Definition missing_funding : FundingObservation := mkFunding None None None "MISSING".

Definition _load_funding_observation (latest : res (option MarketExtras)) (now : datetime) : FundingObservation :=
  match latest with
  | Ok (Some (mkExtras (Some funding_rate) timestamp)) =>
      let observed_at := default now timestamp in
      if now <? observed_at then missing_funding
      else
      let age_seconds := Z.max 0 ((now - observed_at) / second) in
      mkFunding (Some (funding_rate * mkDec 10000 0)%D) (Some observed_at) (Some age_seconds)
        (if age_seconds <=? FUNDING_FRESHNESS_TOLERANCE_SECONDS then "FRESH" else "STALE")
  | _ => missing_funding
  end.

(** ** Reasons of a decision *)

Definition _STRATEGY_TERMINAL_REASONS : list string :=
  ["NO_ENTRY_SIGNAL"; "MACD_DIRECTION_MISMATCH"; "RSI_OUTSIDE_RANGE"; "MULTI_TIMEFRAME_DISAGREEMENT"; "INSUFFICIENT_HISTORY";
   "ATR_NOT_POSITIVE"; "DUPLICATE_DECISION"]%string.
Definition _EXECUTION_BLOCKER_REASONS : list string :=
  ["ENTRY_KILL_SWITCH_ACTIVE"; "POSITION_ALREADY_OPEN"; "MAX_OPEN_EXPOSURES"; "DAILY_TRADE_LIMIT_REACHED";
   "SYMBOL_COOLDOWN_ACTIVE"; "PRICE_DRIFT_EXCEEDED"; "NO_TRADE_COST_INEFFICIENT"; "MANUAL_POSITION_DIRECTION_CONFLICT";
   "NO_AUTHORIZED_PRODUCTION_STRATEGY"; "NO_FORWARD_VALIDATION_CANDIDATE"]%string.

(** [v in frozenset(...)] *)
Definition reason_in (v : PyVal) (reasons : list string) : res bool :=
  match v with
  | VStr s => Ok (bool_decide (s ∈ reasons))
  | VList _ _ | VDict _ _ => Raise (OtherException "TypeError")
  | _ => Ok false
  end.

(** The strategy, system and execution reasons of a payload that may only have a
    legacy [reason_code]. *)
Definition reason_dimensions (p : PyDict) : res (PyVal * PyVal * PyVal) :=
  let strategy := py_get p "strategy_terminal_reason" in
  let system := py_get p "system_failure_reason" in
  let blocker := py_get p "execution_blocker" in
  let legacy := py_get p "reason_code" in
  if py_truthy strategy || py_truthy system || py_truthy blocker then Ok (strategy, system, blocker)
  else
  is_strategy ← reason_in legacy _STRATEGY_TERMINAL_REASONS;
  if (is_strategy : bool) then Ok (legacy, system, blocker)
  else
  is_blocker ← reason_in legacy _EXECUTION_BLOCKER_REASONS;
  if (is_blocker : bool) then Ok (strategy, system, legacy)
  else if py_truthy legacy then Ok (strategy, legacy, blocker)
  else Ok (strategy, VStr "DECISION_REASON_MISSING", blocker).

(** The terminal reason, and the payload it mutates. *)
Definition _normalize_reason_dimensions (p : PyDict) : res (string * PyDict) :=
  '(strategy, system, blocker) ← reason_dimensions p;
  let p := dict_set (dict_set (dict_set p "strategy_terminal_reason" strategy) "system_failure_reason" system)
             "execution_blocker" blocker in
  let terminal := py_or (py_or strategy system) blocker in
  if py_truthy terminal then Ok (py_str terminal, dict_set p "reason_code" terminal)
  else
  let terminal := VStr "DECISION_PAYLOAD_INVALID" in
  Ok (py_str terminal, dict_set (dict_set p "system_failure_reason" terminal) "reason_code" terminal).

(** ** What a pass reads and writes in the database *)

Section sessions.
Context {H : Host}.

Definition nonterminal (mode : V2ExecutionMode) (p : PositionRow) : bool :=
  bool_decide (mp_execution_mode p = mode) && negb (bool_decide (mp_state p ∈ [CLOSED; QUARANTINED])).
Definition _managed_symbols_requiring_recovery (mode : V2ExecutionMode) : SM Session (list string) :=
  with_session (let! rows := select (nonterminal mode) in sret (sorted_texts (fromkeys (map mp_symbol rows)))).

Definition _ensure_v2_cycle (cycle_id symbol timeframe : string) (bar_timestamp : datetime) (mode : V2ExecutionMode)
    (fencing_token : string) : SM Session unit :=
  with_session (
    let! existing := get (R := CycleRow) cycle_id in
    match existing with
    | None => create_cycle cycle_id symbol timeframe bar_timestamp mode fencing_token ;;; commit
    | Some _ => sret tt
    end).

Definition terminal_cycle (symbol timeframe : string) (mode : V2ExecutionMode) (c : CycleRow) : bool :=
  String.eqb (cy_symbol c) symbol && String.eqb (cy_timeframe c) timeframe && bool_decide (cy_execution_mode c = mode)
  && bool_decide (is_Some (cy_decision_terminal c)).
(** A payload that ends the evaluation of its bar in this lane. *)
Definition ends_bar (lane : CandidateLane) (payload : PyDict) : bool :=
  String.eqb (py_str (py_or (py_get payload "lane") (VStr ""))) (lane_value lane)
  && negb (py_eq_str (py_get payload "system_failure_reason") "ENTRY_DATA_NOT_READY")
  && match py_get payload "entry_bar_retryable" with VBool b => negb b | _ => true end.
Definition bars_of (decisions : list DecisionRow) (lane : CandidateLane) (c : CycleRow) : list datetime :=
  map (fun _ => cy_bar_timestamp c)
    (bfilter (fun r => String.eqb (de_cycle_id r) (cy_cycle_id c) && ends_bar lane (de_payload r)) decisions).
Definition _load_already_evaluated_bars (symbol timeframe : string) (mode : V2ExecutionMode) (lane : CandidateLane) :
    SM Session (list datetime) :=
  with_session (
    let! cycles := select (terminal_cycle symbol timeframe mode) in
    let! decisions := select (R := DecisionRow) (fun _ => true) in
    sret (concat (map (bars_of decisions lane) cycles))).

(** A value bound to a nullable text column. *)
Definition text_column (v : PyVal) : res (option string) :=
  match v with VNone => Ok None | VStr s => Ok (Some s) | _ => Raise (OtherException "StatementError") end.

Definition _finalize_v2_cycle_decision (cycle_id decision_id symbol timeframe : string) (bar_timestamp : datetime)
    (mode : V2ExecutionMode) (fencing_token : string) (funnel_payload : PyDict) (completed_at : datetime) :
    SM Session (string * PyDict) :=
  let terminal_stage := py_str (py_or (py_get funnel_payload "terminal_stage") (VStr "DECISION_PAYLOAD_INVALID")) in
  let! normalized := slift (_normalize_reason_dimensions funnel_payload) in
  let '(terminal_reason, funnel_payload) := normalized in
  with_session (
    let! cycle := get (R := CycleRow) cycle_id in
    match cycle with
    | None => create_cycle cycle_id symbol timeframe bar_timestamp mode fencing_token
    | Some _ => sret tt
    end ;;;
    let! existing := get (R := DecisionRow) decision_id in
    let! candidate_key := slift (text_column (py_get funnel_payload "candidate_key")) in
    match existing with
    | None => create_decision decision_id cycle_id candidate_key (Some terminal_reason) funnel_payload
    | Some r => assign (mkDecision (de_decision_id r) (de_cycle_id r) candidate_key (Some terminal_reason) funnel_payload
                          (de_created_at r))
    end ;;;
    complete_cycle cycle_id terminal_stage completed_at ;;;
    commit) ;;;
  sret (decision_id, funnel_payload).

Definition _append_research_shadow_payload (decision_id : string) (research_shadow : PyDict) : SM Session unit :=
  with_session (
    let! decision := get (R := DecisionRow) decision_id in
    match decision with
    | None => sraise (RuntimeError "ACTIVE decision disappeared before Research Shadow append")
    | Some r =>
        let payload := dict_set (dict_set (de_payload r) "market_snapshot_reference" (py_get research_shadow "market_snapshot_reference"))
                         "research_shadow" (VDict "" research_shadow) in
        assign (mkDecision (de_decision_id r) (de_cycle_id r) (de_candidate_key r) (de_terminal_reason r) payload (de_created_at r)) ;;;
        commit
    end).

(** A decision snapshot: the dictionary, and its entries that become columns. *)
Record ForwardSnapshot := mkForwardSnapshot {
  fs_cycle_id : string; fs_decision_id : string; fs_symbol : string; fs_decision_time : datetime; fs_snapshot_hash : string;
  fs_payload : PyDict }.

Definition _persist_forward_baseline (build_shadow_records : PyDict -> res (list PyDict)) (snapshot : ForwardSnapshot) :
    SM Session (string * Z) :=
  with_session (
    let! snapshot_id := new_uuid in
    let! row := append_forward_snapshot snapshot_id (fs_cycle_id snapshot) (fs_decision_id snapshot) (fs_symbol snapshot)
                  (fs_decision_time snapshot) (fs_snapshot_hash snapshot) (fs_payload snapshot) in
    let! records := slift (build_shadow_records (fs_payload snapshot)) in
    let! shadows := append_shadow_records (sn_snapshot_id row) records in
    commit ;;;
    sret (sn_snapshot_id row, Z.of_nat (length shadows))).
End sessions.

(** ** The operator's snapshot *)

Record PaperRun := mkPaperRun {
  pr_paper_run_id : option string; pr_paper_status : string; pr_strategy_lane : option string;
  pr_execution_profile : ExecutionProfile }.
(** The active snapshot of a run: its profile when that is a mapping. *)
Record ActiveSnapshot := mkActive {
  ac_config_snapshot_id : string; ac_config : PyDict; ac_execution_profile : option ExecutionProfile; ac_config_hash : string }.
Record _V2OperatorSnapshot := mkOperatorSnapshot {
  os_execution_profile : option ExecutionProfile; os_active_snapshot_id : option string;
  os_active_snapshot_config : option PyDict; os_active_snapshot_hash : option string }.

Definition running_directional (r : PaperRun) : bool :=
  String.eqb (pr_paper_status r) "running" && bool_decide (pr_strategy_lane r = Some "directional"%string).

(** [activated run]: the active snapshot after [activate_pending]. *)
Definition _load_v2_operator_snapshot (runs : res (list PaperRun)) (activated : string -> res (option ActiveSnapshot)) :
    res _V2OperatorSnapshot :=
  runs ← runs;
  match bfilter running_directional runs with
  | [] => Ok (mkOperatorSnapshot None None None None)
  | [run] =>
      match pr_paper_run_id run with
      | None => Raise (OtherException "AssertionError")
      | Some id =>
          active ← activated id;
          Ok (mkOperatorSnapshot (Some (default (pr_execution_profile run) (active ≫= ac_execution_profile)))
                (ac_config_snapshot_id <$> active) (ac_config <$> active) (ac_config_hash <$> active))
      end
  | _ => Raise (RuntimeError "ambiguous running directional PaperRun; V2 entry configuration is fail-closed")
  end.

Fixpoint settings_of {F : Floats} (profile : option ExecutionProfile) (symbols : list string) :
    res (list (string * V2ExecutionSettings)) :=
  match symbols with
  | [] => Ok []
  | symbol :: symbols =>
      settings ← resolve_v2_execution_settings symbol profile;
      rest ← settings_of profile symbols;
      Ok ((symbol, settings) :: rest)
  end.

(** ** What the pass is configured with *)

(** What a strategy answers for a bar: a candidate and whether its run is authorized. *)
Record StrategyDecision := mkStrategyDecision {
  sd_candidate : option TradeCandidate; sd_authorized : bool; sd_reason : string; sd_decision_reason : string;
  sd_trace_strategy : option string }.
Definition no_production_decision : StrategyDecision :=
  mkStrategyDecision None false NO_AUTHORIZED_PRODUCTION_STRATEGY NO_AUTHORIZED_PRODUCTION_STRATEGY None.

(** An evaluated symbol, for the research that follows the pass. *)
Record PendingResearch := mkPendingResearch {
  pe_decision_id : string; pe_cycle_id : string; pe_symbol : string; pe_bar_timestamp : datetime;
  pe_entry_timeframe : TimeframeView; pe_active_strategy_id : string; pe_active_decision : string;
  pe_active_terminal_reason : string }.

Class PassHost := {
  pass_cycle_host :: CycleHost;
  pass_floats :: Floats;
  settings : Settings;
  paper_runtime_cycle_interval : Z;
  environ : gmap string string;
  fetch_binance_server_time : res datetime;
  gethostname : string;
  getpid : Z;
  app_build_id : option string;
  pid_lives : Z -> bool;
  manifest_scope : option (list string);
  build_adapter : V2ExecutionMode -> res unit;
  list_paper_runs : res (list PaperRun);
  activate_and_get : string -> string -> res (option ActiveSnapshot);
  timeframe_loader : option (string -> string -> res TimeframeView);
  list_ohlcv_bars : string -> string -> res (list BarView);
  latest_market_extras : string -> datetime -> res (option MarketExtras);
  _load_authorized_production_decision : _V2OperatorSnapshot -> string -> string -> datetime -> res StrategyDecision;
  _load_authorized_forward_decision : _V2OperatorSnapshot -> string -> string -> datetime -> V2ExecutionMode -> res StrategyDecision;
  payload_details : CycleRequest -> CycleResult -> PyDict;
  decision_snapshot : CycleRequest -> string -> CycleResult -> PyDict -> res ForwardSnapshot;
  build_shadow_records : PyDict -> res (list PyDict);
  same_cycle_research : PendingResearch -> string -> string -> datetime -> res PyDict }.
