(* ===== verification/SchedulerEntry.v ===== *)
(** * SchedulerEntry: one pass of the scheduler over its symbols

    [execute_v2_automated_trading_cycles] of
    [services/execution/v2_scheduler_entry.py]: the leases and the claim of the slot,
    the authority and the request of every symbol, its cycle, what is recorded of
    it, and what always follows.  The state of a pass is the adapter's world with
    the database, the coordinator's tables and the pass's local variables. *)
From S2P Require Import Prelude PyDecimal PyValue State ClientOrderId Receipts Candidates RuntimeLock Reconciliation Indicators.
From S2P Require Import Database Repository RecoveryExecutor Cycle CycleSteps CycleEntry RiskTiers OperatorProfile.
From S2P Require Import SchedulerCoordination SchedulerSteps.
From Stdlib Require Import Ascii.
From stdpp Require Import pretty.
Local Open Scope Z_scope.
Local Open Scope py_scope.

(** ** Requests, results, state *)

(** The payload a pass is started with; an absent entry and an empty one read the same. *)
Record RequestPayload := mkRequestPayload {
  rp_observed_at : option (res datetime); rp_interval : option Z; rp_scheduler_instance_id : string;
  rp_scheduler_cycle_id : string; rp_symbols : list string; rp_timeframe : string }.
Definition empty_payload : RequestPayload := mkRequestPayload None None "" "" [] "".

Record SymbolResult := mkSymbolResult {
  sy_symbol : string; sy_cycle_id : string; sy_status : string; sy_error_code : option string; sy_decision_id : option string;
  sy_terminal_stage : option string; sy_reconciliation_status : option ReconciliationStatus; sy_entry_submitted : bool;
  sy_forward_snapshot : option (string * Z); sy_forward_snapshot_status : option string; sy_production_approved : bool;
  sy_errors : list string }.
Definition error_result (symbol cycle_id : string) (code : option string) (error : string) : SymbolResult :=
  mkSymbolResult symbol cycle_id "error" code None None None false None None false [error].
Definition is_error (r : SymbolResult) : bool := String.eqb (sy_status r) "error".

Inductive PassReport :=
  | V2_DISABLED
  | BINANCE_SERVER_TIME_UNAVAILABLE
  | ACTIVE_CYCLE_RUNNING
  | STANDBY_NOT_LEADER
  | LEASE_LOST
  | DUPLICATE_SLOT_SKIPPED
  | MANIFEST_EXECUTION_SYMBOL_SCOPE_MISMATCH (invalid_symbols : list string)
  | PASS_RAN (status scheduler_cycle_id : string) (symbols : list string) (results : list SymbolResult).

(** The coordinator's tables and memory, and the local variables of a pass. *)
Record PassState := mkPassState {
  pa_coordination : Coordination; pa_tokens : gmap string Z; pa_results : list SymbolResult;
  pa_pending : list PendingResearch; pa_failed : bool }.
Definition started_pass (d : Coordination) : PassState := mkPassState d ∅ [] [] false.
Definition coordination_is (d : Coordination) (tokens : gmap string Z) (p : PassState) : PassState :=
  mkPassState d tokens (pa_results p) (pa_pending p) (pa_failed p).
Definition result_added (r : SymbolResult) (p : PassState) : PassState :=
  mkPassState (pa_coordination p) (pa_tokens p) (pa_results p ++ [r]) (pa_pending p) (pa_failed p).
Definition task_failed (p : PassState) : PassState :=
  mkPassState (pa_coordination p) (pa_tokens p) (pa_results p) (pa_pending p) true.
Definition research_added (e : PendingResearch) (p : PassState) : PassState :=
  mkPassState (pa_coordination p) (pa_tokens p) (pa_results p) (pa_pending p ++ [e]) (pa_failed p).

(** What a pass knows once it has claimed its slot. *)
Record PassContext := mkPassContext {
  px_activation : EngineActivation; px_mode : V2ExecutionMode; px_now : datetime; px_bar_slot : datetime; px_timeframe : string;
  px_lease_name : string; px_writer_lease_name : string; px_self : Coordinator; px_fencing_token : Z;
  px_scheduler_cycle_id : string; px_canary_acceptance : bool }.

(** ** A symbol before its cycle *)

Section prepare.
Context {P : PassHost} (x : PassContext).

Definition AUTO_SIMULATION_EXECUTION_SYMBOLS : list string := _configured_automatic_execution_symbols manifest_scope.

Definition load_timeframe (symbol timeframe : string) : res TimeframeView :=
  match timeframe_loader with
  | Some load => load symbol timeframe
  | None => _load_v2_entry_timeframe timeframe (px_now x) (list_ohlcv_bars symbol timeframe)
  end.

Record Prepared := mkPrepared {
  pp_entry_timeframe : TimeframeView; pp_direction_timeframe : option TimeframeView;
  pp_state_timeframe : option TimeframeView; pp_decision : StrategyDecision; pp_authority : EntryAuthorityResolution;
  pp_ready : bool; pp_ready_reason : option string }.

(** A symbol outside the execution universe is only managed. *)
Definition prepare_managed : Prepared :=
  mkPrepared (mkTimeframe (px_timeframe x) []) None None
    (mkStrategyDecision None false NO_AUTHORIZED_PRODUCTION_STRATEGY "EXISTING_POSITION_MANAGEMENT_ONLY" None)
    (resolve_entry_authority false None false None (px_mode x) false false) true None.

(** Production is the strategy's answer unless it is not authorized and the forward run is. *)
Definition chosen_decision (production forward : StrategyDecision) : StrategyDecision :=
  let d := if negb (sd_authorized production) && sd_authorized forward then forward else production in
  mkStrategyDecision (sd_candidate d) (sd_authorized production || sd_authorized forward) (sd_reason d)
    (sd_decision_reason d) (sd_trace_strategy d).

Definition traded_authority (settings : V2ExecutionSettings) (production forward : StrategyDecision) : EntryAuthorityResolution :=
  let resolved := resolve_entry_authority (sd_authorized production) (tc_strategy_id <$> sd_candidate production)
                    (sd_authorized forward) (tc_strategy_id <$> sd_candidate forward) (px_mode x)
                    (vs_sampling_fallback_enabled settings) (px_canary_acceptance x) in
  if bool_decide (ea_authority resolved = AUTH_NONE) then mkAuthority AUTH_NONE (sd_reason forward) None false
  else resolved.

Definition views_of (symbol : string) : res (TimeframeView * TimeframeView * TimeframeView) :=
  entry ← load_timeframe symbol (px_timeframe x);
  direction ← load_timeframe symbol "1h";
  state ← load_timeframe symbol "4h";
  Ok (entry, direction, state).

(** [None]: the market data is unavailable. *)
Definition prepare_traded (snapshot : _V2OperatorSnapshot) (settings : V2ExecutionSettings) (cycle_id symbol : string) :
    res (option Prepared) :=
  match views_of symbol with
  | Raise _ => Ok None
  | Ok (entry, direction, state) =>
      let '(ready, reason, _) := _entry_data_readiness (px_now x) entry (Some direction) (Some state) in
      let production := match _load_authorized_production_decision snapshot cycle_id symbol (px_now x) with
                        | Ok d => d | Raise _ => no_production_decision end in
      forward ← _load_authorized_forward_decision snapshot cycle_id symbol (px_now x) (px_mode x);
      Ok (Some (mkPrepared entry (Some direction) (Some state) (chosen_decision production forward)
                  (traded_authority settings production forward) ready reason))
  end.

Definition management_only (symbol : string) : bool := negb (bool_decide (symbol ∈ AUTO_SIMULATION_EXECUTION_SYMBOLS)).
Definition prepare (snapshot : _V2OperatorSnapshot) (settings : V2ExecutionSettings) (cycle_id symbol : string) :
    res (option Prepared) :=
  if management_only symbol then Ok (Some prepare_managed) else prepare_traded snapshot settings cycle_id symbol.

Definition funding_of (symbol : string) : FundingObservation :=
  if management_only symbol then mkFunding None None None "NOT_REQUIRED"
  else _load_funding_observation (latest_market_extras symbol (px_now x)) (px_now x).

Definition is_canary (p : Prepared) : bool := bool_decide (ea_authority (pp_authority p) = AUTH_TESTNET_CANARY).
Definition lane_of (p : Prepared) : CandidateLane := if is_canary p then TESTNET_SAMPLING else PRODUCTION.

Definition request_of (cycle_id decision_id symbol token : string) (settings : V2ExecutionSettings) (p : Prepared)
    (already_evaluated_bars : list datetime) : CycleRequest :=
  let funding := funding_of symbol in
  let authority := ea_authority (pp_authority p) in
  mkCycleRequest cycle_id symbol (pp_entry_timeframe p) (px_mode x) (px_activation x) token (px_now x)
    (pp_direction_timeframe p) (pp_state_timeframe p) (requested_sizing settings authority) ∅ already_evaluated_bars
    (pp_ready p) (pp_ready_reason p) (requested_kill_switch settings) false false None None
    (bool_decide (px_activation x = ACTIVE)) (Some decision_id) (vs_sampling_fallback_enabled settings)
    (if is_canary p then "2.1.0" else "2.0.0") (is_canary p) (if is_canary p then 2 else 0) authority
    (ea_reason (pp_authority p)) (sd_candidate (pp_decision p)) (sd_authorized (pp_decision p))
    (sd_decision_reason (pp_decision p)) (sd_trace_strategy (pp_decision p)) true (fo_raw_funding_bps funding)
    (fo_status funding).
End prepare.

(** ** The payload as a dictionary *)

Definition funnel_items (p : FunnelPayload) : PyDict :=
  [("lane", VStr (fy_lane p)); ("strategy_id", ostr_value (fy_strategy_id p)); ("terminal_stage", VStr (fy_terminal_stage p));
   ("terminal_outcome", ostr_value (fy_terminal_outcome p)); ("reason_code", VStr (fy_reason_code p));
   ("execution_policy", VStr (fy_execution_policy p)); ("entry_authority", VStr (fy_entry_authority p));
   ("entry_authorized", VBool (fy_entry_authorized p)); ("trading_state", VStr (fy_trading_state p));
   ("execution_blocker", ostr_value (fy_execution_blocker p)); ("promotion_eligible", VBool (fy_promotion_eligible p));
   ("candidate_key", ostr_value (fy_candidate_key p));
   ("strategy_terminal_reason", ostr_value (fy_strategy_terminal_reason p));
   ("system_failure_reason", ostr_value (fy_system_failure_reason p));
   ("entry_bar_retryable", VBool (fy_entry_bar_retryable p))]%string.

Definition text_or (p : PyDict) (key d : string) : string := py_str (py_or (py_get p key) (VStr d)).

(** The payload with what the decision was, as the pass records it. *)
Definition recorded_payload (p : PyDict) : PyDict :=
  dict_update p [("active_strategy_id", VStr (text_or p "strategy_id" "production_strategy_pending"));
                 ("active_decision", VStr (text_or p "terminal_stage" "UNKNOWN"));
                 ("active_terminal_reason", VStr (text_or p "reason_code" "UNKNOWN"))]%string.

(** ** The symbols of a pass *)

(** [try: m finally: k], where [k] itself does not raise. *)
Definition sfinally {S X} (m : SM S X) (k : SM S unit) : SM S X := fun s =>
  let '(r, s1) := m s in match k s1 with (Ok _, s2) => (r, s2) | (Raise e, s2) => (Raise e, s2) end.

Section pass.
Context {P : PassHost} {W : Type} {A : CycleAdapter W}.
Definition PS : Type := RecoveryExecutor.World (W := W) * PassState.

Definition in_pass {X} (m : SM (RecoveryExecutor.World (W := W)) X) : SM PS X := fun '(w, p) =>
  let '(r, w') := m w in (r, (w', p)).
Definition stored {X} (m : SM Session X) : SM PS X := in_pass (on_store m).
Definition locally (f : PassState -> PassState) : SM PS unit := fun '(w, p) => (Ok tt, (w, f p)).
Definition locals : SM PS PassState := fun '(w, p) => (Ok p, (w, p)).

Section symbols.
Context (x : PassContext).

Definition failed_symbol (r : SymbolResult) : SM PS unit := locally (result_added r) ;;; locally task_failed.

(** The evidence of a decision: an id and a number of shadow records, or a status. *)
Definition forward_baseline (request : CycleRequest) (decision_id : string) (result : CycleResult) (payload : PyDict) :
    SM PS (option (string * Z) * option string) :=
  if cq_entry_data_ready request then
    stry (let! snapshot := slift (decision_snapshot request decision_id result payload) in
          let! stored_snapshot := stored (_persist_forward_baseline build_shadow_records snapshot) in
          sret (Some stored_snapshot, None))
      (fun _ => Some (sret (None, Some "FORWARD_BASELINE_NOT_RECORDED"%string)))
  else sret (None, Some "ENTRY_DATA_NOT_READY"%string).

(** What follows a cycle that returned. *)
Definition finish_symbol (request : CycleRequest) (decision_id : string) (bar_timestamp : datetime) (p : Prepared)
    (result : CycleResult) : SM PS unit :=
  let symbol := cq_symbol request in
  let payload := recorded_payload
    (dict_update (payload_details request result) (from_option funnel_items [] (cr_funnel_payload result))) in
  let active_strategy_id := py_str (py_get payload "active_strategy_id") in
  let active_decision := py_str (py_get payload "active_decision") in
  let active_terminal_reason := py_str (py_get payload "active_terminal_reason") in
  let! completed_at := stored utc_now in
  let! finalized := stored (_finalize_v2_cycle_decision (cq_cycle_id request) decision_id symbol (px_timeframe x) bar_timestamp
                              (px_mode x) (cq_fencing_token request) payload completed_at) in
  let '(decision_id, payload) := finalized in
  let! evidence := forward_baseline request decision_id result payload in
  (if management_only symbol then sret tt
   else locally (research_added (mkPendingResearch decision_id (cq_cycle_id request) symbol bar_timestamp
          (pp_entry_timeframe p) active_strategy_id active_decision active_terminal_reason))) ;;;
  locally (result_added (mkSymbolResult symbol (cq_cycle_id request) "completed" None (Some decision_id)
    (fy_terminal_stage <$> cr_funnel_payload result) (Some (cr_reconciliation_status result)) (cr_entry_submitted result)
    evidence.1 evidence.2 (cq_production_authorized request) (cr_errors result))).

(** A prepared symbol: its cycle row, its request, its cycle. *)
Definition run_prepared (cycle_id symbol token : string) (settings : V2ExecutionSettings) (p : Prepared) : SM PS unit :=
  let settings := apply_testnet_canary_runtime_contract settings symbol (px_mode x) (ea_authority (pp_authority p))
                    (Some TESTNET_SAMPLING) in
  let bar_timestamp := match last_closed (pp_entry_timeframe p) with Some b => bar_timestamp b | None => px_bar_slot x end in
  let! decision_id := stored new_uuid in
  stry_else (stored (_ensure_v2_cycle cycle_id symbol (px_timeframe x) bar_timestamp (px_mode x) token))
    (fun _ => Some (failed_symbol (error_result symbol cycle_id None "cycle_persist_failed")))
    (fun _ =>
      let! evaluated := stored (_load_already_evaluated_bars symbol (px_timeframe x) (px_mode x) (lane_of p)) in
      let request := request_of x cycle_id decision_id symbol token settings p evaluated in
      stry_else (in_pass (run_automated_trading_cycle request))
        (fun _ => Some (failed_symbol (error_result symbol cycle_id None "cycle failed")))
        (finish_symbol request decision_id bar_timestamp p)).

Definition cycle_fencing_token (symbol cycle_id : string) : string :=
  (px_lease_name x +:+ ":" +:+ pretty (px_fencing_token x) +:+ ":" +:+ symbol +:+ ":" +:+ cycle_id)%string.

(** The operator's settings of the pass, or that they could not be read. *)
Definition OperatorSettings : Type := res (_V2OperatorSnapshot * list (string * V2ExecutionSettings)).

Definition run_symbol (operator : OperatorSettings) (symbol : string) : SM PS unit :=
  let! cycle_id := stored new_uuid in
  match operator with
  | Raise _ =>
      failed_symbol (error_result symbol cycle_id (Some ACTIVE_CONFIG_SNAPSHOT_CAPTURE_FAILED) "operator_profile_unavailable")
  | Ok (snapshot, settings_by_symbol) =>
      match List.find (fun e => String.eqb e.1 symbol) settings_by_symbol with
      | None => sraise (KeyError symbol)
      | Some (_, settings) =>
          let! prepared := slift (prepare x snapshot settings cycle_id symbol) in
          match prepared with
          | None => failed_symbol (error_result symbol cycle_id None "market_data_unavailable")
          | Some p => run_prepared cycle_id symbol (cycle_fencing_token symbol cycle_id) settings p
          end
      end
  end.

Fixpoint run_symbols (operator : OperatorSettings) (symbols : list string) : SM PS unit :=
  match symbols with
  | [] => sret tt
  | symbol :: symbols => run_symbol operator symbol ;;; run_symbols operator symbols
  end.

Definition load_operator_settings (symbols : list string) : OperatorSettings :=
  snapshot ← _load_v2_operator_snapshot list_paper_runs (fun run => activate_and_get run (px_scheduler_cycle_id x));
  settings ← settings_of (os_execution_profile snapshot) symbols;
  Ok (snapshot, settings).

(** ** Research after the pass *)

Definition _research_shadow_error_payload (e : PendingResearch) : PyDict :=
  [("schema_version", VStr "p1-same-cycle-research-shadow-v1"); ("status", VStr "RESEARCH_SHADOW_ERROR");
   ("lane", VStr "RESEARCH_SHADOW"); ("scheduler_session_id", VStr (co_instance_id (px_self x)));
   ("scheduler_cycle_id", VStr (px_scheduler_cycle_id x)); ("cycle_id", VStr (pe_cycle_id e)); ("symbol", VStr (pe_symbol e));
   ("bar_close_time", free_text); ("market_snapshot_reference", VNone);
   ("active_strategy_id", VStr (pe_active_strategy_id e)); ("active_decision", VStr (pe_active_decision e));
   ("active_terminal_reason", VStr (pe_active_terminal_reason e)); ("observations", VList "[]" []);
   ("error_class", free_text); ("safe_error_message", free_text); ("created_at", free_text)]%string.

Definition research_symbol (e : PendingResearch) : SM PS unit :=
  let! created_at := stored utc_now in
  let! research_shadow :=
    match same_cycle_research e (co_instance_id (px_self x)) (px_scheduler_cycle_id x) created_at with
    | Ok payload => sret payload
    | Raise _ => sret (_research_shadow_error_payload e)
    end in
  stry (stored (_append_research_shadow_payload (pe_decision_id e) research_shadow)) (fun _ => Some (sret tt)).
Fixpoint research_symbols (l : list PendingResearch) : SM PS unit :=
  match l with
  | [] => sret tt
  | e :: l => research_symbol e ;;; research_symbols l
  end.
End symbols.

(** ** Leases and claim *)

(** What a pass is bound to: mode, clock, slot and the names of its leases. *)
Definition slot_lease_name (mode : V2ExecutionMode) (bar_slot : datetime) : string :=
  ("automated_trading_v2:" +:+ mode_value mode +:+ ":" +:+ pretty (Z.quot bar_slot second))%string.
Definition writer_lease_name (mode : V2ExecutionMode) : string :=
  ("automated_trading_v2:" +:+ mode_value mode +:+ ":single_writer")%string.

Section leases.
Context (self : Coordinator).

Definition acquire (lease_name : string) (now : datetime) (ttl : Z) : SM PS bool := fun '(w, p) =>
  let '(acquired, d, tokens) := acquire_or_renew_lease self lease_name now ttl None (pa_coordination p) (pa_tokens p) in
  (Ok acquired, (w, coordination_is d tokens p)).
Definition read_token (lease_name : string) : SM PS (option Z) := fun '(w, p) =>
  let '(token, tokens) := fencing_token lease_name (pa_coordination p) (pa_tokens p) in
  (Ok token, (w, coordination_is (pa_coordination p) tokens p)).
Definition release (lease_name : string) : SM PS unit :=
  let! now := stored utc_now in
  locally (fun p => coordination_is (release_lease self lease_name None now (pa_coordination p) (pa_tokens p)) (pa_tokens p) p).
Definition claim (job_name : string) (scheduled_for : datetime) (cycle_source run_mode : string) (token : Z) : SM PS CycleClaim :=
  let! new_id := stored new_uuid in
  let! started_at := stored utc_now in
  fun '(w, p) =>
  let '(c, d) := claim_cycle self job_name scheduled_for cycle_source run_mode (Some token) new_id started_at
                   (pa_coordination p) (pa_tokens p) in
  (Ok c, (w, coordination_is d (pa_tokens p) p)).
Definition finish (cycle_id : string) : SM PS unit :=
  let! now := stored utc_now in
  locally (fun p => coordination_is
    (finish_cycle cycle_id (if pa_failed p then "failed" else "completed")
       (if pa_failed p then Some "one_or_more_symbol_cycles_failed"%string else None) now (pa_coordination p))
    (pa_tokens p) p).
End leases.

(** The loop over the symbols, and what always follows it. *)
Definition run_claimed (x : PassContext) (claim_owned_here : bool) (symbols : list string) : SM PS unit :=
  let operator := load_operator_settings x symbols in
  sfinally (slift (build_adapter (px_mode x)) ;;; run_symbols x operator symbols)
    ((if claim_owned_here then finish (px_scheduler_cycle_id x) else sret tt) ;;;
     release (px_self x) (px_lease_name x) ;;;
     release (px_self x) (px_writer_lease_name x)).

Definition invalid_symbols (mode : V2ExecutionMode) (requested : list string) : list string :=
  if bool_decide (mode = BINANCE_TESTNET)
  then sorted_texts (fromkeys (bfilter (fun s => negb (bool_decide (s ∈ AUTO_SIMULATION_EXECUTION_SYMBOLS))) requested))
  else [].

(** A pass that has claimed its slot. *)
Definition run_slot (x : PassContext) (claim_owned_here : bool) (requested : list string) : SM PS PassReport :=
  let invalid := invalid_symbols (px_mode x) requested in
  if is_nonempty invalid then sret (MANIFEST_EXECUTION_SYMBOL_SCOPE_MISMATCH invalid)
  else
  let! recovery_symbols := stored (_managed_symbols_requiring_recovery (px_mode x)) in
  let symbols := fromkeys (requested ++ recovery_symbols) in
  run_claimed x claim_owned_here symbols ;;;
  let! p := locals in
  research_symbols x (pa_pending p) ;;;
  sret (PASS_RAN (if pa_failed p then "partial_failure" else "completed") (px_scheduler_cycle_id x) symbols (pa_results p)).

(** ** The pass *)

Section request.
Context (q : RequestPayload) (canary_acceptance : bool) (cycle_source : string).

Definition observe_now (mode : V2ExecutionMode) : SM PS datetime :=
  match rp_observed_at q with
  | Some observed_at => slift observed_at
  | None => if bool_decide (mode = BINANCE_TESTNET) then slift fetch_binance_server_time else stored utc_now
  end.

Definition instance_of : SM PS Coordinator :=
  let! instance_id :=
    (if str_truthy (rp_scheduler_instance_id q) then sret (rp_scheduler_instance_id q)
     else let! id := stored new_uuid in
       sret ("v2:" +:+ gethostname +:+ ":" +:+ pretty getpid +:+ ":" +:+ str_take 12 (without "-"%char id))%string) in
  sret (mkCoordinator instance_id gethostname getpid app_build_id pid_lives).

(** The claim of the slot, unless the caller made it: its id and whose it is. *)
Definition claim_slot (x : PassContext) : SM PS (option (string * bool)) :=
  let preclaimed := strip (rp_scheduler_cycle_id q) in
  if str_truthy preclaimed then sret (Some (preclaimed, false))
  else
  let! c := claim (px_self x) (px_lease_name x) (px_bar_slot x) cycle_source (mode_value (px_mode x)) (px_fencing_token x) in
  sret (if cc_claimed c then (fun id => (id, true)) <$> cc_scheduler_cycle_id c else None).

Definition with_cycle_id (id : string) (x : PassContext) : PassContext :=
  mkPassContext (px_activation x) (px_mode x) (px_now x) (px_bar_slot x) (px_timeframe x) (px_lease_name x)
    (px_writer_lease_name x) (px_self x) (px_fencing_token x) id (px_canary_acceptance x).

Definition requested_symbols : list string := match rp_symbols q with [] => AUTO_SIMULATION_EXECUTION_SYMBOLS | l => l end.
Definition run_leased (x : PassContext) : SM PS PassReport :=
  let! claimed := claim_slot x in
  match claimed with
  | None => release (px_self x) (px_lease_name x) ;;; release (px_self x) (px_writer_lease_name x) ;;; sret DUPLICATE_SLOT_SKIPPED
  | Some (id, claim_owned_here) =>
      run_slot (with_cycle_id id x) claim_owned_here
        requested_symbols
  end.

Definition run_at (config : EngineActivationConfig) (now : datetime) : SM PS PassReport :=
  let mode := execution_mode config in
  let interval := match rp_interval q with Some i => if i =? 0 then paper_runtime_cycle_interval else i
                  | None => paper_runtime_cycle_interval end in
  sassert (negb (interval =? 0)) (OtherException "ZeroDivisionError") ;;;
  let bar_slot := _slot_start now interval in
  let lease_name := slot_lease_name mode bar_slot in
  let writer := writer_lease_name mode in
  let! self := instance_of in
  let lease_ttl := Z.max (90 * second) (interval * 3) in
  let! writing := acquire self writer now lease_ttl in
  if negb writing then sret ACTIVE_CYCLE_RUNNING
  else
  let! leading := acquire self lease_name now lease_ttl in
  if negb leading then release self writer ;;; sret STANDBY_NOT_LEADER
  else
  let! token := read_token lease_name in
  match token with
  | None => release self lease_name ;;; release self writer ;;; sret LEASE_LOST
  | Some token =>
      run_leased (mkPassContext (v2_activation config) mode now bar_slot
        (if str_truthy (rp_timeframe q) then rp_timeframe q else V2_CYCLE_TIMEFRAME) lease_name writer self token ""
        canary_acceptance)
  end.

Definition clock_unavailable : PyExc := OtherException "BinanceClockUnavailable".

Definition run_pass : SM PS PassReport :=
  let! config := slift (resolve_engine_activation settings) in
  if bool_decide (v2_activation config = DISABLED) then sret V2_DISABLED
  else
  stry_else (observe_now (execution_mode config))
    (fun e => if bool_decide (e = clock_unavailable) then Some (sret BINANCE_SERVER_TIME_UNAVAILABLE) else None)
    (run_at config).

(** A pass over the database and the coordinator's tables. *)
Definition _execute_v2_automated_trading_cycles :
    SM (RecoveryExecutor.World (W := W) * Coordination) PassReport := fun '(w, d) =>
  let '(r, (w', p)) := run_pass (w, started_pass d) in (r, (w', pa_coordination p)).
End request.

Definition execute_v2_automated_trading_cycles (q : RequestPayload) :
    SM (RecoveryExecutor.World (W := W) * Coordination) PassReport :=
  _execute_v2_automated_trading_cycles q (natural_testnet_mode_requested environ) "automated_trading_v2".

Definition execute_explicit_testnet_canary_acceptance (symbols : list string) :
    SM (RecoveryExecutor.World (W := W) * Coordination) PassReport :=
  _execute_v2_automated_trading_cycles
    (mkRequestPayload None None "" "" (match symbols with [] => AUTO_SIMULATION_EXECUTION_SYMBOLS | l => l end) "")
    true "explicit_testnet_canary_acceptance".
End pass.
