(* ===== verification/SchedulerLaws.v ===== *)
(** * SchedulerLaws: what a scheduler pass keeps

    A pass acts on the venue through [run_automated_trading_cycle] only, with the
    requests it builds; everything else it does is sessions on the database and the
    coordinator's tables.  What the cycles of lawful requests do is therefore what a
    pass does. *)
From S2P Require Import Prelude PyDecimal PyValue State ClientOrderId Receipts Candidates RuntimeLock Reconciliation Indicators.
From S2P Require Import Adapter AccountWriter BinanceAdapter Composition Database Repository Transactions Ledger ExchangeFirst.
From S2P Require Import RecoveryExecutor Evidence FactPersistence FactLaws SwitchLaws Entry Cycle CycleSteps CycleEntry CycleLaws CycleSafety CycleVenue.
From S2P Require Import RiskTiers OperatorProfile SchedulerCoordination SchedulerSteps SchedulerEntry.
Local Open Scope Z_scope.
Local Open Scope py_scope.

(** ** Sessions of the pass *)

Section sessions.
Context {H : CycleHost} (rel : Db -> Db -> Prop) `{!FactRel rel}.

Ltac evidence := apply fact_evidence; repeat split.
Ltac op c := apply moves_advance; [exact _|apply fact_ops, c].
Ltac adv1 :=
  lazymatch goal with
  | |- advances _ (sbind _ _) => apply advances_bind; [exact _| |intros ?]
  | |- advances _ commit => apply advances_commit; exact _
  | |- advances _ (match ?x with _ => _ end) => destruct x eqn:?
  | |- advances _ (create_cycle _ _ _ _ _ _) => op op_create_cycle
  | |- advances _ (complete_cycle _ _ _) => op op_complete_cycle
  | |- advances _ (create_decision _ _ _ _ _) => op op_create_decision
  | |- advances _ (assign (mkDecision _ _ _ _ _ _)) => apply moves_advance; [exact _|intros ?; apply moves_db; evidence]
  | |- advances _ (append_forward_snapshot _ _ _ _ _ _ _) =>
      apply moves_advance; [exact _|apply append_forward_snapshot_moves; exact _]
  | |- advances _ (append_shadow_records _ _) => apply moves_advance; [exact _|apply append_shadow_records_moves; exact _]
  | |- advances _ _ => apply quiet_advance; [exact _|solve [quiet_tac]]
  end.
Ltac session := apply moving_session; [exact _|]; cbv zeta; repeat adv1.

Lemma managed_moving mode : moving rel (_managed_symbols_requiring_recovery mode).
Proof. unfold _managed_symbols_requiring_recovery. session. Qed.
Lemma ensure_moving a b c d e f : moving rel (_ensure_v2_cycle a b c d e f).
Proof. unfold _ensure_v2_cycle. session. Qed.
Lemma evaluated_moving a b c d : moving rel (_load_already_evaluated_bars a b c d).
Proof. unfold _load_already_evaluated_bars. session. Qed.
Lemma finalize_moving a b c d e f g h i : moving rel (_finalize_v2_cycle_decision a b c d e f g h i).
Proof.
  intros d0. unfold _finalize_v2_cycle_decision. cbv zeta. apply preserves_bind; [apply preserves_lift|intros [reason payload]].
  apply preserves_bind; [|intros; apply preserves_ret]. revert d0. session.
Qed.
Lemma append_research_moving a b : moving rel (_append_research_shadow_payload a b).
Proof. unfold _append_research_shadow_payload. session. Qed.
Lemma baseline_moving f snapshot : moving rel (_persist_forward_baseline f snapshot).
Proof. unfold _persist_forward_baseline. session. Qed.
End sessions.

(** ** Lawful requests *)

Section requests.
Context {P : PassHost} (x : PassContext).

(** The view holds the last bar that closed before [now]. *)
Definition current (now : datetime) (seconds : Z) (v : TimeframeView) : Prop :=
  exists b, last_closed v = Some b /\ _latest_closed_timestamp now seconds <= bar_timestamp b.

(** Who lets a pass enter this candidate in a symbol: a production strategy that answers it
    and is authorized; on the testnet an authorized forward run that answers it, or the
    canary switch of the process with the symbol's sampling fallback, and then it is a
    candidate of this symbol. *)
Definition admitted (snapshot : _V2OperatorSnapshot) (settings : V2ExecutionSettings) (symbol : string) (c : TradeCandidate) :
    Prop :=
  (exists id d, _load_authorized_production_decision snapshot id symbol (px_now x) = Ok d /\
     sd_authorized d = true /\ sd_candidate d = Some c) \/
  (px_mode x = BINANCE_TESTNET /\ exists id d, _load_authorized_forward_decision snapshot id symbol (px_now x) (px_mode x) = Ok d /\
     sd_authorized d = true /\ sd_candidate d = Some c) \/
  (px_mode x = BINANCE_TESTNET /\ px_canary_acceptance x = true /\ vs_sampling_fallback_enabled settings = true /\
     tc_symbol c = symbol).

(** A pass may enter this candidate in a symbol: one it executes, whose three timeframes are
    current, under the operator's settings of the pass. *)
Record may_open (operator : OperatorSettings) (symbol : string) (c : TradeCandidate) : Prop := {
  mo_symbol : symbol ∈ AUTO_SIMULATION_EXECUTION_SYMBOLS;
  mo_fresh : exists entry direction state, views_of x symbol = Ok (entry, direction, state) /\
    current (px_now x) 900 entry /\ current (px_now x) 3600 direction /\ current (px_now x) 14400 state;
  mo_admitted : exists snapshot by_symbol settings, operator = Ok (snapshot, by_symbol) /\ (symbol, settings) ∈ by_symbol /\
    admitted snapshot settings symbol c }.

Record lawful (operator : OperatorSettings) (symbol : string) (q : CycleRequest) : Prop := {
  lw_activation : cq_engine_activation q = px_activation x;
  lw_persists : cq_persist_facts q = bool_decide (px_activation x = ACTIVE);
  lw_opens : forall c, cq_entry_data_ready q = true -> enterable q c -> may_open operator symbol c }.

Lemma not_behind now timeframe seconds v :
  behind (readiness_detail now timeframe seconds (Some v)) = false -> current now seconds v.
Proof.
  unfold behind, readiness_detail, current. simpl. destruct (last_closed v) as [b|]; simpl; [|done].
  intros Hb%Z.ltb_ge. by exists b.
Qed.

Lemma ready_current now entry direction state reason details :
  _entry_data_readiness now entry (Some direction) (Some state) = (true, reason, details) ->
  current now 900 entry /\ current now 3600 direction /\ current now 14400 state.
Proof.
  unfold _entry_data_readiness. simpl.
  destruct (behind (readiness_detail now "15m" 900 (Some entry))) eqn:E1; simpl; [done|].
  destruct (behind (readiness_detail now "1h" 3600 (Some direction))) eqn:E2; simpl; [done|].
  destruct (behind (readiness_detail now "4h" 14400 (Some state))) eqn:E3; simpl; [done|].
  intros _. split_and!; by eapply not_behind.
Qed.

Lemma traded_admitted snapshot settings id symbol production forward q c :
  (sd_authorized production = true -> _load_authorized_production_decision snapshot id symbol (px_now x) = Ok production) ->
  _load_authorized_forward_decision snapshot id symbol (px_now x) (px_mode x) = Ok forward ->
  cq_symbol q = symbol -> cq_entry_authority q = ea_authority (traded_authority x settings production forward) ->
  cq_production_candidate q = sd_candidate (chosen_decision production forward) ->
  enterable q c -> admitted snapshot settings symbol c.
Proof.
  intros Hp Hf Hs Ha Hd Hc. pose proof (fun E => sampled_symbol q c E Hc) as Hsym. unfold enterable in Hc. rewrite Ha in Hc, Hsym. rewrite Hd in Hc.
  unfold traded_authority, resolve_entry_authority, chosen_decision in Hc, Hsym. unfold admitted.
  destruct (sd_authorized production) eqn:Ep; cbn in Hc, Hsym.
  - left. destruct Hc as [Hc _]. exists id, production. by rewrite Hp.
  - right. destruct (bool_decide (px_mode x = BINANCE_TESTNET)) eqn:Em; cbn in Hc, Hsym; [apply bool_decide_eq_true in Em|done].
    destruct (sd_authorized forward) eqn:Ef; cbn in Hc, Hsym; [left; destruct Hc as [Hc _]; by eauto 6|].
    destruct (vs_sampling_fallback_enabled settings && px_canary_acceptance x) eqn:Ec; cbn in Hc, Hsym; [|done].
    apply andb_true_iff in Ec as [Es Ec]. right. split_and!; [done..|]. rewrite <- Hs. by apply Hsym.
Qed.

Lemma prepared_lawful snapshot by_symbol settings settings' id decision_id symbol token p bars :
  (symbol, settings) ∈ by_symbol -> prepare x snapshot settings id symbol = Ok (Some p) ->
  lawful (Ok (snapshot, by_symbol)) symbol (request_of x id decision_id symbol token settings' p bars).
Proof.
  unfold prepare, management_only. intros Hin E. split; [done|done|]. intros c Hready Hc.
  case_bool_decide as Hs; cbn [negb] in E.
  2: { injection E as <-. exfalso. revert Hc. unfold enterable, request_of, prepare_managed, resolve_entry_authority. cbn.
       by rewrite andb_false_r. }
  unfold prepare_traded in E. destruct (views_of x symbol) as [[[entry direction] state]|] eqn:Ev; [|done].
  destruct (_entry_data_readiness _ _ _ _) as [[ready reason] details] eqn:Er.
  set (production := match _load_authorized_production_decision _ _ _ _ with Ok d => d | Raise _ => _ end) in E.
  apply res_bind_ok in E as (forward & Ef & [= <-]). cbn in Hready. subst ready. split; [done| |].
  - exists entry, direction, state. split; [done|]. by eapply ready_current.
  - exists snapshot, by_symbol, settings. split_and!; [done|done|].
    eapply (traded_admitted snapshot settings id symbol production forward); [|exact Ef| | | |exact Hc]; try done.
    unfold production. by destruct (_load_authorized_production_decision _ _ _ _).
Qed.
End requests.

(** ** From cycles to a pass *)

Section takes.
Context {P : PassHost} {W : Type} {A : CycleAdapter W}.
Notation World := (RecoveryExecutor.World (W := W)).
Notation PS := (PS (W := W)).
Context (rel : Db -> Db -> Prop) `{!FactRel rel}.

(** What fresh ids and readings of the clock keep, and what the sessions keep. *)
Definition draws (Q : World -> Prop) : Prop := forall w s n, Q (w, s) -> Q (w, mkSession (s_committed s) (s_db s) n).
Definition follows (Q : World -> Prop) : Prop := forall w s s', Q (w, s) -> rel (s_committed s) (s_committed s') -> Q (w, s').
Notation kept Q := (preserves (fun ps : PS => Q ps.1)).
Lemma follows_draws Q : follows Q -> draws Q.
Proof. intros HQ w s n Hs. by eapply HQ. Qed.

Section kept.
Context (Q : World -> Prop) (HD : draws Q).

Lemma in_pass_kept {X} (m : SM World X) : preserves Q m -> kept Q (in_pass m).
Proof. intros Hm [w p] r [w' p'] Hw. unfold in_pass. destruct (m w) as [y w1] eqn:E. intros [= <- <- <-]. by eapply Hm. Qed.
Lemma locally_kept f : kept Q (locally (W := W) f).
Proof. by intros [w p] r [w' p'] Hw [= <- <- <-]. Qed.
Lemma locals_kept : kept Q (locals (W := W)).
Proof. by intros [w p] r [w' p'] Hw [= <- <- <-]. Qed.
Lemma failed_kept r : kept Q (failed_symbol (W := W) r).
Proof. apply preserves_bind; [apply locally_kept|intros; apply locally_kept]. Qed.

Lemma draw_id : kept Q (stored (W := W) new_uuid).
Proof. intros [[w s] p] r [w' p'] Hw [= <- <- <-]. by apply HD. Qed.
Lemma draw_time : kept Q (stored (W := W) utc_now).
Proof. intros [[w s] p] r [w' p'] Hw [= <- <- <-]. by apply HD. Qed.

Ltac pass1 :=
  lazymatch goal with
  | |- preserves _ (sret _) => apply preserves_ret
  | |- preserves _ (sraise _) => apply preserves_raise
  | |- preserves _ (slift _) => apply preserves_lift
  | |- preserves _ (sassert _ _) => apply preserves_assert
  | |- preserves _ (locally _) => apply locally_kept
  | |- preserves _ locals => apply locals_kept
  | |- preserves _ (failed_symbol _) => apply failed_kept
  | |- preserves _ (stored new_uuid) => apply draw_id
  | |- preserves _ (stored utc_now) => apply draw_time
  | |- preserves _ (stry _ _) => apply preserves_try; [|intros ? ? [= <-]]
  | |- preserves _ (sbind _ _) => apply preserves_bind; [|intros ?]
  | |- preserves _ (match ?y with _ => _ end) => destruct y eqn:?
  end.
Ltac pass_steps := cbv zeta; repeat pass1.

Lemma acquire_kept self name now ttl : kept Q (acquire (W := W) self name now ttl).
Proof.
  intros [w p] r [w' p'] Hw. unfold acquire. destruct (acquire_or_renew_lease _ _ _ _ _ _ _) as [[b d] t].
  by intros [= <- <- <-].
Qed.
Lemma token_kept name : kept Q (read_token (W := W) name).
Proof. intros [w p] r [w' p'] Hw. unfold read_token. destruct (fencing_token _ _ _). by intros [= <- <- <-]. Qed.
Lemma release_kept self name : kept Q (release (W := W) self name).
Proof. unfold release. pass_steps. Qed.
Lemma claim_kept self a b c d e : kept Q (claim (W := W) self a b c d e).
Proof.
  unfold claim. pass_steps. intros [w p] r [w' p'] Hw. destruct (claim_cycle _ _ _ _ _ _ _ _ _ _). by intros [= <- <- <-].
Qed.
Lemma finish_kept id : kept Q (finish (W := W) id).
Proof. unfold finish. pass_steps. Qed.

Context (HQ : follows Q).
Lemma stored_kept {X} (m : SM Session X) : moving rel m -> kept Q (stored m).
Proof. intros Hm. by apply in_pass_kept, (on_store_kept rel). Qed.
Lemma baseline_kept request decision_id result payload :
  kept Q (forward_baseline (W := W) request decision_id result payload).
Proof. unfold forward_baseline. pass_steps. apply stored_kept, baseline_moving; exact _. Qed.
Lemma finish_symbol_kept x request decision_id bar p result : kept Q (finish_symbol (W := W) x request decision_id bar p result).
Proof.
  unfold finish_symbol. pass_steps; [apply stored_kept, finalize_moving; exact _|apply baseline_kept].
Qed.
Lemma research_kept x l : kept Q (research_symbols (W := W) x l).
Proof.
  induction l as [|e l IH]; cbn [research_symbols]; [apply preserves_ret|]. apply preserves_bind; [|done].
  unfold research_symbol. pass_steps. apply stored_kept, append_research_moving; exact _.
Qed.

End kept.

(** However it ends, [m] takes what [Pre] holds of to what [Post] holds of. *)
Context (Pre Post : World -> Prop) (HPre : follows Pre) (HPost : follows Post) (HPP : forall w, Pre w -> Post w).
Definition leads {X} (m : SM PS X) : Prop := forall ps r ps', Pre ps.1 -> m ps = (r, ps') -> Post ps'.1.

Lemma leads_kept {X} (m : SM PS X) : kept Pre m -> leads m.
Proof. intros Hm ps r ps' Hp E. by eapply HPP, Hm. Qed.
Lemma leads_bind {X Y} (m : SM PS X) (f : X -> SM PS Y) : kept Pre m -> (forall a, leads (f a)) -> leads (sbind m f).
Proof.
  intros Hm Hf ps r ps' Hp [(a & ps1 & E1 & E2)|(e & E & ->)]%sbind_inv; [|by eapply HPP, Hm].
  eapply Hf; [|exact E2]. by eapply Hm.
Qed.
Lemma leads_else {X Y} (m : SM PS X) h (k : X -> SM PS Y) :
  kept Pre m -> (forall e m', h e = Some m' -> kept Pre m') -> (forall a ps ps1, m ps = (Ok a, ps1) -> leads (k a)) ->
  leads (stry_else m h k).
Proof.
  intros Hm Hh Hk ps r ps' Hp [(a & ps1 & E1 & E2)|(e & ps1 & E1 & E2)]%stry_else_inv; assert (Pre ps1.1) by (by eapply Hm).
  - eapply Hk; [exact E1| |exact E2]. done.
  - destruct (h e) as [m'|] eqn:Eh; [by eapply HPP, Hh|]. destruct E2 as [_ ->]. by apply HPP.
Qed.
Lemma leads_then_else {X Y} (m : SM PS X) h (k : X -> SM PS Y) :
  leads m -> (forall e m', h e = Some m' -> kept Post m') -> (forall a, kept Post (k a)) -> leads (stry_else m h k).
Proof.
  intros Hm Hh Hk ps r ps' Hp [(a & ps1 & E1 & E2)|(e & ps1 & E1 & E2)]%stry_else_inv; assert (Post ps1.1) by (by eapply Hm).
  - by eapply Hk.
  - destruct (h e) as [m'|] eqn:Eh; [by eapply Hh|]. by destruct E2 as [_ ->].
Qed.

Context (x : PassContext).
Context (operator : OperatorSettings) (symbol : string).
Context (Hcycle : forall q w r w', lawful x operator symbol q -> Pre w -> run_automated_trading_cycle q w = (r, w') -> Post w').

Lemma run_prepared_leads snapshot by_symbol settings id token settings' p :
  operator = Ok (snapshot, by_symbol) -> (symbol, settings) ∈ by_symbol ->
  prepare x snapshot settings id symbol = Ok (Some p) -> leads (run_prepared x id symbol token settings' p).
Proof.
  intros Eo Hin Ep. unfold run_prepared. cbv zeta. apply leads_bind; [by apply draw_id, follows_draws|intros decision_id].
  apply leads_else; [apply stored_kept, ensure_moving; [exact HPre|exact _]|intros e m' [= <-]; by apply failed_kept|intros _ _ _ _].
  apply leads_bind; [apply stored_kept, evaluated_moving; [exact HPre|exact _]|intros bars].
  apply leads_then_else.
  - intros [w s] r [w' s'] Hp. unfold in_pass. destruct (run_automated_trading_cycle _ w) as [y w1] eqn:E.
    intros [= <- <- <-]. eapply Hcycle; [|exact Hp|exact E]. rewrite Eo. by eapply prepared_lawful.
  - intros e m' [= <-]. by apply failed_kept.
  - intros result. apply finish_symbol_kept; [by apply follows_draws|done].
Qed.

Lemma run_symbol_leads : leads (run_symbol x operator symbol).
Proof.
  unfold run_symbol. apply leads_bind; [by apply draw_id, follows_draws|intros id].
  assert (exists o, operator = o) as [o0 Eo] by eauto. rewrite Eo. destruct o0 as [[snapshot by_symbol]|e]; [|apply leads_kept; by apply failed_kept].
  destruct (List.find _ by_symbol) as [[name settings]|] eqn:Ef; [|apply leads_kept, preserves_raise].
  apply find_some in Ef as [Hin%list_elem_of_In Hn]. apply String.eqb_eq in Hn. cbn in Hn. subst name.
  intros ps r ps' Hp [(o & ps1 & [Ep ->]%slift_inv & E2)|(e & [Ep ->]%slift_inv & ->)]%sbind_inv; [|by apply HPP].
  revert ps r ps' Hp E2. destruct o as [p|]; [by eapply run_prepared_leads|]. by apply leads_kept, failed_kept.
Qed.

End takes.

(** ** The pass *)

(** The symbols a pass runs: those requested, and those with a position to manage. *)
Definition managed_symbols (mode : V2ExecutionMode) (d : Db) : list string :=
  sorted_texts (fromkeys (map mp_symbol (bfilter (nonterminal mode) (positions d)))).
Definition pass_symbols {P : PassHost} (q : RequestPayload) (mode : V2ExecutionMode) (d : Db) : list string :=
  fromkeys (requested_symbols q ++ managed_symbols mode d).

Lemma managed_result {H : Host} mode s l s' :
  _managed_symbols_requiring_recovery mode s = (Ok l, s') -> l = managed_symbols mode (s_committed s).
Proof.
  unfold _managed_symbols_requiring_recovery, with_session, select, flush, sbind, sret. cbn.
  by destruct (constraints_ok (s_committed s)); intros [= <- <-].
Qed.

Lemma sfinally_inv {S X} (m : SM S X) k s r s' : sfinally m k s = (r, s') ->
  exists y s1 z, m s = (y, s1) /\ k s1 = (z, s') /\ r = match z with Ok _ => y | Raise e => Raise e end.
Proof.
  unfold sfinally. destruct (m s) as [y s1]. destruct (k s1) as [z s2] eqn:E. destruct z as [[]|e]; intros [= <- <-]; eauto 10.
Qed.

(** The time of a pass: the one it is given, the venue's on the testnet, else the host's. *)
Definition observed {P : PassHost} (q : RequestPayload) (mode : V2ExecutionMode) (now : datetime) : Prop :=
  match rp_observed_at q with
  | Some observed_at => observed_at = Ok now
  | None => if bool_decide (mode = BINANCE_TESTNET) then fetch_binance_server_time = Ok now else exists n, now = clock n
  end.

(** What every context of a pass has of its request and the settings. *)
Record of_pass {P : PassHost} (config : EngineActivationConfig) (canary : bool) (q : RequestPayload) (x : PassContext) : Prop := {
  op_activation : px_activation x = v2_activation config;
  op_mode : px_mode x = execution_mode config;
  op_canary : px_canary_acceptance x = canary;
  op_timeframe : px_timeframe x = if str_truthy (rp_timeframe q) then rp_timeframe q else V2_CYCLE_TIMEFRAME;
  op_now : observed q (execution_mode config) (px_now x) }.

Section pass.
Context {P : PassHost} {W : Type} {A : CycleAdapter W}.
Notation World := (RecoveryExecutor.World (W := W)).
Notation PS := (PS (W := W)).

(** What holds of the world when these symbols have been run. *)
Context (rel : Db -> Db -> Prop) `{!FactRel rel} (Q : list string -> World -> Prop).
Context (HQ : forall done, follows rel (Q done)) (Hmore : forall done symbol w, Q done w -> Q (done ++ [symbol]) w).
Context (config : EngineActivationConfig) (canary : bool) (q : RequestPayload).

(** One cycle of [symbol], in a pass that runs [symbols]. *)
Context (symbols : list string).
Context (Hcycle : forall x before symbol request w r w',
  of_pass config canary q x -> lawful x (load_operator_settings x symbols) symbol request -> Q before w ->
  run_automated_trading_cycle request w = (r, w') -> Q (before ++ [symbol]) w').

Lemma more l : forall before w, Q before w -> Q (before ++ l) w.
Proof.
  induction l as [|symbol l IH]; intros before w Hw; [by rewrite app_nil_r|].
  rewrite cons_middle, app_assoc. by apply IH, Hmore.
Qed.

Lemma run_symbols_leads x l : of_pass config canary q x -> forall before,
  leads (Q before) (Q (before ++ l)) (run_symbols x (load_operator_settings x symbols) l).
Proof.
  intros Hx. induction l as [|symbol l IH]; intros before ps r ps' Hn E.
  - injection E as _ <-. by rewrite app_nil_r.
  - cbn [run_symbols] in E. rewrite cons_middle, app_assoc.
    assert (leads (Q before) (Q (before ++ [symbol])) (run_symbol x (load_operator_settings x symbols) symbol)) as H1.
    { apply (run_symbol_leads rel); [apply HQ..|apply Hmore|]. intros request w r0 w' Hl. by apply (Hcycle x). }
    apply sbind_inv in E as [(a & ps1 & E1 & E2)|(e & E1 & ->)].
    + eapply IH; [|exact E2]. by eapply H1.
    + apply more. by eapply H1.
Qed.

Lemma closing_kept R x owned : draws R ->
  preserves (fun ps : PS => R ps.1)
    ((if owned : bool then finish (px_scheduler_cycle_id x) else sret tt) ;;;
     release (px_self x) (px_lease_name x) ;;; release (px_self x) (px_writer_lease_name x)).
Proof.
  intros HR. apply preserves_bind; [destruct owned; [by apply finish_kept|apply preserves_ret]|intros _].
  apply preserves_bind; [by apply release_kept|intros _]. by apply release_kept.
Qed.

Lemma run_claimed_leads x owned : of_pass config canary q x ->
  leads (Q []) (Q symbols) (run_claimed x owned symbols).
Proof.
  intros Hx ps r ps' Hp (y & ps1 & z & Er & Ec & _)%sfinally_inv.
  assert (Q symbols ps1.1) as H1; [|by eapply closing_kept, Ec; [eapply follows_draws, HQ|]].
  apply sbind_inv in Er as [(a & ps2 & [_ ->]%slift_inv & Er)|(e & [_ ->]%slift_inv & ->)].
  - by eapply (run_symbols_leads x symbols Hx []).
  - exact (more symbols [] _ Hp).
Qed.

(** What the tables are when the pass reads which symbols to manage. *)
Lemma run_slot_leads x owned d : of_pass config canary q x -> symbols = pass_symbols q (px_mode x) d ->
  leads (fun w => Q [] w /\ s_committed w.2 = d) (Q symbols) (run_slot x owned (requested_symbols q)).
Proof.
  intros Hx Hsym ps r ps' [Hp Hd] E. unfold run_slot in E. cbv zeta in E. destruct (is_nonempty _).
  { injection E as _ <-. exact (more symbols [] _ Hp). }
  apply sbind_inv in E as [(l & ps1 & E1 & E)|(e & E1 & ->)].
  - assert (l = managed_symbols (px_mode x) d) as ->.
    { destruct ps as [[w s] p]. unfold stored, in_pass, on_store in E1.
      destruct (_managed_symbols_requiring_recovery _ s) as [y s1] eqn:Em. injection E1 as -> _. simpl in Hd. subst d.
      by eapply managed_result. }
    apply (stored_kept rel (Q [])) in E1; [|apply HQ|by apply managed_moving|done].
    fold (pass_symbols q (px_mode x) d) in E. rewrite <- Hsym in E. assert (kept_after : forall X (m : SM PS X), preserves (fun ps => Q symbols ps.1) m ->
      forall r0 ps2, (run_claimed x owned symbols ;;; m) ps1 = (r0, ps2) -> Q symbols ps2.1).
    { intros X m Hm r0 ps2 [(a & ps3 & E2 & E3)|(e & E2 & ->)]%sbind_inv; [eapply Hm; [|exact E3]|];
        by eapply (run_claimed_leads x owned). }
    eapply kept_after, E. apply preserves_bind; [apply locals_kept|intros p]. apply preserves_bind; [|intros; apply preserves_ret].
    apply (research_kept rel); [by eapply follows_draws, HQ|apply HQ].
  - apply (more symbols []). by eapply (stored_kept rel (Q [])), E1; [apply HQ|apply managed_moving; exact _|].
Qed.

Lemma before_draws d : draws (fun w : World => Q [] w /\ s_committed w.2 = d).
Proof. intros w s n [Hs Hd]. split; [by eapply follows_draws; [exact _|apply HQ|]|done]. Qed.

Lemma observe_observes mode (ps : PS) now ps1 : observe_now q mode ps = (Ok now, ps1) -> observed q mode now.
Proof.
  unfold observe_now, observed. destruct (rp_observed_at q); [by intros [-> _]%slift_inv|].
  destruct (bool_decide (mode = BINANCE_TESTNET)); [by intros [-> _]%slift_inv|].
  destruct ps as [[w s] p]. intros [= <- _]. by eexists.
Qed.

(** Once its time is known, the pass takes its leases and claims its slot. *)
Lemma run_at_leads source d now : observed q (execution_mode config) now -> symbols = pass_symbols q (execution_mode config) d ->
  leads (fun w => Q [] w /\ s_committed w.2 = d) (Q symbols) (run_at q canary source config now).
Proof.
  intros Hnow Hsym. set (Pre := fun w : World => _ /\ _).
  assert (HD : draws Pre) by apply before_draws.
  assert (HPP : forall w, Pre w -> Q symbols w) by (intros w [Hw _]; exact (more symbols [] _ Hw)).
  unfold run_at. cbv zeta. apply (leads_bind Pre (Q symbols) HPP); [apply preserves_assert|intros _].
  apply (leads_bind Pre (Q symbols) HPP).
  { unfold instance_of. apply preserves_bind; [|intros; apply preserves_ret]. destruct (str_truthy _); [apply preserves_ret|].
    apply preserves_bind; [by apply draw_id|intros; apply preserves_ret]. }
  intros self. apply (leads_bind Pre (Q symbols) HPP); [apply acquire_kept|intros writing].
  destruct (negb writing); [apply leads_kept; [done|apply preserves_ret]|].
  apply (leads_bind Pre (Q symbols) HPP); [apply acquire_kept|intros leading].
  destruct (negb leading).
  { apply leads_kept; [done|]. apply preserves_bind; [by apply release_kept|intros; apply preserves_ret]. }
  apply (leads_bind Pre (Q symbols) HPP); [apply token_kept|intros [token|]].
  2: { apply leads_kept; [done|]. apply preserves_bind; [by apply release_kept|intros].
       apply preserves_bind; [by apply release_kept|intros; apply preserves_ret]. }
  unfold run_leased. apply (leads_bind Pre (Q symbols) HPP).
  { unfold claim_slot. destruct (str_truthy _); [apply preserves_ret|]. apply preserves_bind; [by apply claim_kept|].
    intros; apply preserves_ret. }
  intros [[id owned]|].
  2: { apply leads_kept; [done|]. apply preserves_bind; [by apply release_kept|intros].
       apply preserves_bind; [by apply release_kept|intros; apply preserves_ret]. }
  apply run_slot_leads; [by split|exact Hsym].
Qed.

Lemma run_pass_leads source d : resolve_engine_activation settings = Ok config -> symbols = pass_symbols q (execution_mode config) d ->
  leads (fun w => Q [] w /\ s_committed w.2 = d) (Q symbols) (run_pass q canary source).
Proof.
  intros Hconfig Hsym. set (Pre := fun w : World => _ /\ _).
  assert (HPP : forall w, Pre w -> Q symbols w) by (intros w [Hw _]; exact (more symbols [] _ Hw)).
  unfold run_pass. rewrite Hconfig. intros ps r ps' Hp [(a & ps1 & [[= ->] ->]%slift_inv & E)|(e & [[=] _]%slift_inv & _)]%sbind_inv.
  case_bool_decide; [injection E as _ <-; by apply HPP|]. revert ps r ps' Hp E.
  apply (leads_else Pre (Q symbols) HPP).
  - unfold observe_now. destruct (rp_observed_at q); [apply preserves_lift|]. case_bool_decide; [apply preserves_lift|].
    apply draw_time, before_draws.
  - intros e m'. case_bool_decide; [|done]. intros [= <-]. apply preserves_ret.
  - intros now ps ps1 E%observe_observes. by apply run_at_leads.
Qed.

Lemma pass_leads source w s d r w' d' : resolve_engine_activation settings = Ok config ->
  symbols = pass_symbols q (execution_mode config) (s_committed s) -> Q [] (w, s) ->
  _execute_v2_automated_trading_cycles q canary source ((w, s), d) = (r, (w', d')) -> Q symbols w'.
Proof.
  intros Hconfig Hsym Hq. unfold _execute_v2_automated_trading_cycles.
  destruct (run_pass _ _ _ _) as [y [w1 p]] eqn:E. intros [= <- <- <-].
  exact (run_pass_leads source (s_committed s) Hconfig Hsym (w, s, started_pass d) y (w1, p) (conj Hq eq_refl) E).
Qed.
End pass.

(** ** The ledger *)

Section ledger.
Context {P : PassHost} {W : Type} {A : CycleAdapter W}.

Lemma pass_moves_tables rel `{!FactRel rel} q canary source w s d r w' s' d' :
  _execute_v2_automated_trading_cycles q canary source ((w, s), d) = (r, ((w', s'), d')) ->
  rel (s_committed s) (s_committed s').
Proof.
  intros E. destruct (resolve_engine_activation settings) as [config|e] eqn:Hc.
  - eapply (pass_leads rel (fun _ w => rel (s_committed s) (s_committed w.2)) ltac:(intros _ w0 s0 s1 H0 H1; by etrans)
      ltac:(done) config canary q _) in E; [exact E| |exact Hc|reflexivity|reflexivity].
    intros x _ symbol request [w0 s0] r0 [w1 s1] _ _ H0 E0. etrans; [exact H0|]. by eapply cycle_moves_tables.
  - unfold _execute_v2_automated_trading_cycles, run_pass in E. rewrite Hc in E. injection E as _ _ <- _. reflexivity.
Qed.

(** C3. Whatever is requested and whatever the venue, the database and the strategies
    answer, a whole pass, failed symbols included, moves the committed lifecycles
    only by legal steps of the ledger, never changes or removes evidence, and
    leaves no position without a fill. *)
Theorem pass_keeps_the_ledger q canary source w s d r w' s' d' :
  _execute_v2_automated_trading_cycles q canary source ((w, s), d) = (r, ((w', s'), d')) ->
  rtc ledger_step (committed_lg s) (committed_lg s') /\ grows (s_committed s) (s_committed s').
Proof.
  intros E. split; [exact (pass_moves_tables ledger_rel _ _ _ _ _ _ _ _ _ _ E)|
    exact (pass_moves_tables grows _ _ _ _ _ _ _ _ _ _ E)].
Qed.
End ledger.

(** ** The venue *)

Section on_binance.
Context {P : PassHost} {W : Type} {V : VenueClient W} (cap : option AccountWriterCapability).
Notation St := (AState (W * list VenueEvent)).
#[local] Instance pass_on_binance : CycleAdapter St := binance_cycle_adapter (V := recorded V) cap.

(** An event of a symbol that does not open exposure, or that the pass begun at [s0] may send. *)
Definition pass_sanctioned (config : EngineActivationConfig) (canary : bool) (q : RequestPayload) (symbols : list string)
    (s0 s : Session) (symbol : string) (e : VenueEvent) : Prop :=
  reduces_risk e = false ->
  v2_activation config = ACTIVE /\
  (forall c, find_row (R := ControlRow) "global" (s_committed s0) = Some c -> ct_entry_enabled c = true) /\
  (exists x c, of_pass config canary q x /\ may_open x (load_operator_settings x symbols) symbol c /\ opens_for c e) /\
  forall rq accepted, e = EvCreateOrder rq accepted -> exists intent_id,
    entry_client_order_id intent_id 1 = Ok (rq_client_order_id rq) /\ intent_durable intent_id s.

(** The log is one part for each symbol. *)
Definition segmented (R : string -> list VenueEvent -> Prop) (symbols : list string) (l : list VenueEvent) : Prop :=
  exists segs, l = concat segs /\ Forall2 R symbols segs.

Lemma segmented_snoc R symbols symbol l seg : segmented R symbols l -> R symbol seg -> segmented R (symbols ++ [symbol]) (l ++ seg).
Proof.
  intros (segs & -> & Hs) Hseg. exists (segs ++ [seg]). rewrite concat_app. cbn. rewrite app_nil_r. split; [done|].
  apply Forall2_app; [done|]. by repeat constructor.
Qed.
Lemma segmented_impl (R R' : string -> list VenueEvent -> Prop) symbols l : (forall symbol seg, R symbol seg -> R' symbol seg) ->
  segmented R symbols l -> segmented R' symbols l.
Proof. intros Hi (segs & -> & Hs). exists segs. split; [done|]. eapply Forall2_impl; [exact Hs|done]. Qed.

Section segments.
Context (config : EngineActivationConfig) (canary : bool) (q : RequestPayload) (symbols : list string) (s0 : Session).

(** What the pass does for one symbol. *)
Definition part_of (s : Session) (symbol : string) (seg : list VenueEvent) : Prop :=
  exposes_at_most 1 1 seg /\ Forall (pass_sanctioned config canary q symbols s0 s symbol) seg.
Definition in_parts (before : list string) (w : RecoveryExecutor.World (W := St)) : Prop :=
  switch_kept (s_committed s0) (s_committed w.2) /\ segmented (part_of w.2) before (log w.1).

Lemma part_later s s' symbol seg : ledger_rel (s_committed s) (s_committed s') -> part_of s symbol seg -> part_of s' symbol seg.
Proof.
  intros Hr [Ho Hl]. split; [done|]. eapply Forall_impl; [exact Hl|]. intros e He Hn. destruct (He Hn) as (H1 & H2 & H3 & H4).
  split_and!; [done..|]. intros rq ok E. destruct (H4 rq ok E) as (id & Hid & Hd). exists id. split; [done|]. by eapply durable_kept.
Qed.
Lemma in_parts_later before : follows (both ledger_rel switch_kept) (in_parts before).
Proof.
  intros w s s' [Hk Hl] [Hr Hs]. split; [by etrans|]. eapply segmented_impl; [|exact Hl]. intros symbol seg. by apply part_later.
Qed.
Lemma in_parts_more before symbol w : in_parts before w -> in_parts (before ++ [symbol]) w.
Proof.
  intros [Hk Hl]. split; [done|]. rewrite <- (app_nil_r (log w.1)). apply segmented_snoc; [done|]. by split; [|constructor].
Qed.

(** What a lawful cycle adds is the part of its symbol. *)
Lemma cycle_part x symbol request w s r w' s' l1 : of_pass config canary q x ->
  lawful x (load_operator_settings x symbols) symbol request -> switch_kept (s_committed s0) (s_committed s) ->
  run_automated_trading_cycle request (w, s) = (r, (w', s')) -> log w' = log w ++ l1 ->
  Forall (sanctioned (canary_request request) s s') l1 -> part_of s' symbol l1.
Proof.
  intros Hx Hl Hk E El E1. split.
  - apply (cycle_exposes_once cap (zcount opens (log w)) (zcount sets_leverage (log w)) _ _ _ _ _) in E; [|by split].
    unfold exposes_at_most in *. cbn [fst] in E. rewrite El, !zcount_app in E. lia.
  - eapply Forall_impl; [exact E1|]. intros e He Hn. destruct (canary_request_kept request) as (Ea & Ed & Ep & Ec).
    destruct (He Hn) as ((H1 & H2) & (c & Hc & Hf) & H3 & H4). rewrite Ec in Hc. rewrite Ea, Ed, Ep in *.
    assert (px_activation x = ACTIVE) as Ha by by rewrite <- (lw_activation _ _ _ _ Hl).
    assert (cq_persist_facts request = true) as Hp by (rewrite (lw_persists _ _ _ _ Hl), Ha; by apply bool_decide_eq_true).
    split_and!; [by rewrite <- (op_activation _ _ _ _ Hx)| |exists x, c; split_and!; [done|by apply Hl|done]|].
    + intros c0 Hc0. apply Hk in Hc0. destruct (H3 Hp) as (c1 & Hc1 & Hen). unfold entries_enabled in *. cbn in *. congruence.
    + intros rq ok Ee. destruct (H4 rq ok Ee) as (id & Hid & Hd). exists id. split; [done|]. by apply Hd.
Qed.
Lemma cycle_in_parts x before symbol request w r w' : of_pass config canary q x ->
  lawful x (load_operator_settings x symbols) symbol request -> in_parts before w ->
  run_automated_trading_cycle request w = (r, w') -> in_parts (before ++ [symbol]) w'.
Proof.
  destruct w as [w s], w' as [w' s']. intros Hx Hl [Hk Hw] E. cbn [fst snd] in *.
  pose proof (cycle_moves_tables (both ledger_rel switch_kept) _ _ _ _ _ E) as [Hr Hs]. cbn [fst snd] in *.
  pose proof (cycle_sanctioned cap _ _ _ _ _ E) as (l1 & El & E1). cbn [fst snd] in El, E1.
  split; cbn [fst snd]; [by etrans|]. rewrite El. apply segmented_snoc; [|by eapply cycle_part].
  eapply segmented_impl; [|exact Hw]. intros symbol' seg. by apply part_later.
Qed.
End segments.

Lemma pass_in_parts q canary source config b w s d r w' d' : resolve_engine_activation settings = Ok config ->
  _execute_v2_automated_trading_cycles q canary source (((b, (w, [])), s), d) = (r, (w', d')) ->
  let symbols := pass_symbols q (execution_mode config) (s_committed s) in
  segmented (part_of config canary q symbols s w'.2) symbols (log w'.1).
Proof.
  intros Hc E symbols. eapply (pass_leads (both ledger_rel switch_kept) (in_parts config canary q symbols s)
    ltac:(intros; apply in_parts_later) ltac:(intros; by apply in_parts_more) config canary q symbols) in E;
    [exact (proj2 E)| |exact Hc|done|].
  - intros x before symbol request w0 r0 w1. apply cycle_in_parts.
  - split; [reflexivity|]. by exists [].
Qed.

(** C1. Whatever a pass is asked for and whatever the venue, the strategies and the
    market data answer: its log is one part for each symbol it runs, in their order, and
    if the part of a symbol changes a leverage or holds an order that is not
    reduce-only, then the engine is ACTIVE, no disabled switch was in the database as the
    pass began, and the event is for a candidate that this pass admits in this symbol:
    the symbol is of the configured execution universe, the three timeframes read for it
    hold their last closed bars at the time of the pass, and the candidate is the answer
    of an authorized production strategy for the symbol, or on the testnet of an
    authorized forward run, or one of the symbol itself under the canary switch of the
    process and the sampling fallback of the operator's settings.  The order carries the
    client id of an intent that is durable when the pass ends. *)
Theorem pass_opens_under_authority q canary source config b w s d r b' w' l s' d' :
  resolve_engine_activation settings = Ok config ->
  _execute_v2_automated_trading_cycles q canary source (((b, (w, [])), s), d) = (r, (((b', (w', l)), s'), d')) ->
  let symbols := pass_symbols q (execution_mode config) (s_committed s) in
  exists segs, l = concat segs /\ Forall2 (fun symbol seg => forall e, e ∈ seg -> reduces_risk e = false ->
    v2_activation config = ACTIVE /\
    (forall c, find_row (R := ControlRow) "global" (s_committed s) = Some c -> ct_entry_enabled c = true) /\
    (exists x c, of_pass config canary q x /\ may_open x (load_operator_settings x symbols) symbol c /\ opens_for c e) /\
    forall rq accepted, e = EvCreateOrder rq accepted -> exists intent_id,
      entry_client_order_id intent_id 1 = Ok (rq_client_order_id rq) /\ intent_durable intent_id s') symbols segs.
Proof.
  intros Hc E symbols. apply (pass_in_parts _ _ _ _ _ _ _ _ _ _ _ Hc) in E as (segs & El & Hs). exists segs. split; [exact El|].
  eapply Forall2_impl; [exact Hs|]. intros symbol seg [_ Hp] e He. exact (proj1 (Forall_forall _ _) Hp e He).
Qed.

(** The orders that can open a position, and the leverage changes, in one market. *)
Definition opens_in (symbol : string) (e : VenueEvent) : bool :=
  match e with EvCreateOrder rq _ => negb (rq_reduce_only rq) && String.eqb (rq_symbol rq) symbol | _ => false end.
Definition sets_leverage_in (symbol : string) (e : VenueEvent) : bool :=
  match e with EvSetLeverage _ venue_symbol _ => String.eqb venue_symbol symbol | _ => false end.

(** The strategies answer candidates of the symbol they are asked about. *)
Definition answers_own_symbol : Prop := forall snapshot id symbol now d c, sd_candidate d = Some c ->
  (_load_authorized_production_decision snapshot id symbol now = Ok d -> tc_symbol c = symbol) /\
  (forall mode, _load_authorized_forward_decision snapshot id symbol now mode = Ok d -> tc_symbol c = symbol).

Lemma admitted_symbol x operator symbol c : answers_own_symbol -> may_open x operator symbol c -> tc_symbol c = symbol.
Proof.
  intros Ha [_ _ (snapshot & by_symbol & st & _ & _ & [(id & d & E & _ & Ed)|[(_ & id & d & E & _ & Ed)|(_ & _ & _ & ->)]])]; [| |done];
    destruct (Ha snapshot id symbol (px_now x) d c Ed) as [H1 H2]; [by apply H1|by eapply H2].
Qed.

(** What occurs at most once in the part of one symbol only occurs at most once. *)
Lemma segments_once (R : string -> list VenueEvent -> Prop) f v symbols segs : NoDup symbols -> Forall2 R symbols segs ->
  (forall symbol seg, R symbol seg -> zcount f seg <= 1 /\ forall e, e ∈ seg -> f e = true -> symbol = v) ->
  zcount f (concat segs) <= if bool_decide (v ∈ symbols) then 1 else 0.
Proof.
  intros Hnd Hs Hf. induction Hs as [|symbol seg symbols segs Hr Hs IH]; [done|]. apply NoDup_cons in Hnd as [Hn Hnd].
  specialize (IH Hnd). cbn [concat]. rewrite zcount_app. destruct (Hf _ _ Hr) as [H1 Hv]. destruct (decide (symbol = v)) as [->|Hne].
  - rewrite (bool_decide_eq_false_2 _ Hn) in IH. rewrite bool_decide_eq_true_2 by (by left). lia.
  - rewrite (zcount_nil f seg).
    2: { intros e He. destruct (f e) eqn:Ee; [|done]. by destruct Hne, (Hv e He Ee). }
    assert (bool_decide (v ∈ symbol :: symbols) = bool_decide (v ∈ symbols)) as -> by (apply bool_decide_ext; set_solver). lia.
Qed.

Lemma part_once config canary q symbols s0 s v symbol seg : answers_own_symbol ->
  part_of config canary q symbols s0 s symbol seg ->
  (zcount (opens_in v) seg <= 1 /\ forall e, e ∈ seg -> opens_in v e = true -> symbol = v) /\
  (zcount (sets_leverage_in v) seg <= 1 /\ forall e, e ∈ seg -> sets_leverage_in v e = true -> symbol = v).
Proof.
  intros Ha [[Ho Hl] Hp]. assert (forall e, e ∈ seg -> reduces_risk e = false -> exists c, tc_symbol c = symbol /\ opens_for c e) as He.
  { intros e He Hn. destruct (proj1 (Forall_forall _ _) Hp e He Hn) as (_ & _ & (x & c & _ & Hm & Hf) & _).
    exists c. split; [|done]. by eapply admitted_symbol. }
  split; split.
  - etrans; [apply (zcount_le _ opens)|exact Ho]. intros []; cbn; try done. by intros [? _]%andb_true_iff.
  - intros e Hin. destruct e as [| |rq ok| |]; cbn; try done. intros [Hr%negb_true_iff Hs%String.eqb_eq]%andb_true_iff.
    destruct (He _ Hin Hr) as (c & <- & Hc & _). by rewrite <- Hc, Hs.
  - etrans; [apply (zcount_le _ sets_leverage)|exact Hl]. by intros [].
  - intros e Hin. destruct e as [|lev sym ok| | |]; cbn; try done. intros Hs%String.eqb_eq.
    destruct (He _ Hin eq_refl) as (c & <- & Hc). by rewrite <- Hc, Hs.
Qed.

(** C2. Every order, cancellation and leverage change of a pass reaches the venue
    under the lease of the account.  For each symbol it runs, the requested ones and
    those with a position to manage, a pass creates at most one order that can open a
    position and sets the leverage at most once, for a candidate that it admits in that
    symbol; and when the strategies answer candidates of the symbol they are asked about, at most one such
    order and one such change reach each market of the venue, and none a market that the
    pass does not run. *)
Theorem pass_opens_once_per_symbol q canary source config b w s d r b' w' l s' d' :
  resolve_engine_activation settings = Ok config ->
  _execute_v2_automated_trading_cycles q canary source (((b, (w, [])), s), d) = (r, (((b', (w', l)), s'), d')) ->
  let symbols := pass_symbols q (execution_mode config) (s_committed s) in
  fenced cap l /\
  segmented (fun symbol seg => zcount opens seg <= 1 /\ zcount sets_leverage seg <= 1 /\
    forall e, e ∈ seg -> reduces_risk e = false -> exists x c, of_pass config canary q x /\
      may_open x (load_operator_settings x symbols) symbol c /\ opens_for c e) symbols l /\
  (answers_own_symbol -> forall v,
     zcount (opens_in v) l <= (if bool_decide (v ∈ symbols) then 1 else 0) /\
     zcount (sets_leverage_in v) l <= (if bool_decide (v ∈ symbols) then 1 else 0)).
Proof.
  intros Hc E symbols. pose proof (pass_in_parts _ _ _ _ _ _ _ _ _ _ _ Hc E) as Hparts. cbn in Hparts. split; [|split].
  - eapply (pass_leads ledger_rel (fun _ w => fenced cap (log w.1)) ltac:(by intros ? ? ? ?) ltac:(done) config canary q symbols) in E;
      [exact E| |exact Hc|done|intros pre e post Hp; by destruct pre].
    intros x _ symbol request [w0 s0] r0 w1 _ _ H0 E0. exact (cycle_fenced cap _ _ _ _ _ H0 E0).
  - eapply segmented_impl; [|exact Hparts]. intros symbol seg [[Ho Hl] Hp]. split_and!; [exact Ho|exact Hl|].
    intros e He Hn. by destruct (proj1 (Forall_forall _ _) Hp e He Hn) as (_ & _ & Hx & _).
  - intros Ha v. destruct Hparts as (segs & El & Hs). cbn in El. subst l. assert (NoDup symbols) as Hnd by apply NoDup_fromkeys.
    split; (eapply segments_once; [exact Hnd|exact Hs|]); intros symbol seg Hp; by apply (part_once config canary q symbols s s').
Qed.
End on_binance.
