(* ===== verification/SchedulerRules.v ===== *)
(** * SchedulerRules: what a scheduler pass reports and remembers

    One result per symbol, a slot that is finished and leases that are released;
    one reason per decision; bars that are not evaluated twice.  The last section
    holds what a pass leaves behind when it ends early. *)
From S2P Require Import Prelude PyDecimal PyValue State ClientOrderId Receipts Candidates RuntimeLock Reconciliation Indicators.
From S2P Require Import Database Repository Transactions FactRules RecoveryExecutor Cycle CycleSteps CycleRun CycleEntry RiskTiers OperatorProfile.
From S2P Require Import SchedulerCoordination SchedulerSteps SchedulerEntry SchedulerLaws.
From S2P Require Ledger.
From stdpp Require Import pretty.
Local Open Scope Z_scope.
Local Open Scope py_scope.

(** ** The local variables of a pass *)

Section locals.
Context {P : PassHost} {W : Type} {A : CycleAdapter W}.
Notation PS := (PS (W := W)).

(** Programs that leave the local variables as they are. *)
Definition still {X} (m : SM PS X) : Prop := forall ps r ps', m ps = (r, ps') -> ps'.2 = ps.2.

Lemma in_pass_still {X} (m : SM (RecoveryExecutor.World (W := W)) X) : still (in_pass m).
Proof. intros [w p] r ps'. unfold in_pass. destruct (m w). by intros [= <- <-]. Qed.
Lemma still_ret {X} (y : X) : still (sret y).
Proof. by intros ps r ps' [= <- <-]. Qed.
Lemma still_lift {X} (y : res X) : still (slift y).
Proof. by intros ps r ps' [= <- <-]. Qed.
Lemma still_bind {X Y} (m : SM PS X) (f : X -> SM PS Y) : still m -> (forall a, still (f a)) -> still (sbind m f).
Proof.
  intros Hm Hf ps r ps' [(a & ps1 & E1 & E2)|(e & E & ->)]%sbind_inv; [|by eapply Hm].
  by rewrite (Hf _ _ _ _ E2), (Hm _ _ _ E1).
Qed.
Lemma still_try {X} (m : SM PS X) h : still m -> (forall e k, h e = Some k -> still k) -> still (stry m h).
Proof.
  intros Hm Hh ps r ps' [(a & E & _)|(e & ps1 & E1 & E2)]%stry_inv; [by eapply Hm|].
  destruct (h e) as [k|] eqn:Eh; [by rewrite (Hh _ _ Eh _ _ _ E2), (Hm _ _ _ E1)|]. destruct E2 as [_ ->]. by eapply Hm.
Qed.
Lemma baseline_still request decision_id result payload : still (forward_baseline (W := W) request decision_id result payload).
Proof.
  unfold forward_baseline. destruct (cq_entry_data_ready request); [|apply still_ret].
  apply still_try; [|intros e k [= <-]; apply still_ret]. apply still_bind; [apply still_lift|intros].
  apply still_bind; [apply in_pass_still|intros; apply still_ret].
Qed.

(** What a symbol adds: nothing to the leases, and one result if it returns. *)
Definition one_result (symbol : string) (p : PassState) (r : res unit) (p' : PassState) : Prop :=
  pa_coordination p' = pa_coordination p /\ pa_tokens p' = pa_tokens p /\
  (r = Ok tt -> exists y, pa_results p' = pa_results p ++ [y] /\ sy_symbol y = symbol /\ pa_failed p' = pa_failed p || is_error y) /\
  (forall e, r = Raise e -> pa_results p' = pa_results p /\ pa_failed p' = pa_failed p).

Lemma raise_nothing symbol p e : one_result symbol p (Raise e) p.
Proof. by repeat split. Qed.
Lemma failed_one symbol cycle_id code error (ps : PS) r ps' :
  failed_symbol (error_result symbol cycle_id code error) ps = (r, ps') -> one_result symbol ps.2 r ps'.2.
Proof.
  destruct ps as [w p]. intros [= <- <-]. split_and!; [done|done| |done]. intros _.
  exists (error_result symbol cycle_id code error). split_and!; [done|done|]. simpl. by rewrite orb_true_r.
Qed.

Lemma finish_symbol_one x request decision_id bar p result (ps : PS) r ps' :
  finish_symbol x request decision_id bar p result ps = (r, ps') -> one_result (cq_symbol request) ps.2 r ps'.2.
Proof.
  unfold finish_symbol. cbv zeta. intros [(t & ps1 & E1 & E)|(e & E & ->)]%sbind_inv;
    [apply in_pass_still in E1|apply in_pass_still in E; rewrite E; apply raise_nothing].
  apply sbind_inv in E as [(f & ps2 & E2 & E)|(e & E & ->)]; [apply in_pass_still in E2|].
  2: { apply in_pass_still in E. rewrite E, E1. apply raise_nothing. }
  destruct f as [id payload']. apply sbind_inv in E as [(ev & ps3 & E3 & E)|(e & E & ->)]; [apply baseline_still in E3|].
  2: { apply baseline_still in E. rewrite E, E2, E1. apply raise_nothing. }
  rewrite <- E1, <- E2, <- E3. destruct ps3 as [w3 p3]. simpl in *. clear -E.
  unfold sbind, locally, sret in E. destruct (management_only (cq_symbol request)); injection E as <- <-;
    (split_and!; [done|done| |done]; intros _; eexists; split_and!; [reflexivity|done|by rewrite orb_false_r]).
Qed.

Lemma run_prepared_one x id symbol token settings p (ps : PS) r ps' :
  run_prepared x id symbol token settings p ps = (r, ps') -> one_result symbol ps.2 r ps'.2.
Proof.
  unfold run_prepared. cbv zeta. intros [(t & ps1 & E1 & E)|(e & E & ->)]%sbind_inv;
    [apply in_pass_still in E1|apply in_pass_still in E; rewrite E; apply raise_nothing].
  rewrite <- E1. clear E1. apply stry_else_inv in E as [(u & ps2 & E2 & E)|(e & ps2 & E2 & E)];
    apply in_pass_still in E2; rewrite <- E2; clear E2; [|by eapply failed_one].
  apply sbind_inv in E as [(bars & ps3 & E3 & E)|(e & E & ->)]; [|apply in_pass_still in E; rewrite E; apply raise_nothing].
  apply in_pass_still in E3. rewrite <- E3. clear E3.
  apply stry_else_inv in E as [(u' & ps4 & E4 & E)|(e & ps4 & E4 & E)]; apply in_pass_still in E4; rewrite <- E4; clear E4.
  - exact (finish_symbol_one _ _ _ _ _ _ _ _ _ E).
  - by eapply failed_one.
Qed.

Lemma run_symbol_one x operator symbol (ps : PS) r ps' :
  run_symbol x operator symbol ps = (r, ps') -> one_result symbol ps.2 r ps'.2.
Proof.
  unfold run_symbol. intros [(id & ps1 & E1 & E)|(e & E & ->)]%sbind_inv;
    [apply in_pass_still in E1|apply in_pass_still in E; rewrite E; apply raise_nothing].
  rewrite <- E1. clear E1. destruct operator as [[snapshot by_symbol]|e]; [|by eapply failed_one].
  destruct (List.find _ by_symbol) as [[name settings]|]; [|injection E as <- <-; apply raise_nothing].
  apply sbind_inv in E as [(o & ps2 & [_ ->]%slift_inv & E)|(e & [_ ->]%slift_inv & ->)]; [|apply raise_nothing].
  destruct o as [p|]; [by eapply run_prepared_one|by eapply failed_one].
Qed.

(** The leases of the pass stay as they are while its symbols run. *)
Lemma run_symbols_results x operator symbols (ps : PS) r ps' :
  run_symbols x operator symbols ps = (r, ps') ->
  pa_coordination ps'.2 = pa_coordination ps.2 /\ pa_tokens ps'.2 = pa_tokens ps.2 /\
  exists l, pa_results ps'.2 = pa_results ps.2 ++ l /\ pa_failed ps'.2 = pa_failed ps.2 || existsb is_error l /\
    map sy_symbol l `prefix_of` symbols /\ (r = Ok tt -> map sy_symbol l = symbols).
Proof.
  revert ps. induction symbols as [|symbol symbols IH]; intros ps.
  - intros [= <- <-]. split_and!; [done|done|]. exists []. rewrite app_nil_r, orb_false_r. by split_and!.
  - cbn [run_symbols]. intros [([] & ps1 & E1 & E2)|(e & E & ->)]%sbind_inv.
    + apply run_symbol_one in E1 as (H1 & H2 & H3 & _). destruct (H3 eq_refl) as (y & Hy1 & Hy2 & Hy3).
      apply IH in E2 as (G1 & G2 & l & G3 & G4 & G5 & G6). rewrite G1, G2, H1, H2. split_and!; [done|done|].
      exists (y :: l). rewrite G3, G4, Hy1, Hy3, <- app_assoc. simpl. rewrite orb_assoc, Hy2. split_and!; [done|done| |].
      * by apply prefix_cons.
      * intros Hr. by rewrite G6.
    + apply run_symbol_one in E as (H1 & H2 & _ & H4). destruct (H4 e eq_refl) as [H5 H6]. split_and!; [done|done|].
      exists []. rewrite app_nil_r, orb_false_r. split_and!; [done|done|apply prefix_nil|done].
Qed.
End locals.

(** ** The leases of a pass *)

(** The coordinator has the lease, and remembers its token. *)
Definition held_by (self : Coordinator) (d : Coordination) (tokens : gmap string Z) (name : string) : Prop :=
  exists l, leases d !! name = Some l /\ own self l = true /\ tokens !! name = Some (sl_fencing_token l).

Lemma acquired_held self name now ttl d tokens d' tokens' :
  acquire_or_renew_lease self name now ttl None d tokens = (true, d', tokens') ->
  scheduler_cycles d' = scheduler_cycles d /\
  forall n, n = name \/ held_by self d tokens n -> held_by self d' tokens' n.
Proof.
  unfold acquire_or_renew_lease.
  assert (forall t, own self (held_lease self name now ttl t) = true) as Hown by (intros; apply String.eqb_refl).
  assert (forall t d0, let d1 := with_leases (<[name := held_lease self name now ttl t]> (leases d0)) d0 in
    forall n, n = name \/ held_by self d0 tokens n -> held_by self d1 (<[name := t]> tokens) n) as Hput.
  { intros t d0 d1 n Hn. unfold held_by. destruct (decide (n = name)) as [->|Hne].
    - exists (held_lease self name now ttl t). unfold d1. simpl. by rewrite !lookup_insert_eq.
    - destruct Hn as [|(l & H1 & H2 & H3)]; [done|]. exists l. unfold d1. simpl. by rewrite !lookup_insert_ne. }
  unfold acquire_write. destruct (leases d !! name) as [l|] eqn:El.
  - unfold token_mismatch. rewrite andb_false_r. destruct (own self _ || _); [|done]. intros [= <- <-]. split; [done|]. apply Hput.
  - intros [= <- <-]. split; [done|]. apply Hput.
Qed.

Lemma token_read_held self name d tokens t tokens' n :
  fencing_token name d tokens = (Some t, tokens') -> held_by self d tokens n -> held_by self d tokens' n.
Proof.
  unfold fencing_token. destruct (leases d !! name) as [l|] eqn:El; [|done]. intros [= <- <-] (l' & H1 & H2 & H3).
  exists l'. split_and!; [done|done|]. destruct (decide (n = name)) as [->|]; [rewrite lookup_insert_eq; congruence|].
  by rewrite lookup_insert_ne.
Qed.

(** The lease ends at a reading of the host's clock. *)
Definition released {H : Host} (d : Coordination) (name : string) : Prop :=
  exists l k, leases d !! name = Some l /\ sl_expires_at l = clock k.

Lemma release_released {H : Host} self name k d tokens :
  held_by self d tokens name -> released (release_lease self name None (clock k) d tokens) name.
Proof.
  intros (l & Hl & Ho & Ht). unfold release_lease, token_or. rewrite Ht, Hl, Ho, Z.eqb_refl. simpl.
  eexists _, k. split; [apply lookup_insert_eq|done].
Qed.
Lemma release_other self name now d tokens n : n <> name -> leases (release_lease self name None now d tokens) !! n = leases d !! n.
Proof.
  intros Hn. unfold release_lease. destruct (token_or _ _ _); [|done]. destruct (leases d !! name); [|done].
  destruct (_ && _); [|done]. simpl. by rewrite lookup_insert_ne.
Qed.
Lemma release_cycles self name now d tokens : scheduler_cycles (release_lease self name None now d tokens) = scheduler_cycles d.
Proof. unfold release_lease. destruct (token_or _ _ _); [|done]. destruct (leases d !! name); [|done]. by destruct (_ && _). Qed.

Lemma released_kept {H : Host} self name k d tokens n :
  released d n -> released (release_lease self name None (clock k) d tokens) n.
Proof.
  intros (l & j & Hl & He). destruct (decide (n = name)) as [->|]; [|exists l, j; by rewrite release_other].
  unfold release_lease. destruct (token_or _ _ _); [|by exists l, j]. rewrite Hl. destruct (_ && _); [|by exists l, j].
  eexists _, k. split; [apply lookup_insert_eq|done].
Qed.

Lemma release_held self name now d tokens n : held_by self d tokens n -> held_by self (release_lease self name None now d tokens) tokens n.
Proof.
  intros (l & Hl & Ho & Ht). destruct (decide (n = name)) as [->|]; [|exists l; by rewrite release_other].
  unfold release_lease, token_or. rewrite Ht, Hl, Ho, Z.eqb_refl. unfold held_by. simpl.
  eexists. split; [apply lookup_insert_eq|by split].
Qed.

(** ** From the request to the claimed slot *)

Section claimed.
Context {P : PassHost} {W : Type} {A : CycleAdapter W}.
Notation PS := (PS (W := W)).

(** Before the symbols: nothing is committed or reported, and these leases are held. *)
Record early (c : Db) (self : Coordinator) (names : list string) (ps : PS) : Prop := {
  er_committed : s_committed ps.1.2 = c;
  er_results : pa_results ps.2 = [] /\ pa_failed ps.2 = false;
  er_held : forall n, n ∈ names -> held_by self (pa_coordination ps.2) (pa_tokens ps.2) n }.

Lemma early_started c self w s d : s_committed s = c -> early c self [] ((w, s), started_pass d).
Proof. intros Hc. split; [done|done|]. intros n Hn. by apply elem_of_nil in Hn. Qed.

Lemma acquire_early c self names name now ttl ps ps' : early c self names ps ->
  acquire self name now ttl ps = (Ok true, ps') -> early c self (name :: names) ps'.
Proof.
  destruct ps as [w p]. intros [H1 H2 H3]. unfold acquire.
  destruct (acquire_or_renew_lease _ _ _ _ _ _ _) as [[b d] t] eqn:E. intros [= -> <-].
  apply acquired_held in E as [_ E]. split; [done|done|]. simpl. intros n [->|Hn]%elem_of_cons; apply E; [by left|right].
  by apply H3.
Qed.
Lemma token_early c self names name t ps ps' : early c self names ps ->
  read_token name ps = (Ok (Some t), ps') -> early c self names ps'.
Proof.
  destruct ps as [w p]. intros [H1 H2 H3]. unfold read_token. destruct (fencing_token _ _ _) as [t' tokens] eqn:E.
  intros [= -> <-]. split; [done|done|]. simpl. intros n Hn. by eapply token_read_held, H3.
Qed.

(** A slot the pass claimed has a row of its own. *)
Definition claimed_here (id : string) (owned : bool) (d : Coordination) : Prop :=
  owned = true -> exists row, row ∈ scheduler_cycles d /\ sc_scheduler_cycle_id row = id.

Lemma claim_row self job t source mode token id started d tokens c d' i :
  claim_cycle self job t source mode token id started d tokens = (c, d') -> cc_claimed c = true ->
  cc_scheduler_cycle_id c = Some i -> leases d' = leases d /\ exists row, row ∈ scheduler_cycles d' /\ sc_scheduler_cycle_id row = i.
Proof.
  unfold claim_cycle. destruct (bfilter (same_slot job t) (scheduler_cycles d)) as [|existing rest] eqn:Eb.
  - intros [= <- <-] _ [= <-]. split; [done|]. eexists. split; [apply elem_of_app; right; by apply list_elem_of_singleton|done].
  - destruct (dead_local_claim self existing); intros [= <- <-]; [|by intros]. intros _ [= <-]. split; [done|].
    exists (claimed_row self (sc_scheduler_cycle_id existing) (sc_job_name existing) (sc_scheduled_for existing) source mode
      (token_or token tokens "paper_runtime_cycle") (Some "reclaimed_from_dead_local_owner"%string) started).
    split; [|done]. apply list_elem_of_fmap. exists existing. cbn [sc_scheduler_cycle_id claimed_row].
    rewrite String.eqb_refl. split; [done|]. assert (existing ∈ bfilter (same_slot job t) (scheduler_cycles d)) as Hx
      by (rewrite Eb; by left). by apply elem_of_bfilter in Hx as [Hx _].
Qed.

Lemma claim_early c self names q source x ps id owned ps' : early c self names ps -> px_self x = self ->
  claim_slot q source x ps = (Ok (Some (id, owned)), ps') ->
  early c self names ps' /\ claimed_here id owned (pa_coordination ps'.2).
Proof.
  intros He <-. unfold claim_slot. destruct (str_truthy _); [intros [= <- <- <-]; by split|].
  unfold claim. intros E. apply sbind_inv in E as [(k & ps1 & E & E2)|(e & E & [=])]. destruct ps as [[w s] p], ps1 as [w1 p1].
  unfold sbind, stored, in_pass, on_store, new_uuid, utc_now in E. simpl in E.
  destruct (claim_cycle _ _ _ _ _ _ _ _ _ _) as [k' d'] eqn:Ec. injection E as -> <- <-.
  destruct (cc_claimed k) eqn:Ek; [|done]. destruct (cc_scheduler_cycle_id k) as [i|] eqn:Ei; [|done].
  injection E2 as -> <- <-. apply claim_row with (i := id) in Ec as [El Er]; [|done..]. destruct He as [H1 H2 H3].
  split; [|intros _; exact Er]. split; [done|done|]. intros n Hn. destruct (H3 n Hn) as (l & Hl & Ho & Ht).
  exists l. simpl. by rewrite El.
Qed.

(** ** What always follows the symbols *)

(** The claimed slot is finished with this outcome. *)
Definition slot_finished (id : string) (owned failed : bool) (d : Coordination) : Prop :=
  owned = true -> exists row, row ∈ scheduler_cycles d /\ sc_scheduler_cycle_id row = id /\
    sc_status row = (if failed then "failed" else "completed")%string /\ is_Some (sc_completed_at row).

Lemma finish_slot id owned (p : PassState) now reason : claimed_here id owned (pa_coordination p) ->
  slot_finished id owned (pa_failed p)
    (finish_cycle id (if pa_failed p then "failed" else "completed") reason now (pa_coordination p)).
Proof.
  intros Hc Ho. destruct (Hc Ho) as (row & Hin & Hid).
  eexists (finished _ reason now row). split; [|by split_and!]. apply list_elem_of_fmap. exists row. split; [|done].
  by rewrite Hid, String.eqb_refl.
Qed.

Lemma closing_closed x owned (ps : PS) r ps' :
  (forall n, n ∈ [px_lease_name x; px_writer_lease_name x] -> held_by (px_self x) (pa_coordination ps.2) (pa_tokens ps.2) n) ->
  claimed_here (px_scheduler_cycle_id x) owned (pa_coordination ps.2) ->
  ((if owned then finish (px_scheduler_cycle_id x) else sret tt) ;;;
   release (px_self x) (px_lease_name x) ;;; release (px_self x) (px_writer_lease_name x)) ps = (r, ps') ->
  r = Ok tt /\ pa_results ps'.2 = pa_results ps.2 /\ pa_failed ps'.2 = pa_failed ps.2 /\
  released (pa_coordination ps'.2) (px_lease_name x) /\ released (pa_coordination ps'.2) (px_writer_lease_name x) /\
  slot_finished (px_scheduler_cycle_id x) owned (pa_failed ps.2) (pa_coordination ps'.2).
Proof.
  intros Hh Hc E. destruct ps as [[w s] p]. simpl in *.
  assert (exists d s1, leases d = leases (pa_coordination p) /\
    slot_finished (px_scheduler_cycle_id x) owned (pa_failed p) d /\
    (if owned then finish (px_scheduler_cycle_id x) else sret tt) ((w, s), p) =
      (Ok tt, ((w, s1), coordination_is d (pa_tokens p) p))) as (d & s1 & Hl & Hf & E1).
  { destruct owned; [|exists (pa_coordination p), s; split_and!; [done|done|by destruct p]].
    eexists _, _. split_and!; [|by apply finish_slot|reflexivity]. done. }
  apply sbind_inv in E as [([] & ps1 & E0 & E)|(e & E0 & ->)]; pose proof (eq_trans (eq_sym E1) E0) as E2; [injection E2 as <-|done].
  clear E0 E1. unfold release, stored, in_pass, on_store, utc_now, locally, sbind in E. cbn in E. injection E as <- <-. cbn.
  assert (forall n, n ∈ [px_lease_name x; px_writer_lease_name x] -> held_by (px_self x) d (pa_tokens p) n) as Hd.
  { intros n Hn. destruct (Hh n Hn) as (l & H1 & H2). exists l. by rewrite Hl. }
  split_and!; [done|done|done| | |].
  - apply released_kept, release_released, Hd. by left.
  - apply release_released, release_held, Hd. right. by left.
  - intros Ho. rewrite !release_cycles. by apply Hf.
Qed.

(** However the symbols end, the slot is finished and the leases are released. *)
Lemma run_claimed_closed x owned symbols c (ps : PS) r ps' :
  early c (px_self x) [px_lease_name x; px_writer_lease_name x] ps ->
  claimed_here (px_scheduler_cycle_id x) owned (pa_coordination ps.2) ->
  run_claimed x owned symbols ps = (r, ps') ->
  released (pa_coordination ps'.2) (px_lease_name x) /\ released (pa_coordination ps'.2) (px_writer_lease_name x) /\
  slot_finished (px_scheduler_cycle_id x) owned (pa_failed ps'.2) (pa_coordination ps'.2) /\
  pa_failed ps'.2 = existsb is_error (pa_results ps'.2) /\
  map sy_symbol (pa_results ps'.2) `prefix_of` symbols /\ (r = Ok tt -> map sy_symbol (pa_results ps'.2) = symbols).
Proof.
  intros [_ [Hr Hf] Hh] Hc (y & ps1 & z & Es & Ec & ->)%sfinally_inv.
  assert (pa_coordination ps1.2 = pa_coordination ps.2 /\ pa_tokens ps1.2 = pa_tokens ps.2 /\
    pa_failed ps1.2 = existsb is_error (pa_results ps1.2) /\
    map sy_symbol (pa_results ps1.2) `prefix_of` symbols /\ (y = Ok tt -> map sy_symbol (pa_results ps1.2) = symbols))
    as (H1 & H2 & H3 & H4 & H5).
  { apply sbind_inv in Es as [([] & ps2 & [_ ->]%slift_inv & Es)|(e & [_ ->]%slift_inv & ->)].
    - apply run_symbols_results in Es as (G1 & G2 & l & G3 & G4 & G5 & G6). rewrite Hr in G3. simpl in G3.
      rewrite G3. by rewrite Hf in G4.
    - rewrite Hr. split_and!; [done..|apply prefix_nil|done]. }
  apply closing_closed in Ec as (-> & G1 & G2 & G3 & G4 & G5); [|by rewrite H1, H2|by rewrite H1].
  rewrite G1, G2. split_and!; done.
Qed.

Lemma run_slot_closed x owned requested c (ps : PS) ps' status id symbols results :
  early c (px_self x) [px_lease_name x; px_writer_lease_name x] ps ->
  claimed_here (px_scheduler_cycle_id x) owned (pa_coordination ps.2) ->
  run_slot x owned requested ps = (Ok (PASS_RAN status id symbols results), ps') ->
  id = px_scheduler_cycle_id x /\ symbols = fromkeys (requested ++ managed_symbols (px_mode x) c) /\
  map sy_symbol results = symbols /\ status = (if existsb is_error results then "partial_failure" else "completed")%string /\
  released (pa_coordination ps'.2) (px_lease_name x) /\ released (pa_coordination ps'.2) (px_writer_lease_name x) /\
  slot_finished (px_scheduler_cycle_id x) owned (existsb is_error results) (pa_coordination ps'.2).
Proof.
  intros He Hc. unfold run_slot. cbv zeta. destruct (is_nonempty _); [done|].
  intros [(l & ps1 & E1 & E)|(e & _ & [=])]%sbind_inv.
  assert (l = managed_symbols (px_mode x) c /\ ps1.2 = ps.2) as [-> E2].
  { destruct He as [Hd _ _], ps as [[w s] p]. unfold stored, in_pass, on_store in E1.
    destruct (_managed_symbols_requiring_recovery _ s) as [y s1] eqn:Em. injection E1 as -> <-. simpl in Hd. subst c.
    split; [|done]. by eapply managed_result. }
  apply sbind_inv in E as [([] & ps2 & E3 & E)|(e & _ & [=])].
  apply (run_claimed_closed x owned _ (s_committed ps1.1.2)) in E3 as (G1 & G2 & G3 & G4 & _ & G6).
  2: { destruct He as [_ Hr Hh]. rewrite <- E2 in Hr, Hh. by split. }
  2: { by rewrite E2. }
  apply sbind_inv in E as [(p & ps3 & E4 & E)|(e & _ & [=])]. destruct ps2 as [w2 p2]. injection E4 as <- <-.
  apply sbind_inv in E as [(u & ps4 & E5 & E)|(e & _ & [=])]. injection E as <- <- <- <- <-. simpl in *.
  assert (pa_coordination ps4.2 = pa_coordination p2) as ->.
  { assert (forall l, still (research_symbols (W := W) x l)) as Hs; [|by rewrite (Hs _ _ _ _ E5)].
    induction l as [|e l IH]; [apply still_ret|]. apply still_bind; [|done]. unfold research_symbol.
    apply still_bind; [apply in_pass_still|intros now]. apply still_bind; [destruct (same_cycle_research _ _ _ _); apply still_ret|].
    intros payload. apply still_try; [apply in_pass_still|intros ? ? [= <-]; apply still_ret]. }
  rewrite G4 in *. split_and!; try done. by apply G6.
Qed.

(** ** The whole pass *)

Lemma observe_early c self q mode (ps : PS) now ps' : early c self [] ps ->
  observe_now q mode ps = (Ok now, ps') -> early c self [] ps'.
Proof.
  unfold observe_now. intros He. destruct (rp_observed_at q); [by intros [_ ->]%slift_inv|].
  case_bool_decide; [by intros [_ ->]%slift_inv|]. destruct ps as [[w s] p]. intros [= <- <-]. by destruct He.
Qed.
Lemma instance_early c self q (ps : PS) self' ps' : early c self [] ps ->
  instance_of q ps = (Ok self', ps') -> early c self' [] ps'.
Proof.
  intros [H1 H2 _] E. assert (s_committed ps'.1.2 = c /\ ps'.2 = ps.2) as [G1 G2].
  { destruct ps as [[w s] p]. unfold instance_of in E. destruct (str_truthy _); injection E as _ <-; by split. }
  split; [done|by rewrite G2|]. intros n Hn. by apply elem_of_nil in Hn.
Qed.

Lemma run_at_closed q canary source config now c self (ps : PS) ps' status id symbols results : early c self [] ps ->
  run_at q canary source config now ps = (Ok (PASS_RAN status id symbols results), ps') ->
  symbols = pass_symbols q (execution_mode config) c /\ map sy_symbol results = symbols /\
  status = (if existsb is_error results then "partial_failure" else "completed")%string /\
  (exists slot, released (pa_coordination ps'.2) (slot_lease_name (execution_mode config) slot)) /\
  released (pa_coordination ps'.2) (writer_lease_name (execution_mode config)) /\
  slot_finished id (negb (str_truthy (strip (rp_scheduler_cycle_id q)))) (existsb is_error results) (pa_coordination ps'.2).
Proof.
  intros He. unfold run_at. cbv zeta. intros [([] & ps1 & [-> _]%sassert_inv & E)|(e & _ & [=])]%sbind_inv.
  apply sbind_inv in E as [(self' & ps2 & E1 & E)|(e & _ & [=])]. eapply instance_early in E1; [|exact He]. clear He ps self.
  apply sbind_inv in E as [([] & ps3 & E2 & E)|(e & _ & [=])]; simpl in E; [|done]. eapply acquire_early in E2; [|exact E1].
  apply sbind_inv in E as [([] & ps4 & E3 & E)|(e & _ & [=])]; simpl in E; [eapply acquire_early in E3; [|exact E2]|].
  2: { apply sbind_inv in E as [(? & ? & _ & [=])|(e & _ & [=])]. }
  apply sbind_inv in E as [([token|] & ps5 & E4 & E)|(e & _ & [=])]; [eapply token_early in E4; [|exact E3]|].
  2: { apply sbind_inv in E as [(? & ? & _ & E)|(e & _ & [=])]. apply sbind_inv in E as [(? & ? & _ & [=])|(e & _ & [=])]. }
  unfold run_leased in E. apply sbind_inv in E as [([[i owned]|] & ps6 & E5 & E)|(e & _ & [=])].
  2: { apply sbind_inv in E as [(? & ? & _ & E)|(e & _ & [=])]. apply sbind_inv in E as [(? & ? & _ & [=])|(e & _ & [=])]. }
  assert (owned = negb (str_truthy (strip (rp_scheduler_cycle_id q)))) as <-.
  { unfold claim_slot in E5. destruct (str_truthy _); [by apply sret_inv in E5 as [[= _ ->] _]|].
    apply sbind_inv in E5 as [(k & ? & _ & E5)|(e & _ & [=])]. apply sret_inv in E5 as [E5 _]. destruct (cc_claimed k); [|done].
    destruct (cc_scheduler_cycle_id k); simpl in E5; [by injection E5 as _ ->|done]. }
  eapply claim_early in E5 as [E5 Hc]; [|exact E4|reflexivity].
  eapply run_slot_closed in E as (-> & G1 & G2 & G3 & G4 & G5 & G6); [|exact E5|exact Hc].
  split_and!; [done|done|done|eexists; exact G4|done|done].
Qed.

(** C4. A pass that runs its slot reports exactly one result for every symbol it was
    asked for and every symbol with a position to manage, in order and without
    repetition; it is a partial failure exactly when one of them is an error.
    When it returns, both of its leases end at a reading of the host's clock, and
    the slot it claimed is finished with that outcome. *)
Theorem pass_accounts_for_every_symbol q canary source config w s d w' d' status id symbols results :
  resolve_engine_activation settings = Ok config ->
  _execute_v2_automated_trading_cycles q canary source ((w, s), d) = (Ok (PASS_RAN status id symbols results), (w', d')) ->
  symbols = pass_symbols q (execution_mode config) (s_committed s) /\ NoDup symbols /\ map sy_symbol results = symbols /\
  status = (if existsb is_error results then "partial_failure" else "completed")%string /\
  (exists slot, released d' (slot_lease_name (execution_mode config) slot)) /\
  released d' (writer_lease_name (execution_mode config)) /\
  slot_finished id (negb (str_truthy (strip (rp_scheduler_cycle_id q)))) (existsb is_error results) d'.
Proof.
  intros Hc. unfold _execute_v2_automated_trading_cycles, run_pass.
  destruct ((_ : SM PS PassReport) _) as [y [w1 p]] eqn:E. intros [= -> <- <-].
  apply sbind_inv in E as [(k & ps1 & [Ek ->]%slift_inv & E)|(e & _ & [=])]. rewrite Hc in Ek. injection Ek as ->.
  case_bool_decide; [done|]. apply stry_else_inv in E as [(now & ps2 & E1 & E)|(e & ps2 & E1 & E)].
  2: { case_bool_decide; [done|]. by destruct E as [[=] _]. }
  eapply observe_early in E1; [|by apply early_started]. eapply run_at_closed in E as (-> & G2 & G3 & G4 & G5 & G6); [|exact E1].
  split_and!; try done. apply NoDup_fromkeys.
Unshelve. exact (mkCoordinator "" "" 0 None (fun _ => true)).
Qed.
End claimed.

(** ** The reasons of a decision *)

Definition dimension_keys : list string := ["strategy_terminal_reason"; "system_failure_reason"; "execution_blocker"]%string.

Lemma reason_dimensions_truthy p strategy system blocker :
  reason_dimensions p = Ok (strategy, system, blocker) ->
  py_truthy strategy || py_truthy system || py_truthy blocker = true.
Proof.
  unfold reason_dimensions. set (old := (_ || _)%bool). destruct old eqn:Eo; [by intros [= <- <- <-]|].
  assert (forall l b, reason_in (py_get p "reason_code") l = Ok b -> Forall (fun s => str_truthy s = true) l -> b = true ->
    py_truthy (py_get p "reason_code") = true) as Hin.
  { intros l b. unfold reason_in. destruct (py_get p "reason_code"); try (by intros [= <-]); try done.
    intros [= <-] Hl Hb%bool_decide_eq_true. exact (proj1 (Forall_forall _ _) Hl _ Hb). }
  intros (b1 & E1 & E)%res_bind_ok. destruct b1.
  - injection E as <- _ _. by rewrite (Hin _ _ E1) by (done || by repeat constructor).
  - apply res_bind_ok in E as (b2 & E2 & E). destruct b2.
    + injection E as _ _ <-. rewrite (Hin _ _ E2) by (done || by repeat constructor). by rewrite !orb_true_r.
    + destruct (py_truthy (py_get p "reason_code")) eqn:El; injection E as <- <- <-; simpl; rewrite ?El, ?orb_true_r; done.
Qed.

Lemma reason_in_raise v l e : reason_in v l = Raise e -> e = OtherException "TypeError" /\ reason_in v [] = Raise e.
Proof. unfold reason_in. destruct v; try done; by intros [= <-]. Qed.

(** Which of the three a payload without any gets. *)
Lemma reason_dimensions_legacy p strategy system blocker :
  existsb py_truthy (map (py_get p) dimension_keys) = false -> reason_dimensions p = Ok (strategy, system, blocker) ->
  (exists v, List.filter py_truthy [strategy; system; blocker] = [v] /\
     v = (if py_truthy (py_get p "reason_code") then py_get p "reason_code" else VStr "DECISION_REASON_MISSING")) /\
  (py_truthy strategy = true <-> reason_in (py_get p "reason_code") _STRATEGY_TERMINAL_REASONS = Ok true) /\
  (py_truthy blocker = true <-> reason_in (py_get p "reason_code") _STRATEGY_TERMINAL_REASONS = Ok false /\
     reason_in (py_get p "reason_code") _EXECUTION_BLOCKER_REASONS = Ok true).
Proof.
  intros Hno E. pose proof (reason_dimensions_truthy _ _ _ _ E) as Ht. unfold reason_dimensions in E. simpl in Hno.
  apply orb_false_iff in Hno as [H1 [H2 [H3 _]%orb_false_iff]%orb_false_iff]. rewrite H1, H2, H3 in E. simpl in E.
  apply res_bind_ok in E as (b1 & -> & E). destruct b1; [|apply res_bind_ok in E as (b2 & -> & E); destruct b2;
    [|destruct (py_truthy (py_get p "reason_code")) eqn:El]]; simpl in E; injection E as <- <- <-; simpl in *;
    rewrite ?H1, ?H2, ?H3, ?orb_false_r in *; simpl in *; rewrite ?Ht, ?El; (split; [by eexists|]);
    (split; split; first [done|by intros [? ?]|by intros _]).
Qed.

Definition with_reasons (p : PyDict) (strategy system blocker reason : PyVal) : PyDict :=
  dict_set (dict_set (dict_set (dict_set p "strategy_terminal_reason" strategy) "system_failure_reason" system)
    "execution_blocker" blocker) "reason_code" reason.
Lemma with_reasons_get p strategy system blocker reason k :
  py_get (with_reasons p strategy system blocker reason) k =
    if String.eqb k "reason_code" then reason else if String.eqb k "execution_blocker" then blocker
    else if String.eqb k "system_failure_reason" then system else if String.eqb k "strategy_terminal_reason" then strategy
    else py_get p k.
Proof. unfold with_reasons. rewrite !Ledger.py_get_set. by rewrite !(String.eqb_sym _ k). Qed.


(** The branch that reports an invalid payload is never taken. *)
Lemma normalized p strategy system blocker : reason_dimensions p = Ok (strategy, system, blocker) ->
  let v := py_or (py_or strategy system) blocker in
  py_truthy v = true /\ _normalize_reason_dimensions p = Ok (py_str v, with_reasons p strategy system blocker v) /\
  head (List.filter py_truthy [strategy; system; blocker]) = Some v.
Proof.
  intros E v. pose proof (reason_dimensions_truthy _ _ _ _ E) as Ht. unfold _normalize_reason_dimensions. rewrite E. simpl.
  fold v. assert (py_truthy v = true /\ head (List.filter py_truthy [strategy; system; blocker]) = Some v) as [Hv Hh].
  { subst v. unfold py_or. simpl. destruct (py_truthy strategy) eqn:E1; simpl in *; [by rewrite E1|].
    destruct (py_truthy system) eqn:E2; simpl in *; [by rewrite E2|]. by rewrite Ht. }
  split_and!; [done| |done]. by rewrite Hv.
Qed.

(** A decision is recorded under exactly one terminal reason: the first of its
    strategy, system and execution reasons that is given.  A payload that only has a
    legacy reason code gets exactly one of the three, by the two fixed lists, and
    one without any reason is a system failure; no other entry changes, and to
    normalize again changes nothing.  Only a code that is no scalar is refused. *)
Theorem one_terminal_reason (p : PyDict) :
  match _normalize_reason_dimensions p with
  | Raise e => e = OtherException "TypeError" /\ reason_in (py_get p "reason_code") [] = Raise e
  | Ok (reason, p') => exists v, py_truthy v = true /\ reason = py_str v /\ py_get p' "reason_code" = v /\
      head (List.filter py_truthy (map (py_get p') dimension_keys)) = Some v /\
      (existsb py_truthy (map (py_get p) dimension_keys) = false -> List.filter py_truthy (map (py_get p') dimension_keys) = [v] /\
         v = (if py_truthy (py_get p "reason_code") then py_get p "reason_code" else VStr "DECISION_REASON_MISSING") /\
         (py_truthy (py_get p' "strategy_terminal_reason") = true <->
            reason_in (py_get p "reason_code") _STRATEGY_TERMINAL_REASONS = Ok true) /\
         (py_truthy (py_get p' "execution_blocker") = true <->
            reason_in (py_get p "reason_code") _STRATEGY_TERMINAL_REASONS = Ok false /\
            reason_in (py_get p "reason_code") _EXECUTION_BLOCKER_REASONS = Ok true)) /\
      (existsb py_truthy (map (py_get p) dimension_keys) = true -> map (py_get p') dimension_keys = map (py_get p) dimension_keys) /\
      (forall k, k <> "reason_code"%string -> k ∉ dimension_keys -> py_get p' k = py_get p k) /\
      exists p'', _normalize_reason_dimensions p' = Ok (reason, p'') /\ forall k, py_get p'' k = py_get p' k
  end.
Proof.
  destruct (reason_dimensions p) as [[[strategy system] blocker]|e] eqn:E.
  - destruct (normalized _ _ _ _ E) as (Hv & -> & Hh). set (v := py_or (py_or strategy system) blocker) in *.
    set (p' := with_reasons p strategy system blocker v).
    assert (map (py_get p') dimension_keys = [strategy; system; blocker]) as Hd
      by (unfold p'; simpl; by rewrite !with_reasons_get).
    exists v. rewrite Hd. split_and!; [done|done|unfold p'; by rewrite with_reasons_get|done| | | |].
    + intros Hno. destruct (reason_dimensions_legacy _ _ _ _ Hno E) as ((u & Hu & Ev) & Hl). rewrite Hu in Hh |- *.
      injection Hh as <-. split_and!; [done|exact Ev|..]; unfold p'; rewrite with_reasons_get; apply Hl.
    + intros Hyes. unfold reason_dimensions in E. simpl in Hyes. rewrite orb_false_r, orb_assoc in Hyes. rewrite Hyes in E.
      by injection E as <- <- <-.
    + intros k Hk Hn. unfold p'. rewrite with_reasons_get, (proj2 (String.eqb_neq _ _) Hk).
      rewrite !(proj2 (String.eqb_neq _ _)); [done|..]; intros ->; apply Hn; repeat (left || right).
    + assert (reason_dimensions p' = Ok (strategy, system, blocker)) as E'.
      { simpl in Hd. injection Hd as H1 H2 H3. unfold reason_dimensions. rewrite H1, H2, H3.
        by rewrite (reason_dimensions_truthy _ _ _ _ E). }
      destruct (normalized _ _ _ _ E') as (_ & -> & _). eexists. split; [reflexivity|]. intros k. unfold p'.
      rewrite !with_reasons_get. by repeat destruct (String.eqb k _).
  - assert (_normalize_reason_dimensions p = Raise e) as -> by (unfold _normalize_reason_dimensions; by rewrite E).
    unfold reason_dimensions in E. destruct (_ || _); [done|].
    destruct (reason_in (py_get p "reason_code") _STRATEGY_TERMINAL_REASONS) as [b1|e1] eqn:E1; simpl in E;
      [|injection E as <-; by eapply reason_in_raise]. destruct b1; [done|].
    destruct (reason_in (py_get p "reason_code") _EXECUTION_BLOCKER_REASONS) as [b2|e2] eqn:E2; simpl in E;
      [|injection E as <-; by eapply reason_in_raise]. destruct b2; [done|]. by destruct (py_truthy _).
Qed.

(** ** Bars that are evaluated once *)

Section bars.
Context {H : Host}.

(** What ends the evaluation of a bar in a lane: a payload of that lane, for data that was
    ready, not marked to be tried again. *)
Record final_in (lane : CandidateLane) (payload : PyDict) : Prop := {
  fl_lane : py_str (py_or (py_get payload "lane") (VStr "")) = lane_value lane;
  fl_ready : py_get payload "system_failure_reason" <> VStr "ENTRY_DATA_NOT_READY";
  fl_once : py_get payload "entry_bar_retryable" <> VBool true }.

Lemma ends_bar_iff lane payload : ends_bar lane payload = true <-> final_in lane payload.
Proof.
  unfold ends_bar. rewrite !andb_true_iff, negb_true_iff, String.eqb_eq. split.
  - intros [[H1 H2] H3]. split; [done| |]; [intros E|intros E]; rewrite E in *; done.
  - intros [H1 H2 H3]. split_and!; [done| |].
    + destruct (py_get payload "system_failure_reason") as [| | | |t| |]; try done. cbn. apply String.eqb_neq. congruence.
    + destruct (py_get payload "entry_bar_retryable") as [|[]| | | | |]; done.
Qed.

(** The bars of a lane whose evaluation has ended. *)
Definition evaluated_bars (symbol timeframe : string) (mode : V2ExecutionMode) (lane : CandidateLane) (d : Db) : list datetime :=
  concat (map (bars_of (decisions d) lane) (bfilter (terminal_cycle symbol timeframe mode) (cycles d))).

Lemma bfilter_all {X} (l : list X) : bfilter (fun _ => true) l = l.
Proof. unfold bfilter. induction l as [|y l IH]; [done|]. simpl. by rewrite IH. Qed.

Lemma load_bars symbol timeframe mode lane s : constraints_ok (s_committed s) = true ->
  (_load_already_evaluated_bars symbol timeframe mode lane s).1 = Ok (evaluated_bars symbol timeframe mode lane (s_committed s)).
Proof.
  intros Hc. unfold _load_already_evaluated_bars, with_session, select, flush, sbind, sret. cbn. rewrite Hc. cbn. rewrite Hc. cbn.
  unfold evaluated_bars. by rewrite bfilter_all.
Qed.

Lemma evaluated_in symbol timeframe mode lane d t : t ∈ evaluated_bars symbol timeframe mode lane d <->
  exists c r, c ∈ cycles d /\ r ∈ decisions d /\ de_cycle_id r = cy_cycle_id c /\
    terminal_cycle symbol timeframe mode c = true /\ final_in lane (de_payload r) /\ t = cy_bar_timestamp c.
Proof.
  unfold evaluated_bars. rewrite list_elem_of_In, in_concat. split.
  - intros (l & Hl & Ht). apply list_elem_of_In, list_elem_of_fmap in Hl as (c & -> & Hc).
    apply elem_of_bfilter in Hc as [Hc Hterm]. unfold bars_of in Ht.
    apply list_elem_of_In, list_elem_of_fmap in Ht as (r & -> & Hr). apply elem_of_bfilter in Hr as [Hr He].
    apply andb_true_iff in He as [He1%String.eqb_eq He2%ends_bar_iff]. exists c, r. by split_and!.
  - intros (c & r & Hc & Hr & Hid & Hterm & He & ->). exists (bars_of (decisions d) lane c). split.
    + apply list_elem_of_In, list_elem_of_fmap. exists c. split; [done|]. by apply elem_of_bfilter.
    + unfold bars_of. apply list_elem_of_In, list_elem_of_fmap. exists r. split; [done|]. apply elem_of_bfilter.
      split; [done|]. by rewrite Hid, String.eqb_refl, (proj2 (ends_bar_iff _ _) He).
Qed.

Definition completed (terminal : string) (t : datetime) (c : CycleRow) : CycleRow :=
  mkCycle (cy_cycle_id c) (cy_symbol c) (cy_timeframe c) (cy_bar_timestamp c) (cy_execution_mode c) (cy_fencing_token c)
    (cy_started_at c) (Some t) (Some terminal).

(** The tables after a decision is finalized for a cycle that has its row. *)
Lemma finalize_effect cid did symbol timeframe bar mode token payload t s id payload' s' c :
  find_row cid (s_committed s) = Some c ->
  _finalize_v2_cycle_decision cid did symbol timeframe bar mode token payload t s = (Ok (id, payload'), s') ->
  exists terminal row, de_decision_id row = did /\ de_payload row = payload' /\
    cycles (s_committed s') = map (fun x => if String.eqb (cy_cycle_id x) cid then completed terminal t c else x) (cycles (s_committed s)) /\
    match find_row (R := DecisionRow) did (s_committed s) with
    | None => de_cycle_id row = cid /\ decisions (s_committed s') = decisions (s_committed s) ++ [row]
    | Some r => de_cycle_id row = de_cycle_id r /\
        decisions (s_committed s') = map (fun x => if String.eqb (de_decision_id x) did then row else x) (decisions (s_committed s))
    end.
Proof.
  intros Hc. unfold _finalize_v2_cycle_decision. cbv zeta.
  set (terminal := py_str (py_or (py_get payload "terminal_stage") (VStr "DECISION_PAYLOAD_INVALID"))).
  intros [([reason p'] & s1 & [_ ->]%slift_inv & E)|(e & _ & [=])]%sbind_inv.
  apply sbind_inv in E as [(u & s2 & E & [E1 ->]%sret_inv)|(e & _ & [=])]. injection E1 as -> ->.
  apply with_session_inv in E as (s3 & E & Es). set (s0 := mkSession _ _ _) in E.
  apply sbind_inv in E as [(o & s4 & E0 & E)|(e & _ & [=])]. injection E0 as <- <-. change (s_db s0) with (s_committed s) in E.
  rewrite Hc in E. apply sbind_inv in E as [(u1 & s5 & [_ ->]%sret_inv & E)|(e & _ & [=])].
  apply sbind_inv in E as [(o & s5 & E0 & E)|(e & _ & [=])]. injection E0 as <- <-. change (s_db s0) with (s_committed s) in E.
  apply sbind_inv in E as [(key & s5 & [_ ->]%slift_inv & E)|(e & _ & [=])].
  apply sbind_inv in E as [(u2 & s6 & E1 & E)|(e & _ & [=])]. apply sbind_inv in E as [(u3 & s7 & E2 & E)|(e & _ & [=])].
  apply commit_ok in E as [_ E].
  assert (exists row, de_decision_id row = did /\ de_payload row = p' /\ cycles (s_db s6) = cycles (s_committed s) /\
    match find_row (R := DecisionRow) did (s_committed s) with
    | None => de_cycle_id row = cid /\ decisions (s_db s6) = decisions (s_committed s) ++ [row]
    | Some r => de_cycle_id row = de_cycle_id r /\
        decisions (s_db s6) = map (fun x => if String.eqb (de_decision_id x) did then row else x) (decisions (s_committed s))
    end) as (row & H1 & H2 & H3 & H4).
  { destruct (find_row did (s_committed s)) as [r|] eqn:Er.
    - injection E1 as <- <-. pose proof (find_row_key _ _ _ Er) as Ek. cbn in Ek.
      exists (mkDecision (de_decision_id r) (de_cycle_id r) key (Some reason) p' (de_created_at r)). cbn. rewrite Ek. by split_and!.
    - unfold create_decision in E1. apply sbind_inv in E1 as [(now & s8 & E0 & E1)|(e & _ & [=])]. injection E0 as <- <-.
      apply sbind_inv in E1 as [(u4 & s9 & E0 & [-> _]%flush_ok)|(e & _ & [=])]. injection E0 as <- <-.
      eexists (mkDecision _ _ _ _ _ _). by split_and!. }
  exists terminal, row. rewrite Es, E. unfold complete_cycle in E2.
  apply sbind_inv in E2 as [(o & s8 & E0 & E2)|(e & _ & [=])]. injection E0 as <- <-.
  assert (find_row cid (s_db s6) = Some c) as Hc6 by (unfold find_row in *; cbn in *; by rewrite H3).
  rewrite Hc6 in E2. apply sbind_inv in E2 as [(c' & s8 & [[= ->] ->]%sret_inv & E2)|(e & _ & [=])].
  apply sbind_inv in E2 as [(u4 & s9 & E0 & [-> _]%flush_ok)|(e & _ & [=])]. injection E0 as <- <-.
  pose proof (find_row_key _ _ _ Hc) as Hk. cbn in Hk. split_and!; [done|done| |exact H4].
  unfold completed. cbn. by rewrite H3, Hk.
Qed.

Lemma terminal_completed symbol timeframe mode terminal t c :
  terminal_cycle symbol timeframe mode (completed terminal t c) = true <->
  cy_symbol c = symbol /\ cy_timeframe c = timeframe /\ cy_execution_mode c = mode.
Proof.
  unfold terminal_cycle. cbn. rewrite !andb_true_iff, !String.eqb_eq, !bool_decide_eq_true.
  split; [by intros [[[? ?] ?] _]|by intros (? & ? & ?)].
Qed.

(** C5. A bar is evaluated to an end at most once per lane.  When a decision is
    finalized for the row of its cycle, the bars a lane has evaluated gain exactly
    the bar of that cycle, and only in the lane that the recorded payload names, when its
    failure reason is not ENTRY_DATA_NOT_READY and it is not marked retryable; the next
    pass reads exactly these bars. *)
Theorem finalized_bar_is_remembered cid did symbol timeframe bar mode token payload t s id payload' s' c symbol' timeframe' mode' lane
  (Hids : NoDup (map cy_cycle_id (cycles (s_committed s))))
  (Hc : find_row (R := CycleRow) cid (s_committed s) = Some c) (Hopen : cy_decision_terminal c = None)
  (Hown : forall r, r ∈ decisions (s_committed s) -> de_cycle_id r = cid <-> de_decision_id r = did)
  (E : _finalize_v2_cycle_decision cid did symbol timeframe bar mode token payload t s = (Ok (id, payload'), s')) :
  (constraints_ok (s_committed s') = true -> (_load_already_evaluated_bars symbol' timeframe' mode' lane s').1 =
     Ok (evaluated_bars symbol' timeframe' mode' lane (s_committed s'))) /\
  forall b, b ∈ evaluated_bars symbol' timeframe' mode' lane (s_committed s') <->
    b ∈ evaluated_bars symbol' timeframe' mode' lane (s_committed s) \/
    (b = cy_bar_timestamp c /\
     py_str (py_or (py_get payload' "lane") (VStr "")) = lane_value lane /\
     py_get payload' "system_failure_reason" <> VStr "ENTRY_DATA_NOT_READY" /\
     py_get payload' "entry_bar_retryable" <> VBool true /\
     cy_symbol c = symbol' /\ cy_timeframe c = timeframe' /\ cy_execution_mode c = mode').
Proof.
  split; [apply load_bars|]. intros b.
  destruct (finalize_effect _ _ _ _ _ _ _ _ _ _ _ _ _ _ Hc E) as (terminal & row & Hid & Hpay & Hcy & Hde).
  pose proof (find_row_key _ _ _ Hc) as Hk. pose proof (find_row_elem _ _ _ Hc) as Hin. cbn in Hk, Hin.
  assert (de_cycle_id row = cid /\ forall r, r ∈ decisions (s_committed s') <->
    r = row \/ (r ∈ decisions (s_committed s) /\ de_decision_id r <> did)) as [Hrow Hdec].
  { destruct (find_row did (s_committed s)) as [r0|] eqn:Er; destruct Hde as [Hrow ->].
    - pose proof (find_row_key _ _ _ Er) as Ek. pose proof (find_row_elem _ _ _ Er) as Ein. cbn in Ek, Ein.
      assert (de_cycle_id row = cid) as Hr by (rewrite Hrow; by apply Hown). split; [done|]. intros r. rewrite list_elem_of_fmap. split.
      + intros (y & -> & Hy). destruct (String.eqb_spec (de_decision_id y) did); [by left|by right].
      + intros [->|[Hr1 Hr2]]; [exists r0; by rewrite Ek, String.eqb_refl|exists r].
        by rewrite (proj2 (String.eqb_neq _ _) Hr2).
    - split; [done|]. intros r. rewrite elem_of_app, list_elem_of_singleton. split; [|tauto]. intros [Hr|]; [right|by left].
      split; [done|]. intros Heq. unfold find_row in Er. eapply find_none in Er; [|by apply list_elem_of_In].
      cbn in Er. by rewrite Heq, String.eqb_refl in Er. }
  assert (forall x, x ∈ cycles (s_committed s') <->
    x = completed terminal t c \/ (x ∈ cycles (s_committed s) /\ cy_cycle_id x <> cid)) as Hcyc.
  { intros x. rewrite Hcy, list_elem_of_fmap. split.
    - intros (y & -> & Hy). destruct (String.eqb_spec (cy_cycle_id y) cid); [by left|by right].
    - intros [->|[Hx1 Hx2]]; [exists c; by rewrite Hk, String.eqb_refl|exists x]. by rewrite (proj2 (String.eqb_neq _ _) Hx2). }
  rewrite !evaluated_in. split.
  - intros (x & r & Hx%Hcyc & Hr%Hdec & Hl & Ht & He & ->). destruct Hx as [->|[Hx Hne]].
    + right. destruct Hr as [->|[Hr Hne]]; [|exfalso; apply Hne, (Hown r Hr); by rewrite Hl].
      apply terminal_completed in Ht as (? & ? & ?). rewrite Hpay in He. destruct He. by split_and!.
    + left. destruct Hr as [->|[Hr Hne']]; [congruence|]. exists x, r. by split_and!.
  - intros [(x & r & Hx & Hr & Hl & Ht & He & ->)|(-> & He1 & He2 & He3 & Hs)].
    + exists x, r. assert (cy_cycle_id x <> cid) as Hne.
      { intros Heq. assert (x = c) as ->; [|unfold terminal_cycle in Ht; rewrite Hopen in Ht; by rewrite !andb_false_r in Ht].
        apply list_elem_of_lookup in Hx as [i Hi], Hin as [j Hj]. assert (i = j) as ->; [|congruence].
        apply (NoDup_lookup _ i j cid Hids); rewrite list_lookup_fmap, ?Hi, ?Hj; simpl; congruence. }
      split_and!; [apply Hcyc; by right|apply Hdec; right; split; [done|]|done..]. intros Hd.
      apply (Hown r Hr) in Hd. congruence.
    + exists (completed terminal t c), row. split_and!; [apply Hcyc; by left|apply Hdec; by left|by rewrite Hrow|
        by apply terminal_completed|rewrite Hpay; by split|done].
Qed.
End bars.

(** ** What passes leave undone *)

Section any_pass.
Context {P : PassHost} {W : Type} {A : CycleAdapter W}.

(** When the operator's profile cannot be read no symbol has a cycle, a managed
    position included: every symbol is an error, and only ids are drawn. *)
Theorem unreadable_profile_strands_positions (x : PassContext) (e : PyExc) (symbols : list string)
    (w : W) (s : Session) (p : PassState) : exists n l,
  run_symbols x (Raise e) symbols ((w, s), p) =
    (Ok tt, ((w, mkSession (s_committed s) (s_db s) n), mkPassState (pa_coordination p) (pa_tokens p) (pa_results p ++ l)
       (pa_pending p) (pa_failed p || is_nonempty symbols))) /\
  map sy_symbol l = symbols /\ Forall (fun r => sy_error_code r = Some ACTIVE_CONFIG_SNAPSHOT_CAPTURE_FAILED) l.
Proof.
  revert s p. induction symbols as [|symbol symbols IH]; intros s p.
  - exists (s_draws s), []. rewrite app_nil_r, orb_false_r. by destruct s, p.
  - pose proof (IH (mkSession (s_committed s) (s_db s) (S (s_draws s)))
      (task_failed (result_added (error_result symbol (uuid4 (s_draws s)) (Some ACTIVE_CONFIG_SNAPSHOT_CAPTURE_FAILED)
         "operator_profile_unavailable") p))) as (n & l & E & Hl & Hf).
    exists n, (error_result symbol (uuid4 (s_draws s)) (Some ACTIVE_CONFIG_SNAPSHOT_CAPTURE_FAILED) "operator_profile_unavailable" :: l).
    split_and!; [|by rewrite <- Hl|by constructor]. cbn [run_symbols]. unfold sbind at 1.
    change (run_symbol x (Raise e) symbol ((w, s), p)) with (Ok tt, ((w, mkSession (s_committed s) (s_db s) (S (s_draws s))),
      task_failed (result_added (error_result symbol (uuid4 (s_draws s)) (Some ACTIVE_CONFIG_SNAPSHOT_CAPTURE_FAILED)
         "operator_profile_unavailable") p))). cbn iota beta. rewrite E. simpl. by rewrite <- app_assoc, orb_true_r.
Qed.

(** The forward decision is not guarded as the production decision is: what it raises
    ends the pass, and the symbols that follow are not managed. *)
Theorem forward_failure_ends_the_pass (x : PassContext) snapshot by_symbol symbol settings views e rest w s p :
  symbol ∈ AUTO_SIMULATION_EXECUTION_SYMBOLS ->
  List.find (fun y => String.eqb y.1 symbol) by_symbol = Some (symbol, settings) -> views_of x symbol = Ok views ->
  (forall id, _load_authorized_forward_decision snapshot id symbol (px_now x) (px_mode x) = Raise e) ->
  run_symbols x (Ok (snapshot, by_symbol)) (symbol :: rest) ((w, s), p) =
    (Raise e, ((w, mkSession (s_committed s) (s_db s) (S (s_draws s))), p)).
Proof.
  intros Hs Hf Hv He. cbn [run_symbols]. unfold run_symbol. rewrite Hf. unfold prepare, management_only.
  rewrite bool_decide_eq_true_2 by done. cbn [negb]. unfold prepare_traded. rewrite Hv. destruct views as [[entry direction] state].
  unfold sbind, stored, in_pass, on_store, new_uuid, slift. cbn.
  destruct (_entry_data_readiness _ _ _ _) as [[ready reason] details]. by rewrite He.
Qed.

(** A canary's candidate is recorded in the PRODUCTION lane, while a canary asks for
    the bars of the TESTNET_SAMPLING lane: the bar of a candidate that is not
    entered is never remembered. *)
Theorem canary_candidate_bar_is_forgotten (q : CycleRequest) (c : TradeCandidate) (p : Prepared) :
  cq_entry_authority q = AUTH_TESTNET_CANARY -> is_canary p = true ->
  lane_of p = TESTNET_SAMPLING /\ forall details, ends_bar (lane_of p) (dict_update details (funnel_items (candidate_payload q c))) = false.
Proof.
  intros Hq Hp. unfold lane_of. rewrite Hp. split; [done|]. intros details. unfold ends_bar.
  assert (py_get (dict_update details (funnel_items (candidate_payload q c))) "lane" = VStr "PRODUCTION") as ->; [|done].
  unfold dict_update, funnel_items, candidate_payload. cbn. by rewrite !Ledger.py_get_set.
Qed.
End any_pass.
