(* ===== verification/SchedulerCases.v ===== *)
(** * SchedulerCases: concrete passes

    A process whose production strategy is authorized for BTC, on the venue and the
    database of [CycleCases]: the theorems of [SchedulerLaws] and [SchedulerRules] at
    its first pass, and what passes that end early leave behind. *)
From S2P Require Import Prelude PyDecimal PyValue State ClientOrderId Receipts Candidates RuntimeLock Reconciliation Indicators.
From S2P Require Import Adapter AccountWriter BinanceAdapter Composition Database Repository Transactions Ledger ExchangeFirst.
From S2P Require Import RecoveryExecutor Evidence FactPersistence FactLaws SwitchLaws Cycle CycleSteps CycleEntry CycleLaws CycleSafety CycleVenue.
From S2P Require Import CycleCases RiskTiers OperatorProfile SchedulerCoordination SchedulerSteps SchedulerEntry SchedulerLaws.
From S2P Require Import SchedulerRules.
Local Open Scope Z_scope.
Local Open Scope py_scope.

#[local] Existing Instance demo_host.

Definition btc_profile : ExecutionProfile :=
  mkProfile None (Some (mkDec 15 (-1))) (Some (dint 10)) (Some (Some (dint 500))) (Some (mkDec 1 (-2))) (Some (mkDec 5 (-2)))
    None None false None.
(** Its only bar closed at the epoch, and the pass runs 100 microseconds later. *)
Definition epoch_view (timeframe : string) : TimeframeView :=
  mkTimeframe timeframe [mkBar 0 (dint 64000) (dint 64000) (dint 64000) (dint 64000) (dint 1)].
Definition btc_decision : StrategyDecision := mkStrategyDecision (Some trend_candidate) true "OK" "OK" (Some "trend"%string).

(** A process with this mode flag, whose adapter can be built or not. *)
Definition pass_host (scope : list string) (adapter : res unit) : PassHost := {|
  pass_cycle_host := demo_cycle_host;
  pass_floats := {| float_mul := dmul |};
  settings := RuntimeLock.mkSettings (Some "v2_active"%string) true false true;
  paper_runtime_cycle_interval := 60 * second;
  environ := ∅;
  fetch_binance_server_time := Ok 100;
  gethostname := "host";
  getpid := 1;
  app_build_id := None;
  pid_lives _ := true;
  manifest_scope := Some scope;
  build_adapter _ := adapter;
  list_paper_runs := Ok [mkPaperRun (Some "run-1"%string) "running" (Some "directional"%string) btc_profile];
  activate_and_get _ _ := Ok None;
  timeframe_loader := Some (fun _ timeframe => Ok (epoch_view timeframe));
  list_ohlcv_bars _ _ := Ok [];
  latest_market_extras _ _ := Ok (Some (mkExtras (Some (mkDec 1 (-4))) (Some 100)));
  _load_authorized_production_decision _ _ symbol _ :=
    Ok (if String.eqb symbol "BTC/USDT" then btc_decision else no_production_decision);
  _load_authorized_forward_decision _ _ _ _ _ := Ok (mkStrategyDecision None false "NO_FORWARD_VALIDATION_CANDIDATE" "" None);
  payload_details _ _ := [];
  decision_snapshot _ _ _ _ := Raise (ValueError "not built");
  build_shadow_records _ := Ok [];
  same_cycle_research _ _ _ _ := Raise (ValueError "no research") |}.

#[local] Instance btc_host : PassHost := pass_host ["BTC/USDT"]%string (Ok tt).
Definition no_coordination : Coordination := mkCoordination ∅ [].
Definition first_pass : res PassReport * (Venue * Session * Coordination) :=
  execute_v2_automated_trading_cycles empty_payload ((venue_at "64000.0" [], enabled_session), no_coordination).

(** ** The theorems at this pass *)

Definition btc_config : EngineActivationConfig := mkActivation ACTIVE BINANCE_TESTNET false [SOLE_WRITER].
Lemma btc_activation : resolve_engine_activation settings = Ok btc_config.
Proof. reflexivity. Qed.

Definition first_world : Venue * Session := first_pass.2.1.
Lemma first_run : _execute_v2_automated_trading_cycles empty_payload false "automated_trading_v2"
    ((venue_at "64000.0" [], enabled_session), no_coordination) =
  (first_pass.1, (((first_world.1.1, (first_world.1.2.1, first_world.1.2.2)), first_world.2), first_pass.2.2)).
Proof.
  unfold first_world, first_pass, execute_v2_automated_trading_cycles.
  change (natural_testnet_mode_requested environ) with false.
  by destruct (_execute_v2_automated_trading_cycles _ _ _ _) as [r [[[b [w l]] s] d]].
Qed.
Lemma first_opens : length (opened first_world.1) = 1%nat.
Proof. vm_compute. reflexivity. Qed.
Lemma first_opening : exists rq, EvCreateOrder rq true ∈ first_world.1.2.2 /\ rq_reduce_only rq = false.
Proof.
  assert (existsb accepted_opening first_world.1.2.2 = true) as He by (vm_compute; reflexivity).
  apply existsb_exists in He as (e & Hin%list_elem_of_In & He). destruct e as [|?|rq [] | |]; try done.
  - exists rq. split; [exact Hin|]. simpl in He. by destruct (rq_reduce_only rq).
  - simpl in He. by rewrite andb_false_r in He.
Qed.

Lemma pass_keeps_the_ledger_witness :
  map mp_state (positions (s_committed first_world.2)) = [PROTECTED] /\
  rtc ledger_step (committed_lg enabled_session) (committed_lg first_world.2).
Proof.
  split; [vm_compute; reflexivity|].
  exact (proj1 (pass_keeps_the_ledger _ _ _ _ _ _ _ _ _ _ first_run)).
Defined.

Lemma first_symbols : pass_symbols empty_payload BINANCE_TESTNET (s_committed enabled_session) = ["BTC/USDT"]%string.
Proof. vm_compute. reflexivity. Qed.

(** Its one opening order is in the part of its one symbol. *)
Lemma pass_opens_under_authority_witness : exists rq intent_id x c,
  EvCreateOrder rq true ∈ first_world.1.2.2 /\ rq_symbol rq = tc_symbol c /\
  may_open x (load_operator_settings x ["BTC/USDT"]%string) "BTC/USDT" c /\ px_now x = 100 /\
  entry_client_order_id intent_id 1 = Ok (rq_client_order_id rq) /\ intent_durable intent_id first_world.2.
Proof.
  destruct first_opening as (rq & Hin & Hr).
  pose proof (pass_opens_under_authority (V := spot_client) (Some cap_b) _ _ _ _ _ _ _ _ _ _ _ _ _ _ btc_activation first_run) as Ht.
  cbv zeta in Ht. change (execution_mode btc_config) with BINANCE_TESTNET in Ht. rewrite first_symbols in Ht.
  destruct Ht as (segs & El & Hs). apply Forall2_cons_inv_l in Hs as (seg & rest & Hseg & Hrest & ->).
  apply Forall2_nil_inv_l in Hrest as ->. cbn in El. rewrite app_nil_r in El. rewrite El in Hin.
  destruct (Hseg _ Hin Hr) as (_ & _ & (x & c & Hx & Hm & Hf) & Hid). destruct (Hid rq true eq_refl) as (id & H1 & H2).
  exists rq, id, x, c. rewrite El. destruct Hx as [_ _ _ _ Hnow]. cbn in Hnow. injection Hnow as Hnow.
  exact (conj Hin (conj (proj1 Hf) (conj Hm (conj (eq_sym Hnow) (conj H1 H2))))).
Defined.

Lemma btc_answers : answers_own_symbol.
Proof.
  intros snapshot id symbol now d c Hc. cbn. destruct (String.eqb_spec symbol "BTC/USDT") as [->|_].
  - split; [intros [= <-]; by injection Hc as <-|intros mode [= <-]; discriminate Hc].
  - split; [intros [= <-]; discriminate Hc|intros mode [= <-]; discriminate Hc].
Qed.
Lemma pass_opens_once_per_symbol_witness :
  length (opened first_world.1) = 1%nat /\ zcount (opens_in "BTC/USDT") first_world.1.2.2 <= 1 /\
  zcount (opens_in "ETH/USDT") first_world.1.2.2 <= 0.
Proof.
  split; [exact first_opens|].
  pose proof (proj2 (proj2 (pass_opens_once_per_symbol (V := spot_client) (Some cap_b) _ _ _ _ _ _ _ _ _ _ _ _ _ _
    btc_activation first_run)) btc_answers) as Ht.
  cbv zeta in Ht. change (execution_mode btc_config) with BINANCE_TESTNET in Ht. rewrite first_symbols in Ht.
  exact (conj (proj1 (Ht "BTC/USDT"%string)) (proj1 (Ht "ETH/USDT"%string))).
Defined.

Definition results_of (r : res PassReport) : list SymbolResult := match r with Ok (PASS_RAN _ _ _ l) => l | _ => [] end.
Lemma first_report : first_pass.1 = Ok (PASS_RAN "completed" "3" ["BTC/USDT"]%string (results_of first_pass.1)).
Proof. vm_compute. reflexivity. Qed.

Lemma pass_accounts_for_every_symbol_witness :
  map sy_symbol (results_of first_pass.1) = ["BTC/USDT"]%string /\
  released first_pass.2.2 (writer_lease_name BINANCE_TESTNET) /\
  slot_finished "3" true false first_pass.2.2.
Proof.
  pose proof first_run as E. rewrite first_report in E.
  destruct (pass_accounts_for_every_symbol _ _ _ _ _ _ _ _ _ _ _ _ _ btc_activation E) as (_ & _ & H1 & _ & _ & H2 & H3).
  exact (conj H1 (conj H2 H3)).
Defined.

(** The row of a cycle, and a decision of its bar that ends without a signal. *)
Definition opened_cycle : Session :=
  (_ensure_v2_cycle "c-1" "BTC/USDT" "15m" 900 BINANCE_TESTNET "fence-c" enabled_session).2.
Definition no_signal : PyDict :=
  [("lane", VStr "TESTNET_SAMPLING"); ("terminal_stage", VStr "SIGNAL_EVALUATED"); ("reason_code", VStr "NO_ENTRY_SIGNAL")]%string.
Definition finalized_no_signal : res (string * PyDict) * Session :=
  _finalize_v2_cycle_decision "c-1" "d-1" "BTC/USDT" "15m" 900 BINANCE_TESTNET "fence-c" no_signal 1000 opened_cycle.

Lemma finalized_bar_is_remembered_witness :
  (_load_already_evaluated_bars "BTC/USDT" "15m" BINANCE_TESTNET TESTNET_SAMPLING finalized_no_signal.2).1 =
    Ok (evaluated_bars "BTC/USDT" "15m" BINANCE_TESTNET TESTNET_SAMPLING (s_committed finalized_no_signal.2)) /\
  900 ∈ evaluated_bars "BTC/USDT" "15m" BINANCE_TESTNET TESTNET_SAMPLING (s_committed finalized_no_signal.2).
Proof.
  destruct (find_row (R := CycleRow) "c-1" (s_committed opened_cycle)) as [c|] eqn:Ec; [|by vm_compute in Ec].
  destruct (finalized_no_signal) as [[[id payload']|] s'] eqn:E; [|by vm_compute in E].
  assert (Hc : c = mkCycle "c-1" "BTC/USDT" "15m" 900 BINANCE_TESTNET "fence-c" (cy_started_at c) None None)
    by (vm_compute in Ec; by injection Ec as <-).
  assert (Hp : py_get payload' "lane" = VStr "TESTNET_SAMPLING" /\ py_get payload' "system_failure_reason" = VNone /\
    py_get payload' "entry_bar_retryable" = VNone) by (vm_compute in E; by injection E as _ <- _).
  destruct Hp as (Hp1 & Hp2 & Hp3).
  assert (Hs : constraints_ok (s_committed s') = true) by (vm_compute in E; by injection E as _ _ <-).
  destruct (finalized_bar_is_remembered "c-1" "d-1" "BTC/USDT" "15m" 900 BINANCE_TESTNET "fence-c" no_signal 1000 opened_cycle
    id payload' s' c "BTC/USDT" "15m" BINANCE_TESTNET TESTNET_SAMPLING) as [H1 H2].
  - assert (map cy_cycle_id (cycles (s_committed opened_cycle)) = ["c-1"]%string) as -> by (vm_compute; reflexivity).
    apply NoDup_singleton.
  - exact Ec.
  - by rewrite Hc.
  - intros r Hr. assert (decisions (s_committed opened_cycle) = []) as Hd by (vm_compute; reflexivity). rewrite Hd in Hr.
    exact (False_ind _ (not_elem_of_nil r Hr)).
  - exact E.
  - split; [exact (H1 Hs)|]. apply H2. right. rewrite Hc. rewrite Hp1, Hp2, Hp3.
    split; [reflexivity|]. split; [reflexivity|]. split; [discriminate|]. split; [discriminate|].
    exact (conj eq_refl (conj eq_refl eq_refl)).
Defined.

(** ** What passes leave behind *)

(** The first entry is protected, and its decision is recorded as a system failure
    named OK. *)
Theorem entry_recorded_as_system_failure :
  map (fun r => (py_get (de_payload r) "terminal_stage", py_get (de_payload r) "system_failure_reason"))
    (decisions (s_committed first_world.2)) = [(VStr "PROTECTION_CONFIRMED", VStr "OK")].
Proof. vm_compute. reflexivity. Qed.

(** A request for a symbol outside the universe is refused after the leases and the
    slot were taken: neither is given back, and for three intervals every other pass
    finds an active writer. *)
Definition refused_pass : res PassReport * (Venue * Session * Coordination) :=
  execute_v2_automated_trading_cycles (mkRequestPayload None None "" "" ["SOL/USDT"]%string "")
    ((venue_at "64000.0" [], enabled_session), no_coordination).
Theorem refused_pass_keeps_its_leases :
  refused_pass.1 = Ok (MANIFEST_EXECUTION_SYMBOL_SCOPE_MISMATCH ["SOL/USDT"]%string) /\
  map sc_status (scheduler_cycles refused_pass.2.2) = ["claimed"]%string /\
  (execute_v2_automated_trading_cycles (mkRequestPayload (Some (Ok (179 * second))) None "" "" [] "") refused_pass.2).1 =
    Ok ACTIVE_CYCLE_RUNNING.
Proof. split_and!; vm_compute; reflexivity. Qed.

(** A pass whose adapter cannot be built runs no symbol and reports its slot completed. *)
Definition unbuilt_pass : res PassReport * (Venue * Session * Coordination) :=
  execute_v2_automated_trading_cycles (P := pass_host ["BTC/USDT"]%string (Raise BinanceAdapterUnavailable)) empty_payload
    ((venue_at "64000.0" [], enabled_session), no_coordination).
Theorem unbuilt_adapter_completes_its_slot :
  unbuilt_pass.1 = Raise BinanceAdapterUnavailable /\
  map (fun c => (sc_status c, sc_failure_reason c)) (scheduler_cycles unbuilt_pass.2.2) = [("completed", None)]%string /\
  cycles (s_committed unbuilt_pass.2.1.2) = [].
Proof. split_and!; vm_compute; reflexivity. Qed.
