(* ===== verification/RuntimeHold.v ===== *)
(** * RuntimeHold: the switch on new entries and the supervisor's hold

    The functions of [services/execution/scheduler.py] that read and write the
    runtime control: the bootstrap of an absent row, the recovery hold that the
    liveness supervisor claims and clears, and what the operator may rely on.  Each
    of claim and clear reads the row and then swaps what it has read; between the two
    other processes may write. *)
From S2P Require Import Prelude PyDecimal PyValue State Receipts Database Repository Transactions Ledger RepositoryLaws FactRules.
Local Open Scope Z_scope.
Local Open Scope py_scope.

Definition LIVENESS_RECOVERY_HOLD_PREFIX : string := "LIVENESS_RECOVERY_HOLD:".
Definition LIVENESS_RECOVERY_RECOVERED : string := "LIVENESS_RECOVERY_RECOVERED".

(** [str(reason or "").startswith(LIVENESS_RECOVERY_HOLD_PREFIX)] *)
Definition is_recovery_hold (reason : option string) : bool :=
  String.prefix LIVENESS_RECOVERY_HOLD_PREFIX (default ""%string reason).
Definition hold_reason_of (reason : string) : string :=
  let normalized := strip (if str_truthy reason then reason else "unknown") in
  if is_recovery_hold (Some normalized) then normalized else (LIVENESS_RECOVERY_HOLD_PREFIX +:+ normalized)%string.

(** [str(control.reason) if control.reason else None] *)
Definition reason_of (c : ControlRow) : option string := if ostr_truthy (ct_reason c) then ct_reason c else None.

Section sessions.
Context {H : Host}.

Definition _runtime_entry_control_state : SM Session (option bool * option string) :=
  stry (with_session (
    let! control := get (R := ControlRow) "global" in
    sret (match control with Some c => (Some (ct_entry_enabled c), reason_of c) | None => (None, None) end)))
    (fun _ => Some (sret (None, None))).
Definition _runtime_entry_control_reason : SM Session (option string) :=
  let! state := _runtime_entry_control_state in sret state.2.

Definition initialize_standard_runtime_entry_control : SM Session unit :=
  with_session (
    ensure_runtime_control "global" true (Some "STANDARD_RUNTIME_ENABLED"%string) (Some "runtime-bootstrap"%string) ;;;
    commit).

(** What the supervisor does with the row it has read. *)
Definition claim_observed (control : ControlRow) (hold_reason : string) : SM Session bool :=
  let observed_enabled := ct_entry_enabled control in
  let observed_reason := reason_of control in
  if negb observed_enabled && negb (is_recovery_hold observed_reason) then sret false
  else if negb observed_enabled && bool_decide (observed_reason = Some hold_reason) then commit ;;; sret true
  else
  let! claimed := compare_and_set_runtime_control "global" (ct_version control) observed_enabled observed_reason false
                    (Some hold_reason) (Some "liveness-supervisor"%string) in
  if negb claimed then rollback ;;; sret false else commit ;;; sret true.
Definition _claim_liveness_recovery_hold (hold_reason : string) : SM Session bool :=
  stry (with_session (
    let! control := ensure_runtime_control "global" false (Some hold_reason) (Some "liveness-supervisor"%string) in
    claim_observed control hold_reason))
    (fun _ => Some (sret false)).
Definition persist_liveness_recovery_hold (reason : string) : SM Session bool :=
  _claim_liveness_recovery_hold (hold_reason_of reason).

Definition clear_observed (control : ControlRow) : SM Session (bool * option string) :=
  let observed_enabled := ct_entry_enabled control in
  let observed_reason := reason_of control in
  if observed_enabled || negb (is_recovery_hold observed_reason) then sret (false, observed_reason)
  else
  let! cleared := compare_and_set_runtime_control "global" (ct_version control) false observed_reason true
                    (Some LIVENESS_RECOVERY_RECOVERED) (Some "liveness-supervisor"%string) in
  if negb cleared then rollback ;;; let! reason := _runtime_entry_control_reason in sret (false, reason)
  else commit ;;; sret (true, Some LIVENESS_RECOVERY_RECOVERED).
Definition _clear_liveness_recovery_hold : SM Session (bool * option string) :=
  stry (with_session (let! control := get_runtime_control "global" in clear_observed control))
    (fun _ => Some (let! reason := _runtime_entry_control_reason in sret (false, reason))).

(** ** The switch *)

(** The runtime control as other processes see it. *)
Definition control_of (s : Session) : option ControlRow := find_row (R := ControlRow) "global" (s_committed s).

(** Entries are off and no supervisor said so. *)
Definition operator_pause (c : ControlRow) : Prop := ct_entry_enabled c = false /\ is_recovery_hold (ct_reason c) = false.

(** What the scheduler may do to the switch. *)
Inductive switch_step : option ControlRow -> option ControlRow -> Prop :=
  | switch_armed c : ct_entry_enabled c = true -> ct_version c = 0 -> switch_step None (Some c)
  | switch_held_first c : ct_entry_enabled c = false -> is_recovery_hold (ct_reason c) = true -> switch_step None (Some c)
  | switch_held c c' : ~ operator_pause c -> ct_entry_enabled c' = false -> is_recovery_hold (ct_reason c') = true ->
      ct_version c' = ct_version c + 1 -> switch_step (Some c) (Some c')
  | switch_cleared c c' : ct_entry_enabled c = false -> is_recovery_hold (ct_reason c) = true ->
      ct_entry_enabled c' = true -> ct_reason c' = Some LIVENESS_RECOVERY_RECOVERED -> ct_version c' = ct_version c + 1 ->
      switch_step (Some c) (Some c').

(** A call of a scheduler process.  The last two are the second half of a claim and
    of a clear: the row was read at any earlier time. *)
Inductive scheduler_call : Session -> Session -> Prop :=
  | call_initialize s : scheduler_call s (initialize_standard_runtime_entry_control s).2
  | call_persist reason s : scheduler_call s (persist_liveness_recovery_hold reason s).2
  | call_clear s : scheduler_call s (_clear_liveness_recovery_hold s).2
  | call_claim_observed control reason s :
      scheduler_call s (with_session (claim_observed control (hold_reason_of reason)) s).2
  | call_clear_observed control s : scheduler_call s (with_session (clear_observed control) s).2.
End sessions.

(** ** Lemmas *)

Lemma prefix_app p s : String.prefix p (p +:+ s)%string = true.
Proof. induction p as [|a p IH]; simpl; [by destruct s|]. rewrite IH. by destruct (Ascii.ascii_dec a a). Qed.
Lemma hold_reason_is_hold reason : is_recovery_hold (Some (hold_reason_of reason)) = true.
Proof.
  unfold hold_reason_of. set (n := strip _). destruct (is_recovery_hold (Some n)) eqn:E; [by rewrite E|]. apply prefix_app.
Qed.
Lemma reason_of_hold c : is_recovery_hold (reason_of c) = is_recovery_hold (ct_reason c).
Proof. unfold reason_of. destruct (ct_reason c) as [[|a s]|]; done. Qed.

Section laws.
Context {H : Host}.
Notation control_in := (find_row (R := ControlRow) "global").

Lemma commit_committed s r s' : commit s = (r, s') ->
  (r = Ok tt /\ s_committed s' = s_db s) \/ ((exists e, r = Raise e) /\ s_committed s' = s_committed s).
Proof.
  unfold commit, flush, sbind. destruct (constraints_ok (s_db s)); intros [= <- <-]; [by left|right]. by split; [eexists|].
Qed.
Lemma op_committed {B} (m : SM Session B) s r s' : op_of true B m -> m s = (r, s') -> s_committed s' = s_committed s.
Proof. intros Hm E. by apply (repository_op_refines _ _ Hm) in E as [? _]. Qed.

(** [ensure_runtime_control] finds the row or makes it. *)
Lemma ensure_run enabled reason by' s c s' : ensure_runtime_control "global" enabled reason by' s = (Ok c, s') ->
  control_in (s_db s') = Some c /\
  (control_in (s_db s) = Some c \/
   control_in (s_db s) = None /\ ct_entry_enabled c = enabled /\ ct_reason c = reason /\ ct_version c = 0).
Proof.
  unfold ensure_runtime_control. intros [(o & s1 & E0 & E)|(e & E0 & ?)]%sbind_inv; [|done]. injection E0 as <- <-.
  destruct (control_in (s_db s)) as [c0|] eqn:Ec; [apply sret_inv in E as [[= ->] ->]; by split; [|left]|].
  apply sbind_inv in E as [(sp & s1 & E0 & E)|(e & E0 & ?)]; [|done]. injection E0 as <- <-.
  apply sbind_inv in E as [(t & s1 & E0 & E)|(e & E0 & ?)]; [|done]. injection E0 as <- <-. cbv zeta in E.
  apply stry_inv in E as [(c1 & E & [= <-])|(e & s1 & _ & E)].
  - apply sbind_inv in E as [([] & s1 & E0 & E)|(e & E0 & ?)]; [|done]. injection E0 as <-.
    apply sbind_inv in E as [([] & s2 & [-> _]%flush_ok & E)|(e & E0 & ?)]; [|done]. apply sret_inv in E as [[= ->] ->].
    cbn [s_db]. split; [|by right]. unfold find_row in *. simpl in *. by rewrite find_last, Ec.
  - destruct e; try (destruct E as [? _]; done). exfalso.
    apply sbind_inv in E as [([] & s2 & E0 & E)|(e & E0 & ?)]; [|done]. injection E0 as <-.
    apply sbind_inv in E as [(o & s3 & E0 & E)|(e & E0 & ?)]; [|done]. injection E0 as <- <-. cbn [s_db] in E.
    rewrite Ec in E. by apply sraise_inv in E as [? _].
Qed.

(** A swap of what was read, committed: nothing, or the row as it is now. *)
Lemma swap_run version enabled reason enabled' reason' by' {X} (no : SM Session X) (yes : X) s r s' :
  (forall s1 r1 s1', no s1 = (r1, s1') -> s_committed s1' = s_committed s1) ->
  (let! b := compare_and_set_runtime_control "global" version enabled reason enabled' reason' by' in
   if negb b then no else commit ;;; sret yes) s = (r, s') ->
  (s_committed s' = s_committed s /\ ((exists e, r = Raise e) \/ exists s1, no s1 = (r, s'))) \/
  (r = Ok yes /\ exists c c', control_in (s_db s) = Some c /\ observed version enabled reason c /\ control_of s' = Some c' /\
    ct_entry_enabled c' = enabled' /\ ct_reason c' = reason' /\ ct_version c' = version + 1).
Proof.
  intros Hno [(b & s1 & E0 & E)|(e & E0 & ->)]%sbind_inv;
    [|left; split; [eapply op_committed; [constructor|exact E0]|by left; eexists]].
  assert (s_committed s1 = s_committed s) as Hc by (eapply op_committed; [constructor|exact E0]). destruct b; simpl in E.
  - apply sbind_inv in E as [([] & s2 & E1 & E)|(e & E1 & ->)].
    + apply sret_inv in E as [-> ->]. apply commit_committed in E1 as [[_ E1]|[[e ?] _]]; [|done].
      apply compare_and_set_cases in E0 as [(_ & c & Ec & Ho & Ec')|(? & _)]; [|done]. right. split; [done|].
      eexists c, _. split_and!; [exact Ec|exact Ho|unfold control_of; rewrite E1; exact Ec'|done..].
    + apply commit_committed in E1 as [[? _]|[_ E1]]; [done|left]. split; [congruence|by left; eexists].
  - left. split; [rewrite (Hno _ _ _ E); exact Hc|right; by eexists].
Qed.

Lemma rollback_committed {X} (v : X) s r s' : (rollback ;;; sret v) s = (r, s') -> s_committed s' = s_committed s.
Proof. by intros [= _ <-]. Qed.
Lemma reread_committed s r s' :
  (rollback ;;; let! reason := _runtime_entry_control_reason in sret (false, reason)) s = (r, s') -> s_committed s' = s_committed s.
Proof. by intros [= _ <-]. Qed.

Lemma claim_observed_run o reason s r s' : claim_observed o reason s = (r, s') -> is_recovery_hold (Some reason) = true ->
  s_committed s' = s_committed s \/ s_committed s' = s_db s \/
  exists c c', control_in (s_db s) = Some c /\ control_of s' = Some c' /\ ~ operator_pause c /\
    ct_entry_enabled c' = false /\ is_recovery_hold (ct_reason c') = true /\ ct_version c' = ct_version c + 1.
Proof.
  intros E Hh. unfold claim_observed in E. destruct (negb (ct_entry_enabled o) && negb (is_recovery_hold (reason_of o))) eqn:Hp.
  { apply sret_inv in E as [_ ->]. by left. }
  destruct (negb (ct_entry_enabled o) && bool_decide (reason_of o = Some reason)) eqn:Hs.
  { apply sbind_inv in E as [([] & s1 & E1 & E)|(e & E1 & _)].
    - apply sret_inv in E as [_ ->]. apply commit_committed in E1 as [[_ E1]|[_ E1]]; [by right; left|by left].
    - apply commit_committed in E1 as [[? _]|[_ E1]]; [done|by left]. }
  apply swap_run in E as [[E _]|(_ & c & c' & Ec & (Hv & He & Hr) & E & E1 & E2 & E3)];
    [by left| |intros; by eapply rollback_committed].
  right; right. exists c, c'. split_and!; [done|done| |done|by rewrite E2|lia]. intros [Hc1 Hc2].
  rewrite He in Hc1. rewrite Hr in Hc2. by rewrite Hc1, Hc2 in Hp.
Qed.

(** Each call moves the committed switch by at most one step. *)
Definition moved (s s' : Session) : Prop := control_of s' = control_of s \/ switch_step (control_of s) (control_of s').
Lemma committed_unmoved s s' : s_committed s' = s_committed s -> moved s s'.
Proof. intros E. left. unfold control_of. by rewrite E. Qed.

Lemma tried_session_moved {X} (m : SM Session X) (h : SM Session X) s :
  (forall s1 r s1', h s1 = (r, s1') -> s_committed s1' = s_committed s1) ->
  (forall r s', with_session m s = (r, s') -> moved s s') -> moved s (stry (with_session m) (fun _ => Some h) s).2.
Proof.
  intros Hh Hm. destruct (stry _ _ s) as [r s'] eqn:E. apply stry_inv in E as [(x & E & _)|(e & s1 & E & E2)]; [by eapply Hm|].
  apply Hh in E2. apply Hm in E. unfold moved, control_of in *. simpl. by rewrite E2.
Qed.

Lemma observed_claim_moved o reason s r s' : is_recovery_hold (Some reason) = true ->
  with_session (claim_observed o reason) s = (r, s') -> moved s s'.
Proof.
  intros Hh (s1 & E & ->)%with_session_inv. apply claim_observed_run in E as [E|[E|(c & c' & Ec & E & Hp & E1 & E2 & E3)]]; [..|done];
    [by apply committed_unmoved..|]. right. unfold control_of in *. cbn [s_committed s_db] in *. rewrite Ec, E. by constructor.
Qed.
Lemma observed_clear_moved o s r s' : with_session (clear_observed o) s = (r, s') -> moved s s'.
Proof.
  intros (s1 & E & ->)%with_session_inv. unfold clear_observed in E.
  destruct (ct_entry_enabled o || negb (is_recovery_hold (reason_of o))) eqn:Hp.
  { apply sret_inv in E as [_ ->]. by apply committed_unmoved. }
  apply orb_false_iff in Hp as [He Hr%negb_false_iff].
  apply swap_run in E as [[E _]|(_ & c & c' & Ec & (Hv & Hce & Hcr) & E & E1 & E2 & E3)]; [by apply committed_unmoved| |by intros s2 r2 s3 ?%reread_committed].
  right. unfold control_of in *. cbn [s_committed s_db] in *. rewrite Ec, E. constructor; try done; [by rewrite Hcr|lia].
Qed.

Lemma claim_moved reason s r s' : is_recovery_hold (Some reason) = true ->
  with_session (let! control := ensure_runtime_control "global" false (Some reason) (Some "liveness-supervisor"%string) in
                claim_observed control reason) s = (r, s') -> moved s s'.
Proof.
  intros Hh (s1 & E & ->)%with_session_inv. apply sbind_inv in E as [(c & s2 & E0 & E)|(e & E0 & _)];
    [|apply committed_unmoved; exact (op_committed _ _ _ _ (op_ensure_runtime_control _ _ _ _) E0)].
  assert (s_committed s2 = s_committed s) as Hc by exact (op_committed _ _ _ _ (op_ensure_runtime_control _ _ _ _) E0).
  apply ensure_run in E0 as [Ed E0]. unfold moved, control_of in *. cbn [s_db s_committed] in *.
  apply claim_observed_run in E as [E|[E|(c0 & c' & Ec & E & Hp & E1 & E2 & E3)]]; [..|done].
  - left. by rewrite E, Hc.
  - rewrite E, Ed. destruct E0 as [->|(-> & E1 & E2 & E3)]; [by left|right]. constructor 2; [done|by rewrite E2].
  - unfold control_of in E. rewrite E. rewrite Ed in Ec. injection Ec as <-. right. destruct E0 as [->|(-> & Ee & Er & _)]; [by constructor|].
    by constructor 2.
Qed.

Lemma clear_moved s r s' :
  with_session (let! control := get_runtime_control "global" in clear_observed control) s = (r, s') -> moved s s'.
Proof.
  intros E. apply with_session_inv in E as (s1 & E & ->). apply sbind_inv in E as [(c & s2 & E0 & E)|(e & E0 & _)];
    [|apply committed_unmoved; exact (op_committed _ _ _ _ (op_get_runtime_control _) E0)].
  pose proof (op_committed _ _ _ _ (op_get_runtime_control _) E0) as Hc. unfold get_runtime_control in E0.
  apply sbind_inv in E0 as [(o & s3 & E1 & E0)|(e & E1 & ?)]; [|done]. injection E1 as <- <-. cbn [s_db s_committed] in *.
  destruct (control_in (s_committed s)) as [c0|] eqn:Ec.
  - apply sret_inv in E0 as [[= ->] ->]. eapply (observed_clear_moved c0). unfold with_session. by rewrite E.
  - apply sbind_inv in E0 as [(t & s4 & E1 & E0)|(e & E1 & ?)]; [|done]. cbv zeta in E0.
    apply sbind_inv in E0 as [([] & s5 & E2 & E0)|(e & E2 & ?)]; [|done].
    apply sbind_inv in E0 as [([] & s6 & E3 & E0)|(e & E3 & ?)]; [|done]. apply sret_inv in E0 as [[= ->] ->].
    apply sret_inv in E as [_ ->]. by apply committed_unmoved.
Qed.

Lemma initialize_moved s : moved s (initialize_standard_runtime_entry_control s).2.
Proof.
  destruct (initialize_standard_runtime_entry_control s) as [r s'] eqn:E. apply with_session_inv in E as (s1 & E & ->).
  apply sbind_inv in E as [(c & s2 & E0 & E)|(e & E0 & _)];
    [|apply committed_unmoved; exact (op_committed _ _ _ _ (op_ensure_runtime_control _ _ _ _) E0)].
  pose proof (op_committed _ _ _ _ (op_ensure_runtime_control _ _ _ _) E0) as Hc. apply ensure_run in E0 as [Ed E0].
  apply commit_committed in E as [[_ E]|[_ E]]; [|apply committed_unmoved; exact (eq_trans E Hc)].
  unfold moved, control_of. cbn [s_committed s_db snd] in *. rewrite E, Ed. destruct E0 as [->|(-> & ? & ? & ?)]; [by left|right].
  by constructor.
Qed.

Lemma reread_still s1 r s1' :
  (let! reason := _runtime_entry_control_reason in sret (false, reason)) s1 = (r, s1') -> s_committed s1' = s_committed s1.
Proof. by intros [= _ <-]. Qed.

Lemma scheduler_call_moved s s' : scheduler_call s s' -> moved s s'.
Proof.
  intros [s0|reason s0|s0|o reason s0|o s0].
  - apply initialize_moved.
  - apply tried_session_moved; [by intros s1 r s1' [_ ->]%sret_inv|]. intros r s1. apply claim_moved, hold_reason_is_hold.
  - apply tried_session_moved; [exact reread_still|exact (clear_moved s0)].
  - eapply observed_claim_moved; [apply (hold_reason_is_hold reason)|apply surjective_pairing].
  - eapply observed_clear_moved. apply surjective_pairing.
Qed.

Lemma pause_stays c o : operator_pause c -> ~ switch_step (Some c) o.
Proof.
  intros Hp Hs. inversion Hs as [|  | c1 c2 Hn | c1 c2 H1 H2]; subst; [exact (Hn Hp)|]. destruct Hp as [_ Hp]. by rewrite Hp in H2.
Qed.

(** C11. However the scheduler processes interleave, between the read of a claim or of
    a clear and its write included, the switch on new entries moves only as the
    supervisor may move it: an absent row is armed or held, an enabled row or a hold
    becomes a hold, and only a hold is cleared, each under the next version.  A
    pause that an operator has set is therefore kept, whatever the scheduler calls. *)
Theorem scheduler_respects_operator s s' : rtc scheduler_call s s' ->
  rtc switch_step (control_of s) (control_of s') /\
  (forall c, control_of s = Some c -> operator_pause c -> control_of s' = Some c).
Proof.
  intros Hs. assert (rtc switch_step (control_of s) (control_of s')) as Hr.
  { induction Hs as [|s s1 s' E%scheduler_call_moved _ IH]; [reflexivity|]. destruct E as [<-|E]; [done|]. by eapply rtc_l. }
  split; [done|]. intros c Ec Hp. rewrite Ec in Hr. inversion Hr as [|a b d Hb _]; subst; [done|]. by destruct (pause_stays _ _ Hp Hb).
Qed.
End laws.
