(* ===== verification/RuntimeScheduler.v ===== *)
(** * RuntimeScheduler: the process around the scheduler pass

    The class [RuntimeScheduler] of [services/execution/scheduler.py]: what it
    publishes of a finished pass, the preflight of a restart, the recovery hold it
    sets and clears, and the supervision of the critical task.  The state is the
    database and the status of the process; a result of a pass is the dynamic value
    the runner returned.  Writing the state file for the API is an answer of the
    file system, which may be an exception; what the file says is left out, and so is
    the health of the other jobs. *)
From S2P Require Import Prelude PyDecimal PyValue Canonical State Receipts RuntimeLock Database Repository Cycle CycleSteps.
From S2P Require Import RiskTiers OperatorProfile SchedulerSteps SchedulerEntry RuntimeHold.
Local Open Scope Z_scope.
Local Open Scope py_scope.

Definition V2_CRITICAL_JOB : string := "automated_trading_v2_cycle".
Definition ENTRY_AUTHORITY_SCOPE_INCONSISTENT : string := "ENTRY_AUTHORITY_SCOPE_INCONSISTENT".
Definition ACTIVE_CONFIG_SNAPSHOT_SCOPE_INCONSISTENT : string := "ACTIVE_CONFIG_SNAPSHOT_SCOPE_INCONSISTENT".
Definition V2_CYCLE_INCOMPLETE : string := "V2_CYCLE_INCOMPLETE".
Definition MAX_INPROCESS_RECOVERY_ATTEMPTS : Z := 3.

(** ** The status *)

Inductive RecoveryState :=
  | RECOVERY_HEALTHY | RECOVERY_CRASH_DETECTED | RECOVERY_ENTRY_HOLD | RECOVERY_MANAGEMENT | RECOVERY_RESTARTING
  | RECOVERY_VERIFYING | RECOVERY_RECOVERED | RECOVERY_BLOCKED | RECOVERY_EXHAUSTED.
#[export] Instance RecoveryState_eq_dec : EqDecision RecoveryState.
Proof. solve_decision. Defined.

Record RecoveryLiveness := mkRecovery {
  rl_state : RecoveryState; rl_reason : option string; rl_attempt : Z; rl_entry_hold : bool;
  rl_last_recovery_at : option datetime }.
Record CriticalJobLiveness := mkJob {
  cj_registered : bool; cj_task_alive : bool; cj_last_failure_at : option datetime; cj_consecutive_failures : Z;
  cj_last_exception : option string; cj_currently_running : bool }.

(** The switch and the authority as the process publishes them. *)
Record EntryStatus := mkEntryStatus {
  es_entry_enabled : option bool; es_entry_authorized : bool; es_entry_authority : string; es_entry_authority_reason : string;
  es_entry_control_reason : option string; es_active_entry_strategy : PyVal; es_promotion_eligible : bool;
  es_trading_state : string; es_reconciliation_healthy : option bool }.
Record SnapshotStatus := mkSnapshotStatus {
  st_active_config_snapshot_id : option string; st_active_config_hash : option string;
  st_pending_config_snapshot_id : option string; st_pending_config_hash : option string; st_active_snapshot_valid : bool }.
Record AuthorizationStatus := mkAuthorization {
  az_production_authorized : bool; az_production_authorization_state : string; az_forward_authorized : bool;
  az_forward_authorization_reason : string; az_sampling_fallback_enabled : option bool; az_startup_contract_errors : list string }.

(** [ru_last_result]: [last_results] of the critical job. *)
Record RuntimeSchedulerStatus := mkStatus {
  ru_execution_mode : option string; ru_natural_testnet_enabled : bool; ru_entry : EntryStatus; ru_snapshot : SnapshotStatus;
  ru_authorization : AuthorizationStatus; ru_recovery : RecoveryLiveness; ru_job : CriticalJobLiveness;
  ru_last_result : PyVal; ru_scheduler_error : option string }.

Definition with_entry (f : EntryStatus -> EntryStatus) (u : RuntimeSchedulerStatus) : RuntimeSchedulerStatus :=
  mkStatus (ru_execution_mode u) (ru_natural_testnet_enabled u) (f (ru_entry u)) (ru_snapshot u) (ru_authorization u)
    (ru_recovery u) (ru_job u) (ru_last_result u) (ru_scheduler_error u).
Definition with_snapshot (f : SnapshotStatus -> SnapshotStatus) (u : RuntimeSchedulerStatus) : RuntimeSchedulerStatus :=
  mkStatus (ru_execution_mode u) (ru_natural_testnet_enabled u) (ru_entry u) (f (ru_snapshot u)) (ru_authorization u)
    (ru_recovery u) (ru_job u) (ru_last_result u) (ru_scheduler_error u).
Definition with_authorization (f : AuthorizationStatus -> AuthorizationStatus) (u : RuntimeSchedulerStatus) : RuntimeSchedulerStatus :=
  mkStatus (ru_execution_mode u) (ru_natural_testnet_enabled u) (ru_entry u) (ru_snapshot u) (f (ru_authorization u))
    (ru_recovery u) (ru_job u) (ru_last_result u) (ru_scheduler_error u).
Definition with_recovery (f : RecoveryLiveness -> RecoveryLiveness) (u : RuntimeSchedulerStatus) : RuntimeSchedulerStatus :=
  mkStatus (ru_execution_mode u) (ru_natural_testnet_enabled u) (ru_entry u) (ru_snapshot u) (ru_authorization u)
    (f (ru_recovery u)) (ru_job u) (ru_last_result u) (ru_scheduler_error u).
Definition with_job (f : CriticalJobLiveness -> CriticalJobLiveness) (u : RuntimeSchedulerStatus) : RuntimeSchedulerStatus :=
  mkStatus (ru_execution_mode u) (ru_natural_testnet_enabled u) (ru_entry u) (ru_snapshot u) (ru_authorization u)
    (ru_recovery u) (f (ru_job u)) (ru_last_result u) (ru_scheduler_error u).
Definition with_error (e : string) (u : RuntimeSchedulerStatus) : RuntimeSchedulerStatus :=
  mkStatus (ru_execution_mode u) (ru_natural_testnet_enabled u) (ru_entry u) (ru_snapshot u) (ru_authorization u)
    (ru_recovery u) (ru_job u) (ru_last_result u) (Some e).

Definition recovery_is (state : RecoveryState) (reason : option string) (r : RecoveryLiveness) : RecoveryLiveness :=
  mkRecovery state reason (rl_attempt r) (rl_entry_hold r) (rl_last_recovery_at r).
Definition recovery_state_is (state : RecoveryState) (r : RecoveryLiveness) : RecoveryLiveness :=
  recovery_is state (rl_reason r) r.
Definition entry_degraded (e : EntryStatus) : EntryStatus :=
  mkEntryStatus (es_entry_enabled e) false (es_entry_authority e) (es_entry_authority_reason e) (es_entry_control_reason e)
    (es_active_entry_strategy e) (es_promotion_eligible e) "DEGRADED" (es_reconciliation_healthy e).

(** ** Results *)

Definition text_of (item : PyDict) (key : string) : string := py_str (py_get item key).
(** [{str(x.get(key)) for x in items if x.get(key)}] *)
Definition texts_of (key : string) (items : list PyDict) : list string :=
  fromkeys (map (fun x => text_of x key) (bfilter (fun x => py_truthy (py_get x key)) items)).
(** [[x for x in d.get("results", []) if isinstance(x, dict)]]: a string and a
    dictionary are iterable too, over values that are not dictionaries. *)
Definition dict_items (d : PyDict) : res (list PyDict) :=
  if existsb (fun x => String.eqb x.1 "results") d then
    match py_get d "results" with
    | VList _ l => Ok (omap (fun x => match x with VDict _ item => Some item | _ => None end) l)
    | VStr _ | VDict _ _ => Ok []
    | _ => Raise (TypeError "object is not iterable")
    end
  else Ok [].
Definition has_status (s : string) (item : PyDict) : bool := py_eq_str (py_get item "status") s.
Definition same_texts (l k : list string) : bool := bool_decide ((list_to_set l : gset string) = list_to_set k).
(** [str(item.get("reconciliation_status") or "").upper()] *)
Definition reconciliation_text (item : PyDict) : string :=
  str_upper (py_str (py_or (py_get item "reconciliation_status") (VStr ""))).

(** ** The delay to the next slot *)

(** Times and delays in microseconds. *)
Definition _aligned_run_delay_seconds (now : datetime) (interval offset : Z) : Z :=
  if interval <=? 0 then 10000
  else if interval <? 60 * second then interval
  else
  let bounded_offset := Z.min (Z.max offset 0) (Z.max (interval - 1000) 0) in
  let target := Z.quot now interval * interval + bounded_offset in
  Z.max ((if target <=? now then target + interval else target) - now) 10000.

(** What the store answers about the Active snapshot, whether the process has a
    coordinator, and whether the state file can be written. *)
Record ActiveStrategyAuthorizationState := mkAuthorizationState {
  as_resolution : EntryAuthorityResolution; as_active_config_snapshot_id : option string; as_active_config_hash : option string;
  as_pending_config_snapshot_id : option string; as_pending_config_hash : option string; as_active_snapshot_valid : bool;
  as_production_authorized : bool; as_production_authorization_reason : string; as_forward_authorized : bool; as_forward_authorization_reason : string }.
Class SchedulerHost := {
  scheduler_pass_host :: PassHost;
  get_active : string -> res (option ActiveSnapshot);
  _active_strategy_authorization_state : string -> ActiveStrategyAuthorizationState;
  coordinated : bool;
  write_external_scheduler_state : nat -> RuntimeSchedulerStatus -> res unit }.

(** ** What the process reads *)

Section process.
Context {P : SchedulerHost}.
Definition RS : Type := Session * RuntimeSchedulerStatus.
Definition in_session {X} (m : SM Session X) : SM RS X := fun '(s, u) => let '(r, s') := m s in (r, (s', u)).
Definition status_now : SM RS RuntimeSchedulerStatus := fun '(s, u) => (Ok u, (s, u)).
Definition update (f : RuntimeSchedulerStatus -> RuntimeSchedulerStatus) : SM RS unit := fun '(s, u) => (Ok tt, (s, f u)).

(** The state file is stamped with a time and written over the old one. *)
Definition _publish_external_state : SM RS unit :=
  fun '(s, u) => (write_external_scheduler_state (s_draws s) u, ((utc_now s).2, u)).

(** Entries enabled, sampling enabled, contract errors. *)
Definition _active_entry_authorization : SM Session (bool * bool * list string) :=
  stry (with_session (
    let! control := get (R := ControlRow) "global" in
    let entry_enabled := match control with Some c => ct_entry_enabled c | None => false end in
    let! runs := slift list_paper_runs in
    match bfilter running_directional runs with
    | [run] =>
        let! active := slift (get_active (default ""%string (pr_paper_run_id run))) in
        let profile := default (pr_execution_profile run) (active ≫= ac_execution_profile) in
        sret (entry_enabled, op_sampling_fallback_enabled profile, [])
    | _ => sret (entry_enabled, false, ["DIRECTIONAL_PROFILE_UNAVAILABLE"%string])
    end))
    (fun _ => Some (sret (false, false, ["ENTRY_CONTRACT_STATE_UNAVAILABLE"%string]))).

Definition mode_of (u : RuntimeSchedulerStatus) : string :=
  match ru_execution_mode u with Some m => if str_truthy m then m else "BINANCE_TESTNET" | None => "BINANCE_TESTNET" end.

Definition snapshot_of (a : ActiveStrategyAuthorizationState) : SnapshotStatus :=
  mkSnapshotStatus (as_active_config_snapshot_id a) (as_active_config_hash a) (as_pending_config_snapshot_id a)
    (as_pending_config_hash a) (as_active_snapshot_valid a).
Definition _refresh_snapshot_lifecycle_from_store (u : RuntimeSchedulerStatus) : bool * RuntimeSchedulerStatus :=
  let lifecycle := _active_strategy_authorization_state (mode_of u) in
  match as_active_config_snapshot_id lifecycle, as_active_config_hash lifecycle with
  | Some _, Some _ => (true, with_snapshot (fun _ => snapshot_of lifecycle) u)
  | _, _ => (false, u)
  end.

(** The contract of a restarted task, read again from the store. *)
Definition _rehydrate_runtime_contract_for_recovery : SM RS bool :=
  let! u := status_now in
  let testnet := String.eqb (mode_of u) "BINANCE_TESTNET" in
  let authorization := _active_strategy_authorization_state (mode_of u) in
  let! read := in_session _active_entry_authorization in
  let '(entry_enabled, sampling_enabled, contract_errors) := read in
  let authority :=
    if bool_decide (ea_authority (as_resolution authorization) = AUTH_NONE) && testnet && ru_natural_testnet_enabled u
       && sampling_enabled
    then resolve_entry_authority (as_production_authorized authorization) None (as_forward_authorized authorization) None
           BINANCE_TESTNET (ru_natural_testnet_enabled u) true
    else as_resolution authorization in
  let none := bool_decide (ea_authority authority = AUTH_NONE) in
  let! hold := in_session _runtime_entry_control_reason in
  let! control_reason := in_session _runtime_entry_control_reason in
  let healthy := negb (bool_decide (es_reconciliation_healthy (ru_entry u) = Some false)) in
  let entry_authorized := entry_enabled && negb none && healthy in
  let trading_state :=
    (if is_recovery_hold hold || negb entry_enabled then "MANAGEMENT_ONLY"
     else if entry_authorized then "TRADING_READY" else "ENTRY_BLOCKED")%string in
  update (fun u =>
    with_entry (fun e => mkEntryStatus (Some entry_enabled) entry_authorized (authority_value (ea_authority authority))
      (ea_reason authority) control_reason (match ea_active_strategy_id authority with Some i => VStr i | None => VNone end)
      (ea_promotion_eligible authority) trading_state (es_reconciliation_healthy e))
    (with_snapshot (fun _ => snapshot_of authorization)
    (with_authorization (fun _ => mkAuthorization (as_production_authorized authorization)
      (if as_production_authorized authorization then "APPROVED" else "PENDING") (as_forward_authorized authorization)
      (as_forward_authorization_reason authorization) (Some sampling_enabled) (fromkeys contract_errors)) u))) ;;;
  _publish_external_state ;;;
  sret (if negb (as_active_snapshot_valid authorization) || negb (ostr_truthy (as_active_config_snapshot_id authorization)) then false
        else if testnet && ru_natural_testnet_enabled u then sampling_enabled else negb none).

(** ** The preflight of a restart *)

Definition unresolved_intent (i : IntentRow) : bool :=
  bool_decide (it_execution_mode i = BINANCE_TESTNET)
  && bool_decide (it_state i ∈ [INTENT_CREATED; EXCHANGE_SUBMITTING; EXCHANGE_UNKNOWN; EXCHANGE_ACKNOWLEDGED]).
(** [text in s] *)
Definition contains_text (text s : string) : bool := bool_decide (is_Some (String.index 0 text s)).

(** The reason of the first item that forbids a restart. *)
Fixpoint ambiguous_item (items : list PyDict) : option string :=
  match items with
  | [] => None
  | item :: items =>
      let reconciliation := reconciliation_text item in
      if negb (bool_decide (reconciliation ∈ [""; "HEALTHY"]%string)) then Some ("reconciliation_" +:+ reconciliation)%string
      else if contains_text "UNKNOWN" (str_upper (py_str (py_or (py_get item "error") (VStr "")))) then Some "EXCHANGE_UNKNOWN"%string
      else ambiguous_item items
  end.

Definition stored_ambiguity : SM Session (option string) :=
  with_session (
    let! unresolved := select unresolved_intent in
    if is_nonempty unresolved then sret (Some "ACTIVE_EXECUTION_INTENT_REQUIRES_RECONCILIATION"%string)
    else
    let! rows := select (fun r => bool_decide (rs_execution_mode r = BINANCE_TESTNET)) in
    sret (match newest_first rs_captured_at rows with
          | latest :: _ => if String.eqb (rs_status latest) "HEALTHY" then None
                           else Some ("reconciliation_" +:+ rs_status latest)%string
          | [] => None
          end)).

(** What the last result says about a restart. *)
Definition result_ambiguity (last : PyVal) : res (bool * string) :=
  match last with
  | VDict _ d =>
      dict_items d ≫= fun items =>
      Ok (match ambiguous_item items with
          | Some reason => (false, reason)
          | None => (true, "reconciliation_preflight_clean"%string)
          end)
  | _ => Ok (true, "no_completed_cycle"%string)
  end.

(** Whether a restart is safe, and why. *)
Definition _safe_v2_recovery_check (last : PyVal) : SM Session (bool * string) :=
  let! answer := slift (result_ambiguity last) in
  let '(safe, reason) := answer in
  if negb safe || negb coordinated then sret (safe, reason)
  else
  stry (let! stored := stored_ambiguity in
        sret (match stored with Some ambiguity => (false, ambiguity) | None => (true, reason) end))
    (fun _ => Some (sret (false, "recovery_preflight_unavailable"%string))).

(** ** The recovery hold *)

Definition _set_recovery_hold (reason : string) : SM RS unit :=
  let hold_reason := hold_reason_of reason in
  let! persisted := in_session (persist_liveness_recovery_hold hold_reason) in
  let! control := in_session _runtime_entry_control_state in
  let '(current_enabled, current_reason) := control in
  let manual_pause_preserved := bool_decide (current_enabled = Some false) && negb (is_recovery_hold current_reason) in
  let current_text := match current_reason with Some r => r | None => "None"%string end in
  let! now := in_session utc_now in
  update (fun u =>
    with_recovery (fun r => mkRecovery
      (if persisted then RECOVERY_ENTRY_HOLD else if manual_pause_preserved then RECOVERY_HEALTHY else RECOVERY_BLOCKED)
      (Some (if persisted then hold_reason else if manual_pause_preserved then current_text
             else hold_reason +:+ ":PERSIST_FAILED")%string)
      (rl_attempt r) persisted (Some now))
    (with_entry (fun e => mkEntryStatus (Some false) false (es_entry_authority e) (es_entry_authority_reason e)
      (if manual_pause_preserved then Some current_text else es_entry_control_reason e) (es_active_entry_strategy e)
      (es_promotion_eligible e) "MANAGEMENT_ONLY" (es_reconciliation_healthy e)) u)) ;;;
  _publish_external_state.

(** A pass that ran every symbol and found each of them reconciled. *)
Definition healthy_result (cycle_result : PyVal) : bool :=
  match cycle_result with
  | VDict _ d =>
      py_eq_str (py_get d "status") "completed"
      && match py_get d "results" with
         | VList _ items => is_nonempty items
             && forallb (fun x => match x with VDict _ item => String.eqb (reconciliation_text item) "HEALTHY" | _ => false end) items
         | _ => false
         end
  | _ => false
  end.

Definition strategy_authority (authority : string) : bool := bool_decide (authority ∈ ["TESTNET_FORWARD"; "PRODUCTION"]%string).
Definition readiness_incomplete (u : RuntimeSchedulerStatus) : bool :=
  let e := ru_entry u in
  let s := ru_snapshot u in
  String.eqb (es_trading_state e) "DEGRADED" || negb (bool_decide (es_reconciliation_healthy e = Some true))
  || strategy_authority (es_entry_authority e)
     && (negb (st_active_snapshot_valid s) || negb (ostr_truthy (st_active_config_snapshot_id s))
         || negb (ostr_truthy (st_active_config_hash s)) || negb (py_truthy (es_active_entry_strategy e))).

Definition managed_under (reason : option string) : SM RS bool :=
  update (with_recovery (recovery_is RECOVERY_MANAGEMENT reason)) ;;; _publish_external_state ;;; sret false.

Definition recovered (now : datetime) (u : RuntimeSchedulerStatus) : RuntimeSchedulerStatus :=
  with_recovery (fun _ => mkRecovery RECOVERY_RECOVERED (Some LIVENESS_RECOVERY_RECOVERED) 0 false (Some now))
  (with_entry (fun e =>
     let authorized := negb (String.eqb (es_entry_authority e) "NONE") in
     mkEntryStatus (Some true) authorized (es_entry_authority e) (es_entry_authority_reason e)
       (Some LIVENESS_RECOVERY_RECOVERED) (es_active_entry_strategy e) (es_promotion_eligible e)
       (if authorized then "TRADING_READY" else "ENTRY_BLOCKED") (es_reconciliation_healthy e)) u).

Definition _maybe_clear_recovery_hold (cycle_result : PyVal) : SM RS bool :=
  let! u := status_now in
  let r := ru_recovery u in
  if negb (rl_entry_hold r)
     || negb (bool_decide (rl_state r ∈ [RECOVERY_ENTRY_HOLD; RECOVERY_MANAGEMENT; RECOVERY_VERIFYING])) then sret false
  else if negb (healthy_result cycle_result) then sret false
  else
  let! preflight := in_session (_safe_v2_recovery_check (ru_last_result u)) in
  if negb preflight.1 then managed_under (Some (if str_truthy preflight.2 then preflight.2 else ostr_or (rl_reason r) "recovery_pending"))
  else if readiness_incomplete u then managed_under (Some "recovery_readiness_incomplete"%string)
  else
  let! clear := in_session _clear_liveness_recovery_hold in
  let '(cleared, control_reason) := clear in
  if negb cleared && negb (is_recovery_hold control_reason) then
    update (with_recovery (fun r => mkRecovery RECOVERY_HEALTHY (Some (ostr_or control_reason "operator_control")) (rl_attempt r)
      false (rl_last_recovery_at r))) ;;;
    _publish_external_state ;;;
    sret false
  else if negb cleared then managed_under (Some "hold_clear_failed"%string)
  else
  let! now := in_session utc_now in
  update (recovered now) ;;;
  _publish_external_state ;;;
  sret true.

(** After a pass of the critical job: a hold of the process supervisor is adopted,
    and cleared by a healthy pass. *)
Definition note_critical_result (result : PyVal) : SM RS unit :=
  let! reason := in_session _runtime_entry_control_reason in
  update (fun u => if is_recovery_hold reason && negb (rl_entry_hold (ru_recovery u))
                   then with_recovery (fun r => mkRecovery RECOVERY_ENTRY_HOLD (rl_reason r) (rl_attempt r) true (rl_last_recovery_at r)) u
                   else u) ;;;
  let! u := status_now in
  if rl_entry_hold (ru_recovery u) then
    update (with_recovery (recovery_state_is RECOVERY_MANAGEMENT)) ;;;
    _maybe_clear_recovery_hold result ;;;
    sret tt
  else
  match result with
  | VDict _ d =>
      if py_eq_str (py_get d "status") "completed"
         && bool_decide (rl_state (ru_recovery u) ∈ [RECOVERY_VERIFYING; RECOVERY_RESTARTING])
      then update (with_recovery (fun r => mkRecovery RECOVERY_HEALTHY None 0 (rl_entry_hold r) (rl_last_recovery_at r)))
      else sret tt
  | _ => sret tt
  end.

(** ** What a finished pass publishes *)

Definition incomplete_pass (failure_reason : string) (u : RuntimeSchedulerStatus) : RuntimeSchedulerStatus :=
  let capture := String.eqb failure_reason ACTIVE_CONFIG_SNAPSHOT_CAPTURE_FAILED in
  with_error failure_reason
  (with_entry (fun e => mkEntryStatus (es_entry_enabled e) false (es_entry_authority e) (es_entry_authority_reason e)
     (es_entry_control_reason e) (es_active_entry_strategy e) (es_promotion_eligible e) "DEGRADED" (Some false))
  (if capture then
     with_snapshot (fun s => mkSnapshotStatus (st_active_config_snapshot_id s) (st_active_config_hash s)
       (st_pending_config_snapshot_id s) (st_pending_config_hash s) false)
     (with_authorization (fun a => mkAuthorization (az_production_authorized a) (az_production_authorization_state a) false
       failure_reason (az_sampling_fallback_enabled a) (az_startup_contract_errors a)) u)
   else u)).

Definition several_authorities (u : RuntimeSchedulerStatus) : RuntimeSchedulerStatus :=
  with_error ENTRY_AUTHORITY_SCOPE_INCONSISTENT
  (with_entry (fun e => mkEntryStatus (es_entry_enabled e) false "NONE" ENTRY_AUTHORITY_SCOPE_INCONSISTENT
     (es_entry_control_reason e) VNone false "DEGRADED" (es_reconciliation_healthy e))
  (with_snapshot (fun s => mkSnapshotStatus (st_active_config_snapshot_id s) (st_active_config_hash s)
     (st_pending_config_snapshot_id s) (st_pending_config_hash s) false)
  (with_authorization (fun a => mkAuthorization false (az_production_authorization_state a) false
     (az_forward_authorization_reason a) (az_sampling_fallback_enabled a) (az_startup_contract_errors a)) u))).

Definition several_snapshots (u : RuntimeSchedulerStatus) : RuntimeSchedulerStatus :=
  with_error ACTIVE_CONFIG_SNAPSHOT_SCOPE_INCONSISTENT
  (with_entry (fun e => mkEntryStatus (es_entry_enabled e) false (es_entry_authority e) ACTIVE_CONFIG_SNAPSHOT_SCOPE_INCONSISTENT
     (es_entry_control_reason e) (es_active_entry_strategy e) (es_promotion_eligible e) "DEGRADED" (es_reconciliation_healthy e))
  (with_snapshot (fun s => mkSnapshotStatus None None (st_pending_config_snapshot_id s) (st_pending_config_hash s) false)
  (with_authorization (fun a => mkAuthorization (az_production_authorized a) (az_production_authorization_state a) false
     ACTIVE_CONFIG_SNAPSHOT_SCOPE_INCONSISTENT (az_sampling_fallback_enabled a) (az_startup_contract_errors a)) u))).

(** The authority of the first symbol, before the snapshot is looked at. *)
Definition authority_published (authority : string) (first : PyDict) (u : RuntimeSchedulerStatus) : RuntimeSchedulerStatus :=
  with_entry (fun e => mkEntryStatus (es_entry_enabled e) (py_truthy (py_get first "entry_authorized")) authority
    (py_str (py_or (py_get first "entry_authority_reason") (VStr "unknown"))) (es_entry_control_reason e)
    (py_get first "active_entry_strategy") (py_truthy (py_get first "promotion_eligible")) (es_trading_state e)
    (es_reconciliation_healthy e))
  (with_authorization (fun a => mkAuthorization (az_production_authorized a)
    (py_str (py_or (py_get first "production_authorization_state") (VStr (az_production_authorization_state a))))
    (az_forward_authorized a) (az_forward_authorization_reason a) (az_sampling_fallback_enabled a)
    (az_startup_contract_errors a)) u).

Definition reconciliation_published (resolved : list PyDict) (u : RuntimeSchedulerStatus) : RuntimeSchedulerStatus :=
  let reconciliation := bfilter (fun x => negb (py_is_none (py_get x "reconciliation_status"))) resolved in
  with_entry (fun e => mkEntryStatus (es_entry_enabled e) (es_entry_authorized e) (es_entry_authority e)
    (es_entry_authority_reason e) (es_entry_control_reason e) (es_active_entry_strategy e) (es_promotion_eligible e)
    (es_trading_state e)
    (if is_nonempty reconciliation then Some (forallb (fun x => String.eqb (reconciliation_text x) "HEALTHY") reconciliation)
     else es_reconciliation_healthy e)) u.

Definition all_have (keys : list string) (items : list PyDict) : bool :=
  forallb (fun x => forallb (fun k => py_truthy (py_get x k)) keys) items.
Definition same_binding (a b : PyDict) : bool :=
  forallb (fun k => py_eqb (py_get a k) (py_get b k)) ["active_config_snapshot_id"; "active_config_hash"]%string.
(** A binding can be an element of a set. *)
Definition hashable_binding (a : PyDict) : bool :=
  forallb (fun k => match py_get a k with VList _ _ | VDict _ _ => false | _ => true end)
    ["active_config_snapshot_id"; "active_config_hash"]%string.

Definition snapshot_bound (id hash : string) (sampling : option bool) (u : RuntimeSchedulerStatus) : RuntimeSchedulerStatus :=
  with_snapshot (fun s =>
    let pending := if bool_decide (st_pending_config_snapshot_id s = Some id) then (None, None)
                   else (st_pending_config_snapshot_id s, st_pending_config_hash s) in
    mkSnapshotStatus (Some id) (Some hash) pending.1 pending.2 true)
  (with_authorization (fun a => mkAuthorization (az_production_authorized a) (az_production_authorization_state a)
    (az_forward_authorized a) (az_forward_authorization_reason a)
    (match sampling with Some b => Some b | None => az_sampling_fallback_enabled a end) (az_startup_contract_errors a)) u).
Definition snapshot_unbound (u : RuntimeSchedulerStatus) : RuntimeSchedulerStatus :=
  let '(found, u) := _refresh_snapshot_lifecycle_from_store u in
  if found then u
  else with_snapshot (fun s => mkSnapshotStatus None None (st_pending_config_snapshot_id s) (st_pending_config_hash s) false) u.

Definition authorization_published (authority : string) (u : RuntimeSchedulerStatus) : RuntimeSchedulerStatus :=
  with_authorization (fun a =>
    let forward := String.eqb authority "TESTNET_FORWARD" in
    mkAuthorization (String.eqb authority "PRODUCTION") (az_production_authorization_state a) forward
      (if forward then "TESTNET_FORWARD_AUTHORIZED" else az_forward_authorization_reason a)
      (az_sampling_fallback_enabled a) (az_startup_contract_errors a)) u.

Definition trading_published (authority : string) (first : PyDict) (u : RuntimeSchedulerStatus) : RuntimeSchedulerStatus :=
  with_entry (fun e =>
    let unhealthy := bool_decide (es_reconciliation_healthy e = Some false) in
    let cycle_trading_state := py_str (py_or (py_get first "trading_state") (VStr "ENTRY_BLOCKED")) in
    let '(authorized, state) :=
      if bool_decide (es_entry_enabled e = Some false) then (false, if unhealthy then "DEGRADED" else "MANAGEMENT_ONLY")
      else if unhealthy then (false, "DEGRADED")
      else if String.eqb authority "NONE" then (false, "ENTRY_BLOCKED")
      else (es_entry_authorized e,
            if bool_decide (cycle_trading_state ∈ ["TRADING_READY"; "MANAGEMENT_ONLY"; "ENTRY_BLOCKED"; "DEGRADED"]%string)
            then cycle_trading_state else "DEGRADED") in
    mkEntryStatus (es_entry_enabled e) authorized (es_entry_authority e) (es_entry_authority_reason e)
      (es_entry_control_reason e) (es_active_entry_strategy e) (es_promotion_eligible e) state%string
      (es_reconciliation_healthy e)) u.

Definition refresh_resolved (first : PyDict) (resolved : list PyDict) : SM RS unit :=
  update (reconciliation_published resolved) ;;;
  match fromkeys (map (fun x => py_str (py_or (py_get x "entry_authority") (VStr "NONE"))) resolved) with
  | [authority] =>
      update (authority_published authority first) ;;;
      let bound := all_have ["active_config_snapshot_id"; "active_config_hash"]%string resolved in
      let snapshot_binding := match texts_of "active_config_snapshot_id" resolved, texts_of "active_config_hash" resolved with
                              | [id], [hash] => if bound then Some (id, hash) else None
                              | _, _ => None
                              end in
      let strategy_binding := (length (texts_of "active_entry_strategy" resolved) =? 1)%nat
                              && all_have ["active_entry_strategy"%string] resolved in
      sassert (forallb hashable_binding resolved) (TypeError "unhashable type") ;;;
      if negb (forallb (same_binding first) resolved) then update several_snapshots
      else if strategy_authority authority && (negb (bool_decide (is_Some snapshot_binding)) || negb strategy_binding)
      then update several_snapshots
      else
      match snapshot_binding with
      | Some (id, hash) =>
          let! u := status_now in
          if ru_natural_testnet_enabled u then
            let! read := in_session _active_entry_authorization in
            update (snapshot_bound id hash (Some read.1.2))
          else update (snapshot_bound id hash None)
      | None => update snapshot_unbound
      end ;;;
      update (authorization_published authority) ;;;
      update (trading_published authority first)
  | _ => update several_authorities
  end.

Definition _refresh_entry_authority_from_v2_cycle (cycle_result : PyDict) : SM RS unit :=
  let! all_results := slift (dict_items cycle_result) in
  let completed := bfilter (has_status "completed") all_results in
  if negb (py_eq_str (py_get cycle_result "status") "completed")
     || negb (same_texts (texts_of "symbol" completed) AUTO_SIMULATION_EXECUTION_SYMBOLS)
  then
    let failure_reason := match texts_of "error_code" (bfilter (has_status "error") all_results) with
                          | [code] => code | _ => V2_CYCLE_INCOMPLETE end in
    update (incomplete_pass failure_reason)
  else
  match completed with
  | [] => sret tt
  | first :: _ => refresh_resolved first completed
  end.

(** ** The supervised task *)

(** How a run of the task ended: it returned, it was cancelled, or it failed with this text. *)
Inductive TaskEnd := TASK_RETURNED | TASK_CANCELLED | TASK_FAILED (error : string).
(** How the wait after a failure ended. *)
Inductive WaitEnd := WAIT_ELAPSED | WAIT_STOPPED | WAIT_CANCELLED.
(** A run of the task and what the event loop does around it: what the run did, whether
    the stop event was set when it ended, whether the supervisor was cancelled during
    the preflight, and how the wait ended. *)
Record TaskRun := mkRun {
  tr_run : RS -> TaskEnd * RS; tr_stop_set : bool; tr_preflight_cancelled : bool; tr_wait : WaitEnd }.
Definition CancelledError : PyExc := OtherException "CancelledError".
(** What a run asks of the supervisor: to return, to raise, or to handle this error. *)
Definition task_outcome (run : TaskRun) (ended : TaskEnd) : option (res string) :=
  match ended with
  | TASK_RETURNED => if tr_stop_set run then None else Some (Ok "critical task exited unexpectedly"%string)
  | TASK_CANCELLED => if tr_stop_set run then None else Some (Raise CancelledError)
  | TASK_FAILED error => Some (Ok error)
  end.
(** How the supervisor ended: it returned as the process stops, it returned because the
    attempts are spent, it raised, or it is still running. *)
Inductive SupervisorEnd := SUPERVISOR_STOPPED | SUPERVISOR_EXHAUSTED | SUPERVISOR_RAISED (e : PyExc) | SUPERVISOR_RUNNING.

Definition _critical_task_backoffs (index : nat) : Z := nth (Nat.min index 2) [5; 15; 30] 30.

Definition task_started (j : CriticalJobLiveness) : CriticalJobLiveness :=
  mkJob true true (cj_last_failure_at j) (cj_consecutive_failures j) (cj_last_exception j) (cj_currently_running j).
Definition job_failed (error : string) (now : datetime) (j : CriticalJobLiveness) : CriticalJobLiveness :=
  mkJob (cj_registered j) false (Some now) (cj_consecutive_failures j + 1) (Some error) false.

Definition rehydrate_before_run : SM RS unit :=
  let! u := status_now in
  if coordinated && bool_decide (rl_state (ru_recovery u) ∈ [RECOVERY_RESTARTING; RECOVERY_VERIFYING; RECOVERY_MANAGEMENT]) then
    let! rehydrated := _rehydrate_runtime_contract_for_recovery in
    if (rehydrated : bool) then sret tt
    else
    _set_recovery_hold "RECOVERY_CONFIG_REHYDRATION_FAILED" ;;;
    update (with_recovery (recovery_state_is RECOVERY_MANAGEMENT))
  else sret tt.

(** A failed run: the end of the supervision, or whether the restart is for
    management only. *)
Definition after_failure (error : string) (preflight_cancelled : bool) : SM RS (option bool) :=
  let! failed_at := in_session utc_now in
  update (fun u => with_error (V2_CRITICAL_JOB +:+ ": " +:+ error)%string (with_job (job_failed error failed_at) u)) ;;;
  let! crashed_at := in_session utc_now in
  update (with_recovery (fun r => mkRecovery RECOVERY_CRASH_DETECTED (Some error) (rl_attempt r + 1) (rl_entry_hold r) (Some crashed_at))) ;;;
  let! u := status_now in
  if MAX_INPROCESS_RECOVERY_ATTEMPTS <=? rl_attempt (ru_recovery u) then
    _set_recovery_hold (error +:+ ":AUTO_RECOVERY_EXHAUSTED")%string ;;;
    update (with_recovery (recovery_is RECOVERY_EXHAUSTED (Some error))) ;;;
    _publish_external_state ;;;
    sret None
  else
  _publish_external_state ;;;
  sassert (negb preflight_cancelled) CancelledError ;;;
  let! recovery := in_session (_safe_v2_recovery_check (ru_last_result u)) in
  if recovery.1 then update (with_recovery (recovery_state_is RECOVERY_RESTARTING)) ;;; sret (Some false)
  else
  let reason := if str_truthy recovery.2 then recovery.2 else "v2_recovery_blocked"%string in
  _set_recovery_hold reason ;;;
  update (with_recovery (recovery_is RECOVERY_MANAGEMENT (Some reason))) ;;;
  _publish_external_state ;;;
  sret (Some true).

(** The loop of the supervisor over the runs of its task: how it ended, how many runs it
    started, and the waits between them. *)
Fixpoint supervise_runs (backoff_index : nat) (runs : list TaskRun) (w : RS) : (SupervisorEnd * nat * list Z) * RS :=
  match runs with
  | [] => ((SUPERVISOR_RUNNING, 0%nat, []), w)
  | run :: runs =>
      let '(ready, w) := (update (with_job task_started) ;;; rehydrate_before_run) w in
      match ready with
      | Raise e => ((SUPERVISOR_RAISED e, 0%nat, []), w)
      | Ok _ =>
          let '(finished, w) := tr_run run w in
          match task_outcome run finished with
          | None => ((SUPERVISOR_STOPPED, 1%nat, []), w)
          | Some (Raise e) => ((SUPERVISOR_RAISED e, 1%nat, []), w)
          | Some (Ok error) =>
              let '(answer, w) := after_failure error (tr_preflight_cancelled run) w in
              match answer with
              | Raise e => ((SUPERVISOR_RAISED e, 1%nat, []), w)
              | Ok None => ((SUPERVISOR_EXHAUSTED, 1%nat, []), w)
              | Ok (Some management_only) =>
                  let delay := _critical_task_backoffs backoff_index in
                  match tr_wait run with
                  | WAIT_CANCELLED => ((SUPERVISOR_RAISED CancelledError, 1%nat, [delay]), w)
                  | WAIT_STOPPED => ((SUPERVISOR_STOPPED, 1%nat, [delay]), w)
                  | WAIT_ELAPSED =>
                      let w := if (management_only : bool) then w
                               else (w.1, with_recovery (recovery_state_is RECOVERY_VERIFYING) w.2) in
                      let '((ended, started, delays), w) := supervise_runs (S backoff_index) runs w in
                      ((ended, S started, delay :: delays), w)
                  end
              end
          end
      end
  end.
Definition _supervise_critical_task (stop_set : bool) (runs : list TaskRun) (w : RS) : (SupervisorEnd * nat * list Z) * RS :=
  if stop_set then ((SUPERVISOR_STOPPED, 0%nat, []), w) else supervise_runs 0 runs w.
End process.
