(* ===== verification/RuntimeLaws.v ===== *)
(** * RuntimeLaws: what the scheduler's process guarantees

    A hold stops every later cycle from opening exposure, and is cleared only by a
    healthy, complete pass; what is published of a pass is consistent across its
    symbols; a failing task is restarted a bounded number of times. *)
From S2P Require Import Prelude PyDecimal PyValue Canonical State ClientOrderId Receipts RuntimeLock Adapter AccountWriter BinanceAdapter Composition.
From S2P Require Import Database Repository Transactions Ledger RepositoryLaws FactPersistence FactLaws SwitchLaws FactRules Cycle CycleSteps.
From S2P Require Import CycleEntry CycleLaws CycleSafety CycleVenue RiskTiers OperatorProfile SchedulerCoordination SchedulerSteps SchedulerEntry.
From S2P Require Import SchedulerLaws RuntimeHold RuntimeScheduler.
Local Open Scope Z_scope.
Local Open Scope py_scope.

(** ** The hold *)

Section hold.
Context {H : Host}.
Notation control_in := (find_row (R := ControlRow) "global").

(** Of the constraints, only the key is about the table of controls. *)
Lemma constraints_controls d l : constraints_ok d = true -> NoDup (map ct_scope l) ->
  constraints_ok (with_rows (R := ControlRow) l d) = true.
Proof.
  unfold constraints_ok, unique_key. cbn. rewrite !andb_true_iff, !bool_decide_eq_true. intros Hd Hl. tauto.
Qed.

Lemma control_keys d : constraints_ok d = true -> NoDup (map ct_scope (controls d)).
Proof. exact (unique_keys (R := ControlRow) d). Qed.

Lemma constraints_insert_control c d : constraints_ok d = true -> find_row (R := ControlRow) (ct_scope c) d = None ->
  constraints_ok (insert_row c d) = true.
Proof.
  intros Hd Hf. apply (constraints_controls d); [done|]. cbn. rewrite map_app. apply NoDup_app.
  split; [by apply control_keys|]. split; [|apply NoDup_singleton]. intros k (x & -> & Hx)%list_elem_of_fmap Hk.
  apply list_elem_of_singleton in Hk. unfold find_row in Hf.
  apply list_elem_of_In in Hx. apply (find_none _ _ Hf x) in Hx. simpl in Hx. by rewrite Hk, String.eqb_refl in Hx.
Qed.
Lemma constraints_swapped matching enabled reason by' t d : constraints_ok d = true ->
  constraints_ok (swapped matching enabled reason by' t d) = true.
Proof.
  intros Hd. apply (constraints_controls d); [done|]. rewrite map_map.
  erewrite map_ext; [by apply control_keys|]. intros c. by destruct (matching c).
Qed.

Lemma ensure_succeeds enabled reason by' s : constraints_ok (s_db s) = true ->
  exists c s', ensure_runtime_control "global" enabled reason by' s = (Ok c, s') /\ constraints_ok (s_db s') = true.
Proof.
  intros Hc. unfold ensure_runtime_control, sbind, get. destruct (control_in (s_db s)) as [c|] eqn:Ec; [by eexists _, _|].
  unfold read_db, server_now, stry, add, on_db, smodify, flush, sret. cbn [s_db s_committed s_draws].
  rewrite constraints_insert_control by done. eexists _, _. split; [reflexivity|]. by apply constraints_insert_control.
Qed.
Lemma swap_succeeds version enabled reason enabled' reason' by' s : constraints_ok (s_db s) = true ->
  exists b s', compare_and_set_runtime_control "global" version enabled reason enabled' reason' by' s = (Ok b, s') /\
    constraints_ok (s_db s') = true.
Proof.
  intros Hc. unfold compare_and_set_runtime_control, sbind, utc_now, flush, read_db, on_db, smodify, sret.
  cbn [s_db s_committed s_draws]. rewrite Hc. cbn [s_db s_committed s_draws].
  pose proof (constraints_swapped (control_matches "global" version enabled reason) enabled' reason' by' (clock (s_draws s)) _ Hc) as Hs.
  unfold swapped in Hs. rewrite Hs. eexists _, _. split; [reflexivity|]. exact Hs.
Qed.
Lemma commit_succeeds s : constraints_ok (s_db s) = true -> exists s', commit s = (Ok tt, s') /\ s_committed s' = s_db s.
Proof. intros Hc. unfold commit, flush, sbind. rewrite Hc. by eexists. Qed.

(** The row a claim meets, and what it answers. *)
Definition holdable (c : ControlRow) : Prop := ~ operator_pause c.
Lemma claim_answers o reason s : constraints_ok (s_db s) = true -> control_in (s_db s) = Some o ->
  (ct_entry_enabled o = true -> ct_reason o <> Some ""%string) -> is_recovery_hold (Some reason) = true ->
  exists b s', claim_observed o reason s = (Ok b, s') /\ (b = true <-> holdable o) /\
    (b = true -> exists c, control_of s' = Some c /\ ct_entry_enabled c = false /\ is_recovery_hold (ct_reason c) = true) /\
    (b = false -> s_committed s' = s_committed s).
Proof.
  intros Hc Ho Hr Hh. unfold claim_observed, holdable, operator_pause. rewrite reason_of_hold.
  destruct (ct_entry_enabled o) eqn:He, (is_recovery_hold (ct_reason o)) eqn:Hp; cbn [negb andb].
  3: destruct (bool_decide_reflect (reason_of o = Some reason)) as [Es|].
  3: { destruct (commit_succeeds s Hc) as (s1 & E & E1). unfold sbind. rewrite E. eexists true, s1. split; [done|].
       split; [split; [by intros _ []|done]|]. split; [|done]. intros _. exists o. unfold control_of. rewrite E1.
       rewrite <- reason_of_hold, Es. by split_and!. }
  4: { eexists false, s. split; [done|]. split; [split; [done|intros Hn; by destruct Hn]|done]. }
  all: unfold sbind; edestruct (swap_succeeds (ct_version o)) as (b & s1 & E & E1); [exact Hc|]; rewrite E.
  all: destruct (compare_and_set_cases _ _ _ _ _ _ _ _ _ _ E) as [(-> & c & Ec & _ & Ec')|(-> & _ & Hn)];
    [|exfalso; apply (Hn o Ho); split_and!; [done..|]; unfold reason_of; destruct (ct_reason o) as [[|a q]|]; try done; by destruct (Hr eq_refl)].
  all: cbn [negb]; destruct (commit_succeeds s1 E1) as (s2 & E2 & E3); rewrite E2; eexists true, s2; split; [done|].
  all: split; [split; [by intros _ []|done]|]; split; [|done]; intros _; eexists; unfold control_of; rewrite E3.
  all: by split_and!.
Qed.

Lemma held_not_enabled s c : control_of s = Some c -> ct_entry_enabled c = false -> ~ entries_enabled s.
Proof. intros Ec Ee (c0 & E0 & He). unfold control_of in Ec. congruence. Qed.

(** Enabled with an empty reason: the swap that would disable it expects NULL, so it fails. *)
Definition unswappable (c : ControlRow) : Prop := ct_entry_enabled c = true /\ ct_reason c = Some ""%string.
Lemma claim_unswappable o reason s : constraints_ok (s_db s) = true ->
  control_in (s_db s) = Some o -> unswappable o -> exists s', claim_observed o reason s = (Ok false, s') /\ s_committed s' = s_committed s.
Proof.
  intros Hc Ho [He Hr]. unfold claim_observed. rewrite He. cbn [negb andb].
  unfold sbind. edestruct (swap_succeeds (ct_version o) true (reason_of o)) as (b & s1 & E & _); [exact Hc|]. rewrite E.
  assert (s_committed s1 = s_committed s) as Hs by exact (op_committed _ _ _ _ (op_compare_and_set _ _ _ _ _ _ _) E).
  destruct (compare_and_set_cases _ _ _ _ _ _ _ _ _ _ E) as [(-> & c & Ec & (_ & _ & Hm) & _)|(-> & _ & _)].
  - exfalso. rewrite Ho in Ec. injection Ec as <-. unfold reason_of in Hm. rewrite Hr in Hm. discriminate Hm.
  - cbn [negb]. eexists. split; [reflexivity|]. exact Hs.
Qed.

Lemma persist_answers reason s : constraints_ok (s_committed s) = true ->
  exists b s', persist_liveness_recovery_hold reason s = (Ok b, s') /\
    (b = true <-> forall c, control_of s = Some c -> holdable c /\ ~ unswappable c) /\
    (b = true -> exists c, control_of s' = Some c /\ ct_entry_enabled c = false /\ is_recovery_hold (ct_reason c) = true) /\
    (b = false -> control_of s' = control_of s).
Proof.
  intros Hc. unfold persist_liveness_recovery_hold, _claim_liveness_recovery_hold, stry, with_session, sbind.
  destruct (ensure_succeeds false (Some (hold_reason_of reason)) (Some "liveness-supervisor"%string)
    (mkSession (s_committed s) (s_committed s) (s_draws s)) Hc) as (o & s1 & E & E1). rewrite E.
  assert (s_committed s1 = s_committed s) as Ecom by exact (op_committed _ _ _ _ (op_ensure_runtime_control _ _ _ _) E).
  apply ensure_run in E as [Eo Ein]. cbn [s_db] in Ein.
  assert (unswappable o \/ (ct_entry_enabled o = true -> ct_reason o <> Some ""%string)) as [Hu|Hr].
  { unfold unswappable. destruct (ct_entry_enabled o); [|by right]. destruct (decide (ct_reason o = Some ""%string)); [by left|by right]. }
  - destruct (claim_unswappable o (hold_reason_of reason) s1 E1 Eo Hu) as (s2 & E2 & Es2).
    rewrite E2. eexists false, _. split; [done|]. assert (control_of s = Some o) as Hs.
    { destruct Ein as [Ein|(_ & Hn & _)]; [exact Ein|]. destruct Hu as [Hu _]. congruence. }
    split; [|split; [done|]]; [split; [done|intros Hh; by destruct (Hh o Hs)]|]. intros _. unfold control_of. cbn. by rewrite Es2, Ecom.
  - destruct (claim_answers o (hold_reason_of reason) s1) as (b & s2 & E2 & Hb & Ht & Hf); [done|done|done|apply hold_reason_is_hold|].
    rewrite E2. eexists b, _. split; [done|]. split; [|split; [exact Ht|]].
    + rewrite Hb. destruct Ein as [Ein|(Ein & _ & Er & _)]; unfold control_of; rewrite Ein.
      * split; [|intros Hh; by apply Hh]. intros Hh c [= <-]. split; [done|]. intros [He Hx]. by apply Hr.
      * split; [by intros _ c|]. intros _ [_ Hp]. by rewrite Er, hold_reason_is_hold in Hp.
    + intros ->. unfold control_of. cbn. by rewrite Hf, Ecom.
Qed.
End hold.

Section held.
Context {P : PassHost} {W : Type} {V : VenueClient W} (cap : option AccountWriterCapability).
Notation St := (AState (W * list VenueEvent)).
Notation World := (RecoveryExecutor.World (W := St)).
#[local] Instance held_on_binance : CycleAdapter St := binance_cycle_adapter (V := recorded V) cap.

(** What may happen after a moment: passes of the scheduler, cycles that persist their facts
    or whose engine is not ACTIVE, restarts of the process and, between them, whatever
    other processes do to the venue and, except for the switch, to the database. *)
Inductive later : World -> World -> Prop :=
  | later_now w : later w w
  | later_pass w w1 q canary source d r w2 d' : later w w1 ->
      _execute_v2_automated_trading_cycles q canary source (w1, d) = (r, (w2, d')) -> later w w2
  | later_cycle w w1 request r w2 : later w w1 ->
      cq_persist_facts request = true \/ cq_engine_activation request <> ACTIVE ->
      run_automated_trading_cycle request w1 = (r, w2) -> later w w2
  | later_others w b v l s b' v' s' : later w ((b, (v, l)), s) -> switch_kept (s_committed s) (s_committed s') ->
      later w ((b', (v', l)), s').

Definition switched_off (s : Session) : Prop := exists c, control_of s = Some c /\ ct_entry_enabled c = false.
(** Nothing is opened, and the switch is off. *)
Definition off_and_reducing (w : World) : Prop := switched_off w.2 /\ Forall (fun e => reduces_risk e = true) (log w.1).

Lemma off_later s s' : switched_off s -> switch_kept (s_committed s) (s_committed s') -> switched_off s'.
Proof. intros (c & Ec & He) Hk. exists c. split; [by apply Hk|done]. Qed.

Lemma off_cycle request w r w' : cq_persist_facts request = true \/ cq_engine_activation request <> ACTIVE ->
  off_and_reducing w -> run_automated_trading_cycle request w = (r, w') -> off_and_reducing w'.
Proof.
  destruct w as [w s], w' as [w' s']. intros Hq [Ho Hl] E. cbn [fst snd] in *.
  split; cbn [fst snd]; [exact (off_later _ _ Ho (cycle_moves_tables switch_kept _ _ _ _ _ E))|].
  apply (cycle_sanctioned cap) in E as (l1 & El & E). cbn [fst snd] in *. rewrite El. apply Forall_app. split; [done|].
  eapply Forall_impl; [exact E|]. intros e He. destruct (reduces_risk e) eqn:Ee; [done|]. exfalso.
  destruct (canary_request_kept request) as (Ea & _ & Ep & _). destruct (He Ee) as ((Hact & _) & _ & Hen & _).
  rewrite Ea in Hact. rewrite Ep in Hen. destruct Hq as [Hq|Hq]; [|done]. destruct Ho as (c & Ec & Hd).
  destruct (Hen Hq) as (c0 & E0 & H0). unfold control_of in Ec. congruence.
Qed.

Lemma off_pass q canary source w d r w' d' : off_and_reducing w ->
  _execute_v2_automated_trading_cycles q canary source (w, d) = (r, (w', d')) -> off_and_reducing w'.
Proof.
  destruct w as [w s]. intros Hw E. destruct (resolve_engine_activation settings) as [config|e] eqn:Hc.
  - eapply (pass_leads switch_kept (fun _ => off_and_reducing) ltac:(intros _ w0 s0 s1 [Ho Hl] Hk; split; [by eapply off_later|exact Hl])
      ltac:(done) config canary q _) in E; [exact E| |exact Hc|reflexivity|exact Hw].
    intros x _ symbol request w0 r0 w1 _ Hl. apply off_cycle. rewrite (lw_persists _ _ _ _ Hl), (lw_activation _ _ _ _ Hl).
    destruct (decide (px_activation x = ACTIVE)); [left; by apply bool_decide_eq_true|by right].
  - unfold _execute_v2_automated_trading_cycles, run_pass in E. rewrite Hc in E. injection E as _ <- _. exact Hw.
Qed.

Lemma off_stays w w' : off_and_reducing w -> later w w' -> off_and_reducing w'.
Proof.
  intros Hw Hl. induction Hl as [w|w w1 q canary source d r w2 d' Hl IH E|w w1 request r w2 Hl IH Hq E|w b v l s b' v' s' Hl IH Hk].
  - exact Hw.
  - by eapply off_pass, E; apply IH.
  - by eapply off_cycle, E; [|apply IH].
  - destruct (IH Hw) as [Ho Hr]. split; [by eapply off_later|exact Hr].
Qed.

End held.

(** ** Clearing the hold *)

Section clear.
Context {P : SchedulerHost}.
Notation control_in := (find_row (R := ControlRow) "global").

(** The state file could not be written. *)
Definition unwritable (e : PyExc) : Prop := exists k u, write_external_scheduler_state k u = Raise e.
Definition written {X} (r : res X) : Prop := match r with Ok _ => True | Raise e => unwritable e end.

Lemma publish_run s u r w : _publish_external_state (s, u) = (r, w) ->
  written r /\ w = (mkSession (s_committed s) (s_db s) (S (s_draws s)), u).
Proof. intros [= <- <-]. split; [|done]. destruct (write_external_scheduler_state _ _) as [|e] eqn:E; [done|by exists (s_draws s), u]. Qed.

(** The results of this pass cannot be iterated over. *)
Definition uniterable (d : PyDict) : Prop :=
  exists v, ("results"%string, v) ∈ d /\ match v with VNone | VBool _ | VInt _ | VFloat _ => True | _ => False end.

Lemma py_get_elem (d : PyDict) key : existsb (fun x => String.eqb x.1 key) d = true -> (key, py_get d key) ∈ d.
Proof.
  induction d as [|[k v] d IH]; [done|]. cbn. destruct (String.eqb_spec k key) as [->|Hk]; [by left|]. intros Hd. right. by apply IH.
Qed.
Lemma dict_items_raise d e : dict_items d = Raise e -> uniterable d /\ exists why, e = TypeError why.
Proof.
  unfold dict_items. destruct (existsb _ d) eqn:Hd; [|done]. apply py_get_elem in Hd. unfold uniterable.
  destruct (py_get d "results") eqn:Ev; try done; intros [= <-]; (split; [|by eexists]); by eexists; split; [exact Hd|].
Qed.

(** Nothing in the committed tables is ambiguous: no order of the testnet is in an unknown
    state, and the latest reconciliation of the testnet was healthy. *)
Record settled (d : Db) : Prop := {
  sd_intents : forall i, i ∈ intents d -> it_execution_mode i = BINANCE_TESTNET ->
    it_state i ∉ [INTENT_CREATED; EXCHANGE_SUBMITTING; EXCHANGE_UNKNOWN; EXCHANGE_ACKNOWLEDGED];
  sd_reconciled : forall r, r ∈ reconciliations d -> rs_execution_mode r = BINANCE_TESTNET ->
    exists latest, latest ∈ reconciliations d /\ rs_execution_mode latest = BINANCE_TESTNET /\
      rs_status latest = "HEALTHY"%string /\ rs_captured_at r <= rs_captured_at latest }.

Lemma newest_nil {R} (key : R -> datetime) l : newest_first key l = [] -> l = [].
Proof. destruct l as [|a l]; [done|]. simpl. destruct (newest_first key l); simpl; [done|]. by destruct (_ <=? _). Qed.
Lemma newest_head {R} (key : R -> datetime) l x k : newest_first key l = x :: k -> x ∈ l /\ forall y, y ∈ l -> key y <= key x.
Proof.
  revert x k. induction l as [|y l IH]; intros x k; [done|]. change (newest_first key (y :: l)) with (insert_newest key y (newest_first key l)).
  destruct (newest_first key l) as [|z m] eqn:E; simpl.
  { apply newest_nil in E as ->. intros [= -> _]. split; [by left|]. by intros y' ->%list_elem_of_singleton. }
  destruct (IH z m eq_refl) as [Hz Hm]. destruct (Z.leb_spec (key z) (key y)); intros [= <- _].
  - split; [by left|]. intros y' [->|Hy]%elem_of_cons; [done|]. specialize (Hm _ Hy). lia.
  - split; [by right|]. intros y' [->|Hy]%elem_of_cons; [lia|by apply Hm].
Qed.

Lemma stored_ambiguity_run s : exists r, stored_ambiguity s = (r, mkSession (s_committed s) (s_committed s) (s_draws s)) /\
  (r = Ok None -> settled (s_committed s)).
Proof.
  unfold stored_ambiguity, with_session, select, flush, sbind. cbn [s_db].
  destruct (constraints_ok (s_committed s)) eqn:Hc; [|by eexists]. cbn [s_db].
  destruct (bfilter unresolved_intent (rows (s_committed s))) as [|i l] eqn:Ei; cbn [is_nonempty]; [|by eexists].
  cbn [s_db]. rewrite Hc. eexists. split; [reflexivity|]. unfold sret. cbn [fst snd s_committed s_db]. intros E. split.
  - intros i Hi Hm Hs. assert (i ∈ bfilter unresolved_intent (rows (s_committed s))) as Hin.
    { apply elem_of_bfilter. split; [done|]. unfold unresolved_intent. by rewrite !bool_decide_eq_true_2. }
    rewrite Ei in Hin. by apply elem_of_nil in Hin.
  - intros r Hr Hm. injection E as E. change (rows (s_committed s)) with (reconciliations (s_committed s)) in E.
    assert (r ∈ bfilter (fun r => bool_decide (rs_execution_mode r = BINANCE_TESTNET)) (reconciliations (s_committed s))) as Hin
      by (apply elem_of_bfilter; by rewrite bool_decide_eq_true_2).
    destruct (newest_first _ _) as [|latest k] eqn:En.
    + apply newest_nil in En. rewrite En in Hin. by apply elem_of_nil in Hin.
    + apply newest_head in En as [H1 H2]. apply elem_of_bfilter in H1 as [H1 H3%bool_decide_eq_true]. exists latest.
      split_and!; [done|done| |by apply H2]. by destruct (String.eqb_spec (rs_status latest) "HEALTHY").
Qed.

(** The last result of the job, if it is one, reports no open outcome. *)
Definition result_settled (last : PyVal) : Prop := forall repr d, last = VDict repr d ->
  exists items, dict_items d = Ok items /\ forall item, item ∈ items ->
    str_upper (py_str (py_or (py_get item "reconciliation_status") (VStr ""))) ∈ [""; "HEALTHY"]%string /\
    String.index 0 "UNKNOWN" (str_upper (py_str (py_or (py_get item "error") (VStr "")))) = None.

Lemma unambiguous_items items : ambiguous_item items = None -> forall item, item ∈ items ->
  str_upper (py_str (py_or (py_get item "reconciliation_status") (VStr ""))) ∈ [""; "HEALTHY"]%string /\
  String.index 0 "UNKNOWN" (str_upper (py_str (py_or (py_get item "error") (VStr "")))) = None.
Proof.
  induction items as [|x items IH]; [by intros _ ? ?%elem_of_nil|]. cbn [ambiguous_item].
  destruct (bool_decide_reflect (reconciliation_text x ∈ [""; "HEALTHY"]%string)) as [Hx|]; cbn [negb]; [|done].
  unfold contains_text. destruct (String.index 0 "UNKNOWN" _) eqn:Eu; cbn; [done|].
  intros E item [->|Hi]%elem_of_cons; [by split|by apply IH].
Qed.

Lemma preflight_run last s r s1 : _safe_v2_recovery_check last s = (r, s1) ->
  s_committed s1 = s_committed s /\
  match r with
  | Ok (safe, _) => safe = true -> (coordinated = true -> settled (s_committed s)) /\ result_settled last
  | Raise e => (exists why, e = TypeError why) /\ exists repr d, last = VDict repr d /\ uniterable d
  end.
Proof.
  unfold _safe_v2_recovery_check. intros [([safe reason] & s2 & [Er ->]%slift_inv & E)|(e & [Er ->]%slift_inv & ->)]%sbind_inv.
  2: { split; [done|]. destruct last as [| | | | | |repr d]; try done. cbn in Er. destruct (dict_items d) as [|e'] eqn:Ed; [done|].
       injection Er as ->. apply dict_items_raise in Ed as [H1 H2]. split; [done|by exists repr, d]. }
  assert (safe = true -> result_settled last) as Hl.
  { intros -> repr d ->. cbn in Er. destruct (dict_items d) as [items|] eqn:Ed; [|done]. exists items. split; [done|].
    apply unambiguous_items. cbn in Er. by destruct (ambiguous_item items). }
  destruct safe; cbn [negb orb] in E; [|apply sret_inv in E as [-> ->]; by split].
  destruct coordinated; cbn [negb] in E; [|apply sret_inv in E as [-> ->]; split; [done|]; intros _; split; [done|by apply Hl]].
  unfold stry, sbind in E. destruct (stored_ambiguity_run s) as (r' & E' & Hr). rewrite E' in E. clear E'.
  destruct r' as [[a|]|e]; injection E as <- <-; (split; [done|]); [done| |done]. intros _. split; [intros _; by apply Hr|by apply Hl].
Qed.

Lemma clear_run s : exists b o s1, _clear_liveness_recovery_hold s = (Ok (b, o), s1) /\
  (b = false -> control_of s1 = control_of s) /\
  (b = true -> exists c c', control_of s = Some c /\ control_of s1 = Some c' /\ ct_entry_enabled c = false /\
     is_recovery_hold (ct_reason c) = true /\ ct_entry_enabled c' = true /\ ct_reason c' = Some LIVENESS_RECOVERY_RECOVERED /\
     ct_version c' = ct_version c + 1).
Proof.
  unfold _clear_liveness_recovery_hold, stry.
  destruct (with_session (let! control := get_runtime_control "global" in clear_observed control) s) as [r s1] eqn:E.
  apply with_session_inv in E as (s2 & E & ->). apply sbind_inv in E as [(c & s3 & E0 & E)|(e & E0 & ->)].
  2: { eexists false, _, _. split; [reflexivity|]. split; [|done]. intros _. unfold control_of. cbn.
       by rewrite (op_committed _ _ _ _ (op_get_runtime_control _) E0). }
  pose proof (op_committed _ _ _ _ (op_get_runtime_control _) E0) as Hc. cbn [s_committed] in Hc.
  unfold clear_observed in E. destruct (ct_entry_enabled c || negb (is_recovery_hold (reason_of c))) eqn:Hp.
  { apply sret_inv in E as [-> ->]. eexists false, _, _. split; [reflexivity|]. split; [|done]. intros _. unfold control_of. cbn.
    by rewrite Hc. }
  apply orb_false_iff in Hp as [He Hr%negb_false_iff].
  apply swap_run in E as [[Ec [[e ->]|[s4 Hno]]]|(-> & c0 & c' & Ec & (Hv & Hce & Hcr) & E & E1 & E2 & E3)];
    [| | |by intros ? ? ? ?%reread_committed].
  - eexists false, _, _. split; [reflexivity|]. split; [|done]. intros _. unfold control_of. cbn. by rewrite Ec, Hc.
  - injection Hno as <- _. eexists false, _, _. split; [reflexivity|]. split; [|done]. intros _. unfold control_of. cbn. by rewrite Ec, Hc.
  - eexists true, _, _. split; [reflexivity|]. split; [done|]. intros _. exists c0, c'.
    assert (s_db s3 = s_committed s) as Hdb.
    { unfold get_runtime_control in E0. apply sbind_inv in E0 as [(o & s5 & E4 & E0)|(e & E4 & ?)]; [|done]. injection E4 as <- <-.
      cbn [s_db] in E0. destruct (control_in (s_committed s)) as [c1|]; [by apply sret_inv in E0 as [_ ->]|]. exfalso.
      apply sbind_inv in E0 as [(t & s5 & E4 & E0)|(e & E4 & ?)]; [|done]. cbv zeta in E0.
      apply sbind_inv in E0 as [([] & s6 & _ & E0)|(e & _ & ?)]; [|done].
      apply sbind_inv in E0 as [([] & s7 & _ & E0)|(e & _ & ?)]; [|done]. apply sret_inv in E0 as [[= ->] _]. done. }
    rewrite Hdb in Ec. split_and!; [exact Ec|exact E|done|by rewrite Hcr|done|done|lia].
Qed.

Lemma managed_under_run reason s u r s' u' : managed_under reason (s, u) = (r, (s', u')) ->
  r <> Ok true /\ written r /\ s_committed s' = s_committed s /\ ru_entry u' = ru_entry u.
Proof.
  unfold managed_under. intros [([] & w1 & E1 & E)|(e & [=] & _)]%sbind_inv. injection E1 as <-.
  apply sbind_inv in E as [([] & w2 & E2 & E)|(e & E2 & ->)]; apply publish_run in E2 as [Hw E2].
  - rewrite E2 in E. by apply sret_inv in E as [-> [= -> ->]].
  - by injection E2 as -> ->.
Qed.

(** A pass that completed, ran at least one symbol and found each of them reconciled. *)
Definition healthy_pass (result : PyVal) : Prop := exists repr d repr' items,
  result = VDict repr d /\ py_get d "status" = VStr "completed" /\ py_get d "results" = VList repr' items /\ items <> [] /\
  forall x, x ∈ items -> exists repr'' item, x = VDict repr'' item /\
    str_upper (py_str (py_or (py_get item "reconciliation_status") (VStr ""))) = "HEALTHY"%string.

Lemma healthy_pass_of result : healthy_result result = true -> healthy_pass result.
Proof.
  destruct result as [| | | | | |repr d]; try done. cbn. intros [Hs Hi]%andb_true_iff.
  destruct (py_get d "results") as [| | | | |repr' items|] eqn:Er; try done. apply andb_true_iff in Hi as [Hn Hi].
  exists repr, d, repr', items. split_and!; [done| |done|by destruct items|].
  - destruct (py_get d "status"); try done. by apply String.eqb_eq in Hs as ->.
  - intros x Hx%list_elem_of_In. rewrite forallb_forall in Hi. apply Hi in Hx. destruct x as [| | | | | |repr'' item]; try done.
    exists repr'', item. split; [done|]. by apply String.eqb_eq in Hx.
Qed.

(** A status that may trade again: not degraded, reconciled, and under a strategy's
    authority with its snapshot and its strategy. *)
Record ready_to_trade (u : RuntimeSchedulerStatus) : Prop := {
  rt_state : es_trading_state (ru_entry u) <> "DEGRADED"%string;
  rt_reconciled : es_reconciliation_healthy (ru_entry u) = Some true;
  rt_bound : es_entry_authority (ru_entry u) = "TESTNET_FORWARD"%string \/ es_entry_authority (ru_entry u) = "PRODUCTION"%string ->
    st_active_snapshot_valid (ru_snapshot u) = true /\
    (exists id, st_active_config_snapshot_id (ru_snapshot u) = Some id /\ id <> ""%string) /\
    (exists hash, st_active_config_hash (ru_snapshot u) = Some hash /\ hash <> ""%string) /\
    py_truthy (es_active_entry_strategy (ru_entry u)) = true }.

Lemma truthy_text (o : option string) : ostr_truthy o = true -> exists t, o = Some t /\ t <> ""%string.
Proof. destruct o as [[|]|]; try done. by eexists. Qed.
Lemma ready_of u : readiness_incomplete u = false -> ready_to_trade u.
Proof.
  unfold readiness_incomplete. intros [[H1 H2]%orb_false_iff H3]%orb_false_iff. split.
  - by apply String.eqb_neq in H1.
  - by apply negb_false_iff, bool_decide_eq_true in H2.
  - intros Ha. unfold strategy_authority in H3. rewrite bool_decide_eq_true_2 in H3 by (destruct Ha as [-> | ->]; set_solver).
    cbn [andb] in H3. apply orb_false_iff in H3 as [[[H3 H4]%orb_false_iff H5]%orb_false_iff H6].
    split_and!; [by apply negb_false_iff|apply truthy_text; by apply negb_false_iff ..|by apply negb_false_iff].
Qed.

(** C12. New entries are switched on again only by recovery.  The scheduler clears a hold
    exactly through its supervisor's own hold row, and only after a pass that completed,
    with at least one result and every result HEALTHY, when the last result reports no
    unknown outcome, no testnet intent is in one of the four open states and the
    latest testnet reconciliation is HEALTHY, and the status is reconciled, not degraded
    and, under a strategy's authority, has its snapshot and strategy.  Otherwise neither
    the switch nor the published entry status changes.  What escapes is a result that
    cannot be read, before anything changes, or a state file that cannot be written. *)
Theorem hold_cleared_only_when_recovered result s u r s' u' :
  _maybe_clear_recovery_hold result (s, u) = (r, (s', u')) ->
  (r <> Ok true /\ control_of s' = control_of s /\ ru_entry u' = ru_entry u /\
   (forall e, r = Raise e -> unwritable e \/ exists repr d, ru_last_result u = VDict repr d /\ uniterable d)) \/
  ((r = Ok true \/ exists e, r = Raise e /\ unwritable e) /\
   rl_entry_hold (ru_recovery u) = true /\ healthy_pass result /\ result_settled (ru_last_result u) /\ ready_to_trade u /\
   (coordinated = true -> settled (s_committed s)) /\
   (exists c c', control_of s = Some c /\ ct_entry_enabled c = false /\ is_recovery_hold (ct_reason c) = true /\
      control_of s' = Some c' /\ ct_entry_enabled c' = true /\ ct_version c' = ct_version c + 1) /\
   es_entry_enabled (ru_entry u') = Some true /\ rl_attempt (ru_recovery u') = 0 /\
   (es_entry_authorized (ru_entry u') = true <-> es_entry_authority (ru_entry u) <> "NONE"%string)).
Proof.
  unfold _maybe_clear_recovery_hold. intros [(u0 & w0 & E0 & E)|(e & [=] & _)]%sbind_inv. injection E0 as <- <-.
  destruct (negb (rl_entry_hold (ru_recovery u)) || _) eqn:Hs; [apply sret_inv in E as [-> [= -> ->]]; by left|].
  apply orb_false_iff in Hs as [Hh%negb_false_iff _].
  destruct (healthy_result result) eqn:Hr; cbn [negb] in E; [|apply sret_inv in E as [-> [= -> ->]]; by left].
  apply healthy_pass_of in Hr. apply sbind_inv in E as [([safe reason] & [s1 u1] & E1 & E)|(e & E1 & ->)]; unfold in_session in E1;
    destruct (_safe_v2_recovery_check _ s) as [r1 s2] eqn:Ep; apply preflight_run in Ep as [Hc Hp]; [injection E1 as -> -> <-|].
  2: { injection E1 as -> -> <-. left. split_and!; [done|unfold control_of; by rewrite Hc|done|]. intros e' [= <-]. right. exact (proj2 Hp). }
  assert (control_of s1 = control_of s) as Ec by (unfold control_of; by rewrite Hc).
  assert (forall why, managed_under why (s1, u) = (r, (s', u')) -> r <> Ok true /\ control_of s' = control_of s /\
    ru_entry u' = ru_entry u /\ (forall e, r = Raise e -> unwritable e \/ exists repr d, ru_last_result u = VDict repr d /\ uniterable d)) as Hm.
  { intros why (H1 & H2 & H3 & H4)%managed_under_run. split_and!; [done|rewrite <- Ec; unfold control_of; by rewrite H3|done|].
    intros e ->. by left. }
  destruct safe; cbn [negb fst snd] in E; [|left; by eapply Hm].
  destruct (readiness_incomplete u) eqn:Hi; [left; by eapply Hm|]. apply ready_of in Hi. destruct (Hp eq_refl) as [Hset Hlast].
  destruct (clear_run s1) as (b & o & s2 & E2 & Hf & Ht). unfold sbind at 1, in_session in E. rewrite E2 in E. cbn iota beta in E.
  destruct b; cbn [negb andb] in E.
  - right. destruct (Ht eq_refl) as (c & c' & H1 & H2 & H3 & H4 & H5 & H6 & H7). rewrite Ec in H1.
    unfold sbind at 1 2, utc_now, update in E. cbn iota beta in E.
    assert (written r /\ r <> Ok false /\ control_of s' = control_of s2 /\ u' = recovered (clock (s_draws s2)) u) as (Hw & Hnf & Hcs & ->).
    { apply sbind_inv in E as [([] & w & E3 & E)|(e & E3 & ->)]; apply publish_run in E3 as [Hw E3].
      - rewrite E3 in E. by apply sret_inv in E as [-> [= -> ->]].
      - by injection E3 as -> ->. }
    split; [destruct r as [[]|e]; [by left|done|right; by exists e]|]. split_and!; try done; [exists c, c'; by rewrite Hcs|].
    cbn. by destruct (String.eqb_spec (es_entry_authority (ru_entry u)) "NONE").
  - left. assert (control_of s2 = control_of s) as Ec2 by (by rewrite Hf).
    destruct (negb (is_recovery_hold o)).
    + unfold sbind at 1, update in E. cbn iota beta in E.
      apply sbind_inv in E as [([] & w & E3 & E)|(e & E3 & ->)]; apply publish_run in E3 as [Hw E3].
      * rewrite E3 in E. by apply sret_inv in E as [-> [= -> ->]].
      * injection E3 as -> ->. split_and!; try done. intros e' [= <-]. by left.
    + apply managed_under_run in E as (H1 & H2 & H3 & H4). split_and!; [done|rewrite <- Ec2; unfold control_of; by rewrite H3|done|].
      intros e ->. by left.
Qed.
End clear.

(** ** What is published of a pass *)

Lemma texts_single key x0 items : texts_of key items = [x0] -> forall x, x ∈ items -> py_truthy (py_get x key) = true ->
  text_of x key = x0.
Proof.
  unfold texts_of. intros E x Hx Ht.
  assert (text_of x key ∈ fromkeys (map (fun x => text_of x key) (bfilter (fun x => py_truthy (py_get x key)) items))) as Hin.
  { apply elem_of_fromkeys, list_elem_of_fmap. exists x. split; [done|]. by apply elem_of_bfilter. }
  rewrite E in Hin. by apply list_elem_of_singleton in Hin.
Qed.
Lemma fromkeys_single {X} (f : X -> string) x0 items : fromkeys (map f items) = [x0] -> forall x, x ∈ items -> f x = x0.
Proof.
  intros E x Hx. assert (f x ∈ fromkeys (map f items)) as Hin by (apply elem_of_fromkeys, list_elem_of_fmap; by exists x).
  rewrite E in Hin. by apply list_elem_of_singleton in Hin.
Qed.
Lemma all_have_elem keys items : all_have keys items = true <->
  forall x k, x ∈ items -> k ∈ keys -> py_truthy (py_get x k) = true.
Proof.
  unfold all_have. rewrite forallb_forall. split.
  - intros Hf x k Hx%list_elem_of_In Hk%list_elem_of_In. specialize (Hf x Hx). rewrite forallb_forall in Hf. by apply Hf.
  - intros Hf x Hx%list_elem_of_In. apply forallb_forall. intros k Hk%list_elem_of_In. by apply Hf.
Qed.

Section publish.
Context {P : SchedulerHost}.
Notation snapshot_keys := ["active_config_snapshot_id"; "active_config_hash"]%string.

(** Every symbol of the result is bound to this snapshot and to this strategy. *)
Definition bound_to (id hash strategy : string) (items : list PyDict) : Prop := forall x, x ∈ items ->
  text_of x "active_config_snapshot_id" = id /\ text_of x "active_config_hash" = hash /\
  text_of x "active_entry_strategy" = strategy /\
  (forall k, k ∈ ["active_config_snapshot_id"; "active_config_hash"; "active_entry_strategy"]%string -> py_truthy (py_get x k) = true).

(** What an authorized status says about the items it was published from. *)
Definition authority_backed (items : list PyDict) (u u' : RuntimeSchedulerStatus) : Prop :=
  let e := ru_entry u' in
  es_entry_enabled (ru_entry u) <> Some false /\ es_entry_enabled e = es_entry_enabled (ru_entry u) /\
  es_reconciliation_healthy e <> Some false /\ es_entry_authority e <> "NONE"%string /\
  (exists first, head items = Some first /\ py_truthy (py_get first "entry_authorized") = true) /\
  (forall x, x ∈ items -> py_str (py_or (py_get x "entry_authority") (VStr "NONE")) = es_entry_authority e /\
     (py_is_none (py_get x "reconciliation_status") = false -> reconciliation_text x = "HEALTHY"%string)) /\
  (es_entry_authority e = "TESTNET_FORWARD"%string \/ es_entry_authority e = "PRODUCTION"%string ->
   exists id hash strategy, bound_to id hash strategy items /\
     st_active_config_snapshot_id (ru_snapshot u') = Some id /\ st_active_config_hash (ru_snapshot u') = Some hash /\
     st_active_snapshot_valid (ru_snapshot u') = true).

Lemma strategy_authority_iff a : strategy_authority a = true <-> a = "TESTNET_FORWARD"%string \/ a = "PRODUCTION"%string.
Proof. unfold strategy_authority. rewrite bool_decide_eq_true. set_solver. Qed.

Lemma active_entry_run s : exists r s', _active_entry_authorization s = (Ok r, s').
Proof.
  unfold _active_entry_authorization, stry. destruct (with_session _ s) as [[r|e] s1]; by eexists _, _.
Qed.

Lemma trading_authorized authority first u : es_entry_authorized (ru_entry (trading_published authority first u)) = true ->
  es_entry_enabled (ru_entry u) <> Some false /\ es_reconciliation_healthy (ru_entry u) <> Some false /\ authority <> "NONE"%string /\
  es_entry_authorized (ru_entry u) = true.
Proof.
  unfold trading_published. cbn. destruct (bool_decide_reflect (es_entry_enabled (ru_entry u) = Some false)); [done|].
  destruct (bool_decide_reflect (es_reconciliation_healthy (ru_entry u) = Some false)); [done|].
  by destruct (String.eqb_spec authority "NONE").
Qed.

Lemma trading_kept authority first u : let u' := trading_published authority first u in
  es_entry_authority (ru_entry u') = es_entry_authority (ru_entry u) /\
  es_entry_enabled (ru_entry u') = es_entry_enabled (ru_entry u) /\
  es_reconciliation_healthy (ru_entry u') = es_reconciliation_healthy (ru_entry u).
Proof.
  unfold trading_published. cbn. by destruct (bool_decide (es_entry_enabled _ = _)), (bool_decide (es_reconciliation_healthy _ = _)),
    (String.eqb authority "NONE").
Qed.

Lemma unbound_entry u : ru_entry (snapshot_unbound u) = ru_entry u.
Proof.
  unfold snapshot_unbound, _refresh_snapshot_lifecycle_from_store.
  set (lc := _active_strategy_authorization_state _). by destruct (as_active_config_snapshot_id lc), (as_active_config_hash lc).
Qed.

Lemma reconciled_items items u : es_reconciliation_healthy (ru_entry (reconciliation_published items u)) <> Some false ->
  forall x, x ∈ items -> py_is_none (py_get x "reconciliation_status") = false -> reconciliation_text x = "HEALTHY"%string.
Proof.
  unfold reconciliation_published. cbn. set (l := bfilter (fun x => negb (py_is_none (py_get x "reconciliation_status"))) items).
  intros Hh x Hx Hn. assert (x ∈ l) as Hl by (apply elem_of_bfilter; by rewrite Hn).
  destruct l as [|y l'] eqn:El; [by apply elem_of_nil in Hl|]. cbn [is_nonempty] in Hh. rewrite <- El in *. clear El.
  destruct (forallb (fun x => String.eqb (reconciliation_text x) "HEALTHY") l) eqn:Ef; [|done]. rewrite forallb_forall in Ef. apply list_elem_of_In, Ef in Hl. by apply String.eqb_eq.
Qed.

Lemma forallb_false {X} (f : X -> bool) l : forallb f l = false -> exists x, x ∈ l /\ f x = false.
Proof.
  induction l as [|x l IH]; [done|]. cbn. intros [Hx|[y [Hy Hf]]%IH]%andb_false_iff; [exists x; split; [by left|done]|].
  exists y. split; [by right|done].
Qed.
(** A binding of a symbol that cannot be hashed. *)
Definition unhashable (x : PyDict) : Prop := exists k, k ∈ snapshot_keys /\
  match py_get x k with VList _ _ | VDict _ _ => True | _ => False end.
Lemma hashable_bindings items : forallb hashable_binding items = false -> exists x, x ∈ items /\ unhashable x.
Proof.
  intros (x & Hx & Hb)%forallb_false. exists x. split; [done|]. apply forallb_false in Hb as (k & Hk & Hv).
  exists k. split; [done|]. by destruct (py_get x k).
Qed.

Lemma refresh_resolved_run first items s u : head items = Some first ->
  exists r s' u', refresh_resolved first items (s, u) = (r, (s', u')) /\
  ((exists why x, r = Raise (TypeError why) /\ x ∈ items /\ unhashable x) \/
   r = Ok tt /\ (es_entry_authorized (ru_entry u') = true -> authority_backed items u u')).
Proof.
  intros Hf. unfold refresh_resolved. unfold sbind at 1. unfold update at 1. cbn iota beta.
  set (u1 := reconciliation_published items u).
  destruct (fromkeys _) as [|authority [|a2 l]] eqn:Ea; [by eexists _, _, _; split; [reflexivity|right]| |
    by eexists _, _, _; split; [reflexivity|right]].
  unfold sbind at 1. unfold update at 1. cbn iota beta. set (u2 := authority_published authority first u1).
  cbv zeta. set (binding := match texts_of "active_config_snapshot_id" items with [] => _ | _ => _ end).
  destruct (forallb hashable_binding items) eqn:Ehash; cbn [sassert];
    [|apply hashable_bindings in Ehash as (x & Hx & Hu); eexists _, _, _; split; [reflexivity|]; left; by eexists _, x].
  unfold sbind at 1. cbn [sret]. cbn iota beta.
  destruct (negb (forallb (same_binding first) items)); [by eexists _, _, _; split; [reflexivity|right]|].
  destruct (strategy_authority authority && _) eqn:Eb; [by eexists _, _, _; split; [reflexivity|right]|].
  assert (forall u3, ru_entry u3 = ru_entry u2 -> (forall id hash, binding = Some (id, hash) ->
      st_active_config_snapshot_id (ru_snapshot u3) = Some id /\ st_active_config_hash (ru_snapshot u3) = Some hash /\
      st_active_snapshot_valid (ru_snapshot u3) = true) ->
    let u' := trading_published authority first (authorization_published authority u3) in
    es_entry_authorized (ru_entry u') = true -> authority_backed items u u') as Hfin.
  { intros u3 E3 Hb u' (H1 & H2 & H3 & H4)%trading_authorized.
    change (ru_entry (authorization_published authority u3)) with (ru_entry u3) in *. rewrite E3 in *. cbn in H1, H2, H4.
    destruct (trading_kept authority first (authorization_published authority u3)) as (Eu & Ee & Er). fold u' in Eu, Ee, Er.
    change (ru_entry (authorization_published authority u3)) with (ru_entry u3) in *. rewrite E3 in Eu, Ee, Er.
    change (es_entry_authority (ru_entry u2)) with authority in Eu.
    split_and!; [done|done|by rewrite Er|by rewrite Eu|by exists first| |].
    - intros x Hx. split; [rewrite Eu; exact (fromkeys_single _ _ _ Ea x Hx)|by apply (reconciled_items items u)].
    - rewrite Eu. intros Hsa%strategy_authority_iff. rewrite Hsa in Eb. cbn [andb] in Eb. apply orb_false_iff in Eb as [Eb1%negb_false_iff Eb2%negb_false_iff].
      apply bool_decide_eq_true in Eb1 as [[id hash] Eb1]. destruct (Hb id hash Eb1) as (Hi & Hh & Hv).
      apply andb_true_iff in Eb2 as [Es Hall]. subst binding.
      destruct (texts_of "active_config_snapshot_id" items) as [|id' [|]] eqn:Ti; try done.
      destruct (texts_of "active_config_hash" items) as [|hash' [|]] eqn:Th; try done.
      destruct (all_have snapshot_keys items) eqn:Hk; [|done]. injection Eb1 as -> ->.
      destruct (texts_of "active_entry_strategy" items) as [|st [|]] eqn:Ts; try done.
      rewrite all_have_elem in Hk, Hall. exists id, hash, st. split_and!; [|exact Hi|exact Hh|exact Hv].
      intros x Hx. pose proof (texts_single _ _ _ Ti x Hx). pose proof (texts_single _ _ _ Th x Hx).
      pose proof (texts_single _ _ _ Ts x Hx).
      assert (py_truthy (py_get x "active_config_snapshot_id") = true) by (apply Hk; [done|by left]).
      assert (py_truthy (py_get x "active_config_hash") = true) by (apply Hk; [done|by right; left]).
      assert (py_truthy (py_get x "active_entry_strategy") = true) by (apply Hall; [done|by left]).
      split_and!; try auto. intros k Hkk. repeat (apply elem_of_cons in Hkk as [->|Hkk]; [done|]). by apply elem_of_nil in Hkk. }
  destruct binding as [[id hash]|] eqn:Ebind.
  - unfold sbind, status_now, update. cbn iota beta. destruct (ru_natural_testnet_enabled u2).
    + unfold in_session. destruct (active_entry_run s) as (r & s1 & E). rewrite E. eexists _, _, _. split; [reflexivity|].
      right. split; [done|]. apply Hfin; [done|]. by intros ? ? [= <- <-].
    + eexists _, _, _. split; [reflexivity|]. right. split; [done|]. apply Hfin; [done|]. by intros ? ? [= <- <-].
  - unfold sbind, update. eexists _, _, _. split; [reflexivity|]. right. split; [done|]. apply Hfin; [apply unbound_entry|done].
Qed.

(** C13. Of a finished pass the process publishes an authorization to enter only if the
    pass completed and its completed symbols are exactly the execution universe, every
    one of them under the same authority and none reported unreconciled, and entries
    are not disabled.  Under TESTNET_FORWARD and PRODUCTION all symbols are bound to one
    snapshot, which is the published one, and to one strategy; a canary's authority is
    published without such a binding.  Anything else withdraws the authorization; an
    empty universe changes nothing.  A result that cannot be iterated over raises before
    anything is published, and a binding that cannot be hashed before the rest is. *)
Theorem published_authority_is_backed cycle_result s u : exists r s' u',
  _refresh_entry_authority_from_v2_cycle cycle_result (s, u) = (r, (s', u')) /\
  ((exists why, r = Raise (TypeError why) /\ u' = u /\ uniterable cycle_result) \/
   exists items, dict_items cycle_result = Ok items /\
   let completed := bfilter (has_status "completed") items in
   (exists why x, r = Raise (TypeError why) /\ x ∈ completed /\ unhashable x) \/
   r = Ok tt /\
   (u' = u /\ AUTO_SIMULATION_EXECUTION_SYMBOLS = [] \/
    (es_entry_authorized (ru_entry u') = true ->
       py_get cycle_result "status" = VStr "completed" /\
       (forall symbol, symbol ∈ texts_of "symbol" completed <-> symbol ∈ AUTO_SIMULATION_EXECUTION_SYMBOLS) /\
       authority_backed completed u u'))).
Proof.
  unfold _refresh_entry_authority_from_v2_cycle, sbind at 1. unfold slift at 1.
  destruct (dict_items cycle_result) as [items|e] eqn:Ed.
  2: { eexists _, s, u. split; [reflexivity|]. left. apply dict_items_raise in Ed as [H [why ->]]. by exists why. }
  cbn iota beta zeta. set (completed := bfilter _ items).
  destruct (negb (py_eq_str (py_get cycle_result "status") "completed") || _) eqn:Ei.
  { eexists (Ok tt), _, _. split; [reflexivity|]. right. exists items. split; [done|]. right. split; [done|]. by right. }
  apply orb_false_iff in Ei as [Es%negb_false_iff Et%negb_false_iff]. apply bool_decide_eq_true in Et.
  assert (forall symbol, symbol ∈ texts_of "symbol" completed <-> symbol ∈ AUTO_SIMULATION_EXECUTION_SYMBOLS) as Hsym.
  { intros k. rewrite <- !(elem_of_list_to_set (C := gset string)). by rewrite Et. }
  assert (py_get cycle_result "status" = VStr "completed") as Hst.
  { destruct (py_get cycle_result "status"); try done. by apply String.eqb_eq in Es as ->. }
  destruct completed as [|first rest] eqn:Ec.
  - exists (Ok tt), s, u. split; [done|]. right. exists items. split; [done|]. right. split; [done|]. left. split; [done|].
    destruct AUTO_SIMULATION_EXECUTION_SYMBOLS as [|y l]; [done|]. exfalso. apply (not_elem_of_nil y), Hsym. by left.
  - destruct (refresh_resolved_run first (first :: rest) s u eq_refl) as (r & s' & u' & E & Hb). exists r, s', u'.
    split; [exact E|]. right. exists items. split; [done|]. fold completed. rewrite Ec.
    destruct Hb as [Hb|[-> Hb]]; [by left|right]. split; [done|]. right. intros Ha. split; [done|]. split; [done|]. by apply Hb.
Qed.

(** ** What a pass with a managed symbol publishes *)

(** A pass that completes and also manages a position outside the execution universe,
    as every pass does while one is open, is published as degraded, and a hold is
    not cleared after it. *)
Theorem managed_symbol_degrades_runtime cycle_result items item s u :
  dict_items cycle_result = Ok items -> item ∈ bfilter (has_status "completed") items ->
  py_truthy (py_get item "symbol") = true -> text_of item "symbol" ∉ AUTO_SIMULATION_EXECUTION_SYMBOLS ->
  exists u', _refresh_entry_authority_from_v2_cycle cycle_result (s, u) = (Ok tt, (s, u')) /\
    es_trading_state (ru_entry u') = "DEGRADED"%string /\ es_entry_authorized (ru_entry u') = false /\
    readiness_incomplete u' = true.
Proof.
  intros Hd Hi Ht Hs. unfold _refresh_entry_authority_from_v2_cycle, sbind, slift. rewrite Hd. cbn iota beta zeta.
  set (completed := bfilter _ _) in *.
  assert (same_texts (texts_of "symbol" completed) AUTO_SIMULATION_EXECUTION_SYMBOLS = false) as ->.
  { apply bool_decide_eq_false. intros E. apply Hs. rewrite <- (elem_of_list_to_set (C := gset string)), <- E.
    apply elem_of_list_to_set, elem_of_fromkeys, list_elem_of_fmap. exists item. split; [done|]. by apply elem_of_bfilter. }
  cbn [negb]. rewrite orb_true_r. eexists. split; [reflexivity|]. done.
Qed.
End publish.

(** ** Supervision *)

Section supervision.
Context {P : SchedulerHost}.

Lemma persisted_is_held reason s s' : persist_liveness_recovery_hold reason s = (Ok true, s') ->
  exists c, control_of s' = Some c /\ ct_entry_enabled c = false /\ is_recovery_hold (ct_reason c) = true.
Proof.
  intros E. apply stry_inv in E as [(b & E & [= <-])|(e & s1 & _ & E)]; [|by apply sret_inv in E as [? _]].
  apply with_session_inv in E as (s1 & E & ->). apply sbind_inv in E as [(o & s2 & E0 & E)|(e & _ & ?)]; [|done].
  apply ensure_run in E0 as [Eo _]. unfold claim_observed in E.
  destruct (negb (ct_entry_enabled o) && negb (is_recovery_hold (reason_of o))) eqn:H1; [by apply sret_inv in E as [? _]|].
  destruct (negb (ct_entry_enabled o) && bool_decide (reason_of o = Some (hold_reason_of reason))) eqn:H2.
  - apply sbind_inv in E as [([] & s3 & E1 & E)|(e & _ & ?)]; [|done]. apply sret_inv in E as [_ ->].
    apply commit_committed in E1 as [[_ E1]|[[e ?] _]]; [|done]. exists o. unfold control_of. cbn. rewrite E1.
    apply andb_true_iff in H2 as [H2%negb_true_iff H3%bool_decide_eq_true]. rewrite <- reason_of_hold, H3.
    split_and!; [done|done|apply hold_reason_is_hold].
  - apply swap_run in E as [[_ [[e ?]|[s3 E]]]|(_ & c & c' & _ & _ & E & E1 & E2 & _)];
      [done|done| |by intros; eapply rollback_committed]. exists c'. rewrite E2. split_and!; [exact E|done|apply hold_reason_is_hold].
Qed.

(** What a hold leaves in the status. *)
Lemma set_hold_run reason s u : exists s' u', _set_recovery_hold reason (s, u) = _publish_external_state (s', u') /\
  rl_attempt (ru_recovery u') = rl_attempt (ru_recovery u) /\ ru_last_result u' = ru_last_result u /\
  es_entry_enabled (ru_entry u') = Some false /\ es_entry_authorized (ru_entry u') = false /\
  (rl_entry_hold (ru_recovery u') = true -> ~ entries_enabled s').
Proof.
  unfold _set_recovery_hold, sbind, in_session.
  destruct (persist_liveness_recovery_hold (hold_reason_of reason) s) as [[b|e] s1] eqn:E.
  2: { exfalso. apply stry_inv in E as [(? & _ & ?)|(e' & s2 & _ & E)]; [done|by apply sret_inv in E as [? _]]. }
  assert (_runtime_entry_control_state s1 = (Ok match control_of s1 with Some c => (Some (ct_entry_enabled c), reason_of c)
    | None => (None, None) end, mkSession (s_committed s1) (s_committed s1) (s_draws s1))) as ->.
  { unfold _runtime_entry_control_state, control_of, stry, with_session, sbind, get. cbn [s_db]. by destruct (find_row _ _). }
  set (state := match control_of s1 with Some c => _ | None => _ end). destruct state as [enabled current].
  cbn -[_publish_external_state]. eexists _, _. split; [reflexivity|]. cbn. split_and!; [done..|]. intros ->.
  destruct (persisted_is_held _ _ _ E) as (c & Ec & Hd & _). by eapply held_not_enabled.
Qed.

(** The same, with what the publication of the status answers. *)
Lemma set_hold_ends reason s u r s' u' : _set_recovery_hold reason (s, u) = (r, (s', u')) ->
  written r /\ rl_attempt (ru_recovery u') = rl_attempt (ru_recovery u) /\ ru_last_result u' = ru_last_result u /\
  es_entry_enabled (ru_entry u') = Some false /\ es_entry_authorized (ru_entry u') = false /\
  (rl_entry_hold (ru_recovery u') = true -> ~ entries_enabled s').
Proof.
  destruct (set_hold_run reason s u) as (s1 & u1 & -> & H). intros [Hw [= -> ->]]%publish_run. by split.
Qed.

Lemma rehydrate_ends s u r s' u' : _rehydrate_runtime_contract_for_recovery (s, u) = (r, (s', u')) ->
  written r /\ ru_recovery u' = ru_recovery u /\ ru_last_result u' = ru_last_result u.
Proof.
  unfold _rehydrate_runtime_contract_for_recovery, sbind, status_now, in_session. cbn iota beta.
  destruct (active_entry_run s) as ([[enabled sampling] errors] & s1 & E). rewrite E. cbn iota beta.
  assert (forall s0, exists o s2, _runtime_entry_control_reason s0 = (Ok o, s2)) as Hr.
  { intros s0. eexists _, _. reflexivity. }
  destruct (Hr s1) as (o & s2 & E2). rewrite E2. cbn iota beta.
  destruct (Hr s2) as (o' & s3 & E3). rewrite E3. cbn iota beta. unfold update.
  set (u1 := with_entry _ _). destruct (_publish_external_state (s3, u1)) as [[[]|e] w] eqn:Ep; apply publish_run in Ep as [Hw ->];
    intros [= <- <- <-]; by split.
Qed.

Lemma before_run_ends s u r s' u' : (update (with_job task_started) ;;; rehydrate_before_run) (s, u) = (r, (s', u')) ->
  written r /\ rl_attempt (ru_recovery u') = rl_attempt (ru_recovery u).
Proof.
  unfold sbind at 1, update at 1. cbn iota beta. set (u0 := with_job task_started u).
  unfold rehydrate_before_run. intros [(u1 & w & E1 & E)|(e & [=] & _)]%sbind_inv. injection E1 as <- <-.
  destruct (coordinated && _); [|by apply sret_inv in E as [-> [= -> ->]]].
  apply sbind_inv in E as [(b & [s2 u2] & E1 & E)|(e & E1 & ->)]; apply rehydrate_ends in E1 as (Hw & Hr & _); [|by rewrite Hr].
  destruct b; [apply sret_inv in E as [-> [= -> ->]]; by rewrite Hr|].
  apply sbind_inv in E as [([] & [s3 u3] & E1 & E)|(e & E1 & ->)]; apply set_hold_ends in E1 as (Hw' & Ha & _);
    [injection E as <- <- <-|]; (split; [done|]); cbn; by rewrite Ha, Hr.
Qed.

(** What may escape from the handling of a failure. *)
Definition escapes (preflight_cancelled : bool) (last : PyVal) (e : PyExc) : Prop :=
  unwritable e \/ (preflight_cancelled = true /\ e = CancelledError) \/
  ((exists why, e = TypeError why) /\ exists repr d, last = VDict repr d /\ uniterable d).

(** The end of the supervision: entries are withdrawn, and disabled if the hold was granted. *)
Definition exhausted (s : Session) (u : RuntimeSchedulerStatus) : Prop :=
  rl_state (ru_recovery u) = RECOVERY_EXHAUSTED /\ es_entry_enabled (ru_entry u) = Some false /\
  es_entry_authorized (ru_entry u) = false /\ (rl_entry_hold (ru_recovery u) = true -> ~ entries_enabled s).

Lemma spent_ends error s u r s' u' :
  (_set_recovery_hold (error +:+ ":AUTO_RECOVERY_EXHAUSTED")%string ;;;
   update (with_recovery (recovery_is RECOVERY_EXHAUSTED (Some error))) ;;; _publish_external_state ;;;
   sret (None : option bool)) (s, u) = (r, (s', u')) ->
  rl_attempt (ru_recovery u') = rl_attempt (ru_recovery u) /\ written r /\ (forall a, r = Ok a -> a = None /\ exhausted s' u').
Proof.
  intros [([] & [s1 u1] & E1 & E)|(e & E1 & ->)]%sbind_inv; apply set_hold_ends in E1 as (Hw & Ha & _ & H1 & H2 & H3); [|by split_and!].
  unfold sbind at 1, update in E. cbn iota beta in E.
  apply sbind_inv in E as [([] & w & E2 & E)|(e & E2 & ->)]; apply publish_run in E2 as [Hw2 E2].
  - rewrite E2 in E. apply sret_inv in E as [-> [= -> ->]]. split_and!; [done|done|]. intros a [= <-]. split; [done|]. by split_and!.
  - injection E2 as -> ->. by split_and!.
Qed.

Lemma restart_ends cancelled s u r s' u' :
  (_publish_external_state ;;;
   sassert (negb cancelled) CancelledError ;;;
   let! recovery := in_session (_safe_v2_recovery_check (ru_last_result u)) in
   if recovery.1 then update (with_recovery (recovery_state_is RECOVERY_RESTARTING)) ;;; sret (Some false)
   else
   let reason := if str_truthy recovery.2 then recovery.2 else "v2_recovery_blocked"%string in
   _set_recovery_hold reason ;;;
   update (with_recovery (recovery_is RECOVERY_MANAGEMENT (Some reason))) ;;;
   _publish_external_state ;;;
   sret (Some true)) (s, u) = (r, (s', u')) ->
  rl_attempt (ru_recovery u') = rl_attempt (ru_recovery u) /\
  match r with Ok a => is_Some a | Raise e => escapes cancelled (ru_last_result u) e end.
Proof.
  intros [([] & w & E1 & E)|(e & E1 & ->)]%sbind_inv; apply publish_run in E1 as [Hw E1]; [|injection E1 as -> ->; by split; [|left]].
  subst w. destruct cancelled; cbn [negb sassert] in E; [injection E as <- <- <-; split; [done|]; right; by left|].
  unfold sbind at 1 in E. cbn [sret] in E. cbn iota beta in E.
  apply sbind_inv in E as [([safe reason] & [s1 u1] & E1 & E)|(e & E1 & ->)]; unfold in_session in E1;
    destruct (_safe_v2_recovery_check _ _) as [r1 s2] eqn:Ep; apply preflight_run in Ep as [_ Hp];
    [injection E1 as -> -> <-|injection E1 as -> -> <-; split; [done|]; right; right; exact Hp].
  cbn [fst snd] in E. destruct safe; [injection E as <- <- <-; by split|].
  apply sbind_inv in E as [([] & [s3 u3] & E1 & E)|(e & E1 & ->)]; apply set_hold_ends in E1 as (Hw1 & Ha & _); [|by split; [|left]].
  unfold sbind at 1, update in E. cbn iota beta in E.
  apply sbind_inv in E as [([] & w & E2 & E)|(e & E2 & ->)]; apply publish_run in E2 as [Hw2 E2].
  - rewrite E2 in E. apply sret_inv in E as [-> [= -> ->]]. by split.
  - injection E2 as -> ->. by split; [|left].
Qed.

Lemma after_failure_ends error cancelled s u r s' u' : after_failure error cancelled (s, u) = (r, (s', u')) ->
  rl_attempt (ru_recovery u') = rl_attempt (ru_recovery u) + 1 /\
  match r with
  | Ok None => MAX_INPROCESS_RECOVERY_ATTEMPTS <= rl_attempt (ru_recovery u) + 1 /\ exhausted s' u'
  | Ok (Some _) => rl_attempt (ru_recovery u) + 1 < MAX_INPROCESS_RECOVERY_ATTEMPTS
  | Raise e => escapes cancelled (ru_last_result u) e
  end.
Proof.
  unfold after_failure, sbind at 1 2 3 4 5, in_session at 1 2, update at 1 2, status_now, utc_now. cbn iota beta.
  set (u1 := with_recovery _ _). set (s1 := mkSession _ _ _). change (ru_last_result u) with (ru_last_result u1).
  change (rl_attempt (ru_recovery u) + 1) with (rl_attempt (ru_recovery u1)).
  destruct (Z.leb_spec MAX_INPROCESS_RECOVERY_ATTEMPTS (rl_attempt (ru_recovery u1))) as [Hm|Hm].
  - intros (-> & Hw & Hx)%spent_ends. split; [done|]. destruct r as [a|e]; [|by left].
    destruct (Hx a eq_refl) as [-> He]. by split.
  - intros (-> & Hr)%restart_ends. split; [done|]. destruct r as [[a|]|e]; [done|by destruct Hr|done].
Qed.

(** Runs that no healthy pass interrupts; and runs that fail, leave a result that can be
    read, and are neither stopped nor cancelled. *)
Definition keeps_attempt (run : TaskRun) : Prop := forall w, rl_attempt (ru_recovery (tr_run run w).2.2) = rl_attempt (ru_recovery w.2).
Definition always_fails (run : TaskRun) : Prop :=
  tr_preflight_cancelled run = false /\ tr_wait run = WAIT_ELAPSED /\
  forall w, (exists e, (tr_run run w).1 = TASK_FAILED e) /\
    forall repr d, ru_last_result (tr_run run w).2.2 = VDict repr d -> ~ uniterable d.

(** What the loop promises from these runs on. *)
Definition supervised_runs (runs : list TaskRun) (u : RuntimeSchedulerStatus) (ended : SupervisorEnd) (started : nat)
    (s' : Session) (u' : RuntimeSchedulerStatus) : Prop :=
  Z.of_nat started + rl_attempt (ru_recovery u) <= MAX_INPROCESS_RECOVERY_ATTEMPTS /\
  (ended = SUPERVISOR_RUNNING -> started = length runs) /\
  (ended = SUPERVISOR_EXHAUSTED ->
     Z.of_nat started + rl_attempt (ru_recovery u) = MAX_INPROCESS_RECOVERY_ATTEMPTS /\ exhausted s' u') /\
  (forall e, ended = SUPERVISOR_RAISED e -> e = CancelledError \/ unwritable e \/ exists why, e = TypeError why) /\
  (Forall always_fails runs -> MAX_INPROCESS_RECOVERY_ATTEMPTS <= Z.of_nat (length runs) + rl_attempt (ru_recovery u) ->
     ended = SUPERVISOR_EXHAUSTED \/ exists e, ended = SUPERVISOR_RAISED e /\ unwritable e).

Lemma supervised_end runs u ended started s' u' :
  Z.of_nat started + rl_attempt (ru_recovery u) <= MAX_INPROCESS_RECOVERY_ATTEMPTS -> ended <> SUPERVISOR_RUNNING ->
  (ended = SUPERVISOR_EXHAUSTED -> Z.of_nat started + rl_attempt (ru_recovery u) = MAX_INPROCESS_RECOVERY_ATTEMPTS /\ exhausted s' u') ->
  (forall e, ended = SUPERVISOR_RAISED e -> e = CancelledError \/ unwritable e \/ exists why, e = TypeError why) ->
  (Forall always_fails runs -> ended = SUPERVISOR_EXHAUSTED \/ exists e, ended = SUPERVISOR_RAISED e /\ unwritable e) ->
  supervised_runs runs u ended started s' u'.
Proof. intros H1 H2 H3 H4 H5. split_and!; [done|by intros ?|done|done|intros; by apply H5]. Qed.

(** What a failing task asks for: its error is handled. *)
Lemma fails_outcome run w ended w' : always_fails run -> tr_run run w = (ended, w') -> exists e, task_outcome run ended = Some (Ok e).
Proof. intros (_ & _ & Hf) E. destruct (Hf w) as [[e He] _]. rewrite E in He. cbn in He. subst ended. by exists e. Qed.
Lemma outcome_raises run ended e : task_outcome run ended = Some (Raise e) -> e = CancelledError.
Proof. destruct ended; cbn; [by destruct (tr_stop_set run)|destruct (tr_stop_set run); [done|by intros [= <-]]|done]. Qed.

Lemma supervise_runs_ends runs : forall index s u (Hk : Forall keeps_attempt runs)
  (Ha : rl_attempt (ru_recovery u) < MAX_INPROCESS_RECOVERY_ATTEMPTS) ended started delays s' u',
  supervise_runs index runs (s, u) = ((ended, started, delays), (s', u')) -> supervised_runs runs u ended started s' u'.
Proof.
  induction runs as [|run runs IH]; intros index s u Hk Ha ended started delays s' u'; cbn [supervise_runs].
  { intros [= <- <- <- <- <-]. unfold supervised_runs, MAX_INPROCESS_RECOVERY_ATTEMPTS in *. split_and!; [cbn; lia|done|done|done|intros _ Hx; exfalso; cbn in Hx; lia]. }
  apply Forall_cons in Hk as [Hrun Hk]. destruct ((update _ ;;; rehydrate_before_run) (s, u)) as [r0 [s1 u1]] eqn:E1.
  apply before_run_ends in E1 as [Hw1 Ha1]. destruct r0 as [[]|e0].
  2: { intros [= <- <- _ <- <-]. apply supervised_end; [lia|done|done|intros e [= <-]; by right; left|intros _; right; by exists e0]. }
  pose proof (Hrun (s1, u1)) as Ha2. destruct (tr_run run (s1, u1)) as [finished [s2 u2]] eqn:Er. cbn [fst snd] in Ha2.
  assert (always_fails run -> forall repr d, ru_last_result u2 = VDict repr d -> ~ uniterable d) as Hread.
  { intros (_ & _ & Hf). destruct (Hf (s1, u1)) as [_ Hf']. by rewrite Er in Hf'. }
  destruct (task_outcome run finished) as [[error|e]|] eqn:Eo.
  2,3: intros [= <- <- _ <- <-]; apply supervised_end; [lia|done|done| |intros [Hf _]%Forall_cons;
    destruct (fails_outcome _ _ _ _ Hf Er) as [e' E']; congruence].
  2: intros e' [= <-]; left; by eapply outcome_raises. 2: done.
  destruct (after_failure _ _ (s2, u2)) as [answer [s3 u3]] eqn:E3. apply after_failure_ends in E3 as [Ha3 Hend].
  destruct answer as [[management_only|]|e].
  - assert (always_fails run -> tr_wait run = WAIT_ELAPSED) as Hwait by by intros (_ & ? & _).
    destruct (tr_wait run) eqn:Ewait.
    2: intros [= <- <- _ <- <-]; apply supervised_end; [lia|done|done|done|intros [Hf _]%Forall_cons; by discriminate (Hwait Hf)].
    2: intros [= <- <- _ <- <-]; apply supervised_end; [lia|done|done|intros e [= <-]; by left|
      intros [Hf _]%Forall_cons; by discriminate (Hwait Hf)].
    set (w4 := if management_only then _ else _).
    assert (exists u4, w4 = (s3, u4) /\ rl_attempt (ru_recovery u4) = rl_attempt (ru_recovery u3)) as (u4 & -> & Ha4).
    { subst w4. destruct management_only; by eexists. }
    destruct (supervise_runs _ runs _) as [[[en st] de] [s5 u5]] eqn:E5. intros [= <- <- _ <- <-].
    apply IH in E5 as (H1 & H2 & H3 & H4 & H5); [|done|lia].
    split_and!; [lia|intros ->; cbn; by rewrite H2|intros ->; split; [|by apply H3]; destruct (H3 eq_refl); lia|exact H4|].
    intros [_ Hall]%Forall_cons Hlen. apply H5; [done|]. cbn [length] in Hlen. lia.
  - intros [= <- <- _ <- <-]. destruct Hend as [Hm Hx]. apply supervised_end; [lia|done|intros _; split; [lia|done]|done|intros _; by left].
  - intros [= <- <- _ <- <-]. apply supervised_end; [lia|done|done| |].
    + intros e' [= <-]. destruct Hend as [|[[_ ?]|[? _]]]; [by right; left|by left|by right; right].
    + intros [Hf _]%Forall_cons. right. exists e. split; [done|]. destruct Hend as [?|[[Hc _]|[_ (repr & d & El & Hd)]]]; [done| |].
      * destruct Hf as (Hf & _). congruence.
      * by destruct (Hread Hf _ _ El).
Qed.

(** C14. A critical task is not restarted for ever.  Unless a healthy pass resets the
    count, the supervisor starts it at most three times in all, whatever its runs do.
    When the count is spent it returns, entries are withdrawn from the status, and if
    the durable hold was granted they are disabled in the database; a task that only
    fails comes to that end, or to the one exception that the supervisor lets out of its
    own: a state file that cannot be written.  What can escape besides is a cancellation
    and a last result that cannot be iterated over. *)
Theorem supervision_is_bounded stop runs s u ended started delays s' u' (Hk : Forall keeps_attempt runs)
  (Ha : rl_attempt (ru_recovery u) < MAX_INPROCESS_RECOVERY_ATTEMPTS)
  (E : _supervise_critical_task stop runs (s, u) = ((ended, started, delays), (s', u'))) :
  Z.of_nat started + rl_attempt (ru_recovery u) <= MAX_INPROCESS_RECOVERY_ATTEMPTS /\
  (ended = SUPERVISOR_RUNNING -> stop = false /\ started = length runs) /\
  (ended = SUPERVISOR_EXHAUSTED ->
     Z.of_nat started + rl_attempt (ru_recovery u) = MAX_INPROCESS_RECOVERY_ATTEMPTS /\
     rl_state (ru_recovery u') = RECOVERY_EXHAUSTED /\ es_entry_enabled (ru_entry u') = Some false /\
     es_entry_authorized (ru_entry u') = false /\ (rl_entry_hold (ru_recovery u') = true -> ~ entries_enabled s')) /\
  (forall e, ended = SUPERVISOR_RAISED e -> e = CancelledError \/ unwritable e \/ exists why, e = TypeError why) /\
  (stop = false -> Forall always_fails runs ->
   MAX_INPROCESS_RECOVERY_ATTEMPTS <= Z.of_nat (length runs) + rl_attempt (ru_recovery u) ->
     ended = SUPERVISOR_EXHAUSTED \/ exists e, ended = SUPERVISOR_RAISED e /\ unwritable e).
Proof.
  unfold _supervise_critical_task in E. destruct stop; [injection E as <- <- _ <- <-; split_and!; try done; cbn; lia|].
  apply supervise_runs_ends in E as (H1 & H2 & H3 & H4 & H5); [|done|done]. split_and!; [done|by auto|done|done|by intros _].
Qed.
End supervision.

(** ** The wait for the next slot *)

(** The wait is positive and at most one interval, and unless it is the shortest one it
    ends at the configured offset into a slot. *)
Theorem wait_ends_in_slot now interval offset : 0 <= now -> 60 * second <= interval ->
  let delay := _aligned_run_delay_seconds now interval offset in
  let bounded := Z.min (Z.max offset 0) (interval - 1000) in
  10000 <= delay <= interval /\ (10000 < delay -> exists slot, now + delay = slot * interval + bounded /\ 0 <= bounded < interval).
Proof.
  unfold second. intros Hn Hi. unfold _aligned_run_delay_seconds, second.
  rewrite (proj2 (Z.leb_gt _ _)), (proj2 (Z.ltb_ge _ _)) by lia. rewrite (Z.max_l (interval - 1000) 0) by lia.
  set (bounded := Z.min _ _). assert (0 <= bounded < interval) as Hb by lia. cbv zeta.
  rewrite Z.quot_div_nonneg by lia. pose proof (Z.div_mod now interval ltac:(lia)) as Hd.
  pose proof (Z.mod_pos_bound now interval ltac:(lia)) as Hm. set (slot := now / interval) in *.
  destruct (Z.leb_spec (slot * interval + bounded) now); split; try lia; intros Hx; [exists (slot + 1)|exists slot]; lia.
Qed.
