(* ===== verification/RuntimeCases.v ===== *)
(** * RuntimeCases: the scheduler's process at concrete states

    The theorems of [RuntimeHold] and [RuntimeLaws] on the database of [CycleCases]
    and the process of [SchedulerCases], and a switch that no hold can take. *)
From S2P Require Import Prelude PyDecimal PyValue State Receipts RuntimeLock AccountWriter BinanceAdapter Composition Database Repository Transactions Ledger.
From S2P Require Import Cycle CycleSteps CycleEntry CycleSafety CycleCases RiskTiers OperatorProfile SchedulerCoordination SchedulerSteps SchedulerEntry SchedulerCases.
From S2P Require Import RuntimeHold RuntimeScheduler RuntimeLaws.
Local Open Scope Z_scope.
Local Open Scope py_scope.

#[local] Existing Instance demo_host.

(** ** The switch *)

Definition set_by_operator (enabled : bool) (reason : string) : Session :=
  (with_session (set_runtime_control "global" enabled (Some reason) (Some "api"%string) None ;;; commit) enabled_session).2.

Lemma scheduler_respects_operator_witness :
  ct_reason <$> control_of (persist_liveness_recovery_hold "crash" (set_by_operator false "maintenance")).2 =
    Some (Some "maintenance"%string) /\
  ct_entry_enabled <$> control_of (persist_liveness_recovery_hold "crash" (set_by_operator false "maintenance")).2 = Some false.
Proof.
  destruct (control_of (set_by_operator false "maintenance")) as [c|] eqn:Ec; [|by vm_compute in Ec].
  assert (operator_pause c /\ ct_reason c = Some "maintenance"%string) as [Hp Hr].
  { vm_compute in Ec. injection Ec as <-. split_and!; by vm_compute. }
  pose proof (proj2 (scheduler_respects_operator _ _ (rtc_once _ _ (call_persist "crash" (set_by_operator false "maintenance"))))
    c Ec Hp) as E. clear Ec. destruct Hp as [Hp _].
  rewrite E. cbn [fmap option_fmap option_map]. rewrite Hp, Hr. split; reflexivity.
Defined.

(** Entries that the operator enabled without a reason cannot be held: the row's
    empty reason is observed as none, and the swap asks for NULL. *)
Theorem empty_reason_defeats_hold :
  (persist_liveness_recovery_hold "crash" (set_by_operator true "")).1 = Ok false /\
  ct_entry_enabled <$> control_of (persist_liveness_recovery_hold "crash" (set_by_operator true "")).2 = Some true.
Proof. split; vm_compute; reflexivity. Qed.

(** A hold of the enabled switch, the cycle of [CycleCases] after it, and the pass of
    [SchedulerCases] after that. *)
Definition held_session : Session := (persist_liveness_recovery_hold "crash" enabled_session).2.
Definition held_cycle : res CycleResult * (Venue * Session) :=
  run_automated_trading_cycle (demo_request ACTIVE None true) (venue_at "64000.0" [], held_session).
Definition held_pass : res PassReport * (Venue * Session * Coordination) :=
  _execute_v2_automated_trading_cycles (P := btc_host) empty_payload false "automated_trading_v2" (held_cycle.2, no_coordination).

Notation after := (later (P := btc_host) (V := spot_client) (Some cap_b)).
Definition held_world : Venue * Session := (venue_at "64000.0" [], held_session).
Lemma after_cycle : after held_world held_cycle.2.
Proof.
  eapply (later_cycle (P := btc_host) (V := spot_client) (Some cap_b) held_world held_world (demo_request ACTIVE None true) held_cycle.1).
  - apply later_now.
  - left. reflexivity.
  - exact (surjective_pairing held_cycle).
Qed.
Lemma after_pass : after held_world held_pass.2.1.
Proof.
  eapply (later_pass (P := btc_host) (V := spot_client) (Some cap_b) held_world held_cycle.2 empty_payload false "automated_trading_v2"
    no_coordination held_pass.1 held_pass.2.1 held_pass.2.2).
  - exact after_cycle.
  - unfold held_pass. by destruct (_execute_v2_automated_trading_cycles _ _ _ _) as [r [w d]].
Qed.


(** ** The process *)

Definition host_writing (write : nat -> RuntimeSchedulerStatus -> res unit) : SchedulerHost := {|
  scheduler_pass_host := btc_host;
  get_active _ := Ok None;
  _active_strategy_authorization_state _ :=
    mkAuthorizationState (mkAuthority AUTH_PRODUCTION "production_approved" (Some "trend"%string) true) (Some "snap"%string)
      (Some "hash"%string) None None true true "production_approved" false "NO_FORWARD_VALIDATION_CANDIDATE";
  coordinated := true;
  write_external_scheduler_state := write |}.
#[local] Instance runtime_host : SchedulerHost := host_writing (fun _ _ => Ok tt).
(** A host whose disk is full. *)
Definition full_disk : PyExc := OtherException "OSError".
Definition full_host : SchedulerHost := host_writing (fun _ _ => Raise full_disk).

Definition started_status : RuntimeSchedulerStatus :=
  mkStatus (Some "BINANCE_TESTNET"%string) false
    (mkEntryStatus (Some true) true "PRODUCTION" "production_approved" None (VStr "trend") true "TRADING_READY" (Some true))
    (mkSnapshotStatus (Some "snap"%string) (Some "hash"%string) None None true)
    (mkAuthorization true "APPROVED" false "NO_FORWARD_VALIDATION_CANDIDATE" (Some false) [])
    (mkRecovery RECOVERY_HEALTHY None 0 false None) (mkJob true true None 0 None false) VNone None.

(** A task that fails whenever it is started. *)
Definition crash : TaskRun := mkRun (fun w => (TASK_FAILED "boom", w)) false false WAIT_ELAPSED.
Definition crashes : list TaskRun := [crash; crash; crash; crash; crash].
Definition supervised : (SupervisorEnd * nat * list Z) * (Session * RuntimeSchedulerStatus) :=
  _supervise_critical_task false crashes (enabled_session, started_status).

Lemma crashes_keep : Forall keeps_attempt crashes.
Proof. repeat (apply Forall_cons; split; [done|]). by apply Forall_nil. Qed.
Lemma supervised_run : _supervise_critical_task false crashes (enabled_session, started_status) =
  ((supervised.1.1.1, supervised.1.1.2, supervised.1.2), (supervised.2.1, supervised.2.2)).
Proof. unfold supervised. by destruct (_supervise_critical_task _ _ _) as [[[? ?] ?] [? ?]]. Qed.

Lemma supervision_is_bounded_witness :
  supervised.1 = (SUPERVISOR_EXHAUSTED, 3%nat, [5; 15]) /\ ~ entries_enabled supervised.2.1.
Proof.
  assert (supervised.1 = (SUPERVISOR_EXHAUSTED, 3%nat, [5; 15])) as E1 by (vm_compute; reflexivity). split; [exact E1|].
  assert (rl_entry_hold (ru_recovery supervised.2.2) = true) as E2 by (vm_compute; reflexivity).
  assert (rl_attempt (ru_recovery started_status) < MAX_INPROCESS_RECOVERY_ATTEMPTS) as Ha by (vm_compute; reflexivity).
  destruct (supervision_is_bounded false crashes enabled_session started_status _ _ _ _ _ crashes_keep Ha supervised_run)
    as (_ & _ & He & _ & _).
  assert (supervised.1.1.1 = SUPERVISOR_EXHAUSTED) as Hx by (rewrite E1; reflexivity).
  destruct (He Hx) as (_ & _ & _ & _ & Hn). exact (Hn E2).
Defined.

(** A state file that cannot be written ends the supervision with the first failure: the
    task is not restarted, nothing is held, and entries stay enabled. *)
Theorem unwritable_state_ends_supervision :
  let w := _supervise_critical_task (P := full_host) false crashes (enabled_session, started_status) in
  w.1 = (SUPERVISOR_RAISED full_disk, 1%nat, []) /\ ct_entry_enabled <$> control_of w.2.1 = Some true /\
  rl_state (ru_recovery w.2.2) = RECOVERY_CRASH_DETECTED.
Proof. split_and!; vm_compute; reflexivity. Qed.

(** The pass of [SchedulerCases] as its runner returns it. *)
Definition btc_item (symbol : string) : PyVal := VDict "" [("symbol", VStr symbol); ("status", VStr "completed");
  ("reconciliation_status", VStr "HEALTHY"); ("entry_authority", VStr "PRODUCTION"); ("entry_authorized", VBool true);
  ("active_entry_strategy", VStr "trend"); ("active_config_snapshot_id", VStr "snap"); ("active_config_hash", VStr "hash");
  ("trading_state", VStr "TRADING_READY")]%string.
Definition btc_result (symbols : list string) : PyDict :=
  [("status", VStr "completed"); ("results", VList "" (map btc_item symbols))]%string.

(** A healthy pass is published under the hold as management only, and clears the hold. *)
Example healthy_pass_recovers :
  let held := _set_recovery_hold "crash" (enabled_session, started_status) in
  let published := _refresh_entry_authority_from_v2_cycle (btc_result ["BTC/USDT"%string]) held.2 in
  let noted := note_critical_result (VDict "" (btc_result ["BTC/USDT"%string])) published.2 in
  es_trading_state (ru_entry published.2.2) = "MANAGEMENT_ONLY"%string /\
  rl_state (ru_recovery noted.2.2) = RECOVERY_RECOVERED /\ es_trading_state (ru_entry noted.2.2) = "TRADING_READY"%string /\
  ct_entry_enabled <$> control_of noted.2.1 = Some true.
Proof. split_and!; vm_compute; reflexivity. Qed.

(** The hold of [healthy_pass_recovers], cleared. *)
Definition held_process : Session * RuntimeSchedulerStatus :=
  let held := (_set_recovery_hold "crash" (enabled_session, started_status)).2 in
  (held.1, with_recovery (recovery_state_is RECOVERY_MANAGEMENT)
             (_refresh_entry_authority_from_v2_cycle (btc_result ["BTC/USDT"%string]) held).2.2).
Definition cleared_process : res bool * (Session * RuntimeSchedulerStatus) :=
  _maybe_clear_recovery_hold (VDict "" (btc_result ["BTC/USDT"%string])) held_process.
Lemma cleared_run : _maybe_clear_recovery_hold (VDict "" (btc_result ["BTC/USDT"%string])) (held_process.1, held_process.2) =
  (cleared_process.1, (cleared_process.2.1, cleared_process.2.2)).
Proof. unfold cleared_process. destruct held_process as [s u]. by destruct (_maybe_clear_recovery_hold _ _) as [r [s' u']]. Qed.

Lemma hold_cleared_only_when_recovered_witness :
  cleared_process.1 = Ok true /\ es_entry_enabled (ru_entry cleared_process.2.2) = Some true /\
  settled (s_committed held_process.1).
Proof.
  assert (cleared_process.1 = Ok true) as E by (vm_compute; reflexivity). split; [exact E|].
  destruct (hold_cleared_only_when_recovered _ _ _ _ _ _ cleared_run) as [[Hn _]|(_ & _ & _ & _ & _ & Hs & _ & He & _)];
    [destruct (Hn E)|]. split; [exact He|exact (Hs eq_refl)].
Defined.
