(* ===== verification/StrategyPackage.v ===== *)
(** * StrategyPackage: the identity of a strategy's code and rules

    [application/strategy_package_identity.py], [StrategyRules] of
    [shared/models/strategy.py], [strategy_rules_hash] of
    [services/execution/signal_edge_stats.py], and [canonical_config_hash] of
    [shared/models/trading.py].  The text of a source file is a parameter, in UTF-8;
    the rule blocks are JSON, so their dump in JSON mode is themselves. *)
From S2P Require Import Prelude PyDecimal PyValue Sha256 Canonical Receipts Database Repository Ledger.
From Stdlib Require Import Ascii.
From stdpp Require Import pretty.
Local Open Scope Z_scope.

(** ** Calls that return *)

Lemma Ok_inj {A} (a b : A) : Ok a = Ok b -> a = b.
Proof. exact (fun E => f_equal (fun r => match r with Ok x => x | Raise _ => a end) E). Qed.

Lemma res_bind_inv {A B} (m : res A) (f : A -> res B) b : m ≫= f = Ok b -> exists a, m = Ok a /\ f a = Ok b.
Proof. destruct m as [a|e]; [|done]. intros E. by exists a. Qed.

(** Name what every call of a run that returned has returned. *)
Ltac inv_res := repeat match goal with
  | H : (assert_or _ _ ≫= _) = Ok _ |- _ => apply assert_bind_ok in H as [? H]
  | H : _ ≫= _ = Ok _ |- _ => apply res_bind_inv in H as (? & ? & H)
  end.

(** ** The sources of a strategy *)

(** [read_source p]: the text of the file [p] under the source root. *)
Class StrategySources := { read_source : string -> res string }.

Definition AGGRESSIVE : string := "aggressive_multi_regime_v1".

Definition _COMMON_STRATEGY_SOURCES : list string := [
  "services/automated_trading/application/production_strategy.py";
  "services/automated_trading/domain/candidates.py";
  "services/execution/decision_pipeline.py";
  "services/execution/net_edge.py";
  "services/execution/signal_edge_stats.py";
  "services/strategy_library/candidates/registry.py";
  "services/strategy_library/ensemble/__init__.py";
  "services/strategy_library/ensemble/service.py";
  "services/strategy_library/ensemble/weighted.py";
  "services/strategy_library/meta_label_model.py";
  "services/strategy_library/regime/__init__.py";
  "services/strategy_library/regime/router.py";
  "services/strategy_library/regime/scorer_v2.py";
  "services/strategy_library/technical/__init__.py";
  "services/strategy_library/technical/dow_trend.py";
  "services/strategy_library/technical/indicators.py";
  "services/strategy_library/technical/macd.py";
  "services/strategy_library/technical/price_action.py";
  "services/strategy_library/technical/volatility_regime.py"]%string.

Definition _AGGRESSIVE_MULTI_REGIME_SOURCES : list string := [
  "services/strategy_library/context.py";
  "services/strategy_library/proposal_pipeline.py";
  "services/strategy_library/proposals.py";
  "services/strategy_library/v2_projection.py"]%string.

(** [sorted(texts)] *)
Definition sorted_texts (l : list string) : list string := map fst (sort_keys (map (fun s => (s, tt)) l)).

Definition strategy_source_files (strategy_id : string) : list string :=
  sorted_texts (if String.eqb strategy_id AGGRESSIVE
                then _COMMON_STRATEGY_SOURCES ++ _AGGRESSIVE_MULTI_REGIME_SOURCES
                else _COMMON_STRATEGY_SOURCES).

Definition newline : string := String "010" EmptyString.

(** [s.replace(crlf, lf)] *)
Fixpoint unix_lines (s : string) : string :=
  match s with
  | String "013" ((String "010" rest) as tail) => unix_lines tail
  | String c rest => String c (unix_lines rest)
  | EmptyString => EmptyString
  end.

(** What the digest is updated with for one file. *)
Definition source_line (relative_path content : string) : string :=
  relative_path +:+ String "000" (hexdigest (unix_lines content) +:+ newline).

Section sources.
Context {H : StrategySources}.

Definition source_text (relative_path : string) : res string :=
  match read_source relative_path with
  | Raise (OtherException "OSError") => Raise (ValueError "strategy source is unavailable")
  | r => r
  end.

Fixpoint source_lines (paths : list string) : res string :=
  match paths with
  | [] => Ok EmptyString
  | path :: paths =>
      content ← source_text path;
      rest ← source_lines paths;
      Ok (source_line path content +:+ rest)
  end.

Definition _strategy_code_hash (strategy_id : string) : res string :=
  lines ← source_lines (strategy_source_files strategy_id);
  Ok (hexdigest ("canonical-strategy-code-v1" +:+ newline +:+ lines)).

Definition _strategy_package_hash (strategy_id strategy_version rules_hash strategy_code_hash : string) : string :=
  hexdigest (dumps (VDict "" [("rules_hash", VStr rules_hash); ("strategy_code_hash", VStr strategy_code_hash);
                              ("strategy_id", VStr strategy_id); ("strategy_version", VStr strategy_version)]%string)).

Record StrategyPackageIdentity := mkIdentity {
  pi_strategy_id : string; pi_strategy_version : string; pi_rules_hash : string; pi_strategy_code_hash : string;
  pi_strategy_package_hash : string }.

(** The mapping of an identity; the manifest's has the same keys. *)
Definition identity_binding (strategy_id strategy_version rules_hash : string) (code_hash package_hash : PyVal) : PyVal :=
  VDict "" [("strategy_id", VStr strategy_id); ("strategy_version", VStr strategy_version);
            ("rules_hash", VStr rules_hash); ("strategy_code_hash", code_hash); ("strategy_package_hash", package_hash)]%string.
Definition snapshot_binding (i : StrategyPackageIdentity) : PyVal :=
  identity_binding (pi_strategy_id i) (pi_strategy_version i) (pi_rules_hash i)
    (VStr (pi_strategy_code_hash i)) (VStr (pi_strategy_package_hash i)).

(** [len(s)] *)
Definition py_len (s : string) : nat := length (code_points s).

Definition strategy_package_identity (strategy_id strategy_version rules_hash : string) : res StrategyPackageIdentity :=
  assert_or (str_truthy strategy_id && str_truthy strategy_version)
    (ValueError "strategy_id and strategy_version are required") ≫= fun _ =>
  assert_or (py_len rules_hash =? 64)%nat (ValueError "rules_hash must be SHA-256") ≫= fun _ =>
  code_hash ← _strategy_code_hash strategy_id;
  Ok (mkIdentity strategy_id strategy_version rules_hash code_hash
        (_strategy_package_hash strategy_id strategy_version rules_hash code_hash)).

(** The text of a listed file: it must be readable. *)
Definition text_of_source (path : string) : string := match source_text path with Ok s => s | Raise _ => EmptyString end.
End sources.

(** ** The rules *)

(** A model strips its strings of white space. *)
Definition is_white (c : ascii) : bool :=
  let n := N_of_ascii c in ((9 <=? n) && (n <=? 13) || (n =? 32))%N%bool.
Fixpoint ltrim (s : string) : string :=
  match s with String c s' => if is_white c then ltrim s' else s | EmptyString => EmptyString end.
Fixpoint rtrim (s : string) : string :=
  match s with
  | String c s' => let r := rtrim s' in if is_white c && negb (str_truthy r) then EmptyString else String c r
  | EmptyString => EmptyString
  end.
Definition trim (s : string) : string := rtrim (ltrim s).
(** A field of type [dict[str, Any]]. *)
Definition dict_field (d : PyDict) : PyDict := foldl (fun acc kv => dict_set acc (trim kv.1) kv.2) [] d.

Record StrategyRules := mkRules {
  entry_rules : PyDict; exit_rules : PyDict; stoploss_rules : PyDict; takeprofit_rules : PyDict; position_rules : PyDict }.

Definition RULE_BLOCKS : list string :=
  ["entry_rules"; "exit_rules"; "stoploss_rules"; "takeprofit_rules"; "position_rules"]%string.

Definition rule_block (kwargs : PyDict) (name : string) : res PyDict :=
  match py_find kwargs name with
  | None => Ok []
  | Some (VDict _ d) => Ok (dict_field d)
  | Some _ => Raise (ValueError "ValidationError")
  end.

(** [StrategyRules( **kwargs )] *)
Definition make_StrategyRules (kwargs : PyDict) : res StrategyRules :=
  assert_or (forallb (fun kv => bool_decide (kv.1 ∈ RULE_BLOCKS)) kwargs) (ValueError "ValidationError") ≫= fun _ =>
  entry ← rule_block kwargs "entry_rules";
  exit ← rule_block kwargs "exit_rules";
  stoploss ← rule_block kwargs "stoploss_rules";
  takeprofit ← rule_block kwargs "takeprofit_rules";
  position ← rule_block kwargs "position_rules";
  Ok (mkRules entry exit stoploss takeprofit position).

Definition _jsonable_rules (r : StrategyRules) : PyVal :=
  VDict "" [("entry_rules", VDict "" (entry_rules r)); ("exit_rules", VDict "" (exit_rules r));
            ("stoploss_rules", VDict "" (stoploss_rules r)); ("takeprofit_rules", VDict "" (takeprofit_rules r));
            ("position_rules", VDict "" (position_rules r))]%string.

Definition strategy_rules_hash (r : StrategyRules) : string := hexdigest (dumps (_jsonable_rules r)).

(** ** The configuration *)

(** [ensure_ascii=False]: only quotes, backslashes and control characters are escaped. *)
Definition json_byte (c : ascii) : string :=
  let u := byte c in
  if u =? 34 then escaped quote
  else if u =? 92 then escaped backslash
  else if u =? 10 then escaped "n"
  else if u =? 13 then escaped "r"
  else if u =? 9 then escaped "t"
  else if u =? 8 then escaped "b"
  else if u =? 12 then escaped "f"
  else if u <? 32 then unicode_escape u
  else String c EmptyString.

Definition json_text (s : string) : string :=
  String quote (concat_text (map json_byte (list_ascii_of_string s)) +:+ String quote EmptyString).

Definition text_member (kv : string * string) : string := json_text kv.1 +:+ ":" +:+ kv.2.

Fixpoint dumps_text (v : PyVal) : string :=
  match v with
  | VNone => "null"
  | VBool b => if b then "true" else "false"
  | VInt z => pretty z
  | VFloat r => json_float r
  | VStr s => json_text s
  | VList _ l => "[" +:+ joined (map dumps_text l) +:+ "]"
  | VDict _ d => "{" +:+ joined (map text_member (sort_keys (map (fun kv => (kv.1, dumps_text kv.2)) d))) +:+ "}"
  end.

Definition canonical_config_hash (config : PyDict) : string := "sha256:" +:+ hexdigest (dumps_text (VDict "" config)).

Example config_hash_example :
  let text := string_of_list_ascii (map ascii_of_N [120; 34; 195; 169; 127; 1]%N) in
  canonical_config_hash [("b", VList "" [VInt 1; VStr text]); ("a", VDict "" [("n", VNone); ("f", VFloat "1.5")])]%string =
  "sha256:1ed19655d2caac9c6dbf06303b724e426287580e19aff5bf7f014ed16dd469bc"%string.
Proof. vm_compute. reflexivity. Qed.

(** ** Stripped texts *)

Definition blank (s : string) : Prop := Forall (fun c => is_space c = true) (list_ascii_of_string s).

Lemma blank_cons c s : blank (String c s) <-> is_space c = true /\ blank s.
Proof. unfold blank. simpl. by rewrite Forall_cons. Qed.

Lemma white_is_space c : is_white c = true -> is_space c = true.
Proof.
  unfold is_white, is_space. rewrite !orb_true_iff, !andb_true_iff, !N.leb_le, N.eqb_eq. lia.
Qed.

Lemma rstrip_blank s : rstrip s = EmptyString <-> blank s.
Proof.
  induction s as [|c s IH]; [split; [constructor|done]|]. rewrite blank_cons, <- IH. simpl.
  destruct (is_space c); simpl; [|split; [done|by intros [? _]]].
  destruct (rstrip s); simpl; [tauto|split; [done|by intros [_ ?]]].
Qed.

Lemma lstrip_blank s : blank (lstrip s) <-> blank s.
Proof.
  induction s as [|c s IH]; [done|]. simpl. destruct (is_space c) eqn:E; [|done]. rewrite IH, blank_cons, E. tauto.
Qed.

Lemma strip_blank s : strip s = EmptyString <-> blank s.
Proof. unfold strip. by rewrite rstrip_blank, lstrip_blank. Qed.

Lemma ltrim_blank s : blank (ltrim s) <-> blank s.
Proof.
  induction s as [|c s IH]; [done|]. simpl. destruct (is_white c) eqn:E; [|done]. rewrite IH, blank_cons.
  apply white_is_space in E. tauto.
Qed.

Lemma rtrim_blank s : blank (rtrim s) <-> blank s.
Proof.
  induction s as [|c s IH]; [done|]. simpl. destruct (is_white c && negb (str_truthy (rtrim s))) eqn:E;
    [|by rewrite !blank_cons, IH].
  apply andb_true_iff in E as [E1%white_is_space E2]. rewrite blank_cons, <- IH.
  split; [intros _|intros _; constructor]. split; [done|]. by destruct (rtrim s); [constructor|].
Qed.

Lemma strip_trim s : strip (trim s) = EmptyString <-> strip s = EmptyString.
Proof. unfold trim. by rewrite !strip_blank, rtrim_blank, ltrim_blank. Qed.

Definition unpadded (s : string) : Prop := Forall (fun c => is_white c = false) (list_ascii_of_string s).

Lemma trim_unpadded s : unpadded s -> trim s = s.
Proof.
  intros Hs. unfold trim. assert (ltrim s = s) as ->.
  { destruct s as [|c s]; [done|]. apply Forall_cons in Hs as [Hc _]. simpl. by rewrite Hc. }
  induction s as [|c s IH]; [done|]. apply Forall_cons in Hs as [Hc Hs]. simpl. by rewrite Hc, (IH Hs).
Qed.

Lemma hex_unpadded c : is_hex c = true -> is_white c = false.
Proof.
  unfold is_hex. rewrite existsb_exists. intros (d & Hd & ->%Ascii.eqb_eq). revert d Hd. apply List.Forall_forall.
  repeat constructor.
Qed.

Lemma trim_hexdigest s : trim (hexdigest s) = hexdigest s.
Proof.
  apply trim_unpadded. eapply Forall_impl; [exact (hexdigest_is_hex s)|]. intros c. apply hex_unpadded.
Qed.

(** ** What the code hash identifies *)


Section identified.
Context {H : StrategySources}.

Definition readable (strategy_id : string) : Prop :=
  Forall (fun p => is_ok (source_text p) = true) (strategy_source_files strategy_id).

Definition code_text (strategy_id : string) : string :=
  "canonical-strategy-code-v1" +:+ newline
  +:+ concat_text (map (fun p => source_line p (text_of_source p)) (strategy_source_files strategy_id)).

Lemma source_lines_readable paths : Forall (fun p => is_ok (source_text p) = true) paths ->
  source_lines paths = Ok (concat_text (map (fun p => source_line p (text_of_source p)) paths)).
Proof.
  induction 1 as [|p paths Hp _ IH]; [done|]. simpl. rewrite IH. unfold text_of_source.
  by destruct (source_text p).
Qed.

Lemma source_lines_ok paths lines : source_lines paths = Ok lines -> Forall (fun p => is_ok (source_text p) = true) paths.
Proof.
  revert lines. induction paths as [|p paths IH]; intros lines E; [constructor|]. simpl in E.
  destruct (source_text p) eqn:Ep; [|done]. destruct (source_lines paths) eqn:El; [|done].
  constructor; [by rewrite Ep|by eapply IH].
Qed.

Lemma code_hash_readable strategy_id : readable strategy_id ->
  _strategy_code_hash strategy_id = Ok (hexdigest (code_text strategy_id)).
Proof. intros Hr. unfold _strategy_code_hash. by rewrite (source_lines_readable _ Hr). Qed.

Lemma code_hash_ok strategy_id h : _strategy_code_hash strategy_id = Ok h -> readable strategy_id.
Proof.
  unfold _strategy_code_hash. destruct (source_lines _) eqn:E; [|done]. intros _. by eapply source_lines_ok.
Qed.

(** Every text whose digest enters the code hash. *)
Definition hashed_texts (strategy_id : string) : list string :=
  code_text strategy_id :: map (fun p => unix_lines (text_of_source p)) (strategy_source_files strategy_id).
End identified.

Lemma str_app_assoc (x y z : string) : (x +:+ y) +:+ z = x +:+ (y +:+ z).
Proof. induction x as [|c x IH]; [done|]. exact (f_equal (String c) IH). Qed.

Lemma append_same_length (a b x y : string) : String.length a = String.length b -> a +:+ x = b +:+ y -> a = b /\ x = y.
Proof.
  revert b. induction a as [|c a IH]; intros [|d b] Hl E; simpl in *; try done.
  injection Hl as Hl. injection E as -> E. by destruct (IH b Hl E) as [-> ->].
Qed.

Lemma append_cancel (p x y : string) : p +:+ x = p +:+ y -> x = y.
Proof. intros E. by apply append_same_length in E as [_ E]. Qed.

Lemma same_digest_length s t : String.length (hexdigest s) = String.length (hexdigest t).
Proof. exact (eq_trans (length_hexdigest _) (eq_sym (length_hexdigest _))). Qed.

Lemma source_line_inj p c d x y : source_line p c +:+ x = source_line p d +:+ y ->
  hexdigest (unix_lines c) = hexdigest (unix_lines d) /\ x = y.
Proof.
  unfold source_line. pose proof (same_digest_length (unix_lines c) (unix_lines d)) as Hl. revert Hl.
  generalize (hexdigest (unix_lines c)), (hexdigest (unix_lines d)). intros h h' Hl.
  rewrite !str_app_assoc. intros E%append_cancel. simpl in E. injection E as E.
  rewrite !str_app_assoc in E. apply append_same_length in E as [E1 E2]; [|exact Hl].
  exact (conj E1 (append_cancel _ _ _ E2)).
Qed.

Lemma source_lines_inj (f g : string -> string) paths :
  concat_text (map (fun p => source_line p (f p)) paths) = concat_text (map (fun p => source_line p (g p)) paths) ->
  Forall (fun p => hexdigest (unix_lines (f p)) = hexdigest (unix_lines (g p))) paths.
Proof.
  induction paths as [|p paths IH]; intros E; [constructor|]. simpl in E.
  apply source_line_inj in E as [E1 E2]. constructor; [done|by apply IH].
Qed.

(** The digests of the given texts tell them apart. *)
Definition distinguishes (texts : list string) : Prop :=
  forall a b, a ∈ texts -> b ∈ texts -> hexdigest a = hexdigest b -> a = b.

(** C9. Two trees in which every listed source of a strategy can be read give it the same
    code hash exactly when each of these files has the same text up to its line
    endings, as long as SHA-256 tells apart the texts that were hashed: a checkout
    that converts line endings revokes nothing, and no edit of a listed file, and no
    exchange of text between files, goes unnoticed. *)
Theorem code_hash_identifies_sources (tree tree' : StrategySources) strategy_id :
  readable (H := tree) strategy_id -> readable (H := tree') strategy_id ->
  distinguishes (hashed_texts (H := tree) strategy_id ++ hashed_texts (H := tree') strategy_id) ->
  _strategy_code_hash (H := tree) strategy_id = _strategy_code_hash (H := tree') strategy_id <->
  Forall (fun p => unix_lines (text_of_source (H := tree) p) = unix_lines (text_of_source (H := tree') p))
    (strategy_source_files strategy_id).
Proof.
  intros Hr Hr' Hd.
  rewrite (code_hash_readable (H := tree) _ Hr), (code_hash_readable (H := tree') _ Hr'). split.
  - intros E%Ok_inj. apply Hd in E; [|by left|by apply elem_of_app; right; left]. unfold code_text in E.
    do 2 apply append_cancel in E.
    apply source_lines_inj in E. apply Forall_forall. intros p Hp.
    apply Hd; [| |exact (proj1 (Forall_forall _ _) E p Hp)]; apply elem_of_app; [left|right]; right;
      apply list_elem_of_fmap; by exists p.
  - intros E. do 2 f_equal. unfold code_text. do 2 f_equal. f_equal. apply map_ext_in. intros p Hp%list_elem_of_In.
    unfold source_line. do 2 f_equal. f_equal. f_equal. exact (proj1 (Forall_forall _ _) E p Hp).
Qed.
