(* ===== verification/StrategyManifest.v ===== *)
(** * StrategyManifest: the single active strategy manifest

    [application/canonical_strategy_manifest.py], the registry of candidates of
    [services/strategy_library/candidates/registry.py] without the functions that
    build their rules, and the two readers of the manifest in
    [services/execution/bootstrap.py].  What the file holds as JSON is a parameter. *)
From S2P Require Import Prelude PyDecimal PyValue Canonical Receipts Database Repository StrategyPackage.
Local Open Scope Z_scope.

(** [json.loads] of the text of the manifest, or what reading it raises. *)
Class ManifestFile := { manifest_json : res PyVal }.

Definition ManifestValidationError : PyExc := ValueError "ManifestValidationError".

Definition _AUTHORIZATION_STATES : list string := ["NOT_READY"; "PENDING"; "APPROVED"; "REVOKED"]%string.

(** A non-empty string. *)
Definition nonempty_text (v : PyVal) : option string :=
  match v with VStr s => if str_truthy s then Some s else None | _ => None end.

Definition _symbols (raw : PyVal) : res (list string) :=
  match raw with
  | VList _ items =>
      match mapM nonempty_text items with
      | Some symbols =>
          assert_or (bool_decide (NoDup symbols)) ManifestValidationError ≫= fun _ => Ok symbols
      | None => Raise ManifestValidationError
      end
  | _ => Raise ManifestValidationError
  end.

Record CanonicalStrategyManifest := mkManifest {
  mf_strategy_key : string; mf_strategy_id : string; mf_strategy_version : string; mf_rules_hash : string;
  mf_strategy_code_hash : string; mf_strategy_package_hash : string; mf_strategy_source_commit : string;
  mf_approval_commit : option string; mf_configured_execution_scope : list string;
  mf_eligible_execution_symbols : list string; mf_research_symbols : list string; mf_validation_evidence : PyDict;
  mf_golden_behavior_ref : option string; mf_authorization_state : string; mf_approval : PyDict;
  mf_config_snapshot_hash : option string; mf_effective_at : string }.

Definition is_approved (m : CanonicalStrategyManifest) : bool := String.eqb (mf_authorization_state m) "APPROVED".

(** [raw[field]] that must be a non-empty string. *)
Definition required_string (raw : PyDict) (field : string) : res string :=
  match nonempty_text (py_get raw field) with Some s => Ok s | None => Raise ManifestValidationError end.

(** None, or a string that passes. *)
Definition nullable_string (v : PyVal) (passes : string -> bool) : res (option string) :=
  match v with
  | VNone => Ok None
  | VStr s => assert_or (passes s) ManifestValidationError ≫= fun _ => Ok (Some s)
  | _ => Raise ManifestValidationError
  end.

(** [state in _AUTHORIZATION_STATES]: a list or a mapping is not hashable. *)
Definition authorization_state_of (v : PyVal) : res string :=
  match v with
  | VStr s => assert_or (bool_decide (s ∈ _AUTHORIZATION_STATES)) ManifestValidationError ≫= fun _ => Ok s
  | VList _ _ | VDict _ _ => Raise (TypeError "unhashable type")
  | _ => Raise ManifestValidationError
  end.

Definition is_text (v : PyVal) : bool := match v with VStr _ => true | _ => false end.
Definition dict_of (v : PyVal) : res PyDict := match v with VDict _ d => Ok d | _ => Raise ManifestValidationError end.

(** What only an APPROVED manifest must have. *)
Definition approval_complete (raw approval : PyDict) (eligible : list string) (approval_commit : option string) : bool :=
  is_nonempty eligible && is_text (py_get approval "approved_by") && is_text (py_get approval "approved_at")
  && bool_decide (is_Some (nonempty_text (py_get raw "config_snapshot_hash"))) && bool_decide (is_Some approval_commit).

(** The decoded file as a manifest. *)
Definition parse_manifest (raw : PyDict) : res CanonicalStrategyManifest :=
  assert_or (py_eqb (py_get raw "schema_version") (VInt 4)) ManifestValidationError ≫= fun _ =>
  strategy_key ← required_string raw "strategy_key";
  strategy_id ← required_string raw "strategy_id";
  strategy_version ← required_string raw "strategy_version";
  rules_hash ← required_string raw "rules_hash";
  strategy_code_hash ← required_string raw "strategy_code_hash";
  strategy_package_hash ← required_string raw "strategy_package_hash";
  strategy_source_commit ← required_string raw "strategy_source_commit";
  effective_at ← required_string raw "effective_at";
  assert_or (forallb (fun h => py_len h =? 64)%nat [rules_hash; strategy_code_hash; strategy_package_hash])
    ManifestValidationError ≫= fun _ =>
  assert_or (py_len strategy_source_commit =? 40)%nat ManifestValidationError ≫= fun _ =>
  approval_commit ← nullable_string (py_get raw "approval_commit") (fun s => py_len s =? 40)%nat;
  configured ← _symbols (py_get raw "configured_execution_scope");
  eligible ← (let v := py_get raw "eligible_execution_symbols" in if py_truthy v then _symbols v else Ok []);
  assert_or (forallb (fun s => bool_decide (s ∈ configured)) eligible) ManifestValidationError ≫= fun _ =>
  research ← _symbols (py_get raw "research_symbols");
  state ← authorization_state_of (py_get raw "authorization_state");
  evidence ← dict_of (py_get raw "validation_evidence");
  approval ← dict_of (py_get raw "approval");
  assert_or (negb (String.eqb state "APPROVED") || approval_complete raw approval eligible approval_commit)
    ManifestValidationError ≫= fun _ =>
  golden ← nullable_string (py_get raw "golden_behavior_ref") (fun _ => true);
  snapshot_hash ← nullable_string (py_get raw "config_snapshot_hash") (fun _ => true);
  Ok (mkManifest strategy_key strategy_id strategy_version rules_hash strategy_code_hash strategy_package_hash
        strategy_source_commit approval_commit configured eligible research evidence golden state approval
        snapshot_hash effective_at).

Section manifest.
Context {M : ManifestFile}.

Definition load_canonical_strategy_manifest : res CanonicalStrategyManifest :=
  match manifest_json with
  | Ok (VDict _ raw) => parse_manifest raw
  | Ok _ => Raise ManifestValidationError
  | Raise (OtherException "OSError") | Raise (OtherException "JSONDecodeError") => Raise ManifestValidationError
  | Raise e => Raise e
  end.
End manifest.

(** ** The registered candidates *)

Record StrategyCandidate := mkStrategyCandidate {
  sc_candidate_id : string; sc_version : string; sc_lifecycle_state : string; sc_execution_eligible : bool }.

Definition baseline (candidate_id version : string) : StrategyCandidate :=
  mkStrategyCandidate candidate_id version "BASELINE_ONLY" false.
Definition research_only (candidate_id version : string) : StrategyCandidate :=
  mkStrategyCandidate candidate_id version "RESEARCH_ONLY" false.

Definition CANDIDATE_REGISTRY : list StrategyCandidate := [
  baseline "operator_heuristic_v1" "1.0.0";
  baseline "trend_momentum_v1" "1.0.0";
  baseline "trend_momentum_v2_enriched" "2.0.0";
  baseline "trend_breakout_v1" "1.0.0";
  baseline "pandas_ta_broad_screen_v1" "1.0.0";
  baseline "operator_heuristic_v2_relaxed" "2.0.1";
  baseline "trend_pullback_v1" "1.0.0-research";
  research_only "failed_breakout_reversal_v1" "1.0.0-research";
  research_only "trend_pullback_v2" "2.0.0-research";
  research_only "range_sweep_reversion_v1" "1.0.0-research";
  research_only "aggressive_multi_regime_v1" "1.0.0";
  research_only "loss_aware_trend_pullback_v1" "1.0.0-live-loss-hypothesis";
  research_only "breakout_continuation_v1" "1.0.0-research";
  research_only "htf_trend_continuation_v1" "1.0.0-generation-1";
  research_only "breakout_retest_v1" "1.0.0-generation-1";
  research_only "donchian_breakout_retest_v1" "1.0.0-generation-4";
  research_only "momentum_continuation_v1" "1.0.0-generation-5";
  research_only "volatility_expansion_v1" "1.0.0-generation-3"]%string.

Definition get_candidate (candidate_id : string) : res StrategyCandidate :=
  match List.find (fun c => String.eqb (sc_candidate_id c) candidate_id) CANDIDATE_REGISTRY with
  | Some c => Ok c
  | None => Raise (KeyError "Unknown candidate")
  end.

(** ** The readers of the bootstrap *)

Section bootstrap.
Context {M : ManifestFile} {H : StrategySources}.

Definition manifest_identity (m : CanonicalStrategyManifest) : PyVal :=
  identity_binding (mf_strategy_id m) (mf_strategy_version m) (mf_rules_hash m)
    (VStr (mf_strategy_code_hash m)) (VStr (mf_strategy_package_hash m)).
Definition runtime_identity (m : CanonicalStrategyManifest) : res StrategyPackageIdentity :=
  strategy_package_identity (mf_strategy_id m) (mf_strategy_version m) (mf_rules_hash m).

(** What [except (OSError, ValueError, KeyError, TypeError, ...)] catches. *)
Definition caught_reading (e : PyExc) : bool :=
  match e with
  | ValueError _ | KeyError _ | TypeError _ => true
  | OtherException why => bool_decide (why ∈ ["OSError"; "JSONDecodeError"]%string)
  | _ => false
  end.

(** The identity a new snapshot is bound to: the manifest's, if the code at hand has it. *)
Definition resolve_auto_paper_manifest_binding : res (option PyVal) :=
  match load_canonical_strategy_manifest with
  | Raise e => if caught_reading e then Ok None else Raise e
  | Ok m =>
      runtime ← runtime_identity m;
      Ok (if py_eqb (snapshot_binding runtime) (manifest_identity m) then Some (manifest_identity m) else None)
  end.

(** [technical_rules] with its entries disabled and the reason. *)
Definition disabled_rules (technical_rules : PyDict) (why : string) : PyDict :=
  let entry := match py_get technical_rules "entry_rules" with VDict _ d => d | _ => [] end in
  dict_set technical_rules "entry_rules"
    (VDict "" (dict_set (dict_set entry "manifest_entry_enabled" (VBool false)) "manifest_error" (VStr why))).

(** The rules of the manifest's candidate with its symbols, or rules that open nothing. *)
Definition resolve_auto_paper_technical_evidence (execution_symbols : list string) (technical_rules : PyDict)
    (get_config : string -> PyDict) (exc_text : PyExc -> string) : res (PyDict * list string) :=
  match
    m ← load_canonical_strategy_manifest;
    assert_or (bool_decide (mf_configured_execution_scope m = execution_symbols))
      (ValueError "manifest configured execution scope does not match fixed execution universe") ≫= fun _ =>
    candidate ← get_candidate (mf_strategy_id m);
    let config := get_config (sc_candidate_id candidate) in
    rules ← make_StrategyRules config;
    assert_or (String.eqb (strategy_rules_hash rules) (mf_rules_hash m)) (ValueError "manifest rules hash mismatch") ≫= fun _ =>
    Ok (config, mf_eligible_execution_symbols m)
  with
  | Ok evidence => Ok evidence
  | Raise e => if caught_reading e then Ok (disabled_rules technical_rules (exc_text e), []) else Raise e
  end.
End bootstrap.

(** ** What a manifest that loads is like *)

Record manifest_wf (m : CanonicalStrategyManifest) : Prop := {
  mw_strings : Forall (fun s => s <> EmptyString)
    [mf_strategy_key m; mf_strategy_id m; mf_strategy_version m; mf_rules_hash m; mf_strategy_code_hash m;
     mf_strategy_package_hash m; mf_strategy_source_commit m; mf_effective_at m];
  mw_hashes : Forall (fun s => py_len s = 64%nat) [mf_rules_hash m; mf_strategy_code_hash m; mf_strategy_package_hash m];
  mw_commits : Forall (fun s => py_len s = 40%nat) (mf_strategy_source_commit m :: option_list (mf_approval_commit m));
  mw_scopes : NoDup (mf_configured_execution_scope m) /\ NoDup (mf_eligible_execution_symbols m) /\ NoDup (mf_research_symbols m);
  mw_eligible : mf_eligible_execution_symbols m ⊆ mf_configured_execution_scope m;
  mw_symbols : Forall (fun s => s <> EmptyString)
    (mf_configured_execution_scope m ++ mf_eligible_execution_symbols m ++ mf_research_symbols m);
  mw_state : mf_authorization_state m ∈ _AUTHORIZATION_STATES;
  mw_approved : is_approved m = true ->
    mf_eligible_execution_symbols m <> [] /\
    is_text (py_get (mf_approval m) "approved_by") = true /\ is_text (py_get (mf_approval m) "approved_at") = true /\
    (exists h, mf_config_snapshot_hash m = Some h /\ h <> EmptyString) /\ is_Some (mf_approval_commit m) }.

Lemma nonempty_text_some v s : nonempty_text v = Some s -> v = VStr s /\ s <> EmptyString.
Proof. destruct v; try done. simpl. destruct (str_truthy s0) eqn:E; [|done]. intros [= ->]. by destruct s. Qed.

Lemma required_string_ok raw field s : required_string raw field = Ok s -> py_get raw field = VStr s /\ s <> EmptyString.
Proof.
  unfold required_string. destruct (nonempty_text _) as [t|] eqn:E; [|done]. intros [= ->]. by apply nonempty_text_some.
Qed.

Lemma symbols_ok raw l : _symbols raw = Ok l -> NoDup l /\ Forall (fun s => s <> EmptyString) l.
Proof.
  destruct raw as [| | | | |r items|]; try done. simpl. destruct (mapM nonempty_text items) as [symbols|] eqn:E; [|done].
  intros (Hd & [= ->])%assert_bind_ok. split; [by apply bool_decide_eq_true in Hd|].
  apply mapM_Some in E. apply Forall_forall. intros s (i & Hi)%list_elem_of_lookup.
  destruct (Forall2_lookup_r _ _ _ _ _ E Hi) as (v & _ & Hv). by apply nonempty_text_some in Hv as [_ ?].
Qed.

Lemma nullable_ok v passes o : nullable_string v passes = Ok o -> forall s, o = Some s -> passes s = true.
Proof. destruct v; try done; [by intros [= <-]|]. intros (Hp & [= <-])%assert_bind_ok. by intros s' [= <-]. Qed.

Lemma state_ok v s : authorization_state_of v = Ok s -> s ∈ _AUTHORIZATION_STATES.
Proof. destruct v; try done. intros (Hs & [= <-])%assert_bind_ok. by apply bool_decide_eq_true in Hs. Qed.

Lemma approval_complete_ok raw approval eligible commit : approval_complete raw approval eligible commit = true ->
  eligible <> [] /\ is_text (py_get approval "approved_by") = true /\ is_text (py_get approval "approved_at") = true /\
  (exists h, py_get raw "config_snapshot_hash" = VStr h /\ h <> EmptyString) /\ is_Some commit.
Proof.
  unfold approval_complete. intros H. split_bools.
  repeat match goal with H : bool_decide _ = true |- _ => apply bool_decide_eq_true in H end.
  match goal with H : is_Some (nonempty_text _) |- _ => destruct H as [h Hh]; apply nonempty_text_some in Hh as [Hh1 Hh2] end.
  split_and!; try done; [by apply is_nonempty_true|by exists h].
Qed.

Lemma parse_manifest_wf raw m : parse_manifest raw = Ok m -> manifest_wf m.
Proof.
  unfold parse_manifest. intros E. inv_res. apply Ok_inj in E as <-.
  repeat match goal with
  | H : required_string _ _ = Ok _ |- _ => apply required_string_ok in H as [_ H]
  | H : _symbols _ = Ok _ |- _ => apply symbols_ok in H as [? H]
  | H : authorization_state_of _ = Ok _ |- _ => apply state_ok in H
  end.
  match goal with H : (if _ then _symbols _ else Ok []) = Ok ?l |- _ =>
    assert (NoDup l /\ Forall (fun s => s <> EmptyString) l) as [? ?]
      by (revert H; destruct (py_truthy _); [apply symbols_ok|intros [= <-]; split; constructor]); clear H end.
  constructor; simpl.
  - repeat constructor; assumption.
  - match goal with H : forallb _ [_; _; _] = true |- _ => simpl in H end. split_bools.
    repeat constructor; by apply Nat.eqb_eq.
  - constructor; [by apply Nat.eqb_eq|].
    match goal with H : nullable_string _ (fun s => (py_len s =? 40)%nat) = Ok ?o |- _ =>
      pose proof (nullable_ok _ _ _ H) as Hc; destruct o as [c|]; [|constructor] end.
    constructor; [by apply Nat.eqb_eq, Hc|constructor].
  - done.
  - match goal with H : forallb (fun s => bool_decide _) ?l = true |- _ => intros s Hs%list_elem_of_In;
      apply (proj1 (forallb_forall _ _) H), bool_decide_eq_true in Hs; exact Hs end.
  - repeat (apply Forall_app; split); assumption.
  - assumption.
  - unfold is_approved. simpl. intros Ha.
    match goal with H : negb (String.eqb ?x _) || _ = true |- _ => rewrite Ha in H; simpl in H;
      apply approval_complete_ok in H as (? & ? & ? & (h & Hh & ?) & ?) end.
    split_and!; try done. exists h. split; [|done].
    match goal with H : nullable_string (py_get _ "config_snapshot_hash") _ = Ok _ |- _ => rewrite Hh in H; by injection H end.
Qed.

Lemma loaded_manifest_wf {M : ManifestFile} m : load_canonical_strategy_manifest = Ok m -> manifest_wf m.
Proof.
  unfold load_canonical_strategy_manifest. destruct manifest_json as [[]|e]; try done; [by apply parse_manifest_wf|].
  destruct e; try done. repeat (match goal with |- context [match ?s with _ => _ end] => destruct s; try done end).
Qed.
