(* ===== verification/ForwardHandoff.v ===== *)
(** * ForwardHandoff: the handoff from validation into testnet forward mode

    [services/validation/forward_validation.py]: the sealed artifact that carries a
    strategy, its package and its evidence, its two validators and its only
    constructor.  What the model library makes of a mapping's fields, and the text it
    gives a date, are parameters; a float is its [repr]. *)
From S2P Require Import Prelude PyDecimal PyValue Sha256 Canonical Receipts Database Repository StrategyPackage.
Local Open Scope Z_scope.

(** [x <= y] on floats. *)
Definition float_leb (x y : string) : bool :=
  match parse_decimal x, parse_decimal y with
  | Some (Finite a), Some (Finite b) => (a <=? b)%D
  | Some (Finite _), Some NotFinite => String.eqb y "inf"
  | Some NotFinite, Some (Finite _) => String.eqb x "-inf"
  | Some NotFinite, Some NotFinite =>
      String.eqb x "-inf" && negb (String.eqb y "nan") || String.eqb y "inf" && negb (String.eqb x "nan")
  | _, _ => false
  end.

Record ForwardDensityMetrics := mkDensity {
  fd_eligible_closed_bars : Z; fd_candidate_count : Z; fd_closed_trade_count : Z; fd_closed_trades_per_day : string;
  fd_median_inter_trade_hours : string; fd_p90_inter_trade_hours : string;
  fd_estimated_days_to_30_closed_trades : string; fd_target_forward_closed_trades : Z; fd_max_estimated_days : string;
  fd_passed : bool }.

Definition validate_frozen_thresholds (d : ForwardDensityMetrics) : res ForwardDensityMetrics :=
  assert_or (fd_target_forward_closed_trades d =? 30) (ValueError "forward target is frozen at 30 closed trades") ≫= fun _ =>
  assert_or (py_eqb (VFloat (fd_max_estimated_days d)) (VInt 60))
    (ValueError "forward density horizon is frozen at 60 days") ≫= fun _ =>
  assert_or (Bool.eqb (fd_passed d) (float_leb (fd_estimated_days_to_30_closed_trades d) (fd_max_estimated_days d)))
    (ValueError "forward density pass does not match estimated collection horizon") ≫= fun _ =>
  Ok d.

Record ForwardValidationHandoff := mkHandoff {
  fh_schema_version : string; fh_status : string; fh_candidate_id : string; fh_candidate_version : string;
  fh_strategy_id : string; fh_strategy_version : string; fh_rules_hash : string; fh_strategy_code_hash : string;
  fh_strategy_package_hash : string; fh_dataset_hash : string; fh_validation_evidence_ref : string;
  fh_validation_evidence_hash : string; fh_eligible_execution_symbols : list string; fh_strategy_rules : PyDict;
  fh_runtime_config_binding_hash : string; fh_package_identity : list (string * string);
  fh_density : ForwardDensityMetrics; fh_profitability_recovery_passed : bool; fh_forward_density_passed : bool;
  fh_frozen_at : datetime; fh_handoff_hash : string }.

(** [coerce_handoff d]: the fields of the mapping [d] as the model library reads
    them, before any validator; [datetime_json t]: the text it gives a date. *)
Class HandoffModel := {
  coerce_handoff : PyDict -> res ForwardValidationHandoff;
  datetime_json : datetime -> string }.

Definition SCHEMA_V2 : string := "forward-validation-handoff-v2".
Definition READY : string := "FORWARD_CANDIDATE_READY".

Section handoff.
Context {M : HandoffModel} {H : StrategySources}.

Definition dump_density (d : ForwardDensityMetrics) : PyVal :=
  VDict "" [("eligible_closed_bars", VInt (fd_eligible_closed_bars d)); ("candidate_count", VInt (fd_candidate_count d));
            ("closed_trade_count", VInt (fd_closed_trade_count d));
            ("closed_trades_per_day", VFloat (fd_closed_trades_per_day d));
            ("median_inter_trade_hours", VFloat (fd_median_inter_trade_hours d));
            ("p90_inter_trade_hours", VFloat (fd_p90_inter_trade_hours d));
            ("estimated_days_to_30_closed_trades", VFloat (fd_estimated_days_to_30_closed_trades d));
            ("target_forward_closed_trades", VInt (fd_target_forward_closed_trades d));
            ("max_estimated_days", VFloat (fd_max_estimated_days d)); ("passed", VBool (fd_passed d))]%string.

Definition texts (l : list (string * string)) : PyVal := VDict "" (map (fun kv => (kv.1, VStr kv.2)) l).

(** [self.model_dump(mode="json")] without [handoff_hash]. *)
Definition handoff_content (h : ForwardValidationHandoff) : PyDict :=
  [("schema_version", VStr (fh_schema_version h)); ("status", VStr (fh_status h));
   ("candidate_id", VStr (fh_candidate_id h)); ("candidate_version", VStr (fh_candidate_version h));
   ("strategy_id", VStr (fh_strategy_id h)); ("strategy_version", VStr (fh_strategy_version h));
   ("rules_hash", VStr (fh_rules_hash h)); ("strategy_code_hash", VStr (fh_strategy_code_hash h));
   ("strategy_package_hash", VStr (fh_strategy_package_hash h)); ("dataset_hash", VStr (fh_dataset_hash h));
   ("validation_evidence_ref", VStr (fh_validation_evidence_ref h));
   ("validation_evidence_hash", VStr (fh_validation_evidence_hash h));
   ("eligible_execution_symbols", VList "" (map VStr (fh_eligible_execution_symbols h)));
   ("strategy_rules", VDict "" (fh_strategy_rules h));
   ("runtime_config_binding_hash", VStr (fh_runtime_config_binding_hash h));
   ("package_identity", texts (fh_package_identity h)); ("density", dump_density (fh_density h));
   ("profitability_recovery_passed", VBool (fh_profitability_recovery_passed h));
   ("forward_density_passed", VBool (fh_forward_density_passed h));
   ("frozen_at", VStr (datetime_json (fh_frozen_at h)))]%string.
Definition dump_handoff (h : ForwardValidationHandoff) : PyDict :=
  handoff_content h ++ [("handoff_hash", VStr (fh_handoff_hash h))]%string.

Definition sha256_sized (s : string) : bool := (py_len s =? 64)%nat.
Definition has_duplicates (l : list string) : bool := negb (bool_decide (NoDup l)).

(** [ForwardValidationHandoff.validate_integrity] *)
Definition validate_integrity (h : ForwardValidationHandoff) : res ForwardValidationHandoff :=
  assert_or (String.eqb (fh_schema_version h) SCHEMA_V2)
    (ValueError "forward-validation-handoff-v1 is rejected due to circular snapshot binding") ≫= fun _ =>
  assert_or (String.eqb (fh_status h) READY)
    (ValueError "forward handoff status must be FORWARD_CANDIDATE_READY") ≫= fun _ =>
  assert_or (String.eqb (fh_candidate_id h) (fh_strategy_id h) && String.eqb (fh_candidate_version h) (fh_strategy_version h))
    (ValueError "candidate and strategy identities must be exact") ≫= fun _ =>
  assert_or (sha256_sized (fh_rules_hash h) && sha256_sized (fh_strategy_code_hash h) && sha256_sized (fh_strategy_package_hash h))
    (ValueError "strategy identity hashes must be SHA-256") ≫= fun _ =>
  assert_or (sha256_sized (fh_dataset_hash h) && sha256_sized (fh_validation_evidence_hash h))
    (ValueError "dataset and validation evidence hashes must be SHA-256") ≫= fun _ =>
  assert_or (is_nonempty (fh_eligible_execution_symbols h) && negb (has_duplicates (fh_eligible_execution_symbols h)))
    (ValueError "eligible_execution_symbols must be a non-empty unique tuple") ≫= fun _ =>
  assert_or (fh_profitability_recovery_passed h && fh_forward_density_passed h && fd_passed (fh_density h))
    (ValueError "only passing profitability and density gates may create a forward handoff") ≫= fun _ =>
  rules ← make_StrategyRules (fh_strategy_rules h);
  assert_or (String.eqb (strategy_rules_hash rules) (fh_rules_hash h)) (ValueError "forward handoff rules hash mismatch") ≫= fun _ =>
  assert_or (py_eqb (texts (fh_package_identity h))
               (identity_binding (fh_strategy_id h) (fh_strategy_version h) (fh_rules_hash h)
                  (VStr (fh_strategy_code_hash h)) (VStr (fh_strategy_package_hash h))))
    (ValueError "forward handoff package identity mismatch") ≫= fun _ =>
  assert_or (String.eqb (fh_handoff_hash h) (canonical_hash (VDict "" (handoff_content h))))
    (ValueError "FORWARD_VALIDATION_HANDOFF_HASH_MISMATCH") ≫= fun _ =>
  Ok h.

(** [ForwardValidationHandoff.model_validate(d)] of a mapping. *)
Definition model_validate (d : PyDict) : res ForwardValidationHandoff :=
  h ← coerce_handoff d;
  validate_frozen_thresholds (fh_density h) ≫= fun _ =>
  validate_integrity h.

(** [d.pop(key, None)] *)
Definition dict_without (d : PyDict) (key : string) : PyDict := bfilter (fun kv => negb (String.eqb kv.1 key)) d.

Definition forward_runtime_binding_hash (snapshot_config : PyDict) : string :=
  canonical_config_hash (dict_without snapshot_config "forward_validation").

(** The fields of a model whose values have the declared types: texts are stripped. *)
Definition stripped (h : ForwardValidationHandoff) : ForwardValidationHandoff :=
  mkHandoff (trim (fh_schema_version h)) (trim (fh_status h)) (trim (fh_candidate_id h)) (trim (fh_candidate_version h))
    (trim (fh_strategy_id h)) (trim (fh_strategy_version h)) (trim (fh_rules_hash h)) (trim (fh_strategy_code_hash h))
    (trim (fh_strategy_package_hash h)) (trim (fh_dataset_hash h)) (trim (fh_validation_evidence_ref h))
    (trim (fh_validation_evidence_hash h)) (map trim (fh_eligible_execution_symbols h)) (dict_field (fh_strategy_rules h))
    (trim (fh_runtime_config_binding_hash h)) (map (fun kv => (trim kv.1, trim kv.2)) (fh_package_identity h))
    (fh_density h) (fh_profitability_recovery_passed h) (fh_forward_density_passed h) (fh_frozen_at h)
    (trim (fh_handoff_hash h)).

Definition binding_texts (i : StrategyPackageIdentity) : list (string * string) :=
  [("strategy_id", pi_strategy_id i); ("strategy_version", pi_strategy_version i); ("rules_hash", pi_rules_hash i);
   ("strategy_code_hash", pi_strategy_code_hash i); ("strategy_package_hash", pi_strategy_package_hash i)]%string.

Definition with_hash (h : ForwardValidationHandoff) (hash : string) : ForwardValidationHandoff :=
  mkHandoff (fh_schema_version h) (fh_status h) (fh_candidate_id h) (fh_candidate_version h) (fh_strategy_id h)
    (fh_strategy_version h) (fh_rules_hash h) (fh_strategy_code_hash h) (fh_strategy_package_hash h) (fh_dataset_hash h)
    (fh_validation_evidence_ref h) (fh_validation_evidence_hash h) (fh_eligible_execution_symbols h)
    (fh_strategy_rules h) (fh_runtime_config_binding_hash h) (fh_package_identity h) (fh_density h)
    (fh_profitability_recovery_passed h) (fh_forward_density_passed h) (fh_frozen_at h) hash.

(** The density has passed its own validator when it was made. *)
Definition build_forward_validation_handoff (candidate_id candidate_version : string) (strategy_rules : PyDict)
    (dataset_hash validation_evidence_ref validation_evidence_hash : string) (eligible_execution_symbols : list string)
    (density : ForwardDensityMetrics) (profitability_eligible : bool) (runtime_config : PyDict) (frozen_at : datetime) :
    res ForwardValidationHandoff :=
  assert_or profitability_eligible (ValueError "PROFITABILITY_RECOVERY_NOT_PASS") ≫= fun _ =>
  assert_or (fd_passed density) (ValueError "FORWARD_DENSITY_NOT_PASS") ≫= fun _ =>
  assert_or (str_truthy dataset_hash && sha256_sized dataset_hash) (ValueError "dataset_hash must be SHA-256") ≫= fun _ =>
  assert_or (str_truthy (strip validation_evidence_ref) && sha256_sized validation_evidence_hash)
    (ValueError "validation evidence reference and SHA-256 are required") ≫= fun _ =>
  rules ← make_StrategyRules strategy_rules;
  let rules_hash := strategy_rules_hash rules in
  identity ← strategy_package_identity candidate_id candidate_version rules_hash;
  let h := mkHandoff SCHEMA_V2 READY candidate_id candidate_version candidate_id candidate_version rules_hash
             (pi_strategy_code_hash identity) (pi_strategy_package_hash identity) dataset_hash validation_evidence_ref
             validation_evidence_hash eligible_execution_symbols strategy_rules
             (forward_runtime_binding_hash runtime_config) (binding_texts identity) density true true frozen_at EmptyString in
  validate_integrity (stripped (with_hash h (canonical_hash (VDict "" (handoff_content h))))).
End handoff.
