(* ===== verification/StrategyAuthorization.v ===== *)
(** * StrategyAuthorization: which strategy may open, and why

    [resolve_production_authorization] and [resolve_testnet_forward_authorization] of
    [application/production_strategy.py]: an approved manifest, or a sealed handoff,
    bound to one configuration snapshot and to the code at hand.  [execution_symbols]
    is the configured execution universe. *)
From S2P Require Import Prelude PyDecimal PyValue Sha256 Canonical Receipts Database Repository StrategyPackage StrategyManifest.
From S2P Require Import ForwardHandoff RiskTiers Cycle OperatorProfile.
Local Open Scope Z_scope.

Record ProductionAuthorization := mkProductionAuthorization {
  pa_authorized : bool; pa_reason : string; pa_candidate_id : option string; pa_candidate_version : option string;
  pa_rules : option StrategyRules; pa_validation_evidence_ref : option string; pa_approval_identity : option string;
  pa_approval_time : option string; pa_validation_evidence_hash : option string; pa_dataset_hash : option string;
  pa_strategy_code_hash : option string; pa_strategy_package_hash : option string;
  pa_config_snapshot_hash : option string; pa_eligible_execution_symbols : list string }.

(** [ProductionAuthorization(False, reason)] *)
Definition refused (reason : string) : ProductionAuthorization :=
  mkProductionAuthorization false reason None None None None None None None None None None None [].
Definition unauthorized : ProductionAuthorization := refused NO_AUTHORIZED_PRODUCTION_STRATEGY.

(** [set(l) == set(m)] *)
Definition same_set (l m : list string) : bool :=
  forallb (fun s => bool_decide (s ∈ m)) l && forallb (fun s => bool_decide (s ∈ l)) m.

(** A string that is not blank. *)
Definition written_text (v : PyVal) : option string :=
  match v with VStr s => if str_truthy (strip s) then Some s else None | _ => None end.

(** Approved and executable, or not the aggressive candidate. *)
Definition may_be_approved (candidate : StrategyCandidate) (candidate_id : string) : bool :=
  negb (String.eqb candidate_id AGGRESSIVE)
  || String.eqb (sc_lifecycle_state candidate) "APPROVED" && sc_execution_eligible candidate.

Section authorization.
Context {M : ManifestFile} {H : StrategySources} {W : HandoffModel} (execution_symbols : list string).

(** The snapshot is the manifest's, by identity, code and rules. *)
Definition bound_rules (m : CanonicalStrategyManifest) (config : PyDict) : res (option StrategyRules) :=
  identity ← runtime_identity m;
  if negb (py_eqb (py_get config "canonical_strategy_manifest") (manifest_identity m))
     || negb (py_eqb (snapshot_binding identity) (manifest_identity m)) then Ok None
  else
    match py_get config "strategy_rules" with
    | VDict _ raw_rules =>
        rules ← make_StrategyRules raw_rules;
        Ok (if String.eqb (strategy_rules_hash rules) (mf_rules_hash m)
               && String.eqb (py_str (py_get (entry_rules rules) "candidate_id")) (mf_strategy_id m)
            then Some rules else None)
    | _ => Ok None
    end.

Definition production_checked (snapshot_config : option PyDict) (snapshot_hash : option string) (symbol : string) :
    res ProductionAuthorization :=
  m ← load_canonical_strategy_manifest;
  if negb (is_approved m) then Ok unauthorized else
  candidate ← get_candidate (mf_strategy_id m);
  if negb (may_be_approved candidate (mf_strategy_id m)) then Ok unauthorized
  else if negb (String.eqb (mf_strategy_version m) (sc_version candidate)) then Ok unauthorized
  else if negb (same_set (mf_eligible_execution_symbols m) execution_symbols)
          || negb (bool_decide (symbol ∈ mf_eligible_execution_symbols m)) then Ok unauthorized
  else
    match written_text (py_get (mf_validation_evidence m) "report_ref"),
          nonempty_text (py_get (mf_approval m) "approved_by"), nonempty_text (py_get (mf_approval m) "approved_at"),
          snapshot_hash, snapshot_config with
    | Some evidence_ref, Some approved_by, Some approved_at, Some hash, Some config =>
        if negb (str_truthy hash) || negb (bool_decide (mf_config_snapshot_hash m = Some hash)) then Ok unauthorized else
        rules ← bound_rules m config;
        Ok (match rules with
            | None => unauthorized
            | Some rules =>
                mkProductionAuthorization true "AUTHORIZED" (Some (mf_strategy_id m)) (Some (sc_version candidate))
                  (Some rules) (Some evidence_ref) (Some approved_by) (Some approved_at) None None
                  (Some (mf_strategy_code_hash m)) (Some (mf_strategy_package_hash m)) (Some hash)
                  (mf_eligible_execution_symbols m)
            end)
    | _, _, _, _, _ => Ok unauthorized
    end.

Definition resolve_production_authorization (snapshot_config : option PyDict) (snapshot_hash : option string)
    (symbol : string) : res ProductionAuthorization :=
  match production_checked snapshot_config snapshot_hash symbol with
  | Ok a => Ok a
  | Raise e => if caught_reading e then Ok unauthorized else Raise e
  end.

(** ** Testnet forward *)

Definition is_true (v : PyVal) : bool := match v with VBool true => true | _ => false end.
Definition sha256_text (v : PyVal) : option string :=
  match v with VStr s => if (py_len s =? 64)%nat then Some s else None | _ => None end.

(** The symbols of the block, if they are exactly the universe and hold [symbol]. *)
Definition symbol_eligible (v : PyVal) (symbol : string) : bool :=
  match v with
  | VList _ items => py_eqb (VList "" items) (VList "" (map VStr execution_symbols))
                     && existsb (fun s => py_eqb s (VStr symbol)) items
  | _ => false
  end.

(** [StrategyRules( **v )] *)
Definition rules_of (v : PyVal) : res StrategyRules :=
  match v with VDict _ d => make_StrategyRules d | _ => Raise (TypeError "argument after ** must be a mapping") end.

(** The identity of the block against the registry, its rules and the code at hand;
    a refusal, or the rules and the identity. *)
Definition forward_package (block : PyDict) (candidate_id strategy_id candidate_version strategy_version : string) :
    res (string + StrategyRules * StrategyPackageIdentity) :=
  if negb (String.eqb candidate_id strategy_id) || negb (String.eqb candidate_version strategy_version)
  then Ok (inl "FORWARD_VALIDATION_IDENTITY_MISMATCH"%string) else
  candidate ← get_candidate candidate_id;
  rules ← py_item block "strategy_rules" ≫= rules_of;
  if negb (String.eqb (sc_version candidate) candidate_version)
     || negb (String.eqb (py_str (py_get (entry_rules rules) "candidate_id")) candidate_id)
  then Ok (inl "FORWARD_VALIDATION_IDENTITY_MISMATCH"%string) else
  if negb (py_eq_str (py_get block "rules_hash") (strategy_rules_hash rules))
  then Ok (inl "FORWARD_VALIDATION_RULES_HASH_MISMATCH"%string) else
  let rules_hash := strategy_rules_hash rules in
  identity ← strategy_package_identity candidate_id candidate_version rules_hash;
  let declared := identity_binding strategy_id strategy_version rules_hash
                    (py_get block "strategy_code_hash") (py_get block "strategy_package_hash") in
  if negb (py_eqb (snapshot_binding identity) declared) || negb (py_eqb declared (py_get block "package_identity"))
  then Ok (inl "FORWARD_VALIDATION_PACKAGE_MISMATCH"%string)
  else Ok (inr (rules, identity)).

(** The gates a block has passed: the first that it has not. *)
Definition forward_gates (block : PyDict) : option string :=
  if negb (is_true (py_get block "profitability_recovery_passed")) || negb (is_true (py_get block "forward_density_passed"))
  then Some "FORWARD_VALIDATION_GATES_NOT_PASS"%string
  else
    match py_get block "density" with
    | VDict _ density =>
        if negb (is_true (py_get density "passed")) then Some "FORWARD_VALIDATION_DENSITY_NOT_PASS"%string
        else if negb (py_eqb (py_get density "target_forward_closed_trades") (VInt 30))
                || negb (py_eqb (py_get density "max_estimated_days") (VInt 60))
        then Some "FORWARD_VALIDATION_DENSITY_CONTRACT_MISMATCH"%string
        else None
    | _ => Some "FORWARD_VALIDATION_DENSITY_NOT_PASS"%string
    end.

(** From the evidence of the block on. *)
Definition forward_evidence (block : PyDict) (snapshot_hash candidate_id candidate_version : string)
    (rules : StrategyRules) (identity : StrategyPackageIdentity) : res ProductionAuthorization :=
  match written_text (py_get block "validation_evidence_ref"), sha256_text (py_get block "validation_evidence_hash"),
        sha256_text (py_get block "dataset_hash") with
  | Some evidence_ref, Some evidence_hash, Some dataset_hash =>
      match forward_gates block with
      | Some reason => Ok (refused reason)
      | None =>
          frozen_at ← py_item block "frozen_at";
          Ok (mkProductionAuthorization true "TESTNET_FORWARD_AUTHORIZED" (Some candidate_id) (Some candidate_version)
                (Some rules) (Some evidence_ref) (Some "forward_validation"%string) (Some (py_str frozen_at))
                (Some evidence_hash) (Some dataset_hash) (Some (pi_strategy_code_hash identity))
                (Some (pi_strategy_package_hash identity)) (Some snapshot_hash) execution_symbols)
      end
  | _, _, _ => Ok (refused "FORWARD_VALIDATION_EVIDENCE_INVALID")
  end.

(** A block that claims to be ready. *)
Definition forward_block (block config : PyDict) (snapshot_hash : option string) (symbol : string) :
    res ProductionAuthorization :=
  if negb (py_eq_str (py_get block "schema_version") SCHEMA_V2) then Ok (refused "FORWARD_VALIDATION_V1_REJECTED") else
  model_validate block ≫= fun _ =>
  match snapshot_hash with
  | None => Ok (refused "FORWARD_VALIDATION_SNAPSHOT_INTEGRITY_MISMATCH")
  | Some hash =>
      if negb (str_truthy hash) || negb (String.eqb (canonical_config_hash config) hash)
      then Ok (refused "FORWARD_VALIDATION_SNAPSHOT_INTEGRITY_MISMATCH")
      else if negb (py_eq_str (py_get block "runtime_config_binding_hash") (forward_runtime_binding_hash config))
      then Ok (refused "FORWARD_VALIDATION_RUNTIME_CONFIG_BINDING_MISMATCH")
      else if is_true (py_get block "production_approval") || py_eq_str (py_get block "authorization_state") "APPROVED"
      then Ok (refused "FORWARD_VALIDATION_PRODUCTION_APPROVAL_FORBIDDEN")
      else if negb (symbol_eligible (py_get block "eligible_execution_symbols") symbol)
      then Ok (refused "FORWARD_VALIDATION_SYMBOL_NOT_ELIGIBLE")
      else
        match nonempty_text (py_get block "candidate_id"), nonempty_text (py_get block "strategy_id"),
              nonempty_text (py_get block "candidate_version"), nonempty_text (py_get block "strategy_version") with
        | Some candidate_id, Some strategy_id, Some candidate_version, Some strategy_version =>
            package ← forward_package block candidate_id strategy_id candidate_version strategy_version;
            match package with
            | inl reason => Ok (refused reason)
            | inr (rules, identity) => forward_evidence block hash candidate_id candidate_version rules identity
            end
        | _, _, _, _ => Ok (refused "FORWARD_VALIDATION_IDENTITY_MISSING")
        end
  end.

(** What [except (KeyError, TypeError, ValueError)] catches. *)
Definition caught_forward (e : PyExc) : bool :=
  match e with ValueError _ | KeyError _ | TypeError _ => true | _ => false end.

(** [execution_mode]: its value, if one is given. *)
Definition resolve_testnet_forward_authorization (snapshot_config : option PyDict) (snapshot_hash : option string)
    (symbol : string) (execution_mode : option string) : res ProductionAuthorization :=
  if negb (bool_decide (default "BINANCE_TESTNET"%string execution_mode = "BINANCE_TESTNET"%string))
  then Ok (refused "TESTNET_FORWARD_REQUIRES_BINANCE_TESTNET") else
  match snapshot_config with
  | None => Ok (refused "NO_FORWARD_VALIDATION_CANDIDATE")
  | Some config =>
      match py_get config "forward_validation" with
      | VDict _ block =>
          if negb (py_eq_str (py_get block "status") READY) then Ok (refused "NO_FORWARD_VALIDATION_CANDIDATE")
          else
            match forward_block block config snapshot_hash symbol with
            | Ok a => Ok a
            | Raise e => if caught_forward e then Ok (refused "FORWARD_VALIDATION_PAYLOAD_INVALID") else Raise e
            end
      | _ => Ok (refused "NO_FORWARD_VALIDATION_CANDIDATE")
      end
  end.
End authorization.
