(* ===== verification/AuthorizationLaws.v ===== *)
(** * AuthorizationLaws: what an authorization is bound to

    Production is authorized exactly when the active manifest is approved and bound
    to the snapshot, the rules and the code at hand; forward only by a sealed handoff
    that is valid for this very configuration, on the testnet. *)
From S2P Require Import Prelude PyDecimal PyValue Sha256 Canonical Receipts Database Repository Ledger StrategyPackage.
From S2P Require Import StrategyManifest ForwardHandoff RiskTiers Cycle OperatorProfile StrategyAuthorization.
From Stdlib Require Import Ascii.
Local Open Scope Z_scope.

(** ** Identities *)

#[local] Opaque hexdigest.

Lemma str_eqb_refl (s : string) : String.eqb s s = true.
Proof. by apply String.eqb_eq. Qed.

Lemma identity_binding_eq id version rules code package id' version' rules' code' package' :
  py_eqb (identity_binding id version rules (VStr code) (VStr package))
    (identity_binding id' version' rules' (VStr code') (VStr package')) = true <->
  id = id' /\ version = version' /\ rules = rules' /\ code = code' /\ package = package'.
Proof.
  cbn. rewrite !andb_true_iff, !String.eqb_eq. tauto.
Qed.

Lemma identity_inv {H : StrategySources} id version rules i : strategy_package_identity id version rules = Ok i ->
  id <> EmptyString /\ version <> EmptyString /\ py_len rules = 64%nat /\
  pi_strategy_id i = id /\ pi_strategy_version i = version /\ pi_rules_hash i = rules /\
  _strategy_code_hash id = Ok (pi_strategy_code_hash i) /\
  pi_strategy_package_hash i = _strategy_package_hash id version rules (pi_strategy_code_hash i).
Proof.
  unfold strategy_package_identity. intros E. inv_res. apply Ok_inj in E as <-. split_bools. simpl.
  split_and!; try done; [by destruct id|by destruct version|by apply Nat.eqb_eq].
Qed.

Lemma get_candidate_some id c : get_candidate id = Ok c -> sc_candidate_id c = id /\ c ∈ CANDIDATE_REGISTRY.
Proof.
  unfold get_candidate. destruct (List.find _ _) as [d|] eqn:E; [|done]. intros [= ->].
  apply find_some in E as [E1 E2]. split; [by apply String.eqb_eq|by apply list_elem_of_In].
Qed.

(** No registered candidate is approved for execution. *)
Lemma registry_runs_nothing c : c ∈ CANDIDATE_REGISTRY -> sc_execution_eligible c = false.
Proof. revert c. apply Forall_forall. repeat constructor. Qed.

Lemma same_set_iff l m : same_set l m = true <-> forall s, s ∈ l <-> s ∈ m.
Proof.
  unfold same_set. rewrite andb_true_iff, !forallb_forall. split.
  - intros [H1 H2] s. split; intros Hs%list_elem_of_In; [apply H1 in Hs|apply H2 in Hs]; by apply bool_decide_eq_true in Hs.
  - intros Hs. split; intros s Hi%list_elem_of_In; apply bool_decide_eq_true; by apply Hs.
Qed.

Lemma written_text_some v s : written_text v = Some s <-> v = VStr s /\ strip s <> EmptyString.
Proof.
  destruct v; simpl; try (split; [done|by intros [? _]]).
  destruct (strip s0) eqn:E; simpl; split; try done; [by intros [[= ->] Hs]; rewrite E in Hs| |].
  - intros [= ->]. by rewrite E.
  - by intros [[= ->] _].
Qed.

Lemma nonempty_text_iff v s : nonempty_text v = Some s <-> v = VStr s /\ s <> EmptyString.
Proof.
  split; [apply nonempty_text_some|]. intros [-> Hs]. by destruct s.
Qed.

(** ** Production *)

Section production.
Context {M : ManifestFile} {H : StrategySources} (execution_symbols : list string).

(** The manifest [m] approves opening [symbol] with [rules] under the snapshot
    [config] whose hash is [hash]. *)
Record production_bound (config : PyDict) (hash symbol : string) (m : CanonicalStrategyManifest) (rules : StrategyRules) : Prop := {
  pb_loaded : load_canonical_strategy_manifest = Ok m;
  pb_approved : is_approved m = true;
  pb_registered : exists c, get_candidate (mf_strategy_id m) = Ok c /\ sc_version c = mf_strategy_version m;
  pb_executable : mf_strategy_id m <> AGGRESSIVE;
  pb_universe : forall s, s ∈ mf_eligible_execution_symbols m <-> s ∈ execution_symbols;
  pb_symbol : symbol ∈ execution_symbols;
  pb_evidence : exists ref, py_get (mf_validation_evidence m) "report_ref" = VStr ref /\ strip ref <> EmptyString;
  pb_approval : exists who when, py_get (mf_approval m) "approved_by" = VStr who /\ who <> EmptyString /\
                                 py_get (mf_approval m) "approved_at" = VStr when /\ when <> EmptyString;
  pb_snapshot : mf_config_snapshot_hash m = Some hash;
  pb_declared : py_eqb (py_get config "canonical_strategy_manifest") (manifest_identity m) = true;
  pb_code : _strategy_code_hash (mf_strategy_id m) = Ok (mf_strategy_code_hash m);
  pb_package : _strategy_package_hash (mf_strategy_id m) (mf_strategy_version m) (mf_rules_hash m) (mf_strategy_code_hash m)
               = mf_strategy_package_hash m;
  pb_rules : exists r raw, py_get config "strategy_rules" = VDict r raw /\ make_StrategyRules raw = Ok rules /\
             strategy_rules_hash rules = mf_rules_hash m /\
             py_str (py_get (entry_rules rules) "candidate_id") = mf_strategy_id m }.

Lemma may_be_approved_registered c id : get_candidate id = Ok c -> may_be_approved c id = true <-> id <> AGGRESSIVE.
Proof.
  intros (_ & Hc%registry_runs_nothing)%get_candidate_some. unfold may_be_approved. rewrite Hc, andb_false_r, orb_false_r.
  by rewrite negb_true_iff, String.eqb_neq.
Qed.

(** The code at hand has the identity that a loaded manifest declares. *)
Lemma runtime_identity_matches m : manifest_wf m ->
  (exists i, runtime_identity m = Ok i /\ py_eqb (snapshot_binding i) (manifest_identity m) = true) <->
  _strategy_code_hash (mf_strategy_id m) = Ok (mf_strategy_code_hash m) /\
  _strategy_package_hash (mf_strategy_id m) (mf_strategy_version m) (mf_rules_hash m) (mf_strategy_code_hash m)
    = mf_strategy_package_hash m.
Proof.
  intros Hm. unfold runtime_identity, snapshot_binding, manifest_identity. split.
  - intros (i & Hi & He). apply identity_inv in Hi as (_ & _ & _ & _ & _ & _ & Hc & Hp).
    apply identity_binding_eq in He as (_ & _ & _ & E1 & E2). rewrite E1 in Hc, Hp. rewrite E2 in Hp. exact (conj Hc (eq_sym Hp)).
  - intros [Hc Hp].
    exists (mkIdentity (mf_strategy_id m) (mf_strategy_version m) (mf_rules_hash m) (mf_strategy_code_hash m) (mf_strategy_package_hash m)).
    split; [|by apply identity_binding_eq]. unfold strategy_package_identity. rewrite Hc, <- Hp.
    pose proof (mw_strings m Hm) as Hs. pose proof (mw_hashes m Hm) as Hh.
    rewrite !Forall_cons in Hs. rewrite !Forall_cons in Hh. destruct Hs as (_ & Hs1 & Hs2 & _), Hh as (Hh & _).
    destruct (mf_strategy_id m); [done|]. destruct (mf_strategy_version m); [done|]. by rewrite Hh.
Qed.

Lemma bound_rules_some m config rules : bound_rules m config = Ok (Some rules) <->
  py_eqb (py_get config "canonical_strategy_manifest") (manifest_identity m) = true /\
  (exists i, runtime_identity m = Ok i /\ py_eqb (snapshot_binding i) (manifest_identity m) = true) /\
  exists r raw, py_get config "strategy_rules" = VDict r raw /\ make_StrategyRules raw = Ok rules /\
    strategy_rules_hash rules = mf_rules_hash m /\ py_str (py_get (entry_rules rules) "candidate_id") = mf_strategy_id m.
Proof.
  unfold bound_rules. split.
  - intros (i & Hi & E)%res_bind_inv. destruct (py_eqb (py_get _ _) _) eqn:E1; [|done].
    destruct (py_eqb (snapshot_binding i) _) eqn:E2; [|done]. cbn [negb orb] in E.
    destruct (py_get config "strategy_rules") as [| | | | | |r raw]; try done.
    apply res_bind_inv in E as (rules' & Hr & E). destruct (_ && _) eqn:E3; [|done].
    apply Ok_inj in E as [= ->]. apply andb_true_iff in E3 as [E3%String.eqb_eq E4%String.eqb_eq].
    split; [done|]. split; [by exists i|]. by exists r, raw.
  - intros (E1 & (i & Hi & E2) & r & raw & Er & Hr & E3 & E4). rewrite Hi. unfold mbind at 1, res_bind at 1. rewrite E1, E2, Er. cbn [negb orb].
    rewrite Hr. unfold mbind, res_bind.
    by rewrite E3, E4, !str_eqb_refl.
Qed.

(** The authorization of a manifest that binds the snapshot. *)
Definition production_grant (m : CanonicalStrategyManifest) (rules : StrategyRules) (hash : string) (a : ProductionAuthorization) : Prop :=
  pa_reason a = "AUTHORIZED"%string /\ pa_candidate_id a = Some (mf_strategy_id m) /\
  pa_candidate_version a = Some (mf_strategy_version m) /\ pa_rules a = Some rules /\
  pa_strategy_code_hash a = Some (mf_strategy_code_hash m) /\ pa_strategy_package_hash a = Some (mf_strategy_package_hash m) /\
  pa_config_snapshot_hash a = Some hash /\ pa_eligible_execution_symbols a = mf_eligible_execution_symbols m.

Lemma production_checked_sound config hash symbol a :
  production_checked execution_symbols config hash symbol = Ok a -> pa_authorized a = true ->
  exists c h m rules, config = Some c /\ hash = Some h /\ production_bound c h symbol m rules /\ production_grant m rules h a.
Proof.
  unfold production_checked. intros (m & Hm & E)%res_bind_inv Ha. pose proof (loaded_manifest_wf m Hm) as Hwf.
  destruct (is_approved m) eqn:Hap; simpl in E; [|by apply Ok_inj in E as <-].
  apply res_bind_inv in E as (c & Hc & E).
  destruct (may_be_approved c _) eqn:Hmay; simpl in E; [|by apply Ok_inj in E as <-].
  apply (may_be_approved_registered _ _ Hc) in Hmay.
  destruct (String.eqb (mf_strategy_version m) _) eqn:Hv; simpl in E; [|by apply Ok_inj in E as <-]. apply String.eqb_eq in Hv.
  destruct (same_set _ _) eqn:Hset; simpl in E; [|by apply Ok_inj in E as <-].
  pose proof (proj1 (same_set_iff _ _) Hset) as Hset'.
  destruct (bool_decide (symbol ∈ _)) eqn:Hsym; simpl in E; [|by apply Ok_inj in E as <-]. apply bool_decide_eq_true in Hsym.
  destruct (written_text _) as [ref|] eqn:Href; [|by apply Ok_inj in E as <-]. apply written_text_some in Href.
  destruct (nonempty_text (py_get _ "approved_by")) as [who|] eqn:Hwho; [|by apply Ok_inj in E as <-].
  destruct (nonempty_text (py_get _ "approved_at")) as [at'|] eqn:Hat; [|by apply Ok_inj in E as <-].
  apply nonempty_text_some in Hwho, Hat.
  destruct hash as [h|]; [|by apply Ok_inj in E as <-]. destruct config as [cfg|]; [|by apply Ok_inj in E as <-].
  destruct (str_truthy h) eqn:Hh; simpl in E; [|by apply Ok_inj in E as <-].
  destruct (bool_decide (mf_config_snapshot_hash m = _)) eqn:Hs; simpl in E; [|by apply Ok_inj in E as <-].
  apply bool_decide_eq_true in Hs. apply res_bind_inv in E as (o & Ho & E).
  destruct o as [rules|]; apply Ok_inj in E as <-; [|done].
  apply bound_rules_some in Ho as (Hd & Hi & Hr). apply (runtime_identity_matches m Hwf) in Hi as [Hcode Hpkg].
  exists cfg, h, m, rules. split_and!; try done.
  - constructor; try done; [by exists c|by apply Hset'|by exists ref|].
    exists who, at'. by destruct Hwho, Hat.
  - by unfold production_grant; simpl; rewrite <- Hv.
Qed.

Lemma production_checked_complete c h symbol m rules : production_bound c h symbol m rules ->
  exists a, production_checked execution_symbols (Some c) (Some h) symbol = Ok a /\ pa_authorized a = true.
Proof.
  intros []. pose proof (loaded_manifest_wf m pb_loaded0) as Hwf. unfold production_checked. rewrite pb_loaded0. simpl.
  rewrite pb_approved0. simpl. destruct pb_registered0 as (cand & Hc & Hv). rewrite Hc. simpl.
  rewrite (proj2 (may_be_approved_registered _ _ Hc) pb_executable0). simpl. rewrite Hv, str_eqb_refl. simpl.
  rewrite (proj2 (same_set_iff _ _) pb_universe0), (bool_decide_eq_true_2 _ (proj2 (pb_universe0 symbol) pb_symbol0)). simpl.
  destruct pb_evidence0 as (ref & Href). rewrite (proj2 (written_text_some _ _) Href).
  destruct pb_approval0 as (who & at' & E1 & E2 & E3 & E4).
  rewrite (proj2 (nonempty_text_iff _ _) (conj E1 E2)), (proj2 (nonempty_text_iff _ _) (conj E3 E4)).
  destruct (mw_approved m Hwf pb_approved0) as (_ & _ & _ & (h' & Hh' & Hne) & _). rewrite pb_snapshot0 in Hh'.
  injection Hh' as <-. assert (str_truthy h = true) as -> by (by destruct h). simpl.
  rewrite (bool_decide_eq_true_2 _ pb_snapshot0). simpl.
  rewrite (proj2 (bound_rules_some m c rules)); [by eexists|]. split; [done|]. split; [|done].
  by apply (runtime_identity_matches m Hwf).
Qed.

Lemma resolve_authorized config hash symbol a :
  resolve_production_authorization execution_symbols config hash symbol = Ok a -> pa_authorized a = true ->
  production_checked execution_symbols config hash symbol = Ok a.
Proof.
  unfold resolve_production_authorization. destruct (production_checked _ _ _ _) as [b|e]; [by intros [= ->]|].
  destruct (caught_reading e); [|done]. by intros [= <-].
Qed.

(** C6. Production is authorized for a symbol and a snapshot exactly when the active
    manifest loads and is APPROVED, names a registered candidate of that version that
    is not the aggressive one (no registered candidate is executable by itself), its
    eligible symbols are the whole execution universe and hold the symbol, it has
    written evidence, an approver and a date, it is bound to the hash of the snapshot,
    the snapshot declares the same identity and carries rules with the approved hash
    that name the candidate, and the sources at hand still have the approved code and
    package hashes.  The authorization carries exactly these identities. *)
Theorem production_authorized_iff config hash symbol :
  (forall a, resolve_production_authorization execution_symbols config hash symbol = Ok a -> pa_authorized a = true ->
     exists c h m rules, config = Some c /\ hash = Some h /\ production_bound c h symbol m rules /\ production_grant m rules h a) /\
  (forall c h m rules, config = Some c -> hash = Some h -> production_bound c h symbol m rules ->
     exists a, resolve_production_authorization execution_symbols config hash symbol = Ok a /\ pa_authorized a = true).
Proof.
  split.
  - intros a E Ha. exact (production_checked_sound config hash symbol a (resolve_authorized _ _ _ _ E Ha) Ha).
  - intros c h m rules -> -> Hb. destruct (production_checked_complete _ _ _ _ _ Hb) as (a & Ea & Ha).
    exists a. unfold resolve_production_authorization. by rewrite Ea.
Qed.
End production.
