(* ===== verification/ForwardLaws.v ===== *)
(** * ForwardLaws: the testnet forward lane

    What a forward authorization is sealed to, and that a handoff made by its
    constructor is authorized by the snapshot it was made for. *)
From S2P Require Import Prelude PyDecimal PyValue Sha256 Canonical Receipts Database Repository Ledger StrategyPackage.
From S2P Require Import StrategyManifest ForwardHandoff RiskTiers Cycle OperatorProfile StrategyAuthorization AuthorizationLaws.
Local Open Scope Z_scope.

#[local] Opaque hexdigest.

Section forward.
Context {H : StrategySources} {W : HandoffModel} (execution_symbols : list string).

Lemma sha256_text_iff v s : sha256_text v = Some s <-> v = VStr s /\ py_len s = 64%nat.
Proof.
  destruct v; simpl; try (split; [done|by intros [? _]]). destruct (py_len s0 =? 64)%nat eqn:E.
  - apply Nat.eqb_eq in E. split; [by intros [= ->]|by intros [[= ->] _]].
  - apply Nat.eqb_neq in E. split; [done|by intros [[= ->] ?]].
Qed.

Lemma eq_str_iff v s : py_eq_str v s = true <-> v = VStr s.
Proof. destruct v; simpl; try (split; done). rewrite String.eqb_eq. split; [by intros ->|by intros [= ->]]. Qed.

Lemma texts_eqb r items symbols : py_eqb (VList r items) (VList r (map VStr symbols)) = true -> items = map VStr symbols.
Proof.
  revert symbols. induction items as [|v items IH]; intros [|s symbols]; try done. cbn.
  rewrite andb_true_iff. intros [Hv Hi]. simpl. f_equal; [|by apply IH].
  destruct v; cbn in Hv; unfold numbers_eqb in Hv; try done; try (by destruct (number_of _) as [[]|]).
  by apply String.eqb_eq in Hv as ->.
Qed.

Lemma texts_eqb_refl r symbols : py_eqb (VList r (map VStr symbols)) (VList r (map VStr symbols)) = true.
Proof. induction symbols as [|s symbols IH]; [done|]. cbn. by rewrite str_eqb_refl. Qed.

Lemma symbol_eligible_iff v symbol : symbol_eligible execution_symbols v symbol = true <->
  (exists r, v = VList r (map VStr execution_symbols)) /\ symbol ∈ execution_symbols.
Proof.
  destruct v as [| | | | |r items|]; try (split; [done|by intros [[? ?] _]]).
  unfold symbol_eligible. rewrite andb_true_iff, existsb_exists. split.
  - intros [->%texts_eqb (s & Hs & E)]. split; [by exists r|]. apply list_elem_of_In, list_elem_of_fmap in Hs as (t & -> & Ht).
    cbn in E. by apply String.eqb_eq in E as <-.
  - intros [(r' & [= -> ->]) Hs]. split; [apply texts_eqb_refl|]. exists (VStr symbol).
    split; [apply list_elem_of_In, list_elem_of_fmap; by exists symbol|]. cbn. apply str_eqb_refl.
Qed.

(** What the block of a forward authorization says, and what it is checked against. *)
Record forward_sealed (block config : PyDict) (hash symbol : string) (a : ProductionAuthorization) : Prop := {
  fs_handoff : exists h, model_validate block = Ok h;
  fs_snapshot : canonical_config_hash config = hash;
  fs_binding : py_get block "runtime_config_binding_hash" = VStr (forward_runtime_binding_hash config);
  fs_not_production : is_true (py_get block "production_approval") = false /\ py_get block "authorization_state" <> VStr "APPROVED";
  fs_universe : (exists r, py_get block "eligible_execution_symbols" = VList r (map VStr execution_symbols)) /\ symbol ∈ execution_symbols;
  fs_gates : forward_gates block = None;
  fs_code : exists id version rules i,
    pa_candidate_id a = Some id /\ pa_candidate_version a = Some version /\ pa_rules a = Some rules /\
    (exists c, get_candidate id = Ok c /\ sc_version c = version) /\
    py_str (py_get (entry_rules rules) "candidate_id") = id /\
    py_get block "rules_hash" = VStr (strategy_rules_hash rules) /\
    strategy_package_identity id version (strategy_rules_hash rules) = Ok i /\
    py_eqb (snapshot_binding i) (identity_binding id version (strategy_rules_hash rules)
      (py_get block "strategy_code_hash") (py_get block "strategy_package_hash")) = true /\
    pa_strategy_code_hash a = Some (pi_strategy_code_hash i);
  fs_lane : pa_reason a = "TESTNET_FORWARD_AUTHORIZED"%string /\ pa_approval_identity a = Some "forward_validation"%string /\
            pa_config_snapshot_hash a = Some hash }.

Lemma forward_package_inr block id sid version sversion rules i :
  forward_package block id sid version sversion = Ok (inr (rules, i)) ->
  sid = id /\ sversion = version /\
  (exists c, get_candidate id = Ok c /\ sc_version c = version) /\
  py_item block "strategy_rules" ≫= rules_of = Ok rules /\
  py_str (py_get (entry_rules rules) "candidate_id") = id /\
  py_get block "rules_hash" = VStr (strategy_rules_hash rules) /\
  strategy_package_identity id version (strategy_rules_hash rules) = Ok i /\
  let declared := identity_binding id version (strategy_rules_hash rules) (py_get block "strategy_code_hash")
                    (py_get block "strategy_package_hash") in
  py_eqb (snapshot_binding i) declared = true /\ py_eqb declared (py_get block "package_identity") = true.
Proof.
  unfold forward_package. destruct (String.eqb id sid) eqn:E1; [|done]. destruct (String.eqb version sversion) eqn:E2; [|done].
  cbn [negb orb]. apply String.eqb_eq in E1 as <-. apply String.eqb_eq in E2 as <-.
  intros (c & Hc & E)%res_bind_inv. apply res_bind_inv in E as (rules' & Hr & E).
  destruct (String.eqb (sc_version c) version) eqn:E3; [|done].
  destruct (String.eqb (py_str _) id) eqn:E4; [|done]. cbn [negb orb] in E.
  apply String.eqb_eq in E3. apply String.eqb_eq in E4.
  destruct (py_eq_str _ _) eqn:E5; [|done]. cbn [negb] in E. apply eq_str_iff in E5.
  apply res_bind_inv in E as (i' & Hi & E).
  destruct (py_eqb (snapshot_binding i') _) eqn:E6; [|done]. destruct (py_eqb _ (py_get block "package_identity")) eqn:E7; [|done].
  cbn [negb orb] in E. apply Ok_inj in E. injection E as <- <-.
  split; [reflexivity|]. split; [reflexivity|]. split; [by exists c|]. exact (conj Hr (conj E4 (conj E5 (conj Hi (conj E6 E7))))).
Qed.

Lemma forward_evidence_authorized block hash id version rules i a :
  forward_evidence execution_symbols block hash id version rules i = Ok a -> pa_authorized a = true ->
  forward_gates block = None /\ pa_candidate_id a = Some id /\ pa_candidate_version a = Some version /\
  pa_rules a = Some rules /\ pa_strategy_code_hash a = Some (pi_strategy_code_hash i) /\
  pa_reason a = "TESTNET_FORWARD_AUTHORIZED"%string /\ pa_approval_identity a = Some "forward_validation"%string /\
  pa_config_snapshot_hash a = Some hash.
Proof.
  unfold forward_evidence. destruct (written_text _); [|by intros <-%Ok_inj].
  destruct (sha256_text (py_get block "validation_evidence_hash")); [|by intros <-%Ok_inj].
  destruct (sha256_text (py_get block "dataset_hash")); [|by intros <-%Ok_inj].
  destruct (forward_gates block); [by intros <-%Ok_inj|]. intros (f & Hf & <-%Ok_inj)%res_bind_inv _.
  split_and!; reflexivity.
Qed.

Lemma forward_block_sealed block config hash symbol a :
  forward_block execution_symbols block config hash symbol = Ok a -> pa_authorized a = true ->
  exists h, hash = Some h /\ forward_sealed block config h symbol a.
Proof.
  unfold forward_block. destruct (py_eq_str (py_get block "schema_version") _); cbn [negb]; [|by intros <-%Ok_inj].
  intros (h & Hh & E)%res_bind_inv Ha. destruct hash as [hash|]; [|by apply Ok_inj in E as <-].
  destruct (str_truthy hash) eqn:E1; [|by apply Ok_inj in E as <-].
  destruct (String.eqb (canonical_config_hash config) hash) eqn:E2; cbn [negb orb] in E; [|by apply Ok_inj in E as <-].
  destruct (py_eq_str _ (forward_runtime_binding_hash config)) eqn:E3; cbn [negb] in E; [|by apply Ok_inj in E as <-].
  destruct (is_true (py_get block "production_approval")) eqn:E4; cbn [orb] in E; [by apply Ok_inj in E as <-|].
  destruct (py_eq_str _ "APPROVED") eqn:E5; [by apply Ok_inj in E as <-|].
  destruct (symbol_eligible _ _ _) eqn:E6; cbn [negb] in E; [|by apply Ok_inj in E as <-].
  destruct (nonempty_text (py_get block "candidate_id")) as [id|]; [|by apply Ok_inj in E as <-].
  destruct (nonempty_text (py_get block "strategy_id")) as [sid|]; [|by apply Ok_inj in E as <-].
  destruct (nonempty_text (py_get block "candidate_version")) as [version|]; [|by apply Ok_inj in E as <-].
  destruct (nonempty_text (py_get block "strategy_version")) as [sversion|]; [|by apply Ok_inj in E as <-].
  apply res_bind_inv in E as (package & Hp & E). destruct package as [reason|[rules i]]; [by apply Ok_inj in E as <-|].
  apply forward_package_inr in Hp as (-> & -> & Hc & _ & Hid & Hr & Hi & Hd & _).
  apply forward_evidence_authorized in E as (Hg & Ea & Ev & Er & Ec & Hl); [|done].
  exists hash. split; [done|]. constructor.
  - by exists h.
  - by apply String.eqb_eq.
  - by apply eq_str_iff.
  - split; [done|]. intros E. rewrite E in E5. discriminate E5.
  - by apply symbol_eligible_iff.
  - done.
  - exists id, version, rules, i. exact (conj Ea (conj Ev (conj Er (conj Hc (conj Hid (conj Hr (conj Hi (conj Hd Ec)))))))).
  - exact Hl.
Qed.

(** C7. Testnet forward is authorized only on the Binance testnet and only by the
    handoff inside the snapshot: the handoff passes its own validators, the snapshot
    hashes to the given hash and, without the handoff, to the hash the handoff was
    bound to; the handoff carries no production approval and lists exactly the
    execution universe; its candidate is registered with that version, its rules have
    the declared hash and name the candidate, and its package identity is the one of
    the sources at hand; every profitability and density gate passed.  The
    authorization is marked as the forward lane and never as a production approval. *)
Theorem forward_authorization_is_sealed config hash symbol mode a :
  resolve_testnet_forward_authorization execution_symbols config hash symbol mode = Ok a -> pa_authorized a = true ->
  default "BINANCE_TESTNET"%string mode = "BINANCE_TESTNET"%string /\
  exists c h r block, config = Some c /\ hash = Some h /\ py_get c "forward_validation" = VDict r block /\
    forward_sealed block c h symbol a.
Proof.
  unfold resolve_testnet_forward_authorization.
  destruct (bool_decide (default _ mode = _)) eqn:Em; cbn [negb]; [|by intros <-%Ok_inj]. apply bool_decide_eq_true in Em.
  destruct config as [c|]; [|by intros <-%Ok_inj].
  destruct (py_get c "forward_validation") as [| | | | | |r block] eqn:Eb; try (by intros <-%Ok_inj).
  destruct (py_eq_str _ READY); cbn [negb]; [|by intros <-%Ok_inj].
  destruct (forward_block _ _ _ _ _) as [b|e] eqn:Ef; [|destruct (caught_forward e); [by intros <-%Ok_inj|done]].
  intros ->%Ok_inj Ha. destruct (forward_block_sealed _ _ _ _ _ Ef Ha) as (h & -> & Hs).
  split; [done|]. by exists c, h, r, block.
Qed.

(** ** A handoff made by its constructor *)

Lemma integrity_inv h h' : validate_integrity h = Ok h' -> h' = h /\
  fh_schema_version h = SCHEMA_V2 /\ fh_status h = READY /\
  fh_strategy_id h = fh_candidate_id h /\ fh_strategy_version h = fh_candidate_version h /\
  py_len (fh_dataset_hash h) = 64%nat /\ py_len (fh_validation_evidence_hash h) = 64%nat /\
  fh_profitability_recovery_passed h = true /\ fh_forward_density_passed h = true /\ fd_passed (fh_density h) = true /\
  (exists rules, make_StrategyRules (fh_strategy_rules h) = Ok rules /\ strategy_rules_hash rules = fh_rules_hash h) /\
  py_eqb (texts (fh_package_identity h)) (identity_binding (fh_strategy_id h) (fh_strategy_version h) (fh_rules_hash h)
    (VStr (fh_strategy_code_hash h)) (VStr (fh_strategy_package_hash h))) = true.
Proof.
  unfold validate_integrity. intros E.
  repeat match goal with
  | E : (assert_or _ _ ≫= _) = Ok _ |- _ => apply assert_bind_ok in E as [? E]
  | E : make_StrategyRules _ ≫= _ = Ok _ |- _ => apply res_bind_inv in E as (rules & Hr & E)
  end.
  apply Ok_inj in E as <-. unfold sha256_sized in *. split_bools.
  repeat match goal with
  | H : String.eqb _ _ = true |- _ => apply String.eqb_eq in H
  | H : Nat.eqb _ _ = true |- _ => apply Nat.eqb_eq in H
  end.
  split_and!; try assumption; try reflexivity; try (symmetry; assumption). exists rules. split; assumption.
Qed.

Lemma frozen_inv d d' : validate_frozen_thresholds d = Ok d' ->
  py_eqb (VInt (fd_target_forward_closed_trades d)) (VInt 30) = true /\ py_eqb (VFloat (fd_max_estimated_days d)) (VInt 60) = true.
Proof.
  unfold validate_frozen_thresholds. intros (E1 & E)%assert_bind_ok. apply Z.eqb_eq in E1 as ->.
  apply assert_bind_ok in E as [E2 _]. by split.
Qed.

Lemma build_inv id version rules dh ref eh symbols density eligible base t h :
  build_forward_validation_handoff id version rules dh ref eh symbols density eligible base t = Ok h ->
  validate_integrity h = Ok h /\ strip ref <> EmptyString /\
  exists rules_hash i, strategy_package_identity id version rules_hash = Ok i /\
    fh_candidate_id h = trim id /\ fh_candidate_version h = trim version /\ fh_rules_hash h = trim rules_hash /\
    (exists r, rules_hash = strategy_rules_hash r) /\
    fh_strategy_code_hash h = trim (pi_strategy_code_hash i) /\ fh_strategy_package_hash h = trim (pi_strategy_package_hash i) /\
    fh_validation_evidence_ref h = trim ref /\ fh_density h = density /\
    fh_runtime_config_binding_hash h = trim (forward_runtime_binding_hash base) /\
    fh_package_identity h = map (fun kv => (trim kv.1, trim kv.2)) (binding_texts i).
Proof.
  unfold build_forward_validation_handoff. intros E.
  apply assert_bind_ok in E as [_ E]. apply assert_bind_ok in E as [_ E]. apply assert_bind_ok in E as [_ E].
  apply assert_bind_ok in E as [Href E]. apply res_bind_inv in E as (r & Hr & E). apply res_bind_inv in E as (i & Hi & E).
  pose proof (integrity_inv _ _ E) as [-> _]. split; [exact E|].
  apply andb_true_iff in Href as [Href _]. split; [by destruct (strip ref)|].
  exists (strategy_rules_hash r), i. split; [exact Hi|]. split_and!; try reflexivity. by exists r.
Qed.

Lemma registry_ids_unpadded id c : get_candidate id = Ok c -> trim id = id /\ trim (sc_version c) = sc_version c.
Proof.
  intros [<- Hc]%get_candidate_some. revert c Hc. apply Forall_forall. repeat constructor.
Qed.

Lemma trim_sha256_prefix s : trim ("sha256:" +:+ hexdigest s) = ("sha256:" +:+ hexdigest s)%string.
Proof.
  apply trim_unpadded. unfold unpadded. simpl. repeat (constructor; [reflexivity|]).
  eapply Forall_impl; [exact (hexdigest_is_hex s)|]. intros c. apply hex_unpadded.
Qed.

Lemma identity_hashes_unpadded id version rules_hash i : strategy_package_identity id version rules_hash = Ok i ->
  trim (pi_strategy_code_hash i) = pi_strategy_code_hash i /\ trim (pi_strategy_package_hash i) = pi_strategy_package_hash i.
Proof.
  intros (_ & _ & _ & _ & _ & _ & Hc & ->)%identity_inv. split; [|apply trim_hexdigest].
  unfold _strategy_code_hash in Hc. apply res_bind_inv in Hc as (l & _ & <-%Ok_inj). apply trim_hexdigest.
Qed.

Lemma without_absent d key : Forall (fun kv => kv.1 <> key) d -> dict_without d key = d.
Proof.
  unfold dict_without, bfilter. induction 1 as [|kv d Hk _ IH]; [done|]. simpl.
  rewrite (proj2 (String.eqb_neq _ _) Hk). simpl. by rewrite IH.
Qed.

Lemma set_absent d key v : Forall (fun kv => kv.1 <> key) d -> dict_set d key v = d ++ [(key, v)].
Proof.
  intros Hd. unfold dict_set. destruct (existsb _ d) eqn:E; [|done].
  apply existsb_exists in E as (kv & Hkv%list_elem_of_In & E%String.eqb_eq).
  by apply (proj1 (Forall_forall _ _) Hd) in Hkv.
Qed.

(** The configuration that carries a handoff. *)
Definition with_handoff (base : PyDict) (h : ForwardValidationHandoff) : PyDict :=
  dict_set base "forward_validation" (VDict "" (dump_handoff h)).

Lemma with_handoff_binding base h : Forall (fun kv => kv.1 <> "forward_validation"%string) base ->
  forward_runtime_binding_hash (with_handoff base h) = forward_runtime_binding_hash base.
Proof.
  intros Hb. unfold forward_runtime_binding_hash, with_handoff. rewrite (set_absent _ _ _ Hb). f_equal.
  transitivity base; [|by rewrite without_absent]. unfold dict_without, bfilter. rewrite List.filter_app. simpl.
  rewrite app_nil_r. exact (without_absent base "forward_validation" Hb).
Qed.

Lemma dumped_gates h : fh_profitability_recovery_passed h = true -> fh_forward_density_passed h = true ->
  fd_passed (fh_density h) = true -> is_ok (validate_frozen_thresholds (fh_density h)) = true ->
  forward_gates (dump_handoff h) = None.
Proof.
  intros E1 E2 E3 Ef. destruct (validate_frozen_thresholds _) as [d|] eqn:Ed; [|done].
  apply frozen_inv in Ed as [E4 E5]. unfold forward_gates.
  change (py_get (dump_handoff h) "profitability_recovery_passed") with (VBool (fh_profitability_recovery_passed h)).
  change (py_get (dump_handoff h) "forward_density_passed") with (VBool (fh_forward_density_passed h)).
  change (py_get (dump_handoff h) "density") with (dump_density (fh_density h)). rewrite E1, E2. cbn [is_true negb orb dump_density].
  change (py_get _ "passed") with (VBool (fd_passed (fh_density h))). rewrite E3. cbn [is_true negb].
  change (py_get _ "target_forward_closed_trades") with (VInt (fd_target_forward_closed_trades (fh_density h))).
  change (py_get _ "max_estimated_days") with (VFloat (fd_max_estimated_days (fh_density h))). by rewrite E4, E5.
Qed.

Lemma dumped_package id version rules_hash rules i c h :
  get_candidate id = Ok c -> sc_version c = version ->
  strategy_package_identity id version rules_hash = Ok i -> rules_hash = strategy_rules_hash rules ->
  fh_candidate_id h = id -> fh_candidate_version h = version -> fh_strategy_id h = id -> fh_strategy_version h = version ->
  fh_rules_hash h = rules_hash -> fh_strategy_code_hash h = pi_strategy_code_hash i ->
  fh_strategy_package_hash h = pi_strategy_package_hash i ->
  make_StrategyRules (fh_strategy_rules h) = Ok rules -> py_str (py_get (entry_rules rules) "candidate_id") = id ->
  fh_package_identity h = binding_texts i ->
  forward_package (dump_handoff h) id id version version = Ok (inr (rules, i)).
Proof.
  intros Hc Hv Hi -> E1 E2 E3 E4 E5 E6 E7 Hr Hid Ep. unfold forward_package. rewrite !str_eqb_refl, Hc. cbn [negb orb].
  change (py_item (dump_handoff h) "strategy_rules") with (Ok (VDict "" (fh_strategy_rules h))).
  unfold mbind, res_bind, rules_of. rewrite Hr, Hv, Hid, !str_eqb_refl. cbn [negb orb].
  change (py_get (dump_handoff h) "rules_hash") with (VStr (fh_rules_hash h)).
  rewrite E5, (proj2 (eq_str_iff _ _) eq_refl), Hi. cbn [negb].
  change (py_get (dump_handoff h) "strategy_code_hash") with (VStr (fh_strategy_code_hash h)).
  change (py_get (dump_handoff h) "strategy_package_hash") with (VStr (fh_strategy_package_hash h)).
  change (py_get (dump_handoff h) "package_identity") with (texts (fh_package_identity h)). rewrite E6, E7, Ep.
  pose proof (identity_inv _ _ _ _ Hi) as (_ & _ & _ & F1 & F2 & F3 & _).
  assert (snapshot_binding i = identity_binding id version (strategy_rules_hash rules) (VStr (pi_strategy_code_hash i))
            (VStr (pi_strategy_package_hash i))) as Es by (unfold snapshot_binding; by rewrite F1, F2, F3).
  change (texts (binding_texts i)) with (snapshot_binding i). rewrite Es.
  by rewrite (proj2 (identity_binding_eq _ _ _ _ _ _ _ _ _ _)).
Qed.

Lemma dumped_evidence h id version rules i hash : py_len (fh_dataset_hash h) = 64%nat ->
  py_len (fh_validation_evidence_hash h) = 64%nat -> strip (fh_validation_evidence_ref h) <> EmptyString ->
  forward_gates (dump_handoff h) = None ->
  exists a, forward_evidence execution_symbols (dump_handoff h) hash id version rules i = Ok a /\
    pa_authorized a = true /\ pa_candidate_id a = Some id.
Proof.
  intros E1 E2 E3 E4. unfold forward_evidence.
  change (py_get (dump_handoff h) "validation_evidence_ref") with (VStr (fh_validation_evidence_ref h)).
  change (py_get (dump_handoff h) "validation_evidence_hash") with (VStr (fh_validation_evidence_hash h)).
  change (py_get (dump_handoff h) "dataset_hash") with (VStr (fh_dataset_hash h)).
  rewrite (proj2 (written_text_some _ _) (conj eq_refl E3)), (proj2 (sha256_text_iff _ _) (conj eq_refl E2)),
    (proj2 (sha256_text_iff _ _) (conj eq_refl E1)), E4. eexists. split_and!; reflexivity.
Qed.

Lemma trimmed_binding i id version rules_hash : strategy_package_identity id version rules_hash = Ok i ->
  trim id = id -> trim version = version -> trim rules_hash = rules_hash ->
  map (fun kv => (trim kv.1, trim kv.2)) (binding_texts i) = binding_texts i.
Proof.
  intros Hi E1 E2 E3. pose proof (identity_inv _ _ _ _ Hi) as (_ & _ & _ & F1 & F2 & F3 & _).
  apply identity_hashes_unpadded in Hi as [E4 E5]. unfold binding_texts. cbn [map fst snd]. by rewrite F1, F2, F3, E1, E2, E3, E4, E5.
Qed.

(** The block of a dumped handoff, once its parts are known to pass. *)
Lemma forward_block_accepts base h id version rules i symbol a : model_validate (dump_handoff h) = Ok h ->
  fh_schema_version h = SCHEMA_V2 -> fh_candidate_id h = id -> fh_candidate_version h = version ->
  fh_strategy_id h = id -> fh_strategy_version h = version -> id <> EmptyString -> version <> EmptyString ->
  fh_eligible_execution_symbols h = execution_symbols -> symbol ∈ execution_symbols ->
  fh_runtime_config_binding_hash h = forward_runtime_binding_hash (with_handoff base h) ->
  forward_package (dump_handoff h) id id version version = Ok (inr (rules, i)) ->
  forward_evidence execution_symbols (dump_handoff h) (canonical_config_hash (with_handoff base h)) id version rules i = Ok a ->
  forward_block execution_symbols (dump_handoff h) (with_handoff base h)
    (Some (canonical_config_hash (with_handoff base h))) symbol = Ok a.
Proof.
  intros Hm I1 E1 E2 I3 I4 Hid Hv Hsym Hin Hbind Hp He. unfold forward_block.
  change (py_get (dump_handoff h) "schema_version") with (VStr (fh_schema_version h)).
  rewrite I1, (proj2 (eq_str_iff _ _) eq_refl), Hm. cbn [negb]. unfold mbind at 1, res_bind at 1.
  change (str_truthy (canonical_config_hash _)) with true. rewrite str_eqb_refl. cbn [negb orb].
  change (py_get (dump_handoff h) "runtime_config_binding_hash") with (VStr (fh_runtime_config_binding_hash h)).
  rewrite Hbind, (proj2 (eq_str_iff _ _) eq_refl). cbn [negb].
  change (py_get (dump_handoff h) "production_approval") with VNone.
  change (py_get (dump_handoff h) "authorization_state") with VNone. cbn [is_true py_eq_str orb].
  change (py_get (dump_handoff h) "eligible_execution_symbols") with (VList "" (map VStr (fh_eligible_execution_symbols h))).
  rewrite Hsym, (proj2 (symbol_eligible_iff _ _) (conj (ex_intro _ ""%string eq_refl) Hin)). cbn [negb].
  change (py_get (dump_handoff h) "candidate_id") with (VStr (fh_candidate_id h)).
  change (py_get (dump_handoff h) "strategy_id") with (VStr (fh_strategy_id h)).
  change (py_get (dump_handoff h) "candidate_version") with (VStr (fh_candidate_version h)).
  change (py_get (dump_handoff h) "strategy_version") with (VStr (fh_strategy_version h)).
  rewrite E1, E2, I3, I4, (proj2 (nonempty_text_iff _ _) (conj eq_refl Hid)), (proj2 (nonempty_text_iff _ _) (conj eq_refl Hv)).
  rewrite Hp. exact He.
Qed.

Lemma handoff_accepted id version rules dh ref eh symbols density eligible base t h c r symbol :
  build_forward_validation_handoff id version rules dh ref eh symbols density eligible base t = Ok h ->
  is_ok (validate_frozen_thresholds density) = true ->
  Forall (fun kv => kv.1 <> "forward_validation"%string) base ->
  coerce_handoff (dump_handoff h) = Ok h ->
  get_candidate id = Ok c -> sc_version c = version ->
  make_StrategyRules (fh_strategy_rules h) = Ok r -> py_str (py_get (entry_rules r) "candidate_id") = id ->
  fh_eligible_execution_symbols h = execution_symbols -> symbol ∈ execution_symbols ->
  exists a, resolve_testnet_forward_authorization execution_symbols (Some (with_handoff base h))
              (Some (canonical_config_hash (with_handoff base h))) symbol (Some "BINANCE_TESTNET"%string) = Ok a /\
    pa_authorized a = true /\ pa_candidate_id a = Some id.
Proof.
  intros Hb Hd Hbase Hj Hc Hv Hr Hid Hsym Hin. apply build_inv in Hb as (Hi & Href & rh & i & Hpi & E1 & E2 & E3 & [r0 E0] & E4 & E5 & E6 & E7 & E8 & E9).
  destruct (registry_ids_unpadded _ _ Hc) as [T1 T2]. rewrite Hv in T2.
  assert (trim rh = rh) as T3 by (rewrite E0; apply trim_hexdigest).
  pose proof (identity_hashes_unpadded _ _ _ _ Hpi) as [T4 T5].
  rewrite T1 in E1. rewrite T2 in E2. rewrite T3 in E3. rewrite T4 in E4. rewrite T5 in E5.
  unfold forward_runtime_binding_hash, canonical_config_hash in E8. rewrite trim_sha256_prefix in E8.
  rewrite (trimmed_binding _ _ _ _ Hpi T1 T2 T3) in E9.
  pose proof (integrity_inv _ _ Hi) as (_ & I1 & I2 & I3 & I4 & I5 & I6 & I7 & I8 & I9 & (r' & Hr' & Hrh) & _).
  rewrite Hr in Hr'. apply Ok_inj in Hr' as <-. rewrite E1 in I3. rewrite E2 in I4. rewrite E3 in Hrh.
  assert (forward_gates (dump_handoff h) = None) as Hg by (apply dumped_gates; try assumption; by rewrite E7).
  assert (model_validate (dump_handoff h) = Ok h) as Hm.
  { unfold model_validate. rewrite Hj. unfold mbind, res_bind. rewrite E7. destruct (validate_frozen_thresholds density); done. }
  pose proof (dumped_package id version rh r i c h Hc Hv Hpi (eq_sym Hrh) E1 E2 I3 I4 E3 E4 E5 Hr Hid E9) as Hp.
  assert (strip (fh_validation_evidence_ref h) <> EmptyString) as Hs by (rewrite E6; exact (fun F => Href (proj1 (strip_trim _) F))).
  destruct (dumped_evidence h id version r i (canonical_config_hash (with_handoff base h)) I5 I6 Hs Hg) as (a & Ha & Haut & Hcand).
  exists a. split; [|exact (conj Haut Hcand)]. unfold resolve_testnet_forward_authorization. cbn [default negb].
  rewrite (bool_decide_eq_true_2 _ eq_refl). cbn [negb].
  assert (py_get (with_handoff base h) "forward_validation" = VDict "" (dump_handoff h)) as -> by (unfold with_handoff; by rewrite py_get_set).
  change (py_get (dump_handoff h) "status") with (VStr (fh_status h)). rewrite I2. cbn [py_eq_str]. rewrite str_eqb_refl. cbn [negb].
  pose proof (identity_inv _ _ _ _ Hpi) as (N1 & N2 & _).
  rewrite (forward_block_accepts base h id version r i symbol a Hm I1 E1 E2 I3 I4 N1 N2 Hsym Hin); [reflexivity| |exact Hp|exact Ha].
  rewrite (with_handoff_binding _ _ Hbase). exact E8.
Qed.

(** C8. The handoff that validation builds is one the runtime accepts: put under
    [forward_validation] into the configuration it was built for, whatever else that
    configuration holds, it authorizes every symbol of the execution universe on the
    testnet for its candidate - if the candidate is registered with that version and
    named by the rules, the universe is the one it was built for, and the model
    library reads back what it dumped.  The hash of the handoff, its binding to the
    configuration without itself, and the hash of the snapshot never disagree. *)
Theorem built_handoff_is_authorized id version rules dh ref eh symbols density eligible base t h c r symbol :
  build_forward_validation_handoff id version rules dh ref eh symbols density eligible base t = Ok h ->
  is_ok (validate_frozen_thresholds density) = true ->
  Forall (fun kv => kv.1 <> "forward_validation"%string) base ->
  coerce_handoff (dump_handoff h) = Ok h ->
  get_candidate id = Ok c -> sc_version c = version ->
  make_StrategyRules (fh_strategy_rules h) = Ok r -> py_str (py_get (entry_rules r) "candidate_id") = id ->
  fh_eligible_execution_symbols h = execution_symbols -> symbol ∈ execution_symbols ->
  exists a, resolve_testnet_forward_authorization execution_symbols (Some (with_handoff base h))
              (Some (canonical_config_hash (with_handoff base h))) symbol (Some "BINANCE_TESTNET"%string) = Ok a /\
    pa_authorized a = true /\ pa_candidate_id a = Some id.
Proof. apply handoff_accepted. Qed.
End forward.
