(* ===== verification/StrategyCases.v ===== *)
(** * StrategyCases: an approved strategy and a forward run

    The theorems of [StrategyPackage], [AuthorizationLaws] and [ForwardLaws] at one
    checkout: every source file holds its own name and a line, the manifest approves
    [trend_momentum_v2_enriched], and a handoff is built for it. *)
From S2P Require Import Prelude PyDecimal PyValue Sha256 Canonical Receipts Database Repository Ledger StrategyPackage.
From S2P Require Import StrategyManifest ForwardHandoff RiskTiers Cycle OperatorProfile StrategyAuthorization AuthorizationLaws.
From S2P Require Import ForwardLaws.
From Stdlib Require Import Ascii.
From stdpp Require Import pretty.
Local Open Scope Z_scope.

(** ** Two checkouts *)

Definition carriage_return : string := String "013" EmptyString.
Definition unix_tree : StrategySources := {| read_source path := Ok (path +:+ newline +:+ "x = 1" +:+ newline) |}.
Definition windows_tree : StrategySources :=
  {| read_source path := Ok (path +:+ carriage_return +:+ newline +:+ "x = 1" +:+ carriage_return +:+ newline) |}.
Definition ENRICHED : string := "trend_momentum_v2_enriched".

(** A list whose digests tell its texts apart, by computing each digest once. *)
Definition digests_differ (texts : list string) : bool :=
  let pairs := map (fun s => (hexdigest s, s)) texts in
  forallb (fun p => forallb (fun q => negb (String.eqb p.1 q.1) || String.eqb p.2 q.2) pairs) pairs.

Lemma digests_distinguish texts : digests_differ texts = true -> distinguishes texts.
Proof.
  unfold digests_differ. rewrite forallb_forall. intros Hf a b Ha Hb E.
  assert (forall s, s ∈ texts -> In (hexdigest s, s) (map (fun s => (hexdigest s, s)) texts)) as Hin
    by (intros s Hs; apply in_map_iff; exists s; split; [reflexivity|by apply list_elem_of_In]).
  pose proof (proj1 (forallb_forall _ _) (Hf _ (Hin a Ha)) _ (Hin b Hb)) as Hp. cbn [fst snd] in Hp.
  rewrite E, str_eqb_refl in Hp. by apply String.eqb_eq.
Qed.

Lemma code_hash_identifies_sources_witness :
  _strategy_code_hash (H := unix_tree) ENRICHED = _strategy_code_hash (H := windows_tree) ENRICHED.
Proof.
  apply (code_hash_identifies_sources unix_tree windows_tree ENRICHED).
  - unfold readable. repeat constructor.
  - unfold readable. repeat constructor.
  - apply digests_distinguish. vm_compute. reflexivity.
  - repeat (constructor; [vm_compute; reflexivity|]). constructor.
Defined.

(** ** An approved manifest *)

#[local] Existing Instance unix_tree.

Definition UNIVERSE : list string := ["BTC/USDT"; "ETH/USDT"]%string.
Definition enriched_kwargs : PyDict :=
  [("entry_rules", VDict "" [("candidate_id", VStr ENRICHED); ("entry_timeframe", VStr "15m")]);
   ("stoploss_rules", VDict "" [("atr_multiple", VFloat "2.0")]);
   ("takeprofit_rules", VDict "" [("risk_reward", VFloat "2.0")])]%string.
Definition enriched_rules : StrategyRules :=
  mkRules [("candidate_id", VStr ENRICHED); ("entry_timeframe", VStr "15m")]%string [] [("atr_multiple", VFloat "2.0")]%string
    [("risk_reward", VFloat "2.0")]%string [].
Definition rules_hash : string := Eval vm_compute in strategy_rules_hash enriched_rules.
Definition code_hash : string := Eval vm_compute in match _strategy_code_hash ENRICHED with Ok h => h | Raise _ => EmptyString end.
Definition package_hash : string := Eval vm_compute in _strategy_package_hash ENRICHED "2.0.0" rules_hash code_hash.
Definition commit : string := "470d3d3d1c43e775bfd05062b777d3d26a2bfb15".

Definition enriched_binding : PyVal := identity_binding ENRICHED "2.0.0" rules_hash (VStr code_hash) (VStr package_hash).
Definition base_config : PyDict :=
  [("execution_profile", VDict "" [("max_leverage", VInt 10)]); ("strategy_rules", VDict "" enriched_kwargs);
   ("canonical_strategy_manifest", enriched_binding)]%string.
Definition base_hash : string := Eval vm_compute in canonical_config_hash base_config.

Definition manifest_raw (state : string) : PyDict :=
  [("schema_version", VInt 4); ("strategy_key", VStr "auto_paper_mature_templates"); ("strategy_id", VStr ENRICHED);
   ("strategy_version", VStr "2.0.0"); ("rules_hash", VStr rules_hash); ("strategy_code_hash", VStr code_hash);
   ("strategy_package_hash", VStr package_hash); ("strategy_source_commit", VStr commit); ("approval_commit", VStr commit);
   ("configured_execution_scope", VList "" (map VStr UNIVERSE)); ("eligible_execution_symbols", VList "" (map VStr UNIVERSE));
   ("research_symbols", VList "" (map VStr UNIVERSE)); ("validation_evidence", VDict "" [("report_ref", VStr "report-1")]);
   ("authorization_state", VStr state);
   ("approval", VDict "" [("approved_by", VStr "operator"); ("approved_at", VStr "2026-08-19")]);
   ("config_snapshot_hash", VStr base_hash); ("effective_at", VStr "2026-08-19")]%string.
Definition approved_manifest : ManifestFile := {| manifest_json := Ok (VDict "" (manifest_raw "APPROVED")) |}.
Definition pending_manifest : ManifestFile := {| manifest_json := Ok (VDict "" (manifest_raw "PENDING")) |}.

Definition authorized_under (M : ManifestFile) (H : StrategySources) (symbol : string) : bool :=
  match resolve_production_authorization UNIVERSE (Some base_config) (Some base_hash) symbol with
  | Ok a => pa_authorized a
  | Raise _ => false
  end.

(** A pending manifest and a symbol outside its scope: not authorized. *)
Example what_is_refused :
  (authorized_under pending_manifest unix_tree "BTC/USDT", authorized_under approved_manifest unix_tree "SOL/USDT") = (false, false).
Proof. vm_compute. reflexivity. Qed.

#[local] Existing Instance approved_manifest.

Definition btc_authorization : res ProductionAuthorization :=
  Eval vm_compute in resolve_production_authorization UNIVERSE (Some base_config) (Some base_hash) "BTC/USDT".
Lemma btc_resolved : resolve_production_authorization UNIVERSE (Some base_config) (Some base_hash) "BTC/USDT" = btc_authorization.
Proof. vm_compute. reflexivity. Qed.

Lemma production_authorized_iff_witness : exists a m rules,
  resolve_production_authorization UNIVERSE (Some base_config) (Some base_hash) "BTC/USDT" = Ok a /\
  production_bound UNIVERSE base_config base_hash "BTC/USDT" m rules /\ pa_candidate_id a = Some ENRICHED.
Proof.
  destruct btc_authorization as [a|] eqn:E; [|discriminate E].
  destruct (proj1 (production_authorized_iff UNIVERSE (Some base_config) (Some base_hash) "BTC/USDT") a
              (eq_trans btc_resolved E) ltac:(injection E as <-; reflexivity)) as (c & h & m & rules & Ec & Eh & Hb & _).
  injection Ec as <-. injection Eh as <-. exists a, m, rules. split; [exact (eq_trans btc_resolved E)|].
  split; [exact Hb|]. injection E as <-. reflexivity.
Defined.

(** ** A forward run *)

(** A reader that takes every field at its declared type and dates as integers. *)
Definition bad : PyExc := ValueError "ValidationError".
Definition text_at (d : PyDict) (key : string) : res string :=
  match py_find d key with Some (VStr s) => Ok (trim s) | _ => Raise bad end.
Definition int_at (d : PyDict) (key : string) : res Z := match py_find d key with Some (VInt z) => Ok z | _ => Raise bad end.
Definition float_at (d : PyDict) (key : string) : res string := match py_find d key with Some (VFloat s) => Ok s | _ => Raise bad end.
Definition bool_at (d : PyDict) (key : string) : res bool := match py_find d key with Some (VBool b) => Ok b | _ => Raise bad end.
Definition dict_at (d : PyDict) (key : string) : res PyDict := match py_find d key with Some (VDict _ e) => Ok e | _ => Raise bad end.
Definition as_text (v : PyVal) : option string := match v with VStr s => Some (trim s) | _ => None end.
Definition list_at (d : PyDict) (key : string) : res (list string) :=
  match py_find d key with
  | Some (VList _ l) => match mapM as_text l with Some s => Ok s | None => Raise bad end
  | _ => Raise bad
  end.
Definition texts_at (d : PyDict) (key : string) : res (list (string * string)) :=
  e ← dict_at d key;
  match mapM (fun kv => s ← as_text kv.2; Some (trim kv.1, s)) e with Some l => Ok l | None => Raise bad end.
Definition date_at (d : PyDict) (key : string) : res datetime :=
  s ← text_at d key; match parse_int s with Some z => Ok z | None => Raise bad end.

Definition strict_density (d : PyDict) : res ForwardDensityMetrics :=
  bars ← int_at d "eligible_closed_bars"; candidates ← int_at d "candidate_count"; trades ← int_at d "closed_trade_count";
  per_day ← float_at d "closed_trades_per_day"; median ← float_at d "median_inter_trade_hours";
  p90 ← float_at d "p90_inter_trade_hours"; estimated ← float_at d "estimated_days_to_30_closed_trades";
  target ← int_at d "target_forward_closed_trades"; horizon ← float_at d "max_estimated_days"; passed ← bool_at d "passed";
  Ok (mkDensity bars candidates trades per_day median p90 estimated target horizon passed).

Definition strict_handoff (d : PyDict) : res ForwardValidationHandoff :=
  schema ← text_at d "schema_version"; status ← text_at d "status"; cid ← text_at d "candidate_id";
  cversion ← text_at d "candidate_version"; sid ← text_at d "strategy_id"; sversion ← text_at d "strategy_version";
  rules ← text_at d "rules_hash"; code ← text_at d "strategy_code_hash"; package ← text_at d "strategy_package_hash";
  dataset ← text_at d "dataset_hash"; ref ← text_at d "validation_evidence_ref"; evidence ← text_at d "validation_evidence_hash";
  symbols ← list_at d "eligible_execution_symbols"; raw ← dict_at d "strategy_rules";
  binding ← text_at d "runtime_config_binding_hash"; identity ← texts_at d "package_identity";
  density ← dict_at d "density" ≫= strict_density; recovery ← bool_at d "profitability_recovery_passed";
  dense ← bool_at d "forward_density_passed"; frozen ← date_at d "frozen_at"; hash ← text_at d "handoff_hash";
  Ok (mkHandoff schema status cid cversion sid sversion rules code package dataset ref evidence symbols raw binding identity
        density recovery dense frozen hash).

#[local] Instance strict_model : HandoffModel := {| coerce_handoff := strict_handoff; datetime_json t := pretty t |}.

Definition demo_density : ForwardDensityMetrics := mkDensity 9000 120 60 "2.0" "8.0" "20.0" "15.0" 30 "60.0" true.
Definition build_demo : res ForwardValidationHandoff :=
  build_forward_validation_handoff ENRICHED "2.0.0" enriched_kwargs code_hash "report-1" package_hash UNIVERSE demo_density
    true base_config 1000.
Definition binding_hash : string := Eval vm_compute in forward_runtime_binding_hash base_config.
Definition sealed_hash (r : res ForwardValidationHandoff) : string :=
  match r with Ok h => fh_handoff_hash h | Raise _ => EmptyString end.
Definition handoff_hash : string := Eval vm_compute in sealed_hash build_demo.
Definition demo_handoff : ForwardValidationHandoff :=
  mkHandoff SCHEMA_V2 READY ENRICHED "2.0.0" ENRICHED "2.0.0" rules_hash code_hash package_hash code_hash "report-1" package_hash
    UNIVERSE enriched_kwargs binding_hash
    (binding_texts (mkIdentity ENRICHED "2.0.0" rules_hash code_hash package_hash)) demo_density true true 1000 handoff_hash.
Definition forward_config : PyDict := with_handoff base_config demo_handoff.

(** A reference in spaces is trimmed after the handoff was hashed, so the handoff is
    refused by its own validator; a blank one is refused before. *)
Definition padded_handoff : ForwardValidationHandoff :=
  mkHandoff SCHEMA_V2 READY ENRICHED "2.0.0" ENRICHED "2.0.0" rules_hash code_hash package_hash code_hash " report-1 " package_hash
    UNIVERSE enriched_kwargs binding_hash
    (binding_texts (mkIdentity ENRICHED "2.0.0" rules_hash code_hash package_hash)) demo_density true true 1000 EmptyString.
Example handoff_references :
  validate_integrity (stripped (with_hash padded_handoff (canonical_hash (VDict "" (handoff_content padded_handoff))))) =
    Raise (ValueError "FORWARD_VALIDATION_HANDOFF_HASH_MISMATCH") /\
  build_forward_validation_handoff ENRICHED "2.0.0" enriched_kwargs code_hash "  " package_hash UNIVERSE demo_density true
    base_config 1000 = Raise (ValueError "validation evidence reference and SHA-256 are required").
Proof. split; vm_compute; reflexivity. Qed.

Lemma demo_built :
  build_forward_validation_handoff ENRICHED "2.0.0" enriched_kwargs code_hash "report-1" package_hash UNIVERSE demo_density
    true base_config 1000 = Ok demo_handoff.
Proof. vm_compute. reflexivity. Qed.

Definition enriched_candidate : StrategyCandidate := mkStrategyCandidate ENRICHED "2.0.0" "BASELINE_ONLY" false.
Lemma demo_frozen : is_ok (validate_frozen_thresholds demo_density) = true.
Proof. vm_compute. reflexivity. Qed.
Lemma base_has_no_handoff : Forall (fun kv => kv.1 <> "forward_validation"%string) base_config.
Proof. repeat constructor; done. Qed.
Lemma demo_reads_back : coerce_handoff (dump_handoff demo_handoff) = Ok demo_handoff.
Proof. vm_compute. reflexivity. Qed.
Lemma enriched_registered : get_candidate ENRICHED = Ok enriched_candidate.
Proof. reflexivity. Qed.
Lemma demo_rules : make_StrategyRules (fh_strategy_rules demo_handoff) = Ok enriched_rules.
Proof. vm_compute. reflexivity. Qed.
Lemma demo_named : py_str (py_get (entry_rules enriched_rules) "candidate_id") = ENRICHED.
Proof. reflexivity. Qed.
Lemma demo_universe : fh_eligible_execution_symbols demo_handoff = UNIVERSE.
Proof. reflexivity. Qed.
Lemma eth_in_universe : "ETH/USDT"%string ∈ UNIVERSE.
Proof. right. left. Qed.

Lemma built_handoff_is_authorized_witness : exists a,
  resolve_testnet_forward_authorization UNIVERSE (Some (with_handoff base_config demo_handoff))
    (Some (canonical_config_hash (with_handoff base_config demo_handoff))) "ETH/USDT" (Some "BINANCE_TESTNET"%string) = Ok a /\
  pa_authorized a = true /\ pa_candidate_id a = Some ENRICHED.
Proof.
  exact (built_handoff_is_authorized UNIVERSE ENRICHED "2.0.0" enriched_kwargs code_hash "report-1" package_hash UNIVERSE
    demo_density true base_config 1000 demo_handoff enriched_candidate enriched_rules "ETH/USDT" demo_built demo_frozen
    base_has_no_handoff demo_reads_back enriched_registered eq_refl demo_rules demo_named demo_universe eth_in_universe).
Defined.

Lemma forward_authorization_is_sealed_witness : exists a r block,
  resolve_testnet_forward_authorization UNIVERSE (Some forward_config) (Some (canonical_config_hash forward_config)) "ETH/USDT"
    (Some "BINANCE_TESTNET"%string) = Ok a /\
  py_get forward_config "forward_validation" = VDict r block /\
  forward_sealed UNIVERSE block forward_config (canonical_config_hash forward_config) "ETH/USDT" a.
Proof.
  destruct (handoff_accepted UNIVERSE ENRICHED "2.0.0" enriched_kwargs code_hash "report-1" package_hash UNIVERSE
    demo_density true base_config 1000 demo_handoff enriched_candidate enriched_rules "ETH/USDT" demo_built demo_frozen
    base_has_no_handoff demo_reads_back enriched_registered eq_refl demo_rules demo_named demo_universe eth_in_universe)
    as (a & Ha & Hp & _).
  destruct (forward_authorization_is_sealed UNIVERSE _ _ _ _ a Ha Hp) as (_ & c & h & r & block & Ec & Eh & Hb & Hs).
  injection Ec as <-. injection Eh as <-. exists a, r, block. exact (conj Ha (conj Hb Hs)).
Defined.

(** Refused before anything is hashed: the mode, and no handoff. *)
Example forward_refusals :
  map (fun '(config, mode) => match resolve_testnet_forward_authorization UNIVERSE (Some config) (Some base_hash) "BTC/USDT" (Some mode) with
                              | Ok a => pa_reason a | Raise _ => "raised" end)
    [(forward_config, "LIVE"); (base_config, "BINANCE_TESTNET")]%string =
  ["TESTNET_FORWARD_REQUIRES_BINANCE_TESTNET"; "NO_FORWARD_VALIDATION_CANDIDATE"]%string.
Proof. vm_compute. reflexivity. Qed.
